(* ===== verification/_CoqProject ===== *)
-Q . S2P
Prelude.v
RingBuffer.v
Scheduler.v
PhysicalAllocator.v
VirtualMemory.v
MemoryManager.v
Printf.v
PrintfSpec.v
PrintfFormat.v
PrintfContract.v
PrintfNumbers.v
Binary64.v
PrintfFloat.v
Kmalloc.v
KmallocLists.v
KmallocHeap.v
KmallocSpec.v
KmallocClient.v
KernelHeap.v
Libk.v
Boot.v
BootMemory.v
UserDirectory.v
Keyboard.v
Console.v
Interrupts.v
UserOutput.v
Terminal.v
CxxAbi.v
Tasks.v
AddressSpace.v
ElfLoad.v
Modules.v
KernelMain.v
Qsort.v
QsortSpec.v
TreeSearch.v
NewlibString.v
NewlibCtype.v
NewlibStrtol.v
NewlibItoa.v
NewlibRandom.v
NewlibScan.v
NewlibCopy.v
NewlibTokens.v
Factorization.v
TwoWay.v
StrSearch.v
StrSearchSpec.v
