(* ===== verification/Prelude.v ===== *)
(** Sakura: a verification library for the SakuraOS kernel.

    * The program

    SakuraOS (Kernel/) is a small 32-bit kernel for the PC.  A Multiboot loader starts it with a
    memory map and a list of modules; [kernel_main] (Kernel/Kernel.cpp) sets up the descriptor
    tables, the memory manager and the scheduler, opens the console, and idles.  From then on
    interrupts drive it: the timer switches tasks, the keyboard fills a ring buffer, and [int 0x80]
    carries the system calls of programs linked with the newlib C library (newlib/).

      boot map -> physical allocator <- page tables <- memory manager <- heap <- task creation
      timer -> scheduler -> register switch         keyboard -> ring buffer -> console task
      user program -> C library -> int 0x80 -> system call table -> printk -> vsnprintf -> console

    * The files, and the code they model

    Prelude           machine integers with their wrap-around ([u8] .. [u64], [s8] .. [s64]), byte
                      memory ([Mem], [load32], [store32]), C strings, the kernel's message log;
                      the tactics [zlia], [bool_facts], [case_if] and the hint databases
                      [sakura] and [wraps].

    Memory:
    PhysicalAllocator MemoryManager/PhysicalAllocator.h, .cpp: the frame bitmap.
    VirtualMemory     MemoryManager/Paging.h, VirtualMemoryManager.cpp and the operations of
                      MemoryManager.cpp, on page tables that are words of memory.
    MemoryManager     the invariant [kernel_inv] of the kernel's directory, and memoryAllocate
                      and memoryFree under it.
    Boot              Multiboot.h, Multiboot.cpp, physicalAllocatorInit, MemoryManager::init.
    BootMemory        what init leaves: the invariant holds, and exactly the reserved pages are
                      mapped.
    UserDirectory     createUserPageDirectory under that invariant.
    Kmalloc           Libk/kmalloc.h, kmalloc.cpp: every function of the heap, over the class
                      [KernelPages] of a page supplier.
    KmallocLists, KmallocHeap, KmallocSpec, KmallocClient
                      its free lists; its invariant (regions tiled by segments), relative to the
                      class [PageLaws] and to an account of the pages in use, [PageLedger]; the
                      abstract allocator it implements; sequences of calls with the contents of
                      the blocks.
    KernelHeap        the memory manager as a page supplier that keeps the laws, page suppliers
                      with a record of what they handed out, and the heap's theorems.

    Tasks:
    Scheduler         Scheduler.h, Scheduler.cpp, Arch/i386/taskswitch.S: the task ring, the timer,
                      sleeping, and the switch of the registers.
    Tasks             Scheduler::createTask, Elf.h, Elf.cpp, Multiboot::loadModules; what the
                      loader accepts.
    AddressSpace      the order [grows] of machines that only gain pages; what page allocation and
                      memoryMap gain, and contents that stay in place under it.
    ElfLoad           what createTask and the ELF loader of Tasks put into memory, and the tasks
                      that run there.
    Modules           loadModules with the files of the boot loader, on AddressSpace and ElfLoad.
    KernelMain        Kernel.cpp: kernel_main, over all of the kernel's components.

    Devices and interfaces:
    RingBuffer        Libk/RingBuffer.h.
    Keyboard          Devices/Keyboard.h, Keyboard.cpp, a client of the ring buffer; its read also
                      access by access ([reading_step]), with interrupts in between.
    Console           Devices/TTY.h, TTY.cpp, Arch/i386/vga.h, Devices/Serial.cpp, and printk.
    Terminal          TTY::tty_process over Keyboard and Console: typed keys and their echo.
    Interrupts        Arch/i386/GDT.cpp, IDT.cpp, InterruptHandler.cpp, Syscalls.cpp, and the
                      C library's side, newlib/newlib/libc/sys/sakura.
    UserOutput        Interrupts over Console: a program's write, from the system call to the screen.

    Libraries:
    Printf            Libk/vsnprintf.c, over the class [Sink] of what it writes to and the class
                      [Double] of floating-point numbers.
    PrintfSpec, PrintfContract, PrintfFormat, PrintfNumbers
                      the memory it writes, what a call promises for any buffer, the language of
                      its formats, the numerals it prints.
    Binary64, PrintfFloat
                      IEEE double arithmetic of [SpecFloat] in exact units, and the decimals _ftoa
                      prints in it.
    Libk              Libk/Libk.cpp: memory and string routines.
    CxxAbi            Libk/CPP.h, CPP.cpp: exit handlers, guards, new and delete.
    Qsort, QsortSpec  newlib/newlib/libc/search: qsort.c, bsearch.c.
    TreeSearch        tsearch.c, tfind.c, tdelete.c, twalk.c, tdestroy.c of the same directory, over the
                      class [Order] of QsortSpec.
    NewlibString      newlib/newlib/libc/string: strcmp.c, strncmp.c, strcpy.c, strncpy.c, memccpy.c.
    NewlibScan        searches and comparisons: strlen.c, strnlen.c, strchr.c, strrchr.c, strchrnul.c,
                      memchr.c, memrchr.c, rawmemchr.c, memcmp.c, strcasecmp.c, strncasecmp.c.
    NewlibCopy        memcpy.c, mempcpy.c, memmove.c, memset.c, stpcpy.c, stpncpy.c, strcat.c,
                      strncat.c, strlcpy.c, strlcat.c.
    NewlibItoa        numbers as text: utoa.c, itoa.c, l64a.c, a64l.c, read back by NewlibStrtol.
    NewlibRandom      rand.c, random.c, rand_r.c and the rand48 family, with the theory of the periods
                      of congruential generators.
    NewlibTokens      taking strings apart: strspn.c, strcspn.c, strpbrk.c, strtok_r.c, strtok.c, strsep.c.
    Factorization     the theory behind the Two-Way search (periods, maximal suffixes, the critical
                      factorization), over the class [Order] of a comparison of characters.
    TwoWay            str-two-way.h, a template over the class [Macros]; its clients' macros obey
                      the class [MacroLaws].
    StrSearch, StrSearchSpec
                      its clients strstr.c, strcasestr.c, memmem.c and strnstr.c with all their other
                      algorithms; all of them compared with one reference, [first_at].
    NewlibCtype       newlib/newlib/libc/ctype.
    NewlibStrtol      newlib/newlib/libc/stdlib: strtol.c, strtoul.c, atol.c, atoi.c.

    Each model keeps the names of the source.  A state is a record of the variables the code
    keeps; an operation is a function from state to state; pointers are addresses; [None] is
    undefined behaviour, or too little fuel where a function takes fuel.  Messages of the kernel
    are entries of a log.  A theorem about a function with fuel states that the function returns.

    * What the theorems show

    - Ring buffer and keyboard: any sequence of operations behaves like a bounded queue
      ([ring_refines_queue]); with key interrupts between the reader's accesses, characters appear
      on the screen in the order typed, and all of them ([typed_keys_shown]), but for presses
      inside the two unlocked pairs of accesses in pop, where keys are lost ([press_in_getTail],
      [press_in_decrement]).
    - Scheduler: the tasks stay one ring ([tasks_form_ring]); each switch goes to the next eligible
      task ([schedule_round_robin]); a runnable task runs after at most as many ticks as there are
      tasks ([no_starvation]); when all sleep the search never ends ([all_asleep_spins]); a
      switched-out task comes back with its registers ([switch_roundtrip]).
    - Memory: first fit ([physicalAllocate_first_fit]), its inverse and its accounting; from the
      boot loader's map ([memory_map_loaded]) init establishes the invariant ([init_machine]) under
      which page allocation is correct and total ([memoryAllocate_kernel]), is undone by
      memoryFree, and gives user directories that share the kernel's gigabyte
      ([createUserPageDirectory_shares]).
    - Heap: on that page allocator every sequence of calls ends and keeps blocks apart
      ([heap_calls_safe], [heap_refines_allocator]), contents survive reallocation, cleared blocks
      are clear, and freed memory coalesces and goes back to the page supplier
      ([freed_heap_is_whole]).
    - Boot: kernel_main brings the machine from the boot loader into its idle loop, with paging,
      heap, scheduler, interrupts and console in the states the other theorems start from, and
      the first timer tick runs the console's task ([kernel_boots], on top of [init_machine]).
    - Task creation: a created task reaches its entry point with its argument on a fresh stack
      ([task_entry_receives_argument], across heap, memory manager and scheduler); the ELF loader
      accepts exactly what it says ([elf_header_accepted]), and where there is room an accepted
      program is loaded: each segment on fresh pages with the file's bytes, nothing else changed,
      the task running at the file's entry point ([program_starts]); loadModules does this for
      every file of the boot loader's table ([modules_run]).
    - Printing: what is printed does not depend on the buffer, the returned length is that of the
      whole text, and nothing is written outside the buffer ([vsnprintf_contract]); every format of
      the grammar is rendered directive by directive ([vsnprintf_renders]); integers print as
      their numerals with sign, prefix and padding ([integer_conversion]), doubles as a nearest
      decimal ([ftoa_decimals]).
    - Console, interrupts, system calls: the cells a write can touch, what printk stores and shows,
      descriptors as the processor reads them, what each system call of a user program reaches
      ([syscalls_end_to_end]), and how its text gets to the screen ([user_write_shown]).
    - C library: qsort terminates for every comparison, permutes, and sorts for an order; bsearch
      finds; the word-at-a-time string and memory routines agree with the byte loops, write what
      they promise and nothing else ([string_scans], [memory_scans], [memory_writes],
      [strings_grow]), and take strings apart into their tokens ([strings_split]); every algorithm behind strstr, strcasestr and memmem finds the first
      occurrence ([needle_factored], [strstr_first]); strtol and strtoul read numerals and saturate,
      and read back what utoa and itoa write ([numbers_read_back], [radix64_read_back]); the search trees of
      tsearch and tdelete are ordered sets on the heap ([tree_refines_set], [tree_walked]); the random
      generators compute the recurrences of their descriptions and have full periods
      ([generators_compute], [full_periods]).

    * Fuel and bounds

    Loops over a counter are structural recursions on it.  Fuel stands for loops whose end the code
    does not count: the scheduler's search (enough: the number of tasks), the mutual recursion of
    VirtualMap and identityMap (one level, as the kernel's tables exist) and the search of
    VirtualAllocate ([KERNEL_FUEL], the 262144 pages of the kernel's gigabyte), the list walks of
    the heap, the walk over the memory map (more than its entries), the loop over the program headers
    of a file (more than their number), the format loop of vsnprintf (more than the length of the format), qsort (more than the number of elements), and loops to
    the end of a C string (more than its length).  The loops of the string library that the code
    bounds by a length run on fuel computed from it; the searches of TwoWay and StrSearch take fuel
    for the places of the haystack (more than its length), and what they do at one place runs on
    fuel computed from the needle.  The search trees take fuel for their nodes; utoa has room for the
    32 digits of a number in base 2.  The scheduler answers [Spin] rather than [None]
    when its fuel is gone, since there the loop can really run forever.

    * What is not modelled

    - The assembly around kernel_main (boot.S, gdt.S, interrupts.S, crti.S, crtn.S): instructions
      that load tables and save registers.  What a global constructor does is a parameter.  The interrupt flag and the
      flush of the translation cache are in the memory manager's state; the memory model is
      sequentially consistent and has no cache.
    - What devices return (the keymap behind its end, port reads) and what fresh memory holds:
      parameters.
    - Interrupts inside the memory manager and the heap: their critical sections are modelled as
      the flag they set, not as interleavings.  The flag that the heap's lock clears and sets is a
      field of the heap, not the scheduler's own.
    - The ELF loader reads a file's headers at their own addresses, since loadModules maps a file
      to itself; a file elsewhere in the address space is outside the model.
    - Boundary tags are records in a store of their own: a client that writes outside its block
      is outside the model, as are misaligned and aliased tags.
    - The task switch is modelled for tasks of the kernel's directory; the change of address
      space at the load of cr3 is the register alone.
    - Double arithmetic is the class [Double]; its instance is IEEE binary64 by Stdlib's
      [SpecFloat], with C's conversions written out.
    - qsort exchanges whole elements of an array: the words or bytes in which swapfunc moves them,
      and elements of size 0, are not represented.
    - In the C library: what malloc returns to tsearch and the buffer of l64a are arguments; drand48 and
      erand48, which need ldexp of the mathematical library.
    - The abstract file classes (VirtualFS, Device.h), the user program in modules/, the build
      files, and the rest of newlib and libgloss, vendored C libraries for many processors. *)

From Stdlib Require Export Ascii.
From stdpp Require Export base tactics numbers list gmap functions strings.
From Stdlib Require Export ZArith Lia Bool.

#[global] Open Scope Z_scope.

(** ** Machine integers *)

(** C's unsigned types on i686: a value of a w-bit type is a [Z] kept in [0, 2^w) by one
    of these wraps, written at every operation that can leave the range. *)
Definition u8 (x : Z) : Z := x mod 256.
Definition u16 (x : Z) : Z := x mod 65536.
Definition u32 (x : Z) : Z := x mod 4294967296.
Definition u64 (x : Z) : Z := x mod 18446744073709551616.

(** Two's-complement reinterpretation of the low bits as a signed value. *)
Definition s8 (x : Z) : Z := let y := u8 x in if y <? 128 then y else y - 256.
Definition s16 (x : Z) : Z := let y := u16 x in if y <? 32768 then y else y - 65536.
Definition s32 (x : Z) : Z :=
  let y := u32 x in if y <? 2147483648 then y else y - 4294967296.
Definition s64 (x : Z) : Z :=
  let y := u64 x in if y <? 9223372036854775808 then y else y - 18446744073709551616.

Definition is_u8 (x : Z) : Prop := 0 <= x < 256.
Definition is_u16 (x : Z) : Prop := 0 <= x < 65536.
Definition is_u32 (x : Z) : Prop := 0 <= x < 4294967296.
Definition is_u64 (x : Z) : Prop := 0 <= x < 18446744073709551616.

Create HintDb sakura.
Create Rewrite HintDb wraps.

(** ** Tactics *)

(** [zlia]: linear arithmetic over the wraps, with [/] and [mod] by constants. *)
Ltac unfold_wraps :=
  unfold is_u8, is_u16, is_u32, is_u64, s8, s16, s32, s64, u8, u16, u32, u64 in *.
Ltac zlia := unfold_wraps; Z.to_euclidean_division_equations; lia.

(** [case_ifs]: split every boolean test of the goal, with its Z meaning in the context. *)
Ltac bool_facts :=
  repeat match goal with
  | H : (_ =? _) = true |- _ => apply Z.eqb_eq in H
  | H : (_ =? _) = false |- _ => apply Z.eqb_neq in H
  | H : (_ <? _) = true |- _ => apply Z.ltb_lt in H
  | H : (_ <? _) = false |- _ => apply Z.ltb_ge in H
  | H : (_ <=? _) = true |- _ => apply Z.leb_le in H
  | H : (_ <=? _) = false |- _ => apply Z.leb_gt in H
  | H : (_ >? _) = _ |- _ => rewrite Z.gtb_ltb in H
  | H : (_ >=? _) = _ |- _ => rewrite Z.geb_leb in H
  | H : (_ && _)%bool = true |- _ => apply andb_true_iff in H as [? ?]
  | H : (_ || _)%bool = false |- _ => apply orb_false_iff in H as [? ?]
  | H : negb _ = true |- _ => apply negb_true_iff in H
  | H : negb _ = false |- _ => apply negb_false_iff in H
  end.
Ltac case_if :=
  match goal with
  | |- context [if ?b then _ else _] => let E := fresh "E" in destruct b eqn:E; bool_facts
  end.
Ltac case_if_in H :=
  match type of H with
  | context [if ?b then _ else _] => let E := fresh "E" in destruct b eqn:E; bool_facts
  end.

(** [zcases]: decide every integer comparison of the goal. *)
Ltac zcases :=
  repeat match goal with
  | |- context [?x <=? ?y] => destruct (Z.leb_spec x y)
  | |- context [?x <? ?y] => destruct (Z.ltb_spec x y)
  | |- context [?x =? ?y] => destruct (Z.eqb_spec x y)
  end; simpl; try done; try lia.

(** ** Wraps *)

Lemma u8_range x : is_u8 (u8 x).
Proof. zlia. Qed.
Lemma u16_range x : is_u16 (u16 x).
Proof. zlia. Qed.
Lemma u32_range x : is_u32 (u32 x).
Proof. zlia. Qed.
Lemma u64_range x : is_u64 (u64 x).
Proof. zlia. Qed.

Lemma u8_small x : is_u8 x -> u8 x = x.
Proof. apply Z.mod_small. Qed.
Lemma u16_small x : is_u16 x -> u16 x = x.
Proof. apply Z.mod_small. Qed.
Lemma u32_small x : is_u32 x -> u32 x = x.
Proof. apply Z.mod_small. Qed.
Lemma u64_small x : is_u64 x -> u64 x = x.
Proof. apply Z.mod_small. Qed.

Lemma u32_u32 x : u32 (u32 x) = u32 x.
Proof. apply Z.mod_mod. lia. Qed.
Lemma u8_u8 x : u8 (u8 x) = u8 x.
Proof. apply Z.mod_mod. lia. Qed.
Lemma u32_add_l x y : u32 (u32 x + y) = u32 (x + y).
Proof. apply Zplus_mod_idemp_l. Qed.
Lemma u32_add_r x y : u32 (x + u32 y) = u32 (x + y).
Proof. apply Zplus_mod_idemp_r. Qed.
Lemma u32_sub_l x y : u32 (u32 x - y) = u32 (x - y).
Proof. apply Zminus_mod_idemp_l. Qed.
Lemma u32_sub_r x y : u32 (x - u32 y) = u32 (x - y).
Proof. apply Zminus_mod_idemp_r. Qed.
Lemma s32_small x : -2147483648 <= x < 2147483648 -> s32 x = x.
Proof. unfold s32. intros. case_if; zlia. Qed.

Lemma u32_s32 x : u32 (s32 x) = u32 x.
Proof. unfold s32. case_if; zlia. Qed.

#[export] Hint Resolve u8_range u16_range u32_range u64_range : sakura.
#[export] Hint Rewrite u32_u32 u8_u8 u32_add_l u32_add_r u32_sub_l u32_sub_r : wraps.

(** ** Bits *)

(** The bits of an [n]-bit value vanish from bit [n] on. *)
Lemma testbit_high x n i : 0 <= x < 2 ^ n -> 0 <= n <= i -> Z.testbit x i = false.
Proof.
  intros Hx Hi. rewrite <- (Z.mod_small x (2 ^ n)) by lia.
  apply Z.mod_pow2_bits_high. lia.
Qed.

(** A number is below 2^n exactly when it is non-negative and has no bit from n on. *)
Lemma bits_below x n :
  0 <= n -> 0 <= x -> (forall i, n <= i -> Z.testbit x i = false) -> x < 2 ^ n.
Proof.
  intros Hn Hx Hb.
  assert (x = x mod 2 ^ n) as ->; [|apply Z.mod_pos_bound; lia].
  apply Z.bits_inj'; intros i Hi. destruct (Z.lt_ge_cases i n).
  - by rewrite Z.mod_pow2_bits_low.
  - rewrite Z.mod_pow2_bits_high by lia. auto.
Qed.

(** ** Counting *)

Lemma filter_ext_in {A} (P Q : A -> Prop) `{!forall x, Decision (P x)} `{!forall x, Decision (Q x)} (l : list A) :
  (forall x, x ∈ l -> P x <-> Q x) -> filter P l = filter Q l.
Proof.
  induction l as [|x l IH]; intros Hl; [done|]. rewrite !filter_cons.
  pose proof (Hl x ltac:(left)). rewrite IH by (intros; apply Hl; by right).
  repeat case_decide; naive_solver.
Qed.

(** One more element passes the test: the count grows by one. *)
Lemma filter_add_one (P Q : Z -> Prop) `{!forall x, Decision (P x)} `{!forall x, Decision (Q x)} (p : Z) (l : list Z) :
  NoDup l -> p ∈ l -> ~ P p -> (forall x, Q x <-> x = p \/ P x) ->
  length (filter Q l) = S (length (filter P l)).
Proof.
  intros Hd. induction Hd as [|x l Hx Hd IH]; intros Hp HP HQ; [by apply not_elem_of_nil in Hp|].
  apply elem_of_cons in Hp as [->|Hp].
  - rewrite filter_cons_True by (apply HQ; auto). rewrite filter_cons_False by done. simpl. f_equal.
    f_equal. apply filter_ext_in. intros y Hy. rewrite HQ. split; [|by right].
    intros [->|?]; done.
  - assert (x <> p) by (intros ->; done).
    destruct (decide (P x)).
    + rewrite !filter_cons_True by (first [done | apply HQ; auto]). simpl. by rewrite IH.
    + rewrite !filter_cons_False by (first [done | rewrite HQ; naive_solver]). by rewrite IH.
Qed.

(** ** Searches *)

(** The least [j] up to a bound at which a test holds. *)
Lemma least_below (P : nat -> bool) n :
  P n = true -> exists j, (j <= n)%nat /\ P j = true /\ forall d, (d < j)%nat -> P d = false.
Proof.
  induction n as [n IH] using lt_wf_ind. intros Hn.
  destruct (existsb P (seq 0 n)) eqn:E.
  - apply existsb_exists in E as (m & Hm%in_seq & Pm).
    destruct (IH m ltac:(lia) Pm) as (j & ? & ? & ?). exists j. auto with lia.
  - exists n. split; [lia|]. split; [done|]. intros d Hd. destruct (P d) eqn:Ed; [|done].
    exfalso. assert (existsb P (seq 0 n) = true); [|congruence].
    apply existsb_exists. exists d. split; [apply in_seq; lia|done].
Qed.
(** The least number below a bound that passes a test, or none does. *)
Lemma search_below (P : Z -> bool) n :
  (forall k, 0 <= k < n -> P k = false) \/ exists k, 0 <= k < n /\ P k = true /\ forall k', 0 <= k' < k -> P k' = false.
Proof.
  destruct (decide (Forall (fun k => P k = false) (seqZ 0 n))) as [H|H].
  - left. intros k Hk. rewrite Forall_forall in H. apply H, elem_of_seqZ. lia.
  - right. apply not_Forall_Exists, Exists_exists in H as (k & Hk%elem_of_seqZ & Hp); [|apply _].
    destruct (least_below (fun j => P (Z.of_nat j)) (Z.to_nat k)) as (j & Hj & Hpj & Hmin).
    { rewrite Z2Nat.id by lia. by apply not_false_is_true. }
    exists (Z.of_nat j). split; [lia|]. split; [done|]. intros k' Hk'. specialize (Hmin (Z.to_nat k') ltac:(lia)). by rewrite Z2Nat.id in Hmin by lia.
Qed.

(** ** Byte memory *)

(** The machine's memory: every address holds a byte.  Addresses wrap at 32 bits; a load
    is always a byte value, whatever the memory function is. *)
Abbreviation Mem := (Z -> Z).

Definition loadb (m : Mem) (a : Z) : Z := u8 (m (u32 a)).
Definition storeb (m : Mem) (a v : Z) : Mem :=
  fun x => if x =? u32 a then u8 v else m x.

(** Little-endian 16- and 32-bit accesses. *)
Definition load16 (m : Mem) (a : Z) : Z := loadb m a + 256 * loadb m (a + 1).
Definition load32 (m : Mem) (a : Z) : Z :=
  loadb m a + 256 * loadb m (a + 1) + 65536 * loadb m (a + 2) + 16777216 * loadb m (a + 3).
Definition store32 (m : Mem) (a v : Z) : Mem :=
  storeb (storeb (storeb (storeb m a v) (a + 1) (v / 256)) (a + 2) (v / 65536))
    (a + 3) (v / 16777216).

Lemma loadb_range m a : is_u8 (loadb m a).
Proof. apply u8_range. Qed.
Lemma load16_range m a : is_u16 (load16 m a).
Proof.
  unfold load16, is_u16. pose proof (loadb_range m a). pose proof (loadb_range m (a + 1)).
  unfold is_u8 in *. lia.
Qed.
Lemma load32_range m a : is_u32 (load32 m a).
Proof.
  unfold load32, is_u32.
  pose proof (loadb_range m a). pose proof (loadb_range m (a + 1)).
  pose proof (loadb_range m (a + 2)). pose proof (loadb_range m (a + 3)).
  unfold is_u8 in *. lia.
Qed.

Lemma loadb_u32 m a : loadb m (u32 a) = loadb m a.
Proof. unfold loadb. by rewrite u32_u32. Qed.

Lemma loadb_storeb_eq m a b v : u32 a = u32 b -> loadb (storeb m a v) b = u8 v.
Proof. intros H. unfold loadb, storeb. rewrite H, Z.eqb_refl. apply u8_u8. Qed.
Lemma loadb_storeb_ne m a b v : u32 a <> u32 b -> loadb (storeb m a v) b = loadb m b.
Proof.
  intros H. unfold loadb, storeb. destruct (Z.eqb_spec (u32 b) (u32 a)); congruence.
Qed.

(** Reads of 32-bit cells after a 32-bit write: the same cell, or a disjoint one. *)
Lemma load32_store32_eq m a v : is_u32 v -> load32 (store32 m a v) a = v.
Proof.
  intros Hv. unfold load32, store32.
  repeat first [ rewrite loadb_storeb_eq by zlia | rewrite loadb_storeb_ne by zlia ]. zlia.
Qed.

(** Two address ranges of the 32-bit address space that do not meet (modulo wrap). *)
Definition far (a na b nb : Z) : Prop :=
  forall i j, 0 <= i < na -> 0 <= j < nb -> u32 (a + i) <> u32 (b + j).

Lemma far_range a na b nb :
  0 <= a -> 0 <= b -> a + na <= 4294967296 -> b + nb <= 4294967296 ->
  a + na <= b \/ b + nb <= a -> far a na b nb.
Proof. intros ????? i j Hi Hj. rewrite !u32_small by (unfold is_u32; lia). lia. Qed.

Lemma loadb_store32_ne m a b v : far a 4 b 1 -> loadb (store32 m a v) b = loadb m b.
Proof.
  intros H. unfold store32.
  assert (forall i, 0 <= i < 4 -> u32 (a + i) <> u32 b) as Hi.
  { intros i Hi. specialize (H i 0). rewrite Z.add_0_r in H. apply H; lia. }
  rewrite !loadb_storeb_ne; auto with lia.
  rewrite <- (Z.add_0_r a). auto with lia.
Qed.

Lemma load32_store32_ne m a b v : far a 4 b 4 -> load32 (store32 m a v) b = load32 m b.
Proof.
  intros H. unfold load32.
  rewrite !loadb_store32_ne; try done; intros i j Hi Hj; rewrite <- ?Z.add_assoc;
    apply H; lia.
Qed.

(** The bytes of a word, and the bytes of memory after a word is stored. *)
Lemma load32_bytes m a k : 0 <= k < 4 -> u8 (load32 m a / 256 ^ k) = loadb m (a + k).
Proof.
  intros Hk. unfold load32. pose proof (loadb_range m a). pose proof (loadb_range m (a + 1)).
  pose proof (loadb_range m (a + 2)). pose proof (loadb_range m (a + 3)). unfold is_u8, u8 in *.
  assert (k = 0 \/ k = 1 \/ k = 2 \/ k = 3) as [->|[->|[->| ->]]] by lia; rewrite ?Z.add_0_r;
    [change (256 ^ 0) with 1|change (256 ^ 1) with 256|change (256 ^ 2) with 65536|change (256 ^ 3) with 16777216]; zlia.
Qed.
Lemma store32_spec m a v x :
  0 <= a -> a + 4 <= 4294967296 -> is_u32 x ->
  loadb (store32 m a v) x = if (a <=? x) && (x <? a + 4) then u8 (v / 256 ^ (x - a)) else loadb m x.
Proof.
  intros Ha Ha' Hx. destruct (Z.leb_spec a x); simpl; [destruct (Z.ltb_spec x (a + 4)); simpl|].
  - unfold store32. assert (x = a \/ x = a + 1 \/ x = a + 2 \/ x = a + 3) as [->|[->|[->| ->]]] by lia;
      repeat first [ rewrite loadb_storeb_eq by done | rewrite loadb_storeb_ne by (rewrite !u32_small by (unfold is_u32 in *; lia); lia) ];
      f_equal; [replace (a - a) with 0 by lia; by rewrite Z.div_1_r|replace (a + 1 - a) with 1 by lia|
        replace (a + 2 - a) with 2 by lia|replace (a + 3 - a) with 3 by lia]; done.
  - apply loadb_store32_ne. apply far_range; unfold is_u32 in *; lia.
  - apply loadb_store32_ne. apply far_range; unfold is_u32 in *; lia.
Qed.

(** ** C strings *)

(** [cstring m p s]: the bytes [s], none of them NUL, stand at [p], followed by a NUL. *)
Fixpoint cstring (m : Mem) (p : Z) (s : list Z) : Prop :=
  match s with
  | [] => loadb m p = 0
  | c :: s => loadb m p = c /\ c <> 0 /\ cstring m (p + 1) s
  end.

(** [bytes m p n]: the [n] bytes at [p]. *)
Fixpoint bytes (m : Mem) (p : Z) (n : nat) : list Z :=
  match n with O => [] | S n => loadb m p :: bytes m (p + 1) n end.

Lemma bytes_length m p n : length (bytes m p n) = n.
Proof. revert p; induction n as [|n IH]; intros p; simpl; [done|]. by rewrite IH. Qed.
Lemma bytes_lookup m p n i :
  (i < n)%nat -> bytes m p n !! i = Some (loadb m (p + Z.of_nat i)).
Proof.
  revert p i; induction n as [|n IH]; intros p i Hi; [lia|].
  destruct i as [|i]; simpl; [by rewrite Z.add_0_r|].
  rewrite IH by lia. do 2 f_equal. lia.
Qed.
Lemma bytes_ext m1 m2 p1 p2 n :
  (forall i, 0 <= i < Z.of_nat n -> loadb m1 (p1 + i) = loadb m2 (p2 + i)) ->
  bytes m1 p1 n = bytes m2 p2 n.
Proof.
  intros H. apply list_eq_same_length with n; rewrite ?bytes_length; [done..|].
  intros i x y Hi. rewrite !bytes_lookup by lia. intros [= <-] [= <-]. apply H. lia.
Qed.

Lemma cstring_lookup m p s i c :
  cstring m p s -> s !! i = Some c -> loadb m (p + Z.of_nat i) = c /\ c <> 0.
Proof.
  revert p i; induction s as [|d s IH]; intros p i Hs Hi; [done|].
  destruct Hs as (Hd & Hn & Hs), i as [|i]; simpl in Hi.
  - simplify_eq. by rewrite Z.add_0_r.
  - destruct (IH _ _ Hs Hi) as [H1 H2]. split; [|done]. rewrite <- H1. f_equal. lia.
Qed.
Lemma cstring_end m p s : cstring m p s -> loadb m (p + Z.of_nat (length s)) = 0.
Proof.
  revert p; induction s as [|d s IH]; intros p Hs; simpl.
  - by rewrite Z.add_0_r.
  - destruct Hs as (_ & _ & Hs). rewrite <- (IH _ Hs). f_equal. lia.
Qed.

(** The byte of a character literal, and of a string literal. *)
Definition chr (c : ascii) : Z := Z.of_N (Ascii.N_of_ascii c).
Arguments chr c%_char_scope.
Definition str (s : string) : list Z := chr <$> String.list_ascii_of_string s.
Arguments str s%_string_scope.

(** A memory that holds the bytes [l] at [p]. *)
Definition storel (m : Mem) (p : Z) (l : list Z) : Mem :=
  fun a => if (p <=? a) && (a <? p + Z.of_nat (length l)) then default 0 (l !! Z.to_nat (a - p)) else m a.

(** ** The console log *)

(** Kernel components report through [Libk::printk]; a component's model appends the call
    to its log: the format text and the integer arguments. *)
Record LogEntry := Printk { lg_format : string; lg_args : list Z }.

(** A text with the line end its message has: a line feed, or a carriage return and a line feed. *)
Definition lf (s : string) : string := String.append s (String "010" EmptyString).
Definition crlf (s : string) : string := String.append s (String "013" (String "010" EmptyString)).
