(* ===== verification/RingBuffer.v ===== *)
(** The kernel's ring buffer (Kernel/Libk/RingBuffer.h): a fixed array with a write
    position and an element count, used between the keyboard interrupt and its reader.

    [RingBuffer] is the class's state, [push]/[pop] its operations with the scheduler flag
    they switch off and on, [contents] the queue the state stands for, and [Queue] the
    abstract bounded queue the class promises. *)

From S2P Require Import Prelude.

Module RingBuffer.

(** The state: the array is a function because its cells start uninitialised. *)
Record t (Type_ : Type) := Ring {
  m_buffer : Z -> Type_;
  m_head : Z;
  m_numElements : Z
}.
Arguments Ring {Type_} _ _ _.
Arguments m_buffer {Type_} _ _.
Arguments m_head {Type_} _.
Arguments m_numElements {Type_} _.

Section Ops.
Context {Type_ : Type} (maxElements : Z).

Definition isFull (r : t Type_) : bool := maxElements <=? m_numElements r.
Definition isEmpty (r : t Type_) : bool := m_numElements r =? 0.
Definition numElements (r : t Type_) : Z := m_numElements r.

Definition getTail (r : t Type_) : Z :=
  u32 (m_head r + u32 (maxElements - m_numElements r)) mod maxElements.

(** [push element force]: returns the new state, the scheduler flag after the call
    ([Scheduler::disable] then [Scheduler::enable]) and whether there was room. *)
Definition push (r : t Type_) (element : Type_) (force : bool) : t Type_ * bool * bool :=
  let full := isFull r in
  let r' :=
    if negb full || force
    then Ring (<[m_head r := element]> (m_buffer r))
              (u32 (m_head r + 1) mod maxElements)
              (if full then m_numElements r else u32 (m_numElements r + 1))
    else r in
  (r', true, negb full).

(** [pop]: the element taken, if any, the new state and the scheduler flag. *)
Definition pop (r : t Type_) : t Type_ * bool * option Type_ :=
  if negb (isEmpty r)
  then let tail := getTail r in
       (Ring (m_buffer r) (m_head r) (u32 (m_numElements r - 1)), true,
        Some (m_buffer r tail))
  else (r, true, None).

(** *** pop, access by access

    pop switches the scheduler off, not the interrupts, so a handler that pushes can run between
    any two of its accesses to the members.  [pop_at] is how far a call has come: before
    isEmpty, before getTail, with the head read, with the tail known, with the element taken,
    with the count read for the decrement, and returned.  (Which of its two members getTail reads
    first is left to the compiler.) *)
Inductive pop_at :=
  | PopStart | PopNonEmpty | PopHead (head : Z) | PopTail (tail : Z)
  | PopTaken (element : Type_) | PopCount (element : Type_) (count : Z) | PopDone (element : option Type_).

Definition pop_step (r : t Type_) (p : pop_at) : t Type_ * pop_at :=
  match p with
  | PopStart => (r, if isEmpty r then PopDone None else PopNonEmpty)
  | PopNonEmpty => (r, PopHead (m_head r))
  | PopHead head => (r, PopTail (u32 (head + u32 (maxElements - m_numElements r)) mod maxElements))
  | PopTail tail => (r, PopTaken (m_buffer r tail))
  | PopTaken x => (r, PopCount x (m_numElements r))
  | PopCount x n => (Ring (m_buffer r) (m_head r) (u32 (n - 1)), PopDone (Some x))
  | PopDone x => (r, PopDone x)
  end.

(** Alone, the accesses are the operation. *)
Lemma pop_steps r :
  let '(r', _, x) := pop r in
  Nat.iter 6 (fun st => pop_step st.1 st.2) (r, PopStart) = (r', PopDone x).
Proof. unfold pop. cbn. by destruct (isEmpty r). Qed.

(** The constructor: head and count are zero, the array is whatever memory held. *)
Definition init (junk : Z -> Type_) : t Type_ := Ring junk 0 0.

(** The queue a state stands for, oldest element first. *)
Definition contents (r : t Type_) : list Type_ :=
  (fun i => m_buffer r ((m_head r - m_numElements r + i) mod maxElements))
    <$> seqZ 0 (m_numElements r).

Definition wf (r : t Type_) : Prop :=
  0 <= m_head r < maxElements /\ 0 <= m_numElements r <= maxElements.

(** ** Sequences of operations *)

Inductive op := OPush (x : Type_) (force : bool) | OPop.
Inductive reply := RPush (room : bool) | RPop (x : option Type_).

Definition step (r : t Type_) (o : op) : t Type_ * reply :=
  match o with
  | OPush x force => let '(r', _, b) := push r x force in (r', RPush b)
  | OPop => let '(r', _, x) := pop r in (r', RPop x)
  end.

Fixpoint run (r : t Type_) (os : list op) : t Type_ * list reply :=
  match os with
  | [] => (r, [])
  | o :: os => let '(r1, a) := step r o in let '(r2, l) := run r1 os in (r2, a :: l)
  end.

(** The abstract bounded queue: a forced push into a full queue drops the oldest. *)
Definition qstep (q : list Type_) (o : op) : list Type_ * reply :=
  match o with
  | OPush x force =>
      if Z.of_nat (length q) <? maxElements then (q ++ [x], RPush true)
      else if force then (tail q ++ [x], RPush false) else (q, RPush false)
  | OPop => match q with [] => ([], RPop None) | x :: q' => (q', RPop (Some x)) end
  end.

Fixpoint qrun (q : list Type_) (os : list op) : list Type_ * list reply :=
  match os with
  | [] => (q, [])
  | o :: os => let '(q1, a) := qstep q o in let '(q2, l) := qrun q1 os in (q2, a :: l)
  end.

(** ** The state implements the queue *)

Hypothesis max_pos : 0 < maxElements <= 2147483648.

Lemma contents_length r : wf r -> Z.of_nat (length (contents r)) = m_numElements r.
Proof. intros [_ H]. unfold contents. rewrite length_fmap, length_seqZ. lia. Qed.

Lemma contents_lookup r i :
  wf r -> (i < length (contents r))%nat ->
  contents r !! i =
    Some (m_buffer r ((m_head r - m_numElements r + Z.of_nat i) mod maxElements)).
Proof.
  intros Hw Hi. pose proof (contents_length r Hw) as HL. unfold contents at 1.
  rewrite list_lookup_fmap, lookup_seqZ_lt by lia. done.
Qed.

(** Two positions of the window of the last [maxElements] pushes are different cells. *)
Lemma window_distinct h a b :
  - maxElements <= a < b -> b <= 0 -> b - a < maxElements ->
  (h + a) mod maxElements <> (h + b) mod maxElements.
Proof.
  intros Ha Hb Hd E.
  assert (b - a = maxElements * ((h + b) / maxElements - (h + a) / maxElements)) as Hk.
  { pose proof (Z_div_mod_eq_full (h + a) maxElements) as Ea.
    pose proof (Z_div_mod_eq_full (h + b) maxElements) as Eb.
    rewrite E in Ea. lia. }
  revert Hk. generalize ((h + b) / maxElements - (h + a) / maxElements). intros k Hk.
  assert (k <= 0 \/ 1 <= k) as [?|?] by lia; nia.
Qed.

Lemma getTail_mod r : wf r -> getTail r = (m_head r - m_numElements r) mod maxElements.
Proof.
  intros [Hh Hn]. unfold getTail. rewrite (u32_small (_ - _)) by (unfold is_u32; lia).
  rewrite u32_small by (unfold is_u32; lia).
  rewrite <- (Z.mod_add (m_head r - m_numElements r) 1 maxElements) by lia. f_equal. lia.
Qed.

Lemma next_head r : wf r -> u32 (m_head r + 1) mod maxElements = (m_head r + 1) mod maxElements.
Proof. intros [Hh _]. rewrite u32_small; [done|unfold is_u32; lia]. Qed.

(** Writing at the head leaves the newest [n] elements where they were. *)
Lemma contents_after_write r x n :
  wf r -> 0 <= n <= m_numElements r -> n < maxElements ->
  contents (Ring (<[m_head r := x]> (m_buffer r)) ((m_head r + 1) mod maxElements) (n + 1))
  = drop (Z.to_nat (m_numElements r - n)) (contents r) ++ [x].
Proof.
  intros Hw Hn Hlt. pose proof (contents_length r Hw) as HL. destruct Hw as [Hh Hc].
  set (r' := Ring _ _ _).
  assert (wf r') as Hw' by (split; simpl; [apply Z.mod_pos_bound; lia|lia]).
  pose proof (contents_length r' Hw') as HL'. simpl in HL'.
  apply list_eq_same_length with (Z.to_nat (n + 1));
    [rewrite length_app, length_drop; simpl; lia|lia|].
  intros i y z Hi. rewrite contents_lookup by (first [done|lia]). simpl. intros [= <-].
  assert (((m_head r + 1) mod maxElements - (n + 1) + Z.of_nat i) mod maxElements
          = (m_head r + (Z.of_nat i - n)) mod maxElements) as ->.
  { rewrite <- (Zplus_mod_idemp_l (_ - _)), Zminus_mod_idemp_l, Zplus_mod_idemp_l.
    f_equal. lia. }
  destruct (decide (Z.of_nat i = n)) as [E|E].
  - rewrite lookup_app_r by (rewrite length_drop; lia).
    rewrite length_drop. replace (i - _)%nat with O by lia. simpl. intros [= <-].
    rewrite E, Z.sub_diag, Z.add_0_r, Z.mod_small by lia. apply fn_lookup_insert.
  - rewrite lookup_app_l by (rewrite length_drop; lia).
    rewrite lookup_drop, contents_lookup by (first [split; lia|lia]). intros [= <-].
    rewrite fn_lookup_insert_ne.
    + f_equal. f_equal. lia.
    + rewrite <- (Z.mod_small (m_head r) maxElements) at 1 by lia.
      rewrite <- (Z.add_0_r (m_head r)) at 1. intros E'. symmetry in E'. revert E'.
      apply window_distinct; lia.
Qed.

Lemma push_spec r x force :
  wf r ->
  let '(r', enabled, room) := push r x force in
  wf r' /\ enabled = true /\ (contents r', RPush room) = qstep (contents r) (OPush x force).
Proof.
  intros Hw. pose proof (contents_length r Hw) as HL. pose proof Hw as [Hh Hc].
  unfold push, isFull, qstep. rewrite HL, next_head by done.
  assert (0 <= (m_head r + 1) mod maxElements < maxElements) by (apply Z.mod_pos_bound; lia).
  destruct (Z.leb_spec maxElements (m_numElements r)) as [Hf|Hf]; simpl.
  - rewrite (proj2 (Z.ltb_ge _ _)) by lia.
    destruct force; simpl; [|auto].
    split; [split; simpl; lia|]. split; [done|].
    replace (m_numElements r) with (m_numElements r - 1 + 1) at 1 by lia.
    rewrite contents_after_write by (first [done|lia]).
    replace (Z.to_nat _) with 1%nat by lia. destruct (contents r); done.
  - rewrite (proj2 (Z.ltb_lt _ _)) by lia. rewrite u32_small by (unfold is_u32; lia).
    split; [split; simpl; lia|]. split; [done|].
    rewrite contents_after_write by (first [done|lia]).
    by rewrite Z.sub_diag, drop_0.
Qed.

Lemma pop_spec r :
  wf r ->
  let '(r', enabled, x) := pop r in
  wf r' /\ enabled = true /\ (contents r', RPop x) = qstep (contents r) OPop.
Proof.
  intros Hw. pose proof Hw as [Hh Hc]. unfold pop, isEmpty.
  destruct (Z.eqb_spec (m_numElements r) 0) as [E|E]; simpl.
  - pose proof (contents_length r Hw). split; [done|]. split; [done|].
    destruct (contents r); simpl in *; [done|lia].
  - rewrite u32_small by (unfold is_u32; lia). split; [split; simpl; lia|].
    split; [done|]. rewrite getTail_mod by done. unfold contents; simpl.
    rewrite (seqZ_cons 0 (m_numElements r)) by lia. rewrite fmap_cons, Z.add_0_r.
    replace (Z.pred (m_numElements r)) with (m_numElements r - 1) by lia.
    rewrite <- (fmap_add_seqZ 1 0), <- list_fmap_compose. f_equal.
    apply list_fmap_ext. intros i y _. simpl. do 2 f_equal. lia.
Qed.

(** The place of the oldest element: a push with room leaves it where it is. *)
Definition oldest (r : t Type_) : Z := (m_head r - m_numElements r) mod maxElements.

Lemma contents_oldest r x q : wf r -> contents r = x :: q -> m_buffer r (oldest r) = x.
Proof.
  intros Hw Hq. pose proof (contents_lookup r 0 Hw) as H. rewrite Hq in H. specialize (H ltac:(simpl; lia)).
  simpl in H. rewrite Z.add_0_r in H. unfold oldest. congruence.
Qed.
Lemma push_oldest r x : wf r -> m_numElements r < maxElements ->
  oldest (push r x false).1.1 = oldest r /\ m_numElements (push r x false).1.1 = m_numElements r + 1.
Proof.
  intros Hw Hn. pose proof Hw as [Hh Hc]. unfold push, isFull, oldest. rewrite (proj2 (Z.leb_gt _ _)) by done. simpl.
  rewrite next_head by done. rewrite u32_small by (unfold is_u32; lia). split; [|done].
  rewrite Zminus_mod_idemp_l. f_equal. lia.
Qed.
(** Taking the oldest element off the count. *)
Lemma drop_oldest r x q : wf r -> contents r = x :: q ->
  let r' := Ring (m_buffer r) (m_head r) (u32 (m_numElements r - 1)) in wf r' /\ contents r' = q.
Proof.
  intros Hw Hq. pose proof (pop_spec r Hw) as H. pose proof (contents_length r Hw) as HL. rewrite Hq in HL, H. simpl in HL.
  unfold pop, isEmpty in H. rewrite (proj2 (Z.eqb_neq _ 0)) in H by lia. simpl in H. destruct H as (Hw' & _ & H). split; [done|]. congruence.
Qed.

Lemma step_spec r o :
  wf r -> wf (step r o).1 /\ (contents (step r o).1, (step r o).2) = qstep (contents r) o.
Proof.
  intros Hw. destruct o as [x force|]; unfold step.
  - pose proof (push_spec r x force Hw). by destruct (push r x force) as [[??]?]; naive_solver.
  - pose proof (pop_spec r Hw). by destruct (pop r) as [[??]?]; naive_solver.
Qed.

End Ops.
Arguments pop_at : clear implicits.

(** C4: the ring buffer implements the bounded FIFO queue.  For every capacity up to 2^31
    and every sequence of pushes (forced or not) and pops from a well-formed state, the
    replies are those of the abstract queue, and the final state stands for its final
    queue and is well formed again: elements come out in the order they went in, a push into
    a full buffer is refused, and a forced one drops exactly the oldest element. *)
Theorem ring_refines_queue {Type_ : Type} (maxElements : Z) (os : list (@op Type_)) :
  forall (r : t Type_), 0 < maxElements <= 2147483648 -> wf maxElements r ->
  let '(r', replies) := run maxElements r os in
  wf maxElements r' /\ (contents maxElements r', replies) = qrun maxElements (contents maxElements r) os.
Proof.
  induction os as [|o os IH]; intros r Hm Hw; simpl; [done|].
  destruct (step_spec maxElements Hm r o Hw) as [Hw1 E].
  destruct (step maxElements r o) as [r1 a]. simpl in *. rewrite <- E.
  specialize (IH r1 Hm Hw1). destruct (run maxElements r1 os) as [r2 l].
  destruct IH as [Hw2 E2]. by rewrite <- E2.
Qed.

Lemma ring_refines_queue_witness :
  (run 2 (init (fun _ => 0)) [OPush 1 false; OPush 2 false; OPush 3 false; OPush 4 true; OPop; OPop; OPop]).2
  = [RPush true; RPush true; RPush false; RPush false; RPop (Some 2); RPop (Some 4); RPop None].
Proof.
  pose proof (ring_refines_queue 2
    [OPush 1 false; OPush 2 false; OPush 3 false; OPush 4 true; OPop; OPop; OPop]
    (init (fun _ => 0)) ltac:(lia) ltac:(split; simpl; lia)) as H.
  destruct (run _ _ _) as [r' l]. destruct H as [_ H]. simpl in H. by inversion H.
Defined.

End RingBuffer.
