(* ===== verification/Scheduler.v ===== *)
(** The round-robin scheduler (Kernel/Scheduler.h, Scheduler.cpp) and the register switch
    it calls (Kernel/Arch/i386/taskswitch.S).

    Tasks live at addresses ([tasks]) and form a ring through their [next] pointers that
    starts at the static [mainTask].  A null or dangling pointer that the code follows is a
    [Fault]; the search for the next task can run forever, so it takes fuel and answers
    [Spin] when the fuel is gone. *)

From S2P Require Import Prelude.

Module Scheduler.

Record TaskRegisters := Regs {
  eax : Z; ebx : Z; ecx : Z; edx : Z; esi : Z; edi : Z;
  esp : Z; ebp : Z; eip : Z; eflags : Z; cr3 : Z
}.

Inductive TaskState := NoState | Running | Sleep.

#[export] Instance TaskState_eq_dec : EqDecision TaskState.
Proof. solve_decision. Defined.

Record Task := MkTask {
  regs : TaskRegisters;
  next : Z;
  name : string;
  wakeupTime : Z;
  state : TaskState
}.

(** The scheduler's static members, the processor's registers, the 32-bit word at linear
    address 0 (which the switch code loads into eax) and the port writes so far. *)
Record Sched := MkSched {
  tasks : gmap Z Task;
  m_runningTask : Z;
  m_taskTail : Z;
  m_timeMs : Z;
  schedulerEnabled : bool;
  cpu : TaskRegisters;
  low_word : Z;
  ports : list (Z * Z)
}.

Inductive outcome (A : Type) := Ret (a : A) | Fault | Spin.
Arguments Ret {A} a.
Arguments Fault {A}.
Arguments Spin {A}.

Definition obind {A B} (o : outcome A) (f : A -> outcome B) : outcome B :=
  match o with Ret a => f a | Fault => Fault | Spin => Spin end.

Definition with_tasks (s : Sched) (ts : gmap Z Task) : Sched :=
  MkSched ts (m_runningTask s) (m_taskTail s) (m_timeMs s) (schedulerEnabled s) (cpu s)
    (low_word s) (ports s).
Definition with_running (s : Sched) (p : Z) : Sched :=
  MkSched (tasks s) p (m_taskTail s) (m_timeMs s) (schedulerEnabled s) (cpu s)
    (low_word s) (ports s).
Definition with_cpu (s : Sched) (c : TaskRegisters) : Sched :=
  MkSched (tasks s) (m_runningTask s) (m_taskTail s) (m_timeMs s) (schedulerEnabled s) c
    (low_word s) (ports s).
Definition with_time (s : Sched) (t : Z) : Sched :=
  MkSched (tasks s) (m_runningTask s) (m_taskTail s) t (schedulerEnabled s) (cpu s)
    (low_word s) (ports s).
Definition with_enabled (s : Sched) (b : bool) : Sched :=
  MkSched (tasks s) (m_runningTask s) (m_taskTail s) (m_timeMs s) b (cpu s)
    (low_word s) (ports s).
Definition with_tail (s : Sched) (p : Z) : Sched :=
  MkSched (tasks s) (m_runningTask s) p (m_timeMs s) (schedulerEnabled s) (cpu s)
    (low_word s) (ports s).
Definition with_ports (s : Sched) (l : list (Z * Z)) : Sched :=
  MkSched (tasks s) (m_runningTask s) (m_taskTail s) (m_timeMs s) (schedulerEnabled s) (cpu s)
    (low_word s) l.

Definition set_state (t : Task) (st : TaskState) : Task :=
  MkTask (regs t) (next t) (name t) (wakeupTime t) st.
Definition set_next (t : Task) (p : Z) : Task :=
  MkTask (regs t) p (name t) (wakeupTime t) (state t).
Definition set_regs (t : Task) (r : TaskRegisters) : Task :=
  MkTask r (next t) (name t) (wakeupTime t) (state t).

Definition enable (s : Sched) : Sched := with_enabled s true.
Definition disable (s : Sched) : Sched := with_enabled s false.
Definition getRunningTask (s : Sched) : option Task := tasks s !! m_runningTask s.

(** The registers [switchTask] stores: [cpu] is the processor at the call, its [eip] the
    return address and its [esp] the address the return address is at. *)
Definition saved_regs (c : TaskRegisters) : TaskRegisters :=
  Regs (eax c) (ebx c) (ecx c) (edx c) (esi c) (edi c)
    (u32 (esp c + 4)) (ebp c) (eip c) (eflags c) (cr3 c).

(** The registers after the final [ret]: the two pushes and the [ret] leave the stack one
    word below the stored esp, and eax is loaded from address 0. *)
Definition loaded_regs (r : TaskRegisters) (low : Z) : TaskRegisters :=
  Regs low (ebx r) (ecx r) (edx r) (esi r) (edi r)
    (u32 (esp r - 4)) (ebp r) (eip r) (eflags r) (cr3 r).

Definition switchTask (s : Sched) (old new : Z) : outcome Sched :=
  match tasks s !! old with
  | None => Fault
  | Some told =>
      let s1 := with_tasks s (<[old := set_regs told (saved_regs (cpu s))]> (tasks s)) in
      match tasks s1 !! new with
      | None => Fault
      | Some tnew => Ret (with_cpu s1 (loaded_regs (regs tnew) (low_word s1)))
      end
  end.

(** The test of goToNextTask: runnable, or asleep with the wake-up time passed. *)
Definition eligible (now : Z) (t : Task) : bool :=
  bool_decide (state t = Running)
  || (bool_decide (state t = Sleep) && (wakeupTime t <? now)).

(** The [while(1)] of goToNextTask, from the candidate [p]; 0 is the null pointer. *)
Fixpoint goNext (fuel : nat) (s : Sched) (p : Z) : outcome (Sched * Z) :=
  match fuel with
  | O => Spin
  | S fuel =>
      if p =? 0 then Ret (s, 0)
      else match tasks s !! p with
           | None => Fault
           | Some t =>
               if eligible (m_timeMs s) t
               then Ret (with_tasks s (<[p := set_state t Running]> (tasks s)), p)
               else goNext fuel s (next t)
           end
  end.

Definition goToNextTask (fuel : nat) (s : Sched) : outcome (Sched * Z) :=
  match tasks s !! m_runningTask s with
  | None => Fault
  | Some r => goNext fuel s (next r)
  end.

Definition schedule (fuel : nat) (s : Sched) : outcome Sched :=
  if schedulerEnabled s
  then let last := m_runningTask s in
       obind (goToNextTask fuel s) (fun '(s1, nxt) =>
         if nxt =? 0 then Ret s1 else switchTask (with_running s1 nxt) last nxt)
  else Ret s.

(** The timer interrupt. *)
Definition irqCallback (fuel : nat) (s : Sched) : outcome Sched :=
  schedule fuel (with_time s (u64 (m_timeMs s + 1))).

Definition sleep (fuel : nat) (s : Sched) (sleepMs : Z) : outcome Sched :=
  match tasks s !! m_runningTask s with
  | None => Fault
  | Some t =>
      let t' := MkTask (regs t) (next t) (name t) (u64 (m_timeMs s + sleepMs)) Sleep in
      schedule fuel (with_tasks s (<[m_runningTask s := t']> (tasks s)))
  end.

Definition PIT_FREQUENCY_HZ : Z := 1000.

(** ConfigurePit: the divisor of the 1.193182 MHz clock, low byte then high byte. *)
Definition ConfigurePit (s : Sched) : Sched :=
  let div := 1193182 / PIT_FREQUENCY_HZ in
  with_ports s (ports s ++ [(0x43, 0x36); (0x40, Z.land div 0xFF);
                            (0x40, Z.land (Z.shiftr div 8) 0xFF)]).

Section Main.
(** The address of the static [mainTask]. *)
Context (mainTask : Z).

(** start: the interrupt registration is the caller's ([InterruptHandler]). *)
Definition start (s : Sched) : outcome Sched :=
  match tasks s !! mainTask with
  | None => Fault
  | Some t =>
      let r := regs t in
      let r' := Regs (eax r) (ebx r) (ecx r) (edx r) (esi r) (edi r) (esp r) (ebp r)
                  (eip r) (eflags (cpu s)) (cr3 (cpu s)) in
      let t' := MkTask r' (next t) "main" (wakeupTime t) Running in
      let s1 := with_running (with_tasks s (<[mainTask := t']> (tasks s))) mainTask in
      Ret (ConfigurePit (with_tail s1 mainTask))
  end.

Definition taskStart (s : Sched) (task entry : Z) : outcome Sched :=
  match tasks s !! task with
  | None => Fault
  | Some t =>
      let r := regs t in
      let r' := Regs (eax r) (ebx r) (ecx r) (edx r) (esi r) (edi r) (esp r) (ebp r)
                  entry (eflags r) (cr3 r) in
      let ts1 := <[task := set_regs t r']> (tasks s) in
      match ts1 !! m_taskTail s with
      | None => Fault
      | Some tl =>
          let ts2 := <[m_taskTail s := set_next tl task]> ts1 in
          match ts2 !! task with
          | None => Fault
          | Some t2 =>
              let t3 := MkTask (regs t2) mainTask (name t2) (wakeupTime t2) Running in
              Ret (with_tail (with_tasks s (<[task := t3]> ts2)) task)
          end
      end
  end.

End Main.

(** ** The ring of tasks *)

(** Index arithmetic on a ring of [n] tasks. *)
Definition succ_ix (n i : nat) : nat := (S i) mod n.

(** [ring mainTask s l]: the tasks of [l], main first, are linked in order; the last one points
    back to main, or nowhere when main is alone; [m_taskTail] is the last one and the running
    task is one of them. *)
Record ring (mainTask : Z) (s : Sched) (l : list Z) : Prop := {
  ring_head : head l = Some mainTask;
  ring_nodup : NoDup l;
  ring_nonnull : (0 ∉ l)%Z;
  ring_tail : last l = Some (m_taskTail s);
  ring_running : m_runningTask s ∈ l;
  ring_linked : forall i p, l !! i = Some p ->
    exists t, tasks s !! p = Some t /\
      next t = if (length l =? 1)%nat then 0 else (l !!! succ_ix (length l) i)
}.

(** The [i]-th task of the ring, counting past the end around the ring. *)
Definition at_ix (l : list Z) (i : nat) : Z := l !!! (i mod length l)%nat.

Definition elig_at (s : Sched) (p : Z) : bool :=
  match tasks s !! p with Some t => eligible (m_timeMs s) t | None => false end.

(** [n] timer interrupts in a row. *)
Fixpoint ticks (fuel : nat) (n : nat) (s : Sched) : outcome Sched :=
  match n with
  | O => Ret s
  | S n => obind (irqCallback fuel s) (ticks fuel n)
  end.

Section Ring.
Context (mainTask : Z).

Lemma ring_length s l : ring mainTask s l -> (1 <= length l)%nat.
Proof. intros H. pose proof (ring_head _ _ _ H). destruct l; simpl in *; [done|lia]. Qed.

Lemma at_ix_elem s l i : ring mainTask s l -> at_ix l i ∈ l.
Proof.
  intros H. apply ring_length in H. unfold at_ix.
  apply list_elem_of_lookup_total_2, Nat.mod_upper_bound. lia.
Qed.

Lemma at_ix_nonnull s l i : ring mainTask s l -> at_ix l i <> 0.
Proof. intros H E. apply (ring_nonnull _ _ _ H). rewrite <- E. eapply at_ix_elem; eauto. Qed.

Lemma at_ix_next s l i :
  ring mainTask s l -> (2 <= length l)%nat ->
  exists t, tasks s !! at_ix l i = Some t /\ next t = at_ix l (S i).
Proof.
  intros H Hn. assert (i mod length l < length l)%nat as Hi by (apply Nat.mod_upper_bound; lia).
  destruct (ring_linked _ _ _ H (i mod length l) (at_ix l i)) as (t & Ht & E).
  { unfold at_ix. by apply list_lookup_lookup_total_lt. }
  exists t. split; [done|]. rewrite E.
  rewrite (proj2 (Nat.eqb_neq _ _)) by lia. unfold at_ix, succ_ix. f_equal.
  rewrite <- (Nat.add_1_l (_ mod _)), Nat.Div0.add_mod_idemp_r. done.
Qed.

Lemma ring_lookup s l p : ring mainTask s l -> p ∈ l -> exists t, tasks s !! p = Some t.
Proof.
  intros H [i Hi]%list_elem_of_lookup. destruct (ring_linked _ _ _ H i p Hi) as (t & ? & _). eauto.
Qed.

Lemma ring_index s l p : ring mainTask s l -> p ∈ l -> exists k, (k < length l)%nat /\ at_ix l k = p.
Proof.
  intros H [i Hi]%list_elem_of_lookup. exists i. pose proof (lookup_lt_Some _ _ _ Hi).
  split; [done|]. unfold at_ix. rewrite Nat.mod_small by done. by apply list_lookup_total_correct.
Qed.

(** The ring survives updates that keep the [next] pointers. *)
Lemma ring_update s s' l :
  ring mainTask s l -> m_taskTail s' = m_taskTail s -> m_runningTask s' ∈ l ->
  (forall p t, tasks s !! p = Some t -> exists t', tasks s' !! p = Some t' /\ next t' = next t) ->
  ring mainTask s' l.
Proof.
  intros [Hh Hd H0 Ht Hr Hl] Et Hr' Hn. split; [done..|by rewrite Et|done|].
  intros i p Hp. destruct (Hl i p Hp) as (t & E & Et'). destruct (Hn p t E) as (t' & ? & ?).
  exists t'. split; [done|congruence].
Qed.

(** The search stops at the first eligible task. *)
Lemma goNext_find s l j : forall i fuel,
  ring mainTask s l -> (2 <= length l)%nat ->
  (forall d, (d < j)%nat -> elig_at s (at_ix l (i + d)) = false) ->
  elig_at s (at_ix l (i + j)) = true -> (j < fuel)%nat ->
  exists t, tasks s !! at_ix l (i + j) = Some t /\
    goNext fuel s (at_ix l i)
    = Ret (with_tasks s (<[at_ix l (i + j) := set_state t Running]> (tasks s)), at_ix l (i + j)).
Proof.
  induction j as [|j IH]; intros i fuel H Hn Hd Hj Hf; destruct fuel as [|fuel]; try lia; simpl.
  - rewrite Nat.add_0_r in *. destruct (at_ix_next s l i H Hn) as (t & Ht & _).
    unfold elig_at in Hj. rewrite Ht in *. exists t. split; [done|].
    rewrite (proj2 (Z.eqb_neq _ _)) by (eapply at_ix_nonnull; eauto). by rewrite Hj.
  - destruct (at_ix_next s l i H Hn) as (t & Ht & En).
    pose proof (Hd O ltac:(lia)) as H0. rewrite Nat.add_0_r in H0. unfold elig_at in H0.
    rewrite (proj2 (Z.eqb_neq _ _)) by (eapply at_ix_nonnull; eauto). rewrite Ht in *.
    rewrite H0, En. replace (i + S j)%nat with (S i + j)%nat in * by lia.
    apply IH; auto with lia. intros d Hd'. replace (S i + d)%nat with (i + S d)%nat by lia.
    apply Hd. lia.
Qed.

Lemma goNext_spin s l fuel : forall i,
  ring mainTask s l -> (2 <= length l)%nat ->
  (forall d, elig_at s (at_ix l d) = false) -> goNext fuel s (at_ix l i) = Spin.
Proof.
  induction fuel as [|fuel IH]; intros i H Hn Hd; simpl; [done|].
  rewrite (proj2 (Z.eqb_neq _ _)) by (eapply at_ix_nonnull; eauto).
  destruct (at_ix_next s l i H Hn) as (t & Ht & En). pose proof (Hd i) as H0.
  unfold elig_at in H0. rewrite Ht in *. rewrite H0, En. auto.
Qed.

(** The next task to run: the first eligible one after the running task, in ring order. *)
Lemma first_eligible s l k :
  ring mainTask s l -> (exists p, p ∈ l /\ elig_at s p = true) ->
  exists j, (j < length l)%nat /\ elig_at s (at_ix l (S k + j)) = true /\
    forall d, (d < j)%nat -> elig_at s (at_ix l (S k + d)) = false.
Proof.
  intros H (p & Hp & He). pose proof (ring_length _ _ H) as Hn.
  destruct (ring_index s l p H Hp) as (q & Hq & <-). set (n := length l) in *.
  assert (exists m, (m < n)%nat /\ at_ix l (S k + m) = at_ix l q) as (m & Hm & E).
  { exists ((q + n - S k mod n) mod n)%nat.
    assert (S k mod n < n)%nat by (apply Nat.mod_upper_bound; lia).
    split; [apply Nat.mod_upper_bound; lia|]. unfold at_ix. fold n. f_equal.
    rewrite Nat.Div0.add_mod_idemp_r, <- Nat.Div0.add_mod_idemp_l.
    replace (S k mod n + (q + n - S k mod n))%nat with (q + 1 * n)%nat by lia.
    apply Nat.Div0.mod_add. }
  destruct (least_below (fun j => elig_at s (at_ix l (S k + j))) m) as (j & ? & ? & ?).
  { by rewrite E. }
  exists j. split; [lia|auto].
Qed.

(** What a switch from [s] to [s'] with target [p] does to every task record. *)
Definition switched (s s' : Sched) (p : Z) : Prop :=
  m_runningTask s' = p /\ m_taskTail s' = m_taskTail s /\ m_timeMs s' = m_timeMs s /\
  schedulerEnabled s' = schedulerEnabled s /\ low_word s' = low_word s /\
  (forall q t, tasks s !! q = Some t -> tasks s' !! q =
     Some (MkTask (if decide (q = m_runningTask s) then saved_regs (cpu s) else regs t)
             (next t) (name t) (wakeupTime t) (if decide (q = p) then Running else state t))) /\
  (exists t', tasks s' !! p = Some t' /\ cpu s' = loaded_regs (regs t') (low_word s)).

Lemma ring_switched s s' l p : ring mainTask s l -> switched s s' p -> p ∈ l -> ring mainTask s' l.
Proof.
  intros H (Hr & Ht & _ & _ & _ & Htasks & _) Hp. eapply ring_update; [done|done|by rewrite Hr|].
  intros q t Hq. eexists. split; [by apply Htasks|done].
Qed.

Lemma schedule_spec s l k fuel :
  ring mainTask s l -> (2 <= length l)%nat -> schedulerEnabled s = true ->
  m_runningTask s = at_ix l k -> (exists p, p ∈ l /\ elig_at s p = true) ->
  (length l <= fuel)%nat ->
  exists s' j, (1 <= j <= length l)%nat /\ schedule fuel s = Ret s' /\
    switched s s' (at_ix l (k + j)) /\ ring mainTask s' l /\
    elig_at s (at_ix l (k + j)) = true /\
    forall d, (0 < d < j)%nat -> elig_at s (at_ix l (k + d)) = false.
Proof.
  intros H Hn Hen Hrun Hex Hf.
  destruct (first_eligible s l k H Hex) as (j & Hj & He & Hd).
  destruct (at_ix_next s l k H Hn) as (tr & Htr & Enext).
  destruct (goNext_find s l j (S k) fuel H Hn Hd He ltac:(lia)) as (t & Ht & Eg).
  set (p := at_ix l (S k + j)) in *.
  assert (p <> 0) by (eapply at_ix_nonnull; eauto).
  set (ts1 := <[p := set_state t Running]> (tasks s)).
  assert (exists tl, ts1 !! m_runningTask s = Some tl /\
      tl = MkTask (regs tr) (next tr) (name tr) (wakeupTime tr)
             (if decide (m_runningTask s = p) then Running else state tr)) as (tl & Htl & Etl).
  { unfold ts1. rewrite lookup_insert. case_decide as E1; case_decide as E2; try congruence.
    - eexists. split; [done|]. rewrite <- Hrun, <- E1 in Htr. by simplify_eq.
    - rewrite Hrun. eexists. split; [done|]. by destruct tr. }
  set (ts2 := <[m_runningTask s := set_regs tl (saved_regs (cpu s))]> ts1).
  assert (exists tn, ts2 !! p = Some tn) as (tn & Htn).
  { unfold ts2, ts1. rewrite !lookup_insert. repeat case_decide; eauto; congruence. }
  set (s' := with_cpu (with_tasks (with_running (with_tasks s ts1) p) ts2)
               (loaded_regs (regs tn) (low_word s))).
  assert (switched s s' p) as Hsw.
  { split_and!; try done.
    - intros q tq Hq. simpl. unfold ts2, ts1. rewrite !lookup_insert.
      destruct (decide (m_runningTask s = q)) as [E1|E1].
      + subst q tl. rewrite Hrun in Hq. rewrite Htr in Hq. simplify_eq. simpl.
        by rewrite (decide_True (P := m_runningTask s = m_runningTask s)).
      + rewrite (decide_False (P := q = m_runningTask s)) by congruence.
        destruct (decide (p = q)) as [->|E2].
        * rewrite decide_True by done. rewrite Ht in Hq. by simplify_eq.
        * rewrite (decide_False (P := q = p)) by congruence. rewrite Hq. by destruct tq.
    - exists tn. done. }
  exists s', (S j). replace (k + S j)%nat with (S k + j)%nat by lia. fold p.
  split; [lia|]. split; [|split; [done|]; split; [|split; [done|]]].
  - unfold schedule, goToNextTask. rewrite Hen, Hrun, Htr, Enext, Eg. simpl.
    rewrite (proj2 (Z.eqb_neq _ _)) by done. unfold switchTask. simpl.
    rewrite <- Hrun. fold ts1. rewrite Htl. fold ts2. by rewrite Htn.
  - eapply ring_switched; [done..|]. eapply at_ix_elem; eauto.
  - intros d Hd'. replace (k + d)%nat with (S k + (d - 1))%nat by lia. apply Hd. lia.
Qed.

(** A single task has no successor: the scheduler stays on it. *)
Lemma schedule_alone s l fuel :
  ring mainTask s l -> length l = 1%nat -> (1 <= fuel)%nat -> schedule fuel s = Ret s.
Proof.
  intros H Hn Hf. unfold schedule, goToNextTask. destruct (schedulerEnabled s); [|done].
  pose proof (ring_running _ _ _ H) as [i Hi]%list_elem_of_lookup.
  destruct (ring_linked _ _ _ H _ _ Hi) as (t & Ht & E). rewrite Hn in E. simpl in E.
  destruct fuel; [lia|]. by rewrite Ht, E.
Qed.

(** Whatever the search returns, it only marks a ring task as running. *)
Lemma goNext_ret s l fuel : forall p s1 q,
  ring mainTask s l -> p = 0 \/ p ∈ l -> goNext fuel s p = Ret (s1, q) ->
  (q = 0 /\ s1 = s) \/
  (q ∈ l /\ exists t, tasks s !! q = Some t /\ s1 = with_tasks s (<[q := set_state t Running]> (tasks s))).
Proof.
  induction fuel as [|fuel IH]; intros p s1 q H Hp E; simpl in E; [done|].
  case_if_in E; [left; by simplify_eq|]. destruct Hp as [?|Hp]; [done|].
  destruct (list_elem_of_lookup_1 _ _ Hp) as [i Hi].
  destruct (ring_linked _ _ _ H _ _ Hi) as (t & Ht & En). rewrite Ht in E. case_if_in E.
  - simplify_eq. right. split; [done|]. eauto.
  - eapply IH; [done| |done]. rewrite En. case_match; [by left|]. right.
    unfold succ_ix. pose proof (ring_length _ _ H). rewrite <- (Nat.Div0.mod_mod (S i)).
    apply (at_ix_elem s l ((S i) mod length l)%nat H).
Qed.

Lemma switchTask_ret s s' old new : switchTask s old new = Ret s' ->
  m_runningTask s' = m_runningTask s /\ m_taskTail s' = m_taskTail s /\
  forall p t, tasks s !! p = Some t -> exists t', tasks s' !! p = Some t' /\ next t' = next t.
Proof.
  unfold switchTask. intros E. repeat case_match; simplify_eq. split; [done|]. split; [done|].
  intros p tp Htp. simpl in *. destruct (decide (old = p)) as [->|Hne]; simplify_map_eq; eauto.
Qed.

Lemma schedule_ring s s' l fuel :
  ring mainTask s l -> schedule fuel s = Ret s' -> ring mainTask s' l.
Proof.
  intros H. unfold schedule. case_if; [|by intros; simplify_eq].
  unfold goToNextTask. destruct (tasks s !! m_runningTask s) as [tr|] eqn:Er; [|done].
  destruct (goNext fuel s (next tr)) as [[s1 q]| |] eqn:Eg; simpl; [|done..].
  apply (goNext_ret s l) in Eg; [|done|].
  2: { pose proof (ring_running _ _ _ H) as [i Hi]%list_elem_of_lookup.
       destruct (ring_linked _ _ _ H _ _ Hi) as (t & Ht & En). simplify_eq. rewrite En.
       case_match; [by left|]. right. unfold succ_ix. rewrite <- (Nat.Div0.mod_mod (S i)).
       apply (at_ix_elem s l ((S i) mod length l)%nat H). }
  destruct Eg as [[-> ->]|[Hq (t & Ht & ->)]]; simpl; [by intros; simplify_eq|].
  case_if; [by destruct (ring_nonnull _ _ _ H); subst|].
  intros (Hr & Htl & Hn)%switchTask_ret. eapply ring_update; [done|..].
  - by rewrite Htl.
  - by rewrite Hr.
  - intros p t0 Hp. simpl in Hn. destruct (decide (q = p)) as [->|Hne].
    + destruct (Hn p (set_state t Running)) as (t' & ? & Et); [by simplify_map_eq|].
      exists t'. simplify_eq. split; [done|]. by rewrite Et.
    + apply Hn. by simplify_map_eq.
Qed.

Lemma sleep_ring s s' l fuel ms :
  ring mainTask s l -> sleep fuel s ms = Ret s' -> ring mainTask s' l.
Proof.
  intros H. unfold sleep. destruct (tasks s !! m_runningTask s) as [t|] eqn:E; [|done].
  apply schedule_ring. eapply ring_update; [done..|by apply (ring_running _ _ _ H)|].
  intros p t0 Hp. simpl. destruct (decide (m_runningTask s = p)) as [<-|]; simplify_map_eq; eauto.
Qed.

Lemma taskStart_ring s s' l a t entry :
  ring mainTask s l -> tasks s !! a = None -> a <> 0 ->
  taskStart mainTask (with_tasks s (<[a := t]> (tasks s))) a entry = Ret s' ->
  ring mainTask s' (l ++ [a]).
Proof.
  intros H Ha H0. unfold taskStart. simpl. rewrite lookup_insert_eq, insert_insert_eq.
  pose proof (ring_length _ _ H) as Hn.
  destruct (ring_lookup s l (m_taskTail s) H) as (tl & Htl).
  { eapply last_Some_elem_of, ring_tail, H. }
  assert (a <> m_taskTail s) by congruence.
  rewrite lookup_insert_ne by done. rewrite Htl.
  rewrite lookup_insert_ne, lookup_insert_eq by congruence. intros; simplify_eq.
  assert (a ∉ l) as Hal by (intros Hal; destruct (ring_lookup s l a H Hal); congruence).
  split; simpl.
  - pose proof (ring_head _ _ _ H). by destruct l.
  - apply NoDup_app. split_and!; [apply H| |apply NoDup_singleton].
    intros x Hx. rewrite list_elem_of_singleton. congruence.
  - rewrite not_elem_of_app, list_elem_of_singleton. split; [apply H|congruence].
  - by rewrite last_snoc.
  - apply elem_of_app. left. apply H.
  - intros i p Hp. rewrite length_app; simpl.
    rewrite (proj2 (Nat.eqb_neq _ _)) by lia. unfold succ_ix.
    apply lookup_app_Some in Hp as [Hp|[Hi Hp]].
    + pose proof (lookup_lt_Some _ _ _ Hp). assert (p <> a).
      { intros ->. apply Hal. eapply list_elem_of_lookup_2; eauto. }
      destruct (ring_linked _ _ _ H _ _ Hp) as (tp & Htp & En).
      pose proof (ring_tail _ _ _ H) as Hlast. rewrite last_lookup in Hlast.
      destruct (decide (m_taskTail s = p)) as [<-|Hne].
      * exists (set_next tl a). split; [by simplify_map_eq|]. simpl.
        assert (i = pred (length l)) as -> by (eapply NoDup_lookup; [apply H|done..]).
        rewrite Nat.mod_small by lia. replace (S (pred (length l))) with (length l) by lia.
        rewrite list_lookup_total_middle by done. done.
      * assert (i <> pred (length l)) by (intros ->; congruence).
        exists tp. split; [by simplify_map_eq|]. rewrite En.
        rewrite (proj2 (Nat.eqb_neq _ _)) by lia. unfold succ_ix.
        rewrite !Nat.mod_small by lia. symmetry. by apply lookup_total_app_l; lia.
    + destruct (i - length l)%nat eqn:Ei; simpl in Hp; simplify_eq.
      eexists. split; [by simplify_map_eq|]. simpl.
      assert (i = length l) as -> by lia. replace (S (length l)) with (length l + 1)%nat by lia.
      rewrite Nat.Div0.mod_same. simpl. pose proof (ring_head _ _ _ H). destruct l; simpl in *; congruence.
Qed.

End Ring.

(** ** The scheduler as a state machine *)

(** One kernel action on the scheduler: a task record is created at a fresh address and
    started, the running task sleeps, the timer fires, or the scheduler is switched on or off. *)
Inductive sched_step (mainTask : Z) : Sched -> Sched -> Prop :=
| step_spawn s s' a t entry :
    tasks s !! a = None -> a <> 0 ->
    taskStart mainTask (with_tasks s (<[a := t]> (tasks s))) a entry = Ret s' ->
    sched_step mainTask s s'
| step_sleep s s' fuel ms : sleep fuel s ms = Ret s' -> sched_step mainTask s s'
| step_timer s s' fuel : irqCallback fuel s = Ret s' -> sched_step mainTask s s'
| step_enable s : sched_step mainTask s (enable s)
| step_disable s : sched_step mainTask s (disable s).

(** The states after [Scheduler::start] from zeroed static data with [mainTask] alone. *)
Inductive sched_reach (mainTask : Z) : Sched -> Prop :=
| reach_start s0 s t0 :
    tasks s0 = {[mainTask := t0]} -> next t0 = 0 -> start mainTask s0 = Ret s ->
    sched_reach mainTask s
| reach_step s s' : sched_reach mainTask s -> sched_step mainTask s s' -> sched_reach mainTask s'.

Lemma ring_with_time mainTask s l t : ring mainTask s l -> ring mainTask (with_time s t) l.
Proof. intros H. eapply ring_update; [done..|apply H|]. eauto. Qed.

Lemma start_ring mainTask s0 s t0 :
  mainTask <> 0 -> tasks s0 = {[mainTask := t0]} -> next t0 = 0 -> start mainTask s0 = Ret s ->
  ring mainTask s [mainTask].
Proof.
  intros Hm Ht Hn. unfold start. rewrite Ht, lookup_singleton_eq. intros; simplify_eq.
  split; simpl; try done.
  - apply NoDup_singleton.
  - rewrite list_elem_of_singleton. congruence.
  - by apply list_elem_of_singleton.
  - intros [|i] p Hp; simplify_eq/=. eexists. split; [by simplify_map_eq|]. done.
Qed.

(** C5: in every reachable scheduler state the tasks form a ring: all started tasks are
    linked in start order through [next], none twice and none null, the tail pointer is the
    last started task, which points back to main, and the running task is in the ring. *)
Theorem tasks_form_ring (mainTask : Z) (s : Sched) :
  mainTask <> 0 -> sched_reach mainTask s -> exists l, ring mainTask s l.
Proof.
  intros Hm. induction 1 as [s0 s t0 H1 H2 H3|s s' _ [l IH] Hs].
  - eexists. by eapply start_ring.
  - destruct Hs as [s s' a t e Ha H0 E|s s' f ms E|s s' f E|s|s].
    + eexists. by eapply taskStart_ring.
    + exists l. by eapply sleep_ring.
    + exists l. eapply schedule_ring; [by eapply ring_with_time|done].
    + exists l. eapply ring_update; [done..|apply IH|]. eauto.
    + exists l. eapply ring_update; [done..|apply IH|]. eauto.
Qed.

(** C6: the scheduler is round robin.  With at least two tasks in the ring, one of them
    eligible, and fuel for one turn of the ring, [schedule] returns; it switches to the first
    eligible task after the running one, every task it passed over was asleep with its
    wake-up time still ahead (or not started), only the target's state changes, the
    processor's registers are saved in the old task and loaded from the new one. *)
Theorem schedule_round_robin (mainTask : Z) (s : Sched) (l : list Z) (k fuel : nat) :
  ring mainTask s l -> (2 <= length l)%nat -> schedulerEnabled s = true ->
  m_runningTask s = at_ix l k -> (exists p, p ∈ l /\ elig_at s p = true) ->
  (length l <= fuel)%nat ->
  exists s' j, (1 <= j <= length l)%nat /\ schedule fuel s = Ret s' /\
    switched s s' (at_ix l (k + j)) /\ ring mainTask s' l /\
    elig_at s (at_ix l (k + j)) = true /\
    forall d, (0 < d < j)%nat -> elig_at s (at_ix l (k + d)) = false.
Proof. apply schedule_spec. Qed.

(** Time does not make a running task ineligible. *)
Lemma running_eligible s p t : tasks s !! p = Some t -> state t = Running -> elig_at s p = true.
Proof. intros H E. unfold elig_at, eligible. rewrite H, E. by rewrite bool_decide_true. Qed.

Lemma at_ix_mod l a b : (a mod length l = b mod length l)%nat -> at_ix l a = at_ix l b.
Proof. intros E. unfold at_ix. by rewrite E. Qed.

(** The task [d] places after the running one is reached within [d] ticks. *)
Lemma ticks_reach mainTask l fuel d : forall s k t,
  ring mainTask s l -> (2 <= length l)%nat -> schedulerEnabled s = true ->
  m_runningTask s = at_ix l k -> (1 <= d <= length l)%nat ->
  tasks s !! at_ix l (k + d) = Some t -> state t = Running -> (length l <= fuel)%nat ->
  exists m s', (1 <= m <= d)%nat /\ ticks fuel m s = Ret s' /\ m_runningTask s' = at_ix l (k + d).
Proof.
  induction d as [d IH] using lt_wf_ind. intros s k t H Hn Hen Hk Hd Ht Hst Hf.
  set (s1 := with_time s (u64 (m_timeMs s + 1))).
  destruct (schedule_spec mainTask s1 l k fuel) as (s' & j & Hj & E & Hsw & Hring & He & Hskip);
    [by apply ring_with_time|done..| |done|].
  { exists (at_ix l (k + d)). split; [by eapply at_ix_elem|]. by eapply (running_eligible s1). }
  assert (j <= d)%nat as Hjd.
  { destruct (decide (d < j)%nat); [|lia]. pose proof (Hskip d ltac:(lia)) as Hfalse.
    rewrite (running_eligible s1 _ t) in Hfalse; done. }
  pose proof Hsw as (Hr & _ & _ & Hen' & _ & Htasks & _).
  destruct (decide (j = d)) as [->|Hne].
  - exists 1%nat, s'. split; [lia|]. split; [|done]. simpl. unfold irqCallback. fold s1. by rewrite E.
  - destruct (IH (d - j)%nat ltac:(lia) s' (k + j)%nat
      (MkTask (if decide (at_ix l (k + d) = m_runningTask s1) then saved_regs (cpu s1) else regs t)
        (next t) (name t) (wakeupTime t) Running)) as (m & s'' & Hm & E' & Hr'').
    all: try done; try lia.
    + by rewrite Hen'.
    + replace (k + j + (d - j))%nat with (k + d)%nat by lia. rewrite (Htasks _ t) by done.
      rewrite Hst. f_equal. f_equal. by destruct (decide (at_ix l (k + d) = at_ix l (k + j))).
    + exists (S m), s''. split; [lia|]. split.
      * simpl. unfold irqCallback. fold s1. by rewrite E.
      * rewrite Hr''. f_equal. lia.
Qed.

(** C7: no runnable task starves.  If a task of the ring is in state Running and the
    scheduler is enabled, then whatever task runs now and whatever the others' states are,
    within as many timer interrupts as the ring has tasks that task is the running one, and
    none of those interrupts faults or spins. *)
Theorem no_starvation (mainTask : Z) (s : Sched) (l : list Z) (p : Z) (t : Task) (fuel : nat) :
  ring mainTask s l -> (2 <= length l)%nat -> schedulerEnabled s = true ->
  p ∈ l -> tasks s !! p = Some t -> state t = Running -> (length l <= fuel)%nat ->
  exists m s', (1 <= m <= length l)%nat /\ ticks fuel m s = Ret s' /\ m_runningTask s' = p.
Proof.
  intros H Hn Hen Hp Ht Hst Hf.
  destruct (ring_index mainTask s l p H Hp) as (q & Hq & <-).
  destruct (ring_index mainTask s l _ H (ring_running _ _ _ H)) as (k & Hk & Ek).
  set (d := if decide (k < q)%nat then (q - k)%nat else (q + length l - k)%nat).
  assert (1 <= d <= length l)%nat as Hd by (unfold d; case_decide; lia).
  assert (at_ix l (k + d) = at_ix l q) as Ed.
  { apply at_ix_mod. unfold d. case_decide; [f_equal; lia|].
    replace (k + (q + length l - k))%nat with (q + 1 * length l)%nat by lia.
    apply Nat.Div0.mod_add. }
  destruct (ticks_reach mainTask l fuel d s k t) as (m & s' & Hm & E & Hr); auto.
  { by rewrite Ed. }
  exists m, s'. split; [lia|]. by rewrite <- Ed.
Qed.

(** The scheduler hangs when every task sleeps.  In a ring of at least two tasks none of
    which is eligible (all asleep with wake-up times not yet passed), the search of
    [goToNextTask] returns for no amount of fuel: the timer interrupt that should wake a task
    never leaves the loop, because time stands still inside it. *)
Theorem all_asleep_spins (mainTask : Z) (s : Sched) (l : list Z) (fuel : nat) :
  ring mainTask s l -> (2 <= length l)%nat -> schedulerEnabled s = true ->
  (forall p, p ∈ l -> elig_at s p = false) -> schedule fuel s = Spin.
Proof.
  intros H Hn Hen Hno.
  destruct (ring_index mainTask s l _ H (ring_running _ _ _ H)) as (k & Hk & Ek).
  destruct (at_ix_next mainTask s l k H Hn) as (t & Ht & En).
  unfold schedule, goToNextTask. rewrite Hen, <- Ek, Ht, En.
  rewrite (goNext_spin mainTask s l); [done..|].
  intros d. apply Hno. by eapply at_ix_elem.
Qed.

(** C8: A task that is switched away from and later switched back to resumes at its return
    address with its callee-saved registers, flags and page directory, and with the stack
    pointer it called with, so one word below where a plain return would leave it; eax does not
    survive: it is the word at address 0.  [c] is the processor when the other task
    switches back. *)
Theorem switch_roundtrip (s : Sched) (a b : Z) (ta tb : Task) (c : TaskRegisters) :
  a <> b -> tasks s !! a = Some ta -> tasks s !! b = Some tb -> is_u32 (esp (cpu s)) ->
  exists s1 s2, switchTask s a b = Ret s1 /\ switchTask (with_cpu s1 c) b a = Ret s2 /\
    cpu s2 = Regs (low_word s) (ebx (cpu s)) (ecx (cpu s)) (edx (cpu s)) (esi (cpu s))
               (edi (cpu s)) (esp (cpu s)) (ebp (cpu s)) (eip (cpu s)) (eflags (cpu s))
               (cr3 (cpu s)).
Proof.
  intros Hab Ha Hb Hesp. unfold switchTask. rewrite Ha. simpl.
  rewrite lookup_insert_ne, Hb by done. do 2 eexists. split; [done|]. simpl.
  rewrite lookup_insert_ne, Hb by done. rewrite lookup_insert_ne, lookup_insert_eq by done.
  split; [done|]. simpl. unfold loaded_regs, saved_regs. simpl. f_equal.
  rewrite u32_sub_l. rewrite <- (u32_small (esp (cpu s))) at 2 by done. f_equal. lia.
Qed.

(** ** A concrete machine *)

Definition zero_regs : TaskRegisters := Regs 0 0 0 0 0 0 0 0 0 0 0.
Definition ex_task (nxt wake : Z) (st : TaskState) : Task := MkTask zero_regs nxt "task" wake st.

(** Main at 4096 running, a sleeper at 8192 and a runnable task at 12288. *)
Definition ex_sched (wake : Z) (st_main st_c : TaskState) : Sched :=
  MkSched (<[4096 := ex_task 8192 wake st_main]> (<[8192 := ex_task 12288 500 Sleep]>
            {[12288 := ex_task 4096 wake st_c]}))
    4096 12288 7 true (Regs 1 2 3 4 5 6 1024 8 9 10 11) 99 [].

Lemma ex_ring wake sm sc : ring 4096 (ex_sched wake sm sc) [4096; 8192; 12288].
Proof.
  split; try done.
  - by apply (bool_decide_unpack _).
  - by apply (bool_decide_unpack _).
  - by apply (bool_decide_unpack _).
  - intros [|[|[|i]]] p Hp; simplify_eq/=; eexists; split; [by simplify_map_eq|done|..];
      by simplify_map_eq.
Qed.

Lemma tasks_form_ring_witness : exists s l, sched_reach 4096 s /\ ring 4096 s l.
Proof.
  set (s0 := MkSched {[4096 := ex_task 0 0 NoState]} 0 0 0 true zero_regs 0 []).
  destruct (start 4096 s0) as [s| |] eqn:E; [|done..].
  assert (sched_reach 4096 s) as Hr 
    by (by apply (reach_start 4096 s0 s (ex_task 0 0 NoState))).
  destruct (tasks_form_ring 4096 s ltac:(lia) Hr) as [l Hl]. eauto.
Defined.

Lemma schedule_round_robin_witness :
  exists s', schedule 3 (ex_sched 0 Running Running) = Ret s' /\ m_runningTask s' = 12288.
Proof.
  destruct (schedule_round_robin 4096 (ex_sched 0 Running Running) [4096; 8192; 12288] 0 3)
    as (s' & j & Hj & E & (Hr & _) & _ & He & Hd);
    [apply ex_ring|simpl; lia|done|done| |simpl; lia|].
  { exists 4096. split; [by apply (bool_decide_unpack _)|done]. }
  exists s'. split; [done|]. rewrite Hr. simpl in Hj.
  assert (j = 1 \/ j = 2 \/ j = 3)%nat as [->|[->| ->]] by lia; [done|done|].
  by specialize (Hd 2%nat ltac:(lia)).
Defined.

Lemma no_starvation_witness :
  exists m s', (1 <= m <= 3)%nat /\ ticks 3 m (ex_sched 0 Running Running) = Ret s' /\
    m_runningTask s' = 12288.
Proof.
  apply (no_starvation 4096 (ex_sched 0 Running Running) [4096; 8192; 12288] 12288
           (ex_task 4096 0 Running) 3);
    [apply ex_ring|simpl; lia|done|by apply (bool_decide_unpack _)|by vm_compute|done|simpl; lia].
Defined.

Lemma all_asleep_spins_witness : schedule 1000 (ex_sched 600 Sleep Sleep) = Spin.
Proof.
  apply (all_asleep_spins 4096 (ex_sched 600 Sleep Sleep) [4096; 8192; 12288]);
    [apply ex_ring|simpl; lia|done|].
  intros p Hp. rewrite !elem_of_cons in Hp. destruct Hp as [->|[->|[->|Hp]]]; [done..|].
  by apply not_elem_of_nil in Hp.
Defined.

Lemma switch_roundtrip_witness :
  exists s1 s2, switchTask (ex_sched 0 Running Running) 4096 8192 = Ret s1 /\
    switchTask (with_cpu s1 zero_regs) 8192 4096 = Ret s2 /\
    cpu s2 = Regs 99 2 3 4 5 6 1024 8 9 10 11.
Proof.
  destruct (switch_roundtrip (ex_sched 0 Running Running) 4096 8192 (ex_task 8192 0 Running)
    (ex_task 12288 500 Sleep) zero_regs) as (s1 & s2 & H1 & H2 & H3);
    [lia|by vm_compute|by vm_compute|unfold is_u32; simpl; lia|].
  exists s1, s2. split_and!; [done|done|]. exact H3.
Defined.

End Scheduler.
