(* ===== verification/PhysicalAllocator.v ===== *)
(** The physical page allocator (Kernel/MemoryManager/PhysicalAllocator.h and .cpp): one bit
    per 4 KiB page frame, first-fit search for runs of free frames.

    [MemoryManagerData] is the struct of the same name, with the bitmap as a byte array;
    [used d p] reads the bit of frame [p].  Operations keep the source's 32-bit address
    arithmetic. *)

From S2P Require Import Prelude.

(** Paging.h and Arch.h constants. *)
Definition TOTAL_MEMORY : Z := 0xFFFFFFFF.
Definition KERNEL_START_ADDRESS : Z := 0x100000.
Definition PAGE_SIZE : Z := 0x1000.
Definition NUM_KERNEL_PAGETABLES : Z := 256.
Definition PAGE_TABLE_ENTRY_COUNT : Z := 1024.
Definition PAGE_DIRECTORY_ENTRY_COUNT : Z := 1024.
Definition MAX_NUM_PHYSICAL_PAGES : Z := TOTAL_MEMORY / PAGE_SIZE.
Definition ALLOCATION_BYTES : Z := MAX_NUM_PHYSICAL_PAGES / 8.
Definition PAGE_ALIGN (size : Z) : Z := u32 (u32 (size + PAGE_SIZE) - size mod PAGE_SIZE).

Module PhysicalAllocator.

Record MemoryManagerData := MkData {
  TotalMemory : Z;
  UsedMemory : Z;
  PhysicalAllocation : Z -> Z
}.

(** The array index and the bit number of the macros' [pageAddress]. *)
Definition byte_index (pageAddress : Z) : Z := u32 pageAddress / PAGE_SIZE / 8.
Definition bit_number (pageAddress : Z) : Z := u32 pageAddress / PAGE_SIZE mod 8.

Definition PHYSICAL_ALLOCATOR_GET_BYTE (d : MemoryManagerData) (pageAddress : Z) : Z :=
  u8 (PhysicalAllocation d (byte_index pageAddress)).
Definition PHYSICAL_ALLOCATOR_IS_USED (d : MemoryManagerData) (pageAddress : Z) : bool :=
  negb (Z.land (PHYSICAL_ALLOCATOR_GET_BYTE d pageAddress)
          (Z.shiftl 1 (bit_number pageAddress)) =? 0).
Definition PHYSICAL_ALLOCATOR_SET (d : MemoryManagerData) (pageAddress : Z) : MemoryManagerData :=
  MkData (TotalMemory d) (UsedMemory d)
    (<[byte_index pageAddress :=
        u8 (Z.lor (PHYSICAL_ALLOCATOR_GET_BYTE d pageAddress)
              (Z.shiftl 1 (bit_number pageAddress)))]> (PhysicalAllocation d)).
Definition PHYSICAL_ALLOCATOR_CLEAR (d : MemoryManagerData) (pageAddress : Z) : MemoryManagerData :=
  MkData (TotalMemory d) (UsedMemory d)
    (<[byte_index pageAddress :=
        u8 (Z.land (PHYSICAL_ALLOCATOR_GET_BYTE d pageAddress)
              (Z.lnot (Z.shiftl 1 (bit_number pageAddress))))]> (PhysicalAllocation d)).

Definition with_used (d : MemoryManagerData) (u : Z) : MemoryManagerData :=
  MkData (TotalMemory d) u (PhysicalAllocation d).

(** physicalAllocatorInit before [loadMemoryMap]: no use counted, every byte 0xFF. *)
Definition init_bitmap (d : MemoryManagerData) : MemoryManagerData :=
  MkData (TotalMemory d) 0
    (fun i => if (0 <=? i) && (i <? ALLOCATION_BYTES) then 0xFF else PhysicalAllocation d i).

(** The address of the [pageIndex]-th page of a range, as all the loops compute it. *)
Definition page_address (startAddress pageIndex : Z) : Z :=
  u32 (startAddress + u32 (pageIndex * PAGE_SIZE)).

(** The loops count [pageIndex] up to [numPages]; [n] is how many rounds are left. *)
Fixpoint isPhysicalFree_loop (n : nat) (d : MemoryManagerData) (startAddress pageIndex : Z) : bool :=
  match n with
  | O => true
  | S n => if PHYSICAL_ALLOCATOR_IS_USED d (page_address startAddress pageIndex) then false
           else isPhysicalFree_loop n d startAddress (pageIndex + 1)
  end.
Definition isPhysicalFree (d : MemoryManagerData) (startAddress numPages : Z) : bool :=
  isPhysicalFree_loop (Z.to_nat numPages) d startAddress 0.

Definition allocate_page (d : MemoryManagerData) (address : Z) : MemoryManagerData :=
  if PHYSICAL_ALLOCATOR_IS_USED d address then d
  else PHYSICAL_ALLOCATOR_SET (with_used d (u32 (UsedMemory d + PAGE_SIZE))) address.
Fixpoint physicalAllocateAt_loop (n : nat) (d : MemoryManagerData) (startAddress pageIndex : Z)
  : MemoryManagerData :=
  match n with
  | O => d
  | S n => physicalAllocateAt_loop n (allocate_page d (page_address startAddress pageIndex))
             startAddress (pageIndex + 1)
  end.
(** [physicalAllocate(startAddress, numPages)]. *)
Definition physicalAllocateAt (d : MemoryManagerData) (startAddress numPages : Z) : MemoryManagerData :=
  physicalAllocateAt_loop (Z.to_nat numPages) d startAddress 0.

Definition free_page (d : MemoryManagerData) (address : Z) : MemoryManagerData :=
  if PHYSICAL_ALLOCATOR_IS_USED d address
  then PHYSICAL_ALLOCATOR_CLEAR (with_used d (u32 (UsedMemory d - PAGE_SIZE))) address
  else d.
Fixpoint physicalFree_loop (n : nat) (d : MemoryManagerData) (startAddress pageIndex : Z)
  : MemoryManagerData :=
  match n with
  | O => d
  | S n => physicalFree_loop n (free_page d (page_address startAddress pageIndex))
             startAddress (pageIndex + 1)
  end.
Definition physicalFree (d : MemoryManagerData) (startAddress numPages : Z) : MemoryManagerData :=
  physicalFree_loop (Z.to_nat numPages) d startAddress 0.

(** [physicalAllocate(numPages)]: the first page index from which [numPages] pages are
    free; 0 and a message when there is none. *)
Fixpoint search_loop (n : nat) (d : MemoryManagerData) (numPages pageIndex : Z) : option Z :=
  match n with
  | O => None
  | S n => let physicalAddress := u32 (pageIndex * PAGE_SIZE) in
           if isPhysicalFree d physicalAddress numPages then Some physicalAddress
           else search_loop n d numPages (pageIndex + 1)
  end.
Definition physicalAllocate (d : MemoryManagerData) (numPages : Z)
  : Z * MemoryManagerData * list LogEntry :=
  match search_loop (Z.to_nat (TotalMemory d / PAGE_SIZE)) d numPages 0 with
  | Some physicalAddress => (physicalAddress, physicalAllocateAt d physicalAddress numPages, [])
  | None => (0, d, [Printk (crlf "Out of physical memory! Trying to allocated %d pages but we hae only %d left")
                      [numPages; u32 (TotalMemory d - UsedMemory d) / PAGE_SIZE]])
  end.

(** ** Frames *)

(** The bit of frame [p] (a page number below 2^20). *)
Definition used (d : MemoryManagerData) (p : Z) : bool :=
  Z.testbit (u8 (PhysicalAllocation d (p / 8))) (p mod 8).
Definition frame (a : Z) : Z := u32 a / PAGE_SIZE.

Lemma testbit_land_shift x k : 0 <= k -> negb (Z.land x (Z.shiftl 1 k) =? 0) = Z.testbit x k.
Proof.
  intros Hk. rewrite Z.shiftl_1_l. destruct (Z.testbit x k) eqn:E.
  - apply negb_true_iff, Z.eqb_neq. intros H0.
    assert (Z.testbit (Z.land x (2 ^ k)) k = false) as H1 by (rewrite H0; apply Z.bits_0).
    rewrite Z.land_spec, E, Z.pow2_bits_true in H1 by lia. done.
  - apply negb_false_iff, Z.eqb_eq, Z.bits_inj'. intros i Hi. rewrite Z.bits_0, Z.land_spec.
    destruct (decide (i = k)) as [->|Hne]; [by rewrite E|].
    rewrite Z.pow2_bits_false by lia. apply andb_false_r.
Qed.

Lemma u8_testbit x k : 0 <= k < 8 -> Z.testbit (u8 x) k = Z.testbit x k.
Proof. intros. apply (Z.mod_pow2_bits_low x 8 k). lia. Qed.

Lemma is_used_frame d a : PHYSICAL_ALLOCATOR_IS_USED d a = used d (frame a).
Proof.
  unfold PHYSICAL_ALLOCATOR_IS_USED, used, frame, bit_number, PHYSICAL_ALLOCATOR_GET_BYTE.
  rewrite testbit_land_shift; [done|]. apply Z.mod_pos_bound. lia.
Qed.

(** A frame is another one or another bit. *)
Lemma frame_split p q : p <> q -> p / 8 <> q / 8 \/ p mod 8 <> q mod 8.
Proof. intros H. zlia. Qed.

Lemma used_set d a q : used (PHYSICAL_ALLOCATOR_SET d a) q = (q =? frame a) || used d q.
Proof.
  unfold used, PHYSICAL_ALLOCATOR_SET, PHYSICAL_ALLOCATOR_GET_BYTE. simpl.
  change (byte_index a) with (frame a / 8). change (bit_number a) with (frame a mod 8).
  set (p := frame a). assert (0 <= p mod 8 < 8) by (apply Z.mod_pos_bound; lia).
  assert (0 <= q mod 8 < 8) by (apply Z.mod_pos_bound; lia).
  destruct (decide (p / 8 = q / 8)) as [E|E].
  - rewrite E, fn_lookup_insert, u8_u8, !u8_testbit, Z.lor_spec, u8_testbit by done.
    rewrite Z.shiftl_1_l, Z.pow2_bits_eqb by lia. rewrite orb_comm. f_equal.
    destruct (Z.eqb_spec (p mod 8) (q mod 8)), (Z.eqb_spec q p); try done; zlia.
  - rewrite fn_lookup_insert_ne by done. destruct (Z.eqb_spec q p); [congruence|done].
Qed.

Lemma used_clear d a q : used (PHYSICAL_ALLOCATOR_CLEAR d a) q = negb (q =? frame a) && used d q.
Proof.
  unfold used, PHYSICAL_ALLOCATOR_CLEAR, PHYSICAL_ALLOCATOR_GET_BYTE. simpl.
  change (byte_index a) with (frame a / 8). change (bit_number a) with (frame a mod 8).
  set (p := frame a). assert (0 <= p mod 8 < 8) by (apply Z.mod_pos_bound; lia).
  assert (0 <= q mod 8 < 8) by (apply Z.mod_pos_bound; lia).
  destruct (decide (p / 8 = q / 8)) as [E|E].
  - rewrite E, fn_lookup_insert, u8_u8, !u8_testbit, Z.land_spec, u8_testbit by done.
    rewrite Z.lnot_spec, Z.shiftl_1_l, Z.pow2_bits_eqb by lia. rewrite andb_comm. do 2 f_equal.
    destruct (Z.eqb_spec (p mod 8) (q mod 8)), (Z.eqb_spec q p); try done; zlia.
  - rewrite fn_lookup_insert_ne by done. destruct (Z.eqb_spec q p); [congruence|done].
Qed.

(** The frames of the [numPages] pages from [startAddress] on, as the loops visit them. *)
Definition frames_from (startAddress pageIndex : Z) (n : nat) : list Z :=
  (fun i => frame (page_address startAddress i)) <$> seqZ pageIndex (Z.of_nat n).
Definition frames (startAddress numPages : Z) : list Z :=
  frames_from startAddress 0 (Z.to_nat numPages).

Lemma frames_from_S a i n :
  frames_from a i (S n) = frame (page_address a i) :: frames_from a (i + 1) n.
Proof. unfold frames_from. rewrite seqZ_cons by lia. simpl. do 3 f_equal; lia. Qed.

Lemma isPhysicalFree_loop_spec n : forall d a i,
  isPhysicalFree_loop n d a i = forallb (fun p => negb (used d p)) (frames_from a i n).
Proof.
  induction n as [|n IH]; intros d a i; [done|]. rewrite frames_from_S. simpl.
  rewrite is_used_frame, IH. by destruct (used d _).
Qed.

Lemma used_allocate_page d a q : used (allocate_page d a) q = (q =? frame a) || used d q.
Proof.
  unfold allocate_page. rewrite is_used_frame. destruct (used d (frame a)) eqn:E.
  - destruct (Z.eqb_spec q (frame a)) as [->|]; [by rewrite E|done].
  - by rewrite used_set.
Qed.
Lemma used_free_page d a q : used (free_page d a) q = negb (q =? frame a) && used d q.
Proof.
  unfold free_page. rewrite is_used_frame. destruct (used d (frame a)) eqn:E.
  - by rewrite used_clear.
  - destruct (Z.eqb_spec q (frame a)) as [->|]; [by rewrite E|done].
Qed.

Lemma used_allocateAt_loop n : forall d a i q,
  used (physicalAllocateAt_loop n d a i) q = existsb (Z.eqb q) (frames_from a i n) || used d q.
Proof.
  induction n as [|n IH]; intros d a i q; [done|]. rewrite frames_from_S. simpl.
  rewrite IH, used_allocate_page. by destruct (q =? _), (existsb _ _).
Qed.
Lemma used_free_loop n : forall d a i q,
  used (physicalFree_loop n d a i) q = negb (existsb (Z.eqb q) (frames_from a i n)) && used d q.
Proof.
  induction n as [|n IH]; intros d a i q; [done|]. rewrite frames_from_S. simpl.
  rewrite IH, used_free_page. by destruct (q =? _), (existsb _ _).
Qed.

Lemma used_allocateAt d a n q :
  used (physicalAllocateAt d a n) q = existsb (Z.eqb q) (frames a n) || used d q.
Proof. apply used_allocateAt_loop. Qed.
Lemma used_free d a n q :
  used (physicalFree d a n) q = negb (existsb (Z.eqb q) (frames a n)) && used d q.
Proof. apply used_free_loop. Qed.

Lemma search_loop_spec n : forall d np i,
  match search_loop n d np i with
  | Some a => exists j, i <= j < i + Z.of_nat n /\ a = u32 (j * PAGE_SIZE) /\
      isPhysicalFree d a np = true /\
      forall k, i <= k < j -> isPhysicalFree d (u32 (k * PAGE_SIZE)) np = false
  | None => forall k, i <= k < i + Z.of_nat n -> isPhysicalFree d (u32 (k * PAGE_SIZE)) np = false
  end.
Proof.
  induction n as [|n IH]; intros d np i; simpl; [lia|].
  destruct (isPhysicalFree d (u32 (i * PAGE_SIZE)) np) eqn:E.
  - exists i. split_and!; [lia..|done|done|lia].
  - specialize (IH d np (i + 1)). destruct (search_loop n d np (i + 1)) as [a|].
    + destruct IH as (j & ? & ? & ? & Hk). exists j. split_and!; [lia..|done|done|].
      intros k Hk'. destruct (decide (k = i)) as [->|]; [done|]. apply Hk. lia.
    + intros k Hk. destruct (decide (k = i)) as [->|]; [done|]. apply IH. lia.
Qed.

(** ** Accounting *)

Definition NUM_FRAMES : Z := 1048576.

(** How many of the 2^20 frames are marked used. *)
Definition count_used (d : MemoryManagerData) : Z :=
  Z.of_nat (length (filter (fun p => used d p = true) (seqZ 0 NUM_FRAMES))).

(** The difference between the byte counter and the bitmap. *)
Definition imbalance (d : MemoryManagerData) : Z := u32 (UsedMemory d - PAGE_SIZE * count_used d).

Lemma frame_range a : 0 <= frame a < NUM_FRAMES.
Proof. unfold frame, NUM_FRAMES, PAGE_SIZE. pose proof (u32_range a). zlia. Qed.

Lemma count_used_flip d d' a :
  used d (frame a) = false -> (forall q, used d' q = (q =? frame a) || used d q) ->
  count_used d' = count_used d + 1.
Proof.
  intros Hf Hd. unfold count_used.
  rewrite (filter_add_one (fun p => used d p = true) (fun p => used d' p = true) (frame a)).
  - lia.
  - apply NoDup_seqZ.
  - apply elem_of_seqZ. pose proof (frame_range a). lia.
  - by rewrite Hf.
  - intros x. rewrite Hd, orb_true_iff, Z.eqb_eq. done.
Qed.

Lemma imbalance_allocate_page d a : imbalance (allocate_page d a) = imbalance d.
Proof.
  unfold allocate_page. rewrite is_used_frame. destruct (used d (frame a)) eqn:E; [done|].
  set (d' := PHYSICAL_ALLOCATOR_SET _ _). unfold imbalance.
  rewrite (count_used_flip d d' a) by (first [done | intros q; apply (used_set (with_used d _))]).
  simpl. rewrite u32_sub_l. f_equal. unfold PAGE_SIZE. lia.
Qed.
Lemma imbalance_free_page d a : imbalance (free_page d a) = imbalance d.
Proof.
  unfold free_page. rewrite is_used_frame. destruct (used d (frame a)) eqn:E; [|done].
  set (d' := PHYSICAL_ALLOCATOR_CLEAR _ _). unfold imbalance.
  assert (forall q, used d' q = negb (q =? frame a) && used d q) as Hq
    by (intros q; apply (used_clear (with_used d _))).
  rewrite (count_used_flip d' d a); [simpl; rewrite u32_sub_l; f_equal; unfold PAGE_SIZE; lia|..].
  - by rewrite Hq, Z.eqb_refl.
  - intros q. rewrite Hq. destruct (Z.eqb_spec q (frame a)) as [->|]; [by rewrite E|done].
Qed.

Lemma imbalance_allocateAt d a n : imbalance (physicalAllocateAt d a n) = imbalance d.
Proof.
  unfold physicalAllocateAt. generalize 0. generalize dependent d.
  induction (Z.to_nat n) as [|k IH]; intros d i; simpl; [done|].
  by rewrite IH, imbalance_allocate_page.
Qed.
Lemma imbalance_free d a n : imbalance (physicalFree d a n) = imbalance d.
Proof.
  unfold physicalFree. generalize 0. generalize dependent d.
  induction (Z.to_nat n) as [|k IH]; intros d i; simpl; [done|].
  by rewrite IH, imbalance_free_page.
Qed.

Lemma UsedMemory_allocateAt_range d a n :
  is_u32 (UsedMemory d) -> is_u32 (UsedMemory (physicalAllocateAt d a n)).
Proof.
  unfold physicalAllocateAt. generalize 0. generalize dependent d.
  induction (Z.to_nat n) as [|k IH]; intros d i H; simpl; [done|].
  apply IH. unfold allocate_page. case_if; [done|]. apply u32_range.
Qed.
Lemma UsedMemory_free_range d a n :
  is_u32 (UsedMemory d) -> is_u32 (UsedMemory (physicalFree d a n)).
Proof.
  unfold physicalFree. generalize 0. generalize dependent d.
  induction (Z.to_nat n) as [|k IH]; intros d i H; simpl; [done|].
  apply IH. unfold free_page. case_if; [|done]. apply u32_range.
Qed.

(** Equal bitmaps and equal imbalance give equal byte counters. *)
Lemma UsedMemory_determined d d' :
  is_u32 (UsedMemory d) -> is_u32 (UsedMemory d') -> (forall q, used d' q = used d q) ->
  imbalance d' = imbalance d -> UsedMemory d' = UsedMemory d.
Proof.
  intros H H' Hu Hi. assert (count_used d' = count_used d) as E.
  { unfold count_used. do 2 f_equal. apply list_filter_iff. intros x. by rewrite Hu. }
  unfold imbalance in Hi. rewrite E in Hi. zlia.
Qed.

Lemma TotalMemory_allocateAt d a n : TotalMemory (physicalAllocateAt d a n) = TotalMemory d.
Proof.
  unfold physicalAllocateAt. generalize 0. generalize dependent d. induction (Z.to_nat n) as [|k IH]; intros d i; [done|].
  simpl. rewrite IH. unfold allocate_page. by case_if.
Qed.

Lemma isPhysicalFree_true d a n :
  isPhysicalFree d a n = true <-> forall q, q ∈ frames a n -> used d q = false.
Proof.
  unfold isPhysicalFree. rewrite isPhysicalFree_loop_spec, forallb_forall. unfold frames.
  split; intros H q Hq; specialize (H q); rewrite list_elem_of_In in *;
    rewrite negb_true_iff in *; auto.
Qed.
Lemma isPhysicalFree_false d a n :
  isPhysicalFree d a n = false -> exists q, q ∈ frames a n /\ used d q = true.
Proof.
  unfold isPhysicalFree. rewrite isPhysicalFree_loop_spec. intros H.
  apply not_true_iff_false in H. rewrite forallb_forall in H.
  destruct (existsb (used d) (frames a n)) eqn:E.
  - apply existsb_exists in E as (q & Hq & Hu). exists q. by rewrite list_elem_of_In.
  - exfalso. apply H. intros q Hq. apply negb_true_iff. apply not_true_iff_false. intros Hu.
    assert (existsb (used d) (frames a n) = true); [|congruence].
    apply existsb_exists. eauto.
Qed.

Lemma existsb_frames q l : existsb (Z.eqb q) l = true <-> q ∈ l.
Proof.
  rewrite existsb_exists, list_elem_of_In. split.
  - by intros (x & Hx & ->%Z.eqb_eq).
  - intros H. exists q. by rewrite Z.eqb_refl.
Qed.
Lemma existsb_frames_false q l : q ∉ l -> existsb (Z.eqb q) l = false.
Proof. intros H. apply not_true_iff_false. by rewrite existsb_frames. Qed.

Lemma physicalAllocate_spec d n :
  let '(a, d', log) := physicalAllocate d n in
  (is_u32 a /\ a mod 4096 = 0 /\ log = [] /\
     (forall q, q ∈ frames a n -> used d q = false) /\
     (forall q, q ∈ frames a n -> used d' q = true) /\
     (forall q, q ∉ frames a n -> used d' q = used d q))
  \/ (a = 0 /\ d' = d).
Proof.
  unfold physicalAllocate.
  pose proof (search_loop_spec (Z.to_nat (TotalMemory d / PAGE_SIZE)) d n 0) as H.
  destruct (search_loop _ d n 0) as [a|]; [left|by right].
  destruct H as (j & Hj & -> & Hf & _). rewrite isPhysicalFree_true in Hf.
  split_and!; [apply u32_range|unfold PAGE_SIZE; zlia|done|done| |];
    intros q Hq; rewrite used_allocateAt.
  - by rewrite (proj2 (existsb_frames _ _)).
  - by rewrite existsb_frames_false.
Qed.

(** A run of free frames that starts below [TotalMemory] is enough for a success. *)
Lemma physicalAllocate_finds d n k :
  0 <= k < TotalMemory d / PAGE_SIZE -> (forall q, q ∈ frames (u32 (k * PAGE_SIZE)) n -> used d q = false) ->
  exists p d', physicalAllocate d n = (p, d', []) /\ TotalMemory d' = TotalMemory d /\
    is_u32 p /\ p mod 4096 = 0 /\ forall q, q ∈ frames p n -> used d q = false.
Proof.
  intros Hk Hf. unfold physicalAllocate.
  pose proof (search_loop_spec (Z.to_nat (TotalMemory d / PAGE_SIZE)) d n 0) as H.
  destruct (search_loop _ d n 0) as [a|].
  { destruct H as (j & _ & -> & Hj & _). rewrite isPhysicalFree_true in Hj. do 2 eexists. split; [done|].
    split; [apply TotalMemory_allocateAt|]. split; [apply u32_range|]. split; [unfold PAGE_SIZE; zlia|done]. }
  rewrite <- isPhysicalFree_true in Hf. rewrite H in Hf by lia. done.
Qed.

(** C9: [physicalAllocate(numPages)] is first fit.  Either it returns the lowest
    page-aligned address below [TotalMemory] whose [numPages] frames are all free, marks
    exactly those frames used and leaves every other frame as it was; or no run below
    [TotalMemory] is free, and it returns 0 with a message and changes nothing. *)
Theorem physicalAllocate_first_fit (d : MemoryManagerData) (numPages : Z) :
  let '(a, d', log) := physicalAllocate d numPages in
  (exists i, 0 <= i < TotalMemory d / PAGE_SIZE /\ a = u32 (i * PAGE_SIZE) /\ log = [] /\
     (forall q, q ∈ frames a numPages -> used d q = false /\ used d' q = true) /\
     (forall q, q ∉ frames a numPages -> used d' q = used d q) /\
     (forall k, 0 <= k < i ->
        exists q, q ∈ frames (u32 (k * PAGE_SIZE)) numPages /\ used d q = true))
  \/ (a = 0 /\ d' = d /\ length log = 1%nat /\
      forall k, 0 <= k < TotalMemory d / PAGE_SIZE ->
        exists q, q ∈ frames (u32 (k * PAGE_SIZE)) numPages /\ used d q = true).
Proof.
  unfold physicalAllocate.
  pose proof (search_loop_spec (Z.to_nat (TotalMemory d / PAGE_SIZE)) d numPages 0) as H.
  destruct (search_loop _ d numPages 0) as [a|].
  - left. destruct H as (j & Hj & -> & Hf & Hk). exists j.
    rewrite isPhysicalFree_true in Hf.
    split_and!; [lia|lia|done|done| | |].
    + intros q Hq. split; [auto|]. rewrite used_allocateAt. by rewrite (proj2 (existsb_frames _ _)).
    + intros q Hq. rewrite used_allocateAt, existsb_frames_false; done.
    + intros k Hk'. apply isPhysicalFree_false. by apply Hk.
  - right. split_and!; [done..|]. intros k Hk. apply isPhysicalFree_false, H. lia.
Qed.

(** C10: freeing what was allocated restores the allocator: if [physicalAllocate] succeeded
    with address [a], then [physicalFree(a, numPages)] gives back every frame's bit, the
    [UsedMemory] counter and the total. *)
Theorem allocate_free_roundtrip (d d' : MemoryManagerData) (numPages a : Z) :
  is_u32 (UsedMemory d) -> physicalAllocate d numPages = (a, d', []) ->
  (forall q, used (physicalFree d' a numPages) q = used d q) /\
  UsedMemory (physicalFree d' a numPages) = UsedMemory d /\
  TotalMemory d' = TotalMemory d.
Proof.
  intros HU E. unfold physicalAllocate in E.
  pose proof (search_loop_spec (Z.to_nat (TotalMemory d / PAGE_SIZE)) d numPages 0) as H.
  destruct (search_loop _ d numPages 0) as [a'|]; [|done].
  injection E as -> <-. destruct H as (j & _ & _ & Hf & _). rewrite isPhysicalFree_true in Hf.
  assert (forall q, used (physicalFree (physicalAllocateAt d a numPages) a numPages) q = used d q) as Hu.
  { intros q. rewrite used_free, used_allocateAt.
    destruct (existsb (Z.eqb q) (frames a numPages)) eqn:Eq; [|done].
    apply existsb_frames in Eq. by rewrite Hf. }
  split; [done|]. split.
  - apply UsedMemory_determined; [done| |done|].
    + by apply UsedMemory_free_range, UsedMemory_allocateAt_range.
    + by rewrite imbalance_free, imbalance_allocateAt.
  - unfold physicalAllocateAt. clear. generalize 0. generalize dependent d.
    induction (Z.to_nat numPages) as [|k IH]; intros d i; simpl; [done|].
    rewrite IH. unfold allocate_page. by case_if.
Qed.

(** Sequences of allocator calls. *)
Inductive phys_op := PAllocate (numPages : Z) | PAllocateAt (a numPages : Z) | PFree (a numPages : Z).
Definition phys_step (d : MemoryManagerData) (o : phys_op) : MemoryManagerData :=
  match o with
  | PAllocate n => (physicalAllocate d n).1.2
  | PAllocateAt a n => physicalAllocateAt d a n
  | PFree a n => physicalFree d a n
  end.

(** C11: the [UsedMemory] counter follows the bitmap: over any sequence of allocator calls the
    counter and 4096 times the number of used frames change by the same amount modulo 2^32, so
    double allocations and double frees are never counted twice. *)
Theorem UsedMemory_accounts (d : MemoryManagerData) (ops : list phys_op) :
  imbalance (fold_left phys_step ops d) = imbalance d.
Proof.
  revert d. induction ops as [|o ops IH]; intros d; simpl; [done|]. rewrite IH.
  destruct o as [n|a n|a n]; simpl.
  - unfold physicalAllocate. case_match; simpl; [apply imbalance_allocateAt|done].
  - apply imbalance_allocateAt.
  - apply imbalance_free.
Qed.

(** The bitmap is one byte short.  A page's byte lies inside the
    [ALLOCATION_BYTES]-byte array exactly when the page lies below 0xFFFF8000: the last eight
    frames of the 4 GiB address space index one byte past its end, because TOTAL_MEMORY is
    2^32 - 1 and both divisions round down. *)
Theorem bitmap_bounds (pageAddress : Z) :
  0 <= byte_index pageAddress /\
  (byte_index pageAddress < ALLOCATION_BYTES <-> u32 pageAddress < 0xFFFF8000) /\
  byte_index pageAddress <= ALLOCATION_BYTES.
Proof.
  unfold byte_index, PAGE_SIZE. change ALLOCATION_BYTES with 131071.
  pose proof (u32_range pageAddress). zlia.
Qed.

(** A four-page machine whose page 0 is taken. *)
Definition ex_data : MemoryManagerData := MkData 16384 4096 (fun i => if i =? 0 then 0x01 else 0xFF).

Lemma allocate_free_roundtrip_witness :
  exists a d', physicalAllocate ex_data 2 = (a, d', []) /\ a = 4096 /\
    UsedMemory (physicalFree d' a 2) = 4096.
Proof.
  destruct (physicalAllocate ex_data 2) as [[a d'] log] eqn:E.
  assert (log = []) as -> by (vm_compute in E; congruence).
  exists a, d'. split; [done|]. split; [vm_compute in E; congruence|].
  by destruct (allocate_free_roundtrip ex_data d' 2 a ltac:(unfold is_u32; simpl; lia) E) as (_ & H & _).
Defined.

End PhysicalAllocator.
