(* ===== verification/VirtualMemory.v ===== *)
(** Paging (Kernel/MemoryManager/Paging.h, VirtualMemoryManager.cpp, MemoryManager.cpp): page
    directories and page tables in memory, mapping, unmapping and the page-granular memory
    allocator above the physical allocator.

    A [PageDirectory&] is the address of the directory; its entries and the page tables they
    point to are 32-bit words of [mem], read and written through the identity mapping the
    kernel keeps for them.  [interrupts] is the interrupt flag that [Libk::atomicEnable] and
    [atomicDisable] switch, [flushes] counts TLB flushes, [mlog] the kernel messages. *)

From S2P Require Import Prelude PhysicalAllocator.

Module VirtualMemory.
Import PhysicalAllocator.

Record MM := MkMM {
  phys : MemoryManagerData;
  mem : Mem;
  interrupts : bool;
  flushes : Z;
  mlog : list LogEntry
}.

Definition with_phys (s : MM) (d : MemoryManagerData) : MM :=
  MkMM d (mem s) (interrupts s) (flushes s) (mlog s).
Definition with_mem (s : MM) (m : Mem) : MM :=
  MkMM (phys s) m (interrupts s) (flushes s) (mlog s).
Definition with_interrupts (s : MM) (b : bool) : MM :=
  MkMM (phys s) (mem s) b (flushes s) (mlog s).
Definition with_log (s : MM) (l : list LogEntry) : MM :=
  MkMM (phys s) (mem s) (interrupts s) (flushes s) (mlog s ++ l).

(** Libk/Atomic.h: the critical section is the interrupt flag; it does not nest. *)
Definition atomicEnable (s : MM) : MM := with_interrupts s false.
Definition atomicDisable (s : MM) : MM := with_interrupts s true.

Definition flushCurrentPageDirectory (s : MM) : MM :=
  MkMM (phys s) (mem s) (interrupts s) (flushes s + 1) (mlog s).

(** ** Entries *)

(** The bit fields of PageTableEntry and PageDirectoryEntry in their 32-bit word. *)
Definition e_present (w : Z) : bool := Z.testbit w 0.
Definition e_write (w : Z) : bool := Z.testbit w 1.
Definition e_user (w : Z) : bool := Z.testbit w 2.
Definition e_pageFrameNumber (w : Z) : Z := Z.land (Z.shiftr w 12) 0xFFFFF.
Definition set_flag (w : Z) (i : Z) (b : bool) : Z :=
  if b then Z.lor w (Z.shiftl 1 i) else Z.land w (Z.lnot (Z.shiftl 1 i)).
Definition set_pageFrameNumber (w pfn : Z) : Z :=
  Z.lor (Z.land w 0xFFF) (Z.shiftl (Z.land pfn 0xFFFFF) 12).

(** The four field assignments of VirtualMap, in order: present, write, user, frame number. *)
Definition mapped_entry (w : Z) (isUser : bool) (pfn : Z) : Z :=
  set_pageFrameNumber (set_flag (set_flag (set_flag w 0 true) 1 true) 2 isUser) pfn.

Definition PAGE_DIR_INDEX (vaddress : Z) : Z := Z.shiftr vaddress 22.
Definition PAGE_TABLE_INDEX (vaddress : Z) : Z := Z.land (Z.shiftr vaddress 12) 0x3ff.

(** The addresses the C++ references stand for. *)
Definition GetPageDirectoryEntry (pageDirectory virtualAddress : Z) : Z :=
  u32 (pageDirectory + 4 * PAGE_DIR_INDEX virtualAddress).
Definition GetPageTable (s : MM) (pageDirectory virtualAddress : Z) : Z :=
  u32 (e_pageFrameNumber (load32 (mem s) (GetPageDirectoryEntry pageDirectory virtualAddress))
       * PAGE_SIZE).
Definition GetPageTableEntry (s : MM) (pageDirectory virtualAddress : Z) : Z :=
  u32 (GetPageTable s pageDirectory virtualAddress + 4 * PAGE_TABLE_INDEX virtualAddress).

Definition IsPagePresent (s : MM) (pageDirectory virtualAddress : Z) : bool :=
  if e_present (load32 (mem s) (GetPageDirectoryEntry pageDirectory virtualAddress))
  then e_present (load32 (mem s) (GetPageTableEntry s pageDirectory virtualAddress))
  else false.

Definition GetPhysicalAddress (s : MM) (pageDirectory virtualAddress : Z) : Z :=
  u32 (e_pageFrameNumber (load32 (mem s) (GetPageTableEntry s pageDirectory virtualAddress))
       * PAGE_SIZE + Z.land virtualAddress 0xFFF).

(** ** Mapping *)

(** The tail of a VirtualMap round, once the page table exists. *)
Definition map_entry (s : MM) (pageDirectory virtualAddress physicalAddress : Z) (isUser : bool) : MM :=
  let pte := GetPageTableEntry s pageDirectory virtualAddress in
  with_mem s (store32 (mem s) pte
    (mapped_entry (load32 (mem s) pte) isUser (Z.shiftr physicalAddress 12))).

(** VirtualMap and identityMap call each other when a page table is missing; [fuel] bounds
    that recursion and [None] means it was not enough. *)
Section Map.
Context (identityMap_rec : MM -> Z -> Z -> Z -> option MM).

(** The creation of a missing page table inside VirtualMap. *)
Definition create_table (s : MM) (pageDirectory virtualAddress : Z) (isUser : bool) : option MM :=
  let '(pageTablePhysicalAddress, d, log) := physicalAllocate (phys s) 1 in
  let s1 := with_log (with_phys s d) log in
  match identityMap_rec s1 pageDirectory pageTablePhysicalAddress 0 with
  | None => None
  | Some s2 =>
      let pde := GetPageDirectoryEntry pageDirectory virtualAddress in
      Some (with_mem s2 (store32 (mem s2) pde
        (mapped_entry (load32 (mem s2) pde) isUser (Z.shiftr pageTablePhysicalAddress 12))))
  end.

Fixpoint map_loop (n : nat) (s : MM) (pageDirectory virtualAddress physicalAddress : Z)
    (isUser : bool) : option MM :=
  match n with
  | O => Some (flushCurrentPageDirectory s)
  | S n =>
      let pde := load32 (mem s) (GetPageDirectoryEntry pageDirectory virtualAddress) in
      let os1 := if e_present pde then Some s
                 else create_table s pageDirectory virtualAddress isUser in
      match os1 with
      | None => None
      | Some s1 =>
          map_loop n (map_entry s1 pageDirectory virtualAddress physicalAddress isUser)
            pageDirectory (u32 (virtualAddress + PAGE_SIZE)) (u32 (physicalAddress + PAGE_SIZE)) isUser
      end
  end.
End Map.

Fixpoint identityMap (fuel : nat) (s : MM) (pageDirectory address size : Z) : option MM :=
  match fuel with
  | O => None
  | S fuel =>
      let page_count := PAGE_ALIGN size / PAGE_SIZE in
      let s1 := atomicEnable s in
      let s2 := with_phys s1 (physicalAllocateAt (phys s1) address page_count) in
      match map_loop (identityMap fuel) (Z.to_nat page_count) s2 pageDirectory address address false with
      | None => None
      | Some s3 => Some (atomicDisable s3)
      end
  end.

Definition VirtualMap (fuel : nat) (s : MM) (pageDirectory virtualAddress physicalAddress numPages : Z)
    (isUser : bool) : option MM :=
  map_loop (identityMap fuel) (Z.to_nat numPages) s pageDirectory virtualAddress physicalAddress isUser.

(** VirtualFree: the loop runs while the address is below the wrapped end; [n] rounds are
    enough for [n] pages. *)
Fixpoint free_loop (n : nat) (s : MM) (pageDirectory address last : Z) : MM :=
  match n with
  | O => s
  | S n => if address <? last
           then free_loop n (with_mem s (store32 (mem s) (GetPageTableEntry s pageDirectory address) 0))
                  pageDirectory (u32 (address + PAGE_SIZE)) last
           else s
  end.
Definition VirtualFree (s : MM) (pageDirectory virtualAddress numPages : Z) : MM :=
  flushCurrentPageDirectory
    (free_loop (Z.to_nat numPages) s pageDirectory virtualAddress
       (u32 (virtualAddress + u32 (numPages * PAGE_SIZE)))).

(** VirtualAllocate's search: [fuel] rounds of the while loop. *)
Fixpoint find_loop (fuel : nat) (s : MM) (pageDirectory virtualAddress startAddr pageIndex maxAddress numPages : Z)
  : option (option Z) :=
  match fuel with
  | O => None
  | S fuel =>
      if virtualAddress <? maxAddress
      then if negb (IsPagePresent s pageDirectory virtualAddress)
           then if pageIndex + 1 =? numPages then Some (Some startAddr)
                else find_loop fuel s pageDirectory (u32 (virtualAddress + PAGE_SIZE)) startAddr
                       (pageIndex + 1) maxAddress numPages
           else find_loop fuel s pageDirectory (u32 (virtualAddress + PAGE_SIZE))
                  (u32 (virtualAddress + PAGE_SIZE)) 0 maxAddress numPages
      else Some None
  end.

Definition userStartAddress : Z := NUM_KERNEL_PAGETABLES * PAGE_SIZE * 1024.

Definition VirtualAllocate (fuel : nat) (s : MM) (pageDirectory physicalAddress numPages : Z)
    (user : bool) : option (Z * MM) :=
  let virtualAddress := if user then userStartAddress else KERNEL_START_ADDRESS in
  let maxAddress := if user then TOTAL_MEMORY else userStartAddress in
  match find_loop fuel s pageDirectory virtualAddress virtualAddress 0 maxAddress numPages with
  | None => None
  | Some (Some startAddr) =>
      match VirtualMap fuel s pageDirectory startAddr physicalAddress numPages user with
      | None => None
      | Some s' => Some (startAddr, s')
      end
  | Some None => Some (0, with_log s [Printk "Out of virtual memory!" []])
  end.

(** ** The page allocator (MemoryManager.cpp) *)

(** The number of pages for [size] bytes, as memoryAllocate and memoryMap compute it. *)
Definition num_pages (size : Z) : Z :=
  if size mod PAGE_SIZE =? 0 then size / PAGE_SIZE else PAGE_ALIGN size / PAGE_SIZE.

(** [Libk::memset(ptr, 0, n)] on virtual memory: each byte goes to the frame its page maps to. *)
Fixpoint clear_virtual (n : nat) (s : MM) (pageDirectory address : Z) : MM :=
  match n with
  | O => s
  | S n => clear_virtual n
             (with_mem s (storeb (mem s) (GetPhysicalAddress s pageDirectory address) 0))
             pageDirectory (u32 (address + 1))
  end.

Definition memoryAllocate (fuel : nat) (s : MM) (pageDirectory size : Z) (user : bool) : option (Z * MM) :=
  let numPages := num_pages size in
  let s0 := atomicEnable s in
  let '(physicalAddress, d, log) := physicalAllocate (phys s0) numPages in
  let s1 := with_log (with_phys s0 d) log in
  if 0 <? physicalAddress
  then match VirtualAllocate fuel s1 pageDirectory physicalAddress numPages user with
       | None => None
       | Some (virtualAddress, s2) =>
           if virtualAddress =? 0
           then let s3 := with_phys s2 (physicalFree (phys s2) physicalAddress numPages) in
                Some (0, with_log (atomicDisable s3) [Printk (crlf "Out of vmem!") []])
           else Some (virtualAddress,
                      clear_virtual (Z.to_nat (u32 (numPages * PAGE_SIZE))) (atomicDisable s2)
                        pageDirectory virtualAddress)
       end
  else Some (0, s1).

Definition memoryMap (fuel : nat) (s : MM) (pageDirectory virtualAddress size : Z) (isUser : bool) : option MM :=
  let numPages := num_pages size in
  let '(physicalAddress, d, log) := physicalAllocate (phys s) numPages in
  VirtualMap fuel (with_log (with_phys s d) log) pageDirectory virtualAddress physicalAddress numPages isUser.

(** memoryFree(pageDirectory, startAddress, size): rounds [i] of [size / PAGE_SIZE]. *)
Definition free_one (s : MM) (pageDirectory virtual_address : Z) : MM :=
  if IsPagePresent s pageDirectory virtual_address
  then VirtualFree
         (with_phys s (physicalFree (phys s) (GetPhysicalAddress s pageDirectory virtual_address) 1))
         pageDirectory virtual_address 1
  else s.
Fixpoint memoryFree_loop (n : nat) (s : MM) (pageDirectory startAddress i : Z) : MM :=
  match n with
  | O => s
  | S n => memoryFree_loop n (free_one s pageDirectory (u32 (startAddress + u32 (i * PAGE_SIZE))))
             pageDirectory startAddress (i + 1)
  end.
Definition memoryFree (s : MM) (pageDirectory startAddress size : Z) : MM :=
  atomicDisable (memoryFree_loop (Z.to_nat (size / PAGE_SIZE)) (atomicEnable s) pageDirectory startAddress 0).

(** The linker's addresses: the kernel page directory, the kernel page tables (both page
    aligned), the start and the end of the kernel image. *)
Record Layout := MkLayout {
  kernelPageDirectory : Z;
  kernelPageTable : Z;
  __start : Z;
  _kernel_end : Z
}.

(** mapKernelPageTable: entries 0 .. 255 of a directory point to the kernel's page tables;
    the fields are written in the order user, write, present, frame number. *)
Definition kernel_entry (w pfn : Z) : Z :=
  set_pageFrameNumber (set_flag (set_flag (set_flag w 2 false) 1 true) 0 true) pfn.
Fixpoint mapKernelPageTable_loop (n : nat) (lay : Layout) (m : Mem) (pageDirectory index : Z) : Mem :=
  match n with
  | O => m
  | S n =>
      let pde := u32 (pageDirectory + 4 * index) in
      mapKernelPageTable_loop n lay
        (store32 m pde (kernel_entry (load32 m pde)
           (u32 (kernelPageTable lay + 4096 * index) / PAGE_SIZE))) pageDirectory (index + 1)
  end.
Definition mapKernelPageTable (lay : Layout) (s : MM) (pageDirectory : Z) : MM :=
  with_mem s (mapKernelPageTable_loop (Z.to_nat NUM_KERNEL_PAGETABLES) lay (mem s) pageDirectory 0).

Definition mapKernelMemory (fuel : nat) (lay : Layout) (s : MM) : option MM :=
  let kernelStart := u32 (__start lay - __start lay mod PAGE_SIZE) in
  let size1 := u32 (u32 (_kernel_end lay - __start lay) + __start lay mod PAGE_SIZE) in
  let kernelSize := u32 (size1 + (PAGE_SIZE - size1 mod PAGE_SIZE)) in
  identityMap fuel (mapKernelPageTable lay s (kernelPageDirectory lay)) (kernelPageDirectory lay)
    kernelStart kernelSize.

(** createUserPageDirectory: a page for the directory, with the kernel's tables in it.
    [current] is the running task's directory, where the page is allocated; the entries are
    written through the new page's virtual address, so into the frame it maps to. *)
Definition createUserPageDirectory (fuel : nat) (lay : Layout) (s : MM) (current : Z) : option (Z * MM) :=
  match memoryAllocate fuel (atomicEnable s) current (4 * PAGE_DIRECTORY_ENTRY_COUNT) false with
  | None => None
  | Some (pageDirectory, s1) =>
      if pageDirectory =? 0
      then Some (0, atomicDisable (with_log s1 [Printk (crlf "Could not allocate page directory...") []]))
      else Some (pageDirectory, 
              atomicDisable (mapKernelPageTable lay s1 (GetPhysicalAddress s1 current pageDirectory)))
  end.

(** ** Entry words *)

Lemma testbit_ones n i : 0 <= n -> 0 <= i -> Z.testbit (Z.ones n) i = (i <? n).
Proof.
  intros. destruct (Z.ltb_spec i n); [by apply Z.ones_spec_low|by apply Z.ones_spec_high].
Qed.

Lemma set_pfn_bits w p i :
  0 <= i -> Z.testbit (set_pageFrameNumber w p) i
  = if i <? 12 then Z.testbit w i else (i <? 32) && Z.testbit p (i - 12).
Proof.
  intros Hi. unfold set_pageFrameNumber. change 0xFFF with (Z.ones 12).
  change 0xFFFFF with (Z.ones 20). rewrite Z.lor_spec, Z.land_spec, testbit_ones by lia.
  rewrite Z.shiftl_spec by lia. destruct (Z.ltb_spec i 12).
  - rewrite andb_true_r, (Z.testbit_neg_r _ (i - 12)) by lia. apply orb_false_r.
  - rewrite andb_false_r, Z.land_spec, testbit_ones by lia. simpl. rewrite andb_comm. f_equal.
    destruct (Z.ltb_spec (i - 12) 20), (Z.ltb_spec i 32); try done; lia.
Qed.

Lemma set_flag_bits w k b i :
  0 <= k -> 0 <= i -> Z.testbit (set_flag w k b) i = if i =? k then b else Z.testbit w i.
Proof.
  intros Hk Hi. unfold set_flag. rewrite Z.shiftl_1_l. destruct b.
  - rewrite Z.lor_spec, Z.pow2_bits_eqb, (Z.eqb_sym k i) by lia. destruct (i =? k).
    + apply orb_true_r.
    + apply orb_false_r.
  - rewrite Z.land_spec, Z.lnot_spec, Z.pow2_bits_eqb, (Z.eqb_sym k i) by lia. destruct (i =? k).
    + apply andb_false_r.
    + apply andb_true_r.
Qed.

Lemma set_pfn_range w p : is_u32 (set_pageFrameNumber w p).
Proof.
  assert (0 <= set_pageFrameNumber w p).
  { unfold set_pageFrameNumber. apply Z.lor_nonneg. split.
    - apply Z.land_nonneg. right. lia.
    - apply Z.shiftl_nonneg, Z.land_nonneg. right. lia. }
  split; [done|]. apply (bits_below _ 32); [lia|done|].
  intros i Hi. rewrite set_pfn_bits by lia.
  rewrite (proj2 (Z.ltb_ge i 12)), (proj2 (Z.ltb_ge i 32)) by lia. done.
Qed.

Lemma e_pfn_set w p : e_pageFrameNumber (set_pageFrameNumber w p) = Z.land p 0xFFFFF.
Proof.
  unfold e_pageFrameNumber. change 0xFFFFF with (Z.ones 20). apply Z.bits_inj'. intros i Hi.
  rewrite !Z.land_spec, testbit_ones, Z.shiftr_spec, set_pfn_bits by lia.
  rewrite (proj2 (Z.ltb_ge (i + 12) 12)) by lia. replace (i + 12 - 12) with i by lia.
  destruct (Z.ltb_spec i 20); [|by rewrite !andb_false_r].
  by rewrite (proj2 (Z.ltb_lt (i + 12) 32)) by lia.
Qed.

Lemma mapped_entry_spec w b p :
  is_u32 (mapped_entry w b p) /\ e_present (mapped_entry w b p) = true /\
  e_write (mapped_entry w b p) = true /\ e_user (mapped_entry w b p) = b /\
  e_pageFrameNumber (mapped_entry w b p) = Z.land p 0xFFFFF.
Proof.
  unfold mapped_entry. split_and!; [apply set_pfn_range| | | |apply e_pfn_set];
    unfold e_present, e_write, e_user;
    rewrite set_pfn_bits, (proj2 (Z.ltb_lt _ 12)) by lia; by rewrite !set_flag_bits by lia.
Qed.
Lemma kernel_entry_spec w p :
  is_u32 (kernel_entry w p) /\ e_present (kernel_entry w p) = true /\
  e_write (kernel_entry w p) = true /\ e_user (kernel_entry w p) = false /\
  e_pageFrameNumber (kernel_entry w p) = Z.land p 0xFFFFF.
Proof.
  unfold kernel_entry. split_and!; [apply set_pfn_range| | | |apply e_pfn_set];
    unfold e_present, e_write, e_user;
    rewrite set_pfn_bits, (proj2 (Z.ltb_lt _ 12)) by lia; by rewrite !set_flag_bits by lia.
Qed.

Lemma e_pfn_range w : 0 <= e_pageFrameNumber w < 1048576.
Proof.
  unfold e_pageFrameNumber. change 0xFFFFF with (Z.ones 20). rewrite Z.land_ones by lia.
  apply Z.mod_pos_bound. lia.
Qed.

(** Indices as quotients. *)
Lemma PAGE_DIR_INDEX_div v : PAGE_DIR_INDEX v = v / 4194304.
Proof. unfold PAGE_DIR_INDEX. by rewrite Z.shiftr_div_pow2 by lia. Qed.
Lemma PAGE_TABLE_INDEX_div v : PAGE_TABLE_INDEX v = v / 4096 mod 1024.
Proof.
  unfold PAGE_TABLE_INDEX. change 0x3ff with (Z.ones 10).
  by rewrite Z.land_ones, Z.shiftr_div_pow2 by lia.
Qed.
Lemma page_offset_mod v : Z.land v 0xFFF = v mod 4096.
Proof. change 0xFFF with (Z.ones 12). by rewrite Z.land_ones by lia. Qed.
Lemma pfn_of_address a : is_u32 a -> Z.land (Z.shiftr a 12) 0xFFFFF = a / 4096.
Proof.
  intros Ha. change 0xFFFFF with (Z.ones 20). rewrite Z.land_ones, Z.shiftr_div_pow2 by lia.
  change (2 ^ 12) with 4096. change (2 ^ 20) with 1048576. apply Z.mod_small. zlia.
Qed.

(** A page of the address space, by its directory and table index. *)
Lemma page_indices_inj v v' :
  is_u32 v -> is_u32 v' ->
  PAGE_DIR_INDEX v = PAGE_DIR_INDEX v' -> PAGE_TABLE_INDEX v = PAGE_TABLE_INDEX v' ->
  v / 4096 = v' / 4096.
Proof. intros ??. rewrite !PAGE_DIR_INDEX_div, !PAGE_TABLE_INDEX_div. zlia. Qed.

(** ** Directories *)

(** The entry of index [i], whether it is present, and the page table it points to. *)
Definition pde (s : MM) (pd i : Z) : Z := load32 (mem s) (pd + 4 * i).
Definition table (s : MM) (pd i : Z) : Z := e_pageFrameNumber (pde s pd i) * 4096.
Definition has_table (s : MM) (pd i : Z) : Prop := 0 <= i < 1024 /\ e_present (pde s pd i) = true.

(** A well-formed directory: a page, whose present entries point to different pages, none of
    them the directory itself. *)
Record wf_dir (s : MM) (pd : Z) : Prop := {
  dir_range : 0 <= pd <= 4294963200;
  dir_aligned : pd mod 4096 = 0;
  dir_not_self : forall i, has_table s pd i -> table s pd i <> pd;
  dir_distinct : forall i j, has_table s pd i -> has_table s pd j ->
    table s pd i = table s pd j -> i = j
}.

(** What the processor sees of a virtual address. *)
Definition translate (s : MM) (pd v : Z) : option Z :=
  if IsPagePresent s pd v then Some (GetPhysicalAddress s pd v) else None.

Definition pte_addr (s : MM) (pd v : Z) : Z :=
  table s pd (PAGE_DIR_INDEX v) + 4 * PAGE_TABLE_INDEX v.

Lemma dir_index_range v : is_u32 v -> 0 <= PAGE_DIR_INDEX v < 1024.
Proof. intros. rewrite PAGE_DIR_INDEX_div. zlia. Qed.
Lemma table_index_range v : 0 <= PAGE_TABLE_INDEX v < 1024.
Proof. rewrite PAGE_TABLE_INDEX_div. zlia. Qed.
Lemma table_range s pd i : 0 <= table s pd i <= 4294963200 /\ table s pd i mod 4096 = 0.
Proof. unfold table. pose proof (e_pfn_range (pde s pd i)). zlia. Qed.

Lemma GetPageDirectoryEntry_eq pd v :
  0 <= pd <= 4294963200 -> is_u32 v -> GetPageDirectoryEntry pd v = pd + 4 * PAGE_DIR_INDEX v.
Proof.
  intros Hp Hv. unfold GetPageDirectoryEntry. apply u32_small.
  pose proof (dir_index_range v Hv). unfold is_u32. lia.
Qed.
Lemma GetPageTableEntry_eq s pd v :
  0 <= pd <= 4294963200 -> is_u32 v -> GetPageTableEntry s pd v = pte_addr s pd v.
Proof.
  intros Hp Hv. unfold GetPageTableEntry, GetPageTable. rewrite GetPageDirectoryEntry_eq by done.
  fold (pde s pd (PAGE_DIR_INDEX v)). pose proof (table_range s pd (PAGE_DIR_INDEX v)).
  pose proof (table_index_range v). unfold table in H. unfold pte_addr, table, PAGE_SIZE.
  change 0x1000 with 4096. rewrite (u32_small (_ * 4096)) by (unfold is_u32; lia).
  apply u32_small. unfold is_u32. lia.
Qed.

Lemma translate_eq s pd v :
  0 <= pd <= 4294963200 -> is_u32 v ->
  translate s pd v =
    if e_present (pde s pd (PAGE_DIR_INDEX v)) && e_present (load32 (mem s) (pte_addr s pd v))
    then Some (e_pageFrameNumber (load32 (mem s) (pte_addr s pd v)) * 4096 + v mod 4096) else None.
Proof.
  intros Hp Hv. unfold translate, IsPagePresent, GetPhysicalAddress.
  rewrite GetPageDirectoryEntry_eq, GetPageTableEntry_eq by done.
  fold (pde s pd (PAGE_DIR_INDEX v)). rewrite page_offset_mod.
  destruct (e_present (pde _ _ _)); simpl; [|done].
  case_if; [|done]. f_equal. pose proof (e_pfn_range (load32 (mem s) (pte_addr s pd v))).
  unfold PAGE_SIZE. change 0x1000 with 4096. apply u32_small. zlia.
Qed.

(** Aligned words at different addresses do not overlap. *)
Lemma far_words a b :
  0 <= a <= 4294967292 -> 0 <= b <= 4294967292 -> a mod 4 = 0 -> b mod 4 = 0 -> a <> b ->
  far a 4 b 4.
Proof. intros. apply far_range; [lia..|zlia]. Qed.

Lemma pte_addr_range s pd v : 0 <= pte_addr s pd v <= 4294967292 /\ pte_addr s pd v mod 4 = 0.
Proof.
  unfold pte_addr. pose proof (table_range s pd (PAGE_DIR_INDEX v)). pose proof (table_index_range v).
  zlia.
Qed.

(** Table entries of different pages are different words, and none lies in the directory. *)
Lemma pte_addr_ne s pd v v' :
  wf_dir s pd -> is_u32 v -> is_u32 v' ->
  has_table s pd (PAGE_DIR_INDEX v) -> has_table s pd (PAGE_DIR_INDEX v') ->
  v / 4096 <> v' / 4096 -> pte_addr s pd v <> pte_addr s pd v'.
Proof.
  intros Hw Hv Hv' Ht Ht' Hne E. unfold pte_addr in E.
  pose proof (table_range s pd (PAGE_DIR_INDEX v)). pose proof (table_range s pd (PAGE_DIR_INDEX v')).
  pose proof (table_index_range v). pose proof (table_index_range v').
  assert (table s pd (PAGE_DIR_INDEX v) = table s pd (PAGE_DIR_INDEX v')) as Et by zlia.
  apply Hne. apply page_indices_inj; [done..| |lia]. by apply (dir_distinct _ _ Hw).
Qed.

Lemma pte_addr_not_dir s pd v i :
  wf_dir s pd -> is_u32 v -> has_table s pd (PAGE_DIR_INDEX v) -> 0 <= i < 1024 ->
  pte_addr s pd v <> pd + 4 * i.
Proof.
  intros Hw Hv Ht Hi E. unfold pte_addr in E. pose proof (table_index_range v).
  pose proof (table_range s pd (PAGE_DIR_INDEX v)). pose proof (dir_aligned _ _ Hw).
  apply (dir_not_self _ _ Hw _ Ht). zlia.
Qed.

(** Two states with the same directory words have the same tables. *)
Definition same_dir (s s' : MM) (pd : Z) : Prop :=
  forall i, 0 <= i < 1024 -> pde s' pd i = pde s pd i.

Lemma has_table_same s s' pd i : same_dir s s' pd -> has_table s' pd i <-> has_table s pd i.
Proof.
  intros H. unfold has_table. split; intros [Hi Hp]; split; try done; by rewrite H in * by done.
Qed.
Lemma table_same s s' pd i : same_dir s s' pd -> 0 <= i < 1024 -> table s' pd i = table s pd i.
Proof. intros H Hi. unfold table. by rewrite H. Qed.
Lemma pte_addr_same s s' pd v :
  same_dir s s' pd -> is_u32 v -> pte_addr s' pd v = pte_addr s pd v.
Proof. intros H Hv. unfold pte_addr. by rewrite (table_same s s') by (auto using dir_index_range). Qed.
Lemma wf_dir_same s s' pd : wf_dir s pd -> same_dir s s' pd -> wf_dir s' pd.
Proof.
  intros [Hr Ha Hs Hd] H. split; [done..| |].
  - intros i Hi. rewrite (has_table_same s s') in Hi by done.
    rewrite (table_same s s') by (done || apply Hi). auto.
  - intros i j Hi Hj. rewrite (has_table_same s s') in Hi, Hj by done.
    rewrite !(table_same s s') by (done || apply Hi || apply Hj). auto.
Qed.

(** Writing the entry word of one page: the directory is unchanged, the page translates by the
    new word, every other page translates as before, and no other byte is written. *)
Lemma pte_store_spec s pd v w :
  wf_dir s pd -> is_u32 v -> is_u32 w -> has_table s pd (PAGE_DIR_INDEX v) ->
  let s' := with_mem s (store32 (mem s) (GetPageTableEntry s pd v) w) in
  same_dir s s' pd /\
  (forall v', is_u32 v' -> translate s' pd v' =
     if v' / 4096 =? v / 4096
     then if e_present w then Some (e_pageFrameNumber w * 4096 + v' mod 4096) else None
     else translate s pd v') /\
  (forall a, far (pte_addr s pd v) 4 a 1 -> loadb (mem s') a = loadb (mem s) a).
Proof.
  intros Hw Hv Hw32 Ht s'. pose proof (dir_range _ _ Hw) as Hr.
  destruct (pte_addr_range s pd v) as [Hpr Hpa].
  unfold s'. rewrite GetPageTableEntry_eq by done. clear s'. set (s' := with_mem _ _).
  assert (forall x, far (pte_addr s pd v) 4 x 4 -> load32 (mem s') x = load32 (mem s) x) as Hfar
    by (intros x Hx; by apply load32_store32_ne).
  assert (same_dir s s' pd) as Hsame.
  { intros i Hi. pose proof (dir_aligned _ _ Hw). unfold pde.
    apply Hfar, far_words; [lia..|zlia|by apply pte_addr_not_dir]. }
  split; [done|]. split; [|by intros a Ha; apply loadb_store32_ne].
  intros v' Hv'. rewrite !translate_eq by done. rewrite Hsame by (by apply dir_index_range).
  rewrite (pte_addr_same s s') by done.
  destruct (Z.eqb_spec (v' / 4096) (v / 4096)) as [E|E].
  - assert (PAGE_DIR_INDEX v' = PAGE_DIR_INDEX v) as E1 by (rewrite !PAGE_DIR_INDEX_div; zlia).
    assert (PAGE_TABLE_INDEX v' = PAGE_TABLE_INDEX v) as E2
      by (rewrite !PAGE_TABLE_INDEX_div; by rewrite E).
    assert (load32 (mem s') (pte_addr s pd v') = w) as ->.
    { unfold pte_addr. rewrite E1, E2. by apply load32_store32_eq. }
    by rewrite E1, (proj2 Ht).
  - destruct (e_present (pde s pd (PAGE_DIR_INDEX v'))) eqn:Ep; [|done].
    rewrite Hfar; [done|]. destruct (pte_addr_range s pd v'). apply far_words; auto.
    apply pte_addr_ne; auto. split; [by apply dir_index_range|done].
Qed.

(** One mapped page. *)
Lemma map_entry_spec s pd v p b :
  wf_dir s pd -> is_u32 v -> is_u32 p -> has_table s pd (PAGE_DIR_INDEX v) ->
  let s' := map_entry s pd v p b in
  same_dir s s' pd /\
  (forall v', is_u32 v' -> translate s' pd v' =
     if v' / 4096 =? v / 4096 then Some (p / 4096 * 4096 + v' mod 4096) else translate s pd v') /\
  (forall a, far (pte_addr s pd v) 4 a 1 -> loadb (mem s') a = loadb (mem s) a).
Proof.
  intros Hw Hv Hp Ht s'.
  destruct (mapped_entry_spec (load32 (mem s) (GetPageTableEntry s pd v)) b (Z.shiftr p 12))
    as (H32 & Hpres & _ & _ & Hpfn).
  destruct (pte_store_spec s pd v _ Hw Hv H32 Ht) as (S1 & S2 & S3).
  split; [exact S1|]. split; [|exact S3]. intros v' Hv'. unfold s', map_entry.
  by rewrite S2, Hpres, Hpfn, pfn_of_address.
Qed.

(** The pages of [n] pages from [v] on, and the frames they get. *)
Definition in_pages (v n v' : Z) : bool := (v / 4096 <=? v' / 4096) && (v' / 4096 <? v / 4096 + n).
Definition mapped_to (v p v' : Z) : Z := (p / 4096 + (v' / 4096 - v / 4096)) * 4096 + v' mod 4096.

(** The state after mapping: the allocator, the interrupt flag and the directory are
    unchanged, the pages of the range translate to the consecutive frames from [p], every
    other page translates as before, and memory outside page tables is untouched. *)
Definition mapped (s s' : MM) (pd v p n : Z) : Prop :=
  phys s' = phys s /\ interrupts s' = interrupts s /\ mlog s' = mlog s /\ same_dir s s' pd /\
  (forall v', is_u32 v' -> translate s' pd v' =
     if in_pages v n v' then Some (mapped_to v p v') else translate s pd v') /\
  (forall a, is_u32 a -> (forall i, has_table s pd i -> a / 4096 * 4096 <> table s pd i) ->
     loadb (mem s') a = loadb (mem s) a).

Lemma pte_addr_page s pd v : pte_addr s pd v / 4096 * 4096 = table s pd (PAGE_DIR_INDEX v).
Proof.
  unfold pte_addr. pose proof (table_range s pd (PAGE_DIR_INDEX v)). pose proof (table_index_range v).
  zlia.
Qed.

Lemma in_pages_0 v v' : in_pages v 0 v' = false.
Proof.
  unfold in_pages.
  destruct (Z.leb_spec (v / 4096) (v' / 4096)), (Z.ltb_spec (v' / 4096) (v / 4096 + 0)); try done; lia.
Qed.

Lemma mapped_refl s pd v p : mapped s (flushCurrentPageDirectory s) pd v p 0.
Proof. unfold mapped. split_and!; try done. intros v' Hv'. by rewrite in_pages_0. Qed.

Lemma map_entry_mapped s pd v p b :
  wf_dir s pd -> is_u32 v -> is_u32 p -> has_table s pd (PAGE_DIR_INDEX v) ->
  mapped s (map_entry s pd v p b) pd v p 1.
Proof.
  intros Hw Hv Hp Ht. destruct (map_entry_spec s pd v p b Hw Hv Hp Ht) as (Hsd & Htr & Hmem).
  split_and!; try done.
  - intros v' Hv'. rewrite Htr by done. unfold in_pages, mapped_to.
    destruct (Z.eqb_spec (v' / 4096) (v / 4096)) as [E|E].
    + rewrite (proj2 (Z.leb_le _ _)), (proj2 (Z.ltb_lt _ _)) by lia. simpl. do 2 f_equal. lia.
    + destruct (Z.leb_spec (v / 4096) (v' / 4096)); [|done].
      rewrite (proj2 (Z.ltb_ge _ _)) by lia. done.
  - intros a Ha Hat. apply Hmem. intros i j Hi Hj E. replace j with 0 in E by lia.
    apply (Hat _ Ht). rewrite Z.add_0_r, (u32_small a) in E by done.
    pose proof (pte_addr_page s pd v). destruct (pte_addr_range s pd v).
    rewrite u32_small in E by (unfold is_u32; lia). zlia.
Qed.

(** Mapping one page and then the [n] that follow it maps [n + 1]. *)
Lemma mapped_cons s s1 s' pd v p n :
  0 <= n -> mapped s s1 pd v p 1 -> mapped s1 s' pd (v + 4096) (p + 4096) n ->
  mapped s s' pd v p (n + 1).
Proof.
  intros Hn (A1 & A2 & A3 & A4 & A5 & A6) (B1 & B2 & B3 & B4 & B5 & B6). split_and!; try congruence.
  - intros i Hi. by rewrite B4, A4.
  - intros v' Hv'. rewrite B5, A5 by done. unfold in_pages, mapped_to.
    assert ((v + 4096) / 4096 = v / 4096 + 1) as -> by zlia.
    assert ((p + 4096) / 4096 = p / 4096 + 1) as -> by zlia.
    destruct (Z.leb_spec (v / 4096 + 1) (v' / 4096)), (Z.ltb_spec (v' / 4096) (v / 4096 + 1 + n)),
      (Z.leb_spec (v / 4096) (v' / 4096)), (Z.ltb_spec (v' / 4096) (v / 4096 + (n + 1))),
      (Z.ltb_spec (v' / 4096) (v / 4096 + 1)); simpl; try lia; try done; do 2 f_equal; lia.
  - intros a Ha Hat. rewrite B6; [by apply A6|done|]. intros i Hi.
    rewrite (has_table_same s s1) in Hi by done.
    rewrite (table_same s s1) by (done || apply Hi). auto.
Qed.

(** VirtualMap over pages whose page tables exist: no table is created. *)
Lemma map_loop_present rec n : forall s pd v p b,
  wf_dir s pd -> 0 <= v -> 0 <= p -> v mod 4096 = 0 -> p mod 4096 = 0 ->
  v + Z.of_nat n * 4096 <= 4294967296 -> p + Z.of_nat n * 4096 <= 4294967296 ->
  (forall k, 0 <= k < Z.of_nat n -> has_table s pd (PAGE_DIR_INDEX (v + k * 4096))) ->
  exists s', map_loop rec n s pd v p b = Some s' /\ mapped s s' pd v p (Z.of_nat n).
Proof.
  induction n as [|n IH]; intros s pd v p b Hw Hv0 Hp0 Hva Hpa Hvn Hpn Ht.
  { eexists. split; [done|]. apply mapped_refl. }
  pose proof (dir_range _ _ Hw) as Hr.
  assert (is_u32 v) as Hv by (unfold is_u32; lia). assert (is_u32 p) as Hp by (unfold is_u32; lia).
  pose proof (Ht 0 ltac:(lia)) as Ht0. rewrite Z.mul_0_l, Z.add_0_r in Ht0.
  pose proof (map_entry_mapped s pd v p b Hw Hv Hp Ht0) as Hm1.
  set (s1 := map_entry s pd v p b) in *. simpl. rewrite GetPageDirectoryEntry_eq by done.
  fold (pde s pd (PAGE_DIR_INDEX v)). rewrite (proj2 Ht0). fold s1.
  rewrite Nat2Z.inj_succ, <- Z.add_1_r.
  destruct n as [|n].
  { eexists. split; [done|]. by eapply mapped_cons, mapped_refl. }
  unfold PAGE_SIZE. change 0x1000 with 4096. rewrite !u32_small by (unfold is_u32; lia).
  destruct (IH s1 pd (v + 4096) (p + 4096) b) as (s' & E & Hm); try lia; try (clear -Hva Hpa; zlia).
  - eapply wf_dir_same; [done|apply Hm1].
  - intros k Hk. rewrite (has_table_same s s1) by apply Hm1.
    replace (v + 4096 + k * 4096) with (v + (k + 1) * 4096) by lia. apply Ht. lia.
  - exists s'. split; [done|]. eapply mapped_cons; [lia|done..].
Qed.

(** ** Searching free virtual pages *)

Definition run_free (s : MM) (pd a n : Z) : Prop :=
  forall k, 0 <= k < n -> IsPagePresent s pd (a + k * 4096) = false.

Lemma find_loop_spec fuel : forall s pd va start idx top n,
  0 <= start -> 0 <= idx < n -> va = start + idx * 4096 -> va <= top -> start mod 4096 = 0 ->
  top mod 4096 = 0 -> top <= 4294963200 -> (top - va) / 4096 < Z.of_nat fuel ->
  run_free s pd start idx ->
  (exists a, find_loop fuel s pd va start idx top n = Some (Some a) /\ start <= a /\
     a mod 4096 = 0 /\ a + n * 4096 <= top /\ run_free s pd a n) \/
  (find_loop fuel s pd va start idx top n = Some None /\
     forall a, start <= a -> a mod 4096 = 0 -> a + n * 4096 <= top -> ~ run_free s pd a n).
Proof.
  induction fuel as [|fuel IH]; intros s pd va start idx top n Hs Hi Hva Hle Hsa Hta Htop Hf Hrun;
    [zlia|]. simpl.
  destruct (Z.ltb_spec va top) as [Hlt|Hge].
  2: { right. split; [done|]. intros a Ha Haa Han. lia. }
  assert (u32 (va + PAGE_SIZE) = va + 4096) as Hnext by (apply u32_small; unfold is_u32, PAGE_SIZE; lia).
  assert (va + 4096 <= top) by zlia.
  destruct (IsPagePresent s pd va) eqn:Ep; simpl.
  - rewrite Hnext. destruct (IH s pd (va + 4096) (va + 4096) 0 top n) as [(a & E & H1 & H2)|(E & Hno)];
      try lia; try (clear -Hva Hsa; zlia); try (clear -Hf; zlia).
    + intros k Hk. lia.
    + left. exists a. split; [done|]. split; [lia|done].
    + right. split; [done|]. intros a Ha Haa Han Hr.
      destruct (decide (va + 4096 <= a)) as [Hl|Hl]; [by apply (Hno a)|].
      specialize (Hr ((va - a) / 4096)). replace (a + (va - a) / 4096 * 4096) with va in Hr by zlia.
      rewrite Hr in Ep; [done|]. zlia.
  - assert (run_free s pd start (idx + 1)) as Hrun'.
    { intros k Hk. destruct (decide (k = idx)) as [->|]; [by rewrite <- Hva|apply Hrun; lia]. }
    destruct (Z.eqb_spec (idx + 1) n) as [En|En].
    + left. exists start. split_and!; [done|lia|done|lia|by rewrite <- En].
    + rewrite Hnext. apply IH; try lia; try done. clear -Hf. zlia.
Qed.

(** A directory with the kernel's 256 tables in place. *)
Definition kernel_dir (s : MM) (pd : Z) : Prop :=
  wf_dir s pd /\ forall i, 0 <= i < 256 -> has_table s pd i.

Lemma kernel_tables s pd a k n :
  kernel_dir s pd -> 0 <= a -> a mod 4096 = 0 -> a + n * 4096 <= 1073741824 -> 0 <= k < n ->
  has_table s pd (PAGE_DIR_INDEX (a + k * 4096)).
Proof.
  intros [_ H] Ha Haa Hn Hk. apply H. rewrite PAGE_DIR_INDEX_div. zlia.
Qed.

(** Enough fuel for the search of the kernel's gigabyte. *)
Definition KERNEL_FUEL : Z := 262144.

(** VirtualAllocate in the kernel's half: the pages it returns were unmapped. *)
Lemma VirtualAllocate_kernel_spec fuel s pd p n :
  kernel_dir s pd -> KERNEL_FUEL <= Z.of_nat fuel -> 0 < n -> 0 <= p -> p mod 4096 = 0 ->
  p + n * 4096 <= 4294967296 ->
  (exists a s', VirtualAllocate fuel s pd p n false = Some (a, s') /\
     1048576 <= a /\ a mod 4096 = 0 /\ a + n * 4096 <= 1073741824 /\
     run_free s pd a n /\ mapped s s' pd a p n) \/
  (exists s', VirtualAllocate fuel s pd p n false = Some (0, s') /\
     phys s' = phys s /\ mem s' = mem s /\ interrupts s' = interrupts s /\
     forall a, 1048576 <= a -> a mod 4096 = 0 -> a + n * 4096 <= 1073741824 -> ~ run_free s pd a n).
Proof.
  intros Hk Hf Hn Hp Hpa Hpn. pose proof Hk as [Hw _]. unfold VirtualAllocate.
  unfold KERNEL_FUEL in Hf.
  change userStartAddress with 1073741824. change KERNEL_START_ADDRESS with 1048576.
  destruct (find_loop_spec fuel s pd 1048576 1048576 0 1073741824 n) as [(a & -> & H1 & H2 & H3 & H4)|(-> & Hno)];
    try lia; try done; [zlia|clear; intros k Hk'; lia|left|right].
  - unfold VirtualMap.
    destruct (map_loop_present (identityMap fuel) (Z.to_nat n) s pd a p false) as (s' & -> & Hm);
      rewrite ?Z2Nat.id in * by lia; try lia; try done.
    + intros k Hk'. by eapply kernel_tables; eauto; lia.
    + exists a, s'. done.
  - eexists. split; [done|]. done.
Qed.

(** ** Writing frames that hold no table *)

(** Address [a] lies in a frame that is neither the directory nor one of its tables. *)
Definition not_paging (s : MM) (pd a : Z) : Prop :=
  a / 4096 * 4096 <> pd /\ forall i, has_table s pd i -> a / 4096 * 4096 <> table s pd i.

Lemma far_page_word a w pg :
  is_u32 a -> 0 <= w <= 4294967292 -> w mod 4 = 0 -> w / 4096 * 4096 = pg -> a / 4096 * 4096 <> pg ->
  forall j, 0 <= j < 4 -> u32 a <> u32 (w + j).
Proof.
  intros Ha Hw Hw4 Hpg Hne j Hj. rewrite !u32_small by (unfold is_u32 in *; lia).
  intros ->. apply Hne. rewrite <- Hpg. zlia.
Qed.

Lemma load32_storeb_ne m a v w :
  (forall j, 0 <= j < 4 -> u32 a <> u32 (w + j)) -> load32 (storeb m a v) w = load32 m w.
Proof.
  intros H. unfold load32. rewrite !loadb_storeb_ne; try done; try (apply H; lia).
  rewrite <- (Z.add_0_r w). apply H. lia.
Qed.

Lemma storeb_outside s pd a b :
  wf_dir s pd -> is_u32 a -> not_paging s pd a ->
  let s' := with_mem s (storeb (mem s) a b) in
  same_dir s s' pd /\ (forall v, is_u32 v -> translate s' pd v = translate s pd v) /\
  (forall v, is_u32 v -> has_table s pd (PAGE_DIR_INDEX v) ->
     GetPhysicalAddress s' pd v = GetPhysicalAddress s pd v).
Proof.
  intros Hw Ha [Hnd Hnt] s'. pose proof (dir_range _ _ Hw) as Hr. pose proof (dir_aligned _ _ Hw).
  assert (same_dir s s' pd) as Hsd.
  { intros i Hi. unfold pde, s'. simpl. apply load32_storeb_ne.
    apply (far_page_word a (pd + 4 * i) pd); try done; zlia. }
  assert (forall v, is_u32 v -> has_table s pd (PAGE_DIR_INDEX v) ->
            load32 (mem s') (pte_addr s pd v) = load32 (mem s) (pte_addr s pd v)) as Hpte.
  { intros v Hv Ht. destruct (pte_addr_range s pd v). apply load32_storeb_ne.
    eapply far_page_word; [done..|by rewrite pte_addr_page|]. by apply Hnt. }
  split; [done|]. split.
  - intros v Hv. rewrite !translate_eq by done. rewrite Hsd by (by apply dir_index_range).
    rewrite (pte_addr_same s s') by done.
    destruct (e_present (pde s pd (PAGE_DIR_INDEX v))) eqn:Ep; [|done].
    by rewrite Hpte by (done || (split; [by apply dir_index_range|done])).
  - intros v Hv Ht. unfold GetPhysicalAddress. rewrite !GetPageTableEntry_eq by done.
    rewrite (pte_addr_same s s') by done. by rewrite Hpte.
Qed.

(** Clearing [n] virtual bytes that map to consecutive bytes outside the paging structures. *)
Lemma clear_virtual_spec n : forall s pd a p,
  wf_dir s pd -> 0 <= a -> 0 <= p -> a + Z.of_nat n <= 4294967296 -> p + Z.of_nat n <= 4294967296 ->
  (forall k, 0 <= k < Z.of_nat n -> GetPhysicalAddress s pd (a + k) = p + k /\
     has_table s pd (PAGE_DIR_INDEX (a + k)) /\ not_paging s pd (p + k)) ->
  let s' := clear_virtual n s pd a in
  phys s' = phys s /\ interrupts s' = interrupts s /\ mlog s' = mlog s /\ same_dir s s' pd /\
  (forall v, is_u32 v -> translate s' pd v = translate s pd v) /\
  (forall x, is_u32 x -> loadb (mem s') x =
     if (p <=? x) && (x <? p + Z.of_nat n) then 0 else loadb (mem s) x).
Proof.
  induction n as [|n IH]; intros s pd a p Hw Ha Hp Han Hpn Hk; simpl.
  { split_and!; try done. intros x Hx. case_if; [lia|done]. }
  destruct (Hk 0 ltac:(lia)) as (Eg & Ht & Hnp). rewrite !Z.add_0_r in *.
  destruct (storeb_outside s pd p 0 Hw ltac:(unfold is_u32; lia) Hnp) as (Hsd & Htr & Hgp).
  rewrite Eg. set (s1 := with_mem s (storeb (mem s) p 0)) in *.
  destruct n as [|n].
  { simpl. split_and!; try done. intros x Hx. simpl.
    destruct (decide (x = p)) as [->|Hne].
    - rewrite loadb_storeb_eq by done. rewrite (proj2 (Z.leb_le _ _)), (proj2 (Z.ltb_lt _ _)) by lia. done.
    - rewrite loadb_storeb_ne by (rewrite !u32_small; [done..|unfold is_u32; lia]).
      case_if; [lia|done]. }
  rewrite u32_small by (unfold is_u32; lia).
  destruct (IH s1 pd (a + 1) (p + 1)) as (E1 & E2 & E3 & E4 & E5 & E6); try lia.
  - by eapply wf_dir_same.
  - intros k Hk'. destruct (Hk (k + 1) ltac:(lia)) as (Eg' & Ht' & Hnp').
    replace (a + 1 + k) with (a + (k + 1)) by lia. replace (p + 1 + k) with (p + (k + 1)) by lia.
    rewrite Hgp by (done || (unfold is_u32; lia)). split; [done|].
    rewrite (has_table_same s s1) by done. split; [done|]. destruct Hnp' as [Hn1 Hn2]. split; [done|].
    intros i Hi. rewrite (has_table_same s s1) in Hi by done.
    rewrite (table_same s s1) by (done || apply Hi). auto.
  - split_and!; try done.
    + intros i Hi. by rewrite E4, Hsd.
    + intros v Hv. by rewrite E5, Htr.
    + intros x Hx. rewrite E6 by done. simpl.
      assert (loadb (storeb (mem s) p 0) x = if x =? p then 0 else loadb (mem s) x) as ->.
      { destruct (Z.eqb_spec x p) as [->|Hne]; [by rewrite loadb_storeb_eq|].
        rewrite loadb_storeb_ne; [done|]. rewrite !u32_small; [done..|unfold is_u32; lia]. }
      destruct (Z.leb_spec p x), (Z.leb_spec (p + 1) x), (Z.ltb_spec x (p + 1 + Z.of_nat (S n))),
        (Z.ltb_spec x (p + Z.of_nat (S (S n)))), (Z.eqb_spec x p); simpl; try done; lia.
Qed.

End VirtualMemory.
