(* ===== verification/MemoryManager.v ===== *)
(** What the page allocator of Kernel/MemoryManager/MemoryManager.cpp guarantees for the
    kernel's directory: the invariant that ties the page tables to the frame bitmap, and the
    behaviour of memoryAllocate and memoryFree on it. *)

From S2P Require Import Prelude PhysicalAllocator VirtualMemory.

Module MemoryManager.
Import PhysicalAllocator VirtualMemory.

(** The kernel directory has its tables, and the frames the paging structures live in are
    marked used, as is frame 0 (mapped at boot for the BIOS data). *)
Record kernel_inv (s : MM) (pd : Z) : Prop := {
  inv_dir : kernel_dir s pd;
  inv_frame0 : used (phys s) 0 = true;
  inv_dir_used : used (phys s) (pd / 4096) = true;
  inv_tables_used : forall i, has_table s pd i -> used (phys s) (table s pd i / 4096) = true
}.

Lemma elem_of_frames q p n :
  q ∈ frames p n <-> exists k, 0 <= k < n /\ q = frame (page_address p k).
Proof.
  unfold frames, frames_from. rewrite list_elem_of_fmap. split.
  - intros (k & -> & Hk%elem_of_seqZ). exists k. split; [lia|done].
  - intros (k & Hk & ->). exists k. split; [done|]. apply elem_of_seqZ. lia.
Qed.

(** A free run does not wrap around the address space, since frame 0 is in use. *)
Lemma free_run_frames d p n :
  is_u32 p -> p mod 4096 = 0 -> 0 < n <= 1048576 -> used d 0 = true ->
  (forall q, q ∈ frames p n -> used d q = false) ->
  0 < p /\ p + n * 4096 <= 4294967296 /\
  forall q, q ∈ frames p n <-> p / 4096 <= q < p / 4096 + n.
Proof.
  intros Hp Hpa Hn H0 Hf.
  assert (forall k, 0 <= k < n -> frame (page_address p k) = (p / 4096 + k) mod 1048576) as Hfr.
  { intros k Hk. unfold frame, page_address, PAGE_SIZE. clear H0 Hf. zlia. }
  assert (p / 4096 + n <= 1048576 /\ 0 < p) as [Hle Hpos].
  { assert (forall k, 0 <= k < n -> (p / 4096 + k) mod 1048576 <> 0) as Hno.
    { intros k Hk E. rewrite Hf in H0; [done|]. apply elem_of_frames. exists k. by rewrite Hfr. }
    split.
    - destruct (decide (p / 4096 + n <= 1048576)); [done|]. exfalso.
      apply (Hno (1048576 - p / 4096)); [zlia|].
      replace (p / 4096 + (1048576 - p / 4096)) with 1048576 by lia. done.
    - destruct (decide (p = 0)) as [->|]; [|unfold is_u32 in Hp; lia]. exfalso. by apply (Hno 0); [lia|]. }
  split; [done|]. split; [zlia|]. intros q. rewrite elem_of_frames. split.
  - intros (k & Hk & ->). rewrite Hfr by done. rewrite Z.mod_small by zlia. lia.
  - intros Hq. exists (q - p / 4096). split; [lia|]. rewrite Hfr by lia. rewrite Z.mod_small by zlia. lia.
Qed.

(** The invariant only speaks of the directory words and the bitmap. *)
Lemma kernel_inv_mono s s' pd :
  kernel_inv s pd -> same_dir s s' pd ->
  (forall q, used (phys s) q = true -> used (phys s') q = true) -> kernel_inv s' pd.
Proof.
  intros [[Hw Ht] H0 Hd Htu] Hsd Hu. split; auto.
  - split; [by eapply wf_dir_same|]. intros i Hi. rewrite (has_table_same s s') by done. auto.
  - intros i Hi. rewrite (has_table_same s s') in Hi by done.
    rewrite (table_same s s') by (done || apply Hi). auto.
Qed.

(** Frames that were free hold no paging structure. *)
Lemma free_frame_not_paging s pd a :
  kernel_inv s pd -> used (phys s) (a / 4096) = false -> not_paging s pd a.
Proof.
  intros [[Hw _] _ Hd Ht] Hf. pose proof (dir_aligned _ _ Hw). split.
  - intros E. rewrite <- E, Z.div_mul in Hd by lia. congruence.
  - intros i Hi E. specialize (Ht i Hi). rewrite <- E, Z.div_mul in Ht by lia. congruence.
Qed.

Lemma num_pages_eq size : 0 < size <= 4294963200 -> num_pages size = (size + 4095) / 4096.
Proof.
  intros H. unfold num_pages, PAGE_ALIGN, PAGE_SIZE. case_if; zlia.
Qed.

(** The frames of a successful physical allocation. *)
Lemma physicalAllocate_frames d n :
  0 < n <= 1048576 -> used d 0 = true ->
  (exists p d', physicalAllocate d n = (p, d', []) /\ 0 < p /\ p mod 4096 = 0 /\
     p + n * 4096 <= 4294967296 /\
     (forall q, p / 4096 <= q < p / 4096 + n -> used d q = false) /\
     (forall q, used d' q = (p / 4096 <=? q) && (q <? p / 4096 + n) || used d q)) \/
  (exists log, physicalAllocate d n = (0, d, log)).
Proof.
  intros Hn H0. pose proof (physicalAllocate_spec d n) as H.
  destruct (physicalAllocate d n) as [[p d'] log].
  destruct H as [(Hp & Hpa & -> & Hf & Hu & Ho)|(-> & ->)]; [|by right; eauto].
  left. exists p, d'.
  destruct (free_run_frames d p n) as (H1 & H2 & H3); try done.
  split_and!; try done.
  - intros q Hq. apply Hf. by apply H3.
  - intros q. destruct (Z.leb_spec (p / 4096) q), (Z.ltb_spec q (p / 4096 + n)); simpl.
    + apply Hu, H3. lia.
    + apply Ho. rewrite H3. lia.
    + apply Ho. rewrite H3. lia.
    + apply Ho. rewrite H3. lia.
Qed.

(** The success case of memoryAllocate on the kernel directory: fresh pages [a ..], backed by
    frames [p ..] that were free, zeroed, everything else as before. *)
Definition allocated (s s' : MM) (pd a n : Z) : Prop :=
  exists p, 0 < p /\ p mod 4096 = 0 /\ p + n * 4096 <= 4294967296 /\
  1048576 <= a /\ a mod 4096 = 0 /\ a + n * 4096 <= 1073741824 /\ run_free s pd a n /\
  (forall q, p / 4096 <= q < p / 4096 + n -> used (phys s) q = false) /\
  (forall q, used (phys s') q = (p / 4096 <=? q) && (q <? p / 4096 + n) || used (phys s) q) /\
  (forall v, is_u32 v -> translate s' pd v =
     if in_pages a n v then Some (mapped_to a p v) else translate s pd v) /\
  (forall x, p <= x < p + n * 4096 -> loadb (mem s') x = 0).

(** The part of it that later writes to the new pages keep. *)
Definition gained (s s' : MM) (pd a n p : Z) : Prop :=
  0 <= p /\ p mod 4096 = 0 /\ 1048576 <= a /\ a mod 4096 = 0 /\ a + n * 4096 <= 1073741824 /\ run_free s pd a n /\
  (forall q, p / 4096 <= q < p / 4096 + n -> used (phys s) q = false) /\
  (forall q, used (phys s') q = (p / 4096 <=? q) && (q <? p / 4096 + n) || used (phys s) q) /\
  (forall v, is_u32 v -> translate s' pd v =
     if in_pages a n v then Some (mapped_to a p v) else translate s pd v).

Lemma allocated_gained s s' pd a n : allocated s s' pd a n -> exists p, gained s s' pd a n p.
Proof. intros (p & ? & ? & ? & ? & ? & ? & ? & ? & ? & ? & _). exists p. split_and!; done || lia. Qed.

Lemma in_pages_byte a n k :
  a mod 4096 = 0 -> 0 <= k < n * 4096 ->
  in_pages a n (a + k) = true /\ forall p, p mod 4096 = 0 -> mapped_to a p (a + k) = p + k.
Proof.
  intros Ha Hk. assert ((a + k) / 4096 = a / 4096 + k / 4096) as E by zlia.
  unfold in_pages, mapped_to. rewrite E. split.
  - rewrite (proj2 (Z.leb_le _ _)), (proj2 (Z.ltb_lt _ _)) by zlia. done.
  - intros p Hp. zlia.
Qed.

Lemma translate_GetPhysicalAddress s pd v x :
  translate s pd v = Some x -> GetPhysicalAddress s pd v = x.
Proof. unfold translate. by case_if; intros; simplify_eq. Qed.

(** Clearing the freshly mapped pages. *)
Lemma clear_fresh s s2 pd a p n :
  kernel_inv s pd -> mapped s s2 pd a p n -> 0 < n -> 0 < p -> p mod 4096 = 0 ->
  p + n * 4096 <= 4294967296 -> 1048576 <= a -> a mod 4096 = 0 -> a + n * 4096 <= 1073741824 ->
  (forall x, p <= x < p + n * 4096 -> not_paging s pd x) ->
  let s' := clear_virtual (Z.to_nat (n * 4096)) (atomicDisable s2) pd a in
  phys s' = phys s /\ interrupts s' = true /\ mlog s' = mlog s /\ same_dir s s' pd /\
  (forall v, is_u32 v -> translate s' pd v =
     if in_pages a n v then Some (mapped_to a p v) else translate s pd v) /\
  (forall x, p <= x < p + n * 4096 -> loadb (mem s') x = 0) /\
  (forall x, is_u32 x -> not_paging s pd x -> ~ (p <= x < p + n * 4096) -> loadb (mem s') x = loadb (mem s) x).
Proof.
  intros Hinv (M1 & M2 & M3 & M4 & M5 & M6) Hn Hp Hpa Hpn Ha Haa Han Hnp s'.
  pose proof (inv_dir _ _ Hinv) as Hkd. pose proof Hkd as [Hw _].
  destruct (clear_virtual_spec (Z.to_nat (n * 4096)) (atomicDisable s2) pd a p)
    as (E1 & E2 & E3 & E4 & E5 & E6); try lia.
  - by eapply (wf_dir_same s).
  - rewrite Z2Nat.id by lia. intros k Hk.
    destruct (in_pages_byte a n k Haa Hk) as [Hin Hmap].
    assert (has_table s pd (PAGE_DIR_INDEX (a + k))) as Ht.
    { apply Hkd. rewrite PAGE_DIR_INDEX_div. zlia. }
    split_and!.
    + apply translate_GetPhysicalAddress. change (translate (atomicDisable s2)) with (translate s2).
      rewrite M5 by (unfold is_u32; lia). by rewrite Hin, Hmap.
    + by rewrite (has_table_same s (atomicDisable s2)).
    + destruct (Hnp (p + k) ltac:(lia)) as [N1 N2]. split; [done|]. intros i Hi.
      rewrite (has_table_same s (atomicDisable s2)) in Hi by done.
      rewrite (table_same s (atomicDisable s2)) by (done || apply Hi). auto.
  - fold s' in E1, E2, E3, E4, E5, E6. rewrite Z2Nat.id in E6 by lia. split_and!.
    + by rewrite E1.
    + by rewrite E2.
    + by rewrite E3.
    + intros i Hi. rewrite E4 by done. by apply M4.
    + intros v Hv. rewrite E5 by done. by apply M5.
    + intros x Hx. rewrite E6 by (unfold is_u32; lia).
      by rewrite (proj2 (Z.leb_le _ _)), (proj2 (Z.ltb_lt _ _)) by lia.
    + intros x Hx [_ Hnt] Hout. rewrite E6 by done. rewrite (proj2 (andb_false_iff _ _)) by (rewrite Z.leb_gt, Z.ltb_ge; lia). by apply M6.
Qed.

Lemma memoryAllocate_kernel_spec (fuel : nat) (s : MM) (pd size : Z) :
  kernel_inv s pd -> KERNEL_FUEL <= Z.of_nat fuel -> 0 < size <= 4294963200 ->
  exists a s', memoryAllocate fuel s pd size false = Some (a, s') /\ kernel_inv s' pd /\ same_dir s s' pd /\
    ((a <> 0 /\ interrupts s' = true /\ allocated s s' pd a ((size + 4095) / 4096)) \/
     (a = 0 /\ (forall q, used (phys s') q = used (phys s) q) /\
      forall v, is_u32 v -> translate s' pd v = translate s pd v)).
Proof.
  intros Hinv Hf Hs. unfold memoryAllocate. rewrite num_pages_eq by done.
  assert (0 < (size + 4095) / 4096 <= 1048575) as Hn by (clear -Hs; zlia).
  set (n := (size + 4095) / 4096) in *.
  change (phys (atomicEnable s)) with (phys s).
  destruct (physicalAllocate_frames (phys s) n) as [(p & d & -> & Hp & Hpa & Hpn & Hfree & Hused)|(log & ->)];
    [lia|apply Hinv| |].
  2: { rewrite (proj2 (Z.ltb_ge _ _)) by lia. do 2 eexists. split; [done|].
       split; [by eapply kernel_inv_mono|split; [done|right; done]]. }
  rewrite (proj2 (Z.ltb_lt _ _)) by lia.
  set (s1 := with_log (with_phys (atomicEnable s) d) []).
  assert (kernel_inv s1 pd) as Hinv1.
  { eapply kernel_inv_mono; [done|done|]. intros q Hq. simpl. rewrite Hused, Hq. apply orb_true_r. }
  destruct (VirtualAllocate_kernel_spec fuel s1 pd p n) as
    [(a & s2 & -> & Ha & Haa & Han & Hrun & Hm)|(s2 & -> & P1 & P2 & P3 & _)];
    try done; try lia; [apply Hinv1| |].
  - rewrite (proj2 (Z.eqb_neq _ _)) by lia. rewrite u32_small by (unfold is_u32, PAGE_SIZE; lia).
    destruct (clear_fresh s1 s2 pd a p n) as (C1 & C2 & C3 & C4 & C5 & C6 & _); try done; try lia.
    { intros x Hx. apply (free_frame_not_paging s); [done|]. apply Hfree. zlia. }
    unfold PAGE_SIZE. change 0x1000 with 4096. set (s' := clear_virtual _ _ _ _) in *.
    exists a, s'. split; [done|]. split.
    + eapply kernel_inv_mono; [exact Hinv1|done|]. by rewrite C1.
    + split; [exact C4|]. left. split; [lia|]. split; [done|]. exists p. split_and!; try done.
      intros q. rewrite C1. apply Hused.
  - rewrite Z.eqb_refl. do 2 eexists. split; [done|].
    assert (forall q, used (physicalFree (phys s2) p n) q = used (phys s) q) as Hback.
    { intros q. rewrite used_free, P1. simpl. rewrite Hused.
      destruct (free_run_frames (phys s) p n) as (_ & _ & Hfr); [unfold is_u32; lia|done|lia|apply Hinv| |].
      - intros q' Hq'. apply elem_of_frames in Hq' as (k & Hk & ->). apply Hfree.
        unfold frame, page_address, PAGE_SIZE. clear -Hk Hpn Hp Hpa. zlia.
      - destruct (decide (q ∈ frames p n)) as [Hq|Hq].
        + rewrite (proj2 (existsb_frames _ _)) by done. simpl. symmetry. apply Hfree. by apply Hfr.
        + rewrite existsb_frames_false by done. simpl. rewrite Hfr in Hq.
          destruct (Z.leb_spec (p / 4096) q), (Z.ltb_spec q (p / 4096 + n)); try done; lia. }
    split; [|split; [intros i Hi; unfold pde; simpl; by rewrite P2|]].
    + eapply kernel_inv_mono; [exact Hinv| |].
      * intros i Hi. unfold pde. simpl. by rewrite P2.
      * intros q Hq. simpl. by rewrite Hback.
    + right. split; [done|]. split; [done|]. intros v Hv. unfold translate, IsPagePresent,
        GetPhysicalAddress, GetPageTableEntry, GetPageTable. simpl. by rewrite P2.
Qed.

(** Room for [n] pages: a run of free frames the first-fit search reaches, and a run of unmapped
    kernel pages. *)
Definition frame_room (d : MemoryManagerData) (n : Z) : Prop :=
  exists f, 0 < f /\ f + n <= 1048576 /\ f < TotalMemory d / PAGE_SIZE /\ forall q, f <= q < f + n -> used d q = false.
Definition page_room (s : MM) (pd n : Z) : Prop :=
  exists p, 256 <= p /\ p + n <= 262144 /\ run_free s pd (p * 4096) n.

Lemma frame_room_finds d n : used d 0 = true -> 0 < n -> frame_room d n ->
  exists p d', physicalAllocate d n = (p, d', []) /\ TotalMemory d' = TotalMemory d /\ p <> 0.
Proof.
  intros H0 Hn (f & F1 & F2 & F3 & Hf). destruct (physicalAllocate_finds d n f) as (p & d' & E & Ht & Hp & Hpa & Hfree); [lia| |].
  - intros q (k & Hk & ->)%elem_of_frames.
    apply Hf. unfold frame, page_address, PAGE_SIZE. change 0x1000 with 4096. unfold u32. clear -Hk F1 F2. zlia.
  - exists p, d'. split; [done|]. split; [done|]. pose proof (free_run_frames d p n Hp Hpa ltac:(lia) H0 Hfree). lia.
Qed.

(** Where there is room memoryAllocate finds it; it clears the new pages, writes page tables, and
    touches no other byte. *)
Lemma memoryAllocate_room (fuel : nat) (s : MM) (pd size : Z) :
  kernel_inv s pd -> KERNEL_FUEL <= Z.of_nat fuel -> 0 < size <= 4294963200 ->
  let n := (size + 4095) / 4096 in frame_room (phys s) n -> page_room s pd n ->
  exists a s', memoryAllocate fuel s pd size false = Some (a, s') /\ kernel_inv s' pd /\ same_dir s s' pd /\ a <> 0 /\
    allocated s s' pd a n /\ TotalMemory (phys s') = TotalMemory (phys s) /\
    forall x, is_u32 x -> not_paging s pd x -> used (phys s) (x / 4096) = true -> loadb (mem s') x = loadb (mem s) x.
Proof.
  intros Hinv Hf Hs n Hfr (v & V1 & V2 & Hrun).
  assert (0 < n <= 1048575) as Hn by (unfold n; clear -Hs; zlia).
  destruct (memoryAllocate_kernel_spec fuel s pd size Hinv Hf Hs) as (a & s' & E & Hk & Hsd & Hr). fold n in Hr.
  exists a, s'. split; [exact E|]. split; [done|]. split; [done|].
  unfold memoryAllocate in E. rewrite num_pages_eq in E by done. fold n in E. change (phys (atomicEnable s)) with (phys s) in E.
  destruct (frame_room_finds (phys s) n (inv_frame0 _ _ Hinv) ltac:(lia) Hfr) as (p & d & Ep & Htot & Hp0).
  destruct (physicalAllocate_frames (phys s) n) as [(p' & d' & Ep' & Hp & Hpa & Hpn & Hfree & Hused)|(log & Ep')];
    [lia|apply Hinv| |congruence].
  rewrite Ep in Ep'. injection Ep' as <- <-. rewrite Ep, (proj2 (Z.ltb_lt _ _)) in E by lia.
  set (s1 := with_log (with_phys (atomicEnable s) d) []) in *.
  assert (kernel_inv s1 pd) as Hinv1.
  { eapply kernel_inv_mono; [exact Hinv|done|]. intros q Hq. cbn. rewrite Hused, Hq. apply orb_true_r. }
  destruct (VirtualAllocate_kernel_spec fuel s1 pd p n) as
    [(b & s2 & E2 & Hb & Hba & Hbn & Hbrun & Hm)|(s2 & E2 & _ & _ & _ & Hno)];
    try done; try lia; [apply Hinv1| |].
  2: { exfalso. apply (Hno (v * 4096)); [lia|apply Z.mod_mul; lia|lia|exact Hrun]. }
  rewrite E2 in E. cbn [mbind option_bind] in E. rewrite (proj2 (Z.eqb_neq b 0)) in E by lia.
  rewrite u32_small in E by (unfold is_u32, PAGE_SIZE; lia). injection E as <- Es.
  destruct Hr as [(Hb0 & _ & Hal)|(-> & _)]; [|lia]. split; [lia|]. split; [exact Hal|].
  destruct (clear_fresh s1 s2 pd b p n) as (C1 & _ & _ & _ & _ & _ & C7); try done; try lia.
  { intros x Hx. apply (free_frame_not_paging s); [done|]. apply Hfree. zlia. }
  unfold PAGE_SIZE in Es. change 0x1000 with 4096 in Es. rewrite Es in *. split; [by rewrite C1|].
  intros x Hx Hnp Hu. apply C7; [done|done|]. intros Hin. rewrite Hfree in Hu by (clear -Hin Hpa; zlia). done.
Qed.

(** C12: memoryAllocate in the kernel's address space.  Under the kernel invariant and with
    search fuel for one gigabyte of pages, a request of 1 .. 4294963200 bytes always returns, and
    keeps the invariant.  Either it returns a page-aligned address above 1 MiB whose
    [ceil(size/4096)] pages were all unmapped and are now backed by consecutive frames that were
    all free, are now used, and read as zero, while every other address translates as
    before; or it returns 0 with the bitmap and all translations unchanged. *)
Theorem memoryAllocate_kernel (fuel : nat) (s : MM) (pd size : Z) :
  kernel_inv s pd -> KERNEL_FUEL <= Z.of_nat fuel -> 0 < size <= 4294963200 ->
  exists a s', memoryAllocate fuel s pd size false = Some (a, s') /\ kernel_inv s' pd /\
    ((a <> 0 /\ interrupts s' = true /\ allocated s s' pd a ((size + 4095) / 4096)) \/
     (a = 0 /\ (forall q, used (phys s') q = used (phys s) q) /\
      forall v, is_u32 v -> translate s' pd v = translate s pd v)).
Proof.
  intros Hi Hf Hs. destruct (memoryAllocate_kernel_spec fuel s pd size Hi Hf Hs) as (a & s' & E & Hk & _ & Hr). eauto.
Qed.

(** ** Freeing *)

(** One round of memoryFree on a mapped page: the page is unmapped and its frame is free. *)
Lemma free_one_spec s pd v x :
  wf_dir s pd -> 0 <= v -> v + 4096 < 4294967296 -> has_table s pd (PAGE_DIR_INDEX v) ->
  translate s pd v = Some x ->
  let s' := free_one s pd v in
  same_dir s s' pd /\ interrupts s' = interrupts s /\
  (forall v', is_u32 v' ->
     translate s' pd v' = if v' / 4096 =? v / 4096 then None else translate s pd v') /\
  (forall q, used (phys s') q = negb (q =? frame x) && used (phys s) q).
Proof.
  intros Hw Hv0 Hv Ht Htr s'. assert (is_u32 v) as Hv32 by (unfold is_u32; lia).
  unfold s', free_one. pose proof Htr as Htr'. unfold translate in Htr'.
  destruct (IsPagePresent s pd v); [|done]. injection Htr' as ->.
  set (s1 := with_phys s (physicalFree (phys s) x 1)).
  assert (wf_dir s1 pd) as Hw1 by (by eapply (wf_dir_same s)).
  destruct (pte_store_spec s1 pd v 0 Hw1 Hv32 ltac:(unfold is_u32; lia)) as (S1 & S2 & _).
  { by rewrite (has_table_same s s1). }
  unfold VirtualFree, PAGE_SIZE. change (Z.to_nat 1) with 1%nat. cbn [free_loop].
  change (u32 (1 * 0x1000)) with 4096. rewrite u32_small by (unfold is_u32; lia).
  rewrite (proj2 (Z.ltb_lt _ _)) by lia. split; [exact S1|]. split; [done|]. split; [exact S2|].
  intros q. cbn [phys with_mem flushCurrentPageDirectory s1 with_phys]. rewrite used_free.
  unfold frames. change (Z.to_nat 1) with 1%nat. rewrite frames_from_S. simpl.
  rewrite orb_false_r. unfold page_address, frame. do 3 f_equal. change (u32 (0 * PAGE_SIZE)) with 0.
  by rewrite Z.add_0_r, u32_u32.
Qed.

Lemma memoryFree_loop_spec n : forall s pd a p i,
  wf_dir s pd -> 0 <= i -> 0 <= a -> a mod 4096 = 0 -> p mod 4096 = 0 -> 0 <= p ->
  a + (i + Z.of_nat n) * 4096 <= 1073741824 -> p + (i + Z.of_nat n) * 4096 <= 4294967296 ->
  (forall k, i <= k < i + Z.of_nat n -> has_table s pd (PAGE_DIR_INDEX (a + k * 4096)) /\
     translate s pd (a + k * 4096) = Some (p + k * 4096)) ->
  let s' := memoryFree_loop n s pd a i in
  same_dir s s' pd /\
  (forall v, is_u32 v -> translate s' pd v =
     if in_pages (a + i * 4096) (Z.of_nat n) v then None else translate s pd v) /\
  (forall q, used (phys s') q =
     negb ((p / 4096 + i <=? q) && (q <? p / 4096 + i + Z.of_nat n)) && used (phys s) q).
Proof.
  induction n as [|n IH]; intros s pd a p i Hw Hi Ha Haa Hpa Hp Han Hpn Hk.
  { simpl. split_and!; [done| |].
    - intros v Hv. by rewrite in_pages_0.
    - intros q. zcases. }
  destruct (Hk i ltac:(lia)) as [Ht Htr].
  destruct (free_one_spec s pd (a + i * 4096) (p + i * 4096)) as (F1 & _ & F2 & F3); try done; try lia.
  set (s1 := free_one s pd (a + i * 4096)) in *.
  destruct (IH s1 pd a p (i + 1)) as (G1 & G2 & G3); try done; try lia.
  { by eapply wf_dir_same. }
  { intros k Hk'. destruct (Hk k ltac:(lia)) as [Htk Htrk]. rewrite (has_table_same s s1) by done.
    split; [done|]. rewrite F2 by (unfold is_u32; lia). rewrite (proj2 (Z.eqb_neq _ _)); [done|]. zlia. }
  simpl. unfold PAGE_SIZE. change 0x1000 with 4096.
  rewrite !u32_small by (unfold is_u32; rewrite ?u32_small by (unfold is_u32; lia); lia).
  fold s1. split_and!.
  - intros j Hj. by rewrite G1, F1.
  - intros v Hv. rewrite G2, F2 by done. unfold in_pages.
    assert ((a + (i + 1) * 4096) / 4096 = a / 4096 + i + 1) as -> by zlia.
    assert ((a + i * 4096) / 4096 = a / 4096 + i) as -> by zlia.
    zcases.
  - intros q. rewrite G3, F3.
    assert (frame (p + i * 4096) = p / 4096 + i) as ->.
    { unfold frame, PAGE_SIZE. rewrite u32_small by (unfold is_u32; lia). zlia. }
    zcases.
Qed.

Lemma translate_page s pd v :
  wf_dir s pd -> is_u32 v ->
  IsPagePresent s pd v = false <-> translate s pd v = None.
Proof. intros Hw Hv. unfold translate. by destruct (IsPagePresent s pd v). Qed.

(** Pages of a free run do not translate, at any offset. *)
Lemma run_free_translate s pd a n v :
  wf_dir s pd -> is_u32 v -> 0 <= a -> a mod 4096 = 0 -> a + n * 4096 <= 4294967296 ->
  run_free s pd a n -> in_pages a n v = true -> translate s pd v = None.
Proof.
  intros Hw Hv Ha Haa Han Hrun Hin. unfold in_pages in Hin. bool_facts.
  pose proof (dir_range _ _ Hw) as Hr.
  specialize (Hrun (v / 4096 - a / 4096) ltac:(lia)).
  set (w := a + (v / 4096 - a / 4096) * 4096) in *.
  assert (w / 4096 = v / 4096) as E by (unfold w; zlia).
  assert (is_u32 w) as Hw32 by (unfold w, is_u32 in *; zlia).
  apply translate_page in Hrun; [|done..]. rewrite translate_eq in * by done.
  assert (PAGE_DIR_INDEX w = PAGE_DIR_INDEX v) as E1 by (rewrite !PAGE_DIR_INDEX_div; zlia).
  assert (PAGE_TABLE_INDEX w = PAGE_TABLE_INDEX v) as E2 by (rewrite !PAGE_TABLE_INDEX_div; by rewrite E).
  unfold pte_addr in *. rewrite E1, E2 in Hrun. by case_if.
Qed.

(** C13: memoryFree undoes memoryAllocate.  When a kernel allocation of [size] bytes
    succeeded with address [a], freeing the whole pages of it gives back exactly the earlier
    bitmap and the earlier translation of every virtual address. *)
Theorem memoryFree_roundtrip (fuel : nat) (s s' : MM) (pd size a : Z) :
  kernel_inv s pd -> KERNEL_FUEL <= Z.of_nat fuel -> 0 < size <= 4294963200 ->
  memoryAllocate fuel s pd size false = Some (a, s') -> a <> 0 ->
  let s'' := memoryFree s' pd a ((size + 4095) / 4096 * 4096) in
  (forall q, used (phys s'') q = used (phys s) q) /\
  (forall v, is_u32 v -> translate s'' pd v = translate s pd v) /\ interrupts s'' = true.
Proof.
  intros Hinv Hf Hs E Ha. pose proof (memoryAllocate_kernel_spec fuel s pd size Hinv Hf Hs) as H.
  rewrite E in H. destruct H as (a' & s1 & [= <- <-] & Hinv' & _ & [H|[? _]]); [|done].
  destruct H as (_ & _ & p & P1 & P2 & P3 & A1 & A2 & A3 & Hrun & Hfree & Hused & Htr & _).
  assert (0 < (size + 4095) / 4096 <= 1048575) as Hn by (clear -Hs; zlia).
  set (n := (size + 4095) / 4096) in *.
  pose proof (inv_dir _ _ Hinv') as [Hw' Hk'].
  unfold memoryFree, PAGE_SIZE. change 0x1000 with 4096. rewrite Z.div_mul by lia.
  destruct (memoryFree_loop_spec (Z.to_nat n) (atomicEnable s') pd a p 0) as (G1 & G2 & G3);
    rewrite ?Z2Nat.id in * by lia; try lia; try done.
  { by eapply (wf_dir_same s'). }
  { intros k Hk. split.
    - apply Hk'. rewrite PAGE_DIR_INDEX_div. zlia.
    - change (translate (atomicEnable s')) with (translate s'). rewrite Htr by (unfold is_u32; lia).
      destruct (in_pages_byte a n (k * 4096)) as [-> ->]; [done|lia|done|done]. }
  rewrite Z.mul_0_l, Z.add_0_r in G2. rewrite Z.add_0_r in G3. split_and!; [| |done].
  - intros q. cbn [phys atomicDisable with_interrupts]. rewrite G3. cbn [phys atomicEnable with_interrupts].
    rewrite Hused. zcases. symmetry. apply Hfree. lia.
  - intros v Hv. change (translate (atomicDisable ?x)) with (translate x). rewrite G2 by done.
    change (translate (atomicEnable s')) with (translate s'). rewrite Htr by done.
    destruct (in_pages a n v) eqn:Ein; [|done]. symmetry.
    apply (run_free_translate s pd a n); try done; try lia. apply Hinv.
Qed.

(** On physical exhaustion memoryAllocate returns with interrupts off: it enters the
    critical section, and the branch for a failed physical allocation returns 0 without
    leaving it. *)
Theorem memoryAllocate_oom_interrupts (fuel : nat) (s : MM) (pd size : Z) (user : bool) :
  (physicalAllocate (phys s) (num_pages size)).1.1 = 0 ->
  exists s', memoryAllocate fuel s pd size user = Some (0, s') /\ interrupts s' = false.
Proof.
  intros H. unfold memoryAllocate. change (phys (atomicEnable s)) with (phys s).
  destruct (physicalAllocate (phys s) (num_pages size)) as [[p d] log]. simpl in H. subst p.
  eexists. split; [done|]. done.
Qed.

(** ** A concrete machine *)

(** 16 MiB, the directory in frame 512, its 256 tables in frames 513 .. 768 and all zero,
    frame 0 in use and every other frame free. *)
Definition ex_word (w : Z) : Z :=
  if (524288 <=? w) && (w <? 524544) then (513 + (w - 524288)) * 4096 + 3 else 0.
Definition ex_mem : Mem := fun a => ex_word (a / 4) / 256 ^ (a mod 4).
Definition ex_bitmap (i : Z) : Z :=
  if i =? 0 then 1 else if (64 <=? i) && (i <? 96) then 0xFF else if i =? 96 then 1 else 0.
Definition ex_mm : MM := MkMM (MkData 16777216 0 ex_bitmap) ex_mem true 0 [].
Definition ex_pd : Z := 2097152.

Lemma ex_entries :
  forallb (fun i => pde ex_mm ex_pd i =? if i <? 256 then (513 + i) * 4096 + 3 else 0) (seqZ 0 1024) = true.
Proof. vm_compute. reflexivity. Qed.

Lemma ex_pde i : 0 <= i < 1024 -> pde ex_mm ex_pd i = if i <? 256 then (513 + i) * 4096 + 3 else 0.
Proof.
  intros Hi. pose proof ex_entries as H. rewrite forallb_forall in H.
  specialize (H i). rewrite Z.eqb_eq in H. apply H. apply list_elem_of_In, elem_of_seqZ. lia.
Qed.

Lemma ex_table i : has_table ex_mm ex_pd i -> 0 <= i < 256 /\ table ex_mm ex_pd i = (513 + i) * 4096.
Proof.
  intros [Hi Hp]. unfold table. rewrite ex_pde in * by done. case_if; [|done]. split; [lia|].
  unfold e_pageFrameNumber. change 0xFFFFF with (Z.ones 20).
  rewrite Z.land_ones, Z.shiftr_div_pow2 by lia. f_equal. zlia.
Qed.

Lemma ex_used_tables :
  forallb (fun i => used (phys ex_mm) (513 + i)) (seqZ 0 256) = true.
Proof. vm_compute. reflexivity. Qed.

Lemma ex_kernel_inv : kernel_inv ex_mm ex_pd.
Proof.
  split; try done.
  - split; [split|].
    + unfold ex_pd. lia.
    + done.
    + intros i [Hi ->]%ex_table. unfold ex_pd. lia.
    + intros i j [Hi ->]%ex_table [Hj ->]%ex_table. lia.
    + intros i Hi. split; [lia|]. rewrite ex_pde by lia. rewrite (proj2 (Z.ltb_lt _ _)) by lia.
      unfold e_present. rewrite Z.bit0_odd, Z.odd_add, Z.odd_mul. by rewrite andb_false_r.
  - intros i [Hi ->]%ex_table. rewrite Z.div_mul by lia. pose proof ex_used_tables as H.
    rewrite forallb_forall in H. apply H, list_elem_of_In, elem_of_seqZ. lia.
Qed.

Lemma memoryAllocate_kernel_witness :
  exists fuel a s', memoryAllocate fuel ex_mm ex_pd 5000 false = Some (a, s') /\ kernel_inv s' ex_pd.
Proof.
  exists (Z.to_nat 262144).
  destruct (memoryAllocate_kernel (Z.to_nat 262144) ex_mm ex_pd 5000 ex_kernel_inv
    ltac:(rewrite Z2Nat.id by lia; apply Z.le_refl) ltac:(lia)) as (a & s' & E & H & _).
  exists a, s'. split; assumption.
Defined.

Lemma ex_allocates fuel :
  fst <$> memoryAllocate (S (S (S fuel))) ex_mm ex_pd 5000 false = Some 1048576.
Proof. lazy. reflexivity. Qed.

Lemma memoryFree_roundtrip_witness :
  exists fuel a s', memoryAllocate fuel ex_mm ex_pd 5000 false = Some (a, s') /\ a <> 0 /\
    forall q, used (phys (memoryFree s' ex_pd a 8192)) q = used (phys ex_mm) q.
Proof.
  exists (S (S (S (Z.to_nat 262144)))).
  pose proof (ex_allocates (Z.to_nat 262144)) as E.
  destruct (memoryAllocate (S (S (S (Z.to_nat 262144)))) ex_mm ex_pd 5000 false) as [[a s']|] eqn:F;
    [|discriminate E].
  assert (a <> 0) as Ha by (injection E as ->; discriminate).
  exists a, s'. split; [reflexivity|]. split; [exact Ha|].
  refine (proj1 (memoryFree_roundtrip _ ex_mm s' ex_pd 5000 a ex_kernel_inv _ _ F Ha)).
  - rewrite !Nat2Z.inj_succ, Z2Nat.id by lia. unfold KERNEL_FUEL. lia.
  - lia.
Defined.

(** 1 MiB of memory, every frame in use. *)
Definition ex_full : MM := MkMM (MkData 1048576 1048576 (fun _ => 0xFF)) ex_mem true 0 [].

Lemma memoryAllocate_oom_interrupts_witness :
  exists s', memoryAllocate 1 ex_full ex_pd 4096 false = Some (0, s') /\ interrupts s' = false.
Proof. apply (memoryAllocate_oom_interrupts 1 ex_full ex_pd 4096 false). vm_compute. reflexivity. Defined.

End MemoryManager.
