(* ===== verification/Printf.v ===== *)
(** Kernel/Libk/vsnprintf.c: the formatted printing of the kernel.

    The C code writes through an output function [out(character, buffer, idx++, maxlen)] and
    reads the format and the string arguments from memory.  The model keeps both: every
    routine is written once against the [Sink] interface (put a character, current index,
    read a byte of memory), and [mem_sink] instantiates it with the C output functions on the
    byte memory.  Local character arrays ([buf]) are the list of the cells written so far,
    [len] being its length.  A [va_list] is the list of the 32-bit words on the caller's
    stack.  [None] is undefined behaviour (arguments exhausted, [pow10] indexed out of
    range) or fuel exhausted. *)

From S2P Require Import Prelude.
From Stdlib Require Import SpecFloat.

Module Printf.

Definition PRINTF_NTOA_BUFFER_SIZE : Z := 32.
Definition PRINTF_FTOA_BUFFER_SIZE : Z := 32.
Definition PRINTF_DEFAULT_FLOAT_PRECISION : Z := 6.

Definition FLAGS_ZEROPAD : Z := Z.shiftl 1 0.
Definition FLAGS_LEFT : Z := Z.shiftl 1 1.
Definition FLAGS_PLUS : Z := Z.shiftl 1 2.
Definition FLAGS_SPACE : Z := Z.shiftl 1 3.
Definition FLAGS_HASH : Z := Z.shiftl 1 4.
Definition FLAGS_UPPERCASE : Z := Z.shiftl 1 5.
Definition FLAGS_CHAR : Z := Z.shiftl 1 6.
Definition FLAGS_SHORT : Z := Z.shiftl 1 7.
Definition FLAGS_LONG : Z := Z.shiftl 1 8.
Definition FLAGS_LONG_LONG : Z := Z.shiftl 1 9.
Definition FLAGS_PRECISION : Z := Z.shiftl 1 10.
Definition FLAGS_ADAPT_EXP : Z := Z.shiftl 1 11.

(** [flags & f], [flags |= f], [flags &= ~f]. *)
Definition has (flags f : Z) : bool := negb (Z.land flags f =? 0).
Definition set (flags f : Z) : Z := Z.lor flags f.
Definition unset (flags f : Z) : Z := Z.land flags (Z.lnot f).

(** ** Output functions *)

(** What an output function can act on: memory, the console ([putchar]), and the calls made
    through a function pointer (function, character, argument). *)
Record PState := MkP { pmem : Mem; putchars : list Z; fct_calls : list (Z * Z * Z) }.

Definition out_fct_type : Type := Z -> Z -> Z -> Z -> PState -> PState.

Definition _out_buffer : out_fct_type := fun character buffer idx maxlen s =>
  if idx <? maxlen then MkP (storeb (pmem s) (buffer + idx) character) (putchars s) (fct_calls s)
  else s.

Definition _out_null : out_fct_type := fun character buffer idx maxlen s => s.

Definition _out_char : out_fct_type := fun character buffer idx maxlen s =>
  if negb (character =? 0) then MkP (pmem s) (putchars s ++ [character]) (fct_calls s) else s.

(** [buffer] points to an [out_fct_wrap_type]: the function pointer, then its argument. *)
Definition _out_fct : out_fct_type := fun character buffer idx maxlen s =>
  if negb (character =? 0)
  then MkP (pmem s) (putchars s)
         (fct_calls s ++ [(load32 (pmem s) buffer, character, load32 (pmem s) (buffer + 4))])
  else s.

Class Sink (P : Type) := {
  put : Z -> P -> P;
  pos : P -> Z;
  peek : P -> Z -> Z
}.

(** The sink of the C code: the state and the index [idx]. *)
Definition mem_sink (out : out_fct_type) (buffer maxlen : Z) : Sink (PState * Z) := {|
  put c p := (out c buffer p.2 maxlen p.1, u32 (p.2 + 1));
  pos p := p.2;
  peek p a := loadb (pmem p.1) a
|}.

(** ** Floating point *)

(** The [double] operations the code uses, so that nothing depends on the evaluation format
    of the floating-point unit. *)
Class Double (D : Type) := {
  d_of_bits : Z -> D;
  d_to_bits : D -> Z;
  d_of_Z : Z -> D;
  d_trunc : D -> Z;
  d_add : D -> D -> D;
  d_sub : D -> D -> D;
  d_mul : D -> D -> D;
  d_div : D -> D -> D;
  d_opp : D -> D;
  d_lt : D -> D -> bool;
  d_le : D -> D -> bool;
  d_eq : D -> D -> bool
}.

(** The literal m * 10^-k. *)
Definition d_lit {D} `{Double D} (m k : Z) : D := d_div (d_of_Z m) (d_of_Z (10 ^ k)).
Definition DBL_MAX {D} `{Double D} : D := d_of_bits 0x7FEFFFFFFFFFFFFF.
Definition PRINTF_MAX_FLOAT {D} `{Double D} : D := d_of_Z 1000000000.

(** ** Conversions *)

Section Conversions.
Context {P : Type} `{Sink P} {D : Type} `{Double D}.

(** [n] times [out(c, buffer, idx++, maxlen)]. *)
Fixpoint put_n (n : nat) (c : Z) (p : P) : P :=
  match n with O => p | S n => put_n n c (put c p) end.

Fixpoint put_list (l : list Z) (p : P) : P :=
  match l with [] => p | c :: l => put_list l (put c p) end.

Fixpoint strnlen_loop (fuel : nat) (rd : Z -> Z) (s maxsize : Z) : option Z :=
  match fuel with
  | O => None
  | S fuel =>
      if negb (rd s =? 0) && negb (maxsize =? 0)
      then strnlen_loop fuel rd (u32 (s + 1)) (u32 (maxsize - 1))
      else Some s
  end.

Definition _strnlen_s (fuel : nat) (rd : Z -> Z) (s maxsize : Z) : option Z :=
  e ← strnlen_loop fuel rd s maxsize; Some (u32 (e - s)).

Definition _is_digit (ch : Z) : bool := (s8 ch >=? chr "0") && (s8 ch <=? chr "9").

Fixpoint atoi_loop (fuel : nat) (rd : Z -> Z) (i s : Z) : option (Z * Z) :=
  match fuel with
  | O => None
  | S fuel =>
      if _is_digit (rd s)
      then atoi_loop fuel rd (u32 (i * 10 + u32 (s8 (rd s) - chr "0"))) (u32 (s + 1))
      else Some (i, s)
  end.

(** The value read, and the advanced pointer. *)
Definition _atoi (fuel : nat) (rd : Z -> Z) (s : Z) : option (Z * Z) := atoi_loop fuel rd 0 s.

Definition len (buf : list Z) : Z := Z.of_nat (length buf).

Definition _out_rev (buf : list Z) (width flags : Z) (p : P) : P :=
  let start_idx := pos p in
  let p := if negb (has flags FLAGS_LEFT) && negb (has flags FLAGS_ZEROPAD)
           then put_n (Z.to_nat (width - len buf)) (chr " ") p else p in
  let p := put_list (rev buf) p in
  if has flags FLAGS_LEFT
  then put_n (Z.to_nat (width - u32 (pos p - start_idx))) (chr " ") p else p.

(** [while (cond(len)) buf[len++] = '0';] run at most [n] times. *)
Fixpoint fill_zeros (n : nat) (cond : Z -> bool) (buf : list Z) : list Z :=
  match n with
  | O => buf
  | S n => if cond (len buf) then fill_zeros n cond (buf ++ [chr "0"]) else buf
  end.

Definition NTOA_STEPS : nat := 32.

(** [len--]. *)
Definition buf_drop (buf : list Z) : list Z := take (length buf - 1) buf.

(** [if (len < SIZE) buf[len++] = c;] *)
Definition buf_put (c : Z) (buf : list Z) : list Z :=
  if len buf <? PRINTF_NTOA_BUFFER_SIZE then buf ++ [c] else buf.

(** The leading zeros of _ntoa_format: the width left for padding and the buffer. *)
Definition ntoa_zeros (buf : list Z) (negative : bool) (prec width flags : Z) : Z * list Z :=
  if negb (has flags FLAGS_LEFT) then
    let width := if negb (width =? 0) && has flags FLAGS_ZEROPAD &&
                    (negative || has flags (Z.lor FLAGS_PLUS FLAGS_SPACE))
                 then width - 1 else width in
    let buf := fill_zeros NTOA_STEPS (fun len => (len <? prec) && (len <? PRINTF_NTOA_BUFFER_SIZE)) buf in
    let buf := fill_zeros NTOA_STEPS (fun len => has flags FLAGS_ZEROPAD && (len <? width) &&
                                        (len <? PRINTF_NTOA_BUFFER_SIZE)) buf in
    (width, buf)
  else (width, buf).

(** The base prefix of _ntoa_format. *)
Definition ntoa_hash (buf : list Z) (base prec width flags : Z) : list Z :=
  if has flags FLAGS_HASH then
    let buf :=
      if negb (has flags FLAGS_PRECISION) && negb (len buf =? 0) &&
         ((len buf =? prec) || (len buf =? width))
      then let buf := buf_drop buf in
           if negb (len buf =? 0) && (base =? 16) then buf_drop buf else buf
      else buf in
    let buf :=
      if (base =? 16) && negb (has flags FLAGS_UPPERCASE) && (len buf <? PRINTF_NTOA_BUFFER_SIZE)
      then buf ++ [chr "x"]
      else if (base =? 16) && has flags FLAGS_UPPERCASE && (len buf <? PRINTF_NTOA_BUFFER_SIZE)
      then buf ++ [chr "X"]
      else if (base =? 2) && (len buf <? PRINTF_NTOA_BUFFER_SIZE)
      then buf ++ [chr "b"]
      else buf in
    buf_put (chr "0") buf
  else buf.

(** The sign of _ntoa_format and of _ftoa. *)
Definition put_sign (negative : bool) (flags : Z) (buf : list Z) : list Z :=
  if len buf <? PRINTF_NTOA_BUFFER_SIZE then
    if negative then buf ++ [chr "-"]
    else if has flags FLAGS_PLUS then buf ++ [chr "+"]
    else if has flags FLAGS_SPACE then buf ++ [chr " "]
    else buf
  else buf.

Definition _ntoa_format (buf : list Z) (negative : bool) (base prec width flags : Z) (p : P) : P :=
  let '(width, buf) := ntoa_zeros buf negative prec width flags in
  let buf := ntoa_hash buf base prec width flags in
  let buf := put_sign negative flags buf in
  _out_rev buf width flags p.

Definition ntoa_char (digit flags : Z) : Z :=
  if digit <? 10 then chr "0" + digit
  else (if has flags FLAGS_UPPERCASE then chr "A" else chr "a") + digit - 10.

(** [do { ... } while (value && len < PRINTF_NTOA_BUFFER_SIZE)], at most [S n] rounds. *)
Fixpoint ntoa_digits (n : nat) (value base flags : Z) (buf : list Z) : list Z :=
  let digit := s8 (value mod base) in
  let buf := buf ++ [ntoa_char digit flags] in
  let value := value / base in
  match n with
  | O => buf
  | S n => if negb (value =? 0) && (len buf <? PRINTF_NTOA_BUFFER_SIZE)
           then ntoa_digits n value base flags buf else buf
  end.

Definition _ntoa_long (value : Z) (negative : bool) (base prec width flags : Z) (p : P) : P :=
  let flags := if value =? 0 then unset flags FLAGS_HASH else flags in
  let buf := if negb (has flags FLAGS_PRECISION) || negb (value =? 0)
             then ntoa_digits NTOA_STEPS value base flags [] else [] in
  _ntoa_format buf negative base prec width flags p.

Definition _ntoa_long_long (value : Z) (negative : bool) (base prec width flags : Z) (p : P) : P :=
  let flags := if value =? 0 then unset flags FLAGS_HASH else flags in
  let buf := if negb (has flags FLAGS_PRECISION) || negb (value =? 0)
             then ntoa_digits NTOA_STEPS value base flags [] else [] in
  _ntoa_format buf negative base prec width flags p.

(** *** Floating point *)

Definition pow10 : list Z :=
  [1; 10; 100; 1000; 10000; 100000; 1000000; 10000000; 100000000; 1000000000].

(** [while (len < SIZE && prec > 9) { buf[len++] = '0'; prec--; }] *)
Fixpoint ftoa_limit (n : nat) (prec : Z) (buf : list Z) : Z * list Z :=
  match n with
  | O => (prec, buf)
  | S n => if (len buf <? PRINTF_FTOA_BUFFER_SIZE) && (prec >? 9)
           then ftoa_limit n (prec - 1) (buf ++ [chr "0"]) else (prec, buf)
  end.

(** The fraction's digits: [--count] for each. *)
Fixpoint ftoa_frac (n : nat) (frac count : Z) (buf : list Z) : Z * list Z :=
  match n with
  | O => (count, buf)
  | S n =>
      if len buf <? PRINTF_FTOA_BUFFER_SIZE then
        let count := u32 (count - 1) in
        let buf := buf ++ [chr "0" + frac mod 10] in
        let frac := frac / 10 in
        if frac =? 0 then (count, buf) else ftoa_frac n frac count buf
      else (count, buf)
  end.

(** [while (len < SIZE && count-- > 0) buf[len++] = '0';] *)
Fixpoint ftoa_extra (n : nat) (count : Z) (buf : list Z) : list Z :=
  match n with
  | O => buf
  | S n => if (len buf <? PRINTF_FTOA_BUFFER_SIZE) && (count >? 0)
           then ftoa_extra n (count - 1) (buf ++ [chr "0"]) else buf
  end.

Fixpoint ftoa_whole (n : nat) (whole : Z) (buf : list Z) : list Z :=
  match n with
  | O => buf
  | S n =>
      if len buf <? PRINTF_FTOA_BUFFER_SIZE then
        let buf := buf ++ [u8 (chr "0" + Z.rem whole 10)] in
        let whole := Z.quot whole 10 in
        if whole =? 0 then buf else ftoa_whole n whole buf
      else buf
  end.

(** The whole and fractional parts, rounded to [prec] digits; [p10] is [pow10[prec]]. *)
Definition ftoa_round (value : D) (prec p10 : Z) : Z * Z :=
  let whole := s32 (d_trunc value) in
  let tmp := d_mul (d_sub value (d_of_Z whole)) (d_of_Z p10) in
  let frac := u32 (d_trunc tmp) in
  let diff := d_sub tmp (d_of_Z frac) in
  let half := d_lit 5 1 in
  let '(whole, frac) :=
    if d_lt half diff then
      let frac := u32 (frac + 1) in
      if d_le (d_of_Z p10) (d_of_Z frac) then (s32 (whole + 1), 0) else (whole, frac)
    else if d_lt diff half then (whole, frac)
    else if (frac =? 0) || negb (Z.land frac 1 =? 0) then (whole, u32 (frac + 1))
    else (whole, frac) in
  if prec =? 0 then
    let diff := d_sub value (d_of_Z whole) in
    if (negb (d_lt diff half) || d_lt half diff) && negb (Z.land whole 1 =? 0)
    then (s32 (whole + 1), frac) else (whole, frac)
  else (whole, frac).

(** The characters of the number, last first. *)
Definition ftoa_digits (whole frac prec : Z) (buf : list Z) : list Z :=
  let buf :=
    if prec =? 0 then buf
    else
      let '(count, buf) := ftoa_frac NTOA_STEPS frac prec buf in
      let buf := ftoa_extra NTOA_STEPS count buf in
      buf_put (chr ".") buf in
  ftoa_whole NTOA_STEPS whole buf.

Definition ftoa_number (value : D) (negative : bool) (prec width flags : Z) (p : P) : option P :=
  let prec := if negb (has flags FLAGS_PRECISION) then PRINTF_DEFAULT_FLOAT_PRECISION else prec in
  let '(prec, buf) := ftoa_limit NTOA_STEPS prec [] in
  p10 ← pow10 !! Z.to_nat prec;
  let '(whole, frac) := ftoa_round value prec p10 in
  let buf := ftoa_digits whole frac prec buf in
  let '(width, buf) :=
    if negb (has flags FLAGS_LEFT) && has flags FLAGS_ZEROPAD then
      let width := if negb (width =? 0) && (negative || has flags (Z.lor FLAGS_PLUS FLAGS_SPACE))
                   then width - 1 else width in
      (width, fill_zeros NTOA_STEPS (fun len => (len <? width) && (len <? PRINTF_FTOA_BUFFER_SIZE)) buf)
    else (width, buf) in
  Some (_out_rev (put_sign negative flags buf) width flags p).

(** The decimal exponent, and the scale 10^exponent, that _etoa computes for [value]. *)
Definition etoa_exponent (value : D) : Z * D :=
  let convU := d_to_bits value in
  let exp2 := Z.land (Z.shiftr convU 52) 0x7FF - 1023 in
  let convF := d_of_bits (Z.lor (Z.land convU (2 ^ 52 - 1)) (Z.shiftl 1023 52)) in
  let expval := s32 (d_trunc
    (d_add (d_add (d_lit 1760912590558 13) (d_mul (d_of_Z exp2) (d_lit 301029995663981 15)))
           (d_mul (d_sub convF (d_lit 15 1)) (d_lit 289529654602168 15)))) in
  let exp2 := s32 (d_trunc (d_add (d_mul (d_of_Z expval) (d_lit 3321928094887362 15)) (d_lit 5 1))) in
  let z := d_sub (d_mul (d_of_Z expval) (d_lit 2302585092994046 15))
                 (d_mul (d_of_Z exp2) (d_lit 6931471805599453 16)) in
  let z2 := d_mul z z in
  let convF := d_of_bits (u64 (Z.shiftl (u64 (exp2 + 1023)) 52)) in
  let convF := d_mul convF
    (d_add (d_of_Z 1)
      (d_div (d_mul (d_of_Z 2) z)
        (d_add (d_sub (d_of_Z 2) z)
          (d_div z2 (d_add (d_of_Z 6) (d_div z2 (d_add (d_of_Z 10) (d_div z2 (d_of_Z 14))))))))) in
  if d_lt value convF then (expval - 1, d_div convF (d_of_Z 10)) else (expval, convF).

Definition d_special (value : D) : bool :=
  negb (d_eq value value) || d_lt DBL_MAX value || d_lt value (d_opp DBL_MAX).

Section Etoa.
Variable ftoa : D -> Z -> Z -> Z -> P -> option P.

Definition etoa (value : D) (prec width flags : Z) (p : P) : option P :=
  if d_special value then ftoa value prec width flags p
  else
    let negative := d_lt value (d_of_Z 0) in
    let value := if negative then d_opp value else value in
    let prec := if negb (has flags FLAGS_PRECISION) then PRINTF_DEFAULT_FLOAT_PRECISION else prec in
    let '(expval, convF) := etoa_exponent value in
    let minwidth := if (expval <? 100) && (expval >? -100) then 4 else 5 in
    let '(prec, flags, minwidth, expval) :=
      if has flags FLAGS_ADAPT_EXP then
        if d_le (d_lit 1 4) value && d_lt value (d_of_Z 1000000) then
          (if s32 prec >? expval then u32 (s32 prec - expval - 1) else 0, set flags FLAGS_PRECISION, 0, 0)
        else
          (if (prec >? 0) && has flags FLAGS_PRECISION then prec - 1 else prec, flags, minwidth, expval)
      else (prec, flags, minwidth, expval) in
    let fwidth := if width >? minwidth then width - minwidth else 0 in
    let fwidth := if has flags FLAGS_LEFT && negb (minwidth =? 0) then 0 else fwidth in
    let value := if negb (expval =? 0) then d_div value convF else value in
    let start_idx := pos p in
    p ← ftoa (if negative then d_opp value else value) prec fwidth (unset flags FLAGS_ADAPT_EXP) p;
    if negb (minwidth =? 0) then
      let p := put (if has flags FLAGS_UPPERCASE then chr "E" else chr "e") p in
      let p := _ntoa_long (if expval <? 0 then - expval else expval) (expval <? 0) 10 0 (minwidth - 1)
                 (Z.lor FLAGS_ZEROPAD FLAGS_PLUS) p in
      Some (if has flags FLAGS_LEFT
            then put_n (Z.to_nat (width - u32 (pos p - start_idx))) (chr " ") p else p)
    else Some p.

End Etoa.

(** _ftoa and _etoa call each other; [fuel] bounds the depth. *)
Fixpoint _ftoa (fuel : nat) (value : D) (prec width flags : Z) (p : P) : option P :=
  match fuel with
  | O => None
  | S fuel =>
      if negb (d_eq value value) then Some (_out_rev (str "nan") width flags p)
      else if d_lt value (d_opp DBL_MAX) then Some (_out_rev (str "fni-") width flags p)
      else if d_lt DBL_MAX value then
        Some (_out_rev (if has flags FLAGS_PLUS then str "fni+" else str "fni") width flags p)
      else if d_lt PRINTF_MAX_FLOAT value || d_lt value (d_opp PRINTF_MAX_FLOAT) then
        etoa (_ftoa fuel) value prec width flags p
      else
        let negative := d_lt value (d_of_Z 0) in
        let value := if negative then d_sub (d_of_Z 0) value else value in
        ftoa_number value negative prec width flags p
  end.

Definition _etoa (fuel : nat) : D -> Z -> Z -> Z -> P -> option P := etoa (_ftoa fuel).

End Conversions.

(** ** The directive parser *)

Section Vsnprintf.
Context {P : Type} `{Sink P} {D : Type} `{Double D}.

(** [va_arg] for a 32-bit and for a 64-bit type. *)
Definition va_arg32 (va : list Z) : option (Z * list Z) :=
  match va with w :: va => Some (u32 w, va) | [] => None end.
Definition va_arg64 (va : list Z) : option (Z * list Z) :=
  match va with lo :: hi :: va => Some (u32 lo + 4294967296 * u32 hi, va) | _ => None end.

Definition flag_of (c : Z) : option Z :=
  if c =? chr "0" then Some FLAGS_ZEROPAD
  else if c =? chr "-" then Some FLAGS_LEFT
  else if c =? chr "+" then Some FLAGS_PLUS
  else if c =? chr " " then Some FLAGS_SPACE
  else if c =? chr "#" then Some FLAGS_HASH
  else None.

Fixpoint parse_flags (fuel : nat) (rd : Z -> Z) (format flags : Z) : option (Z * Z) :=
  match fuel with
  | O => None
  | S fuel =>
      match flag_of (rd format) with
      | Some f => parse_flags fuel rd (u32 (format + 1)) (set flags f)
      | None => Some (format, flags)
      end
  end.

(** (format, va, flags, width) *)
Definition parse_width (fuel : nat) (rd : Z -> Z) (format : Z) (va : list Z) (flags : Z)
    : option (Z * list Z * Z * Z) :=
  if _is_digit (rd format) then
    '(width, format) ← _atoi fuel rd format; Some (format, va, flags, width)
  else if rd format =? chr "*" then
    '(w, va) ← va_arg32 va;
    let w := s32 w in
    if w <? 0 then Some (u32 (format + 1), va, set flags FLAGS_LEFT, u32 (- w))
    else Some (u32 (format + 1), va, flags, u32 w)
  else Some (format, va, flags, 0).

(** (format, va, flags, precision) *)
Definition parse_precision (fuel : nat) (rd : Z -> Z) (format : Z) (va : list Z) (flags : Z)
    : option (Z * list Z * Z * Z) :=
  if rd format =? chr "." then
    let flags := set flags FLAGS_PRECISION in
    let format := u32 (format + 1) in
    if _is_digit (rd format) then
      '(precision, format) ← _atoi fuel rd format; Some (format, va, flags, precision)
    else if rd format =? chr "*" then
      '(w, va) ← va_arg32 va;
      let prec := s32 w in
      Some (u32 (format + 1), va, flags, if prec >? 0 then u32 prec else 0)
    else Some (format, va, flags, 0)
  else Some (format, va, flags, 0).

(** On i686 [long], [ptrdiff_t] and [size_t] have 32 bits, [intmax_t] has 64. *)
Definition parse_length (rd : Z -> Z) (format flags : Z) : Z * Z :=
  let c := rd format in
  let next := u32 (format + 1) in
  if c =? chr "l" then
    let flags := set flags FLAGS_LONG in
    if rd next =? chr "l" then (u32 (next + 1), set flags FLAGS_LONG_LONG) else (next, flags)
  else if c =? chr "h" then
    let flags := set flags FLAGS_SHORT in
    if rd next =? chr "h" then (u32 (next + 1), set flags FLAGS_CHAR) else (next, flags)
  else if c =? chr "t" then (next, set flags FLAGS_LONG)
  else if c =? chr "j" then (next, set flags FLAGS_LONG_LONG)
  else if c =? chr "z" then (next, set flags FLAGS_LONG)
  else (format, flags).

(** ** The specifiers *)

Definition is_signed_spec (c : Z) : bool := (c =? chr "i") || (c =? chr "d").
Definition is_int_spec (c : Z) : bool :=
  (c =? chr "d") || (c =? chr "i") || (c =? chr "u") || (c =? chr "x") || (c =? chr "X") ||
  (c =? chr "o") || (c =? chr "b").

(** The base and the flags an integer specifier fixes. *)
Definition int_base (c : Z) : Z :=
  if (c =? chr "x") || (c =? chr "X") then 16
  else if c =? chr "o" then 8
  else if c =? chr "b" then 2
  else 10.
Definition int_flags (c flags : Z) : Z :=
  let flags := if int_base c =? 10 then unset flags FLAGS_HASH else flags in
  let flags := if c =? chr "X" then set flags FLAGS_UPPERCASE else flags in
  let flags := if negb (is_signed_spec c) then unset flags (Z.lor FLAGS_PLUS FLAGS_SPACE) else flags in
  if has flags FLAGS_PRECISION then unset flags FLAGS_ZEROPAD else flags.

(** Fetch the argument: its magnitude in the type it is converted to, and whether it is negative. *)
Definition int_arg (c flags : Z) (va : list Z) : option (Z * bool * list Z) :=
  if is_signed_spec c then
    if has flags FLAGS_LONG_LONG then
      '(w, va) ← va_arg64 va;
      let value := s64 w in
      Some (u64 (if value >? 0 then value else 0 - value), value <? 0, va)
    else if has flags FLAGS_LONG then
      '(w, va) ← va_arg32 va;
      let value := s32 w in
      Some (u32 (if value >? 0 then value else 0 - value), value <? 0, va)
    else
      '(w, va) ← va_arg32 va;
      let value := if has flags FLAGS_CHAR then s8 w else if has flags FLAGS_SHORT then s16 w else s32 w in
      Some (u32 (if value >? 0 then value else 0 - value), value <? 0, va)
  else if has flags FLAGS_LONG_LONG then
    '(w, va) ← va_arg64 va; Some (w, false, va)
  else if has flags FLAGS_LONG then
    '(w, va) ← va_arg32 va; Some (w, false, va)
  else
    '(w, va) ← va_arg32 va;
    Some (if has flags FLAGS_CHAR then u8 w else if has flags FLAGS_SHORT then u16 w else w, false, va).

Definition conv_int (c : Z) (flags width precision : Z) (va : list Z) (p : P) : option (list Z * P) :=
  let base := int_base c in
  let flags := int_flags c flags in
  '(value, negative, va) ← int_arg c flags va;
  Some (va, (if has flags FLAGS_LONG_LONG then _ntoa_long_long else _ntoa_long)
              value negative base precision width flags p).

Definition conv_char (flags width : Z) (va : list Z) (p : P) : option (list Z * P) :=
  let pad := Z.to_nat (width - 1) in
  let p := if negb (has flags FLAGS_LEFT) then put_n pad (chr " ") p else p in
  '(w, va) ← va_arg32 va;
  let p := put (u8 w) p in
  Some (va, if has flags FLAGS_LEFT then put_n pad (chr " ") p else p).

(** The output loop of %s. *)
Fixpoint put_string (fuel : nat) (s : Z) (flags precision : Z) (p : P) : option P :=
  match fuel with
  | O => None
  | S fuel =>
      if negb (peek p s =? 0) && (negb (has flags FLAGS_PRECISION) || negb (precision =? 0))
      then put_string fuel (u32 (s + 1)) flags
             (if has flags FLAGS_PRECISION then precision - 1 else precision) (put (peek p s) p)
      else Some p
  end.

Definition conv_string (fuel : nat) (flags width precision : Z) (va : list Z) (p : P)
    : option (list Z * P) :=
  '(s, va) ← va_arg32 va;
  l ← _strnlen_s fuel (peek p) s (if negb (precision =? 0) then precision else 0xFFFFFFFF);
  let l := if has flags FLAGS_PRECISION then (if l <? precision then l else precision) else l in
  let pad := Z.to_nat (width - l) in
  let p := if negb (has flags FLAGS_LEFT) then put_n pad (chr " ") p else p in
  p ← put_string fuel s flags precision p;
  Some (va, if has flags FLAGS_LEFT then put_n pad (chr " ") p else p).

Definition conv_pointer (flags precision : Z) (va : list Z) (p : P) : option (list Z * P) :=
  let width := 4 * 2 in
  let flags := set flags (Z.lor FLAGS_ZEROPAD FLAGS_UPPERCASE) in
  '(w, va) ← va_arg32 va;
  Some (va, _ntoa_long w false 16 precision width flags p).

Definition conv_float (fuel : nat) (c flags width precision : Z) (va : list Z) (p : P)
    : option (list Z * P) :=
  let flags := if c =? chr "F" then set flags FLAGS_UPPERCASE else flags in
  '(w, va) ← va_arg64 va;
  p ← _ftoa fuel (d_of_bits w) precision width flags p;
  Some (va, p).

Definition conv_exp (fuel : nat) (c flags width precision : Z) (va : list Z) (p : P)
    : option (list Z * P) :=
  let flags := if (c =? chr "g") || (c =? chr "G") then set flags FLAGS_ADAPT_EXP else flags in
  let flags := if (c =? chr "E") || (c =? chr "G") then set flags FLAGS_UPPERCASE else flags in
  '(w, va) ← va_arg64 va;
  p ← _etoa fuel (d_of_bits w) precision width flags p;
  Some (va, p).

(** The specifier switch; every case consumes one format character. *)
Definition conv (fuel : nat) (c flags width precision : Z) (va : list Z) (p : P)
    : option (list Z * P) :=
  if is_int_spec c then conv_int c flags width precision va p
  else if (c =? chr "f") || (c =? chr "F") then conv_float fuel c flags width precision va p
  else if (c =? chr "e") || (c =? chr "E") || (c =? chr "g") || (c =? chr "G") then
    conv_exp fuel c flags width precision va p
  else if c =? chr "c" then conv_char flags width va p
  else if c =? chr "s" then conv_string fuel flags width precision va p
  else if c =? chr "p" then conv_pointer flags precision va p
  else if c =? chr "%" then Some (va, put (chr "%") p)
  else Some (va, put c p).

(** One directive, [format] standing after its '%'. *)
Definition directive (fuel : nat) (format : Z) (va : list Z) (p : P) : option (Z * list Z * P) :=
  let rd := peek p in
  '(format, flags) ← parse_flags fuel rd format 0;
  '(format, va, flags, width) ← parse_width fuel rd format va flags;
  '(format, va, flags, precision) ← parse_precision fuel rd format va flags;
  let '(format, flags) := parse_length rd format flags in
  '(va, p) ← conv fuel (rd format) flags width precision va p;
  Some (u32 (format + 1), va, p).

Fixpoint vsn_loop (fuel : nat) (format : Z) (va : list Z) (p : P) : option P :=
  match fuel with
  | O => None
  | S fuel =>
      let c := peek p format in
      if c =? 0 then Some p
      else if negb (c =? chr "%") then vsn_loop fuel (u32 (format + 1)) va (put c p)
      else
        '(format, va, p) ← directive fuel (u32 (format + 1)) va p;
        vsn_loop fuel format va p
  end.

End Vsnprintf.

(** ** The entry points *)

Section Entry.
Context {D : Type} `{Double D}.

(** The returned [int] and the final state. *)
Definition _vsnprintf (fuel : nat) (out : out_fct_type) (buffer maxlen format : Z) (va : list Z)
    (s : PState) : option (Z * PState) :=
  let out := if buffer =? 0 then _out_null else out in
  '(s, idx) ← vsn_loop (H := mem_sink out buffer maxlen) fuel format va (s, 0);
  let s := out 0 buffer (if idx <? maxlen then idx else u32 (maxlen - 1)) maxlen s in
  Some (s32 idx, s).

Definition vsnprintf (fuel : nat) (buffer count format : Z) (va : list Z) (s : PState) :=
  _vsnprintf fuel _out_buffer buffer count format va s.

Definition sprintf (fuel : nat) (buffer format : Z) (va : list Z) (s : PState) :=
  _vsnprintf fuel _out_buffer buffer 0xFFFFFFFF format va s.

Definition snprintf (fuel : nat) (buffer count format : Z) (va : list Z) (s : PState) :=
  _vsnprintf fuel _out_buffer buffer count format va s.

End Entry.

(** ** IEEE binary64 *)

Definition b64_of_bits (w : Z) : spec_float :=
  let s := Z.testbit w 63 in
  let e := Z.land (Z.shiftr w 52) 0x7FF in
  let m := Z.land w (2 ^ 52 - 1) in
  if e =? 0 then match m with Z.pos m => S754_finite s m (-1074) | _ => S754_zero s end
  else if e =? 2047 then (if m =? 0 then S754_infinity s else S754_nan)
  else S754_finite s (Z.to_pos (m + 2 ^ 52)) (e - 1075).

Definition b64_to_bits (x : spec_float) : Z :=
  let sign (s : bool) := if s then 2 ^ 63 else 0 in
  match x with
  | S754_zero s => sign s
  | S754_infinity s => sign s + 2047 * 2 ^ 52
  | S754_nan => 4095 * 2 ^ 51
  | S754_finite s m e =>
      if Z.pos m <? 2 ^ 52 then sign s + Z.pos m
      else sign s + (e + 1075) * 2 ^ 52 + (Z.pos m - 2 ^ 52)
  end.

Definition b64_trunc (x : spec_float) : Z :=
  match x with
  | S754_finite s m e => let a := Z.shiftl (Z.pos m) e in if s then - a else a
  | _ => 0
  end.

#[export] Instance b64 : Double spec_float := {
  d_of_bits := b64_of_bits;
  d_to_bits := b64_to_bits;
  d_of_Z x := binary_normalize 53 1024 x 0 false;
  d_trunc := b64_trunc;
  d_add := SFadd 53 1024;
  d_sub := SFsub 53 1024;
  d_mul := SFmul 53 1024;
  d_div := SFdiv 53 1024;
  d_opp := SFopp;
  d_lt := SFltb;
  d_le := SFleb;
  d_eq := SFeqb
}.

End Printf.
