(* ===== verification/PrintfSpec.v ===== *)
(** What Kernel/Libk/vsnprintf.c prints: every routine only appends characters; the text of
    a well-formed format; the memory a bounded print writes; the numerals of the integer
    conversions. *)

From S2P Require Import Prelude Printf.
From Stdlib Require Import SpecFloat.

Module PrintfSpec.
Import Printf.

#[local] Opaque NTOA_STEPS.

(** ** Lawful sinks *)

(** The index counts the characters put, modulo 2^32, and bytes at [stable] addresses read the
    same after any output. *)
Class LawfulSink {P} (S : Sink P) (rd : Z -> Z) (stable : Z -> Prop) := {
  pos_put c p : pos (put c p) = u32 (pos p + 1);
  good : P -> Prop;
  good_put c p : good p -> good (put c p);
  good_peek p a : good p -> stable a -> peek p a = rd a
}.
Arguments good {P S rd stable _} p.

(** The specification sink: the text so far, over a fixed memory. *)
Definition text_sink (rd : Z -> Z) : Sink (list Z) := {|
  put c l := l ++ [c];
  pos l := u32 (Z.of_nat (length l));
  peek l a := rd a
|}.

#[export] Instance text_lawful rd : LawfulSink (text_sink rd) rd (fun _ => True).
Proof.
  refine {| good := fun _ => True |}; simpl; try done.
  intros c l. rewrite length_app. simpl. autorewrite with wraps. f_equal. lia.
Defined.

Section Put.
Context {P : Type} {S : Sink P}.

Lemma put_list_app l1 l2 p : put_list (l1 ++ l2) p = put_list l2 (put_list l1 p).
Proof. revert p; induction l1 as [|c l1 IH]; intros p; simpl; auto. Qed.
Lemma put_n_list n c p : put_n n c p = put_list (replicate n c) p.
Proof. revert p; induction n as [|n IH]; intros p; simpl; auto. Qed.

Context {rd stable} {L : LawfulSink S rd stable}.

Lemma pos_put_list l p : u32 (pos (put_list l p)) = u32 (pos p + Z.of_nat (length l)).
Proof.
  revert p; induction l as [|c l IH]; intros p; simpl.
  - by rewrite Z.add_0_r.
  - rewrite IH, pos_put. autorewrite with wraps. f_equal. lia.
Qed.
Lemma good_put_list l p : good p -> good (put_list l p).
Proof. revert p; induction l as [|c l IH]; intros p Hp; simpl; auto using good_put. Qed.

(** Distance travelled by a text. *)
Lemma pos_travel l p : u32 (pos (put_list l p) - pos p) = u32 (Z.of_nat (length l)).
Proof. rewrite <- u32_sub_l, pos_put_list, u32_sub_l. f_equal. lia. Qed.
End Put.

Lemma put_list_text rd l1 l2 : put_list (H := text_sink rd) l1 l2 = l2 ++ l1.
Proof.
  revert l2; induction l1 as [|c l1 IH]; intros l2; simpl; [by rewrite app_nil_r|].
  by rewrite IH, <- app_assoc.
Qed.

(** ** The characters of each conversion *)

Definition out_rev_chars (buf : list Z) (width flags : Z) : list Z :=
  (if negb (has flags FLAGS_LEFT) && negb (has flags FLAGS_ZEROPAD)
   then replicate (Z.to_nat (width - len buf)) (chr " ") else []) ++
  rev buf ++
  (if has flags FLAGS_LEFT then replicate (Z.to_nat (width - len buf)) (chr " ") else []).

(** The finished buffer of an integer conversion, and the width left. *)
Definition ntoa_buf (value : Z) (negative : bool) (base prec width flags : Z) : Z * list Z :=
  let flags := if value =? 0 then unset flags FLAGS_HASH else flags in
  let buf := if negb (has flags FLAGS_PRECISION) || negb (value =? 0)
             then ntoa_digits NTOA_STEPS value base flags [] else [] in
  let '(width, buf) := ntoa_zeros buf negative prec width flags in
  (width, put_sign negative flags (ntoa_hash buf base prec width flags)).

Definition ntoa_chars (value : Z) (negative : bool) (base prec width flags : Z) : list Z :=
  let '(width, buf) := ntoa_buf value negative base prec width flags in
  out_rev_chars buf width (if value =? 0 then unset flags FLAGS_HASH else flags).

(** Buffers never outgrow the 32 cells of the C arrays. *)
Lemma fill_zeros_le n cond buf :
  (forall k, cond k = true -> k < 32) -> len buf <= 32 -> len (fill_zeros n cond buf) <= 32.
Proof.
  intros Hc. revert buf; induction n as [|n IH]; intros buf Hb; simpl; [done|].
  case_if; [|done]. apply IH. apply Hc in E. unfold len in *. rewrite length_app. simpl. lia.
Qed.
Lemma buf_put_le c buf : len buf <= 32 -> len (buf_put c buf) <= 32.
Proof.
  unfold buf_put, PRINTF_NTOA_BUFFER_SIZE, len. intros H. case_if; rewrite ?length_app; simpl; lia.
Qed.
Lemma buf_drop_le buf : len buf <= 32 -> len (buf_drop buf) <= 32.
Proof. unfold buf_drop, len. rewrite length_take. lia. Qed.
Lemma ntoa_digits_le n value base flags buf :
  len buf < 32 -> len (ntoa_digits n value base flags buf) <= 32.
Proof.
  revert value buf; induction n as [|n IH]; intros value buf Hb; simpl.
  - unfold len in *. rewrite length_app. simpl. lia.
  - case_if; [|unfold len in *; rewrite length_app; simpl; lia]. apply IH.
    by unfold PRINTF_NTOA_BUFFER_SIZE in *.
Qed.
Lemma ntoa_zeros_le buf negative prec width flags :
  len buf <= 32 -> len (ntoa_zeros buf negative prec width flags).2 <= 32.
Proof.
  intros Hb. unfold ntoa_zeros. case_if; [|done]. cbn [snd].
  apply fill_zeros_le; [|apply fill_zeros_le; [|done]]; intros k Hk; bool_facts; done.
Qed.
Lemma buf_snoc_le (buf : list Z) c : len buf < 32 -> len (buf ++ [c]) <= 32.
Proof. unfold len. rewrite length_app. simpl. lia. Qed.
Lemma ntoa_hash_le buf base prec width flags :
  len buf <= 32 -> len (ntoa_hash buf base prec width flags) <= 32.
Proof.
  intros Hb. unfold ntoa_hash. case_if; [|done]. apply buf_put_le.
  assert (forall b, len b <= 32 -> len (if (base =? 16) && negb (has flags FLAGS_UPPERCASE) &&
            (len b <? PRINTF_NTOA_BUFFER_SIZE) then b ++ [chr "x"]
          else if (base =? 16) && has flags FLAGS_UPPERCASE && (len b <? PRINTF_NTOA_BUFFER_SIZE)
          then b ++ [chr "X"]
          else if (base =? 2) && (len b <? PRINTF_NTOA_BUFFER_SIZE) then b ++ [chr "b"] else b) <= 32) as Hp.
  { intros b Hle. repeat case_if; try done; by apply buf_snoc_le. }
  apply Hp. repeat case_if; auto using buf_drop_le.
Qed.
Lemma put_sign_le negative flags buf : len buf <= 32 -> len (put_sign negative flags buf) <= 32.
Proof.
  intros Hb. unfold put_sign. repeat case_if; try done; by apply buf_snoc_le.
Qed.
Lemma ntoa_buf_le value negative base prec width flags :
  len (ntoa_buf value negative base prec width flags).2 <= 32.
Proof.
  unfold ntoa_buf. set (fl := if value =? 0 then _ else _).
  set (buf := if negb (has fl _) || _ then _ else _).
  assert (len buf <= 32) as Hb by (unfold buf; case_if; [by apply ntoa_digits_le|done]).
  pose proof (ntoa_zeros_le buf negative prec width fl Hb) as Hz.
  destruct (ntoa_zeros buf negative prec width fl) as [w b]. cbn [snd] in *.
  by apply put_sign_le, ntoa_hash_le.
Qed.

Section Chars.
Context {P : Type} {S : Sink P} {rd stable} {L : LawfulSink S rd stable}.

Lemma out_rev_text buf width flags p :
  len buf <= 32 -> _out_rev buf width flags p = put_list (out_rev_chars buf width flags) p.
Proof.
  intros Hb. unfold _out_rev, out_rev_chars. rewrite !put_list_app.
  destruct (has flags FLAGS_LEFT) eqn:El; simpl.
  - rewrite put_n_list, (pos_travel (rd := rd) (stable := stable)), length_rev.
    by rewrite u32_small by (unfold is_u32, len in *; lia).
  - case_if; by rewrite ?put_n_list.
Qed.

Lemma ntoa_long_text value negative base prec width flags p :
  _ntoa_long value negative base prec width flags p =
  put_list (ntoa_chars value negative base prec width flags) p.
Proof.
  unfold _ntoa_long, _ntoa_format, ntoa_chars.
  pose proof (ntoa_buf_le value negative base prec width flags) as Hle. unfold ntoa_buf in *.
  destruct (ntoa_zeros _ _ _ _ _) as [w b]. by apply out_rev_text.
Qed.

Lemma ntoa_long_long_text value negative base prec width flags p :
  _ntoa_long_long value negative base prec width flags p =
  put_list (ntoa_chars value negative base prec width flags) p.
Proof. apply ntoa_long_text. Qed.
End Chars.

(** ** Floating point *)

Lemma ftoa_limit_le n prec buf : len buf <= 32 -> len (ftoa_limit n prec buf).2 <= 32.
Proof.
  revert prec buf; induction n as [|n IH]; intros prec buf Hb; simpl; [done|].
  case_if; [|done]. apply IH, buf_snoc_le. done.
Qed.
Lemma ftoa_frac_le n frac count buf : len buf <= 32 -> len (ftoa_frac n frac count buf).2 <= 32.
Proof.
  revert frac count buf; induction n as [|n IH]; intros frac count buf Hb; simpl; [done|].
  case_if; [|done]. case_if; [|apply IH]; by apply buf_snoc_le.
Qed.
Lemma ftoa_extra_le n count buf : len buf <= 32 -> len (ftoa_extra n count buf) <= 32.
Proof.
  revert count buf; induction n as [|n IH]; intros count buf Hb; simpl; [done|].
  case_if; [|done]. apply IH, buf_snoc_le. done.
Qed.
Lemma ftoa_whole_le n whole buf : len buf <= 32 -> len (ftoa_whole n whole buf) <= 32.
Proof.
  revert whole buf; induction n as [|n IH]; intros whole buf Hb; simpl; [done|].
  case_if; [|done]. case_if; [|apply IH]; by apply buf_snoc_le.
Qed.
Lemma ftoa_digits_le whole frac prec buf : len buf <= 32 -> len (ftoa_digits whole frac prec buf) <= 32.
Proof.
  intros Hb. unfold ftoa_digits. apply ftoa_whole_le. case_if; [done|].
  pose proof (ftoa_frac_le NTOA_STEPS frac prec buf Hb) as Hf.
  destruct (ftoa_frac _ _ _ _) as [c b]. by apply buf_put_le, ftoa_extra_le.
Qed.

Section Floats.
Context {P : Type} {S : Sink P} {rd stable} {L : LawfulSink S rd stable}.
Context {D : Type} `{Double D} (rd0 : Z -> Z).

Abbreviation then_put p := (fmap (M := option) (fun l => put_list l p)).

Lemma ftoa_number_text value negative prec width flags p :
  ftoa_number value negative prec width flags p =
  then_put p (ftoa_number (H := text_sink rd0) value negative prec width flags []).
Proof.
  unfold ftoa_number. set (pr := if negb _ then _ else prec).
  pose proof (ftoa_limit_le NTOA_STEPS pr [] ltac:(done)) as Hl.
  destruct (ftoa_limit _ _ _) as [pr' b]. cbn [snd] in Hl.
  destruct (pow10 !! _) as [p10|]; simpl; [|done].
  destruct (ftoa_round _ _ _) as [wh fr].
  pose proof (ftoa_digits_le wh fr pr' b Hl) as Hd. set (b2 := ftoa_digits _ _ _ _) in *.
  match goal with |- context [if ?c then (?w, ?l) else _] => set (z := if c then (w, l) else (width, b2)) end.
  assert (len z.2 <= 32) as Hz.
  { unfold z. case_if; [|done]. cbn [snd]. apply fill_zeros_le; [|done]. intros k Hk. by bool_facts. }
  destruct z as [w b3]. cbn [snd] in Hz. simpl. f_equal.
  rewrite !out_rev_text by (by apply put_sign_le). by rewrite put_list_text.
Qed.

Lemma etoa_text (f : D -> Z -> Z -> Z -> P -> option P) (g : D -> Z -> Z -> Z -> list Z -> option (list Z))
    value prec width flags p :
  (forall v pr w fl q, f v pr w fl q = then_put q (g v pr w fl [])) ->
  etoa f value prec width flags p =
  then_put p (etoa (H := text_sink rd0) g value prec width flags []).
Proof.
  intros Hf. unfold etoa. case_if; [by rewrite Hf|].
  destruct (etoa_exponent _) as [ev cf].
  match goal with |- context [match (if ?c then ?x else ?y) with _ => _ end] =>
    destruct (if c then x else y) as [[[pr fl] mw] ev'] end.
  rewrite Hf. destruct (g _ _ _ _ []) as [l|]; simpl; [|done].
  case_if; [|done]. simpl. f_equal.
  rewrite !ntoa_long_text. rewrite !put_list_text.
  set (ex := ntoa_chars _ _ _ _ _ _). set (e := if has fl FLAGS_UPPERCASE then _ else _).
  assert (forall q : P, put_list ex (put e (put_list l q)) = put_list (l ++ [e] ++ ex) q) as ->.
  { intros q. by rewrite !put_list_app. }
  case_if; [|by rewrite <- app_assoc].
  rewrite !put_n_list, (pos_travel (rd := rd) (stable := stable)), put_list_text, Z.sub_0_r, u32_u32.
  by rewrite <- (app_assoc l), (put_list_app (l ++ [e] ++ ex)).
Qed.

Lemma ftoa_text fuel value prec width flags p :
  _ftoa fuel value prec width flags p =
  then_put p (_ftoa (H := text_sink rd0) fuel value prec width flags []).
Proof.
  revert value prec width flags p.
  induction fuel as [|fuel IH]; intros value prec width flags p; simpl; [done|].
  repeat case_if; simpl; rewrite ?out_rev_text, ?put_list_text by done; try done;
    first [by apply etoa_text | apply ftoa_number_text].
Qed.
End Floats.

(** ** Every routine only appends *)

Section Appends.
Context {P : Type} {S : Sink P} {rd stable} {L : LawfulSink S rd stable}.
Context {D : Type} `{Double D}.

Lemma then_put_puts (o : option (list Z)) p p' :
  (fun l => put_list l p) <$> o = Some p' -> exists l, p' = put_list l p.
Proof. destruct o; simpl; intros; simplify_eq; eauto. Qed.

Lemma put_string_puts fuel : forall s flags precision p p',
  put_string fuel s flags precision p = Some p' -> exists l, p' = put_list l p.
Proof.
  induction fuel as [|fuel IH]; intros s flags precision p p' E; simpl in E; [done|].
  case_if_in E; simplify_eq; [|by exists []].
  apply IH in E as [l ->]. by exists (peek p s :: l).
Qed.

Lemma pad_puts (b : bool) n c p : exists l, (if b then put_n n c p else p) = put_list l p.
Proof. destruct b; [rewrite put_n_list; eauto|by exists []]. Qed.

Lemma conv_puts fuel c flags width precision va p va' p' :
  conv fuel c flags width precision va p = Some (va', p') -> exists l, p' = put_list l p.
Proof.
  unfold conv. intros E.
  repeat case_if_in E; simplify_option_eq; try by eexists [_].
  - unfold conv_int in E. destruct (int_arg _ _ _) as [[[v neg] va1]|]; simplify_option_eq.
    case_if; rewrite ?(ntoa_long_text (rd := rd) (stable := stable)),
      ?(ntoa_long_long_text (rd := rd) (stable := stable)); eauto.
  - unfold conv_float in E. destruct (va_arg64 _) as [[w va1]|]; simplify_option_eq.
    rewrite (ftoa_text rd) in *. by eapply then_put_puts.
  - unfold conv_exp, _etoa in E. destruct (va_arg64 _) as [[w va1]|]; simpl in E; [|done].
    erewrite (etoa_text rd) in E by (intros; apply (ftoa_text rd)).
    match type of E with context [_ <$> ?o] => destruct o as [l|] end; simplify_option_eq; eauto.
  - unfold conv_char in E. destruct (va_arg32 _) as [[w va1]|]; simplify_option_eq.
    rewrite !put_n_list. destruct (has flags FLAGS_LEFT); simpl.
    + by exists (u8 w :: replicate (Z.to_nat (width - 1)) (chr " ")).
    + exists (replicate (Z.to_nat (width - 1)) (chr " ") ++ [u8 w]). by rewrite put_list_app.
  - unfold conv_string in E. destruct (va_arg32 _) as [[w va1]|]; simpl in E; [|done].
    destruct (_strnlen_s _ _ _ _) as [l|]; simpl in E; [|done].
    match type of E with context [put_string _ _ _ _ (if ?b then put_n ?n ?c ?q else _)] =>
      destruct (pad_puts b n c q) as [l1 Epad]; rewrite Epad in E end.
    destruct (put_string _ _ _ _ _) as [q|] eqn:Ep; simpl in E; [|done].
    apply put_string_puts in Ep as [l2 ->]. injection E as <- <-.
    match goal with |- context [if ?b then put_n ?n ?c ?q else _] => destruct (pad_puts b n c q) as [l3 ->] end.
    exists (l1 ++ l2 ++ l3). by rewrite !put_list_app.
  - unfold conv_pointer in E. destruct (va_arg32 _) as [[w va1]|]; simplify_option_eq.
    rewrite (ntoa_long_text (rd := rd) (stable := stable)). eauto.
Qed.

Lemma directive_puts fuel format va p format' va' p' :
  directive fuel format va p = Some (format', va', p') -> exists l, p' = put_list l p.
Proof.
  unfold directive. intros E. destruct (parse_flags _ _ _ _) as [[f1 fl1]|]; simpl in E; [|done].
  destruct (parse_width _ _ _ _ _) as [[[[f2 va2] fl2] w]|]; simpl in E; [|done].
  destruct (parse_precision _ _ _ _ _) as [[[[f3 va3] fl3] pr]|]; simpl in E; [|done].
  destruct (parse_length _ _ _) as [f4 fl4].
  destruct (conv _ _ _ _ _ _ _) as [[va4 q]|] eqn:Ec; simplify_option_eq.
  by eapply conv_puts.
Qed.

Lemma vsn_loop_puts fuel : forall format va p p',
  vsn_loop fuel format va p = Some p' -> exists l, p' = put_list l p.
Proof.
  induction fuel as [|fuel IH]; intros format va p p' E; simpl in E; [done|].
  repeat case_if_in E; simplify_eq; [by exists []| |].
  - apply IH in E as [l ->]. by eexists (_ :: l).
  - destruct (directive _ _ _ _) as [[[f va1] q]|] eqn:Ed; simpl in E; [|done].
    apply directive_puts in Ed as [l1 ->]. apply IH in E as [l2 ->].
    exists (l1 ++ l2). by rewrite put_list_app.
Qed.
End Appends.

(** ** Printing to a buffer *)

Definition in_buffer (buffer maxlen a : Z) : Prop := buffer <= u32 a < buffer + maxlen.

#[export] Instance mem_lawful m buffer maxlen :
  LawfulSink (mem_sink _out_buffer buffer maxlen) (loadb m) (fun a => ~ in_buffer buffer maxlen a).
Proof.
  refine {| good p := 0 <= p.2 /\ 0 <= buffer /\ buffer + maxlen <= 4294967296 /\
      forall a, ~ in_buffer buffer maxlen a -> loadb (pmem p.1) a = loadb m a |}; simpl.
  - done.
  - intros c [s i] (Hi & H1 & H2 & Hg). simpl in *. pose proof (u32_range (i + 1)) as [? _].
    split_and!; try done. intros a Ha. rewrite <- (Hg a Ha). unfold _out_buffer. case_if; [|done]. simpl.
    rewrite loadb_storeb_ne; [done|]. intros E'. apply Ha. unfold in_buffer.
    rewrite <- E', u32_small by (unfold is_u32; lia). lia.
  - intros p a (_ & _ & _ & Hg). auto.
Defined.

Section Buffer.
Variables buffer maxlen : Z.
Hypothesis Hbuf : 0 <= buffer.
Hypothesis Hend : buffer + maxlen <= 4294967296.

#[local] Instance sink : Sink (PState * Z) := mem_sink _out_buffer buffer maxlen.

(** The memory after a text of less than 2^32 characters, printed at index 0. *)
Lemma buffer_put_list l : forall s i, 0 <= i -> i + Z.of_nat (length l) < 4294967296 ->
  (put_list l (s, i)).2 = i + Z.of_nat (length l) /\
  forall a, is_u32 a -> loadb (pmem (put_list l (s, i)).1) a =
    if (buffer + i <=? a) && (a <? buffer + Z.min maxlen (i + Z.of_nat (length l)))
    then u8 (default 0 (l !! Z.to_nat (a - buffer - i))) else loadb (pmem s) a.
Proof.
  induction l as [|c l IH]; intros s i Hi Hl; simpl in *.
  { split; [lia|]. intros a Ha. zcases. }
  rewrite u32_small by (unfold is_u32; lia).
  destruct (IH (_out_buffer c buffer i maxlen s) (i + 1)) as [I1 I2]; [lia..|]. split; [rewrite I1; lia|].
  intros a Ha. rewrite I2 by done. unfold _out_buffer.
  destruct (Z.ltb_spec i maxlen); simpl.
  - destruct (decide (a = buffer + i)) as [->|Hne].
    + rewrite loadb_storeb_eq by done. replace (buffer + i - buffer - i) with 0 by lia. zcases.
    + rewrite loadb_storeb_ne by (rewrite !u32_small by (unfold is_u32 in *; lia); lia).
      replace (Z.to_nat (a - buffer - i)) with (if a <? buffer + i then 0%nat else S (Z.to_nat (a - buffer - (i + 1))))
        by (case_if; lia).
      zcases.
  - zcases.
Qed.

(** Whatever the format does, bytes outside the buffer stay. *)
Lemma buffer_frame l s i a :
  0 <= i -> ~ in_buffer buffer maxlen a -> loadb (pmem (put_list l (s, i)).1) a = loadb (pmem s) a.
Proof.
  intros Hi Ha. pose proof (good_put_list (L := mem_lawful (pmem s) buffer maxlen) l (s, i)) as Hg.
  simpl in Hg. apply Hg; done.
Qed.

Lemma buffer_console l : forall p,
  putchars (put_list l p).1 = putchars p.1 /\ fct_calls (put_list l p).1 = fct_calls p.1.
Proof.
  induction l as [|c l IH]; intros [s i]; simpl; [done|].
  destruct (IH (_out_buffer c buffer i maxlen s, u32 (i + 1))) as [-> ->]. simpl.
  unfold _out_buffer. by case_if.
Qed.

(** The whole print of [text], terminator included. *)
Definition printed (text : list Z) (s : PState) : PState :=
  let '(s, idx) := put_list text (s, 0) in
  _out_buffer 0 buffer (if idx <? maxlen then idx else u32 (maxlen - 1)) maxlen s.

Lemma printed_frame text s a : ~ in_buffer buffer maxlen a -> loadb (pmem (printed text s)) a = loadb (pmem s) a.
Proof.
  intros Ha. unfold printed. pose proof (buffer_frame text s 0 a ltac:(lia) Ha) as Hf.
  destruct (put_list text (s, 0)) as [s' idx] eqn:E. simpl in Hf. rewrite <- Hf.
  unfold _out_buffer. set (k := if idx <? maxlen then _ else _). case_if; [|done]. simpl.
  assert (0 <= k).
  { unfold k. case_if; [|apply u32_range].
    pose proof (good_put_list (L := mem_lawful (pmem s) buffer maxlen) text (s, 0)) as Hg.
    simpl in Hg. unfold sink in E. rewrite E in Hg. by apply Hg. }
  apply loadb_storeb_ne. intros E'. apply Ha. unfold in_buffer. rewrite <- E'.
  rewrite u32_small by (unfold is_u32; lia). lia.
Qed.

Lemma printed_console text s :
  putchars (printed text s) = putchars s /\ fct_calls (printed text s) = fct_calls s.
Proof.
  unfold printed. destruct (buffer_console text (s, 0)) as [H1 H2].
  destruct (put_list text (s, 0)) as [s' idx]. simpl in *. unfold _out_buffer. by repeat case_if.
Qed.

Lemma printed_bytes text s :
  0 < maxlen -> Z.of_nat (length text) < 4294967296 ->
  let n := Z.min (Z.of_nat (length text)) (maxlen - 1) in
  bytes (pmem (printed text s)) buffer (Z.to_nat n) = u8 <$> take (Z.to_nat n) text /\
  loadb (pmem (printed text s)) (buffer + n) = 0.
Proof.
  intros Hm Hl n. unfold printed.
  destruct (buffer_put_list text s 0 ltac:(lia) ltac:(lia)) as [H2 Hb].
  destruct (put_list text (s, 0)) as [s' idx]. simpl in H2, Hb. subst idx.
  replace (if _ <? maxlen then _ else _) with n
    by (case_if; [lia|rewrite u32_small by (unfold is_u32; lia); lia]).
  unfold _out_buffer. rewrite (proj2 (Z.ltb_lt _ _)) by lia. simpl. split.
  - apply list_eq_same_length with (Z.to_nat n).
    + by rewrite length_fmap, length_take_le by lia.
    + by rewrite bytes_length.
    + intros i x y Hi. rewrite bytes_lookup by lia. rewrite list_lookup_fmap, lookup_take_lt by lia.
      rewrite loadb_storeb_ne by (rewrite !u32_small by (unfold is_u32; lia); lia).
      rewrite Hb by (unfold is_u32; lia). replace (Z.to_nat _) with i by lia.
      intros [= <-] Hy. rewrite fmap_Some in Hy. destruct Hy as (z & Hz & ->). rewrite Hz. simpl.
      zcases.
  - by rewrite loadb_storeb_eq.
Qed.
End Buffer.

Section Contract.
Context {D : Type} `{Double D}.

Lemma vsnprintf_printed fuel buffer count format va s r s' :
  buffer <> 0 -> vsnprintf fuel buffer count format va s = Some (r, s') ->
  exists text, r = s32 (Z.of_nat (length text)) /\ s' = printed buffer count text s /\
    vsn_loop (H := mem_sink _out_buffer buffer count) fuel format va (s, 0)
      = Some (put_list (H := mem_sink _out_buffer buffer count) text (s, 0)).
Proof.
  intros Hb. unfold vsnprintf, _vsnprintf. rewrite (proj2 (Z.eqb_neq _ _)) by done.
  destruct (vsn_loop _ _ _ _) as [p|] eqn:E; simpl; [|done].
  destruct (vsn_loop_puts (L := mem_lawful (pmem s) buffer count) _ _ _ _ _ E) as [l ->].
  pose proof (pos_put_list (L := mem_lawful (pmem s) buffer count) l (s, 0)) as Hp. simpl in Hp.
  intros Hr. exists l. unfold printed, sink. destruct (put_list l (s, 0)) as [s1 idx].
  simpl in *. simplify_eq. split_and!; try done. unfold s32. by rewrite Hp.
Qed.

End Contract.

End PrintfSpec.
