(* ===== verification/PrintfFormat.v ===== *)
(** The format language of Kernel/Libk/vsnprintf.c: its grammar as data, what each directive
    prints, and that the directive parser reads every well-formed format that way. *)

From S2P Require Import Prelude Printf PrintfSpec.
From Stdlib Require Import SpecFloat.

Module PrintfFormat.
Import Printf PrintfSpec.

#[local] Opaque NTOA_STEPS.

(** ** Formats as data *)

(** A width or precision: left out, written in digits, or taken from the arguments. *)
Inductive field := Absent | Number (digits : list Z) | Star.

Record spec := MkSpec {
  sp_flags : list Z;
  sp_width : field;
  sp_prec : option field;
  sp_len : list Z;
  sp_conv : Z
}.

Inductive piece := Lit (c : Z) | Dir (d : spec).

Definition show_field (f : field) : list Z :=
  match f with Absent => [] | Number ds => ds | Star => [chr "*"] end.
Definition show_spec (d : spec) : list Z :=
  sp_flags d ++ show_field (sp_width d) ++
  match sp_prec d with None => [] | Some f => chr "." :: show_field f end ++
  sp_len d ++ [sp_conv d].
Definition show_piece (x : piece) : list Z :=
  match x with Lit c => [c] | Dir d => chr "%" :: show_spec d end.
Definition show (ps : list piece) : list Z := mjoin (show_piece <$> ps).

Definition is_flag (c : Z) : bool := bool_decide (is_Some (flag_of c)).
Definition lengths : list (list Z) :=
  [str ""; str "l"; str "ll"; str "h"; str "hh"; str "t"; str "j"; str "z"].
Definition conversions : list Z := str "diuxXobfFeEgGcsp%".

(** Digit fields are nonempty; a width does not start with the flag '0'. *)
Definition digit_char (c : Z) : bool := (chr "0" <=? c) && (c <=? chr "9").
Definition wf_field (f : field) : bool :=
  match f with Number ds => negb (bool_decide (ds = [])) && forallb digit_char ds | _ => true end.
Definition wf_spec (d : spec) : bool :=
  forallb is_flag (sp_flags d) && wf_field (sp_width d) &&
  match sp_width d with Number (c :: _) => negb (c =? chr "0") | _ => true end &&
  match sp_prec d with Some f => wf_field f | None => true end &&
  bool_decide (sp_len d ∈ lengths) && bool_decide (sp_conv d ∈ conversions).

(** ** What a directive asks for *)

Definition number (ds : list Z) : Z := fold_left (fun i d => u32 (i * 10 + (d - chr "0"))) ds 0.
Definition flags_value (fs : list Z) : Z :=
  fold_left (fun fl c => set fl (default 0 (flag_of c))) fs 0.

Definition width_value (f : field) (flags : Z) (va : list Z) : option (list Z * Z * Z) :=
  match f with
  | Absent => Some (va, flags, 0)
  | Number ds => Some (va, flags, number ds)
  | Star =>
      '(w, va) ← va_arg32 va;
      Some (if s32 w <? 0 then (va, set flags FLAGS_LEFT, u32 (- s32 w)) else (va, flags, w))
  end.
Definition prec_value (f : option field) (flags : Z) (va : list Z) : option (list Z * Z * Z) :=
  match f with
  | None => Some (va, flags, 0)
  | Some Absent => Some (va, set flags FLAGS_PRECISION, 0)
  | Some (Number ds) => Some (va, set flags FLAGS_PRECISION, number ds)
  | Some Star =>
      '(w, va) ← va_arg32 va; Some (va, set flags FLAGS_PRECISION, Z.max 0 (s32 w))
  end.
Definition length_flags (l : list Z) (flags : Z) : Z :=
  if bool_decide (l = str "l") then set flags FLAGS_LONG
  else if bool_decide (l = str "ll") then set (set flags FLAGS_LONG) FLAGS_LONG_LONG
  else if bool_decide (l = str "h") then set flags FLAGS_SHORT
  else if bool_decide (l = str "hh") then set (set flags FLAGS_SHORT) FLAGS_CHAR
  else if bool_decide (l = str "t") then set flags FLAGS_LONG
  else if bool_decide (l = str "j") then set flags FLAGS_LONG_LONG
  else if bool_decide (l = str "z") then set flags FLAGS_LONG
  else flags.

(** Remaining arguments, flags, width, precision. *)
Definition spec_values (d : spec) (va : list Z) : option (list Z * Z * Z * Z) :=
  '(va, flags, width) ← width_value (sp_width d) (flags_value (sp_flags d)) va;
  '(va, flags, precision) ← prec_value (sp_prec d) flags va;
  Some (va, length_flags (sp_len d) flags, width, precision).

(** ** Reading a text from memory *)

Fixpoint reads (rd : Z -> Z) (a : Z) (l : list Z) : Prop :=
  match l with [] => True | c :: l => rd a = c /\ reads rd (a + 1) l end.

Lemma reads_app rd a l1 l2 :
  reads rd a (l1 ++ l2) <-> reads rd a l1 /\ reads rd (a + Z.of_nat (length l1)) l2.
Proof.
  revert a; induction l1 as [|c l1 IH]; intros a; cbn [app reads length].
  - rewrite Z.add_0_r. tauto.
  - rewrite IH. replace (a + 1 + Z.of_nat (length l1)) with (a + Z.of_nat (S (length l1))) by lia.
    tauto.
Qed.

Lemma digit_char_ok c : digit_char c = true -> _is_digit c = true /\ 48 <= c <= 57 /\ s8 c = c.
Proof.
  unfold digit_char, _is_digit. change (chr "0") with 48. change (chr "9") with 57. intros H. bool_facts.
  assert (s8 c = c) as -> by (unfold s8; rewrite u8_small by (unfold is_u8; lia); case_if; lia).
  split_and!; lia.
Qed.

Lemma parse_flags_ok rd fs c rest : forall fuel a flags,
  reads rd a (fs ++ c :: rest) -> forallb is_flag fs = true -> flag_of c = None ->
  0 <= a -> a + Z.of_nat (length fs) < 4294967296 -> (length fs < fuel)%nat ->
  parse_flags fuel rd a flags =
  Some (a + Z.of_nat (length fs), fold_left (fun fl c => set fl (default 0 (flag_of c))) fs flags).
Proof.
  induction fs as [|f fs IH]; intros fuel a flags Hr Hf Hc Ha Hl Hn; simpl in *;
    (destruct fuel as [|fuel]; [lia|]); simpl; destruct Hr as [-> Hr].
  - rewrite Hc. by rewrite Z.add_0_r.
  - apply andb_true_iff in Hf as [Hf1 Hf]. apply bool_decide_eq_true in Hf1 as [v Hv]. rewrite Hv. simpl.
    rewrite u32_small by (unfold is_u32; lia). rewrite IH by (auto; lia). do 2 f_equal. lia.
Qed.

Lemma atoi_loop_ok rd ds c rest : forall fuel a i,
  reads rd a (ds ++ c :: rest) -> forallb digit_char ds = true -> _is_digit c = false ->
  0 <= a -> a + Z.of_nat (length ds) < 4294967296 -> (length ds < fuel)%nat ->
  atoi_loop fuel rd i a =
  Some (fold_left (fun i d => u32 (i * 10 + (d - chr "0"))) ds i, a + Z.of_nat (length ds)).
Proof.
  induction ds as [|d ds IH]; intros fuel a i Hr Hd Hc Ha Hl Hn; simpl in *;
    (destruct fuel as [|fuel]; [lia|]); simpl; destruct Hr as [-> Hr].
  - rewrite Hc. by rewrite Z.add_0_r.
  - apply andb_true_iff in Hd as [(-> & Hdr & ->)%digit_char_ok Hd].
    rewrite (u32_small (a + 1)), (u32_small (d - chr "0")) by (change (chr "0") with 48; unfold is_u32; lia).
    rewrite IH by (auto; lia). do 2 f_equal. lia.
Qed.

(** No conversion letter is a flag, a digit, '*', '.' or a length letter. *)
Definition plain (c : Z) : bool :=
  negb (is_flag c) && negb (_is_digit c) && negb (c =? chr "*") && negb (c =? chr ".").
Lemma conversions_plain c :
  c ∈ conversions ->
  plain c = true /\ (c =? chr "l") = false /\ (c =? chr "h") = false /\
  (c =? chr "t") = false /\ (c =? chr "j") = false /\ (c =? chr "z") = false.
Proof.
  intros Hc. assert (forallb (fun c => plain c && negb (c =? chr "l") && negb (c =? chr "h") &&
    negb (c =? chr "t") && negb (c =? chr "j") && negb (c =? chr "z")) conversions = true) as H by done.
  rewrite forallb_forall in H. specialize (H c (proj1 (list_elem_of_In _ _) Hc)). bool_facts.
  split_and!; try apply Z.eqb_neq; done.
Qed.

Lemma parse_width_ok rd f c rest fuel a va flags :
  reads rd a (show_field f ++ c :: rest) -> wf_field f = true ->
  _is_digit c = false -> (c =? chr "*") = false ->
  0 <= a -> a + Z.of_nat (length (show_field f)) < 4294967296 -> (length (show_field f) < fuel)%nat ->
  parse_width fuel rd a va flags =
  (fun '(va, flags, w) => (a + Z.of_nat (length (show_field f)), va, flags, w)) <$> width_value f flags va.
Proof.
  intros Hr Hf Hd Hs Ha Hl Hn. unfold parse_width. destruct f as [|ds|]; simpl in *.
  - destruct Hr as [-> _]. by rewrite Hd, Hs, Z.add_0_r.
  - apply andb_true_iff in Hf as [Hne Hds]. destruct ds as [|d ds]; [done|].
    assert (rd a = d) as Hrd by apply Hr.
    assert (_is_digit d = true) as Hd1 by (apply andb_true_iff in Hds as [?%digit_char_ok _]; tauto).
    rewrite Hrd, Hd1. unfold _atoi. erewrite atoi_loop_ok by eauto. done.
  - destruct Hr as [-> _]. change (_is_digit (chr "*")) with false. rewrite Z.eqb_refl. simpl.
    destruct (va_arg32 va) as [[w va']|] eqn:Ew; simpl; [|done].
    rewrite u32_small by (unfold is_u32; lia). case_if; [done|]. do 2 f_equal.
    destruct va; simplify_eq/=. by rewrite u32_s32, u32_u32.
Qed.

Lemma parse_precision_ok rd f c rest fuel a va flags :
  let text := match f with None => [] | Some f => chr "." :: show_field f end in
  reads rd a (text ++ c :: rest) -> match f with Some f => wf_field f | None => true end = true ->
  _is_digit c = false -> (c =? chr "*") = false -> (c =? chr ".") = false ->
  0 <= a -> a + Z.of_nat (length text) < 4294967296 -> (length text <= fuel)%nat ->
  parse_precision fuel rd a va flags =
  (fun '(va, flags, w) => (a + Z.of_nat (length text), va, flags, w)) <$> prec_value f flags va.
Proof.
  intros text Hr Hf Hd Hs Hp Ha Hl Hn. unfold parse_precision. subst text. destruct f as [f|]; simpl in *.
  2: { destruct Hr as [-> _]. by rewrite Hp, Z.add_0_r. }
  destruct Hr as [-> Hr]. rewrite Z.eqb_refl. rewrite (u32_small (a + 1)) by (unfold is_u32; lia).
  destruct f as [|ds|]; simpl in *.
  - destruct Hr as [-> _]. rewrite Hd, Hs. done.
  - apply andb_true_iff in Hf as [Hne Hds]. destruct ds as [|d ds]; [done|].
    assert (rd (a + 1) = d) as Hrd by apply Hr.
    assert (_is_digit d = true) as Hd1 by (apply andb_true_iff in Hds as [?%digit_char_ok _]; tauto).
    rewrite Hrd, Hd1. unfold _atoi. erewrite atoi_loop_ok by (eauto; simpl in *; lia). simpl.
    do 4 f_equal. simpl. lia.
  - destruct Hr as [-> _]. change (_is_digit (chr "*")) with false. rewrite Z.eqb_refl. simpl.
    destruct (va_arg32 va) as [[w va']|] eqn:Ew; simpl; [|done].
    assert ((if s32 w >? 0 then u32 (s32 w) else 0) = Z.max 0 (s32 w)) as ->.
    { assert (s32 w < 2147483648) by (unfold s32; case_if; zlia). rewrite Z.gtb_ltb. case_if; [|lia].
      rewrite u32_small by (unfold is_u32; lia). lia. }
    rewrite u32_small by (unfold is_u32; lia). replace (a + 1 + 1) with (a + 2) by lia. done.
Qed.

Lemma parse_length_ok rd l c rest a flags :
  reads rd a (l ++ c :: rest) -> l ∈ lengths -> c ∈ conversions ->
  0 <= a -> a + Z.of_nat (length l) < 4294967296 ->
  parse_length rd a flags = (a + Z.of_nat (length l), length_flags l flags).
Proof.
  intros Hr Hl (_ & El & Eh & Et & Ej & Ez)%conversions_plain Ha Hn. unfold parse_length.
  unfold lengths in Hl. rewrite !elem_of_cons in Hl.
  destruct Hl as [->|[->|[->|[->|[->|[->|[->|[->|Hl%not_elem_of_nil]]]]]]]]; [..|done];
    simpl in Hr, Hn; destruct Hr as [-> Hr]; simpl;
    rewrite ?El, ?Eh, ?Et, ?Ej, ?Ez, ?Z.add_0_r; try done;
    repeat match goal with |- context [u32 ?x] => rewrite (u32_small x) by (unfold is_u32; lia) end;
    try destruct Hr as [-> Hr]; rewrite ?El, ?Eh; try done; simpl; f_equal; lia.
Qed.

(** ** String arguments *)

(** The string [t] stands at [s], at addresses that output does not touch. *)
Record string_at (rd : Z -> Z) (stable : Z -> Prop) (s : Z) (t : list Z) : Prop := {
  st_reads : reads rd s (t ++ [0]);
  st_chars : Forall (fun c => c <> 0) t;
  st_range : 0 <= s /\ s + Z.of_nat (length t) < 4294967296;
  st_stable : forall i, 0 <= i <= Z.of_nat (length t) -> stable (s + i)
}.

Lemma string_at_cons rd stable s c t :
  string_at rd stable s (c :: t) -> rd s = c /\ c <> 0 /\ stable s /\ string_at rd stable (s + 1) t.
Proof.
  intros [Hr Hc Hg Hs]. apply Forall_cons in Hc as [Hc Hcs]. simpl in Hr, Hg, Hs. destruct Hr as [Hr1 Hr].
  split_and!; try done.
  - rewrite <- (Z.add_0_r s). apply Hs. lia.
  - split; try done; [lia|]. intros i Hi. rewrite <- Z.add_assoc. apply Hs. lia.
Qed.
Lemma string_at_nil rd stable s : string_at rd stable s [] -> rd s = 0 /\ stable s.
Proof.
  intros [[Hr _] _ _ Hs]. split; [done|]. rewrite <- (Z.add_0_r s). apply Hs. simpl. lia.
Qed.

(** The part of the string %s shows, and its padding. *)
Definition shown (t : list Z) (flags precision : Z) : list Z :=
  if has flags FLAGS_PRECISION then take (Z.to_nat precision) t else t.
Definition string_chars (t : list Z) (flags width precision : Z) : list Z :=
  let pad := replicate (Z.to_nat (width - Z.of_nat (length (shown t flags precision)))) (chr " ") in
  if has flags FLAGS_LEFT then shown t flags precision ++ pad else pad ++ shown t flags precision.

Lemma strnlen_loop_ok rd stable t : forall fuel s maxsize,
  string_at rd stable s t -> 0 <= maxsize < 4294967296 -> (length t < fuel)%nat ->
  strnlen_loop fuel rd s maxsize = Some (s + Z.min (Z.of_nat (length t)) maxsize).
Proof.
  induction t as [|c t IH]; intros fuel s maxsize Hs Hm Hf; (destruct fuel as [|fuel]; [simpl in Hf; lia|]); simpl in *.
  - destruct (string_at_nil _ _ _ Hs) as [-> _]. simpl. f_equal. lia.
  - destruct (st_range _ _ _ _ Hs) as [Hs0 Hs1]. simpl in Hs1.
    destruct (string_at_cons _ _ _ _ _ Hs) as (-> & Hc & _ & Ht).
    rewrite (proj2 (Z.eqb_neq c 0)) by done. simpl. case_if.
    + rewrite !u32_small by (unfold is_u32; lia). rewrite IH by (try done; lia). f_equal. lia.
    + f_equal. lia.
Qed.

Section Strings.
Context {P : Type} {S : Sink P} {rd stable} {L : LawfulSink S rd stable}.

Lemma peek_string s t p : good p -> string_at rd stable s t -> string_at (peek p) stable s t.
Proof.
  intros Hg Hs. split; [|apply Hs..]. revert s Hs. induction t as [|c t IH]; intros s Hs; simpl.
  - destruct (string_at_nil _ _ _ Hs) as [E1 E2]. by rewrite good_peek.
  - destruct (string_at_cons _ _ _ _ _ Hs) as (E1 & _ & E2 & Ht). rewrite good_peek by done. auto.
Qed.

Lemma put_string_ok t : forall fuel s flags precision p,
  good p -> string_at rd stable s t -> (length t < fuel)%nat -> 0 <= precision ->
  put_string fuel s flags precision p = Some (put_list (shown t flags precision) p).
Proof.
  unfold shown.
  induction t as [|c t IH]; intros fuel s flags precision p Hp Hs Hf Hpr; (destruct fuel as [|fuel]; [simpl in Hf; lia|]); simpl.
  - destruct (string_at_nil _ _ _ Hs) as [E1 E2]. rewrite good_peek, E1 by done. simpl.
    by rewrite take_nil; case_if.
  - destruct (st_range _ _ _ _ Hs) as [Hs0 Hs1]. simpl in Hs1, Hf.
    destruct (string_at_cons _ _ _ _ _ Hs) as (E1 & Hc & E2 & Ht).
    rewrite good_peek, E1 by done. rewrite (proj2 (Z.eqb_neq c 0)) by done. simpl.
    rewrite u32_small by (unfold is_u32; lia).
    specialize (IH fuel (s + 1) flags).
    destruct (has flags FLAGS_PRECISION) eqn:Ef; simpl.
    + destruct (Z.eqb_spec precision 0) as [->|Hne]; [done|]. simpl.
      rewrite IH by (auto using good_put; lia).
      replace (Z.to_nat precision) with (Datatypes.S (Z.to_nat (precision - 1))) by lia. done.
    + rewrite IH by (auto using good_put; lia). done.
Qed.

Lemma conv_string_ok fuel flags width precision w va t p :
  good p -> string_at rd stable (u32 w) t -> (length t < fuel)%nat ->
  0 <= precision < 4294967296 -> (has flags FLAGS_PRECISION = false -> precision = 0) ->
  Z.of_nat (length t) < 4294967295 ->
  conv_string fuel flags width precision (w :: va) p =
  Some (va, put_list (string_chars t flags width precision) p).
Proof.
  intros Hg Hs Hf Hp Hpf Hlt. unfold conv_string. simpl.
  unfold _strnlen_s. erewrite strnlen_loop_ok; [|by apply peek_string|case_if; lia|done]. simpl.
  set (l := if has flags FLAGS_PRECISION then _ else _).
  assert (l = Z.of_nat (length (shown t flags precision))) as ->.
  { unfold l, shown. rewrite u32_small by (unfold is_u32; destruct (Z.eqb_spec precision 0); simpl; lia).
    destruct (has flags FLAGS_PRECISION) eqn:Ef; simpl.
    - rewrite length_take. destruct (Z.eqb_spec precision 0); simpl; zcases.
    - rewrite Hpf by done. simpl. lia. }
  unfold string_chars. rewrite !put_n_list.
  destruct (has flags FLAGS_LEFT) eqn:El; simpl; rewrite !put_list_app.
  - rewrite (put_string_ok t) by (auto; lia). simpl. by rewrite put_n_list.
  - by rewrite (put_string_ok t) by (auto using good_put_list; lia).
Qed.
End Strings.

(** ** The text of a format *)

Section Render.
Variables (rd : Z -> Z) (stable : Z -> Prop).
Context {D : Type} `{Double D}.

(** [converts N c flags width precision va va' text]: with fuel [N] or more, the conversion
    [c] prints [text] and leaves the arguments [va'].  A string argument stands at stable
    addresses and has less than [N] characters. *)
Inductive converts (N : nat) (c flags width precision : Z) (va va' text : list Z) : Prop :=
  | converts_string w t :
      c = chr "s" -> va = w :: va' -> string_at rd stable (u32 w) t -> (length t < N)%nat ->
      Z.of_nat (length t) < 4294967295 -> text = string_chars t flags width precision ->
      converts N c flags width precision va va' text
  | converts_other :
      c <> chr "s" ->
      (forall fuel, (N <= fuel)%nat ->
         conv (H := text_sink rd) fuel c flags width precision va [] = Some (va', text)) ->
      converts N c flags width precision va va' text.

(** [renders N ps va text]: what the format [ps] prints with the arguments [va]. *)
Inductive renders (N : nat) : list piece -> list Z -> list Z -> Prop :=
  | renders_nil va : renders N [] va []
  | renders_lit c ps va text :
      c <> 0 -> c <> chr "%" -> renders N ps va text -> renders N (Lit c :: ps) va (c :: text)
  | renders_dir d ps va flags width precision va1 va2 text1 text2 :
      wf_spec d = true -> (length (show_spec d) <= N)%nat ->
      spec_values d va = Some (va1, flags, width, precision) ->
      converts N (sp_conv d) flags width precision va1 va2 text1 ->
      renders N ps va2 text2 -> renders N (Dir d :: ps) va (text1 ++ text2).
End Render.

Section Conv.
Context {P : Type} {S : Sink P} {rd stable} {L : LawfulSink S rd stable}.
Context {D : Type} `{Double D}.

(** Any conversion but %s prints the same text in every sink. *)
Lemma conv_other fuel c flags width precision va va' text p :
  c <> chr "s" ->
  conv (H := text_sink rd) fuel c flags width precision va [] = Some (va', text) ->
  conv fuel c flags width precision va p = Some (va', put_list text p).
Proof.
  intros Hc E. unfold conv in *. rewrite (proj2 (Z.eqb_neq c (chr "s"))) in * by done.
  repeat case_if_in E; simplify_eq/=; try done.
  - unfold conv_int in *. destruct (int_arg _ _ _) as [[[v neg] va1]|]; simplify_option_eq.
    f_equal. f_equal. by case_if; rewrite ?ntoa_long_text, ?ntoa_long_long_text, put_list_text.
  - unfold conv_float in *. destruct (va_arg64 _) as [[w va1]|]; simpl in *; [|done].
    rewrite (ftoa_text rd). destruct (_ftoa _ _ _ _ _ []) as [l|]; simpl in *; [|done].
    by simplify_eq.
  - unfold conv_exp, _etoa in *. destruct (va_arg64 _) as [[w va1]|]; simpl in *; [|done].
    erewrite (etoa_text rd) by (intros; apply (ftoa_text rd)).
    destruct (etoa _ _ _ _ _ []) as [l|]; simpl in *; [|done]. by simplify_eq.
  - unfold conv_char in *. destruct (va_arg32 _) as [[w va1]|]; simplify_option_eq.
    rewrite !put_n_list, !put_list_text. f_equal. f_equal.
    destruct (has flags FLAGS_LEFT); simpl; [done|]. by rewrite put_list_app.
  - unfold conv_pointer in *. destruct (va_arg32 _) as [[w va1]|]; simplify_option_eq.
    by rewrite !ntoa_long_text, put_list_text.
Qed.

Lemma has_bit flags k : 0 <= k -> has flags (Z.shiftl 1 k) = Z.testbit flags k.
Proof.
  intros Hk. unfold has. rewrite Z.shiftl_1_l. destruct (Z.testbit flags k) eqn:E.
  - apply negb_true_iff, Z.eqb_neq. intros H0. assert (Z.testbit (Z.land flags (2 ^ k)) k = true) as H1.
    { by rewrite Z.land_spec, E, Z.pow2_bits_true. }
    by rewrite H0, Z.bits_0 in H1.
  - apply negb_false_iff, Z.eqb_eq, Z.bits_inj'. intros n Hn. rewrite Z.land_spec, Z.bits_0, Z.pow2_bits_eqb by done.
    destruct (Z.eqb_spec k n) as [->|]; [by rewrite E|apply andb_false_r].
Qed.

Lemma set_precision flags : has (set flags FLAGS_PRECISION) FLAGS_PRECISION = true.
Proof. unfold FLAGS_PRECISION. rewrite has_bit by lia. unfold set. rewrite Z.lor_spec. apply orb_true_r. Qed.
Lemma set_keeps_precision flags f :
  has flags FLAGS_PRECISION = true -> has (set flags f) FLAGS_PRECISION = true.
Proof.
  unfold FLAGS_PRECISION. rewrite !has_bit by lia. unfold set. rewrite Z.lor_spec. by intros ->.
Qed.

Lemma number_range ds : is_u32 (number ds).
Proof.
  unfold number. assert (forall i, is_u32 i -> is_u32 (fold_left (fun i d => u32 (i * 10 + (d - chr "0"))) ds i)) as Hx.
  { induction ds as [|d ds IH]; intros i Hi; simpl; [done|]. apply IH. auto with sakura. }
  apply Hx. unfold is_u32. lia.
Qed.

(** A precision other than 0 comes with its flag. *)
Lemma spec_values_precision d va va' flags width precision :
  spec_values d va = Some (va', flags, width, precision) ->
  is_u32 precision /\ (has flags FLAGS_PRECISION = false -> precision = 0).
Proof.
  unfold spec_values. destruct (width_value _ _ _) as [[[va1 fl1] w]|]; simpl; [|done].
  destruct (prec_value _ _ _) as [[[va2 fl2] pr]|] eqn:Ep; simpl; [|done]. intros [= <- <- <- <-].
  assert (is_u32 pr /\ (has fl2 FLAGS_PRECISION = true \/ pr = 0)) as [Hr Hf].
  { unfold prec_value in Ep. destruct (sp_prec d) as [[| ds |]|]; simplify_eq.
    - split; [unfold is_u32; lia|by right].
    - split; [apply number_range|]. left. apply set_precision.
    - destruct (va_arg32 va1) as [[x y]|]; simplify_option_eq. split; [|left; apply set_precision].
      assert (s32 x < 2147483648) by (unfold s32; case_if; zlia). unfold is_u32. lia.
    - split; [unfold is_u32; lia|by right]. }
  split; [done|]. intros Hn. destruct Hf as [Hf|]; [|done]. exfalso.
  assert (has (length_flags (sp_len d) fl2) FLAGS_PRECISION = true); [|congruence].
  unfold length_flags. repeat case_if; auto using set_keeps_precision.
Qed.

Lemma conv_ok N fuel c flags width precision va va' text p :
  converts rd stable N c flags width precision va va' text -> (N <= fuel)%nat -> good p ->
  is_u32 precision -> (has flags FLAGS_PRECISION = false -> precision = 0) ->
  conv fuel c flags width precision va p = Some (va', put_list text p).
Proof.
  intros [w t -> -> Hs Hl Hm ->|Hc Hx] Hf Hg Hp Hpf.
  - unfold conv. simpl. apply conv_string_ok; try done. lia.
  - apply conv_other; auto.
Qed.

(** *** Where a directive's fields end *)

Lemma plain_facts c :
  plain c = true -> flag_of c = None /\ _is_digit c = false /\ (c =? chr "*") = false /\ (c =? chr ".") = false.
Proof.
  unfold plain, is_flag. intros H0. bool_facts. rewrite bool_decide_eq_false in *.
  split_and!; try apply Z.eqb_neq; try done. by apply eq_None_not_Some.
Qed.

Lemma length_head d : wf_spec d = true ->
  exists c rest, sp_len d ++ [sp_conv d] = c :: rest /\ plain c = true.
Proof.
  intros Hw. unfold wf_spec in Hw. bool_facts. rewrite !bool_decide_eq_true in *.
  match goal with H : sp_conv d ∈ _ |- _ => destruct (conversions_plain _ H) as [Hc _] end.
  match goal with H : sp_len d ∈ _ |- _ => unfold lengths in H; rewrite !elem_of_cons in H; revert H end.
  intros [->|[->|[->|[->|[->|[->|[->|[->|Hl%not_elem_of_nil]]]]]]]]; simpl; [..|done];
    do 2 eexists; (split; [done|]); done.
Qed.

Lemma prec_head d : wf_spec d = true ->
  exists c rest, match sp_prec d with None => [] | Some f => chr "." :: show_field f end ++ sp_len d ++ [sp_conv d]
    = c :: rest /\ flag_of c = None /\ _is_digit c = false /\ (c =? chr "*") = false.
Proof.
  intros Hw. destruct (sp_prec d) as [f|].
  - do 2 eexists. split; [done|]. done.
  - destruct (length_head d Hw) as (c & rest & E & Hc). exists c, rest. split; [done|].
    destruct (plain_facts _ Hc) as (? & ? & ? & ?). done.
Qed.

Lemma digit_not_flag c : digit_char c = true -> (c =? chr "0") = false -> flag_of c = None.
Proof.
  intros (_ & Hc & _)%digit_char_ok H0. unfold flag_of. rewrite H0.
  change (chr "-") with 45. change (chr "+") with 43. change (chr " ") with 32. change (chr "#") with 35. zcases.
Qed.

Lemma width_head d : wf_spec d = true ->
  exists c rest, show_field (sp_width d) ++ match sp_prec d with None => [] | Some f => chr "." :: show_field f end ++
    sp_len d ++ [sp_conv d] = c :: rest /\ flag_of c = None.
Proof.
  intros Hw. destruct (sp_width d) as [|ds|] eqn:E; simpl.
  - destruct (prec_head d Hw) as (c & rest & Ec & Hc & _). eauto.
  - unfold wf_spec in Hw. rewrite E in Hw. simpl in Hw. bool_facts. destruct ds as [|c ds]; [done|]. simpl in *.
    bool_facts. do 2 eexists. split; [done|]. apply digit_not_flag; [done|]. by apply Z.eqb_neq.
  - do 2 eexists. split; [done|]. done.
Qed.

Lemma directive_ok N fuel a va p d rest flags width precision va1 va2 text :
  wf_spec d = true -> good p -> reads (peek p) a (show_spec d ++ rest) ->
  0 <= a -> a + Z.of_nat (length (show_spec d)) < 4294967296 ->
  (N <= fuel)%nat -> (length (show_spec d) <= N)%nat ->
  spec_values d va = Some (va1, flags, width, precision) ->
  converts rd stable N (sp_conv d) flags width precision va1 va2 text ->
  directive fuel a va p = Some (a + Z.of_nat (length (show_spec d)), va2, put_list text p).
Proof.
  intros Hw Hg Hr Ha Hl Hf HN Hv Hc. pose proof (spec_values_precision _ _ _ _ _ _ Hv) as [Hp1 Hp2].
  destruct (width_head d Hw) as (c1 & r1 & E1 & F1).
  destruct (prec_head d Hw) as (c2 & r2 & E2 & F2 & G2 & H2).
  destruct (length_head d Hw) as (c3 & r3 & E3 & (F3 & G3 & H3 & I3)%plain_facts).
  pose proof Hw as Hw'. unfold wf_spec in Hw'. bool_facts. rewrite !bool_decide_eq_true in *.
  unfold show_spec in *. rewrite <- !app_assoc in Hr. rewrite !length_app in *.
  set (prec_text := match sp_prec d with None => [] | Some f => chr "." :: show_field f end) in *.
  apply reads_app in Hr as [Hr1 Hr]. pose proof Hr as Hr'. apply reads_app in Hr as [Hr2 Hr].
  pose proof Hr as Hr''. apply reads_app in Hr as [Hr3 Hr].
  pose proof Hr as Hr3'. apply reads_app in Hr as [Hr4 Hr5].
  set (a1 := a + Z.of_nat (length (sp_flags d))) in *.
  set (a2 := a1 + Z.of_nat (length (show_field (sp_width d)))) in *.
  set (a3 := a2 + Z.of_nat (length prec_text)) in *.
  simpl in Hl, HN.
  unfold directive.
  rewrite (parse_flags_ok _ (sp_flags d) c1 (r1 ++ rest)); try done; [|
    change (c1 :: r1 ++ rest) with ((c1 :: r1) ++ rest); rewrite <- E1, <- !app_assoc; apply reads_app; done|lia..].
  fold a1. simpl. unfold spec_values, flags_value in Hv.
  rewrite (parse_width_ok _ (sp_width d) c2 (r2 ++ rest)); try done; [|
    change (c2 :: r2 ++ rest) with ((c2 :: r2) ++ rest); rewrite <- E2, <- !app_assoc; apply reads_app; done|lia..].
  destruct (width_value _ _ _) as [[[vaw flw] w]|]; simpl in *; [|done]. fold a2.
  rewrite (parse_precision_ok _ (sp_prec d) c3 (r3 ++ rest)); try done; [|
    change (c3 :: r3 ++ rest) with ((c3 :: r3) ++ rest); rewrite <- E3, <- !app_assoc; apply reads_app; done|
    fold prec_text; lia..].
  destruct (prec_value _ _ _) as [[[vap flp] pr]|]; simpl in *; [|done]. fold prec_text. fold a3.
  rewrite (parse_length_ok _ (sp_len d) (sp_conv d) rest); try done; [|lia..]. simplify_eq.
  destruct Hr5 as [-> _]. erewrite conv_ok by eauto. simpl.
  rewrite u32_small by (unfold is_u32; lia). do 3 f_equal. lia.
Qed.

Lemma vsn_loop_ok N ps va text :
  renders rd stable N ps va text -> forall fuel a p, good p ->
  string_at rd stable a (show ps) -> (N + length ps < fuel)%nat ->
  vsn_loop fuel a va p = Some (put_list text p).
Proof.
  induction 1 as [va|c ps va text Hc0 Hc1 Hren IH|d ps va flags width precision va1 va2 text1 text2 Hw Hn Hv Hcv Hren IH];
    intros fuel a p Hg Hs Hf; (destruct fuel as [|fuel]; [lia|]); cbn [vsn_loop].
  - destruct (string_at_nil _ _ _ Hs) as [E1 E2]. by rewrite good_peek, E1.
  - change (show (Lit c :: ps)) with (c :: show ps) in Hs. pose proof (st_range _ _ _ _ Hs) as Hr.
    apply string_at_cons in Hs as (E1 & _ & E2 & Hs). simpl in Hr.
    rewrite good_peek, E1 by done. rewrite !(proj2 (Z.eqb_neq _ _)) by done. cbn [negb].
    rewrite u32_small by (unfold is_u32; lia).
    rewrite IH; auto using good_put. simpl in Hf. lia.
  - change (show (Dir d :: ps)) with (chr "%" :: show_spec d ++ show ps) in Hs.
    pose proof (st_range _ _ _ _ Hs) as Hr. apply string_at_cons in Hs as (E1 & _ & E2 & Hs).
    simpl in Hr, Hf. rewrite length_app in Hr.
    rewrite good_peek, E1 by done. cbn [Z.eqb chr negb]. change (chr "%" =? 0) with false.
    rewrite Z.eqb_refl. simpl. rewrite (u32_small (a + 1)) by (unfold is_u32; lia).
    pose proof (peek_string _ _ p Hg Hs) as Hs'.
    erewrite (directive_ok N); eauto; [|rewrite app_assoc; apply (st_reads _ _ _ _ Hs')|lia..]. simpl.
    rewrite IH; auto using good_put_list; [by rewrite put_list_app| |lia].
    destruct Hs as [S1 S2 S3 S4]. rewrite <- app_assoc in S1. apply reads_app in S1 as [_ S1].
    apply Forall_app in S2 as [_ S2]. rewrite length_app in S3, S4. split; [done..|lia|].
    intros i Hi. rewrite <- Z.add_assoc. apply S4. lia.
Qed.
End Conv.

Section Theorems.
Context {D : Type} `{Double D}.

(** C16: vsnprintf reads every well-formed format by its grammar.  The format is a list of
    pieces (literal characters and directives with flags, width, precision, length and
    conversion), shown as a string at [format]; it and the string arguments lie outside the
    buffer.  If the pieces render to [text] with the arguments [va], the call returns the length of
    the text and leaves in the buffer the text cut to count - 1 bytes and a NUL; so the parser
    splits directives as the grammar says, whatever the buffer size, and terminates. *)
Theorem vsnprintf_renders (N fuel : nat) (ps : list piece) (va text : list Z) (buffer count format : Z) (s : PState) :
  0 < buffer -> 0 < count -> buffer + count <= 4294967296 ->
  renders (loadb (pmem s)) (fun a => ~ in_buffer buffer count a) N ps va text ->
  string_at (loadb (pmem s)) (fun a => ~ in_buffer buffer count a) format (show ps) ->
  (N + length ps < fuel)%nat -> Z.of_nat (length text) < 4294967296 ->
  let n := Z.min (Z.of_nat (length text)) (count - 1) in
  exists s', vsnprintf fuel buffer count format va s = Some (s32 (Z.of_nat (length text)), s') /\
    bytes (pmem s') buffer (Z.to_nat n) = u8 <$> take (Z.to_nat n) text /\
    loadb (pmem s') (buffer + n) = 0 /\
    forall a, is_u32 a -> ~ (buffer <= a < buffer + count) -> loadb (pmem s') a = loadb (pmem s) a.
Proof.
  intros Hb Hc He Hren Hfmt Hf Hl n. exists (printed buffer count text s).
  destruct (printed_bytes buffer count ltac:(lia) He text s Hc Hl) as [B1 B2].
  split_and!; [|done..|].
  - unfold vsnprintf, _vsnprintf. rewrite (proj2 (Z.eqb_neq buffer 0)) by lia.
    rewrite (vsn_loop_ok (L := mem_lawful (pmem s) buffer count) N ps va text); try done.
    + pose proof (pos_put_list (L := mem_lawful (pmem s) buffer count) text (s, 0)) as Hp. simpl in Hp.
      unfold printed, sink in *. simpl. destruct (put_list text (s, 0)) as [s1 idx]. simpl in *.
      do 2 f_equal. unfold s32. by rewrite Hp.
    + simpl. split_and!; try done; lia.
  - intros a Ha Hn. apply printed_frame; [lia|done|]. unfold in_buffer. by rewrite u32_small.
Qed.
End Theorems.

(** ** A concrete call *)

Definition ex_format : list piece :=
  [Dir (MkSpec [chr "0"] (Number [chr "5"]) None [] (chr "d")); Lit (chr "|");
   Dir (MkSpec [chr "-"] Star (Some (Number [chr "2"])) [] (chr "s")); Lit (chr "|");
   Dir (MkSpec [chr "#"] Absent None (str "ll") (chr "x"))].
Definition ex_args : list Z := [4294967254; 4; 8192; 0xFF; 1].
Definition ex_state : PState :=
  MkP (storel (storel (fun _ => 0) 4096 (show ex_format)) 8192 (str "hello")) [] [].

Lemma in_buffer_dec a : 4096 <= a < 12288 -> ~ in_buffer 16384 20 a.
Proof. intros Ha. unfold in_buffer. rewrite u32_small by (unfold is_u32; lia). lia. Qed.

Lemma ex_renders :
  renders (D := spec_float) (loadb (pmem ex_state)) (fun a => ~ in_buffer 16384 20 a) 20 ex_format ex_args
    (str "-0042|he  |0x1000000ff").
Proof.
  unfold ex_format, ex_args. change (str "-0042|he  |0x1000000ff") with
    (str "-0042" ++ chr "|" :: str "he  " ++ chr "|" :: str "0x1000000ff" ++ []).
  eapply renders_dir; [reflexivity|vm_compute; lia|reflexivity| |].
  { eapply converts_other; [discriminate|]. intros fuel Hf. reflexivity. }
  apply renders_lit; [discriminate..|].
  eapply renders_dir; [reflexivity|vm_compute; lia|reflexivity| |].
  { eapply converts_string with (t := str "hello"); [reflexivity|reflexivity| |vm_compute; lia|vm_compute; reflexivity|reflexivity].
    split; [vm_compute; repeat split; reflexivity|repeat constructor; discriminate|vm_compute; split; [discriminate|reflexivity]|].
    intros i Hi. apply in_buffer_dec. change (Z.of_nat (length (str "hello"))) with 5 in Hi. change (u32 8192) with 8192. lia. }
  apply renders_lit; [discriminate..|].
  eapply renders_dir; [reflexivity|vm_compute; lia|reflexivity| |apply renders_nil].
  eapply converts_other; [discriminate|]. intros fuel Hf. reflexivity.
Qed.

Lemma ex_format_at :
  string_at (loadb (pmem ex_state)) (fun a => ~ in_buffer 16384 20 a) 4096 (show ex_format).
Proof.
  split; [vm_compute; repeat split; reflexivity|repeat constructor; discriminate|vm_compute; split; [discriminate|reflexivity]|].
  intros i Hi. apply in_buffer_dec. change (Z.of_nat (length (show ex_format))) with 17 in Hi. lia.
Qed.

Lemma vsnprintf_renders_witness : exists s',
  vsnprintf (D := spec_float) 100 16384 20 4096 ex_args ex_state = Some (22, s') /\
  bytes (pmem s') 16384 19 = str "-0042|he  |0x100000".
Proof.
  destruct (vsnprintf_renders (D := spec_float) 20 100 ex_format ex_args (str "-0042|he  |0x1000000ff") 16384 20 4096 ex_state
    ltac:(lia) ltac:(lia) ltac:(lia) ex_renders ex_format_at ltac:(simpl; lia) ltac:(simpl; lia)) as (s' & E & B & _).
  exists s'. split; [exact E|exact B].
Defined.

End PrintfFormat.
