(* ===== verification/PrintfContract.v ===== *)
(** The contract of vsnprintf (Kernel/Libk/vsnprintf.c): the text of a call does not depend on the
    buffer and its size; the call returns the length of that text and stores what fits. *)

From S2P Require Import Prelude Printf PrintfSpec PrintfFormat.
From Stdlib Require Import SpecFloat.

Module PrintfContract.
Import Printf PrintfSpec PrintfFormat.

#[local] Opaque NTOA_STEPS.

(** ** The parser reads no more than its memory *)

Section Ext.
Variables rd1 rd2 : Z -> Z.
Hypothesis Hrd : forall a, rd1 a = rd2 a.

Lemma parse_flags_ext fuel : forall format flags, parse_flags fuel rd1 format flags = parse_flags fuel rd2 format flags.
Proof. induction fuel as [|fuel IH]; intros format flags; simpl; [done|]. rewrite Hrd. by destruct (flag_of _). Qed.
Lemma atoi_loop_ext fuel : forall i s, atoi_loop fuel rd1 i s = atoi_loop fuel rd2 i s.
Proof. induction fuel as [|fuel IH]; intros i s; simpl; [done|]. rewrite Hrd. case_if; auto. Qed.
Lemma parse_width_ext fuel format va flags : parse_width fuel rd1 format va flags = parse_width fuel rd2 format va flags.
Proof. unfold parse_width, _atoi. by rewrite Hrd, atoi_loop_ext. Qed.
Lemma parse_precision_ext fuel format va flags :
  parse_precision fuel rd1 format va flags = parse_precision fuel rd2 format va flags.
Proof. unfold parse_precision, _atoi. by rewrite !Hrd, atoi_loop_ext. Qed.
Lemma parse_length_ext format flags : parse_length rd1 format flags = parse_length rd2 format flags.
Proof. unfold parse_length. by rewrite !Hrd. Qed.
End Ext.

(** ** Maps between sinks *)

(** A map of sinks that keeps puts, the index and what is read commutes with every routine. *)
Section Map.
Context {P1 P2 : Type} {S1 : Sink P1} {S2 : Sink P2} (h : P1 -> P2).
Hypothesis h_put : forall c p, put c (h p) = h (put c p).
Hypothesis h_pos : forall p, pos (h p) = pos p.
Hypothesis h_peek : forall p a, peek (h p) a = peek p a.
Context {D : Type} `{Double D}.

Lemma map_put_n n c p : put_n n c (h p) = h (put_n n c p).
Proof. revert p; induction n as [|n IH]; intros p; simpl; [done|]. by rewrite h_put. Qed.
Lemma map_put_list l p : put_list l (h p) = h (put_list l p).
Proof. revert p; induction l as [|c l IH]; intros p; simpl; [done|]. by rewrite h_put. Qed.
Lemma map_if (b : bool) (p q : P1) : (if b then h p else h q) = h (if b then p else q).
Proof. by destruct b. Qed.

Lemma map_out_rev buf width flags p : _out_rev buf width flags (h p) = h (_out_rev buf width flags p).
Proof.
  unfold _out_rev. rewrite !h_pos, map_put_n, map_if, map_put_list, h_pos, map_put_n. by rewrite map_if.
Qed.
Lemma map_ntoa_long value negative base prec width flags p :
  _ntoa_long value negative base prec width flags (h p) = h (_ntoa_long value negative base prec width flags p).
Proof. unfold _ntoa_long, _ntoa_format. destruct (ntoa_zeros _ _ _ _ _). apply map_out_rev. Qed.
Lemma map_ntoa_long_long value negative base prec width flags p :
  _ntoa_long_long value negative base prec width flags (h p) = h (_ntoa_long_long value negative base prec width flags p).
Proof. apply map_ntoa_long. Qed.

Lemma map_ftoa_number value negative prec width flags p :
  ftoa_number value negative prec width flags (h p) = h <$> ftoa_number value negative prec width flags p.
Proof.
  unfold ftoa_number. destruct (ftoa_limit _ _ _). destruct (pow10 !! _); simpl; [|done].
  destruct (ftoa_round _ _ _). case_if; simpl; by rewrite map_out_rev.
Qed.
Lemma map_etoa f1 f2 value prec width flags p :
  (forall v pr w fl p, f2 v pr w fl (h p) = h <$> f1 v pr w fl p) ->
  etoa f2 value prec width flags (h p) = h <$> etoa f1 value prec width flags p.
Proof.
  intros Hf. unfold etoa. case_if; [apply Hf|]. destruct (etoa_exponent _) as [ev cf].
  match goal with |- context [match (if ?c then ?x else ?y) with _ => _ end] =>
    destruct (if c then x else y) as [[[pr fl] mw] ev'] end.
  rewrite h_pos, Hf. destruct (f1 _ _ _ _ p) as [q|]; simpl; [|done]. case_if; [|done]. simpl. f_equal.
  rewrite h_put, map_ntoa_long, h_pos, map_put_n. apply map_if.
Qed.
Lemma map_ftoa fuel : forall value prec width flags p,
  _ftoa fuel value prec width flags (h p) = h <$> _ftoa fuel value prec width flags p.
Proof.
  induction fuel as [|fuel IH]; intros value prec width flags p; simpl; [done|].
  repeat case_if; simpl; rewrite ?map_out_rev; try done; [by apply map_etoa|apply map_ftoa_number..].
Qed.

Lemma map_strnlen fuel : forall s n p, strnlen_loop fuel (peek (h p)) s n = strnlen_loop fuel (peek p) s n.
Proof. induction fuel as [|fuel IH]; intros s n p; simpl; [done|]. rewrite h_peek. case_if; auto. Qed.
Lemma map_put_string fuel : forall s flags precision p,
  put_string fuel s flags precision (h p) = h <$> put_string fuel s flags precision p.
Proof.
  induction fuel as [|fuel IH]; intros s flags precision p; simpl; [done|].
  rewrite h_peek, h_put. case_if; [apply IH|done].
Qed.

Abbreviation map_result o := ((fun '(va, p) => (va, h p)) <$> o).

Lemma map_conv fuel c flags width precision va p :
  conv fuel c flags width precision va (h p) = map_result (conv fuel c flags width precision va p).
Proof.
  unfold conv. repeat case_if.
  - unfold conv_int. destruct (int_arg _ _ _) as [[[v neg] va1]|]; simpl; [|done].
    by case_if; rewrite ?map_ntoa_long, ?map_ntoa_long_long.
  - unfold conv_float. destruct (va_arg64 va) as [[w va1]|]; simpl; [|done]. rewrite map_ftoa. by destruct (_ftoa _ _ _ _ _ p).
  - unfold conv_exp, _etoa. destruct (va_arg64 va) as [[w va1]|]; simpl; [|done].
    erewrite map_etoa by (apply map_ftoa). by destruct (etoa _ _ _ _ _ p).
  - unfold conv_char. rewrite map_put_n, map_if. destruct (va_arg32 va) as [[w va1]|]; simpl; [|done].
    by rewrite h_put, map_put_n, map_if.
  - unfold conv_string, _strnlen_s. destruct (va_arg32 va) as [[w va1]|]; simpl; [|done].
    rewrite map_strnlen. destruct (strnlen_loop _ _ _ _) as [e|]; simpl; [|done].
    rewrite map_put_n, map_if, map_put_string. destruct (put_string _ _ _ _ _) as [q|]; simpl; [|done].
    by rewrite map_put_n, map_if.
  - unfold conv_pointer. destruct (va_arg32 va) as [[w va1]|]; simpl; [|done]. by rewrite map_ntoa_long.
  - by rewrite h_put.
  - by rewrite h_put.
Qed.

Lemma map_directive fuel format va p :
  directive fuel format va (h p) = (fun '(format, va, p) => (format, va, h p)) <$> directive fuel format va p.
Proof.
  unfold directive. rewrite (parse_flags_ext _ _ (h_peek p)).
  destruct (parse_flags _ _ _ _) as [[f1 fl1]|]; simpl; [|done].
  rewrite (parse_width_ext _ _ (h_peek p)). destruct (parse_width _ _ _ _ _) as [[[[f2 va2] fl2] w]|]; simpl; [|done].
  rewrite (parse_precision_ext _ _ (h_peek p)).
  destruct (parse_precision _ _ _ _ _) as [[[[f3 va3] fl3] pr]|]; simpl; [|done].
  rewrite (parse_length_ext _ _ (h_peek p)). destruct (parse_length _ _ _) as [f4 fl4].
  rewrite h_peek, map_conv. by destruct (conv _ _ _ _ _ _ p) as [[va4 q]|].
Qed.

Lemma map_vsn_loop fuel : forall format va p, vsn_loop fuel format va (h p) = h <$> vsn_loop fuel format va p.
Proof.
  induction fuel as [|fuel IH]; intros format va p; simpl; [done|]. rewrite h_peek, h_put. repeat case_if; [done|apply IH|].
  rewrite map_directive. destruct (directive _ _ _ p) as [[[f1 va1] q]|]; simpl; [apply IH|done].
Qed.

End Map.

(** ** The text of a call *)

(** The sink of the whole text, where what is read may depend on the text printed so far. *)
Definition history_sink (rd : list Z -> Z -> Z) : Sink (list Z) := {|
  put c l := l ++ [c];
  pos l := u32 (Z.of_nat (length l));
  peek l a := rd l a
|}.

Section Contract.
Context {D : Type} `{Double D}.

(** [prints fuel format va m private text]: the format and the arguments expand to [text] in the
    memory [m], whatever is read, at any time, at the [private] addresses. *)
Definition prints (fuel : nat) (format : Z) (va : list Z) (m : Mem) (private : Z -> Prop) (text : list Z) : Prop :=
  forall rd : list Z -> Z -> Z, (forall l a, ~ private a -> rd l a = loadb m a) ->
  vsn_loop (H := history_sink rd) fuel format va [] = Some text.

(** A format of the grammar with its string arguments outside the private addresses prints what it
    renders to. *)
Lemma renders_prints N fuel ps va text format m private :
  renders (loadb m) (fun a => ~ private a) N ps va text ->
  string_at (loadb m) (fun a => ~ private a) format (show ps) -> (N + length ps < fuel)%nat ->
  prints fuel format va m private text.
Proof.
  intros Hr Hs Hf rd Hrd.
  unshelve epose (L := {| good := fun _ : list Z => True |} : LawfulSink (history_sink rd) (loadb m) (fun a => ~ private a)).
  - intros c l. simpl. rewrite length_app. simpl. autorewrite with wraps. f_equal. lia.
  - done.
  - intros l a _ Ha. by apply Hrd.
  - rewrite (vsn_loop_ok (L := L) N ps va text) by done. f_equal. exact (put_list_text (fun _ => 0) text []).
Qed.

Lemma int_of_index x : s32 (u32 x) = s32 x.
Proof. unfold s32. by rewrite u32_u32. Qed.

(** Any call that puts its characters one at a time prints the text. *)
Lemma prints_call fuel format va s private text out buffer count :
  prints fuel format va (pmem s) private text ->
  (forall l a, ~ private a ->
     loadb (pmem (put_list (H := mem_sink out buffer count) l (s, 0)).1) a = loadb (pmem s) a) ->
  vsn_loop (H := mem_sink out buffer count) fuel format va (s, 0)
    = Some (put_list (H := mem_sink out buffer count) text (s, 0)) /\
  (put_list (H := mem_sink out buffer count) text (s, 0)).2 = u32 (Z.of_nat (length text)).
Proof.
  intros Hp Hm. set (S2 := mem_sink out buffer count). set (h := fun l => put_list (H := S2) l (s, 0)).
  set (rd := fun l a => loadb (pmem (h l).1) a).
  assert (forall c l, put (Sink := S2) c (h l) = h (put (Sink := history_sink rd) c l)) as Hput.
  { intros c l. change (put c (h l) = h (l ++ [c])). unfold h. by rewrite (put_list_app (S := S2) l [c]). }
  assert (forall l, pos (Sink := S2) (h l) = pos (Sink := history_sink rd) l) as Hpos.
  { intros l. induction l as [|c l IH] using rev_ind; [done|].
    change (h (l ++ [c])) with (h (put (Sink := history_sink rd) c l)). rewrite <- Hput. simpl in *. rewrite IH, length_app. simpl.
    autorewrite with wraps. f_equal. lia. }
  split; [|exact (Hpos text)].
  pose proof (map_vsn_loop (S1 := history_sink rd) (S2 := S2) h Hput Hpos (fun _ _ => eq_refl) fuel format va []) as E.
  change (h []) with (s, 0) in E. rewrite E, Hp; [done|]. intros l a Ha. by apply Hm.
Qed.

(** C15: the contract of vsnprintf.  Suppose the format and the arguments expand to [text]
    without use of what the buffer holds.  Then the call returns, with the length of the whole
    text as an int, whatever the size of the buffer; with a positive size the buffer holds the
    text cut to count - 1 bytes and then a NUL; and the call without a buffer returns the same
    length and changes nothing.  And any call that returns, even one whose format or arguments
    overlap the buffer, writes nothing outside [buffer, buffer + count) and nothing on the
    console. *)
Theorem vsnprintf_contract (fuel : nat) (buffer count format : Z) (va : list Z) (s : PState) :
  0 < buffer -> 0 <= count -> buffer + count <= 4294967296 ->
  (forall text, prints fuel format va (pmem s) (in_buffer buffer count) text ->
   Z.of_nat (length text) < 4294967296 ->
   let n := Z.min (Z.of_nat (length text)) (count - 1) in
   (exists s', vsnprintf fuel buffer count format va s = Some (s32 (Z.of_nat (length text)), s') /\
      (0 < count -> bytes (pmem s') buffer (Z.to_nat n) = u8 <$> take (Z.to_nat n) text /\
                    loadb (pmem s') (buffer + n) = 0)) /\
   vsnprintf fuel 0 count format va s = Some (s32 (Z.of_nat (length text)), s)) /\
  (forall r s', vsnprintf fuel buffer count format va s = Some (r, s') ->
   (forall a, is_u32 a -> ~ (buffer <= a < buffer + count) -> loadb (pmem s') a = loadb (pmem s) a) /\
   putchars s' = putchars s /\ fct_calls s' = fct_calls s).
Proof.
  intros Hb Hc He. split.
  - intros text Hp Hl n. split.
    + exists (printed buffer count text s). split; [|intros Hc'; apply printed_bytes; lia].
      destruct (prints_call fuel format va s _ text _out_buffer buffer count Hp) as [E1 E2].
      { intros l a Ha. apply buffer_frame; done || lia. }
      unfold vsnprintf, _vsnprintf. rewrite (proj2 (Z.eqb_neq buffer 0)), E1 by lia. simpl.
      unfold printed, sink. destruct (put_list text (s, 0)) as [s1 idx]. simpl in *. by rewrite E2, int_of_index.
    + assert (forall l i, (put_list (H := mem_sink _out_null 0 count) l (s, i)).1 = s) as Hnull.
      { intros l. induction l as [|c l IH]; intros i; simpl; [done|]. apply IH. }
      destruct (prints_call fuel format va s _ text _out_null 0 count Hp) as [E1 E2].
      { intros l a Ha. by rewrite Hnull. }
      specialize (Hnull text 0). unfold vsnprintf, _vsnprintf. rewrite Z.eqb_refl, E1. simpl.
      destruct (put_list text (s, 0)) as [s1 idx]. simpl in *. by rewrite E2, int_of_index, Hnull.
  - intros r s' Hv. apply vsnprintf_printed in Hv as (text & _ & -> & _); [|lia].
    split; [|apply printed_console].
    intros a Ha Hn. apply printed_frame; [lia|done|]. unfold in_buffer. by rewrite u32_small.
Qed.

End Contract.

(** "hello %u" of 7 in a buffer of 6 bytes. *)
Definition ex_pieces : list piece := (Lit <$> str "hello ") ++ [Dir (MkSpec [] Absent None [] (chr "u"))].
Definition ex_hello : PState := MkP (storel (fun _ => 0) 4096 (show ex_pieces)) [] [].

Lemma ex_hello_prints :
  prints (D := spec_float) 20 4096 [7] (pmem ex_hello) (in_buffer 8192 6) (str "hello 7").
Proof.
  apply (renders_prints 5 20 ex_pieces); [| |vm_compute; lia].
  - unfold ex_pieces. cbn. repeat (apply renders_lit; [discriminate..|]).
    change [chr "7"] with (str "7" ++ []).
    eapply renders_dir; [reflexivity|vm_compute; lia|reflexivity| |apply renders_nil].
    eapply converts_other; [discriminate|]. intros fuel Hf. reflexivity.
  - split; [vm_compute; repeat split; reflexivity|repeat constructor; discriminate|vm_compute; split; [discriminate|reflexivity]|].
    intros i Hi. change (Z.of_nat (length (show ex_pieces))) with 8 in Hi. unfold in_buffer.
    rewrite u32_small by (unfold is_u32; lia). lia.
Qed.

Lemma vsnprintf_contract_witness :
  (exists s', vsnprintf (D := spec_float) 20 8192 6 4096 [7] ex_hello = Some (7, s') /\
     bytes (pmem s') 8192 5 = str "hello" /\ loadb (pmem s') 8197 = 0) /\
  vsnprintf (D := spec_float) 20 0 6 4096 [7] ex_hello = Some (7, ex_hello).
Proof.
  destruct (vsnprintf_contract (D := spec_float) 20 8192 6 4096 [7] ex_hello ltac:(lia) ltac:(lia) ltac:(lia)) as [Ht _].
  destruct (Ht (str "hello 7") ex_hello_prints ltac:(vm_compute; reflexivity)) as [(s' & E & B) Em].
  split; [|exact Em]. exists s'. split; [exact E|]. exact (B ltac:(lia)).
Defined.

End PrintfContract.
