(* ===== verification/PrintfNumbers.v ===== *)
(** The numerals Kernel/Libk/vsnprintf.c prints: the integer conversions denote their
    argument, with the padding, sign and prefix the flags ask for; reading one back with _atoi;
    the digits of the floating-point conversion. *)

From S2P Require Import Prelude Printf PrintfSpec.
From Stdlib Require Import SpecFloat.

Module PrintfNumbers.
Import Printf PrintfSpec.

#[local] Opaque NTOA_STEPS.

(** ** Numerals *)

(** The value of a digit character, and of a digit string, least significant first. *)
Definition digit_of (c : Z) : Z := if c <=? 57 then c - 48 else if c <=? 70 then c - 55 else c - 87.
Fixpoint le_value (base : Z) (l : list Z) : Z :=
  match l with [] => 0 | c :: l => digit_of c + base * le_value base l end.

(** [canonical base l v]: [l] (least significant first) is the numeral of [v] without
    superfluous zeros. *)
Record canonical (base : Z) (l : list Z) (v : Z) : Prop := {
  can_value : le_value base l = v;
  can_digits : Forall (fun c => 0 <= digit_of c < base) l;
  can_last : exists l' c, l = l' ++ [c] /\ (digit_of c = 0 -> l' = [])
}.

Lemma digit_of_ntoa d flags : 0 <= d < 16 -> digit_of (ntoa_char d flags) = d.
Proof.
  intros Hd. unfold digit_of, ntoa_char. change (chr "0") with 48. change (chr "A") with 65. change (chr "a") with 97.
  destruct (Z.ltb_spec d 10); [zcases|]. destruct (has flags FLAGS_UPPERCASE); zcases.
Qed.

Lemma canonical_one base flags v :
  2 <= base <= 16 -> 0 <= v < base -> canonical base [ntoa_char v flags] v.
Proof.
  intros Hb Hv. split; simpl.
  - rewrite digit_of_ntoa by lia. lia.
  - repeat constructor; rewrite digit_of_ntoa; lia.
  - exists [], (ntoa_char v flags). done.
Qed.
Lemma canonical_cons base flags ds v :
  2 <= base <= 16 -> 0 < v / base -> canonical base ds (v / base) ->
  canonical base (ntoa_char (v mod base) flags :: ds) v.
Proof.
  intros Hb Hv [H1 H2 (l' & c & -> & H3)].
  assert (0 <= v mod base < base) by (apply Z.mod_pos_bound; lia). split; cbn [le_value].
  - rewrite digit_of_ntoa, H1 by lia. pose proof (Z.div_mod v base). lia.
  - constructor; [rewrite digit_of_ntoa; lia|done].
  - exists (ntoa_char (v mod base) flags :: l'), c. split; [done|]. intros H0. exfalso.
    rewrite (H3 H0) in H1. simpl in H1. lia.
Qed.

(** The digit loop writes the canonical numeral when it fits in what is left of the buffer. *)
Lemma ntoa_digits_ok base flags : 2 <= base <= 16 -> forall n k v buf,
  0 <= v < base ^ Z.of_nat (S k) -> len buf + Z.of_nat (S k) <= 32 -> (k <= n)%nat ->
  exists ds, ntoa_digits n v base flags buf = buf ++ ds /\ canonical base ds v /\ (length ds <= S k)%nat.
Proof.
  intros Hb. induction n as [|n IH]; intros k v buf Hv Hl Hk; cbn [ntoa_digits].
  - assert (k = 0)%nat as -> by lia. rewrite Z.pow_1_r in Hv. rewrite Z.mod_small by lia.
    replace (s8 v) with v by (unfold s8; rewrite u8_small by (unfold is_u8; lia); case_if; lia).
    eexists. split; [done|]. split; [by apply canonical_one|done].
  - assert (0 <= v mod base < base) by (apply Z.mod_pos_bound; lia).
    replace (s8 (v mod base)) with (v mod base)
      by (unfold s8; rewrite u8_small by (unfold is_u8; lia); case_if; lia).
    destruct (Z.eqb_spec (v / base) 0) as [E0|E0]; simpl.
    + eexists. split; [done|]. assert (v < base) by (apply Z.div_small_iff in E0; lia).
      rewrite Z.mod_small by lia. split; [apply canonical_one; lia|simpl; lia].
    + destruct k as [|k].
      { exfalso. apply E0. rewrite Z.pow_1_r in Hv. apply Z.div_small. lia. }
      assert (0 <= v / base < base ^ Z.of_nat (S k)).
      { split; [apply Z.div_pos; lia|]. apply Z.div_lt_upper_bound; [lia|].
        rewrite <- Z.pow_succ_r by lia. replace (Z.succ _) with (Z.of_nat (S (S k))) by lia. lia. }
      unfold PRINTF_NTOA_BUFFER_SIZE, len in *. rewrite length_app. simpl length in *.
      rewrite (proj2 (Z.ltb_lt _ _)) by lia.
      destruct (IH k (v / base) (buf ++ [ntoa_char (v mod base) flags])) as (ds & E & Hds & Hn);
        [done|rewrite length_app; simpl; lia|lia|].
      rewrite E, <- app_assoc. eexists. split; [done|]. split; [|simpl; lia]. apply canonical_cons; try done.
      lia.
Qed.
(** ** Flags and padding *)

Lemma has_lor flags f g : has flags (Z.lor f g) = has flags f || has flags g.
Proof.
  unfold has. rewrite Z.land_lor_distr_r.
  destruct (Z.eqb_spec (Z.land flags f) 0) as [E1|E1], (Z.eqb_spec (Z.land flags g) 0) as [E2|E2]; simpl;
    (destruct (Z.eqb_spec (Z.lor (Z.land flags f) (Z.land flags g)) 0) as [E|E]; simpl; [|try done]);
    rewrite ?Z.lor_eq_0_iff in E; tauto.
Qed.
Lemma unset_absent flags f : has flags f = false -> unset flags f = flags.
Proof.
  unfold has, unset. intros E. apply negb_false_iff, Z.eqb_eq in E. apply Z.bits_inj'. intros n Hn.
  rewrite Z.land_spec, Z.lnot_spec by done. pose proof (f_equal (fun x => Z.testbit x n) E) as Hb. simpl in Hb.
  rewrite Z.land_spec, Z.bits_0 in Hb. destruct (Z.testbit flags n), (Z.testbit f n); done.
Qed.

Lemma fill_zeros_ok k (cond : Z -> bool) : forall n buf,
  (forall x, cond x = (x <? k)) -> k - len buf <= Z.of_nat n ->
  fill_zeros n cond buf = buf ++ replicate (Z.to_nat (k - len buf)) (chr "0").
Proof.
  intros n. induction n as [|n IH]; intros buf Hc Hn; simpl.
  - replace (Z.to_nat (k - len buf)) with 0%nat by lia. by rewrite app_nil_r.
  - rewrite Hc. destruct (Z.ltb_spec (len buf) k).
    + rewrite IH by (try done; unfold len in *; rewrite length_app; simpl; lia).
      rewrite <- app_assoc. f_equal. unfold len. rewrite length_app. simpl.
      replace (Z.to_nat (k - Z.of_nat (length buf))) with (S (Z.to_nat (k - Z.of_nat (length buf + 1)))) by (unfold len in *; lia).
      done.
    + replace (Z.to_nat (k - len buf)) with 0%nat by lia. by rewrite app_nil_r.
Qed.

Lemma fill_zeros_none (cond : Z -> bool) n buf :
  (forall x, cond x = false) -> fill_zeros n cond buf = buf.
Proof. intros Hc. destruct n; simpl; [done|]. by rewrite Hc. Qed.

Definition sign_chars (negative : bool) (flags : Z) : list Z :=
  if negative then str "-"
  else if has flags FLAGS_PLUS then str "+"
  else if has flags FLAGS_SPACE then str " "
  else [].

Lemma put_sign_ok negative flags buf :
  len buf < 32 -> put_sign negative flags buf = buf ++ sign_chars negative flags.
Proof.
  intros Hl. unfold put_sign, sign_chars, PRINTF_NTOA_BUFFER_SIZE. rewrite (proj2 (Z.ltb_lt _ _)) by done.
  repeat case_if; try done. by rewrite app_nil_r.
Qed.
Lemma put_sign_none negative flags buf :
  sign_chars negative flags = [] -> put_sign negative flags buf = buf.
Proof. unfold put_sign, sign_chars. by repeat case_if. Qed.
Lemma sign_length negative flags :
  len (sign_chars negative flags) = if negative || has flags (Z.lor FLAGS_PLUS FLAGS_SPACE) then 1 else 0.
Proof.
  unfold sign_chars. rewrite has_lor. by destruct negative, (has flags FLAGS_PLUS), (has flags FLAGS_SPACE).
Qed.

Lemma rev_replicate {A} n (x : A) : rev (replicate n x) = replicate n x.
Proof.
  induction n as [|n IH]; [done|]. simpl. rewrite IH. symmetry. apply replicate_cons_app.
Qed.
Lemma rev_sign negative flags : rev (sign_chars negative flags) = sign_chars negative flags.
Proof. unfold sign_chars. by repeat case_if. Qed.

(** The prefix of the '#' flag. *)
Definition prefix_chars (base flags : Z) : list Z :=
  if has flags FLAGS_HASH then
    chr "0" :: (if base =? 16 then (if has flags FLAGS_UPPERCASE then str "X" else str "x")
                else if base =? 2 then str "b" else [])
  else [].

(** The layout of an integer conversion for the flags '-', '0', '+', ' ', '#', a width and a
    precision.  With '-' the zeros of the precision are not written (the C standard asks for
    them).  A number that fills the width exactly gives up characters at its front to make
    room for the prefix (two in base 16, else one): padding zeros when there are any, but
    digits when the numeral itself has that length ([hash_drops_digits]). *)
Definition layout (numeral : list Z) (negative : bool) (base prec width flags : Z) : list Z :=
  let sign := sign_chars negative flags in
  let padded := negb (has flags FLAGS_LEFT) && has flags FLAGS_ZEROPAD in
  let inner := if padded then width - len sign else width in
  let zeros := if has flags FLAGS_LEFT then 0
               else Z.max prec (if padded then inner else 0) - len numeral in
  let body := replicate (Z.to_nat zeros) (chr "0") ++ numeral in
  let room := if has flags FLAGS_HASH && negb (has flags FLAGS_PRECISION) && (len body =? inner)
              then (if base =? 16 then 2%nat else 1%nat) else 0%nat in
  let text := sign ++ prefix_chars base flags ++ drop room body in
  let spaces := replicate (Z.to_nat (width - len text)) (chr " ") in
  if has flags FLAGS_LEFT then text ++ spaces
  else if has flags FLAGS_ZEROPAD then text
  else spaces ++ text.

(** The digits, least significant first: none for the value 0 under a precision. *)
Definition numeral_of (base flags : Z) (ds : list Z) (value : Z) : Prop :=
  if has flags FLAGS_PRECISION && (value =? 0) then ds = [] else canonical base ds value.

(** What surely fits into the 32 cells beside sign and prefix. *)
Definition room (flags : Z) : Z := if has flags FLAGS_HASH then 29 else 31.

Lemma len_app (l1 l2 : list Z) : len (l1 ++ l2) = len l1 + len l2.
Proof. unfold len. rewrite length_app. lia. Qed.
Lemma len_replicate n (c : Z) : len (replicate n c) = Z.of_nat n.
Proof. unfold len. by rewrite length_replicate. Qed.
Lemma len_rev l : len (rev l) = len l.
Proof. unfold len. by rewrite length_rev. Qed.
Lemma len_drop n (l : list Z) : len (drop n l) = Z.max 0 (len l - Z.of_nat n).
Proof. unfold len. rewrite length_drop. lia. Qed.
Lemma len_nonneg (l : list Z) : 0 <= len l.
Proof. unfold len. lia. Qed.

(** The leading zeros. *)
Lemma ntoa_zeros_ok buf negative prec width flags :
  0 <= prec <= 31 -> 0 <= width <= 32 ->
  has flags FLAGS_LEFT = false ->
  ntoa_zeros buf negative prec width flags =
    let width' := if has flags FLAGS_ZEROPAD && negb (width =? 0) then width - len (sign_chars negative flags) else width in
    (width', buf ++ replicate (Z.to_nat (Z.max prec (if has flags FLAGS_ZEROPAD then width' else 0) - len buf)) (chr "0")).
Proof.
  intros Hp Hw Hl. unfold ntoa_zeros. rewrite Hl. cbn [negb]. rewrite sign_length.
  set (w' := if negb (width =? 0) && _ && _ then _ else _).
  assert (w' = if has flags FLAGS_ZEROPAD && negb (width =? 0) then
    width - (if negative || has flags (Z.lor FLAGS_PLUS FLAGS_SPACE) then 1 else 0) else width) as Ew.
  { unfold w'. destruct (width =? 0), (has flags FLAGS_ZEROPAD), (negative || _); simpl; lia. }
  rewrite <- Ew.
  assert (0 <= w' <= 32) as Hw'.
  { rewrite Ew. destruct (Z.eqb_spec width 0); simpl; destruct (has flags FLAGS_ZEROPAD); simpl; try lia; case_if; lia. }
  rewrite (fill_zeros_ok prec _ NTOA_STEPS buf);
    [|intros x; unfold PRINTF_NTOA_BUFFER_SIZE; zcases|change (Z.of_nat NTOA_STEPS) with 32; unfold len; lia].
  cbv zeta. f_equal. destruct (has flags FLAGS_ZEROPAD); simpl.
  - rewrite (fill_zeros_ok w' _ NTOA_STEPS);
      [|intros x; unfold PRINTF_NTOA_BUFFER_SIZE; zcases|change (Z.of_nat NTOA_STEPS) with 32; unfold len; lia].
    rewrite <- app_assoc. f_equal. rewrite <- replicate_add. f_equal. unfold len. rewrite length_app, length_replicate. lia.
  - rewrite fill_zeros_none by done. do 2 f_equal. lia.
Qed.

(** The zeros in general, in the terms of [layout], last character first. *)
Lemma ntoa_zeros_layout buf negative prec width flags :
  0 <= prec <= 31 -> 0 <= width <= 32 ->
  let padded := negb (has flags FLAGS_LEFT) && has flags FLAGS_ZEROPAD in
  let inner := if padded then width - len (sign_chars negative flags) else width in
  let zeros := if has flags FLAGS_LEFT then 0 else Z.max prec (if padded then inner else 0) - len buf in
  exists w, ntoa_zeros buf negative prec width flags = (w, buf ++ replicate (Z.to_nat zeros) (chr "0")) /\
    (width <> 0 -> w = inner) /\ (width = 0 -> w = 0).
Proof.
  intros Hp Hw padded inner zeros. subst padded inner zeros. destruct (has flags FLAGS_LEFT) eqn:El; cbn [negb andb].
  - exists width. unfold ntoa_zeros. rewrite El. simpl. by rewrite app_nil_r.
  - rewrite ntoa_zeros_ok by done. cbv zeta. eexists. split; [|split].
    + f_equal. do 3 f_equal. pose proof (len_nonneg (sign_chars negative flags)). pose proof (len_nonneg buf).
      destruct (has flags FLAGS_ZEROPAD), (Z.eqb_spec width 0); simpl; lia.
    + intros Hne. rewrite (proj2 (Z.eqb_neq _ _)) by done. by rewrite andb_true_r.
    + intros ->. by rewrite andb_false_r.
Qed.

Lemma buf_drop_rev l : buf_drop (rev l) = rev (drop 1 l).
Proof. unfold buf_drop. rewrite length_rev. destruct l as [|c l]; [done|]. simpl.
  rewrite Nat.sub_0_r, take_app_le by (rewrite length_rev; lia). rewrite <- (length_rev l). by rewrite take_ge. Qed.

(** The prefix, last character first. *)
Lemma ntoa_hash_ok body base prec width flags :
  (has flags FLAGS_PRECISION = false -> prec = 0) -> has flags FLAGS_HASH = true ->
  let k := if negb (has flags FLAGS_PRECISION) && (len body =? width)
           then (if base =? 16 then 2%nat else 1%nat) else 0%nat in
  len (drop k body) + len (prefix_chars base flags) <= 32 ->
  ntoa_hash (rev body) base prec width flags = rev (prefix_chars base flags ++ drop k body).
Proof.
  intros Hp Hh k Hk. unfold ntoa_hash. rewrite Hh.
  set (b1 := if negb _ && negb _ && _ then _ else _).
  assert (b1 = rev (drop k body)) as ->.
  { unfold b1, k. rewrite len_rev. destruct (has flags FLAGS_PRECISION); cbn [negb andb]; [done|].
    rewrite (Hp eq_refl). destruct (len body =? width); [|by destruct body].
    destruct body as [|c body]; [by rewrite drop_nil|].
    replace (len (c :: body) =? 0) with false by done. cbn [negb andb orb].
    rewrite buf_drop_rev, len_rev.
    destruct (base =? 16); [|by rewrite andb_false_r]. destruct body as [|d body]; [done|].
    replace (len (drop 1 (c :: d :: body)) =? 0) with false by done. cbn [negb andb]. by rewrite buf_drop_rev. }
  rewrite rev_app_distr. rewrite <- (len_rev (drop k body)) in Hk. revert Hk.
  generalize (rev (drop k body)). intros b Hk. unfold prefix_chars in *. rewrite Hh in *.
  unfold buf_put, PRINTF_NTOA_BUFFER_SIZE.
  assert (forall l, len l < 32 -> (len l <? 32) = true) as Hlt by (intros l; apply Z.ltb_lt).
  destruct (base =? 16), (has flags FLAGS_UPPERCASE), (base =? 2); cbn [negb andb] in *;
    unfold len in *; cbn in Hk; rewrite ?(Hlt b) by lia;
    try rewrite Hlt by (rewrite ?length_app; cbn; lia); by rewrite <- ?app_assoc.
Qed.

Lemma ntoa_numeral value base flags k :
  2 <= base <= 16 -> 0 <= value < base ^ k -> 1 <= k <= 32 ->
  exists ds, (if negb (has flags FLAGS_PRECISION) || negb (value =? 0)
              then ntoa_digits NTOA_STEPS value base flags [] else []) = ds /\
    numeral_of base flags ds value /\ len ds <= k.
Proof.
  intros Hb Hv Hk. unfold numeral_of. destruct (_ || _) eqn:E.
  - destruct (ntoa_digits_ok base flags Hb NTOA_STEPS (Z.to_nat (k - 1)) value []) as (ds & -> & Hds & Hn).
    + by replace (Z.of_nat (S (Z.to_nat (k - 1)))) with k by lia.
    + unfold len. simpl. lia.
    + change NTOA_STEPS with 32%nat. lia.
    + exists ds. split; [done|]. split; [|unfold len; lia].
      destruct (has flags FLAGS_PRECISION), (value =? 0); done.
  - exists []. split; [done|]. destruct (has flags FLAGS_PRECISION), (value =? 0); try done. split; [done|]. unfold len. simpl. lia.
Qed.

(** The prefix step in general, in the terms of [layout]. *)
Lemma ntoa_hash_layout body base prec w inner flags :
  (has flags FLAGS_PRECISION = false -> prec = 0) -> (w = inner \/ w = 0 /\ inner <= 0) ->
  let k := if has flags FLAGS_HASH && negb (has flags FLAGS_PRECISION) && (len body =? inner)
           then (if base =? 16 then 2%nat else 1%nat) else 0%nat in
  len (drop k body) + len (prefix_chars base flags) <= 32 ->
  ntoa_hash (rev body) base prec w flags = rev (prefix_chars base flags ++ drop k body).
Proof.
  intros Hp Hw k Hk. subst k. destruct (has flags FLAGS_HASH) eqn:Hh; cbn [andb] in *.
  2: { unfold ntoa_hash, prefix_chars. by rewrite Hh. }
  destruct (Z.eq_dec w inner) as [->|Hne]; [by apply ntoa_hash_ok|].
  destruct Hw as [|[-> Hi]]; [done|]. pose proof (len_nonneg body).
  destruct body as [|c body].
  - rewrite drop_nil in *. rewrite ntoa_hash_ok; [by rewrite drop_nil|done|done|by rewrite drop_nil].
  - assert (0 < len (c :: body)) by (unfold len; simpl; lia).
    rewrite (proj2 (Z.eqb_neq _ inner)), andb_false_r in * by lia.
    rewrite ntoa_hash_ok; [|done..|]; by rewrite (proj2 (Z.eqb_neq _ 0)), andb_false_r by lia.
Qed.

Lemma prefix_length base flags :
  len (prefix_chars base flags) <= if has flags FLAGS_HASH then 2 else 0.
Proof. unfold prefix_chars. repeat case_if; done. Qed.

(** From the digits to the text: zeros, prefix, sign and spaces. *)
Lemma format_layout ds negative base prec width fl :
  (has fl FLAGS_PRECISION = false -> prec = 0) -> 0 <= prec <= room fl -> 0 <= width <= room fl + 1 ->
  len ds <= room fl ->
  (let '(w, buf) := ntoa_zeros ds negative prec width fl in
   out_rev_chars (put_sign negative fl (ntoa_hash buf base prec w fl)) w fl)
  = layout (rev ds) negative base prec width fl.
Proof.
  intros Hp Hpr Hw Hn. assert (29 <= room fl <= 31) as Hroom by (unfold room; case_if; lia).
  destruct (ntoa_zeros_layout ds negative prec width fl ltac:(lia) ltac:(lia)) as (w & -> & Hw1 & Hw2).
  pose proof (sign_length negative fl) as Hsg. pose proof (prefix_length base fl) as Hpre. pose proof (len_nonneg ds).
  unfold layout. cbv zeta. rewrite len_rev. set (padded := negb _ && has fl FLAGS_ZEROPAD) in *.
  set (inner := if padded then _ else width) in *.
  assert (w = inner \/ w = 0 /\ inner <= 0) as Hwi.
  { destruct (Z.eq_dec width 0) as [->|]; [right|left; auto]. split; [auto|]. unfold inner. case_if; [|lia]. rewrite Hsg. case_if; lia. }
  set (zeros := if has fl FLAGS_LEFT then 0 else _) in *.
  replace (ds ++ replicate (Z.to_nat zeros) (chr "0")) with (rev (replicate (Z.to_nat zeros) (chr "0") ++ rev ds))
    by (by rewrite rev_app_distr, rev_involutive, rev_replicate).
  set (body := replicate (Z.to_nat zeros) (chr "0") ++ rev ds) in *.
  set (k := if has fl FLAGS_HASH && _ && _ then _ else 0%nat) in *.
  assert (len body = len ds + Z.max 0 zeros) as Hbody by (unfold body; rewrite len_app, len_replicate, len_rev; lia).
  assert (len (drop k body) + len (prefix_chars base fl) + len (sign_chars negative fl) <= 32) as Hfit.
  { rewrite len_drop, Hbody. revert Hn Hpr Hw. unfold room, zeros, k, inner, padded.
    revert Hpre Hsg. generalize (len (sign_chars negative fl)), (len (prefix_chars base fl)). intros sg pre Hpre Hsg.
    assert (0 <= sg <= 1) by (rewrite Hsg; case_if; lia). clear Hsg.
    destruct (has fl FLAGS_HASH), (has fl FLAGS_LEFT), (has fl FLAGS_ZEROPAD); cbn [negb andb]; lia. }
  rewrite ntoa_hash_layout with (inner := inner) by (try done; pose proof (len_nonneg (sign_chars negative fl)); fold k; lia).
  fold k. set (rest := prefix_chars base fl ++ drop k body) in *.
  assert (len rest + len (sign_chars negative fl) <= 32) as Hfit' by (unfold rest; rewrite len_app; lia).
  assert (put_sign negative fl (rev rest) = rev (sign_chars negative fl ++ rest)) as ->.
  { rewrite rev_app_distr, rev_sign. destruct (decide (sign_chars negative fl = [])) as [E|E].
    { rewrite put_sign_none by done. by rewrite E, app_nil_r. }
    apply put_sign_ok. rewrite len_rev. destruct (sign_chars negative fl); [done|]. unfold len in *. simpl in *. lia. }
  unfold out_rev_chars. rewrite rev_involutive, len_rev.
  assert (padded = false -> w = width) as Hw3.
  { intros Epad. unfold inner in *. rewrite Epad in *. destruct (Z.eq_dec width 0); [rewrite Hw2; lia|auto]. }
  unfold padded in *. destruct (has fl FLAGS_LEFT), (has fl FLAGS_ZEROPAD); cbn [negb andb app] in *;
    rewrite ?Hw3, ?app_nil_r by done; done.
Qed.

Lemma ntoa_chars_layout value negative base prec width flags :
  let flags' := if value =? 0 then unset flags FLAGS_HASH else flags in
  2 <= base <= 16 -> 0 <= value < base ^ room flags' ->
  (has flags' FLAGS_PRECISION = false -> prec = 0) -> 0 <= prec <= room flags' -> 0 <= width <= room flags' + 1 ->
  exists ds, numeral_of base flags' ds value /\
    ntoa_chars value negative base prec width flags = layout (rev ds) negative base prec width flags'.
Proof.
  intros fl Hb Hv Hp Hpr Hw. unfold ntoa_chars, ntoa_buf. fold fl.
  assert (29 <= room fl <= 31) as Hroom by (unfold room; case_if; lia).
  destruct (ntoa_numeral value base fl (room fl) Hb Hv ltac:(lia)) as (ds & -> & Hds & Hn). exists ds. split; [done|].
  rewrite <- (format_layout ds) by done. by destruct (ntoa_zeros _ _ _ _ _).
Qed.

(** C17: the integer conversions print the number.  In every base from 2 to 16, with every
    flag, for every 64-bit magnitude of at most 31 digits in that base, precisions up to 31 and
    widths up to 32 (two less of each with '#'), both _ntoa_long and _ntoa_long_long append
    exactly the layout of the flags: the sign, the prefix of the base ('#' and a value other than
    0), zero or space padding, and a numeral without superfluous zeros whose value is the
    argument (no digit at all for 0 under a precision). *)
Theorem integer_conversion {P : Type} {S : Sink P} {rd stable} {L : LawfulSink S rd stable}
    (value : Z) (negative : bool) (base prec width flags : Z) (p : P) :
  let flags' := if value =? 0 then unset flags FLAGS_HASH else flags in
  2 <= base <= 16 -> 0 <= value < base ^ room flags' ->
  (has flags' FLAGS_PRECISION = false -> prec = 0) -> 0 <= prec <= room flags' -> 0 <= width <= room flags' + 1 ->
  exists ds, numeral_of base flags' ds value /\
    _ntoa_long value negative base prec width flags p = put_list (layout (rev ds) negative base prec width flags') p /\
    _ntoa_long_long value negative base prec width flags p = put_list (layout (rev ds) negative base prec width flags') p.
Proof.
  intros fl Hb Hv Hp Hpr Hw.
  destruct (ntoa_chars_layout value negative base prec width flags Hb Hv Hp Hpr Hw) as (ds & Hds & E).
  exists ds. rewrite ntoa_long_text, ntoa_long_long_text, E. done.
Qed.

(** %#08x of 0x2a, which prints 0x00002a. *)
Lemma integer_conversion_witness : exists ds,
  canonical 16 ds 42 /\
  _ntoa_long (H := text_sink (fun _ => 0)) 42 false 16 0 8 (Z.lor FLAGS_HASH FLAGS_ZEROPAD) [] =
    put_list (H := text_sink (fun _ => 0)) (layout (rev ds) false 16 0 8 (Z.lor FLAGS_HASH FLAGS_ZEROPAD)) [].
Proof.
  destruct (integer_conversion (L := text_lawful (fun _ => 0)) 42 false 16 0 8 (Z.lor FLAGS_HASH FLAGS_ZEROPAD) [])
    as (ds & Hc & E & _); [lia|split; [lia|reflexivity]|reflexivity|vm_compute; split; discriminate|vm_compute; split; discriminate|].
  exists ds. split; [exact Hc|exact E].
Defined.

(** ** Reading a numeral back *)

Lemma le_value_bound base l : 2 <= base -> Forall (fun c => 0 <= digit_of c < base) l -> 0 <= le_value base l.
Proof. intros Hb. induction 1; simpl; nia. Qed.

(** The decimal digits of [digit_of] are the characters '0' to '9'. *)
Definition decimal_char (c : Z) : Prop := 48 <= c <= 57.

Lemma ntoa_digits_decimal flags n : forall v buf,
  0 <= v -> Forall decimal_char buf -> Forall decimal_char (ntoa_digits n v 10 flags buf).
Proof.
  assert (forall v buf, 0 <= v -> Forall decimal_char buf ->
    Forall decimal_char (buf ++ [ntoa_char (s8 (v mod 10)) flags])) as Hone.
  { intros v buf Hv Hb. apply Forall_app. split; [done|]. constructor; [|done].
    assert (0 <= v mod 10 < 10) by (apply Z.mod_pos_bound; lia).
    replace (s8 (v mod 10)) with (v mod 10) by (unfold s8; rewrite u8_small by (unfold is_u8; lia); case_if; lia).
    unfold ntoa_char, decimal_char. change (chr "0") with 48. rewrite (proj2 (Z.ltb_lt _ _)) by lia. lia. }
  induction n as [|n IH]; intros v buf Hv Hb; cbn [ntoa_digits]; [auto|].
  case_if; [|auto]. apply IH; [apply Z.div_pos; lia|auto].
Qed.

(** Horner's rule from the most significant end. *)
Lemma horner_rev l : fold_left (fun i c => i * 10 + (c - 48)) (rev l) 0 = le_value 10 l \/ ~ Forall decimal_char l.
Proof.
  destruct (decide (Forall (fun c => 48 <= c <= 57) l)) as [Hl|Hl]; [left|by right].
  induction Hl as [|c l Hc Hl IH]; simpl; [done|]. rewrite fold_left_app, IH. simpl.
  unfold digit_of. rewrite (proj2 (Z.leb_le _ _)) by lia. lia.
Qed.

Lemma horner_mod l : forall i j, u32 i = u32 j ->
  u32 (fold_left (fun i c => u32 (i * 10 + u32 (c - 48))) l i) = u32 (fold_left (fun i c => i * 10 + (c - 48)) l j).
Proof.
  induction l as [|c l IH]; intros i j E; simpl; [done|]. apply IH.
  rewrite u32_u32, u32_add_r. unfold u32 in *. rewrite <- Zplus_mod_idemp_l, <- Zmult_mod_idemp_l, E.
  by rewrite Zmult_mod_idemp_l, Zplus_mod_idemp_l.
Qed.

Lemma atoi_loop_decimal rd l : forall fuel i a,
  (forall k c, l !! k = Some c -> rd (a + Z.of_nat k) = c) -> Forall decimal_char l ->
  _is_digit (rd (a + Z.of_nat (length l))) = false -> 0 <= a -> a + Z.of_nat (length l) < 4294967296 ->
  (length l < fuel)%nat ->
  atoi_loop fuel rd i a =
  Some (fold_left (fun i c => u32 (i * 10 + u32 (c - 48))) l i, a + Z.of_nat (length l)).
Proof.
  induction l as [|c l IH]; intros fuel i a Hr Hd He Ha Hl Hf; (destruct fuel as [|fuel]; [simpl in Hf; lia|]); cbn [atoi_loop].
  - simpl in He. rewrite Z.add_0_r in *. by rewrite He.
  - apply Forall_cons in Hd as [Hc Hd]. assert (rd a = c) as -> by (rewrite <- (Z.add_0_r a); by apply (Hr 0%nat)).
    unfold decimal_char in Hc. simpl length in *.
    assert (s8 c = c) as Es by (unfold s8; rewrite u8_small by (unfold is_u8; lia); case_if; lia).
    assert (_is_digit c = true) as ->.
    { unfold _is_digit. rewrite Es. change (chr "0") with 48. change (chr "9") with 57. lia. }
    rewrite Es, (u32_small (a + 1)) by (unfold is_u32; lia). change (chr "0") with 48.
    rewrite IH; [simpl; do 2 f_equal; lia| |done| |lia..].
    + intros k d Hk. rewrite <- (Hr (S k) d Hk). f_equal. lia.
    + rewrite <- He. f_equal. f_equal. lia.
Qed.

(** Printing and reading are inverse.  The text %u prints for a 32-bit value, followed in
    memory by a byte that is no digit, is read back by _atoi as that value, with the pointer left on
    that byte. *)
Theorem print_atoi_roundtrip (value : Z) (fuel : nat) (rd : Z -> Z) (a : Z) :
  is_u32 value ->
  let text := ntoa_chars value false 10 0 0 0 in
  (forall k c, text !! k = Some c -> rd (a + Z.of_nat k) = c) ->
  _is_digit (rd (a + Z.of_nat (length text))) = false ->
  0 <= a -> a + Z.of_nat (length text) < 4294967296 -> (length text < fuel)%nat ->
  _atoi fuel rd a = Some (value, a + Z.of_nat (length text)).
Proof.
  intros Hv text Hr He Ha Hl Hf.
  assert (exists ds, canonical 10 ds value /\ Forall decimal_char ds /\ text = rev ds) as (ds & Hds & Hdec & Et).
  { destruct (ntoa_numeral value 10 0 20 ltac:(lia) ltac:(unfold is_u32 in *; lia) ltac:(lia)) as (ds & E & Hds & Hn).
    change (negb (has 0 FLAGS_PRECISION) || negb (value =? 0)) with true in E. cbv iota in E.
    change (canonical 10 ds value) in Hds.
    exists ds. split; [done|]. split; [rewrite <- E; apply ntoa_digits_decimal; [apply Hv|done]|].
    unfold text, ntoa_chars, ntoa_buf. replace (if value =? 0 then unset 0 FLAGS_HASH else 0) with 0 by (by case_if).
    change (negb (has 0 FLAGS_PRECISION) || negb (value =? 0)) with true. cbv iota. rewrite E.
    rewrite ntoa_zeros_ok by (done || lia). cbv zeta.
    change (has 0 FLAGS_ZEROPAD && negb (0 =? 0)) with false. cbv iota.
    replace (Z.to_nat _) with 0%nat by (unfold len; simpl; lia). simpl replicate. rewrite app_nil_r.
    unfold ntoa_hash. change (has 0 FLAGS_HASH) with false. cbv iota. rewrite put_sign_none by done.
    unfold out_rev_chars. simpl. replace (Z.to_nat _) with 0%nat by (unfold len; simpl; lia). simpl. by rewrite app_nil_r. }
  unfold _atoi. rewrite (atoi_loop_decimal rd text); try done; [|rewrite Et; by apply Forall_rev].
  do 2 f_equal. rewrite <- (u32_small (fold_left _ _ _)).
  - rewrite (horner_mod text 0 0 eq_refl), Et. destruct (horner_rev ds) as [->|]; [|done].
    rewrite (can_value _ _ _ Hds). by apply u32_small.
  - destruct text as [|c t _] using rev_ind; [unfold is_u32; simpl; lia|]. rewrite fold_left_app. simpl. auto with sakura.
Qed.

Lemma print_atoi_roundtrip_witness :
  _atoi 20 (fun a => default 0 (ntoa_chars 90210 false 10 0 0 0 !! Z.to_nat (a - 4096))) 4096 = Some (90210, 4101).
Proof.
  apply (print_atoi_roundtrip 90210 20).
  - unfold is_u32. lia.
  - intros k c Hk. replace (Z.to_nat _) with k by lia. rewrite Hk. reflexivity.
  - vm_compute. reflexivity.
  - lia.
  - vm_compute. reflexivity.
  - vm_compute. lia.
Defined.
(** ** Decimals *)

Lemma canonical_ten v ds :
  0 < v / 10 -> canonical 10 ds (v / 10) -> canonical 10 ((48 + v mod 10) :: ds) v.
Proof.
  intros Hv Hc. assert (0 <= v mod 10 < 10) by (apply Z.mod_pos_bound; lia).
  replace (48 + v mod 10) with (ntoa_char (v mod 10) 0).
  - by apply canonical_cons; [lia|..].
  - unfold ntoa_char. by rewrite (proj2 (Z.ltb_lt _ _)) by lia.
Qed.
Lemma canonical_ten_one v : 0 <= v < 10 -> canonical 10 [48 + v] v.
Proof.
  intros Hv. replace (48 + v) with (ntoa_char v 0); [apply canonical_one; lia|].
  unfold ntoa_char. by rewrite (proj2 (Z.ltb_lt _ _)) by lia.
Qed.

(** The fraction loop: the canonical numeral, one count for each digit. *)
Lemma ftoa_frac_ok : forall n k frac count buf,
  0 <= frac < 10 ^ Z.of_nat (S k) -> len buf + Z.of_nat (S k) <= 32 -> (S k <= n)%nat ->
  Z.of_nat (S k) <= count < 4294967296 ->
  exists ds, ftoa_frac n frac count buf = (count - Z.of_nat (length ds), buf ++ ds) /\
    canonical 10 ds frac /\ Forall decimal_char ds /\ (length ds <= S k)%nat.
Proof.
  induction n as [|n IH]; intros k frac count buf Hv Hl Hk Hc; [lia|]. cbn [ftoa_frac].
  unfold PRINTF_FTOA_BUFFER_SIZE. rewrite (proj2 (Z.ltb_lt _ _)) by lia.
  rewrite u32_small by (unfold is_u32; lia). change (chr "0") with 48.
  assert (0 <= frac mod 10 < 10) by (apply Z.mod_pos_bound; lia).
  destruct (Z.eqb_spec (frac / 10) 0) as [E0|E0].
  - assert (frac < 10) by (apply Z.div_small_iff in E0; lia). rewrite Z.mod_small by lia.
    exists [48 + frac]. split; [done|]. split; [apply canonical_ten_one; lia|].
    split; [repeat constructor; unfold decimal_char; lia|simpl; lia].
  - destruct k as [|k]; [exfalso; apply E0; apply Z.div_small; by rewrite Z.pow_1_r in Hv|].
    assert (0 <= frac / 10 < 10 ^ Z.of_nat (S k)).
    { split; [apply Z.div_pos; lia|]. apply Z.div_lt_upper_bound; [lia|].
      rewrite <- Z.pow_succ_r by lia. replace (Z.succ _) with (Z.of_nat (S (S k))) by lia. lia. }
    destruct (IH k (frac / 10) (count - 1) (buf ++ [48 + frac mod 10])) as (ds & E & Hds & Hd & Hn);
      [done|unfold len in *; rewrite length_app; simpl; lia|lia|lia|].
    rewrite E, <- app_assoc. exists (48 + frac mod 10 :: ds). split; [f_equal; simpl; lia|].
    split; [apply canonical_ten; [lia|done]|]. split; [constructor; [unfold decimal_char; lia|done]|simpl; lia].
Qed.

Lemma ftoa_extra_ok : forall n count buf,
  0 <= count <= Z.of_nat n -> len buf + count <= 32 ->
  ftoa_extra n count buf = buf ++ replicate (Z.to_nat count) 48.
Proof.
  induction n as [|n IH]; intros count buf Hc Hl; cbn [ftoa_extra].
  - replace (Z.to_nat count) with 0%nat by lia. by rewrite app_nil_r.
  - unfold PRINTF_FTOA_BUFFER_SIZE. destruct (Z.eq_dec count 0) as [->|].
    + simpl. rewrite andb_false_r, app_nil_r. done.
    + rewrite (proj2 (Z.ltb_lt _ _)) by lia. rewrite Z.gtb_ltb, (proj2 (Z.ltb_lt _ _)) by lia. cbn [andb].
      rewrite IH by (unfold len in *; rewrite ?length_app; simpl; lia). rewrite <- app_assoc. f_equal.
      replace (Z.to_nat count) with (S (Z.to_nat (count - 1))) by lia. done.
Qed.

Lemma ftoa_whole_ok : forall n k whole buf,
  0 <= whole < 10 ^ Z.of_nat (S k) -> len buf + Z.of_nat (S k) <= 32 -> (S k <= n)%nat ->
  exists ds, ftoa_whole n whole buf = buf ++ ds /\ canonical 10 ds whole /\ (length ds <= S k)%nat.
Proof.
  induction n as [|n IH]; intros k whole buf Hv Hl Hk; [lia|]. cbn [ftoa_whole].
  unfold PRINTF_FTOA_BUFFER_SIZE. rewrite (proj2 (Z.ltb_lt _ _)) by lia.
  rewrite Z.rem_mod_nonneg, Z.quot_div_nonneg by lia. change (chr "0") with 48.
  assert (0 <= whole mod 10 < 10) by (apply Z.mod_pos_bound; lia).
  rewrite u8_small by (unfold is_u8; lia).
  destruct (Z.eqb_spec (whole / 10) 0) as [E0|E0].
  - assert (whole < 10) by (apply Z.div_small_iff in E0; lia). rewrite Z.mod_small by lia.
    exists [48 + whole]. split; [done|]. split; [apply canonical_ten_one; lia|simpl; lia].
  - destruct k as [|k]; [exfalso; apply E0; apply Z.div_small; by rewrite Z.pow_1_r in Hv|].
    assert (0 <= whole / 10 < 10 ^ Z.of_nat (S k)).
    { split; [apply Z.div_pos; lia|]. apply Z.div_lt_upper_bound; [lia|].
      rewrite <- Z.pow_succ_r by lia. replace (Z.succ _) with (Z.of_nat (S (S k))) by lia. lia. }
    destruct (IH k (whole / 10) (buf ++ [48 + whole mod 10])) as (ds & E & Hds & Hn);
      [done|unfold len in *; rewrite length_app; simpl; lia|lia|].
    rewrite E, <- app_assoc. eexists. split; [done|]. split; [apply canonical_ten; [lia|done]|simpl; lia].
Qed.

Lemma le_value_zeros ds k : le_value 10 (ds ++ replicate k 48) = le_value 10 ds.
Proof.
  induction ds as [|c ds IH]; simpl; [|by rewrite IH].
  induction k as [|k IHk]; simpl; [done|]. rewrite IHk. done.
Qed.

(** The digits of %f: of a whole part of at most ten digits and a fraction below 10^prec,
    prec from 1 to 9, _ftoa lays out, last character first, exactly prec decimal digits
    denoting the fraction, the point, and the numeral of the whole part. *)
Lemma ftoa_digits_ok (whole frac prec : Z) (buf : list Z) :
  0 <= whole < 10 ^ 10 -> 1 <= prec <= 9 -> 0 <= frac < 10 ^ prec -> len buf + prec <= 21 ->
  exists fs ws, ftoa_digits whole frac prec buf = buf ++ fs ++ chr "." :: ws /\
    Z.of_nat (length fs) = prec /\ Forall decimal_char fs /\ le_value 10 fs = frac /\ canonical 10 ws whole /\
    Z.of_nat (length ws) <= 10.
Proof.
  intros Hw Hp Hf Hl. unfold ftoa_digits. rewrite (proj2 (Z.eqb_neq _ _)) by lia.
  destruct (ftoa_frac_ok NTOA_STEPS (Z.to_nat (prec - 1)) frac prec buf) as (ds & E & Hds & Hdec & Hn).
  - replace (Z.of_nat (S (Z.to_nat (prec - 1)))) with prec by lia. done.
  - lia.
  - change NTOA_STEPS with 32%nat. lia.
  - lia.
  - rewrite E. change (Z.of_nat NTOA_STEPS) with 32 in *.
    rewrite ftoa_extra_ok by (try (change (Z.of_nat NTOA_STEPS) with 32); unfold len in *; rewrite ?length_app; lia).
    rewrite <- app_assoc. set (fs := ds ++ _).
    assert (Z.of_nat (length fs) = prec) as Hfs.
    { unfold fs. rewrite length_app, length_replicate. lia. }
    unfold buf_put, PRINTF_NTOA_BUFFER_SIZE.
    rewrite (proj2 (Z.ltb_lt _ _)) by (unfold len in *; rewrite length_app; lia).
    destruct (ftoa_whole_ok NTOA_STEPS 9 whole ((buf ++ fs) ++ [chr "."])) as (ws & Ew & Hws & Hnw).
    + exact Hw.
    + unfold len in *. rewrite !length_app. simpl. lia.
    + change NTOA_STEPS with 32%nat. lia.
    + exists fs, ws. rewrite Ew, <- !app_assoc. split_and!; try done.
      * unfold fs. apply Forall_app. split; [done|]. apply Forall_replicate. unfold decimal_char. lia.
      * unfold fs. rewrite le_value_zeros. apply Hds.
      * lia.
Qed.

Lemma ftoa_limit_ok : forall n prec buf,
  len buf + Z.of_nat n = 32 ->
  ftoa_limit n prec buf =
    let k := Z.max 0 (Z.min (Z.of_nat n) (prec - 9)) in (prec - k, buf ++ replicate (Z.to_nat k) (chr "0")).
Proof.
  induction n as [|n IH]; intros prec buf Hl; cbn [ftoa_limit]; cbv zeta.
  - replace (Z.max 0 (Z.min _ _)) with 0 by lia. simpl. by rewrite Z.sub_0_r, app_nil_r.
  - unfold PRINTF_FTOA_BUFFER_SIZE. rewrite (proj2 (Z.ltb_lt _ _)) by lia. rewrite Z.gtb_ltb. cbn [andb].
    destruct (Z.ltb_spec 9 prec).
    + rewrite IH by (unfold len in *; rewrite length_app; simpl; lia). cbv zeta.
      replace (Z.max 0 (Z.min (Z.of_nat (S n)) (prec - 9)))
        with (Z.max 0 (Z.min (Z.of_nat n) (prec - 1 - 9)) + 1) by lia.
      rewrite <- app_assoc. f_equal; [lia|]. f_equal. rewrite Z2Nat.inj_add by lia.
      rewrite Nat.add_comm. done.
    + replace (Z.max 0 (Z.min _ _)) with 0 by lia. simpl. by rewrite Z.sub_0_r, app_nil_r.
Qed.

(** For which precisions %f is defined.  The precision is brought down by at most 32, the
    size of the buffer, so that pow10[prec] is inside its ten entries exactly up to precision
    41; with 42 or more the table is read out of bounds.  This holds for every
    floating-point arithmetic and every value. *)
Theorem ftoa_precision_domain {P : Type} {S : Sink P} {D : Type} {F : Double D}
    (value : D) (negative : bool) (prec width flags : Z) (p : P) :
  has flags FLAGS_PRECISION = true -> 0 <= prec ->
  is_Some (ftoa_number value negative prec width flags p) <-> prec <= 41.
Proof.
  intros Hf Hp. unfold ftoa_number. rewrite Hf. cbn [negb]. rewrite ftoa_limit_ok by done. cbv zeta.
  change (Z.of_nat NTOA_STEPS) with 32. set (k := Z.max 0 _). cbv iota.
  destruct (pow10 !! Z.to_nat (prec - k)) as [p10|] eqn:E; simpl.
  - destruct (ftoa_round value (prec - k) p10) as [wh fr].
    apply lookup_lt_Some in E. simpl in E.
    split; [lia|]. intros _. destruct (negb (has flags FLAGS_LEFT) && has flags FLAGS_ZEROPAD); by eexists.
  - apply lookup_ge_None in E. simpl in E. rewrite is_Some_alt. split; [done|lia].
Qed.

Lemma ftoa_precision_domain_witness :
  is_Some (ftoa_number (H := text_sink (fun _ => 0)) (d_of_Z (D := spec_float) 3) false 41 0 FLAGS_PRECISION []).
Proof.
  apply (ftoa_precision_domain (S := text_sink (fun _ => 0)) (d_of_Z (D := spec_float) 3) false 41 0 FLAGS_PRECISION []);
    [reflexivity|lia|lia].
Defined.
(** ** Corner cases *)

(** %033d of -5: the zeros fill the 32 cells and the sign is not written. *)
Example zeropad_drops_sign :
  ntoa_chars 5 true 10 0 33 FLAGS_ZEROPAD = str "00000000000000000000000000000005".
Proof. vm_compute. reflexivity. Qed.

(** %#4x of 0x1234 prints 0x34, and %#4o of 0o1234 prints 0234: the digits that fill the width make
    room for the prefix. *)
Example hash_drops_digits :
  ntoa_chars 0x1234 false 16 0 4 FLAGS_HASH = str "0x34" /\
  ntoa_chars 668 false 8 0 4 FLAGS_HASH = str "0234".
Proof. split; vm_compute; reflexivity. Qed.

(** %-8.5d of 42: the precision is not applied. *)
Example left_ignores_precision :
  ntoa_chars 42 false 10 5 8 (Z.lor FLAGS_LEFT FLAGS_PRECISION) = str "42      ".
Proof. vm_compute. reflexivity. Qed.

(** %llb of 2^32: only the low 32 binary digits are written. *)
Example binary_drops_high_digits :
  ntoa_chars (2 ^ 32) false 2 0 0 FLAGS_LONG_LONG = str "00000000000000000000000000000000".
Proof. vm_compute. reflexivity. Qed.

(** %e of 0.0 prints the exponent -308. *)
Example exponent_of_zero :
  _etoa (H := text_sink (fun _ => 0)) 5 (d_of_Z (D := spec_float) 0) 0 0 0 [] = Some (str "0.000000e-308").
Proof. vm_compute. reflexivity. Qed.

(** A format that ends in a lone '%': its NUL is printed, and reading goes on behind it. *)
Example lone_percent_reads_on :
  vsn_loop (D := spec_float) (H := text_sink (fun a => default 0 ((str "%" ++ [0] ++ str "secret") !! Z.to_nat a))) 20 0 [] []
    = Some ([0] ++ str "secret").
Proof. vm_compute. reflexivity. Qed.

End PrintfNumbers.
