(* ===== verification/Binary64.v ===== *)
(** The arithmetic of IEEE binary64 as the Standard Library computes it (SpecFloat), in exact
    integers: the value of a double in units of 2^-1200, what its operations return, and by how
    much they round.  Kernel/Libk/vsnprintf.c prints doubles with these operations; the
    instance [Printf.b64] of its interface is the one of this file. *)

From S2P Require Import Prelude Printf.
From Stdlib Require Import SpecFloat.

Module Binary64.
Import Printf.

(** ** Values *)

(** The unit: 2^-1200 divides every double and every product of a double with an integer below
    2^53 that the operations form. *)
Definition ONE : Z := 2 ^ 1200.
Definition units (x : spec_float) : Z :=
  match x with S754_finite s m e => cond_Zopp s (Z.pos m) * 2 ^ (e + 1200) | _ => 0 end.

(** A finite double. *)
Definition is_double (x : spec_float) : bool :=
  match x with S754_zero _ | S754_finite _ _ _ => valid_binary 53 1024 x | _ => false end.

(** The mantissas and exponents of doubles. *)
Definition fits (m e : Z) : Prop := -1074 <= e <= 971 /\ 0 < m < 2 ^ 53 /\ (2 ^ 52 <= m \/ e = -1074).

Definition expo (d : Z) : Z := Z.max (d - 53) (-1074).
Lemma fexp_expo d : fexp 53 1024 d = expo d.
Proof. done. Qed.

Lemma digits_bounds m : 2 ^ (Z.pos (digits2_pos m) - 1) <= Z.pos m < 2 ^ Z.pos (digits2_pos m).
Proof.
  induction m as [m IH|m IH|]; cbn [digits2_pos]; [..|done];
    rewrite Pos2Z.inj_succ; replace (Z.succ _ - 1) with (Z.succ (Z.pos (digits2_pos m) - 1)) by lia;
    rewrite !Z.pow_succ_r by lia; lia.
Qed.
Lemma digits_unique m d : 0 <= d -> 2 ^ d <= Z.pos m < 2 ^ (d + 1) -> Z.pos (digits2_pos m) = d + 1.
Proof.
  intros Hd Hm. pose proof (digits_bounds m) as Hb. set (k := Z.pos (digits2_pos m)) in *. assert (0 < k) by done.
  assert (d < k) by (apply (Z.pow_lt_mono_r_iff 2); lia).
  assert (k - 1 < d + 1) by (apply (Z.pow_lt_mono_r_iff 2); lia). lia.
Qed.
Lemma digits_le m d : 0 <= d -> Z.pos m < 2 ^ d -> Z.pos (digits2_pos m) <= d.
Proof.
  intros Hd Hm. pose proof (digits_bounds m) as Hb. set (k := Z.pos (digits2_pos m)) in *. assert (0 < k) by done.
  assert (k - 1 < d) by (apply (Z.pow_lt_mono_r_iff 2); lia). lia.
Qed.
Lemma digits_ge m d : 0 <= d -> 2 ^ d <= Z.pos m -> d + 1 <= Z.pos (digits2_pos m).
Proof.
  intros Hd Hm. pose proof (digits_bounds m) as Hb. set (k := Z.pos (digits2_pos m)) in *. assert (0 < k) by done.
  assert (d < k) by (apply (Z.pow_lt_mono_r_iff 2); lia). lia.
Qed.

Lemma bounded_fits m e : bounded 53 1024 m e = true <-> fits (Z.pos m) e.
Proof.
  unfold bounded, canonical_mantissa, fits. rewrite fexp_expo, andb_true_iff, Z.eqb_eq, Z.leb_le. unfold expo.
  pose proof (digits_bounds m) as Hb. change (1024 - 53) with 971. split.
  - intros [He H1]. assert (Z.pos (digits2_pos m) <= 53) as Hd by lia. split_and!; [lia|lia|lia| |].
    + apply Z.lt_le_trans with (1 := proj2 Hb). apply Z.pow_le_mono_r; lia.
    + destruct (Z.eq_dec e (-1074)); [by right|left]. assert (Z.pos (digits2_pos m) = 53) as E by lia.
      rewrite E in Hb. apply Hb.
  - intros ([H1 H2] & [H3 H4] & H5). pose proof (digits_le m 53 ltac:(lia) H4). split; [|lia].
    destruct H5 as [H5| ->]; [|lia]. rewrite (digits_unique m 52); lia.
Qed.

Lemma double_finite s m e : is_double (S754_finite s m e) = true <-> fits (Z.pos m) e.
Proof. apply bounded_fits. Qed.

(** ** Shifting right *)

(** [shifted m k r]: the record [r] is [m] shifted right by [k], its two flags saying how the
    rest compares with one half. *)
Record shifted (m k : Z) (r : shr_record) : Prop := {
  sh_k : 0 <= k;
  sh_pos : 0 <= shr_m r;
  sh_rest : 0 <= m - shr_m r * 2 ^ k < 2 ^ k;
  sh_flags : match shr_r r, shr_s r with
             | false, false => m - shr_m r * 2 ^ k = 0
             | false, true => 0 < 2 * (m - shr_m r * 2 ^ k) < 2 ^ k
             | true, false => 2 * (m - shr_m r * 2 ^ k) = 2 ^ k
             | true, true => 2 ^ k < 2 * (m - shr_m r * 2 ^ k)
             end
}.

Lemma shifted_step m k r : shifted m k r -> shifted m (k + 1) (shr_1 r).
Proof.
  intros [Hk Hp Hr Hf]. destruct r as [q r s]. cbn [shr_m shr_r shr_s] in *.
  assert (2 ^ (k + 1) = 2 * 2 ^ k) as E by (rewrite Z.pow_add_r by lia; lia).
  assert (0 < 2 ^ k) by (apply Z.pow_pos_nonneg; lia).
  assert (shr_1 {| shr_m := q; shr_r := r; shr_s := s |}
          = {| shr_m := Z.div2 q; shr_r := Z.odd q; shr_s := r || s |}) as ->
    by (destruct q as [|[q|q|]|q]; done).
  pose proof (Z.div2_odd q) as Eq. assert (0 <= Z.div2 q) as Hh by (by apply Z.div2_nonneg).
  revert Eq Hh. generalize (Z.div2 q), (Z.odd q). intros h b -> Hh. clear Hp.
  destruct b, r, s; cbn [Z.b2z orb] in *; split; cbn [shr_m shr_r shr_s]; rewrite ?E; nia.
Qed.

Lemma shifted_iter m n : forall k r, shifted m k r -> shifted m (k + Z.pos n) (iter_pos shr_1 n r).
Proof.
  induction n as [n IH|n IH|]; intros k r Hs; cbn [iter_pos].
  - replace (k + Z.pos n~1) with (k + 1 + Z.pos n + Z.pos n) by lia. by apply IH, IH, shifted_step.
  - replace (k + Z.pos n~0) with (k + Z.pos n + Z.pos n) by lia. by apply IH, IH.
  - by apply shifted_step.
Qed.

(** Rounding to nearest: off by at most half a unit of the last place kept. *)
Lemma shifted_nearest m k r : shifted m k r ->
  let q := round_nearest_even (shr_m r) (loc_of_shr_record r) in
  0 <= q /\ shr_m r <= q <= shr_m r + 1 /\ 2 * Z.abs (q * 2 ^ k - m) <= 2 ^ k.
Proof.
  intros [Hk Hp Hr Hf]. destruct r as [q r s]. cbn [shr_m shr_r shr_s] in *.
  assert (0 < 2 ^ k) by (apply Z.pow_pos_nonneg; lia).
  destruct r, s; cbn [loc_of_shr_record round_nearest_even]; try nia.
  destruct (Z.even q); nia.
Qed.

(** ** Rounding *)

Lemma shr_shifted m e n : 0 <= m -> 0 <= n ->
  shifted m n (shr (shr_record_of_loc m loc_Exact) e n).1 /\ (shr (shr_record_of_loc m loc_Exact) e n).2 = e + n.
Proof.
  intros Hm Hn. assert (shifted m 0 (shr_record_of_loc m loc_Exact)) as H0 by (split; cbn; lia).
  destruct n as [|n|n]; cbn [shr fst snd]; [|split; [|done]|lia].
  - split; [done|lia].
  - apply (shifted_iter m n 0 _ H0).
Qed.
Lemma shr_none m e n : n <= 0 -> shr (shr_record_of_loc m loc_Exact) e n = (shr_record_of_loc m loc_Exact, e).
Proof. intros Hn. by destruct n. Qed.

Lemma pow2_split a b : 0 <= b -> b <= a -> 2 ^ a = 2 ^ (a - b) * 2 ^ b.
Proof. intros Hb Ha. rewrite <- Z.pow_add_r by lia. f_equal. lia. Qed.

(** The second normalisation, after rounding up to a power of two. *)
Lemma round_last s q f : -1074 <= f <= 960 -> 0 <= q <= 2 ^ 53 -> (2 ^ 52 <= q \/ f = -1074) ->
  let r := (let '(mrs, e) := shr_fexp 53 1024 q f loc_Exact in
            match shr_m mrs with
            | Z0 => S754_zero s
            | Z.pos m => if Z.leb e (1024 - 53) then S754_finite s m e else S754_infinity s
            | _ => S754_nan
            end) in
  is_double r = true /\ units r = cond_Zopp s q * 2 ^ (f + 1200).
Proof.
  intros Hf Hq Hn. unfold shr_fexp. rewrite fexp_expo. unfold expo.
  destruct (Z.eq_dec q (2 ^ 53)) as [->|Hne].
  - change (Zdigits2 (2 ^ 53)) with 54. replace (Z.max (54 + f - 53) (-1074) - f) with 1 by lia.
    change (shr _ f 1) with (Build_shr_record (2 ^ 52) false false, f + 1). cbn [shr_m]. change (2 ^ 52) with (Z.pos (2 ^ 52)%positive).
    cbv iota. rewrite (proj2 (Z.leb_le _ _)) by lia. split.
    + apply double_finite. unfold fits. split_and!; try lia.
    + cbn [units]. replace (f + 1 + 1200) with (Z.succ (f + 1200)) by lia. rewrite Z.pow_succ_r by lia.
      destruct s; cbn [cond_Zopp]; nia.
  - assert (Zdigits2 q <= 53) as Hd.
    { destruct q as [|q|q]; [done| |lia]. apply digits_le; lia. }
    rewrite shr_none by lia. cbn [shr_m shr_record_of_loc]. destruct q as [|q|q]; [|cbv iota|lia].
    + split; [done|]. by destruct s.
    + rewrite (proj2 (Z.leb_le _ _)) by lia. split; [|done]. apply double_finite. unfold fits. lia.
Qed.

(** The result of an operation whose exact value is m * 2^e: the nearest double. *)
Lemma round_units_spec s m e :
  let f := expo (Z.pos (digits2_pos m) + e) in
  let r := binary_round_aux 53 1024 s (Z.pos m) e loc_Exact in
  -1200 <= e -> e <= f -> Z.pos (digits2_pos m) + e <= 1000 ->
  is_double r = true /\
  exists q, 0 <= q /\ 2 * Z.abs (q * 2 ^ (f - e) - Z.pos m) <= 2 ^ (f - e) /\ units r = cond_Zopp s q * 2 ^ (f + 1200).
Proof.
  intros f r He Hef Hd. destruct (shr_shifted (Z.pos m) e (f - e) ltac:(lia) ltac:(lia)) as [Hs He'].
  destruct (shr _ e (f - e)) as [mrs e'] eqn:Eshr. cbn [fst snd] in *.
  assert (shr_fexp 53 1024 (Z.pos m) e loc_Exact = (mrs, e')) as E1 by (rewrite <- Eshr; reflexivity).
  subst r. unfold binary_round_aux. rewrite E1. cbv iota. assert (e' = f) as -> by lia. clear He'.
  destruct (shifted_nearest _ _ _ Hs) as (Hq0 & Hq1 & Hq). set (q := round_nearest_even _ _) in *.
  pose proof (digits_bounds m) as Hb. set (d := Z.pos (digits2_pos m)) in *.
  assert (0 < d) by done. assert (f = d + e - 53 /\ -1074 <= d + e - 53 \/ f = -1074 /\ d + e - 53 <= -1074) as Hf by (unfold f, expo; lia).
  destruct Hs as [_ Hm0 Hr _].
  assert (0 < 2 ^ (f - e)) as Hpos by (apply Z.pow_pos_nonneg; lia).
  assert (shr_m mrs < 2 ^ 53) as Hm1.
  { apply (Z.mul_lt_mono_pos_r (2 ^ (f - e))); [done|]. rewrite <- Z.pow_add_r by lia.
    apply Z.le_lt_trans with (Z.pos m); [lia|]. apply Z.lt_le_trans with (1 := proj2 Hb). apply Z.pow_le_mono_r; lia. }
  destruct (round_last s q f) as [R1 R2]; [lia|lia| |].
  { destruct Hf as [[Ef Hf]|[Ef Hf]]; [left|by right].
    assert (2 ^ 52 < shr_m mrs + 1); [|lia]. apply (Z.mul_lt_mono_pos_r (2 ^ (f - e))); [done|]. rewrite <- Z.pow_add_r by lia.
    apply Z.le_lt_trans with (Z.pos m); [|lia]. replace (52 + (f - e)) with (d - 1) by lia. lia. }
  split; [exact R1|]. exists q. split; [lia|]. split; [lia|]. exact R2.
Qed.

(** In units: the error is at most half of 2^f, and the value is below 2^(f+53). *)
Lemma round_units s m e :
  let f := expo (Z.pos (digits2_pos m) + e) in
  let r := binary_round_aux 53 1024 s (Z.pos m) e loc_Exact in
  -1200 <= e -> e <= f -> Z.pos (digits2_pos m) + e <= 1000 ->
  is_double r = true /\ 0 <= cond_Zopp s (units r) /\
  2 * Z.abs (cond_Zopp s (units r) - Z.pos m * 2 ^ (e + 1200)) <= 2 ^ (f + 1200).
Proof.
  intros f r He Hef Hd. destruct (round_units_spec s m e He Hef Hd) as (H1 & q & Hq & Hq2 & H2). fold f in Hq2, H2. fold r in H1, H2.
  split; [done|]. rewrite H2. replace (cond_Zopp s (cond_Zopp s q * 2 ^ (f + 1200))) with (q * 2 ^ (f + 1200)) by (destruct s; cbn; lia).
  rewrite !(pow2_split (f + 1200) (e + 1200)) by lia. replace (f + 1200 - (e + 1200)) with (f - e) by lia.
  assert (0 < 2 ^ (e + 1200)) by (apply Z.pow_pos_nonneg; lia). assert (0 < 2 ^ (f - e)) by (apply Z.pow_pos_nonneg; lia).
  split; [nia|]. replace (q * (2 ^ (f - e) * 2 ^ (e + 1200)) - Z.pos m * 2 ^ (e + 1200)) with
    ((q * 2 ^ (f - e) - Z.pos m) * 2 ^ (e + 1200)) by ring. rewrite Z.abs_mul, (Z.abs_eq (2 ^ _)) by lia. nia.
Qed.

Lemma iter_xO m d : Z.pos (Pos.iter xO m d) = Z.pos m * 2 ^ Z.pos d.
Proof.
  induction d as [|d IH] using Pos.peano_ind; [simpl; lia|].
  rewrite Pos.iter_succ, Pos2Z.inj_xO, IH, Pos2Z.inj_succ, Z.pow_succ_r by lia. lia.
Qed.
Lemma digits_shift m d : Z.pos (digits2_pos (Pos.iter xO m d)) = Z.pos (digits2_pos m) + Z.pos d.
Proof.
  induction d as [|d IH] using Pos.peano_ind; [simpl; lia|].
  rewrite Pos.iter_succ. cbn [digits2_pos]. rewrite Pos2Z.inj_succ, IH. lia.
Qed.

(** Aligning keeps the value. *)
Lemma shl_align_value m e f : f <= e \/ e <= f ->
  let '(m', e') := shl_align m e f in
  e' = Z.min e f /\ Z.pos m' = Z.pos m * 2 ^ (e - e') /\ Z.pos (digits2_pos m') + e' = Z.pos (digits2_pos m) + e.
Proof.
  intros _. unfold shl_align. destruct (f - e) as [|d|d] eqn:E; cbv zeta.
  - rewrite Z.sub_diag, Z.mul_1_r. lia.
  - rewrite Z.sub_diag, Z.mul_1_r. lia.
  - rewrite iter_xO, digits_shift. replace (e - f) with (Z.pos d) by lia. lia.
Qed.

(** An exact value m * 2^e with 53 bits is kept; any other is rounded, with its sign. *)
Lemma binary_round_spec s m e :
  let r := binary_round 53 1024 s m e in
  -1074 <= e -> Z.pos (digits2_pos m) + e <= 1000 ->
  is_double r = true /\ 0 <= cond_Zopp s (units r) /\
  (Z.pos m < 2 ^ 53 -> units r = cond_Zopp s (Z.pos m) * 2 ^ (e + 1200)).
Proof.
  intros r He Hd. subst r. unfold binary_round. rewrite fexp_expo.
  set (f := expo _). pose proof (shl_align_value m e f ltac:(lia)) as Ha.
  destruct (shl_align m e f) as [mz ez]. destruct Ha as (Eez & Emz & Ed).
  assert (-1074 <= f) as Hf by (unfold f, expo; lia).
  assert (expo (Z.pos (digits2_pos mz) + ez) = f) as Ef by (by rewrite Ed).
  pose proof (round_units s mz ez ltac:(lia) ltac:(lia) ltac:(lia)) as (H1 & H2 & _).
  split; [exact H1|]. split; [exact H2|]. intros Hm.
  destruct (round_units_spec s mz ez ltac:(lia) ltac:(lia) ltac:(lia)) as (_ & q & _ & Hq & ->). rewrite Ef in *.
  assert (ez = f) as ->.
  { pose proof (digits_le m 53 ltac:(lia) Hm). unfold f, expo in *. lia. }
  rewrite Z.sub_diag in Hq. assert (q = Z.pos mz) as -> by lia. rewrite Emz.
  rewrite (pow2_split (e + 1200) (f + 1200)) by lia. replace (e + 1200 - (f + 1200)) with (e - f) by lia.
  destruct s; cbn [cond_Zopp]; ring.
Qed.

Lemma normalize_spec m e :
  let r := binary_normalize 53 1024 m e false in
  -1074 <= e -> Z.abs m < 2 ^ (1000 - e) -> e <= 1000 ->
  is_double r = true /\ (0 <= m -> 0 <= units r) /\ (m <= 0 -> units r <= 0) /\
  (Z.abs m < 2 ^ 53 -> units r = m * 2 ^ (e + 1200)).
Proof.
  intros r He Hm He'. subst r. destruct m as [|m|m]; cbn [binary_normalize Z.abs] in *.
  - done.
  - destruct (binary_round_spec false m e He) as (H1 & H2 & H3); [|split_and!; try done; lia].
    pose proof (digits_le m (1000 - e) ltac:(lia) Hm). lia.
  - destruct (binary_round_spec true m e He) as (H1 & H2 & H3); [|cbn [cond_Zopp] in *; split_and!; try done; lia].
    pose proof (digits_le m (1000 - e) ltac:(lia) Hm). lia.
Qed.

(** Integers below 2^53 are doubles. *)
Lemma of_Z_spec n : Z.abs n < 2 ^ 53 -> is_double (d_of_Z n) = true /\ units (d_of_Z n) = n * ONE.
Proof.
  intros Hn. destruct (normalize_spec n 0) as (H1 & _ & _ & H2); [lia| |lia|].
  - apply Z.lt_le_trans with (1 := Hn). apply Z.pow_le_mono_r; lia.
  - split; [exact H1|]. exact (H2 Hn).
Qed.

(** ** Comparisons *)

Lemma fits_mono m1 e1 m2 e2 : fits m1 e1 -> fits m2 e2 -> e1 < e2 -> m1 * 2 ^ (e1 + 1200) < m2 * 2 ^ (e2 + 1200).
Proof.
  intros (He1 & Hm1 & _) (He2 & Hm2 & Hn2) He. assert (2 ^ 52 <= m2) by lia.
  rewrite (pow2_split (e2 + 1200) (e1 + 1200)) by lia. replace (e2 + 1200 - (e1 + 1200)) with (Z.succ (e2 - e1 - 1)) by lia.
  rewrite Z.pow_succ_r by lia. assert (0 < 2 ^ (e2 - e1 - 1)) by (apply Z.pow_pos_nonneg; lia).
  assert (0 < 2 ^ (e1 + 1200)) by (apply Z.pow_pos_nonneg; lia).
  rewrite Z.mul_assoc. apply Z.mul_lt_mono_pos_r; [done|]. nia.
Qed.

Lemma fits_compare m1 e1 m2 e2 : fits m1 e1 -> fits m2 e2 ->
  match e1 ?= e2 with Eq => m1 ?= m2 | c => c end = (m1 * 2 ^ (e1 + 1200) ?= m2 * 2 ^ (e2 + 1200)).
Proof.
  intros H1 H2. destruct (Z.compare_spec e1 e2) as [->|He|He].
  - apply Zmult_compare_compat_r, Z.lt_gt, Z.pow_pos_nonneg; [lia|]. destruct H2. lia.
  - symmetry. apply Z.compare_lt_iff. by apply fits_mono.
  - symmetry. apply Z.compare_gt_iff. by apply fits_mono.
Qed.

Lemma units_pos s m e : fits (Z.pos m) e -> 0 < cond_Zopp s (units (S754_finite s m e)).
Proof.
  intros [He _]. assert (0 < 2 ^ (e + 1200)) by (apply Z.pow_pos_nonneg; lia). destruct s; cbn [cond_Zopp units]; nia.
Qed.

Lemma compare_spec x y : is_double x = true -> is_double y = true -> SFcompare x y = Some (units x ?= units y).
Proof.
  intros Hx Hy. destruct x as [sx| | |sx mx ex], y as [sy| | |sy my ey]; try done.
  - apply double_finite, (units_pos sy) in Hy. cbn [SFcompare]. f_equal. symmetry. destruct sy; cbn [cond_Zopp] in Hy.
    + apply Z.compare_gt_iff. cbn in *. lia.
    + apply Z.compare_lt_iff. cbn in *. lia.
  - apply double_finite, (units_pos sx) in Hx. cbn [SFcompare]. f_equal. symmetry. destruct sx; cbn [cond_Zopp] in Hx.
    + apply Z.compare_lt_iff. cbn in *. lia.
    + apply Z.compare_gt_iff. cbn in *. lia.
  - apply double_finite in Hx, Hy. pose proof (fits_compare _ _ _ _ Hx Hy) as Hc.
    pose proof (units_pos sx mx ex Hx) as Px. pose proof (units_pos sy my ey Hy) as Py.
    cbn [SFcompare]. destruct sx, sy; cbn [cond_Zopp units] in *; f_equal; symmetry.
    + rewrite !Z.mul_opp_l, Z.compare_opp, Z.compare_antisym, <- Hc. by destruct (ex ?= ey).
    + apply Z.compare_lt_iff. lia.
    + apply Z.compare_gt_iff. lia.
    + rewrite <- Hc. by destruct (ex ?= ey).
Qed.

Lemma ltb_spec x y : is_double x = true -> is_double y = true -> d_lt x y = (units x <? units y).
Proof. intros Hx Hy. simpl. unfold SFltb, Z.ltb. rewrite compare_spec by done. by destruct (_ ?= _). Qed.
Lemma leb_spec x y : is_double x = true -> is_double y = true -> d_le x y = (units x <=? units y).
Proof. intros Hx Hy. simpl. unfold SFleb, Z.leb. rewrite compare_spec by done. by destruct (_ ?= _). Qed.
Lemma eqb_spec x y : is_double x = true -> is_double y = true -> d_eq x y = (units x =? units y).
Proof. intros Hx Hy. simpl. unfold SFeqb. rewrite compare_spec by done. rewrite Z.eqb_compare. by destruct (_ ?= _). Qed.

(** ** Truncation, subtraction, product *)

Lemma nonneg_sign s m e : fits (Z.pos m) e -> 0 <= units (S754_finite s m e) -> s = false.
Proof. intros Hf%(units_pos s) Hu. destruct s; [|done]. cbn [cond_Zopp] in Hf. lia. Qed.

Lemma trunc_spec x : is_double x = true -> 0 <= units x -> d_trunc x = units x / ONE.
Proof.
  intros Hd Hu. destruct x as [s| | |s m e]; try done. apply double_finite in Hd.
  rewrite (nonneg_sign _ _ _ Hd Hu) in *. destruct Hd as [He _]. cbn [units cond_Zopp d_trunc b64 b64_trunc]. cbv zeta. unfold ONE.
  destruct (Z.le_gt_cases 0 e).
  - rewrite Z.shiftl_mul_pow2, Z.pow_add_r, Z.mul_assoc, Z.div_mul by (try apply Z.pow_nonzero; lia). done.
  - replace e with (- (- e)) at 1 by lia. rewrite Z.shiftl_opp_r, Z.shiftr_div_pow2 by lia.
    rewrite (pow2_split 1200 (e + 1200)) by lia. replace (1200 - (e + 1200)) with (- e) by lia.
    rewrite Z.div_mul_cancel_r by (apply Z.pow_nonzero; lia). done.
Qed.

(** The exponent of a double; an upper bound of all for a zero, which aligns with anything. *)
Definition low (x : spec_float) : Z := match x with S754_finite _ _ e => e | _ => 971 end.

Lemma sign_of_product a b c d : 0 < c -> a - b = d * c -> (b <= a -> 0 <= d) /\ (a <= b -> d <= 0).
Proof. intros. nia. Qed.

(** A difference whose bits fit into 53 above the smaller exponent is exact; any has its sign. *)
Lemma sub_spec x y : is_double x = true -> is_double y = true -> Z.abs (units x - units y) < 2 ^ 2200 ->
  is_double (d_sub x y) = true /\ (units y <= units x -> 0 <= units (d_sub x y)) /\
  (units x <= units y -> units (d_sub x y) <= 0) /\
  (Z.abs (units x - units y) < 2 ^ (1253 + Z.min (low x) (low y)) -> units (d_sub x y) = units x - units y).
Proof.
  intros Hx Hy Hb. destruct x as [sx| | |sx mx ex], y as [sy| | |sy my ey]; try done.
  - cbn. destruct sx, sy; done.
  - cbn [d_sub b64 SFsub]. assert (units (S754_finite (negb sy) my ey) = - units (S754_finite sy my ey)) as ->.
    { cbn [units]. destruct sy; cbn [negb cond_Zopp]; lia. }
    split; [done|]. cbn [units] in *. lia.
  - cbn [d_sub b64 SFsub]. split; [done|]. cbn [units] in *. lia.
  - apply double_finite in Hx as [Hex _]. apply double_finite in Hy as [Hey _].
    cbn [d_sub b64 SFsub low]. cbv zeta. set (z := Z.min ex ey) in *.
    pose proof (shl_align_value mx ex z ltac:(lia)) as Ax. pose proof (shl_align_value my ey z ltac:(lia)) as Ay.
    destruct (shl_align mx ex z) as [mx' ex'], (shl_align my ey z) as [my' ey']. cbn [fst].
    destruct Ax as (Ex & Ax & _), Ay as (Ey & Ay & _).
    set (D := cond_Zopp sx (Z.pos mx') - cond_Zopp sy (Z.pos my')).
    assert (units (S754_finite sx mx ex) - units (S754_finite sy my ey) = D * 2 ^ (z + 1200)) as ED.
    { unfold D. cbn [units]. rewrite Ax, Ay, (pow2_split (ex + 1200) (z + 1200)), (pow2_split (ey + 1200) (z + 1200)) by lia.
      replace (ex + 1200 - (z + 1200)) with (ex - ex') by lia. replace (ey + 1200 - (z + 1200)) with (ey - ey') by lia.
      destruct sx, sy; cbn [cond_Zopp]; ring. }
    assert (0 < 2 ^ (z + 1200)) as Hz by (apply Z.pow_pos_nonneg; lia).
    rewrite ED in Hb |- *. rewrite Z.abs_mul, (Z.abs_eq (2 ^ _)) in Hb |- * by lia.
    destruct (normalize_spec D z) as (N1 & N2 & N3 & N4); [lia| |lia|].
    { apply (Z.mul_lt_mono_pos_r (2 ^ (z + 1200))); [done|]. rewrite <- Z.pow_add_r by lia.
      by replace (1000 - z + (z + 1200)) with 2200 by lia. }
    destruct (sign_of_product _ _ _ _ Hz ED) as [Hs1 Hs2].
    split; [exact N1|]. split; [by intros ?%Hs1%N2|]. split; [by intros ?%Hs2%N3|].
    intros HD. apply N4. apply (Z.mul_lt_mono_pos_r (2 ^ (z + 1200))); [done|]. rewrite <- Z.pow_add_r by lia.
    by replace (53 + (z + 1200)) with (1253 + z) by lia.
Qed.

(** Any positive integer has an exponent of -52 or more. *)
Lemma low_bound y : is_double y = true -> ONE <= units y -> -52 <= low y.
Proof.
  intros Hd Hu. destruct y as [s| | |s m e]; try done. apply double_finite in Hd.
  rewrite (nonneg_sign s m e Hd) in Hu by (unfold ONE in *; lia). destruct Hd as (He & [Hm1 Hm2] & _). cbn [units cond_Zopp low] in *.
  assert (2 ^ 1200 < 2 ^ (1253 + e)) as Hlt%Z.pow_lt_mono_r_iff; [|lia..].
  apply Z.le_lt_trans with (1 := Hu). replace (1253 + e) with (53 + (e + 1200)) by lia. rewrite (Z.pow_add_r 2 53) by lia.
  apply Z.mul_lt_mono_pos_r; [apply Z.pow_pos_nonneg|]; lia.
Qed.
Lemma units_below x : is_double x = true -> 0 < units x -> units x < 2 ^ (1253 + low x).
Proof.
  intros Hd Hu. destruct x as [s| | |s m e]; try done. apply double_finite in Hd.
  rewrite (nonneg_sign s m e Hd) in * by lia. destruct Hd as (He & [Hm1 Hm2] & _). cbn [units cond_Zopp low] in *.
  replace (1253 + e) with (53 + (e + 1200)) by lia. rewrite (Z.pow_add_r 2 53) by lia.
  apply Z.mul_lt_mono_pos_r; [apply Z.pow_pos_nonneg|]; lia.
Qed.

(** What is left of a double above an integer below it, less than 1, is exact. *)
Lemma sub_floor x n : is_double x = true -> 0 <= n < 2 ^ 53 -> n * ONE <= units x < (n + 1) * ONE ->
  is_double (d_sub x (d_of_Z n)) = true /\ units (d_sub x (d_of_Z n)) = units x - n * ONE.
Proof.
  intros Hx Hn Hu. destruct (of_Z_spec n ltac:(lia)) as [Hd En].
  assert (0 < ONE) as HO by (apply Z.pow_pos_nonneg; lia).
  assert (ONE <= 2 ^ 2200) as HO' by (apply Z.pow_le_mono_r; lia).
  destruct (sub_spec x (d_of_Z n) Hx Hd) as (S1 & _ & _ & S4); [rewrite En; lia|]. split; [exact S1|].
  rewrite S4, En; [done|]. rewrite En. rewrite Z.abs_eq by lia.
  destruct (Z.eq_dec n 0) as [->|Hn0].
  - replace (low (d_of_Z 0)) with 971 by done. destruct (Z.eq_dec (units x) 0) as [E0|].
    + rewrite E0. apply Z.pow_pos_nonneg; [lia|]. destruct x as [| | |s m e]; try done.
      apply double_finite in Hx. destruct Hx. cbn [low]. lia.
    + assert (low x <= 971) by (destruct x as [| | |s m e]; try done; apply double_finite in Hx; destruct Hx; cbn [low]; lia).
      rewrite Z.min_l by done. pose proof (units_below x Hx). lia.
  - pose proof (low_bound (d_of_Z n) Hd ltac:(rewrite En; nia)) as Hl.
    destruct (Z.le_gt_cases (low x) (low (d_of_Z n))).
    + rewrite Z.min_l by done. pose proof (units_below x Hx). nia.
    + rewrite Z.min_r by lia. apply Z.lt_le_trans with ONE; [lia|]. apply Z.pow_le_mono_r; lia.
Qed.

(** The product of a fraction with an integer: off by less than 2^-53 of the integer. *)
Lemma mul_spec x n : is_double x = true -> 0 <= units x < ONE -> 1 <= n < 2 ^ 53 ->
  is_double (d_mul x (d_of_Z n)) = true /\ 0 <= units (d_mul x (d_of_Z n)) /\
  2 ^ 53 * Z.abs (units (d_mul x (d_of_Z n)) - units x * n) < n * ONE.
Proof.
  intros Hx Hu Hn. destruct (of_Z_spec n ltac:(lia)) as [Hd En].
  assert (0 < ONE) as HO by (apply Z.pow_pos_nonneg; lia).
  pose proof (low_bound _ Hd ltac:(nia)) as Hl.
  destruct (d_of_Z n) as [sy| | |sy my ey] eqn:Ey; try done; [cbn [units] in En; nia|].
  apply double_finite in Hd. cbn [low] in Hl. rewrite (nonneg_sign sy my ey Hd) in * by (rewrite En; nia).
  destruct Hd as (Hey & [Hmy1 Hmy2] & Hmy). assert (2 ^ 52 <= Z.pos my) as Hmy3 by lia. clear Hmy.
  destruct x as [sx| | |sx mx ex]; try done.
  { split; [done|]. cbn. split; [done|]. destruct n; try lia. }
  apply double_finite in Hx. rewrite (nonneg_sign sx mx ex Hx) in * by lia. destruct Hx as (Hex & [Hmx1 Hmx2] & _).
  cbn [d_mul b64 SFmul xorb]. set (f := expo (Z.pos (digits2_pos (mx * my)) + (ex + ey))).
  assert (Z.pos (mx * my) * 2 ^ (ex + ey + 1200) = units (S754_finite false mx ex) * n) as EP.
  { apply (Z.mul_reg_r _ _ ONE); [lia|]. rewrite <- (Z.mul_assoc (units _) n ONE), <- En. unfold ONE. cbn [units cond_Zopp].
    rewrite Pos2Z.inj_mul. replace (ex + 1200) with (ex + ey + 1200 - ey) by lia.
    transitivity (Z.pos mx * Z.pos my * (2 ^ (ex + ey + 1200) * 2 ^ 1200)); [ring|].
    rewrite <- Z.pow_add_r by lia.
    transitivity (Z.pos mx * Z.pos my * (2 ^ (ex + ey + 1200 - ey) * 2 ^ (ey + 1200))); [|ring].
    rewrite <- Z.pow_add_r by lia. do 2 f_equal. lia. }
  assert (Z.pos (mx * my) * 2 ^ (ex + ey + 1200) < n * ONE) as HP by (rewrite EP; nia).
  pose proof (digits_bounds (mx * my)) as [Hb _]. set (d := Z.pos (digits2_pos (mx * my))) in *.
  assert (53 <= d) as Hd53 by (apply (digits_ge _ 52); [lia|]; rewrite Pos2Z.inj_mul; nia).
  assert (2 ^ (d - 1 + (ex + ey + 1200)) < n * ONE) as HP2.
  { rewrite Z.pow_add_r by lia. apply Z.le_lt_trans with (2 := HP). apply Z.mul_le_mono_nonneg_r; [|done].
    apply Z.lt_le_incl, Z.pow_pos_nonneg; lia. }
  assert (d + (ex + ey) <= 53) as Hd'.
  { assert (2 ^ (d - 1 + (ex + ey + 1200)) < 2 ^ 1253) as Hlt%Z.pow_lt_mono_r_iff; [|lia..].
    apply Z.lt_trans with (1 := HP2). change (2 ^ 1253) with (2 ^ 53 * ONE). nia. }
  destruct (round_units false (mx * my) (ex + ey)) as (R1 & R2 & R3); [lia|unfold expo; lia|lia|].
  split; [exact R1|]. split; [exact R2|]. cbn [cond_Zopp] in R3. rewrite <- EP. fold d in R3. fold f in R3.
  apply Z.le_lt_trans with (2 ^ 52 * 2 ^ (f + 1200)); [lia|]. rewrite <- Z.pow_add_r by (unfold f, expo; lia).
  unfold f, expo. fold d. destruct (Z.max_spec (d + (ex + ey) - 53) (-1074)) as [[_ ->]|[_ ->]].
  - apply Z.lt_le_trans with ONE; [|nia]. unfold ONE. apply Z.pow_lt_mono_r; lia.
  - apply Z.le_lt_trans with (2 := HP2). apply Z.pow_le_mono_r; lia.
Qed.

(** The largest double below 1 is 1 - 2^-53. *)
Lemma below_one x : is_double x = true -> 0 <= units x < ONE -> 2 ^ 53 * units x <= (2 ^ 53 - 1) * ONE.
Proof.
  intros Hx Hu. assert (0 < ONE) as HO by (apply Z.pow_pos_nonneg; lia).
  destruct x as [s| | |s m e]; try done.
  apply double_finite in Hx. rewrite (nonneg_sign s m e Hx) in * by lia. destruct Hx as (He & [Hm1 Hm2] & _). cbn [units cond_Zopp] in *.
  destruct (Z.le_gt_cases (-53) e).
  - assert (e < 0) as He0.
    { destruct (Z.lt_ge_cases e 0); [done|]. exfalso. assert (ONE <= 2 ^ (e + 1200)) by (apply Z.pow_le_mono_r; lia). nia. }
    assert (ONE = 2 ^ (- e) * 2 ^ (e + 1200)) as EO by (rewrite <- Z.pow_add_r by lia; unfold ONE; f_equal; lia).
    assert (0 < 2 ^ (e + 1200)) by (apply Z.pow_pos_nonneg; lia).
    assert (Z.pos m < 2 ^ (- e)) by (apply (Z.mul_lt_mono_pos_r (2 ^ (e + 1200))); lia).
    assert (2 ^ (- e) <= 2 ^ 53) by (apply Z.pow_le_mono_r; lia).
    rewrite EO. rewrite !Z.mul_assoc. apply Z.mul_le_mono_nonneg_r; [lia|]. nia.
  - assert (2 ^ 53 * 2 ^ (e + 1200) <= ONE) by (rewrite <- Z.pow_add_r by lia; apply Z.pow_le_mono_r; lia).
    transitivity (2 ^ 53 * ((2 ^ 53 - 1) * 2 ^ (e + 1200))); [apply Z.mul_le_mono_nonneg_l; [lia|]; apply Z.mul_le_mono_nonneg_r; lia|].
    nia.
Qed.

End Binary64.
