(* ===== verification/PrintfFloat.v ===== *)
(** The fixed-point conversion of Kernel/Libk/vsnprintf.c in double arithmetic: _ftoa chooses the
    whole part and the decimals nearest to the value, and prints them. *)

From S2P Require Import Prelude Printf PrintfSpec PrintfNumbers Binary64.
From Stdlib Require Import SpecFloat.

Module PrintfFloat.
Import Printf PrintfSpec PrintfNumbers Binary64.

#[local] Opaque NTOA_STEPS ONE.

(** The literal 0.5. *)
Lemma half_spec : is_double (d_lit 5 1) = true /\ 2 * units (d_lit 5 1) = ONE.
Proof. split; vm_compute; reflexivity. Qed.
Lemma ONE_pos : 0 < ONE.
Proof. reflexivity. Qed.
Lemma ONE_even : exists h, ONE = 2 * h.
Proof. exists (2 ^ 1199). vm_compute. reflexivity. Qed.

(** The scaled fraction the code rounds: [tmp] of _ftoa. *)
Definition scaled (value : spec_float) (prec : Z) : spec_float :=
  d_mul (d_sub value (d_of_Z (s32 (d_trunc value)))) (d_of_Z (10 ^ prec)).

(** The case the code misses: the scaled fraction is 10^prec - 1/2 exactly, and the fraction is
    rounded up to 10^prec without a carry into the whole part ([rollover_missed]). *)
Definition missed_rollover (value : spec_float) (prec : Z) : bool :=
  (1 <=? prec) && (2 * units (scaled value prec) =? (2 * 10 ^ prec - 1) * ONE).

Section Round.
Variables (v : spec_float) (prec : Z).
Hypothesis Hv : is_double v = true.
Hypothesis Hr : 0 <= units v <= 10 ^ 9 * ONE.
Hypothesis Hp : 0 <= prec <= 9.

Let whole := units v / ONE.
Let rest := units v - whole * ONE.
Let T := units (scaled v prec).
Let F := T / ONE.

Lemma whole_facts : 0 <= whole <= 10 ^ 9 /\ 0 <= rest < ONE /\ s32 (d_trunc v) = whole.
Proof.
  pose proof ONE_pos as HO. assert (0 <= whole <= 10 ^ 9) as Hw.
  { split; [apply Z.div_pos; lia|]. apply Z.div_le_upper_bound; lia. }
  split; [exact Hw|]. split.
  - unfold rest, whole. rewrite Z.mul_comm, <- Z.mod_eq by lia. apply Z.mod_pos_bound. lia.
  - rewrite trunc_spec by (done || lia). fold whole. apply s32_small. lia.
Qed.

Lemma pow_bounds : 1 <= 10 ^ prec <= 10 ^ 9.
Proof. split; [apply (Z.pow_le_mono_r 10 0); lia|apply Z.pow_le_mono_r; lia]. Qed.

Lemma rest_spec : is_double (d_sub v (d_of_Z whole)) = true /\ units (d_sub v (d_of_Z whole)) = rest.
Proof. destruct whole_facts as (H1 & H2 & _). apply sub_floor; [done|lia|unfold rest in H2; lia]. Qed.

(** The scaled fraction is close to the exact one and below 10^prec. *)
Lemma scaled_spec :
  is_double (scaled v prec) = true /\ 0 <= T < 10 ^ prec * ONE /\ 2 ^ 53 * Z.abs (T - rest * 10 ^ prec) < 10 ^ prec * ONE.
Proof.
  destruct whole_facts as (H1 & H2 & E). destruct rest_spec as [D1 D2]. pose proof pow_bounds.
  unfold T, scaled. rewrite E. destruct (mul_spec (d_sub v (d_of_Z whole)) (10 ^ prec) D1) as (M1 & M2 & M3); [lia|lia|].
  pose proof (below_one _ D1 ltac:(lia)) as Hb. rewrite D2 in *. split; [done|]. split; [|done]. split; [done|].
  set (U := units (d_mul _ _)) in *. pose proof ONE_pos. nia.
Qed.

Lemma frac_facts : 0 <= F < 10 ^ prec /\ F * ONE <= T < (F + 1) * ONE /\ u32 (d_trunc (scaled v prec)) = F /\
  is_double (d_sub (scaled v prec) (d_of_Z F)) = true /\ units (d_sub (scaled v prec) (d_of_Z F)) = T - F * ONE.
Proof.
  destruct scaled_spec as (S1 & S2 & _). pose proof pow_bounds. pose proof ONE_pos.
  assert (0 <= F < 10 ^ prec) as HF by (split; [apply Z.div_pos; lia|apply Z.div_lt_upper_bound; lia]).
  assert (F * ONE <= T < (F + 1) * ONE) as HT.
  { pose proof (Z.mul_div_le T ONE ltac:(lia)). pose proof (Z.mul_succ_div_gt T ONE ltac:(lia)). unfold F. lia. }
  split; [done|]. split; [done|]. split.
  - rewrite trunc_spec by (done || (fold T; lia)). fold T F. apply u32_small. unfold is_u32. lia.
  - apply sub_floor; [done|lia|done].
Qed.

(** The rounded parts as one number of units 10^-prec. *)
Definition decimal (whole frac : Z) : Z := if prec =? 0 then whole else whole * 10 ^ prec + frac.

(** [near n]: n * 10^-prec is at most half a unit of the last decimal, and 2^-53, off. *)
Definition near (n : Z) : Prop :=
  2 ^ 53 * Z.abs (2 * (n * ONE - 10 ^ prec * units v)) <= ONE * (2 ^ 53 + 2 * 10 ^ prec).

Lemma near_of n : 2 * Z.abs (n * ONE - (whole * 10 ^ prec * ONE + T)) <= ONE -> near n.
Proof.
  intros Hn. destruct scaled_spec as (_ & _ & Hs). unfold near.
  replace (n * ONE - 10 ^ prec * units v) with
    ((n * ONE - (whole * 10 ^ prec * ONE + T)) + (T - rest * 10 ^ prec)) by (unfold rest; ring).
  revert Hn Hs. generalize (n * ONE - (whole * 10 ^ prec * ONE + T)), (T - rest * 10 ^ prec). intros a b. lia.
Qed.

(** The first rounding of the code: the fraction to the nearest, with its carry. *)
Definition first_round : Z * Z :=
  let tmp := scaled v prec in
  let diff := d_sub tmp (d_of_Z F) in
  let half := d_lit 5 1 in
  if d_lt half diff then
    let frac := u32 (F + 1) in
    if d_le (d_of_Z (10 ^ prec)) (d_of_Z frac) then (s32 (whole + 1), 0) else (whole, frac)
  else if d_lt diff half then (whole, F)
  else if (F =? 0) || negb (Z.land F 1 =? 0) then (whole, u32 (F + 1))
  else (whole, F).

Lemma first_round_spec :
  let '(w, f) := first_round in
  0 <= f <= 10 ^ prec /\ 2 * Z.abs ((w * 10 ^ prec + f) * ONE - (whole * 10 ^ prec * ONE + T)) <= ONE /\
  (f = 10 ^ prec -> 2 * T = (2 * 10 ^ prec - 1) * ONE) /\
  (w = whole \/ w = whole + 1 /\ f = 0 /\ F = 10 ^ prec - 1 /\ ONE < 2 * (T - F * ONE)).
Proof.
  destruct whole_facts as (H1 & _ & _). destruct frac_facts as (HF & HT & _ & D1 & D2).
  destruct half_spec as [Dh Eh]. pose proof pow_bounds as Hpow. pose proof ONE_pos.
  unfold first_round. rewrite !ltb_spec, D2 by done. rewrite u32_small by (unfold is_u32; lia). rewrite s32_small by lia.
  destruct (of_Z_spec (10 ^ prec) ltac:(lia)) as [Dp Ep]. destruct (of_Z_spec (F + 1) ltac:(lia)) as [Df Ef].
  rewrite leb_spec, Ep, Ef by done.
  destruct (Z.ltb_spec (units (d_lit 5 1)) (T - F * ONE)) as [Hlt|Hge].
  - destruct (Z.leb_spec (10 ^ prec * ONE) ((F + 1) * ONE)) as [Hc|Hc].
    + assert (F = 10 ^ prec - 1) as EF by nia. split_and!; [lia..| | |right; lia]; [|lia].
      rewrite EF in *. replace ((whole + 1) * 10 ^ prec + 0) with (whole * 10 ^ prec + 10 ^ prec) by ring. nia.
    + assert (F + 1 < 10 ^ prec) by nia. split_and!; [lia..| | |by left]; [|lia]. nia.
  - destruct (Z.ltb_spec (T - F * ONE) (units (d_lit 5 1))) as [Hlt'|Hge'].
    + split_and!; [lia..| | |by left]; [|lia]. nia.
    + destruct (_ || _).
      * split_and!; [lia..| | |by left]; [nia|]. intros EF. assert (F = 10 ^ prec - 1) as -> by lia. nia.
      * split_and!; [lia..| | |by left]; [|lia]. nia.
Qed.

Lemma ftoa_round_unfold : ftoa_round v prec (10 ^ prec) =
  let '(w, f) := first_round in
  if prec =? 0 then
    let diff := d_sub v (d_of_Z w) in
    if (negb (d_lt diff (d_lit 5 1)) || d_lt (d_lit 5 1) diff) && negb (Z.land w 1 =? 0) then (s32 (w + 1), f) else (w, f)
  else (w, f).
Proof.
  destruct whole_facts as (_ & _ & E). destruct frac_facts as (_ & _ & EF & _).
  unfold ftoa_round, first_round. cbv zeta. fold (scaled v prec). rewrite EF, E. reflexivity.
Qed.

(** Without decimals: to the nearest whole number, halves to the even one. *)
Lemma round_whole w f : prec = 0 -> first_round = (w, f) ->
  let diff := d_sub v (d_of_Z w) in
  let w' := if (negb (d_lt diff (d_lit 5 1)) || d_lt (d_lit 5 1) diff) && negb (Z.land w 1 =? 0) then s32 (w + 1) else w in
  0 <= w' <= 10 ^ 9 + 1 /\ near w'.
Proof.
  intros Hp0 E1. pose proof first_round_spec as Hf. rewrite E1 in Hf. destruct Hf as (F1 & F2 & F3 & F4).
  destruct whole_facts as (H1 & H2 & _). destruct half_spec as [Dh Eh]. pose proof ONE_pos.
  assert (10 ^ prec = 1) as E0 by (by rewrite Hp0). rewrite E0 in *.
  assert (near whole \/ w = whole + 1) as Hnw.
  { destruct F4 as [->|(-> & _)]; [left|by right]. apply near_of. rewrite E0.
    assert (f = 0 \/ f = 1) as [->| ->] by lia; [lia|specialize (F3 eq_refl); lia]. }
  destruct F4 as [->|(-> & -> & _ & Hc)].
  - destruct rest_spec as [D1 D2]. cbv zeta. rewrite !ltb_spec, D2 by done.
    destruct (_ && _) eqn:Ec; [|split; [lia|destruct Hnw; [done|lia]]].
    rewrite s32_small by lia. split; [lia|]. unfold near. rewrite E0. bool_facts.
    assert (units (d_lit 5 1) <= rest) by lia. unfold rest in *. lia.
  - cbv zeta. destruct (of_Z_spec (whole + 1) ltac:(lia)) as [Dw Ew].
    assert (10 ^ 10 * ONE < 2 ^ 2200) as Hbig by (vm_compute; reflexivity).
    destruct (sub_spec v (d_of_Z (whole + 1)) Hv Dw) as (S1 & _ & S3 & _); [rewrite Ew; unfold rest in H2; lia|].
    rewrite Ew in S3. specialize (S3 ltac:(unfold rest in H2; lia)). rewrite !ltb_spec by done.
    rewrite (proj2 (Z.ltb_lt _ _)), (proj2 (Z.ltb_ge _ _)) by lia. cbn [negb orb andb].
    split; [lia|]. apply near_of. rewrite E0. lia.
Qed.

(** What _ftoa chooses is near the value. *)
Lemma ftoa_round_spec :
  let '(w, f) := ftoa_round v prec (10 ^ prec) in
  0 <= w <= 10 ^ 9 + 1 /\ near (decimal w f) /\
  (1 <= prec -> missed_rollover v prec = false -> 0 <= f < 10 ^ prec).
Proof.
  rewrite ftoa_round_unfold. destruct whole_facts as (H1 & _). pose proof first_round_spec as Hf.
  destruct first_round as [w f] eqn:E1. unfold decimal. destruct (Z.eqb_spec prec 0) as [E|E].
  - destruct (round_whole w f E E1) as [R1 R2]. cbv zeta in *. destruct (_ && _); (split; [done|]; split; [done|]; lia).
  - destruct Hf as (F1 & F2 & F3 & F4). split; [lia|]. split; [by apply near_of|].
    intros _ Hm. unfold missed_rollover in Hm. rewrite (proj2 (Z.leb_le _ _)) in Hm by lia. cbn [andb] in Hm.
    apply Z.eqb_neq in Hm. fold T in Hm. lia.
Qed.

End Round.
(** ** The text *)

Lemma has_unset flags f : Z.land (Z.lnot FLAGS_HASH) f = f -> has (unset flags FLAGS_HASH) f = has flags f.
Proof. intros E. unfold has, unset. by rewrite <- Z.land_assoc, E. Qed.

(** The numeral of a whole part and decimals, most significant character first. *)
Definition point_numeral (ws fs : list Z) (prec : Z) : list Z :=
  rev ws ++ (if prec =? 0 then [] else chr "." :: rev fs).

(** [numeral_near v prec ws fs]: the digits [ws] before and [fs] behind the point (least
    significant first) denote the value of [v] to [prec] decimals. *)
Record numeral_near (v : spec_float) (prec : Z) (ws fs : list Z) : Prop := {
  nn_whole : exists whole, canonical 10 ws whole;
  nn_digits : Forall decimal_char fs;
  nn_count : Z.of_nat (length fs) = prec;
  nn_value : near v prec (le_value 10 ws * 10 ^ prec + le_value 10 fs)
}.

Lemma ftoa_digits_near v prec :
  is_double v = true -> 0 <= units v <= 10 ^ 9 * ONE -> 0 <= prec <= 9 -> missed_rollover v prec = false ->
  exists ws fs, numeral_near v prec ws fs /\ len (point_numeral ws fs prec) <= 20 /\
    let '(whole, frac) := ftoa_round v prec (10 ^ prec) in
    ftoa_digits whole frac prec [] = rev (point_numeral ws fs prec).
Proof.
  intros Hv Hr Hp Hm. pose proof (ftoa_round_spec v prec Hv Hr Hp) as Hs.
  destruct (ftoa_round v prec (10 ^ prec)) as [w f]. destruct Hs as (Hw & Hn & Hf).
  unfold point_numeral, decimal in *. destruct (Z.eqb_spec prec 0) as [->|Hp0].
  - destruct (ftoa_whole_ok NTOA_STEPS 9 w []) as (ws & E & Hws & Hl);
      [change (10 ^ Z.of_nat 10) with (10 ^ 10); lia|unfold len; simpl; lia|change NTOA_STEPS with 32%nat; lia|].
    exists ws, []. split; [split|split].
    + eauto.
    + constructor.
    + done.
    + rewrite (can_value _ _ _ Hws), Z.mul_1_r, Z.add_0_r. exact Hn.
    + unfold len. rewrite app_nil_r, length_rev. lia.
    + unfold ftoa_digits. simpl. by rewrite E, app_nil_r, rev_involutive.
  - destruct (ftoa_digits_ok w f prec []) as (fs & ws & E & Hfl & Hfd & Hfv & Hws & Hl);
      [lia|lia|apply Hf; [lia|done]|unfold len; simpl; lia|].
    exists ws, fs. split; [split|split].
    + eauto.
    + done.
    + done.
    + by rewrite (can_value _ _ _ Hws), Hfv.
    + unfold len. rewrite length_app. cbn [length]. rewrite !length_rev. lia.
    + rewrite E, rev_app_distr. cbn [rev app]. by rewrite !rev_involutive, <- app_assoc.
Qed.

Section Text.
Context {P : Type} {S : Sink P} {rd stable} {L : LawfulSink S rd stable}.

Lemma ftoa_number_layout v negative prec width flags p :
  let prec' := if has flags FLAGS_PRECISION then prec else 6 in
  is_double v = true -> 0 <= units v <= 10 ^ 9 * ONE -> 0 <= prec' <= 9 -> 0 <= width <= 32 ->
  missed_rollover v prec' = false ->
  exists ws fs, numeral_near v prec' ws fs /\
    ftoa_number v negative prec width flags p =
    Some (put_list (layout (point_numeral ws fs prec') negative 10 0 width (unset flags FLAGS_HASH)) p).
Proof.
  intros prec' Hv Hr Hp Hw Hm. destruct (ftoa_digits_near v prec' Hv Hr Hp Hm) as (ws & fs & Hn & Hl & Hd).
  exists ws, fs. split; [exact Hn|]. unfold ftoa_number.
  replace (if negb (has flags FLAGS_PRECISION) then PRINTF_DEFAULT_FLOAT_PRECISION else prec) with prec'
    by (unfold prec'; by destruct (has flags FLAGS_PRECISION)).
  rewrite ftoa_limit_ok by done. cbv zeta. change (Z.of_nat NTOA_STEPS) with 32.
  replace (Z.max 0 (Z.min 32 (prec' - 9))) with 0 by lia. rewrite Z.sub_0_r. change (replicate (Z.to_nat 0) _) with (@nil Z).
  cbn [app]. assert (pow10 !! Z.to_nat prec' = Some (10 ^ prec')) as ->.
  { assert (forallb (fun k => bool_decide (pow10 !! Z.to_nat k = Some (10 ^ k))) [0;1;2;3;4;5;6;7;8;9] = true) as Hall by done.
    rewrite forallb_forall in Hall. apply (bool_decide_eq_true _), Hall. simpl. lia. }
  simpl mbind. destruct (ftoa_round v prec' (10 ^ prec')) as [w f]. rewrite Hd.
  set (fl := unset flags FLAGS_HASH).
  assert (forall g, Z.land (Z.lnot FLAGS_HASH) g = g -> has fl g = has flags g) as Hfl by (intros; by apply has_unset).
  assert (has fl FLAGS_HASH = false) as Hh.
  { unfold fl, has, unset. by rewrite <- Z.land_assoc, Z.land_0_r. }
  set (pn := point_numeral ws fs prec') in *.
  pose proof (format_layout (rev pn) negative 10 0 width fl) as Hlay. rewrite rev_involutive in Hlay.
  rewrite <- Hlay by (unfold room; rewrite ?Hh, ?len_rev; done || lia). clear Hlay.
  unfold ntoa_zeros, ntoa_hash. rewrite Hh, !Hfl by done.
  assert (fill_zeros NTOA_STEPS (fun len => (len <? 0) && (len <? PRINTF_NTOA_BUFFER_SIZE)) (rev pn) = rev pn) as ->.
  { rewrite (fill_zeros_ok 0); [|intros x; unfold PRINTF_NTOA_BUFFER_SIZE; lia|unfold len; lia].
    replace (Z.to_nat (0 - len (rev pn))) with 0%nat by (unfold len; lia). by rewrite app_nil_r. }
  assert (forall buf, put_sign negative fl buf = put_sign negative flags buf) as Hsign.
  { intros buf. unfold put_sign. by rewrite !Hfl. }
  assert (forall w buf, out_rev_chars buf w fl = out_rev_chars buf w flags) as Hout.
  { intros w' buf. unfold out_rev_chars. by rewrite !Hfl. }
  destruct (has flags FLAGS_LEFT) eqn:El, (has flags FLAGS_ZEROPAD) eqn:Ez; cbn [negb andb];
    rewrite ?andb_true_r, ?andb_false_r; rewrite ?Hsign, ?Hout.
  all: rewrite ?(fill_zeros_none (fun _ => false)) by done; f_equal; apply out_rev_text, put_sign_le.
  all: try (rewrite len_rev; lia).
  apply fill_zeros_le; [|rewrite len_rev; lia]. intros k Hk. apply andb_true_iff in Hk as [_ Hk]. by apply Z.ltb_lt in Hk.
Qed.
End Text.

(** ** The whole conversion *)

Lemma flip_sign v : is_double v = true ->
  is_double (d_sub (d_of_Z 0) v) = true /\ units (d_sub (d_of_Z 0) v) = - units v.
Proof.
  intros Hv. destruct v as [s| | |s m e]; try done; [by destruct s|]. split; [done|]. cbn. destruct s; cbn; lia.
Qed.

(** The magnitude _ftoa prints. *)
Definition magnitude (v : spec_float) : spec_float :=
  if d_lt v (d_of_Z 0) then d_sub (d_of_Z 0) v else v.

Lemma magnitude_spec v : is_double v = true ->
  is_double (magnitude v) = true /\ units (magnitude v) = Z.abs (units v) /\ d_lt v (d_of_Z 0) = (units v <? 0).
Proof.
  intros Hv. unfold magnitude. rewrite ltb_spec by done. change (units (d_of_Z 0)) with 0.
  destruct (flip_sign v Hv) as [F1 F2]. destruct (Z.ltb_spec (units v) 0); split_and!; try done; lia.
Qed.

Lemma limits : is_double DBL_MAX = true /\ is_double (d_opp DBL_MAX) = true /\ is_double PRINTF_MAX_FLOAT = true /\
  is_double (d_opp PRINTF_MAX_FLOAT) = true /\
  units PRINTF_MAX_FLOAT = 10 ^ 9 * ONE /\ units (d_opp PRINTF_MAX_FLOAT) = - (10 ^ 9 * ONE) /\
  10 ^ 9 * ONE < units DBL_MAX /\ units (d_opp DBL_MAX) < - (10 ^ 9 * ONE).
Proof. split_and!; vm_compute; reflexivity. Qed.

(** C18: %f prints the nearest decimal number.  In double arithmetic, for every finite value of
    magnitude up to 10^9, every precision from 0 to 9 (6 when none is given), every flag and
    widths up to 32, _ftoa appends the sign, padding and a numeral whose digits denote a number
    at most half a unit of the last decimal, and 2^-53, away from the magnitude of the value:
    carries into the whole part included.  Left out is one case in which the code misses the
    carry ([missed_rollover], [rollover_missed]). *)
Theorem ftoa_decimals {P : Type} {S : Sink P} {rd stable} {L : LawfulSink S rd stable}
    (fuel : nat) (value : spec_float) (prec width flags : Z) (p : P) :
  let prec' := if has flags FLAGS_PRECISION then prec else 6 in
  is_double value = true -> Z.abs (units value) <= 10 ^ 9 * ONE ->
  0 <= prec' <= 9 -> 0 <= width <= 32 -> missed_rollover (magnitude value) prec' = false ->
  exists ws fs, numeral_near (magnitude value) prec' ws fs /\
    _ftoa (Datatypes.S fuel) value prec width flags p =
    Some (put_list (layout (point_numeral ws fs prec') (units value <? 0) 10 0 width (unset flags FLAGS_HASH)) p).
Proof.
  intros prec' Hv Hr Hp Hw Hm. destruct (magnitude_spec value Hv) as (M1 & M2 & M3).
  destruct (ftoa_number_layout (magnitude value) (units value <? 0) prec width flags p M1 ltac:(lia) Hp Hw Hm)
    as (ws & fs & Hn & E).
  exists ws, fs. split; [exact Hn|]. etransitivity; [|exact E]. cbn [_ftoa].
  destruct limits as (L1 & L2 & L3 & L4 & U3 & U4 & U1 & U2).
  rewrite eqb_spec, Z.eqb_refl by done. cbn [negb]. rewrite !(ltb_spec value), !(ltb_spec _ value) by done.
  rewrite U3, U4. rewrite (proj2 (Z.ltb_ge (units value) (units (d_opp DBL_MAX)))) by lia.
  rewrite (proj2 (Z.ltb_ge (units DBL_MAX) (units value))) by lia.
  rewrite (proj2 (Z.ltb_ge (10 ^ 9 * ONE) (units value))), (proj2 (Z.ltb_ge (units value) (- (10 ^ 9 * ONE)))) by lia.
  cbn [orb]. cbv zeta. change (units (d_of_Z 0)) with 0. unfold magnitude. by rewrite M3.
Qed.

(** %7.2f of -2.718: the text is the layout of digits that denote 2.718 to two decimals. *)
Lemma ftoa_decimals_witness : exists ws fs,
  numeral_near (d_lit 2718 3) 2 ws fs /\
  _ftoa (H := text_sink (fun _ => 0)) 1 (d_opp (d_lit 2718 3)) 2 7 FLAGS_PRECISION [] =
    Some (put_list (H := text_sink (fun _ => 0)) (layout (point_numeral ws fs 2) true 10 0 7 FLAGS_PRECISION) []).
Proof.
  destruct (ftoa_decimals (L := text_lawful (fun _ => 0)) 0 (d_opp (d_lit 2718 3)) 2 7 FLAGS_PRECISION [])
    as (ws & fs & H1 & H2); [vm_compute; reflexivity|vm_compute; discriminate|vm_compute; split; discriminate|
                              lia|vm_compute; reflexivity|].
  exists ws, fs. split; [|exact H2].
  replace (magnitude (d_opp (d_lit 2718 3))) with (d_lit (D := spec_float) 2718 3) in H1 by (vm_compute; reflexivity). exact H1.
Defined.

(** What the printed text is there. *)
Example ftoa_carries :
  _ftoa (H := text_sink (fun _ => 0)) 1 (d_lit 9996 3) 2 0 FLAGS_PRECISION [] = Some (str "10.00") /\
  _ftoa (H := text_sink (fun _ => 0)) 1 (d_lit 25 1) 0 0 FLAGS_PRECISION [] = Some (str "2").
Proof. split; vm_compute; reflexivity. Qed.

(** %.1f of 0.95: 9.5 is rounded up to ten tenths without a carry.  The digit loop then counts
    its decimals below zero and fills the buffer: neither the point nor the whole part appears. *)
Example rollover_missed :
  missed_rollover (d_lit 95 2) 1 = true /\
  _ftoa (H := text_sink (fun _ => 0)) 1 (d_lit 95 2) 1 0 FLAGS_PRECISION [] = Some (str "00000000000000000000000000000010").
Proof. split; vm_compute; reflexivity. Qed.

End PrintfFloat.
