(* ===== verification/Kmalloc.v ===== *)
(** Kernel/Libk/kmalloc.cpp: the kernel heap (liballoc), best fit over power-of-two buckets of
    boundary tags.

    The boundary tags are records in a store keyed by their address; dereferencing an address
    that holds no tag, and indexing the two arrays out of range, is undefined behaviour
    ([None]).  What the callers keep in their blocks is a byte memory of its own.  The pages
    come from the memory manager through the [KernelPages] interface. *)

From S2P Require Import Prelude PhysicalAllocator.

Module Kmalloc.

Definition LIBALLOC_MAGIC : Z := 0xc001c0de.
Definition MAXCOMPLETE : Z := 5.
Definition MAXEXP : Z := 32.
Definition MINEXP : Z := 8.
Definition l_pageSize : Z := 4096.
Definition l_pageCount : Z := 16.

Record boundary_tag := MkTag {
  magic : Z;
  size : Z;
  real_size : Z;
  index : Z;
  split_left : Z;
  split_right : Z;
  next : Z;
  prev : Z
}.

(** sizeof(struct boundary_tag) on i686: eight 4-byte fields. *)
Definition TAG : Z := 32.

(** The page-level services: MemoryManager::memoryAllocate and memoryFree on the kernel's page
    directory. *)
Class KernelPages (S : Type) := {
  memory_allocate : S -> Z -> option (Z * S);
  memory_free : S -> Z -> Z -> S
}.

Section Heap.
Context {S : Type} `{KernelPages S}.

Record Heap := MkHeap {
  tags : gmap Z boundary_tag;
  l_freePages : list Z;
  l_completePages : list Z;
  l_initialized : Z;
  payload : Mem;
  pages : S;
  schedulerEnabled : bool
}.

Definition with_tags (h : Heap) (t : gmap Z boundary_tag) : Heap :=
  MkHeap t (l_freePages h) (l_completePages h) (l_initialized h) (payload h) (pages h) (schedulerEnabled h).
Definition with_free (h : Heap) (f : list Z) : Heap :=
  MkHeap (tags h) f (l_completePages h) (l_initialized h) (payload h) (pages h) (schedulerEnabled h).
Definition with_complete (h : Heap) (c : list Z) : Heap :=
  MkHeap (tags h) (l_freePages h) c (l_initialized h) (payload h) (pages h) (schedulerEnabled h).
Definition with_payload (h : Heap) (m : Mem) : Heap :=
  MkHeap (tags h) (l_freePages h) (l_completePages h) (l_initialized h) m (pages h) (schedulerEnabled h).
Definition with_pages (h : Heap) (s : S) : Heap :=
  MkHeap (tags h) (l_freePages h) (l_completePages h) (l_initialized h) (payload h) s (schedulerEnabled h).
Definition with_enabled (h : Heap) (b : bool) : Heap :=
  MkHeap (tags h) (l_freePages h) (l_completePages h) (l_initialized h) (payload h) (pages h) b.

Definition set_size (v : Z) (t : boundary_tag) :=
  MkTag (magic t) v (real_size t) (index t) (split_left t) (split_right t) (next t) (prev t).
Definition set_real_size (v : Z) (t : boundary_tag) :=
  MkTag (magic t) (size t) v (index t) (split_left t) (split_right t) (next t) (prev t).
Definition set_index (v : Z) (t : boundary_tag) :=
  MkTag (magic t) (size t) (real_size t) v (split_left t) (split_right t) (next t) (prev t).
Definition set_split_left (v : Z) (t : boundary_tag) :=
  MkTag (magic t) (size t) (real_size t) (index t) v (split_right t) (next t) (prev t).
Definition set_split_right (v : Z) (t : boundary_tag) :=
  MkTag (magic t) (size t) (real_size t) (index t) (split_left t) v (next t) (prev t).
Definition set_next (v : Z) (t : boundary_tag) :=
  MkTag (magic t) (size t) (real_size t) (index t) (split_left t) (split_right t) v (prev t).
Definition set_prev (v : Z) (t : boundary_tag) :=
  MkTag (magic t) (size t) (real_size t) (index t) (split_left t) (split_right t) (next t) v.

(** [tag->field] and [tag->field = v]. *)
Definition deref (h : Heap) (a : Z) : option boundary_tag := tags h !! a.
Definition upd (a : Z) (f : boundary_tag -> boundary_tag) (h : Heap) : option Heap :=
  t ← deref h a; Some (with_tags h (<[a := f t]> (tags h))).
(** [if (a != nullptr) a->field = v;] *)
Definition upd_if (a : Z) (f : boundary_tag -> boundary_tag) (h : Heap) : option Heap :=
  if negb (a =? 0) then upd a f h else Some h.

(** Array accesses, with the bounds the arrays have. *)
Definition at_index (l : list Z) (i : Z) : option Z := if i <? 0 then None else l !! Z.to_nat i.
Definition set_freePages (i v : Z) (h : Heap) : option Heap :=
  _ ← at_index (l_freePages h) i; Some (with_free h (<[Z.to_nat i := v]> (l_freePages h))).
Definition add_completePages (i v : Z) (h : Heap) : option Heap :=
  c ← at_index (l_completePages h) i;
  Some (with_complete h (<[Z.to_nat i := s32 (c + v)]> (l_completePages h))).

(** [while (shift < MAXEXP) { if ((1<<shift) > size) break; shift += 1; }], at most [n] rounds. *)
Fixpoint getexp_loop (n : nat) (shift size : Z) : Z :=
  match n with
  | O => shift
  | Datatypes.S n =>
      if shift <? MAXEXP
      then if Z.shiftl 1 shift >? size then shift else getexp_loop n (shift + 1) size
      else shift
  end.
Definition getexp (size : Z) : Z :=
  if size <? Z.shiftl 1 MINEXP then -1 else getexp_loop 32 MINEXP size - 1.

(** ** Page and lock hooks *)

Definition liballoc_lock (h : Heap) : Heap := with_enabled h false.
Definition liballoc_unlock (h : Heap) : Heap := with_enabled h true.

(** The pages are zeroed by the memory manager. *)
Definition zeroed (m : Mem) (a n : Z) : Mem :=
  fun x => if (a <=? x) && (x <? a + n) then 0 else m x.
Definition liballoc_alloc (numPages : Z) (h : Heap) : option (Z * Heap) :=
  '(a, s) ← memory_allocate (pages h) (u32 (numPages * PAGE_SIZE));
  let h := with_pages h s in
  Some (a, if a =? 0 then h else with_payload h (zeroed (payload h) a (u32 (numPages * PAGE_SIZE)))).
Definition liballoc_free (ptr numPages : Z) (h : Heap) : Heap :=
  with_pages h (memory_free (pages h) ptr (u32 (numPages * PAGE_SIZE))).

(** ** Tag lists *)

Definition insert_tag (tag idx : Z) (h : Heap) : option Heap :=
  realIndex ← (if idx <? 0 then
                 t ← deref h tag;
                 let r := getexp (u32 (real_size t - TAG)) in
                 Some (if r <? MINEXP then MINEXP else r)
               else Some idx);
  h ← upd tag (set_index realIndex) h;
  head ← at_index (l_freePages h) realIndex;
  h ← (if negb (head =? 0) then
         h ← upd head (set_prev tag) h;
         upd tag (set_next head) h
       else Some h);
  set_freePages realIndex tag h.

Definition remove_tag (tag : Z) (h : Heap) : option Heap :=
  t ← deref h tag;
  head ← at_index (l_freePages h) (index t);
  h ← (if head =? tag then set_freePages (index t) (next t) h else Some h);
  t ← deref h tag;
  h ← upd_if (prev t) (set_next (next t)) h;
  t ← deref h tag;
  h ← upd_if (next t) (set_prev (prev t)) h;
  h ← upd tag (set_next 0) h;
  h ← upd tag (set_prev 0) h;
  upd tag (set_index (-1)) h.

Definition melt_left (tag : Z) (h : Heap) : option (Z * Heap) :=
  t ← deref h tag;
  let left := split_left t in
  l ← deref h left;
  h ← upd left (set_real_size (u32 (real_size l + real_size t))) h;
  h ← upd left (set_split_right (split_right t)) h;
  h ← upd_if (split_right t) (set_split_left left) h;
  Some (left, h).

Definition absorb_right (tag : Z) (h : Heap) : option (Z * Heap) :=
  t ← deref h tag;
  let right := split_right t in
  h ← remove_tag right h;
  r ← deref h right;
  t ← deref h tag;
  h ← upd tag (set_real_size (u32 (real_size t + real_size r))) h;
  h ← upd tag (set_split_right (split_right r)) h;
  h ← upd_if (split_right r) (set_split_left tag) h;
  Some (tag, h).

(** The fields split_tag does not write (size, index) keep what stands in that memory. *)
Definition split_tag (tag : Z) (h : Heap) : option (Z * Heap) :=
  t ← deref h tag;
  let remainder := u32 (real_size t - TAG - size t) in
  let new_tag := u32 (tag + TAG + size t) in
  let old := default (MkTag 0 0 0 0 0 0 0 0) (deref h new_tag) in
  let h := with_tags h
    (<[new_tag := MkTag LIBALLOC_MAGIC (size old) remainder (index old) tag (split_right t) 0 0]> (tags h)) in
  h ← upd_if (split_right t) (set_split_left new_tag) h;
  h ← upd tag (set_split_right new_tag) h;
  h ← upd tag (fun t => set_real_size (u32 (real_size t - remainder)) t) h;
  h ← insert_tag new_tag (-1) h;
  Some (new_tag, h).

(** 0 is the null pointer. *)
Definition allocate_new_tag (sz : Z) (h : Heap) : option (Z * Heap) :=
  let usage := u32 (sz + TAG) in
  let pages := usage / l_pageSize in
  let pages := if negb (usage mod l_pageSize =? 0) then u32 (pages + 1) else pages in
  let pages := if pages <? l_pageCount then l_pageCount else pages in
  '(tag, h) ← liballoc_alloc pages h;
  if tag =? 0 then Some (0, h)
  else Some (tag, with_tags h
         (<[tag := MkTag LIBALLOC_MAGIC sz (u32 (pages * l_pageSize)) (-1) 0 0 0 0]> (tags h))).

(** ** kmalloc *)

Definition liballoc_init (h : Heap) : Heap :=
  if l_initialized h =? 0
  then MkHeap (tags h) (replicate 32 0) (replicate 32 0) 1 (payload h) (pages h) (schedulerEnabled h)
  else h.

(** The first tag of the list with room for [sz] bytes and a tag, or null. *)
Fixpoint find_tag (fuel : nat) (h : Heap) (tag sz : Z) : option Z :=
  match fuel with
  | O => None
  | Datatypes.S fuel =>
      if tag =? 0 then Some 0
      else
        t ← deref h tag;
        if u32 (real_size t - TAG) >=? u32 (sz + TAG) then Some tag else find_tag fuel h (next t) sz
  end.

Definition kmalloc (fuel : nat) (sz : Z) (h : Heap) : option (Z * Heap) :=
  let h := liballoc_init (liballoc_lock h) in
  let idx := getexp sz in
  let idx := if idx <? MINEXP then MINEXP else idx in
  head ← at_index (l_freePages h) idx;
  tag ← find_tag fuel h head sz;
  '(tag, h) ←
    (if tag =? 0 then allocate_new_tag sz h
     else
       h ← remove_tag tag h;
       t ← deref h tag;
       h ← (if (split_left t =? 0) && (split_right t =? 0) then add_completePages idx (-1) h else Some h);
       Some (tag, h));
  if tag =? 0 then Some (0, liballoc_unlock h)
  else
    h ← upd tag (set_size sz) h;
    t ← deref h tag;
    let remainder := u32 (real_size t - sz - TAG * 2) in
    h ← (if (s32 remainder >? 0) && (getexp remainder >=? 0)
         then '(_, h) ← split_tag tag h; Some h
         else Some h);
    Some (u32 (tag + TAG), liballoc_unlock h).

(** ** kfree *)

Fixpoint melt_left_loop (fuel : nat) (tag : Z) (h : Heap) : option (Z * Heap) :=
  match fuel with
  | O => None
  | Datatypes.S fuel =>
      t ← deref h tag;
      if split_left t =? 0 then Some (tag, h)
      else
        l ← deref h (split_left t);
        if index l >=? 0 then
          '(tag, h) ← melt_left tag h;
          h ← remove_tag tag h;
          melt_left_loop fuel tag h
        else Some (tag, h)
  end.

Fixpoint melt_right_loop (fuel : nat) (tag : Z) (h : Heap) : option (Z * Heap) :=
  match fuel with
  | O => None
  | Datatypes.S fuel =>
      t ← deref h tag;
      if split_right t =? 0 then Some (tag, h)
      else
        r ← deref h (split_right t);
        if index r >=? 0 then
          '(tag, h) ← absorb_right tag h;
          melt_right_loop fuel tag h
        else Some (tag, h)
  end.

(** An address at which no tag was ever written does not read as the magic number. *)
Definition has_magic (h : Heap) (tag : Z) : bool :=
  match deref h tag with Some t => magic t =? LIBALLOC_MAGIC | None => false end.

Definition kfree (fuel : nat) (ptr : Z) (h : Heap) : option Heap :=
  if ptr =? 0 then Some h
  else
    let h := liballoc_lock h in
    let tag := u32 (ptr - TAG) in
    if negb (has_magic h tag) then Some (liballoc_unlock h)
    else
      '(tag, h) ← melt_left_loop fuel tag h;
      '(tag, h) ← melt_right_loop fuel tag h;
      t ← deref h tag;
      let idx := getexp (u32 (real_size t - TAG)) in
      let idx := if idx <? MINEXP then MINEXP else idx in
      if (split_left t =? 0) && (split_right t =? 0) then
        c ← at_index (l_completePages h) idx;
        if c =? MAXCOMPLETE then
          let pages := real_size t / l_pageSize in
          let pages := if negb (real_size t mod l_pageSize =? 0) then u32 (pages + 1) else pages in
          let pages := if pages <? l_pageCount then l_pageCount else pages in
          Some (liballoc_unlock (liballoc_free tag pages h))
        else
          h ← add_completePages idx 1 h;
          h ← insert_tag tag idx h;
          Some (liballoc_unlock h)
      else
        h ← insert_tag tag idx h;
        Some (liballoc_unlock h).

(** ** kcalloc and krealloc *)

(** [for (int i = 0; i < n; i++) s[i] = c;] with [n] unsigned. *)
Fixpoint liballoc_memset_loop (k : nat) (m : Mem) (s c i : Z) : Mem :=
  match k with
  | O => m
  | Datatypes.S k => liballoc_memset_loop k (storeb m (s + i) c) s c (i + 1)
  end.
Definition liballoc_memset (m : Mem) (s c n : Z) : Mem := liballoc_memset_loop (Z.to_nat n) m s c 0.

(** Whole words while four bytes are left, then bytes. *)
Fixpoint liballoc_memcpy_loop (k : nat) (m : Mem) (dst src n : Z) : Mem :=
  match k with
  | O => m
  | Datatypes.S k =>
      if 4 <=? n then liballoc_memcpy_loop k (store32 m dst (load32 m src)) (u32 (dst + 4)) (u32 (src + 4)) (n - 4)
      else if 0 <? n then liballoc_memcpy_loop k (storeb m dst (loadb m src)) (u32 (dst + 1)) (u32 (src + 1)) (n - 1)
      else m
  end.
Definition liballoc_memcpy (m : Mem) (dst src n : Z) : Mem := liballoc_memcpy_loop (Z.to_nat n) m dst src n.

Definition kcalloc (fuel : nat) (nobj sz : Z) (h : Heap) : option (Z * Heap) :=
  let real_size := u32 (nobj * sz) in
  '(p, h) ← kmalloc fuel real_size h;
  Some (p, with_payload h (liballoc_memset (payload h) p 0 real_size)).

Definition krealloc (fuel : nat) (p sz : Z) (h : Heap) : option (Z * Heap) :=
  if sz =? 0 then h ← kfree fuel p h; Some (0, h)
  else if p =? 0 then kmalloc fuel sz h
  else
    let h := liballoc_lock h in
    t ← deref h (u32 (p - TAG));
    let h := liballoc_unlock h in
    let real_size := if size t >? sz then sz else size t in
    '(ptr, h) ← kmalloc fuel sz h;
    let h := with_payload h (liballoc_memcpy (payload h) ptr p real_size) in
    h ← kfree fuel p h;
    Some (ptr, h).

End Heap.
Arguments Heap S : clear implicits.

End Kmalloc.
