(* ===== verification/KmallocLists.v ===== *)
(** The doubly linked free lists of Kernel/Libk/kmalloc.cpp: what insert_tag and remove_tag do to
    them, and the bucket of a size. *)

From S2P Require Import Prelude PhysicalAllocator Kmalloc.

Module KmallocLists.
Import Kmalloc.

(** ** Buckets *)

Lemma getexp_loop_spec n : forall shift size,
  MINEXP <= shift <= MAXEXP -> 2 ^ shift <= 2 * size -> MAXEXP - shift <= Z.of_nat n ->
  let r := getexp_loop n shift size in
  shift <= r <= MAXEXP /\ 2 ^ r <= 2 * size /\ (r < MAXEXP -> size < 2 ^ r).
Proof.
  unfold MINEXP, MAXEXP. induction n as [|n IH]; intros shift size Hs Hp Hn; cbn [getexp_loop]; cbv zeta.
  { split_and!; try done; lia. }
  unfold MAXEXP. case_if; [|split_and!; try done; lia].
  rewrite Z.shiftl_1_l, Z.gtb_ltb. case_if; [split_and!; try done; lia|].
  destruct (IH (shift + 1) size) as (H1 & H2 & H3); [lia| |lia|].
  - rewrite Z.pow_add_r by lia. lia.
  - split_and!; try done; lia.
Qed.

(** getexp is the binary logarithm of sizes from 256 on, and -1 below. *)
Lemma getexp_log2 size : 256 <= size < 4294967296 -> getexp size = Z.log2 size.
Proof.
  intros Hs. unfold getexp. change (Z.shiftl 1 MINEXP) with 256. rewrite (proj2 (Z.ltb_ge _ _)) by lia.
  destruct (getexp_loop_spec 32 MINEXP size) as (H1 & H2 & H3); unfold MINEXP, MAXEXP in *; [lia..|].
  set (r := getexp_loop 32 8 size) in *. symmetry. apply Z.log2_unique; [lia|].
  replace (Z.succ (r - 1)) with r by lia. split.
  - assert (2 ^ r = 2 * 2 ^ (r - 1)) by (rewrite <- Z.pow_succ_r by lia; f_equal; lia). lia.
  - destruct (Z.eq_dec r 32) as [->|]; [lia|]. apply H3. lia.
Qed.
Lemma getexp_small size : size < 256 -> getexp size = -1.
Proof. intros Hs. unfold getexp. by rewrite (proj2 (Z.ltb_lt _ _)). Qed.
Lemma getexp_range size : size < 4294967296 -> getexp size < 32.
Proof.
  intros Hs. destruct (Z.lt_ge_cases size 256); [rewrite getexp_small; lia|].
  rewrite getexp_log2 by lia. assert (Z.log2 size < 32); [apply Z.log2_lt_pow2; lia|lia].
Qed.
Lemma getexp_nonneg size : size < 4294967296 -> getexp size >= 0 <-> 256 <= size.
Proof.
  intros Hs. destruct (Z.lt_ge_cases size 256); [rewrite getexp_small; lia|].
  rewrite getexp_log2 by lia. pose proof (Z.log2_nonneg size). lia.
Qed.

(** The list a free block of [n] bytes (tag included) goes to. *)
Definition bucket (n : Z) : Z := let r := getexp (n - TAG) in if r <? MINEXP then MINEXP else r.
Lemma bucket_range n : n < 4294967296 -> 8 <= bucket n < 32.
Proof.
  intros Hn. unfold bucket, MINEXP. pose proof (getexp_range (n - TAG)) as Hr. unfold TAG in *.
  destruct (Z.ltb_spec (getexp (n - 32)) 8); lia.
Qed.

Section Lists.
Context {S : Type} `{KernelPages S}.
Implicit Types h : Heap S.

(** ** Two views of the tags *)

(** The links of a tag, and the rest of it. *)
Definition erase (t : boundary_tag) : boundary_tag := Kmalloc.set_next 0 (Kmalloc.set_prev 0 t).
Definition core_at h (a : Z) : option boundary_tag := erase <$> deref h a.
Definition links_at h (a : Z) : option (Z * Z) := (fun t => (next t, prev t)) <$> deref h a.

Lemma core_at_Some h a c : core_at h a = Some c -> exists t, deref h a = Some t /\ c = erase t.
Proof. unfold core_at. destruct (deref h a); simpl; intros; simplify_eq; eauto. Qed.

Lemma deref_insert h a b t :
  deref (with_tags h (<[a := t]> (tags h))) b = if decide (a = b) then Some t else deref h b.
Proof. unfold deref. simpl. by rewrite lookup_insert. Qed.

(** Everything but the tags and the list heads. *)
Definition rest h := (l_completePages h, l_initialized h, payload h, pages h, schedulerEnabled h).

(** ** Linked lists *)

Fixpoint dll (L : Z -> option (Z * Z)) (p : Z) (l : list Z) : Prop :=
  match l with
  | [] => True
  | a :: l => L a = Some (hd 0 l, p) /\ dll L a l
  end.

Lemma dll_frame L L' p l : (forall a, a ∈ l -> L' a = L a) -> dll L p l -> dll L' p l.
Proof.
  revert p; induction l as [|a l IH]; intros p Hf; simpl; [done|]. intros [H1 H2]. split.
  - rewrite Hf; [done|left].
  - apply IH; [|done]. intros b Hb. apply Hf. by right.
Qed.

Definition last_or (p : Z) (l : list Z) : Z := default p (last l).

Lemma last_or_cons p a l : last_or p (a :: l) = last_or a l.
Proof. unfold last_or. rewrite last_cons. by destruct (last l). Qed.

Lemma dll_middle L p l1 a l2 : dll L p (l1 ++ a :: l2) -> L a = Some (hd 0 l2, last_or p l1).
Proof.
  revert p; induction l1 as [|b l1 IH]; intros p; simpl; [tauto|]. intros [_ Hd].
  rewrite last_or_cons. by apply IH.
Qed.

(** Unlinking [a]: its predecessor's next and its successor's prev are redirected. *)
Lemma dll_unlink L L' p l1 a l2 :
  dll L p (l1 ++ a :: l2) -> NoDup (l1 ++ a :: l2) ->
  (forall b, b ∈ l1 ++ l2 -> L' b = (fun '(n, q) =>
     (if decide (last l1 = Some b) then hd 0 l2 else n,
      if decide (head l2 = Some b) then last_or p l1 else q)) <$> L b) ->
  dll L' p (l1 ++ l2).
Proof.
  revert p; induction l1 as [|b l1 IH]; intros p; simpl.
  - intros [_ Hd] [Ha Hn]%NoDup_cons HL. destruct l2 as [|c l2]; simpl in *; [done|].
    destruct Hd as [Hc Hd]. apply NoDup_cons in Hn as [Hcn Hn]. split.
    + rewrite HL by left. rewrite Hc. unfold fmap, option_fmap, option_map. repeat case_decide; done.
    + eapply dll_frame; [|done]. intros d Hd'. rewrite HL by (by right).
      destruct (L d) as [[n q]|]; unfold fmap, option_fmap, option_map; [|done].
      repeat case_decide; simplify_eq; done.
  - intros [Hb Hd] [Hbn Hn]%NoDup_cons HL. split.
    + rewrite HL by left. rewrite Hb. simpl. rewrite last_cons.
      rewrite (decide_False (P := head l2 = Some b)).
      * destruct l1 as [|c l1]; simpl; [by rewrite decide_True|].
        rewrite decide_False; [done|]. rewrite last_cons. intros E. apply Hbn.
        apply elem_of_app. left. destruct (last l1) eqn:El; simplify_eq.
        -- right. by apply last_Some_elem_of.
        -- left.
      * intros E. apply Hbn. apply elem_of_app. right. right. destruct l2; simplify_eq/=. left.
    + apply IH; [done|done|]. intros d Hd'. rewrite HL by (by right).
      destruct (L d) as [[n q]|]; unfold fmap, option_fmap, option_map; [|done].
      rewrite last_or_cons, last_cons. destruct (last l1) eqn:El; [done|]. apply last_None in El as ->. simpl in *.
      repeat case_decide; simplify_eq; try done; exfalso; apply Hbn; by right.
Qed.

Record freelists h (fl : Z -> list Z) : Prop := {
  fl_len : length (l_freePages h) = 32%nat;
  fl_head : forall i, 0 <= i < 32 -> l_freePages h !! Z.to_nat i = Some (hd 0 (fl i));
  fl_dll : forall i, 0 <= i < 32 -> dll (links_at h) 0 (fl i);
  fl_nodup : forall i, NoDup (fl i);
  fl_disj : forall i j a, a ∈ fl i -> a ∈ fl j -> i = j;
  fl_range : forall i a, a ∈ fl i -> 0 <= i < 32 /\ a <> 0
}.

Definition upd_list (fl : Z -> list Z) (i : Z) (l : list Z) : Z -> list Z :=
  fun j => if j =? i then l else fl j.

Lemma last_snoc_or p l (a : Z) : last_or p (l ++ [a]) = a.
Proof. unfold last_or. by rewrite last_snoc. Qed.

(** ** Field updates through the two views *)

Lemma view h a c : core_at h a = Some c ->
  exists t, deref h a = Some t /\ erase t = c /\ links_at h a = Some (next t, prev t).
Proof. intros (t & E & ->)%core_at_Some. exists t. unfold links_at. by rewrite E. Qed.

Lemma upd_core h a f c :
  (forall t, erase (f t) = f (erase t)) -> (forall t, (next (f t), prev (f t)) = (next t, prev t)) ->
  core_at h a = Some c ->
  exists h', upd a f h = Some h' /\ (forall b, core_at h' b = if decide (a = b) then Some (f c) else core_at h b) /\
    (forall b, links_at h' b = links_at h b) /\ l_freePages h' = l_freePages h /\ rest h' = rest h.
Proof.
  intros Hc Hl (t & E & ->)%core_at_Some. unfold upd. rewrite E. simpl. eexists. split; [done|].
  unfold core_at, links_at. split_and!; try done; intros b; rewrite deref_insert; case_decide; subst; simpl;
    rewrite ?E, ?Hc; try done. simpl. by rewrite Hl.
Qed.

Lemma upd_link h a f g c :
  (forall t, erase (f t) = erase t) -> (forall t, (next (f t), prev (f t)) = g (next t, prev t)) ->
  core_at h a = Some c ->
  exists h', upd a f h = Some h' /\ (forall b, core_at h' b = core_at h b) /\
    (forall b, links_at h' b = if decide (a = b) then g <$> links_at h b else links_at h b) /\
    l_freePages h' = l_freePages h /\ rest h' = rest h.
Proof.
  intros Hc Hl (t & E & ->)%core_at_Some. unfold upd. rewrite E. simpl. eexists. split; [done|].
  unfold core_at, links_at. split_and!; try done; intros b; rewrite deref_insert; case_decide; subst; simpl;
    rewrite ?E; simpl; rewrite ?Hc, ?Hl; done.
Qed.

(** [if (a != nullptr) a->link = v] for a link. *)
Lemma upd_if_link h a f g :
  (forall t, erase (f t) = erase t) -> (forall t, (next (f t), prev (f t)) = g (next t, prev t)) ->
  (a <> 0 -> is_Some (core_at h a)) ->
  exists h', upd_if a f h = Some h' /\ (forall b, core_at h' b = core_at h b) /\
    (forall b, b <> 0 -> links_at h' b = if decide (a = b) then g <$> links_at h b else links_at h b) /\
    l_freePages h' = l_freePages h /\ rest h' = rest h.
Proof.
  intros Hc Hl Ha. unfold upd_if. destruct (Z.eqb_spec a 0) as [->|Hne]; simpl.
  - exists h. split_and!; try done. intros b Hb. by rewrite decide_False by done.
  - destruct (Ha Hne) as [c E]. destruct (upd_link h a f g c Hc Hl E) as (h' & ? & ? & ? & ? & ?).
    exists h'. split_and!; auto.
Qed.

(** [if (a != nullptr) a->field = v] for another field. *)
Lemma upd_if_core h a f :
  (forall t, erase (f t) = f (erase t)) -> (forall t, (next (f t), prev (f t)) = (next t, prev t)) ->
  (a <> 0 -> is_Some (core_at h a)) ->
  exists h', upd_if a f h = Some h' /\
    (forall b, b <> 0 -> core_at h' b = if decide (a = b) then f <$> core_at h b else core_at h b) /\
    (forall b, links_at h' b = links_at h b) /\ l_freePages h' = l_freePages h /\ rest h' = rest h.
Proof.
  intros Hc Hl Ha. unfold upd_if. destruct (Z.eqb_spec a 0) as [->|Hne]; simpl.
  - exists h. split_and!; try done. intros b Hb. by rewrite decide_False by done.
  - destruct (Ha Hne) as [c E]. destruct (upd_core h a f c Hc Hl E) as (h' & ? & Hcore & ? & ? & ?).
    exists h'. split_and!; auto. intros b _. rewrite Hcore. case_decide; [|done]. subst. by rewrite E.
Qed.

Lemma at_index_ok l i : 0 <= i -> at_index l i = l !! Z.to_nat i.
Proof. intros Hi. unfold at_index. by rewrite (proj2 (Z.ltb_ge _ _)). Qed.

(** ** remove_tag *)

Lemma links_core h a l : links_at h a = Some l -> is_Some (core_at h a).
Proof. unfold links_at, core_at. destruct (deref h a); simpl; [eauto|done]. Qed.
Lemma dll_links L p l a : dll L p l -> a ∈ l -> is_Some (L a).
Proof.
  revert p; induction l as [|b l IH]; intros p Hd Ha; [by apply not_elem_of_nil in Ha|].
  destruct Hd as [Hb Hd]. apply elem_of_cons in Ha as [->|Ha]; eauto.
Qed.
Lemma fl_core h fl i a : freelists h fl -> a ∈ fl i -> is_Some (core_at h a).
Proof.
  intros Hfl Ha. destruct (fl_range _ _ Hfl i a Ha) as [Hi _].
  destruct (dll_links _ _ _ _ (fl_dll _ _ Hfl i Hi) Ha) as [l Hl]. by eapply links_core.
Qed.

Lemma hd_0 l : hd 0 l <> 0 -> exists l', l = hd 0 l :: l'.
Proof. destruct l; simpl; [done|eauto]. Qed.
Lemma last_or_0 l : last_or 0 l <> 0 -> last l = Some (last_or 0 l).
Proof. unfold last_or. by destruct (last l). Qed.

Definition removed (a : Z) (c : option boundary_tag) : option boundary_tag := set_index (-1) <$> c.

Lemma hd_or_last (l1 l2 : list Z) a : last l1 = None -> hd 0 (l1 ++ a :: l2) = a /\ hd 0 (l1 ++ l2) = hd 0 l2.
Proof. by intros ->%last_None. Qed.

(** What stands around [a] in its list. *)
Lemma fl_middle h fl i l1 a l2 :
  freelists h fl -> fl i = l1 ++ a :: l2 ->
  (0 <= i < 32 /\ a <> 0) /\ links_at h a = Some (hd 0 l2, last_or 0 l1) /\ NoDup (l1 ++ a :: l2) /\
  (forall b, b ∈ l1 ++ l2 -> b ∈ fl i /\ b <> a) /\
  (hd 0 l2 <> 0 -> hd 0 l2 ∈ l1 ++ l2) /\ (last_or 0 l1 <> 0 -> last_or 0 l1 ∈ l1 ++ l2).
Proof.
  intros Hfl Hi. assert (a ∈ fl i) as Ha by (rewrite Hi; apply elem_of_app; right; left).
  pose proof (fl_range _ _ Hfl i a Ha) as [Hir Ha0].
  pose proof (fl_dll _ _ Hfl i Hir) as Hd. pose proof (fl_nodup _ _ Hfl i) as Hnd. rewrite Hi in Hd, Hnd.
  split; [done|]. split; [by eapply dll_middle|]. split; [done|].
  apply NoDup_app in Hnd as (_ & Hn12 & [Ha2 _]%NoDup_cons). split; [|split].
  - intros b Hb. rewrite Hi. split; [apply elem_of_app; apply elem_of_app in Hb as [?|?]; [by left|right; by right]|].
    intros ->. apply elem_of_app in Hb as [Hb|?]; [|done]. apply (Hn12 a Hb). left.
  - intros Hx. apply elem_of_app. right. destruct (hd_0 _ Hx) as [l' ->]. left.
  - intros Hx. apply elem_of_app. left. by apply last_Some_elem_of, last_or_0.
Qed.

(** The list heads after unlinking [a] from list [i]. *)
Definition unlinked_heads (heads : list Z) (i a : Z) (l1 l2 : list Z) : list Z :=
  if hd 0 (l1 ++ a :: l2) =? a then <[Z.to_nat i := hd 0 l2]> heads else heads.

(** The links after it. *)
Definition unlinked (l1 l2 : list Z) (b : Z) : Z * Z -> Z * Z := fun '(n, q) =>
  (if decide (last_or 0 l1 = b) then hd 0 l2 else n, if decide (hd 0 l2 = b) then last_or 0 l1 else q).

Lemma remove_tag_effect h fl i l1 a l2 c :
  freelists h fl -> fl i = l1 ++ a :: l2 -> core_at h a = Some c -> index c = i ->
  exists h', remove_tag a h = Some h' /\
    (forall b, core_at h' b = if decide (a = b) then Some (set_index (-1) c) else core_at h b) /\
    (forall b, b <> 0 -> b <> a -> links_at h' b = unlinked l1 l2 b <$> links_at h b) /\
    links_at h' a = Some (0, 0) /\ l_freePages h' = unlinked_heads (l_freePages h) i a l1 l2 /\ rest h' = rest h.
Proof.
  intros Hfl Hi Hc Hix. destruct (fl_middle _ _ _ _ _ _ Hfl Hi) as ([Hir Ha0] & Hla & _ & Hmem & Hnext & Hprev).
  pose proof (fl_head _ _ Hfl i Hir) as Hhd. rewrite Hi in Hhd.
  destruct (view _ _ _ Hc) as (t & Et & <- & El). rewrite Hla in El. injection El as En Ep.
  unfold remove_tag. rewrite Et. simpl in Hix |- *. rewrite Hix, at_index_ok, Hhd, <- En by lia. simpl.
  set (heads := unlinked_heads (l_freePages h) i a l1 l2).
  assert ((if hd 0 (l1 ++ a :: l2) =? a then set_freePages i (hd 0 l2) h else Some h) = Some (with_free h heads)) as ->.
  { unfold heads, unlinked_heads, set_freePages. case_if; [|by destruct h]. rewrite at_index_ok, Hhd by lia. done. }
  simpl. change (deref (with_free h heads) a) with (deref h a). rewrite Et. simpl. rewrite <- Ep, <- En.
  set (h0 := with_free h heads). set (p := last_or 0 l1) in *. set (n := hd 0 l2) in *.
  destruct (upd_if_link h0 p (Kmalloc.set_next n) (fun '(_, q) => (n, q))) as (h1 & -> & C1 & L1 & F1 & R1); try done.
  { intros [Hp _]%Hprev%Hmem. by apply (fl_core h fl i). }
  simpl. destruct (view h1 a (erase t)) as (t1 & Et1 & Ee1 & El1); [rewrite C1; exact Hc|].
  rewrite Et1. simpl. assert (next t1 = n /\ prev t1 = p) as [-> ->].
  { rewrite L1 in El1 by done. change (links_at h0 a) with (links_at h a) in El1. rewrite Hla in El1.
    rewrite decide_False in El1 by (intros E; eapply (Hmem p); [apply Hprev; congruence|done]). split; congruence. }
  destruct (upd_if_link h1 n (Kmalloc.set_prev p) (fun '(x, _) => (x, p))) as (h2 & -> & C2 & L2 & F2 & R2); try done.
  { intros [Hx _]%Hnext%Hmem. rewrite C1. by apply (fl_core h fl i). }
  simpl. assert (core_at h2 a = Some (erase t)) as Hc2 by (rewrite C2, C1; done).
  destruct (upd_link h2 a (Kmalloc.set_next 0) (fun '(_, q) => (0, q)) (erase t)) as (h3 & -> & C3 & L3 & F3 & R3); try done.
  simpl. destruct (upd_link h3 a (Kmalloc.set_prev 0) (fun '(x, _) => (x, 0)) (erase t)) as (h4 & -> & C4 & L4 & F4 & R4);
    [done..|by rewrite C3|].
  simpl. destruct (upd_core h4 a (set_index (-1)) (erase t)) as (h5 & -> & C5 & L5 & F5 & R5); [done..|by rewrite C4, C3|].
  exists h5. split_and!; try done.
  - intros b. rewrite C5. case_decide; [done|]. rewrite C4, C3, C2, C1. done.
  - intros b Hb Hba. rewrite L5, L4, decide_False by done. rewrite L3, decide_False, L2, L1 by done.
    change (links_at h0 b) with (links_at h b). unfold unlinked. fold p n.
    destruct (links_at h b) as [[x q]|]; repeat case_decide; done.
  - rewrite L5, L4, decide_True by done. rewrite L3, decide_True by done. rewrite L2, L1 by done.
    change (links_at h0 a) with (links_at h a). rewrite Hla. by repeat case_decide.
  - rewrite F5, F4, F3, F2, F1. done.
  - rewrite R5, R4, R3, R2, R1. done.
Qed.

Lemma unlinked_other h fl i l1 a l2 b x :
  freelists h fl -> fl i = l1 ++ a :: l2 -> b <> 0 -> b ∉ fl i -> unlinked l1 l2 b x = x.
Proof.
  intros Hfl Hi Hb Hbi. destruct (fl_middle _ _ _ _ _ _ Hfl Hi) as (_ & _ & _ & Hmem & Hnext & Hprev).
  destruct x as [n q]. unfold unlinked.
  rewrite !decide_False; [done|..]; intros E; apply Hbi; rewrite <- E; eapply Hmem;
    [apply Hnext|apply Hprev]; congruence.
Qed.

Lemma unlinked_dll h fl i l1 a l2 h' :
  freelists h fl -> fl i = l1 ++ a :: l2 ->
  (forall b, b <> 0 -> b <> a -> links_at h' b = unlinked l1 l2 b <$> links_at h b) ->
  forall j, 0 <= j < 32 -> dll (links_at h') 0 (upd_list fl i (l1 ++ l2) j).
Proof.
  intros Hfl Hi HL j Hj. destruct (fl_middle _ _ _ _ _ _ Hfl Hi) as ([Hir Ha0] & _ & Hnd & Hmem & _).
  unfold upd_list. destruct (Z.eqb_spec j i) as [->|Hne].
  - pose proof (fl_dll _ _ Hfl i Hir) as Hd. rewrite Hi in Hd.
    eapply dll_unlink; [exact Hd|exact Hnd|]. intros b Hb. destruct (Hmem b Hb) as [Hbi Hba].
    destruct (fl_range _ _ Hfl i b Hbi) as [_ Hb0]. rewrite HL by done.
    destruct (links_at h b) as [[n q]|]; [|done]. simpl. unfold unlinked, last_or.
    destruct (last l1), l2; simpl; repeat case_decide; simplify_eq; done.
  - eapply dll_frame; [|by apply Hfl]. intros b Hb. destruct (fl_range _ _ Hfl j b Hb) as [_ Hb0].
    assert (b ∉ fl i) as Hbi by (intros Hx; apply Hne; by eapply fl_disj).
    rewrite HL; [|done|intros ->; apply Hbi; rewrite Hi; apply elem_of_app; right; left].
    destruct (links_at h b); [|done]. simpl. f_equal. by eapply unlinked_other.
Qed.

Lemma unlinked_heads_ok h fl i l1 a l2 :
  freelists h fl -> fl i = l1 ++ a :: l2 ->
  length (unlinked_heads (l_freePages h) i a l1 l2) = 32%nat /\
  forall j, 0 <= j < 32 ->
    unlinked_heads (l_freePages h) i a l1 l2 !! Z.to_nat j = Some (hd 0 (upd_list fl i (l1 ++ l2) j)).
Proof.
  intros Hfl Hi. destruct (fl_middle _ _ _ _ _ _ Hfl Hi) as ([Hir Ha0] & _ & Hnd & _).
  pose proof (fl_head _ _ Hfl i Hir) as Hhd. rewrite Hi in Hhd. unfold unlinked_heads. split.
  { case_if; rewrite ?length_insert; apply Hfl. }
  intros j Hj. unfold upd_list. destruct (Z.eqb_spec j i) as [->|Hne].
  - destruct (last l1) as [b|] eqn:Elast.
    + assert (hd 0 (l1 ++ a :: l2) = hd 0 (l1 ++ l2)) as E by (destruct l1; done).
      rewrite E in Hhd |- *. rewrite (proj2 (Z.eqb_neq _ _)); [done|]. destruct l1; [done|]. simpl in *.
      intros ->. apply NoDup_cons in Hnd as [Hnd _]. apply Hnd. apply elem_of_app. right. left.
    + destruct (hd_or_last l1 l2 a Elast) as [-> ->]. rewrite Z.eqb_refl.
      by rewrite list_lookup_insert_eq by (rewrite (fl_len _ _ Hfl); lia).
  - case_if; rewrite ?list_lookup_insert_ne by lia; by apply Hfl.
Qed.

Lemma remove_tag_spec h fl i l1 a l2 c :
  freelists h fl -> fl i = l1 ++ a :: l2 -> core_at h a = Some c -> index c = i ->
  exists h', remove_tag a h = Some h' /\
    (forall b, core_at h' b = if decide (a = b) then Some (set_index (-1) c) else core_at h b) /\
    freelists h' (upd_list fl i (l1 ++ l2)) /\ links_at h' a = Some (0, 0) /\
    (forall b, b <> 0 -> b ∉ fl i -> links_at h' b = links_at h b) /\ rest h' = rest h.
Proof.
  intros Hfl Hi Hc Hix. destruct (remove_tag_effect _ _ _ _ _ _ _ Hfl Hi Hc Hix) as (h' & E & C & L & La & F & R).
  destruct (fl_middle _ _ _ _ _ _ Hfl Hi) as (_ & _ & Hnd & Hmem & _).
  destruct (unlinked_heads_ok _ _ _ _ _ _ Hfl Hi) as [H1 H2].
  exists h'. split_and!; try done.
  - split.
    + by rewrite F.
    + by rewrite F.
    + by eapply unlinked_dll.
    + intros j. unfold upd_list. case_if; [|apply Hfl].
      apply NoDup_app in Hnd as (Hn1 & Hn12 & [_ Hn2]%NoDup_cons). apply NoDup_app. split_and!; [done| |done].
      intros x Hx Hx2. apply (Hn12 x Hx). by right.
    + intros j k b. unfold upd_list. repeat case_if; subst; try lia.
      * intros [Hb _]%Hmem Hb'. by eapply fl_disj.
      * intros Hb' [Hb _]%Hmem. by eapply fl_disj.
      * by eapply fl_disj.
    + intros j b. unfold upd_list. case_if; subst.
      * intros [Hb _]%Hmem. by eapply fl_range.
      * by eapply fl_range.
  - intros b Hb Hbi. rewrite L; [|done|intros ->; apply Hbi; rewrite Hi; apply elem_of_app; right; left].
    destruct (links_at h b); [|done]. simpl. f_equal. by eapply unlinked_other.
Qed.

Lemma removed_mem h fl i x1 a x2 b j :
  freelists h fl -> fl i = x1 ++ a :: x2 -> b ∈ upd_list fl i (x1 ++ x2) j <-> b ∈ fl j /\ b <> a.
Proof.
  intros Hfl Hx. destruct (fl_middle _ _ _ _ _ _ Hfl Hx) as (_ & _ & Hnd & Hmem & _).
  unfold upd_list. destruct (Z.eqb_spec j i) as [->|Hne].
  - split; [apply Hmem|]. rewrite Hx, !elem_of_app, elem_of_cons. tauto.
  - split; [|tauto]. intros Hb. split; [done|]. intros ->. apply Hne.
    eapply (fl_disj _ _ Hfl); [done|]. rewrite Hx. apply elem_of_app. right. left.
Qed.

(** ** insert_tag *)

(** The links after putting [a] in front of the list whose head is [x]. *)
Definition linked (a x b : Z) : Z * Z -> Z * Z := fun '(n, q) =>
  (if decide (a = b) then x else n, if decide (x = b) then a else q).

Lemma link_front h a x c cx :
  a <> 0 -> x <> a -> core_at h a = Some c -> links_at h a = Some (0, 0) -> (x <> 0 -> core_at h x = Some cx) ->
  exists h', (if negb (x =? 0) then h ← upd x (Kmalloc.set_prev a) h; upd a (Kmalloc.set_next x) h else Some h) = Some h' /\
    (forall b, core_at h' b = core_at h b) /\ (forall b, b <> 0 -> links_at h' b = linked a x b <$> links_at h b) /\
    l_freePages h' = l_freePages h /\ rest h' = rest h.
Proof.
  intros Ha Hxa Hc Hl Hx. unfold linked. destruct (Z.eqb_spec x 0) as [->|Hne]; simpl.
  - exists h. split_and!; try done. intros b Hb. destruct (decide (a = b)) as [<-|].
    + rewrite Hl. simpl. by rewrite decide_False by congruence.
    + destruct (links_at h b) as [[u v]|]; [|done]. simpl. by rewrite decide_False by congruence.
  - destruct (upd_link h x (Kmalloc.set_prev a) (fun '(u, _) => (u, a)) cx) as (h2 & -> & C2 & L2 & F2 & R2); auto.
    simpl. destruct (upd_link h2 a (Kmalloc.set_next x) (fun '(_, v) => (x, v)) c) as (h3 & -> & C3 & L3 & F3 & R3); try done.
    { by rewrite C2. }
    exists h3. split_and!; [done|intros b; by rewrite C3, C2| |congruence..].
    intros b Hb. rewrite L3, L2. destruct (links_at h b) as [[u v]|]; repeat case_decide; done.
Qed.

Lemma linked_freelists h fl i a h' :
  freelists h fl -> 0 <= i < 32 -> a <> 0 -> (forall j, a ∉ fl j) -> links_at h a = Some (0, 0) ->
  l_freePages h' = <[Z.to_nat i := a]> (l_freePages h) ->
  (forall b, b <> 0 -> links_at h' b = linked a (hd 0 (fl i)) b <$> links_at h b) ->
  freelists h' (upd_list fl i (a :: fl i)).
Proof.
  intros Hfl Hi Ha0 Ha Hl HF HL.
  assert (forall j b, b ∈ fl j -> b <> a /\ b <> 0 /\ 0 <= j < 32) as Hb.
  { intros j b Hb. split; [intros ->; by apply (Ha j)|]. split; apply (fl_range _ _ Hfl j b Hb). }
  split.
  - rewrite HF, length_insert. apply Hfl.
  - intros j Hj. rewrite HF. unfold upd_list. destruct (Z.eqb_spec j i) as [->|Hne].
    + by rewrite list_lookup_insert_eq by (rewrite (fl_len _ _ Hfl); lia).
    + rewrite list_lookup_insert_ne by lia. by apply Hfl.
  - intros j Hj. pose proof (fl_dll _ _ Hfl j Hj) as Hd. pose proof (fl_nodup _ _ Hfl j) as Hnd.
    unfold upd_list. destruct (Z.eqb_spec j i) as [->|Hne]; simpl.
    + split.
      { rewrite HL, Hl by done. simpl. rewrite decide_True by done.
        rewrite decide_False; [done|]. intros E. destruct (fl i) as [|x l] eqn:Ei; simpl in E; [congruence|].
        apply (Ha i). rewrite Ei, <- E. left. }
      destruct (fl i) as [|x l] eqn:Ei; simpl in *; [done|]. destruct Hd as [Hx Hd]. apply NoDup_cons in Hnd as [Hxl _].
      assert (x ∈ fl i) as Hxi by (rewrite Ei; left). destruct (Hb i x Hxi) as (Hxa & Hx0 & _). split.
      { rewrite HL, Hx by done. simpl. by rewrite decide_False, decide_True. }
      eapply dll_frame; [|done]. intros b Hbl. assert (b ∈ fl i) as Hbi by (rewrite Ei; by right).
      destruct (Hb i b Hbi) as (Hba & Hb0 & _). rewrite HL by done.
      destruct (links_at h b) as [[u v]|]; simpl; [|done]. rewrite !decide_False; [done|..]; congruence.
    + eapply dll_frame; [|done]. intros b Hbj. destruct (Hb j b Hbj) as (Hba & Hb0 & _). rewrite HL by done.
      destruct (links_at h b) as [[u v]|]; simpl; [|done]. rewrite !decide_False; [done|..]; [|congruence].
      intros E. apply Hne. apply (fl_disj _ _ Hfl j i b); [done|]. destruct (fl i) as [|x l] eqn:Ei; simpl in E; [congruence|].
      rewrite <- E. left.
  - intros j. unfold upd_list. case_if; [|apply Hfl]. apply NoDup_cons. split; [apply Ha|apply Hfl].
  - intros j k b. unfold upd_list. repeat case_if; subst; try lia; rewrite ?elem_of_cons.
    + intros [->|Hbi] Hbk; [by apply Ha in Hbk|]. by eapply fl_disj.
    + intros Hbk [->|Hbi]; [by apply Ha in Hbk|]. by eapply fl_disj.
    + by eapply fl_disj.
  - intros j b. unfold upd_list. case_if; subst; rewrite ?elem_of_cons; [|by eapply fl_range].
    intros [->|Hbi]; [done|by eapply fl_range].
Qed.

Lemma insert_tag_spec h fl i a c :
  freelists h fl -> 0 <= i < 32 -> a <> 0 -> (forall j, a ∉ fl j) ->
  core_at h a = Some c -> links_at h a = Some (0, 0) ->
  exists h', insert_tag a i h = Some h' /\
    (forall b, core_at h' b = if decide (a = b) then Some (set_index i c) else core_at h b) /\
    freelists h' (upd_list fl i (a :: fl i)) /\
    (forall b, b <> 0 -> b <> a -> b ∉ fl i -> links_at h' b = links_at h b) /\ rest h' = rest h.
Proof.
  intros Hfl Hi Ha0 Ha Hc Hl. unfold insert_tag. rewrite (proj2 (Z.ltb_ge _ _)) by lia. simpl.
  destruct (upd_core h a (set_index i) c) as (h1 & -> & C1 & L1 & F1 & R1); [done..|]. simpl.
  pose proof (fl_head _ _ Hfl i Hi) as Hhd. rewrite at_index_ok, F1, Hhd by lia. simpl.
  assert (hd 0 (fl i) <> 0 -> hd 0 (fl i) ∈ fl i) as Hx.
  { intros Hx. destruct (hd_0 _ Hx) as [l' E]. rewrite E at 2. left. }
  assert (hd 0 (fl i) <> a) as Hxa by (intros E; apply (Ha i); rewrite <- E; apply Hx; congruence).
  destruct (link_front h1 a (hd 0 (fl i)) (set_index i c) (default c (core_at h (hd 0 (fl i))))) as (h2 & -> & C2 & L2 & F2 & R2);
    try done.
  { rewrite C1. by rewrite decide_True. }
  { by rewrite L1. }
  { intros Hne. rewrite C1, decide_False by done. destruct (fl_core _ _ _ _ Hfl (Hx Hne)) as [cx ->]. done. }
  simpl. unfold set_freePages. rewrite at_index_ok, F2, F1, Hhd by lia. simpl. eexists. split; [done|].
  assert (forall b, b <> 0 -> links_at (with_free h2 (<[Z.to_nat i := a]> (l_freePages h))) b
    = linked a (hd 0 (fl i)) b <$> links_at h b) as HL.
  { intros b Hb. rewrite <- L1, <- L2 by done. done. }
  split_and!.
  - intros b. change (core_at (with_free h2 _) b) with (core_at h2 b). by rewrite C2, C1.
  - eapply linked_freelists; try done.
  - intros b Hb Hba Hbi. rewrite HL by done. destruct (links_at h b) as [[u v]|]; [|done]. simpl.
    rewrite !decide_False; [done|..]; [|congruence]. intros E. apply Hbi. rewrite <- E. apply Hx. congruence.
  - change (rest (with_free h2 _)) with (rest h2). by rewrite R2, R1.
Qed.

(** With a negative index the bucket is computed from the tag's size. *)
Lemma insert_tag_negative h a c :
  core_at h a = Some c -> 32 <= real_size c < 4294967296 ->
  insert_tag a (-1) h = insert_tag a (bucket (real_size c)) h.
Proof.
  intros (t & Et & ->)%core_at_Some Hs. simpl in Hs. pose proof (bucket_range (real_size t) ltac:(lia)).
  unfold insert_tag. rewrite Et. cbn [option_bind mbind Z.ltb Z.compare].
  rewrite (proj2 (Z.ltb_ge _ 0)) by (simpl; lia). rewrite u32_small by (unfold is_u32, TAG; lia). done.
Qed.

End Lists.
End KmallocLists.
