(* ===== verification/KmallocHeap.v ===== *)
(** The kernel heap of Kernel/Libk/kmalloc.cpp as tiled regions: the invariant that ties the
    boundary tags and the free lists to a ghost list of segments, and the effect on it of each
    step of kmalloc and kfree. *)

From S2P Require Import Prelude PhysicalAllocator Kmalloc KmallocLists.

Module KmallocHeap.
Import Kmalloc KmallocLists.

(** What the heap relies on from the page allocator: pages handed out lie in the kernel's
    gigabyte, are page aligned, and are disjoint from everything owned; freeing gives up
    exactly what is freed. *)
Class PageLaws (S : Type) `{KernelPages S} := {
  pages_inv : S -> Prop;
  owns : S -> Z -> Z -> Prop;
  allocate_law s n : pages_inv s -> 0 < n <= 2147483648 -> n mod 4096 = 0 ->
    exists a s', memory_allocate s n = Some (a, s') /\ pages_inv s' /\
      (forall b k, owns s b k -> owns s' b k) /\
      (a <> 0 -> 0 < a /\ a mod 4096 = 0 /\ a + n <= 1073741824 /\ owns s' a n /\
        forall b k, owns s b k -> b + k <= a \/ a + n <= b);
  free_law s a n : pages_inv s -> owns s a n ->
    pages_inv (memory_free s a n) /\
    forall b k, owns s b k -> b + k <= a \/ a + n <= b -> owns (memory_free s a n) b k
}.

(** A ledger of the page allocator: the runs of pages it has handed out and not taken back.  No
    law of the heap's callers needs one, so the default keeps none; [KernelHeap] keeps a real one
    to show that the heap loses no pages. *)
Class PageLedger (S : Type) `{KernelPages S} := {
  accounts : S -> list (Z * Z) -> Prop;
  accounts_perm s L L' : L ≡ₚ L' -> accounts s L -> accounts s L';
  accounts_allocate s n a s' L :
    memory_allocate s n = Some (a, s') -> accounts s L -> accounts s' (if a =? 0 then L else (a, n) :: L);
  accounts_free s a n L : accounts s ((a, n) :: L) -> accounts (memory_free s a n) L
}.
#[export] Instance no_ledger {S} `{KernelPages S} : PageLedger S | 100.
Proof. by refine {| accounts := fun _ _ => True |}. Defined.

(** ** Segments *)

(** A segment of a region: on a free list, allocated with a request of [z] bytes, or in hand
    during an operation. *)
Inductive use := Free | Used (z : Z) | Limbo.
#[export] Instance use_eq_dec : EqDecision use.
Proof. solve_decision. Defined.
Record seg := Seg { sa : Z; slen : Z; suse : use }.

(** The tag of a segment between its neighbours. *)
Definition seg_ok (t : boundary_tag) (left : Z) (s : seg) (right : Z) : Prop :=
  magic t = LIBALLOC_MAGIC /\ real_size t = slen s /\ split_left t = left /\ split_right t = right /\
  match suse s with
  | Free => index t = bucket (slen s)
  | Used z => size t = z /\ index t = -1
  | Limbo => index t = -1
  end.

Definition head_or (right : Z) (l : list seg) : Z := match l with [] => right | s :: _ => sa s end.
Definition last_addr (left : Z) (l : list seg) : Z := match last l with None => left | Some s => sa s end.

Fixpoint chain (ct : Z -> option boundary_tag) (left : Z) (l : list seg) (right : Z) : Prop :=
  match l with
  | [] => True
  | s :: l => (exists t, ct (sa s) = Some t /\ seg_ok t left s (head_or right l)) /\ chain ct (sa s) l right
  end.

Definition seg_fits (s : seg) : Prop :=
  match suse s with Used z => 0 <= z /\ z + 32 <= slen s | _ => 32 <= slen s end.

Fixpoint tile (a : Z) (l : list seg) : Prop :=
  match l with [] => True | s :: l => sa s = a /\ seg_fits s /\ tile (a + slen s) l end.

Fixpoint total (l : list seg) : Z := match l with [] => 0 | s :: l => slen s + total l end.

Definition bytes_of (l : list seg) : list Z := l ≫= (fun s => seqZ (sa s) (slen s)).
Definition free_in (l : list seg) (a i : Z) : Prop :=
  exists s, s ∈ l /\ sa s = a /\ suse s = Free /\ bucket (slen s) = i.

Record region_ok (r : list seg) : Prop := {
  ro_nonempty : r <> [];
  ro_base : 0 < head_or 0 r /\ head_or 0 r mod 4096 = 0;
  ro_total : 65536 <= total r /\ total r mod 4096 = 0 /\ head_or 0 r + total r <= 1073741824;
  ro_tile : tile (head_or 0 r) r
}.

Lemma last_addr_cons left s l : last_addr left (s :: l) = last_addr (sa s) l.
Proof. unfold last_addr. rewrite last_cons. by destruct (last l). Qed.
Lemma head_or_app right l1 l2 : head_or right (l1 ++ l2) = head_or (head_or right l2) l1.
Proof. by destruct l1. Qed.

Lemma chain_app ct left l1 l2 right :
  chain ct left (l1 ++ l2) right <->
  chain ct left l1 (head_or right l2) /\ chain ct (last_addr left l1) l2 right.
Proof.
  revert left; induction l1 as [|s l1 IH]; intros left; cbn [app chain]; [unfold last_addr; simpl; tauto|].
  rewrite IH, head_or_app, last_addr_cons. tauto.
Qed.
Lemma chain_frame ct ct' left l right :
  (forall s, s ∈ l -> ct' (sa s) = ct (sa s)) -> chain ct left l right -> chain ct' left l right.
Proof.
  revert left; induction l as [|s l IH]; intros left Hf; simpl; [done|]. intros [H1 H2]. split.
  - rewrite Hf by left. done.
  - apply IH; [|done]. intros s' Hs. apply Hf. by right.
Qed.
(** Redirecting the first segment's left pointer. *)
Lemma chain_set_left ct ct' left left' l right :
  (forall s, s ∈ tail l -> ct' (sa s) = ct (sa s)) ->
  (forall s, head l = Some s -> ct' (sa s) = set_split_left left' <$> ct (sa s)) ->
  chain ct left l right -> chain ct' left' l right.
Proof.
  destruct l as [|s l]; intros Ht Hh; simpl; [done|]. intros [(t & E & Hs) H2]. split.
  - exists (set_split_left left' t). rewrite Hh, E by done. split; [done|].
    destruct Hs as (? & ? & ? & ? & ?). unfold seg_ok. by destruct (suse s).
  - eapply chain_frame; [|done]. done.
Qed.
Lemma chain_elem ct left l right s : chain ct left l right -> s ∈ l -> is_Some (ct (sa s)).
Proof.
  revert left; induction l as [|s' l IH]; intros left Hc Hs; [by apply not_elem_of_nil in Hs|].
  destruct Hc as [(t & E & _) Hc]. apply elem_of_cons in Hs as [->|Hs]; eauto.
Qed.

Lemma tile_app a l1 l2 : tile a (l1 ++ l2) <-> tile a l1 /\ tile (a + total l1) l2.
Proof.
  revert a; induction l1 as [|s l1 IH]; intros a; simpl; [rewrite Z.add_0_r; tauto|].
  rewrite IH, Z.add_assoc. tauto.
Qed.
Lemma total_app l1 l2 : total (l1 ++ l2) = total l1 + total l2.
Proof. induction l1 as [|s l1 IH]; simpl; [done|]. rewrite IH. lia. Qed.
Lemma fits_min s : seg_fits s -> 32 <= slen s.
Proof. unfold seg_fits. destruct (suse s); lia. Qed.
Lemma tile_elem a l s : tile a l -> s ∈ l -> seg_fits s /\ a <= sa s /\ sa s + slen s <= a + total l.
Proof.
  revert a; induction l as [|s' l IH]; intros a Ht Hs; [by apply not_elem_of_nil in Hs|].
  destruct Ht as (E & Hf & Ht). assert (0 <= total l) as Hl.
  { clear -Ht. revert Ht. generalize (a + slen s'). induction l as [|u l IH]; intros b; simpl; [lia|].
    intros (_ & ?%fits_min & Ht). apply IH in Ht. lia. }
  pose proof (fits_min _ Hf). simpl. apply elem_of_cons in Hs as [->|Hs]; [split; [done|lia]|].
  destruct (IH _ Ht Hs) as (? & ? & ?). split; [done|lia].
Qed.

Lemma bytes_of_app l1 l2 : bytes_of (l1 ++ l2) = bytes_of l1 ++ bytes_of l2.
Proof. unfold bytes_of. by rewrite bind_app. Qed.
Lemma elem_of_bytes x l : x ∈ bytes_of l <-> exists s, s ∈ l /\ sa s <= x < sa s + slen s.
Proof.
  unfold bytes_of. rewrite list_elem_of_bind. split; intros (s & H1 & H2); exists s; rewrite elem_of_seqZ in *; tauto.
Qed.

(** Distinct positions hold disjoint bytes, so distinct addresses. *)
Lemma bytes_disjoint l1 s l2 s' x :
  NoDup (bytes_of (l1 ++ s :: l2)) -> s' ∈ l1 ++ l2 ->
  sa s <= x < sa s + slen s -> sa s' <= x < sa s' + slen s' -> False.
Proof.
  intros Hn Hs Hx Hx'. rewrite bytes_of_app in Hn. simpl in Hn.
  apply NoDup_app in Hn as (_ & H1 & [_ [H2 _]]%NoDup_app).
  assert (x ∈ seqZ (sa s) (slen s)) as Hin by (apply elem_of_seqZ; lia).
  apply elem_of_app in Hs as [Hs|Hs].
  - apply (H1 x); [apply elem_of_bytes; eauto|]. apply elem_of_app. by left.
  - apply (H2 x); [done|]. apply elem_of_bytes; eauto.
Qed.

(** ** The invariant *)

Section Inv.
Context {S : Type} `{KernelPages S} `{!PageLaws S}.
Implicit Types h : Heap S.

Record inv0 h (R : list (list seg)) (fl : Z -> list Z) : Prop := {
  i_chain : forall r, r ∈ R -> chain (core_at h) 0 r 0;
  i_region : forall r, r ∈ R -> region_ok r;
  i_bytes : NoDup (bytes_of (mjoin R));
  i_lists : freelists h fl;
  i_free : forall a i, a ∈ fl i <-> free_in (mjoin R) a i;
  i_links : forall s, s ∈ mjoin R -> suse s <> Free -> links_at h (sa s) = Some (0, 0);
  i_owns : forall r, r ∈ R -> owns (pages h) (head_or 0 r) (total r);
  i_pages : pages_inv (pages h)
}.

Lemma inv0_seg h R fl s : inv0 h R fl -> s ∈ mjoin R -> seg_fits s /\ 0 < sa s /\ sa s + slen s <= 1073741824.
Proof.
  intros Hi (r & Hs & Hr)%list_elem_of_join. destruct (i_region _ _ _ Hi r Hr) as [_ [? _] (? & ? & ?) Ht].
  destruct (tile_elem _ _ _ Ht Hs) as (? & ? & ?). split; [done|lia].
Qed.

Lemma inv0_perm h R R' fl : R ≡ₚ R' -> inv0 h R fl -> inv0 h R' fl.
Proof.
  intros HR [H1 H2 H3 H4 H5 H6 H7 H8].
  assert (mjoin R ≡ₚ mjoin R') as HJ by (by rewrite HR).
  split; try done.
  - intros r Hr. apply H1. by rewrite HR.
  - intros r Hr. apply H2. by rewrite HR.
  - unfold bytes_of in *. by rewrite <- HJ.
  - intros a i. rewrite H5. unfold free_in. by setoid_rewrite HJ.
  - intros s Hs. apply H6. by rewrite HJ.
  - intros r Hr. apply H7. by rewrite HR.
Qed.

(** Addresses of other segments differ from that of a chosen one. *)
Lemma inv0_others h R fl l1 s l2 s' :
  inv0 h ((l1 ++ s :: l2) :: R) fl -> s' ∈ l1 ++ l2 ++ mjoin R -> sa s' <> sa s.
Proof.
  intros Hi Hs E. pose proof (i_bytes _ _ _ Hi) as Hn. simpl in Hn. rewrite <- app_assoc in Hn. simpl in Hn.
  assert (s' ∈ mjoin ((l1 ++ s :: l2) :: R)) as Hin.
  { simpl. rewrite <- app_assoc. rewrite elem_of_app in Hs |- *. destruct Hs; [by left|right]. by right. }
  assert (s ∈ mjoin ((l1 ++ s :: l2) :: R)) as Hin'.
  { simpl. rewrite <- app_assoc. apply elem_of_app. right. left. }
  destruct (inv0_seg _ _ _ _ Hi Hin) as (?%fits_min & _). destruct (inv0_seg _ _ _ _ Hi Hin') as (?%fits_min & _).
  apply (bytes_disjoint l1 s (l2 ++ mjoin R) s' (sa s) Hn Hs); lia.
Qed.

Lemma free_in_app l1 l2 a i : free_in (l1 ++ l2) a i <-> free_in l1 a i \/ free_in l2 a i.
Proof.
  unfold free_in. split.
  - intros (s & [Hs|Hs]%elem_of_app & ?); [left|right]; eauto.
  - intros [(s & Hs & ?)|(s & Hs & ?)]; exists s; rewrite elem_of_app; auto.
Qed.
Lemma free_in_cons s l a i : free_in (s :: l) a i <-> (sa s = a /\ suse s = Free /\ bucket (slen s) = i) \/ free_in l a i.
Proof.
  unfold free_in. split.
  - intros (s' & [->|Hs]%elem_of_cons & ?); eauto.
  - intros [?|(s' & Hs & ?)]; [exists s|exists s']; rewrite elem_of_cons; auto.
Qed.
Lemma free_in_nil a i : free_in [] a i <-> False.
Proof. split; [|done]. intros (s & Hs & _). by apply not_elem_of_nil in Hs. Qed.

(** The segments around a place in the heap. *)
Definition others (l1 l2 : list seg) (R : list (list seg)) : list seg := l1 ++ l2 ++ mjoin R.

Lemma free_in_split l1 mid l2 R a i :
  free_in (mjoin ((l1 ++ mid ++ l2) :: R)) a i <-> free_in mid a i \/ free_in (others l1 l2 R) a i.
Proof. unfold others. simpl. rewrite !free_in_app. tauto. Qed.
Lemma elem_of_split s l1 mid l2 R :
  s ∈ mjoin ((l1 ++ mid ++ l2) :: R) <-> s ∈ mid \/ s ∈ others l1 l2 R.
Proof. unfold others. simpl. rewrite !elem_of_app. tauto. Qed.

Lemma others_right s l1 l2 R s' : s' ∈ others l1 l2 R -> s' ∈ others l1 (s :: l2) R.
Proof. unfold others. rewrite !elem_of_app, elem_of_cons. tauto. Qed.
Lemma others_left s l1 l2 R s' : s' ∈ others l1 l2 R -> s' ∈ others (l1 ++ [s]) l2 R.
Proof. unfold others. rewrite !elem_of_app. tauto. Qed.

(** Replacing the segments [old] by [new], which cover the same bytes. *)
Lemma inv0_change h h' R l1 old new l2 fl fl' :
  inv0 h ((l1 ++ old ++ l2) :: R) fl ->
  new <> [] -> head_or 0 new = head_or 0 old -> old <> [] -> bytes_of new = bytes_of old -> total new = total old ->
  (forall a, tile a old -> tile a new) ->
  chain (core_at h') (last_addr 0 l1) (new ++ l2) 0 ->
  (forall s, s ∈ l1 ++ mjoin R -> core_at h' (sa s) = core_at h (sa s)) ->
  freelists h' fl' ->
  (forall a i, a ∈ fl' i <-> free_in new a i \/ free_in (others l1 l2 R) a i) ->
  (forall s, s ∈ new -> suse s <> Free -> links_at h' (sa s) = Some (0, 0)) ->
  (forall s, s ∈ others l1 l2 R -> suse s <> Free -> links_at h' (sa s) = links_at h (sa s)) ->
  pages h' = pages h ->
  inv0 h' ((l1 ++ new ++ l2) :: R) fl'.
Proof.
  intros Hi Hne Hh Hoe Hb Ht Htile Hch Hcore Hfl Hfree Hln Hlo Hp.
  assert (head_or 0 (l1 ++ new ++ l2) = head_or 0 (l1 ++ old ++ l2)) as Eh.
  { rewrite !head_or_app. destruct new, old; try done. simpl in *. by rewrite Hh. }
  assert (total (l1 ++ new ++ l2) = total (l1 ++ old ++ l2)) as Et by (rewrite !total_app, Ht; done).
  split; try done.
  - intros r [->|Hr]%elem_of_cons.
    + apply chain_app. split; [|done].
      pose proof (i_chain _ _ _ Hi _ ltac:(left)) as [Hc _]%chain_app.
      eapply chain_frame; [intros s Hs; apply Hcore, elem_of_app; by left|].
      destruct new, old; try done. simpl in *. by rewrite Hh.
    + eapply chain_frame; [|by apply (i_chain _ _ _ Hi r); right].
      intros s Hs. apply Hcore, elem_of_app. right. apply list_elem_of_join. eauto.
  - intros r [->|Hr]%elem_of_cons; [|by apply (i_region _ _ _ Hi r); right].
    destruct (i_region _ _ _ Hi (l1 ++ old ++ l2) ltac:(left)) as [_ Q1 Q2 Q3]. split.
    + destruct l1, new; done.
    + by rewrite Eh.
    + by rewrite Eh, Et.
    + rewrite Eh. apply tile_app in Q3 as [Q3 [Q4 Q5]%tile_app]. apply tile_app. split; [done|].
      apply tile_app. split; [by apply Htile|]. by rewrite Ht.
  - pose proof (i_bytes _ _ _ Hi) as Hn. simpl in *. rewrite !bytes_of_app in *. by rewrite Hb.
  - intros a i. rewrite Hfree. symmetry. apply free_in_split.
  - intros s Hs Hu. apply elem_of_split in Hs as [Hs|Hs]; [by apply Hln|]. rewrite Hlo by done.
    apply (i_links _ _ _ Hi); [|done]. apply elem_of_split. by right.
  - intros r [->|Hr]%elem_of_cons.
    + rewrite Eh, Et, Hp. apply (i_owns _ _ _ Hi). left.
    + rewrite Hp. apply (i_owns _ _ _ Hi). by right.
  - rewrite Hp. apply Hi.
Qed.

Lemma inv0_chain_at h R fl l1 s l2 :
  inv0 h ((l1 ++ s :: l2) :: R) fl ->
  exists c, core_at h (sa s) = Some c /\ seg_ok c (last_addr 0 l1) s (head_or 0 l2) /\ chain (core_at h) (sa s) l2 0 /\
    chain (core_at h) 0 l1 (sa s).
Proof.
  intros Hi. pose proof (i_chain _ _ _ Hi _ ltac:(left)) as [H1 [(c & Ec & Hok) H3]]%chain_app. eauto.
Qed.

Lemma others_cons h R fl l1 s l2 s' :
  inv0 h ((l1 ++ s :: l2) :: R) fl -> s' ∈ others l1 l2 R -> sa s' <> sa s /\ sa s' <> 0.
Proof.
  intros Hi Hs. split; [by eapply inv0_others|].
  assert (s' ∈ mjoin ((l1 ++ [s] ++ l2) :: R)) as Hin by (apply elem_of_split; by right).
  destruct (inv0_seg _ _ _ _ Hi Hin) as (_ & ? & _). lia.
Qed.

(** A segment that is not free is on no list. *)
Lemma notfree_notin h R fl l1 s l2 i :
  inv0 h ((l1 ++ s :: l2) :: R) fl -> suse s <> Free -> sa s ∉ fl i.
Proof.
  intros Hi Hu (s' & Hs & E & Hf & _)%(i_free _ _ _ Hi). change (s :: l2) with ([s] ++ l2) in Hs.
  apply elem_of_split in Hs as [->%list_elem_of_singleton|Hs]; [done|]. by destruct (others_cons _ _ _ _ _ _ _ Hi Hs).
Qed.
Lemma notfree_notin' h R fl s i :
  inv0 h R fl -> s ∈ mjoin R -> suse s <> Free -> sa s ∉ fl i.
Proof.
  intros Hi (r & Hs & Hr)%list_elem_of_join Hu. apply elem_of_Permutation in Hr as [R' HR].
  apply (inv0_perm _ _ _ _ HR) in Hi. apply list_elem_of_split in Hs as (l1 & l2 & ->). by eapply notfree_notin.
Qed.

Lemma others_notin h R fl l1 mid l2 s i :
  inv0 h ((l1 ++ mid ++ l2) :: R) fl -> s ∈ others l1 l2 R -> suse s <> Free -> sa s ∉ fl i.
Proof. intros Hi Hs Hu. eapply notfree_notin'; [done| |done]. apply elem_of_split. by right. Qed.

(** *** Taking a free segment *)
Lemma take_free h R fl l1 s l2 :
  inv0 h ((l1 ++ s :: l2) :: R) fl -> suse s = Free ->
  exists h' fl', remove_tag (sa s) h = Some h' /\
    inv0 h' ((l1 ++ Seg (sa s) (slen s) Limbo :: l2) :: R) fl' /\ rest h' = rest h /\
    (forall b, core_at h' b = if decide (sa s = b) then set_index (-1) <$> core_at h b else core_at h b).
Proof.
  intros Hi Hu. destruct (inv0_chain_at _ _ _ _ _ _ Hi) as (c & Hc & Hok & Hch2 & _).
  pose proof Hok as (Hm & Hrs & Hsl & Hsr & Hix). rewrite Hu in Hix.
  assert (sa s ∈ fl (bucket (slen s))) as Hin.
  { apply (i_free _ _ _ Hi). exists s. split_and!; try done. simpl. rewrite <- app_assoc. apply elem_of_app. right. left. }
  apply list_elem_of_split in Hin as (x1 & x2 & Hx).
  destruct (remove_tag_spec h fl _ x1 (sa s) x2 c (i_lists _ _ _ Hi) Hx Hc Hix) as (h' & E & C & Hfl & La & L & Rr).
  exists h', (upd_list fl (bucket (slen s)) (x1 ++ x2)). split; [done|].
  split; [|split; [done|intros b; rewrite C; case_decide; [subst; by rewrite Hc|done]]].
  pose proof (fun b j => removed_mem _ _ _ _ _ _ b j (i_lists _ _ _ Hi) Hx) as Hmem.
  apply (inv0_change h h' R l1 [s] [Seg (sa s) (slen s) Limbo] l2 fl); try done.
  - intros a (? & Hf & ?). split_and!; try done. by apply fits_min in Hf.
  - split.
    + exists (set_index (-1) c). simpl. rewrite C, decide_True by done. split; [done|]. done.
    + eapply chain_frame; [|done]. intros s' Hs. simpl. rewrite C. rewrite decide_False; [done|].
      intros E'. destruct (others_cons _ _ _ _ _ _ s' Hi) as [? _]; [|congruence]. unfold others. rewrite !elem_of_app. tauto.
  - intros s' Hs. rewrite C. rewrite decide_False; [done|].
    intros E'. destruct (others_cons _ _ _ _ _ _ s' Hi) as [? _]; [|congruence]. unfold others. rewrite !elem_of_app in *. tauto.
  - intros a i. rewrite Hmem, (i_free _ _ _ Hi). change (s :: l2) with ([s] ++ l2). rewrite free_in_split.
    rewrite !free_in_cons, !free_in_nil. simpl. split.
    + intros [[[(<- & _)|[]]|?] ?]; [done|auto].
    + intros [[(_ & ? & _)|[]]|Hf]; [done|]. split; [by right|]. destruct Hf as (s' & Hs & <- & _).
      by destruct (others_cons _ _ _ _ _ _ _ Hi Hs).
  - intros s' ->%list_elem_of_singleton _. done.
  - intros s' Hs Hn. destruct (others_cons _ _ _ _ _ _ _ Hi Hs) as [_ H0]. apply L; [done|].
    by apply (others_notin h R fl l1 [s] l2).
  - unfold rest in Rr. congruence.
Qed.

(** *** Changing one tag *)
Lemma others_core h h' R fl l1 s l2 (x : option boundary_tag) :
  inv0 h ((l1 ++ s :: l2) :: R) fl ->
  (forall b, core_at h' b = if decide (sa s = b) then x else core_at h b) ->
  forall s', s' ∈ others l1 l2 R -> core_at h' (sa s') = core_at h (sa s').
Proof.
  intros Hi C s' Hs. rewrite C, decide_False; [done|]. intros E.
  by destruct (others_cons _ _ _ _ _ _ s' Hi Hs).
Qed.

Lemma change_one h h' R l1 s l2 fl fl' (u : use) (c : boundary_tag) :
  inv0 h ((l1 ++ s :: l2) :: R) fl ->
  seg_fits (Seg (sa s) (slen s) u) ->
  (forall b, core_at h' b = if decide (sa s = b) then Some c else core_at h b) ->
  seg_ok c (last_addr 0 l1) (Seg (sa s) (slen s) u) (head_or 0 l2) ->
  freelists h' fl' ->
  (forall a i, a ∈ fl' i <-> (u = Free /\ a = sa s /\ i = bucket (slen s)) \/ free_in (others l1 l2 R) a i) ->
  (u <> Free -> links_at h' (sa s) = Some (0, 0)) ->
  (forall s', s' ∈ others l1 l2 R -> suse s' <> Free -> links_at h' (sa s') = links_at h (sa s')) ->
  pages h' = pages h ->
  inv0 h' ((l1 ++ Seg (sa s) (slen s) u :: l2) :: R) fl'.
Proof.
  intros Hi Hf C Hok Hfl Hmem Hlu Hlo Hp.
  pose proof (others_core _ _ _ _ _ _ _ _ Hi C) as Ho. unfold others in Ho.
  destruct (inv0_chain_at _ _ _ _ _ _ Hi) as (_ & _ & _ & Hch2 & _).
  apply (inv0_change h h' R l1 [s] [Seg (sa s) (slen s) u] l2 fl); try done.
  - intros a (? & _ & ?). split_and!; done.
  - split.
    + exists c. simpl. rewrite C, decide_True by done. done.
    + eapply chain_frame; [|done]. intros s' Hs. apply Ho. rewrite !elem_of_app. tauto.
  - intros s' Hs. apply Ho. rewrite !elem_of_app in *. tauto.
  - intros a i. rewrite Hmem, free_in_cons, free_in_nil. simpl. split.
    + intros [(-> & -> & ->)|?]; [left; left; done|by right].
    + intros [[(<- & -> & <-)|[]]|?]; [by left|by right].
  - intros s' ->%list_elem_of_singleton Hu. auto.
Qed.

(** *** Putting a segment on its list *)
Lemma put_free h R fl l1 s l2 :
  inv0 h ((l1 ++ s :: l2) :: R) fl -> suse s = Limbo ->
  exists h' fl', insert_tag (sa s) (bucket (slen s)) h = Some h' /\
    inv0 h' ((l1 ++ Seg (sa s) (slen s) Free :: l2) :: R) fl' /\ rest h' = rest h.
Proof.
  intros Hi Hu. destruct (inv0_chain_at _ _ _ _ _ _ Hi) as (c & Hc & Hok & _).
  destruct Hok as (Hm & Hrs & Hsl & Hsr & Hix).
  assert (s ∈ mjoin ((l1 ++ s :: l2) :: R)) as Hin by (change (s :: l2) with ([s] ++ l2); apply elem_of_split; left; left).
  destruct (inv0_seg _ _ _ _ Hi Hin) as (Hf & Hs0 & Hsb). pose proof (fits_min _ Hf).
  assert (suse s <> Free) as Hnf by congruence.
  destruct (insert_tag_spec h fl (bucket (slen s)) (sa s) c) as (h' & E & C & Hfl & L & Rr);
    [apply Hi|pose proof (bucket_range (slen s)); lia|lia|intros j; by eapply notfree_notin|done|by apply (i_links _ _ _ Hi)|].
  eexists h', _. split; [done|]. split; [|done].
  eapply (change_one h h' _ _ s _ _ _ Free); try done.
  - intros a i. unfold upd_list. pose proof (i_free _ _ _ Hi a i) as Hfr.
    change (s :: l2) with ([s] ++ l2) in Hfr. rewrite free_in_split, free_in_cons, free_in_nil in Hfr.
    destruct (Z.eqb_spec i (bucket (slen s))) as [->|Hne]; [rewrite elem_of_cons|]; rewrite Hfr; split.
    + intros [->|[[(_ & ? & _)|[]]|?]]; [by left|congruence|by right].
    + intros [(_ & -> & _)|?]; [by left|right; by right].
    + intros [[(_ & ? & _)|[]]|?]; [congruence|by right].
    + intros [(_ & _ & ->)|?]; [done|by right].
  - intros s' Hs Hn. destruct (others_cons _ _ _ _ _ _ _ Hi Hs) as [? ?]. apply L; [done|done|].
    by apply (others_notin h R fl l1 [s] l2).
  - unfold rest in Rr. congruence.
Qed.

(** *** Recording a request *)
Lemma record_size h R fl l1 s l2 z :
  inv0 h ((l1 ++ s :: l2) :: R) fl -> suse s = Limbo -> 0 <= z -> z + 32 <= slen s ->
  exists h', upd (sa s) (set_size z) h = Some h' /\
    inv0 h' ((l1 ++ Seg (sa s) (slen s) (Used z) :: l2) :: R) fl /\ rest h' = rest h.
Proof.
  intros Hi Hu Hz Hs. destruct (inv0_chain_at _ _ _ _ _ _ Hi) as (c & Hc & Hok & _).
  destruct Hok as (Hm & Hrs & Hsl & Hsr & Hix). rewrite Hu in Hix.
  destruct (upd_core h (sa s) (set_size z) c) as (h' & E & C & L & F & Rr); [done..|].
  exists h'. split; [done|]. split; [|done].
  eapply (change_one h h' _ _ s _ _ _ (Used z)); try done.
  - destruct (i_lists _ _ _ Hi) as [G1 G2 G3 G4 G5 G6]. split; try done; rewrite ?F; try done.
    intros j Hj. eapply dll_frame; [|by apply G3]. intros; apply L.
  - intros a i. rewrite (i_free _ _ _ Hi). change (s :: l2) with ([s] ++ l2).
    rewrite free_in_split, free_in_cons, free_in_nil. split.
    + intros [[(_ & E' & _)|[]]|?]; [congruence|by right].
    + intros [(? & _)|?]; [done|by right].
  - intros _. rewrite L. apply (i_links _ _ _ Hi); [|congruence].
    change (s :: l2) with ([s] ++ l2). apply elem_of_split. left. left.
  - unfold rest in Rr. congruence.
Qed.

(** *** Merging two neighbours *)

(** The three stores of melt_left and absorb_right. *)
Lemma merge_fields h u v r cu {A} (k : Heap S -> option A) :
  core_at h u = Some cu -> r <> u -> (r <> 0 -> is_Some (core_at h r)) ->
  exists h', (h ← upd u (set_real_size v) h; h ← upd u (set_split_right r) h; h ← upd_if r (set_split_left u) h; k h) = k h' /\
    (forall b, b <> 0 -> core_at h' b =
       if decide (u = b) then Some (set_split_right r (set_real_size v cu))
       else if decide (r = b) then set_split_left u <$> core_at h b else core_at h b) /\
    (forall b, links_at h' b = links_at h b) /\ l_freePages h' = l_freePages h /\ rest h' = rest h.
Proof.
  intros Hu Hr Hrc.
  destruct (upd_core h u (set_real_size v) cu) as (h1 & -> & C1 & L1 & F1 & R1); [done..|]. simpl.
  destruct (upd_core h1 u (set_split_right r) (set_real_size v cu)) as (h2 & -> & C2 & L2 & F2 & R2);
    [done..|by rewrite C1, decide_True|]. simpl.
  destruct (upd_if_core h2 r (set_split_left u)) as (h3 & -> & C3 & L3 & F3 & R3); [done..| |].
  { intros H0. rewrite C2, C1, !decide_False by done. auto. }
  exists h3. split; [done|]. split_and!.
  - intros b Hb. rewrite C3, C2, C1 by done. repeat case_decide; subst; done.
  - intros b. by rewrite L3, L2, L1.
  - congruence.
  - congruence.
Qed.

Lemma freelists_frame h h' fl :
  (forall b, links_at h' b = links_at h b) -> l_freePages h' = l_freePages h -> freelists h fl -> freelists h' fl.
Proof.
  intros L F [G1 G2 G3 G4 G5 G6]. split; try done; rewrite ?F; try done.
  intros j Hj. eapply dll_frame; [|by apply G3]. intros; apply L.
Qed.

Lemma head_or_elem l : head_or 0 l <> 0 -> exists s, head l = Some s /\ sa s = head_or 0 l.
Proof. destruct l as [|s l]; simpl; [done|]. eauto. Qed.

Lemma chain_merge h h' R fl l1 u l2 left left' :
  inv0 h ((l1 ++ u :: l2) :: R) fl -> chain (core_at h) left l2 0 ->
  (forall s, s ∈ l2 -> core_at h' (sa s) =
     if decide (head_or 0 l2 = sa s) then set_split_left left' <$> core_at h (sa s) else core_at h (sa s)) ->
  chain (core_at h') left' l2 0.
Proof.
  intros Hi Hc C. eapply chain_set_left; [| |exact Hc].
  - intros s Hs. destruct l2 as [|x l2]; [by apply not_elem_of_nil in Hs|]. simpl in *.
    rewrite C by (by right). rewrite decide_False; [done|]. intros E.
    assert (inv0 h (((l1 ++ [u]) ++ x :: l2) :: R) fl) as Hi' by (by rewrite <- app_assoc).
    destruct (others_cons _ _ _ _ _ _ s Hi') as [? _]; [|congruence].
    unfold others. rewrite !elem_of_app. tauto.
  - intros s Hs. destruct l2 as [|x l2]; simplify_eq/=. rewrite C by left. by rewrite decide_True.
Qed.

(** Two adjacent segments become one in hand. *)
Lemma inv0_merge h h' R fl fl' l1 u s l2 c :
  inv0 h ((l1 ++ u :: s :: l2) :: R) fl ->
  (forall b, b <> 0 -> b <> sa s -> core_at h' b =
     if decide (sa u = b) then Some c
     else if decide (head_or 0 l2 = b) then set_split_left (sa u) <$> core_at h b else core_at h b) ->
  seg_ok c (last_addr 0 l1) (Seg (sa u) (slen u + slen s) Limbo) (head_or 0 l2) ->
  freelists h' fl' -> (forall a i, a ∈ fl' i <-> free_in (others l1 l2 R) a i) ->
  links_at h' (sa u) = Some (0, 0) ->
  (forall s', s' ∈ others l1 l2 R -> suse s' <> Free -> links_at h' (sa s') = links_at h (sa s')) ->
  pages h' = pages h ->
  inv0 h' ((l1 ++ Seg (sa u) (slen u + slen s) Limbo :: l2) :: R) fl'.
Proof.
  intros Hi C Hok Hfl Hmem Hlu Hlo Hp.
  assert (inv0 h (((l1 ++ [u]) ++ s :: l2) :: R) fl) as Hi' by (by rewrite <- app_assoc).
  destruct (inv0_chain_at _ _ _ _ _ _ Hi') as (_ & _ & _ & Hch2 & _).
  destruct (inv0_chain_at _ _ _ _ _ _ Hi) as (_ & _ & _ & _ & Hch1).
  assert (forall s', s' ∈ others l1 l2 R -> sa s' <> 0 /\ sa s' <> sa s /\ sa s' <> sa u) as Hne.
  { intros s' Hs. destruct (others_cons _ _ _ _ _ _ s' Hi (others_right _ _ _ _ _ Hs)).
    by destruct (others_cons _ _ _ _ _ _ s' Hi' (others_left _ _ _ _ _ Hs)). }
  assert (head_or 0 l2 <> 0 -> exists x, x ∈ l2 /\ sa x = head_or 0 l2) as Hhd.
  { intros (x & Hx & E)%head_or_elem. exists x. split; [|done]. destruct l2; simplify_eq/=. left. }
  apply (inv0_change h h' R l1 [u; s] [Seg (sa u) (slen u + slen s) Limbo] l2 fl); try done.
  - unfold bytes_of. simpl. rewrite !app_nil_r.
    pose proof (i_region _ _ _ Hi _ ltac:(left)) as [_ _ _ Ht]. apply tile_app in Ht as [_ (E1 & F1 & E2 & F2 & _)].
    apply fits_min in F1, F2. rewrite E2, <- E1. apply seqZ_app; lia.
  - simpl. lia.
  - intros a (E1 & F1 & E2 & F2 & _). apply fits_min in F1, F2. split_and!; try done. unfold seg_fits. simpl. lia.
  - assert (sa u <> 0 /\ sa u <> sa s) as [Hu0 Hus].
    { apply (others_cons _ _ _ _ _ _ u) in Hi' as [? ?]; [done|]. unfold others. rewrite !elem_of_app. left. right. left. }
    split.
    + exists c. simpl. rewrite C, decide_True by done. done.
    + eapply (chain_merge h h' R fl (l1 ++ [u]) s l2); try done. intros s' Hs.
      destruct (Hne s') as (? & ? & ?); [unfold others; rewrite !elem_of_app; tauto|].
      rewrite C by done. by rewrite decide_False by congruence.
  - intros s' Hs. destruct (Hne s') as (? & ? & ?); [unfold others; rewrite !elem_of_app in *; tauto|].
    rewrite C by done. rewrite !decide_False; [done|intros E|congruence].
    destruct Hhd as (x & Hx & Ex); [congruence|]. apply list_elem_of_split in Hx as (m1 & m2 & ->).
    assert (inv0 h ((((l1 ++ [u; s]) ++ m1) ++ x :: m2) :: R) fl) as Hi2 by (by rewrite <- !app_assoc).
    destruct (others_cons _ _ _ _ _ _ s' Hi2) as [? _]; [|congruence]. unfold others. rewrite !elem_of_app in *. tauto.
  - intros a i. rewrite Hmem, free_in_cons, free_in_nil. simpl. naive_solver.
  - intros s' ->%list_elem_of_singleton _. done.
Qed.

Lemma core_some_others h R fl l1 u s l2 :
  inv0 h ((l1 ++ u :: s :: l2) :: R) fl -> head_or 0 l2 <> 0 ->
  is_Some (core_at h (head_or 0 l2)) /\ head_or 0 l2 <> sa u /\ head_or 0 l2 <> sa s.
Proof.
  intros Hi (x & Hx & <-)%head_or_elem. destruct l2 as [|y l2]; simplify_eq/=.
  assert (inv0 h (((l1 ++ [u; s]) ++ x :: l2) :: R) fl) as Hi2 by (by rewrite <- app_assoc).
  destruct (inv0_chain_at _ _ _ _ _ _ Hi2) as (c & -> & _). split; [eauto|].
  assert (forall y, y ∈ [u; s] -> sa x <> sa y) as Hy; [|split; apply Hy; set_solver].
  intros y Hy. destruct (others_cons _ _ _ _ _ _ y Hi2) as [? _]; [|congruence].
  unfold others. rewrite !elem_of_app. tauto.
Qed.

(** melt_left and the remove_tag after it: the free left neighbour takes the segment in. *)
Lemma melt_left_spec h R fl l1 u s l2 :
  inv0 h ((l1 ++ u :: s :: l2) :: R) fl -> suse u = Free -> suse s = Limbo ->
  exists h1 h2 fl', melt_left (sa s) h = Some (sa u, h1) /\ remove_tag (sa u) h1 = Some h2 /\
    inv0 h2 ((l1 ++ Seg (sa u) (slen u + slen s) Limbo :: l2) :: R) fl' /\ rest h2 = rest h.
Proof.
  intros Hi Hu Hs. assert (inv0 h (((l1 ++ [u]) ++ s :: l2) :: R) fl) as Hi' by (by rewrite <- app_assoc).
  destruct (inv0_chain_at _ _ _ _ _ _ Hi) as (cu & Hcu & (Um & Ur & Ul & Urr & Ui) & _). rewrite Hu in Ui.
  destruct (inv0_chain_at _ _ _ _ _ _ Hi') as (cs & Hcs & (Sm & Sr & Sl & Srr & Si) & _).
  unfold last_addr in Sl. rewrite last_snoc in Sl.
  pose proof (core_some_others _ _ _ _ _ _ _ Hi) as Hhd.
  assert (sa u <> sa s /\ sa u <> 0) as [Hus Hu0].
  { apply (others_cons _ _ _ _ _ _ u Hi'). unfold others. rewrite !elem_of_app. left. right. left. }
  assert (seg_fits u /\ 0 < sa u /\ sa u + slen u <= 1073741824) as (Hfu & Hu1 & Hbu).
  { apply (inv0_seg _ _ _ u Hi). simpl. rewrite <- app_assoc. apply elem_of_app. right. left. }
  assert (seg_fits s /\ 0 < sa s /\ sa s + slen s <= 1073741824) as (Hfs & Hs0 & Hbs).
  { apply (inv0_seg _ _ _ s Hi'). simpl. rewrite <- !app_assoc. apply elem_of_app. right. right. left. }
  destruct (view _ _ _ Hcs) as (ts & Ets & Ees & _). destruct (view _ _ _ Hcu) as (tu & Etu & Eeu & _).
  assert (split_left ts = sa u /\ split_right ts = head_or 0 l2 /\ real_size ts = slen s /\ real_size tu = slen u) as (T1 & T2 & T3 & T4)
    by (subst cs cu; done).
  apply fits_min in Hfu, Hfs. unfold melt_left. rewrite Ets. simpl. rewrite T1, Etu. simpl. rewrite T2, T3, T4.
  rewrite u32_small by (unfold is_u32; lia).
  destruct (merge_fields h (sa u) (slen u + slen s) (head_or 0 l2) cu (fun h => Some (sa u, h))) as (h1 & -> & C1 & L1 & F1 & R1);
    [done|destruct (decide (head_or 0 l2 = 0)) as [->|]; [done|by apply Hhd]|apply Hhd|].
  set (cm := set_split_right (head_or 0 l2) (set_real_size (slen u + slen s) cu)) in *.
  assert (sa u ∈ fl (bucket (slen u))) as Hin.
  { apply (i_free _ _ _ Hi). exists u. split_and!; try done. simpl. rewrite <- app_assoc. apply elem_of_app. right. left. }
  apply list_elem_of_split in Hin as (x1 & x2 & Hx).
  destruct (remove_tag_spec h1 fl (bucket (slen u)) x1 (sa u) x2 cm) as (h2 & E2 & C2 & Hfl2 & La & L2 & R2); try done.
  { by eapply freelists_frame, Hi. }
  { rewrite C1 by done. by rewrite decide_True. }
  exists h1, h2. eexists. split; [done|]. split; [done|]. split; [|congruence].
  eapply (inv0_merge h h2 R fl _ l1 u s l2 (set_index (-1) cm)); try done.
  - intros b Hb Hbs'. rewrite C2. case_decide; [done|]. rewrite C1 by done. by rewrite decide_False by done.
  - intros a i. rewrite (removed_mem _ _ _ _ _ _ a i (i_lists _ _ _ Hi) Hx), (i_free _ _ _ Hi).
    change (u :: s :: l2) with ([u; s] ++ l2). rewrite free_in_split, !free_in_cons, free_in_nil. split.
    + intros [[[(<- & _)|[(_ & ? & _)|[]]]|?] ?]; [done|congruence|done].
    + intros Hf. split; [by right|]. destruct Hf as (s' & Hs' & <- & _).
      by destruct (others_cons _ _ _ _ _ _ s' Hi (others_right _ _ _ _ _ Hs')).
  - intros s' Hs' Hn. destruct (others_cons _ _ _ _ _ _ s' Hi (others_right _ _ _ _ _ Hs')) as [? ?].
    rewrite L2, L1; [done..|]. by apply (others_notin h R fl l1 [u; s] l2).
  - unfold rest in *. congruence.
Qed.

(** absorb_right: a segment in hand takes in its free right neighbour. *)
Lemma absorb_right_spec h R fl l1 u s l2 :
  inv0 h ((l1 ++ u :: s :: l2) :: R) fl -> suse u = Limbo -> suse s = Free ->
  exists h' fl', absorb_right (sa u) h = Some (sa u, h') /\
    inv0 h' ((l1 ++ Seg (sa u) (slen u + slen s) Limbo :: l2) :: R) fl' /\ rest h' = rest h.
Proof.
  intros Hi Hu Hs. assert (inv0 h (((l1 ++ [u]) ++ s :: l2) :: R) fl) as Hi' by (by rewrite <- app_assoc).
  destruct (inv0_chain_at _ _ _ _ _ _ Hi) as (cu & Hcu & (_ & _ & _ & Urr & _) & _). simpl in Urr.
  destruct (view _ _ _ Hcu) as (tu & Etu & <- & _). simpl in Urr.
  destruct (take_free h R fl (l1 ++ [u]) s l2 Hi' Hs) as (h1 & fl1 & E1 & Hi1' & R1 & _).
  set (s1 := Seg (sa s) (slen s) Limbo) in *.
  assert (inv0 h1 ((l1 ++ u :: s1 :: l2) :: R) fl1) as Hi1 by (by rewrite <- app_assoc in Hi1').
  destruct (inv0_chain_at _ _ _ _ _ _ Hi1) as (cu1 & Hcu1 & (Um & Ur & Ul & _ & Ui) & _). rewrite Hu in Ui.
  destruct (inv0_chain_at _ _ _ _ _ _ Hi1') as (cs & Hcs & (Sm & Sr & Sl & Srr & Si) & _).
  pose proof (core_some_others _ _ _ _ _ _ _ Hi1) as Hhd.
  assert (seg_fits u /\ 0 < sa u /\ sa u + slen u <= 1073741824) as (Hfu & Hu1 & Hbu).
  { apply (inv0_seg _ _ _ u Hi). simpl. rewrite <- app_assoc. apply elem_of_app. right. left. }
  assert (seg_fits s /\ 0 < sa s /\ sa s + slen s <= 1073741824) as (Hfs & Hs0 & Hbs).
  { apply (inv0_seg _ _ _ s Hi'). simpl. rewrite <- !app_assoc. apply elem_of_app. right. right. left. }
  destruct (view _ _ _ Hcs) as (ts & Ets & <- & _). destruct (view _ _ _ Hcu1) as (tu1 & Etu1 & <- & Hlu1).
  simpl in Sr, Srr, Ur. apply fits_min in Hfu, Hfs. unfold absorb_right. rewrite Etu. simpl. rewrite Urr, E1. simpl.
  change (sa s1) with (sa s) in Ets. rewrite Ets. simpl. rewrite Etu1. simpl. rewrite Sr, Srr, Ur.
  rewrite u32_small by (unfold is_u32; lia).
  destruct (merge_fields h1 (sa u) (slen u + slen s) (head_or 0 l2) (erase tu1) (fun h => Some (sa u, h))) as (h2 & -> & C2 & L2 & F2 & R2);
    [done|destruct (decide (head_or 0 l2 = 0)) as [->|]; [lia|by apply Hhd]|apply Hhd|].
  exists h2, fl1. split; [done|]. split; [|congruence].
  eapply (inv0_merge h1 h2 R fl1 fl1 l1 u s1 l2); try done.
  - intros b Hb _. by apply C2.
  - unfold seg_ok. split_and!; assumption || reflexivity.
  - by eapply freelists_frame, Hi1.
  - intros a i. rewrite (i_free _ _ _ Hi1). change (u :: s1 :: l2) with ([u; s1] ++ l2).
    rewrite free_in_split, !free_in_cons, free_in_nil. split; [|by right].
    intros [[(_ & ? & _)|[(_ & ? & _)|[]]]|?]; [congruence|done|done].
  - rewrite L2. apply (i_links _ _ _ Hi1); [|congruence]. simpl. rewrite <- app_assoc. apply elem_of_app. right. left.
  - unfold rest in *. congruence.
Qed.

(** *** Splitting *)

(** An address inside a segment is no other segment's address, and on no list. *)
Lemma inner_fresh h R fl l1 s l2 n :
  inv0 h ((l1 ++ s :: l2) :: R) fl -> sa s < n < sa s + slen s ->
  n <> 0 /\ (forall s', s' ∈ others l1 l2 R -> sa s' <> n) /\ (forall i, n ∉ fl i).
Proof.
  intros Hi Hn. assert (s ∈ mjoin ((l1 ++ s :: l2) :: R)) as Hin.
  { change (s :: l2) with ([s] ++ l2). apply elem_of_split. left. left. }
  destruct (inv0_seg _ _ _ _ Hi Hin) as (_ & ? & _).
  assert (forall s', s' ∈ others l1 l2 R -> sa s' <> n) as Ho.
  { intros s' Hs <-. pose proof (i_bytes _ _ _ Hi) as Hb. simpl in Hb. rewrite <- app_assoc in Hb.
    assert (s' ∈ mjoin ((l1 ++ [s] ++ l2) :: R)) as Hs' by (apply elem_of_split; by right).
    destruct (inv0_seg _ _ _ _ Hi Hs') as (?%fits_min & _).
    apply (bytes_disjoint l1 s (l2 ++ mjoin R) s' (sa s') Hb Hs); lia. }
  split; [lia|]. split; [done|]. intros i (s' & Hs & E & _)%(i_free _ _ _ Hi).
  change (s :: l2) with ([s] ++ l2) in Hs. apply elem_of_split in Hs as [->%list_elem_of_singleton|Hs]; [lia|].
  by apply (Ho s').
Qed.

(** The tag split_tag creates, and the stores up to its insertion. *)
Lemma split_fields h a n r cn ca {A} (k : Heap S -> option A) (v : Z) :
  a <> 0 -> a <> n -> n <> 0 -> core_at h a = Some ca -> r <> n -> r <> a -> (r <> 0 -> is_Some (core_at h r)) ->
  next cn = 0 -> prev cn = 0 ->
  exists h', (h ← upd_if r (set_split_left n) (with_tags h (<[n := cn]> (tags h)));
              h ← upd a (set_split_right n) h;
              h ← upd a (fun t => set_real_size (u32 (real_size t - v)) t) h; k h) = k h' /\
    (forall b, b <> 0 -> core_at h' b =
       if decide (n = b) then Some cn
       else if decide (a = b) then Some (set_real_size (u32 (real_size ca - v)) (set_split_right n ca))
       else if decide (r = b) then set_split_left n <$> core_at h b else core_at h b) /\
    (forall b, links_at h' b = if decide (n = b) then Some (0, 0) else links_at h b) /\
    l_freePages h' = l_freePages h /\ rest h' = rest h.
Proof.
  intros Ha0 Han Hn Ha Hrn Hra Hr Hnx Hpv. set (h0 := with_tags h _).
  assert (forall b, core_at h0 b = if decide (n = b) then Some cn else core_at h b) as C0.
  { intros b. unfold core_at, h0. rewrite deref_insert. case_decide; [|done]. simpl. f_equal.
    destruct cn; simpl in *; subst; done. }
  assert (forall b, links_at h0 b = if decide (n = b) then Some (0, 0) else links_at h b) as L0.
  { intros b. unfold links_at, h0. rewrite deref_insert. case_decide; [|done]. simpl. congruence. }
  destruct (upd_if_core h0 r (set_split_left n)) as (h1 & -> & C1 & L1 & F1 & R1); [done..| |].
  { intros H0. rewrite C0, decide_False by done. auto. }
  simpl. destruct (upd_core h1 a (set_split_right n) ca) as (h2 & -> & C2 & L2 & F2 & R2); [done..| |].
  { rewrite C1, C0 by done. by rewrite !decide_False by done. }
  simpl. destruct (upd_core h2 a (fun t => set_real_size (u32 (real_size t - v)) t) (set_split_right n ca)) as (h3 & -> & C3 & L3 & F3 & R3);
    [done..|by rewrite C2, decide_True|].
  exists h3. split; [done|]. split_and!.
  - intros b Hb. rewrite C3, C2, C1, C0 by done. repeat case_decide; subst; done.
  - intros b. rewrite L3, L2, L1, L0. done.
  - rewrite F3, F2, F1. done.
  - rewrite R3, R2, R1. done.
Qed.

(** The right neighbour, if any, is another segment. *)
Lemma split_right_ok h R fl l1 s l2 n :
  inv0 h ((l1 ++ s :: l2) :: R) fl -> (forall s', s' ∈ others l1 l2 R -> sa s' <> n) -> 0 <> n -> 0 <> sa s ->
  head_or 0 l2 <> n /\ head_or 0 l2 <> sa s /\ (head_or 0 l2 <> 0 -> is_Some (core_at h (head_or 0 l2))).
Proof.
  intros Hi Hno Hn0 Hs0. destruct l2 as [|x l2]; simpl; [done|].
  assert (x ∈ others l1 (x :: l2) R) as Hx by (unfold others; rewrite !elem_of_app, elem_of_cons; tauto).
  split; [by apply Hno|]. split; [by destruct (others_cons _ _ _ _ _ _ _ Hi Hx)|]. intros _.
  destruct (inv0_chain_at _ _ _ _ _ _ Hi) as (_ & _ & _ & [(t & -> & _) _] & _). eauto.
Qed.
Lemma head_not_other h R fl l1 s l2 s' :
  inv0 h ((l1 ++ s :: l2) :: R) fl -> s' ∈ l1 ++ mjoin R -> head_or 0 l2 <> sa s'.
Proof.
  intros Hi Hs. assert (s' ∈ others l1 l2 R) as Ho by (unfold others; rewrite !elem_of_app in *; tauto).
  destruct (others_cons _ _ _ _ _ _ _ Hi Ho) as [_ H0]. destruct l2 as [|x l2]; simpl; [congruence|].
  assert (inv0 h (((l1 ++ [s]) ++ x :: l2) :: R) fl) as Hi2 by (by rewrite <- app_assoc).
  destruct (others_cons _ _ _ _ _ _ s' Hi2) as [? _]; [|congruence]. unfold others. rewrite !elem_of_app in *. tauto.
Qed.
Lemma freelists_frame_in h h' fl :
  (forall i b, b ∈ fl i -> links_at h' b = links_at h b) -> l_freePages h' = l_freePages h -> freelists h fl -> freelists h' fl.
Proof.
  intros L F [G1 G2 G3 G4 G5 G6]. split; try done; rewrite ?F; try done.
  intros j Hj. eapply dll_frame; [|by apply G3]. intros b Hb. by eapply L.
Qed.

(** What split_tag does to the tags, the lists and the links. *)
Lemma split_tag_effect h R fl l1 s l2 z :
  inv0 h ((l1 ++ s :: l2) :: R) fl -> suse s = Used z -> 256 <= slen s - z - 64 ->
  let n := sa s + 32 + z in let v := slen s - 32 - z in
  exists h', split_tag (sa s) h = Some (n, h') /\
    (exists c, core_at h' (sa s) = Some c /\ seg_ok c (last_addr 0 l1) (Seg (sa s) (z + 32) (Used z)) n) /\
    (exists c, core_at h' n = Some c /\ seg_ok c (sa s) (Seg n v Free) (head_or 0 l2)) /\
    (forall s', s' ∈ others l1 l2 R -> core_at h' (sa s') =
       if decide (head_or 0 l2 = sa s') then set_split_left n <$> core_at h (sa s') else core_at h (sa s')) /\
    freelists h' (upd_list fl (bucket v) (n :: fl (bucket v))) /\
    (forall b, b <> 0 -> b <> n -> b ∉ fl (bucket v) -> links_at h' b = links_at h b) /\ rest h' = rest h.
Proof.
  intros Hi Hu Hz n v. assert (s ∈ mjoin ((l1 ++ s :: l2) :: R)) as Hin.
  { change (s :: l2) with ([s] ++ l2). apply elem_of_split. left. left. }
  destruct (inv0_seg _ _ _ _ Hi Hin) as (Hf & Hs0 & Hsb). unfold seg_fits in Hf. rewrite Hu in Hf.
  destruct (inner_fresh _ _ _ _ _ _ n Hi ltac:(unfold n; lia)) as (Hn0 & Hno & Hnl).
  destruct (inv0_chain_at _ _ _ _ _ _ Hi) as (c & Hc & (Sm & Sr & Sl & Srr & Si) & Hch2 & _). rewrite Hu in Si.
  destruct (split_right_ok _ _ _ _ _ _ n Hi Hno) as (Hrn & Hrs & Hhd); [lia..|].
  destruct (view _ _ _ Hc) as (t & Et & <- & Hlt). simpl in Sr, Srr, Si. destruct Si as [Sz Si].
  unfold split_tag. rewrite Et. simpl. rewrite Sr, Srr, Sz.
  replace (u32 (slen s - TAG - z)) with v by (unfold v, TAG; rewrite u32_small; [lia|unfold is_u32; lia]).
  replace (u32 (sa s + TAG + z)) with n by (unfold n, TAG; rewrite u32_small; [lia|unfold is_u32; lia]).
  set (old := default _ (deref h n)). set (cn := MkTag LIBALLOC_MAGIC (size old) v (index old) (sa s) (head_or 0 l2) 0 0).
  destruct (split_fields h (sa s) n (head_or 0 l2) cn (erase t) (fun h => h' ← insert_tag n (-1) h; Some (n, h')) v)
    as (h1 & -> & C1 & L1 & F1 & R1); try done; try (unfold n; lia).
  assert (core_at h1 n = Some cn) as Hcn by (rewrite C1 by done; by rewrite decide_True).
  rewrite (insert_tag_negative h1 n cn Hcn) by (simpl; unfold v; lia). change (real_size cn) with v.
  destruct (insert_tag_spec h1 fl (bucket v) n cn) as (h2 & -> & C2 & Hfl2 & L2 & R2); try done.
  { eapply freelists_frame_in; [|exact F1|apply Hi]. intros j b Hb. rewrite L1, decide_False; [done|].
    intros ->. by apply (Hnl j). }
  { pose proof (bucket_range v ltac:(unfold v; lia)). lia. }
  { rewrite L1. by rewrite decide_True. }
  simpl. exists h2. split_and!; try done; [..|congruence].
  - eexists. rewrite C2, decide_False, C1 by (unfold n; lia). rewrite decide_False, decide_True by (done || unfold n; lia).
    split; [done|]. unfold seg_ok. simpl. rewrite Sr. split_and!; try done.
    rewrite u32_small by (unfold is_u32, v; lia). unfold v. lia.
  - eexists. rewrite C2, decide_True by done. done.
  - intros s' Hs. destruct (others_cons _ _ _ _ _ _ s' Hi Hs) as [? ?]. pose proof (Hno s' Hs).
    rewrite C2, decide_False, C1 by congruence. rewrite !(decide_False (P := _ = sa s')) by congruence. done.
  - intros b Hb Hbn Hbf. rewrite L2, L1 by done. by rewrite decide_False by done.
Qed.

Lemma split_tag_spec h R fl l1 s l2 z :
  inv0 h ((l1 ++ s :: l2) :: R) fl -> suse s = Used z -> 256 <= slen s - z - 64 ->
  exists h' fl', split_tag (sa s) h = Some (sa s + 32 + z, h') /\
    inv0 h' ((l1 ++ Seg (sa s) (z + 32) (Used z) :: Seg (sa s + 32 + z) (slen s - 32 - z) Free :: l2) :: R) fl' /\
    rest h' = rest h.
Proof.
  intros Hi Hu Hz. destruct (split_tag_effect _ _ _ _ _ _ _ Hi Hu Hz) as (h2 & E & Hs1 & Hs2 & Ho & Hfl & Hlk & Rr).
  assert (s ∈ mjoin ((l1 ++ s :: l2) :: R)) as Hin.
  { change (s :: l2) with ([s] ++ l2). apply elem_of_split. left. left. }
  destruct (inv0_seg _ _ _ _ Hi Hin) as (Hf & Hs0 & Hsb). unfold seg_fits in Hf. rewrite Hu in Hf.
  set (n := sa s + 32 + z) in *. set (v := slen s - 32 - z) in *.
  destruct (inner_fresh _ _ _ _ _ _ n Hi ltac:(unfold n; lia)) as (Hn0 & Hno & Hnl).
  assert (forall i, sa s ∉ fl i) as Hsf by (intros i; eapply notfree_notin; [done|congruence]).
  exists h2. eexists. split; [done|]. split; [|done].
  apply (inv0_change h h2 R l1 [s] [Seg (sa s) (z + 32) (Used z); Seg n v Free] l2 fl); try done.
  - unfold bytes_of. simpl. rewrite !app_nil_r.
    assert (seqZ (sa s) (slen s) = seqZ (sa s) (z + 32) ++ seqZ (sa s + (z + 32)) (slen s - 32 - z)) as ->.
    { rewrite <- seqZ_app by lia. f_equal. lia. }
    do 2 f_equal. unfold n. lia.
  - simpl. unfold v. lia.
  - intros a (E1 & _). split_and!; simpl; unfold seg_fits, n, v; simpl; try lia.
  - split; [exact Hs1|]. split; [exact Hs2|]. eapply (chain_merge h h2 R fl l1 s l2); [done| |].
    + by destruct (inv0_chain_at _ _ _ _ _ _ Hi) as (_ & _ & _ & ? & _).
    + intros s' Hs. apply Ho. unfold others. rewrite !elem_of_app. tauto.
  - intros s' Hs. rewrite Ho by (unfold others; rewrite !elem_of_app in *; tauto).
    rewrite decide_False; [done|]. by apply (head_not_other h R fl l1 s l2 s').
  - intros a i. pose proof (i_free _ _ _ Hi a i) as Hfr.
    change (s :: l2) with ([s] ++ l2) in Hfr. rewrite free_in_split, !free_in_cons, !free_in_nil in Hfr.
    rewrite !free_in_cons, free_in_nil. simpl. unfold upd_list.
    destruct (Z.eqb_spec i (bucket v)) as [->|Hne]; [rewrite elem_of_cons|]; rewrite Hfr, Hu; split.
    + intros [->|[[(_ & ? & _)|[]]|?]]; [left; right; by left|done|by right].
    + intros [[(_ & ? & _)|[(-> & _)|[]]]|?]; [done|by left|right; by right].
    + intros [[(_ & ? & _)|[]]|?]; [done|by right].
    + intros [[(_ & ? & _)|[(_ & _ & <-)|[]]]|?]; [done|done|by right].
  - intros s' Hs Hnf. assert (s' = Seg (sa s) (z + 32) (Used z)) as ->.
    { apply elem_of_cons in Hs as [->| ->%list_elem_of_singleton]; done. }
    simpl. rewrite Hlk by (done || unfold n; lia). apply (i_links _ _ _ Hi); [done|congruence].
  - intros s' Hs Hn. destruct (others_cons _ _ _ _ _ _ _ Hi Hs) as [? ?]. apply Hlk; [done|by apply Hno|].
    by apply (others_notin h R fl l1 [s] l2).
  - unfold rest in *. congruence.
Qed.
End Inv.
End KmallocHeap.
