(* ===== verification/KmallocSpec.v ===== *)
(** kmalloc and kfree of Kernel/Libk/kmalloc.cpp against an abstract allocator: the blocks handed
    out never overlap, a request adds exactly its block, a free removes exactly its block, and
    the heap invariant survives every sequence of them. *)

From S2P Require Import Prelude PhysicalAllocator Kmalloc KmallocLists KmallocHeap.

Module KmallocSpec.
Import Kmalloc KmallocLists KmallocHeap.

(** ** Allocated blocks *)

(** The blocks in use: pointer and requested size. *)
Definition block_of (s : seg) : option (Z * Z) :=
  match suse s with Used z => Some (sa s + 32, z) | _ => None end.
Definition blocks (l : list seg) : list (Z * Z) := omap block_of l.

Lemma blocks_app l1 l2 : blocks (l1 ++ l2) = blocks l1 ++ blocks l2.
Proof. apply omap_app. Qed.
#[export] Instance blocks_proper : Proper ((≡ₚ) ==> (≡ₚ)) blocks.
Proof. intros l l' Hl. unfold blocks. by rewrite Hl. Qed.
Lemma elem_of_blocks b l : b ∈ blocks l <-> exists s z, s ∈ l /\ suse s = Used z /\ b = (sa s + 32, z).
Proof.
  unfold blocks, block_of. rewrite list_elem_of_omap. split.
  - intros (s & Hs & E). exists s. destruct (suse s); simplify_eq. eauto.
  - intros (s & z & Hs & E & ->). exists s. by rewrite E.
Qed.
Lemma blocks_split l1 mid l2 R :
  blocks (mjoin ((l1 ++ mid ++ l2) :: R)) ≡ₚ blocks mid ++ blocks (others l1 l2 R).
Proof. unfold others. simpl. rewrite !blocks_app. solve_Permutation. Qed.

(** ** Complete regions and coalescing *)

(** A region that is one free segment, of list [i]. *)
Definition is_complete (i : Z) (r : list seg) : bool :=
  match r with [Seg _ n Free] => bucket n =? i | _ => false end.
Arguments is_complete : simpl never.
Fixpoint count (i : Z) (R : list (list seg)) : Z :=
  match R with [] => 0 | r :: R => (if is_complete i r then 1 else 0) + count i R end.

Lemma is_complete_many i l1 s l2 : ~ (l1 = [] /\ l2 = []) -> is_complete i (l1 ++ s :: l2) = false.
Proof.
  intros Hne. unfold is_complete. destruct l1 as [|x l1]; simpl.
  - destruct l2; [naive_solver|]. by destruct s as [? ? []].
  - destruct x as [? ? []]; destruct l1; done.
Qed.
Lemma is_complete_not_free i s : suse s <> Free -> is_complete i [s] = false.
Proof. destruct s as [? ? []]; done. Qed.
Lemma count_perm i R R' : R ≡ₚ R' -> count i R = count i R'.
Proof. induction 1; simpl; lia. Qed.
Lemma count_nonneg i R : 0 <= count i R.
Proof. induction R as [|r R IH]; simpl; [lia|]. case_if; lia. Qed.

(** No two neighbours are both free. *)
Fixpoint coalesced (l : list seg) : Prop :=
  match l with
  | s1 :: (s2 :: _) as l' => ~ (suse s1 = Free /\ suse s2 = Free) /\ coalesced l'
  | _ => True
  end.
Definition head_not_free (l : list seg) : Prop := forall s, head l = Some s -> suse s <> Free.
Definition last_not_free (l : list seg) : Prop := forall s, last l = Some s -> suse s <> Free.

Lemma coalesced_cons s l : coalesced (s :: l) <-> (suse s = Free -> head_not_free l) /\ coalesced l.
Proof.
  unfold head_not_free. destruct l as [|s' l]; simpl; [naive_solver|]. split.
  - intros [H1 H2]. split; [|done]. intros Hf x [= ->] Hx. auto.
  - intros [H1 H2]. split; [|done]. intros [H3 H4]. by apply (H1 H3 s').
Qed.
Lemma coalesced_app l1 s l2 :
  coalesced (l1 ++ s :: l2) <->
  coalesced l1 /\ coalesced l2 /\ (suse s = Free -> last_not_free l1 /\ head_not_free l2).
Proof.
  unfold last_not_free. induction l1 as [|x l1 IH]; cbn [app].
  - rewrite coalesced_cons. cbn. naive_solver.
  - rewrite !coalesced_cons, IH. destruct l1 as [|y l1].
    + unfold head_not_free. simpl. split.
      * intros (Hx & _ & H2 & H3). split_and!; try done. intros Hs. split; [|by apply H3].
        intros z [= <-] Hz. by apply (Hx Hz s).
      * intros (_ & H2 & H3). split_and!; try done; [|naive_solver]. intros Hx z [= <-] Hs.
        destruct (H3 Hs) as [H4 _]. by apply (H4 x).
    + unfold head_not_free. rewrite last_cons_cons. simpl. naive_solver.
Qed.

Section Spec.
Context {S : Type} `{KernelPages S} `{!PageLaws S} `{!PageLedger S}.
Implicit Types h : Heap S.

(** The runs of pages the regions stand on. *)
Definition region_of (r : list seg) : Z * Z := (head_or 0 r, total r).
Definition regions (R : list (list seg)) : list (Z * Z) := region_of <$> R.

Lemma regions_cons r R : regions (r :: R) = region_of r :: regions R.
Proof. done. Qed.
Lemma region_of_app l1 mid mid' l2 :
  mid <> [] -> mid' <> [] -> head_or 0 mid = head_or 0 mid' -> total mid = total mid' ->
  region_of (l1 ++ mid ++ l2) = region_of (l1 ++ mid' ++ l2).
Proof.
  intros H1 H2 Hh Ht. unfold region_of. rewrite !total_app, !head_or_app, Ht. destruct mid, mid'; try done. simpl in *. by rewrite Hh.
Qed.
Lemma region_of_one l1 s s' l2 :
  sa s = sa s' -> slen s = slen s' -> region_of (l1 ++ s :: l2) = region_of (l1 ++ s' :: l2).
Proof. intros Ha Hl. apply (region_of_app l1 [s] [s'] l2); simpl; [done..|lia]. Qed.

(** The invariant between calls. *)
Record inv h (R : list (list seg)) (fl : Z -> list Z) : Prop := {
  inv_0 : inv0 h R fl;
  inv_counts : length (l_completePages h) = 32%nat /\
    forall i, 0 <= i < 32 -> l_completePages h !! Z.to_nat i = Some (count i R);
  inv_max : forall i, count i R <= MAXCOMPLETE;
  inv_coalesced : forall r, r ∈ R -> coalesced r;
  inv_settled : forall s, s ∈ mjoin R -> suse s <> Limbo;
  inv_init : l_initialized h = 0 -> R = [] /\ l_completePages h = replicate 32 0 /\ l_freePages h = replicate 32 0;
  inv_accounts : accounts (pages h) (regions R)
}.

(** The invariant during a call that holds the segment [s]. *)
Record held h (l1 : list seg) (s : seg) (l2 : list seg) (R : list (list seg)) (fl : Z -> list Z) : Prop := {
  hd_inv : inv0 h ((l1 ++ s :: l2) :: R) fl;
  hd_limbo : suse s = Limbo;
  hd_counts : length (l_completePages h) = 32%nat /\
    forall i, 0 <= i < 32 -> l_completePages h !! Z.to_nat i = Some (count i R);
  hd_max : forall i, count i R <= MAXCOMPLETE;
  hd_coalesced : forall r, r ∈ R -> coalesced r;
  hd_here : coalesced l1 /\ coalesced l2;
  hd_settled : forall s', s' ∈ others l1 l2 R -> suse s' <> Limbo;
  hd_init : l_initialized h <> 0;
  hd_accounts : accounts (pages h) (regions ((l1 ++ s :: l2) :: R))
}.

Definition kept h := (l_completePages h, l_initialized h, schedulerEnabled h).

Lemma inv_perm h R R' fl : R ≡ₚ R' -> inv h R fl -> inv h R' fl.
Proof.
  intros HR [H1 [H2 H2'] H3 H4 H5 H6 H7]. split.
  - by eapply inv0_perm.
  - split; [done|]. intros i Hi. by rewrite <- (count_perm i R R' HR), H2'.
  - intros i. by rewrite <- (count_perm i R R' HR).
  - intros r. rewrite <- HR. apply H4.
  - intros s. rewrite <- HR. apply H5.
  - intros E. destruct (H6 E) as (-> & ? & ?). split; [|done]. symmetry. by apply Permutation_nil_l.
  - eapply accounts_perm; [|exact H7]. unfold regions. by rewrite HR.
Qed.

(** Every segment can be brought to the front. *)
Lemma inv_focus h R fl s : inv h R fl -> s ∈ mjoin R ->
  exists l1 l2 R', R ≡ₚ (l1 ++ s :: l2) :: R' /\ inv h ((l1 ++ s :: l2) :: R') fl.
Proof.
  intros Hi (r & Hs & Hr)%list_elem_of_join. apply list_elem_of_split in Hs as (l1 & l2 & ->).
  apply elem_of_Permutation in Hr as [R' HR]. exists l1, l2, R'. split; [done|]. by eapply inv_perm.
Qed.

(** ** Fresh pages *)

Lemma inv0_pages h R fl s : inv0 h R fl -> pages_inv s ->
  (forall r, r ∈ R -> owns s (head_or 0 r) (total r)) -> forall m, inv0 (with_payload (with_pages h s) m) R fl.
Proof. intros [H1 H2 H3 H4 H5 H6 H7 H8] Hp Ho m. split; try done. by destruct H4. Qed.

Lemma new_tag_inv h R fl a n t :
  inv0 h R fl -> t = MkTag LIBALLOC_MAGIC (size t) n (-1) 0 0 0 0 ->
  region_ok [Seg a n Limbo] -> owns (pages h) a n ->
  (forall r, r ∈ R -> head_or 0 r + total r <= a \/ a + n <= head_or 0 r) ->
  inv0 (with_tags h (<[a := t]> (tags h))) ([Seg a n Limbo] :: R) fl.
Proof.
  intros Hi Ht Hr Ho Hdis. set (h' := with_tags h _).
  assert (forall s, s ∈ mjoin R -> a <> sa s /\ ~ (a <= sa s < a + n)) as Hne.
  { intros s Hs. pose proof Hs as (r & Hsr & Hrr)%list_elem_of_join.
    destruct (i_region _ _ _ Hi r Hrr) as [_ [? _] (? & ? & ?) Htl].
    destruct (tile_elem _ _ _ Htl Hsr) as (?%fits_min & ? & ?). destruct Hr as [_ _ (? & _) _]. simpl in *.
    destruct (Hdis r Hrr); lia. }
  assert (forall b, core_at h' b = if decide (a = b) then Some t else core_at h b) as C.
  { intros b. unfold core_at, h'. rewrite deref_insert. case_decide; [|done]. simpl. by rewrite Ht. }
  assert (forall b, links_at h' b = if decide (a = b) then Some (0, 0) else links_at h b) as L.
  { intros b. unfold links_at, h'. rewrite deref_insert. case_decide; [|done]. simpl. by rewrite Ht. }
  split.
  - intros r [->|Hr']%elem_of_cons.
    + split; [|done]. exists t. simpl. rewrite C, decide_True by done. split; [done|]. rewrite Ht. done.
    + eapply chain_frame; [|by apply (i_chain _ _ _ Hi)]. intros s Hs. rewrite C, decide_False; [done|].
      apply Hne. apply list_elem_of_join. eauto.
  - intros r [->|Hr']%elem_of_cons; [done|by apply (i_region _ _ _ Hi)].
  - simpl. apply NoDup_app. split_and!; [apply NoDup_seqZ| |apply Hi].
    intros x Hx%elem_of_seqZ (s & Hs & Hx')%elem_of_bytes. pose proof Hs as (r & Hsr & Hrr)%list_elem_of_join.
    destruct (i_region _ _ _ Hi r Hrr) as [_ _ _ Htl]. destruct (tile_elem _ _ _ Htl Hsr) as (_ & ? & ?).
    destruct (Hdis r Hrr); lia.
  - apply (freelists_frame_in h h'); [|done|apply Hi]. intros i b (s & Hs & <- & _)%(i_free _ _ _ Hi).
    rewrite L, decide_False; [done|]. by apply Hne.
  - intros b i. simpl. rewrite free_in_cons, (i_free _ _ _ Hi). simpl. naive_solver.
  - intros s [->|Hs]%elem_of_cons Hu; simpl.
    + rewrite L. by rewrite decide_True.
    + rewrite L, decide_False by (by apply Hne). by apply (i_links _ _ _ Hi).
  - intros r [->|Hr']%elem_of_cons; simpl; [by rewrite Z.add_0_r|by apply (i_owns _ _ _ Hi)].
  - apply Hi.
Qed.

(** allocate_new_tag: a fresh region in hand, or null. *)
Lemma allocate_new_tag_spec h R fl sz :
  inv0 h R fl -> 0 <= sz <= 1073741824 ->
  exists a h', allocate_new_tag sz h = Some (a, h') /\ kept h' = kept h /\
    ((a = 0 /\ inv0 h' R fl /\ forall L, accounts (pages h) L -> accounts (pages h') L) \/
     (a <> 0 /\ exists n, sz + 32 <= n /\ inv0 h' ([Seg a n Limbo] :: R) fl /\
        forall L, accounts (pages h) L -> accounts (pages h') ((a, n) :: L))).
Proof.
  intros Hi Hsz. unfold allocate_new_tag, liballoc_alloc, l_pageSize, l_pageCount, TAG, PAGE_SIZE.
  rewrite (u32_small (sz + 32)) by (unfold is_u32; lia).
  set (k := if negb ((sz + 32) mod 4096 =? 0) then _ else _).
  assert (k = (sz + 32 + 4095) / 4096) as Ek.
  { unfold k. case_if; [rewrite u32_small by (unfold is_u32; zlia)|]; zlia. }
  set (np := if k <? 16 then 16 else k).
  assert (16 <= np <= 262146 /\ sz + 32 <= np * 4096) as [Hnp Hn] by (unfold np; case_if; zlia).
  change 0x1000 with 4096. rewrite (u32_small (np * 4096)) by (unfold is_u32; lia).
  destruct (allocate_law (pages h) (np * 4096)) as (a & s' & Ea & Hp & Hkeep & Hnew);
    [apply Hi|lia|apply Z.mod_mul; lia|].
  assert (forall L, accounts (pages h) L -> accounts s' (if a =? 0 then L else (a, np * 4096) :: L)) as Hacc
    by (intros L; by apply accounts_allocate).
  rewrite Ea. simpl.
  assert (forall m, inv0 (with_payload (with_pages h s') m) R fl) as Hi'.
  { apply inv0_pages; [done|done|]. intros r Hr. by apply Hkeep, (i_owns _ _ _ Hi). }
  destruct (Z.eqb_spec a 0) as [->|Ha].
  - do 2 eexists. split; [done|]. split; [done|]. left. split; [done|]. split; [specialize (Hi' (payload h)); by destruct h|done].
  - do 2 eexists. split; [done|]. split; [done|]. right. split; [done|]. exists (np * 4096). split; [done|]. split; [|done].
    destruct (Hnew Ha) as (? & ? & ? & Hown & Hdis). apply new_tag_inv; try done.
    + split; simpl; rewrite ?Z.add_0_r; [done|done|split_and!; [lia|apply Z.mod_mul; lia|done]|].
      split_and!; try done. unfold seg_fits. simpl. lia.
    + intros r Hr. by apply Hdis, (i_owns _ _ _ Hi).
Qed.

(** ** Searching a free list *)
Lemma find_tag_spec h sz : forall fuel l p,
  dll (links_at h) p l -> (forall a, a ∈ l -> a <> 0) -> (length l < fuel)%nat ->
  exists a, find_tag fuel h (hd 0 l) sz = Some a /\
    (a = 0 \/ a ∈ l /\ exists t, deref h a = Some t /\ u32 (sz + TAG) <= u32 (real_size t - TAG)).
Proof.
  induction fuel as [|fuel IH]; intros l p Hd Hn Hf; [lia|]. cbn [find_tag].
  destruct l as [|a l]; simpl; [eauto|]. destruct Hd as [Hl Hd].
  rewrite (proj2 (Z.eqb_neq a 0)) by (apply Hn; left).
  destruct (links_core _ _ _ Hl) as [c (t & Et & _)%core_at_Some]. rewrite Et. simpl.
  rewrite Z.geb_leb. case_if.
  - exists a. split; [done|]. right. split; [left|eauto].
  - assert (next t = hd 0 l) as -> by (unfold links_at in Hl; rewrite Et in Hl; simpl in Hl; congruence).
    simpl in Hf. destruct (IH l a Hd) as (b & -> & Hb); [intros; apply Hn; by right|lia|].
    exists b. split; [done|]. destruct Hb as [->|[Hb Ht]]; [by left|right]. split; [by right|done].
Qed.

(** The lists are no longer than the heap has segments. *)
Lemma fl_length h R fl i : inv0 h R fl -> (length (fl i) <= length (mjoin R))%nat.
Proof.
  intros Hi. rewrite <- (length_fmap sa (mjoin R)). apply submseteq_length, NoDup_submseteq; [apply Hi|].
  intros a (s & Hs & <- & _)%(i_free _ _ _ Hi). by apply list_elem_of_fmap_2.
Qed.

Lemma last_addr_zero h R fl l1 s l2 :
  inv0 h ((l1 ++ s :: l2) :: R) fl ->
  (last_addr 0 l1 = 0 <-> l1 = []) /\ (head_or 0 l2 = 0 <-> l2 = []).
Proof.
  intros Hi. assert (forall x, x ∈ others l1 l2 R -> sa x <> 0) as Hx.
  { intros x Hx. by destruct (others_cons _ _ _ _ _ _ _ Hi Hx). }
  split.
  - unfold last_addr. destruct (last l1) as [x|] eqn:E.
    + split; [|intros ->; done]. intros E0. exfalso. apply (Hx x); [|done].
      unfold others. apply elem_of_app. left. by apply last_Some_elem_of.
    + apply last_None in E. by rewrite E.
  - destruct l2 as [|x l2]; simpl; [done|]. split; [|done]. intros E0. exfalso. apply (Hx x); [|done].
    unfold others. rewrite !elem_of_app. right. left. left.
Qed.

Lemma deref_seg h R fl l1 s l2 :
  inv0 h ((l1 ++ s :: l2) :: R) fl ->
  exists t, deref h (sa s) = Some t /\ real_size t = slen s /\ split_left t = last_addr 0 l1 /\
    split_right t = head_or 0 l2 /\ magic t = LIBALLOC_MAGIC /\
    match suse s with Free => index t = bucket (slen s) | Used z => size t = z /\ index t = -1 | Limbo => index t = -1 end.
Proof.
  intros Hi. destruct (inv0_chain_at _ _ _ _ _ _ Hi) as (c & Hc & (H1 & H2 & H3 & H4 & H5) & _).
  destruct (view _ _ _ Hc) as (t & Et & <- & _). exists t. done.
Qed.

(** ** Taking hold of a segment of the right list *)
Lemma take_hold h R fl l1 s l2 :
  inv h ((l1 ++ s :: l2) :: R) fl -> l_initialized h <> 0 -> suse s = Free ->
  exists h' fl', (h1 ← remove_tag (sa s) h;
      t ← deref h1 (sa s);
      h2 ← (if (split_left t =? 0) && (split_right t =? 0) then add_completePages (bucket (slen s)) (-1) h1 else Some h1);
      Some (sa s, h2)) = Some (sa s, h') /\
    held h' l1 (Seg (sa s) (slen s) Limbo) l2 R fl' /\ last_not_free l1 /\ head_not_free l2.
Proof.
  intros Hi Hinit Hu. destruct (take_free h R fl l1 s l2 (inv_0 _ _ _ Hi) Hu) as (h1 & fl' & -> & Hi1 & Hr & _).
  simpl. destruct (deref_seg _ _ _ _ _ _ Hi1) as (t & Et & _ & El & Er & _ & _). simpl in Et. rewrite Et. simpl.
  rewrite El, Er. destruct (last_addr_zero _ _ _ _ _ _ Hi1) as [Z1 Z2].
  pose proof (inv_coalesced _ _ _ Hi _ ltac:(left)) as (Q1 & Q2 & Q3)%coalesced_app. destruct (Q3 Hu) as [Q4 Q5].
  assert (s ∈ mjoin ((l1 ++ s :: l2) :: R)) as Hin by (change (s :: l2) with ([s] ++ l2); apply elem_of_split; left; left).
  destruct (inv0_seg _ _ _ _ (inv_0 _ _ _ Hi) Hin) as (_ & Hs0 & Hb).
  pose proof (bucket_range (slen s) ltac:(lia)) as Hbk.
  destruct (inv_counts _ _ _ Hi) as [Hlen Hcnt].
  assert (l_completePages h1 = l_completePages h /\ l_initialized h1 = l_initialized h) as [Ec Ei]
    by (unfold rest in Hr; split; congruence).
  assert (forall s', s' ∈ others l1 l2 R -> suse s' <> Limbo) as Hset.
  { intros s' Hs. apply (inv_settled _ _ _ Hi). change (s :: l2) with ([s] ++ l2). apply elem_of_split. by right. }
  assert (forall i, count i R <= MAXCOMPLETE) as Hmax.
  { intros i. pose proof (inv_max _ _ _ Hi i) as Hm. simpl in Hm. case_if_in Hm; lia. }
  assert (forall r, r ∈ R -> coalesced r) as Hcoal by (intros r Hr'; apply (inv_coalesced _ _ _ Hi); by right).
  assert (accounts (pages h1) (regions ((l1 ++ Seg (sa s) (slen s) Limbo :: l2) :: R))) as Hacc.
  { replace (pages h1) with (pages h) by (unfold rest in Hr; congruence).
    rewrite regions_cons, (region_of_one l1 _ s l2) by done. apply Hi. }
  destruct (decide (l1 = [] /\ l2 = [])) as [[-> ->]|Hne].
  - simpl. unfold add_completePages. rewrite at_index_ok, Ec, Hcnt by lia. simpl.
    assert (is_complete (bucket (slen s)) [s] = true) as Hcomp.
    { unfold is_complete. destruct s as [a n u]. simpl in *. subst u. apply Z.eqb_refl. }
    rewrite Hcomp. pose proof (inv_max _ _ _ Hi (bucket (slen s))) as Hm. pose proof (count_nonneg (bucket (slen s)) R).
    simpl in Hm. rewrite Hcomp in Hm. unfold MAXCOMPLETE in Hm.
    rewrite s32_small by lia. do 2 eexists. split; [done|]. split; [|done]. split; try done.
    + by destruct Hi1 as [? ? ? [] ? ? ? ?].
    + simpl. rewrite length_insert. split; [done|]. intros i Hr'. destruct (decide (i = bucket (slen s))) as [->|Hd].
      * rewrite list_lookup_insert_eq by lia. f_equal. lia.
      * rewrite list_lookup_insert_ne by lia. rewrite Hcnt by done. f_equal. simpl.
        assert (is_complete i [s] = false) as ->; [|done].
        unfold is_complete. destruct s as [a n u]. simpl in *. subst u. by apply Z.eqb_neq.
    + simpl. congruence.
  - assert ((last_addr 0 l1 =? 0) && (head_or 0 l2 =? 0) = false) as ->.
    { apply andb_false_iff. rewrite !Z.eqb_neq. rewrite Z1, Z2. destruct l1; [right|left]; naive_solver. }
    simpl. do 2 eexists. split; [done|]. split; [|done]. split; try done.
    + rewrite Ec. split; [done|]. intros i Hr'. rewrite Hcnt by done. f_equal. simpl.
      assert (is_complete i (l1 ++ s :: l2) = false) as ->; [|done].
      by apply is_complete_many.
    + congruence.
Qed.

(** ** The end of kmalloc *)

Lemma inv0_enabled h R fl b : inv0 h R fl -> inv0 (with_enabled h b) R fl.
Proof. intros [? ? ? [] ? ? ? ?]. split; done. Qed.

(** The held region settled with the segments [mid] in place of the held one. *)
Lemma settle h h' l1 s mid l2 R fl fl' :
  held h l1 s l2 R fl -> inv0 h' ((l1 ++ mid ++ l2) :: R) fl' -> rest h' = rest h ->
  (forall i, is_complete i (l1 ++ mid ++ l2) = false) -> coalesced (l1 ++ mid ++ l2) ->
  (forall x, x ∈ mid -> suse x <> Limbo) -> region_of (l1 ++ mid ++ l2) = region_of (l1 ++ s :: l2) ->
  inv (liballoc_unlock h') ((l1 ++ mid ++ l2) :: R) fl'.
Proof.
  intros Hh Hi Hr Hc Hco Hm Hreg.
  assert (l_completePages h' = l_completePages h /\ l_initialized h' = l_initialized h) as [Ec Ei]
    by (unfold rest in Hr; split; congruence).
  split.
  - by apply inv0_enabled.
  - simpl. rewrite Ec. destruct (hd_counts _ _ _ _ _ _ Hh) as [H1 H2]. split; [done|]. intros i Hi'.
    rewrite Hc, Z.add_0_l. by apply H2.
  - intros i. simpl. rewrite Hc, Z.add_0_l. apply Hh.
  - intros r [->|Hr']%elem_of_cons; [done|by apply (hd_coalesced _ _ _ _ _ _ Hh)].
  - intros x [Hx|Hx]%elem_of_split; [by apply Hm|by apply (hd_settled _ _ _ _ _ _ Hh)].
  - simpl. rewrite Ei. intros E. by destruct (hd_init _ _ _ _ _ _ Hh).
  - change (pages (liballoc_unlock h')) with (pages h'). replace (pages h') with (pages h) by (unfold rest in Hr; congruence).
    rewrite regions_cons, Hreg. apply (hd_accounts _ _ _ _ _ _ Hh).
Qed.

Definition finish (tag sz : Z) (h : Heap S) : option (Z * Heap S) :=
  h ← upd tag (set_size sz) h;
  t ← deref h tag;
  let remainder := u32 (real_size t - sz - TAG * 2) in
  h ← (if (s32 remainder >? 0) && (getexp remainder >=? 0)
       then '(_, h) ← split_tag tag h; Some h
       else Some h);
  Some (u32 (tag + TAG), liballoc_unlock h).

Lemma finish_spec h l1 s l2 R fl sz :
  held h l1 s l2 R fl -> head_not_free l2 -> 0 <= sz -> sz + 32 <= slen s ->
  exists h' mid fl', finish (sa s) sz h = Some (sa s + 32, h') /\ inv h' ((l1 ++ mid ++ l2) :: R) fl' /\
    blocks mid = [(sa s + 32, sz)] /\ schedulerEnabled h' = true.
Proof.
  intros Hh Hhd Hz Hs. pose proof (hd_inv _ _ _ _ _ _ Hh) as Hi. destruct (hd_here _ _ _ _ _ _ Hh) as [Q1 Q2].
  assert (s ∈ mjoin ((l1 ++ s :: l2) :: R)) as Hin by (change (s :: l2) with ([s] ++ l2); apply elem_of_split; left; left).
  destruct (inv0_seg _ _ _ _ Hi Hin) as (_ & Hs0 & Hb).
  destruct (record_size _ _ _ _ _ _ sz Hi (hd_limbo _ _ _ _ _ _ Hh) Hz Hs) as (h1 & E1 & Hi1 & R1).
  set (s1 := Seg (sa s) (slen s) (Used sz)) in *.
  destruct (deref_seg _ _ _ _ _ _ Hi1) as (t & Et & Ert & _). simpl in Et, Ert.
  unfold finish. rewrite E1. simpl. rewrite Et. simpl. rewrite Ert.
  replace (TAG * 2) with 64 by done. set (rem := slen s - sz - 64).
  rewrite (u32_small (sa s + TAG)) by (unfold is_u32, TAG; lia). change (sa s + TAG) with (sa s + 32).
  destruct (decide (256 <= rem)) as [Hrem|Hrem].
  - rewrite u32_small by (unfold is_u32, rem; lia). rewrite s32_small by (unfold rem; lia).
    assert (getexp rem >= 0) as Hg by (apply getexp_nonneg; unfold rem; lia).
    rewrite Z.gtb_ltb, (proj2 (Z.ltb_lt _ _)) by lia. rewrite Z.geb_leb, (proj2 (Z.leb_le _ _)) by lia. simpl.
    destruct (split_tag_spec h1 R fl l1 s1 l2 sz Hi1 eq_refl Hrem) as (h2 & fl2 & E2 & Hi2 & R2).
    change (sa s1) with (sa s) in E2. rewrite E2. simpl.
    exists (liballoc_unlock h2), [Seg (sa s) (sz + 32) (Used sz); Seg (sa s + 32 + sz) (slen s - 32 - sz) Free], fl2.
    split; [done|]. split; [|done]. eapply settle; [exact Hh|exact Hi2|congruence| | | |].
    + intros i. apply is_complete_many. by intros [_ ?].
    + simpl. apply coalesced_app. split_and!; [done| |done]. apply coalesced_cons. done.
    + intros x [->| ->%list_elem_of_singleton]%elem_of_cons; done.
    + apply (region_of_app l1 _ [s] l2); simpl; [done..|lia].
  - assert ((s32 (u32 rem) >? 0) && (getexp (u32 rem) >=? 0) = false) as ->.
    { destruct (decide (0 <= rem)).
      - rewrite (u32_small rem) by (unfold is_u32; lia). rewrite getexp_small by lia. apply andb_false_r.
      - unfold s32. rewrite u32_u32. assert (u32 rem = rem + 4294967296) as -> by (unfold u32, rem in *; zlia).
        rewrite (proj2 (Z.ltb_ge _ _)) by (unfold rem; lia). apply andb_false_iff. left. rewrite Z.gtb_ltb. apply Z.ltb_ge. lia. }
    simpl. exists (liballoc_unlock h1), [s1], fl. split; [done|]. split; [|done].
    eapply settle; [exact Hh|exact Hi1|congruence| | | |].
    + intros i. destruct (decide (l1 = [] /\ l2 = [])) as [[-> ->]|Hne]; [by apply is_complete_not_free|by apply is_complete_many].
    + simpl. apply coalesced_app. done.
    + intros x ->%list_elem_of_singleton. done.
    + by apply region_of_one.
Qed.

(** ** kmalloc *)

Lemma init_inv h R fl : inv h R fl ->
  inv (liballoc_init (liballoc_lock h)) R fl /\ l_initialized (liballoc_init (liballoc_lock h)) <> 0.
Proof.
  intros Hi. unfold liballoc_init, liballoc_lock. cbn [l_initialized with_enabled].
  destruct (Z.eqb_spec (l_initialized h) 0) as [E|E].
  - split; [|done]. destruct (inv_init _ _ _ Hi E) as (-> & Ec & Ef). pose proof Hi as [H0 [H1 H2] H3 H4 H5 _ H7].
    replace (MkHeap _ _ _ _ _ _ _) with (MkHeap (tags h) (l_freePages h) (l_completePages h) 1 (payload h) (pages h) false)
      by (rewrite Ec, Ef; done).
    split; try done. destruct H0 as [? ? ? [] ? ? ? ?]. done.
  - split; [|done]. destruct Hi as [H0 H1 H3 H4 H5 H6 H7]. split; try done. by apply inv0_enabled.
Qed.

Lemma kmalloc_spec h R fl fuel sz :
  inv h R fl -> 0 <= sz <= 1073741824 -> (length (mjoin R) < fuel)%nat ->
  exists p h' R' fl', kmalloc fuel sz h = Some (p, h') /\ inv h' R' fl' /\ schedulerEnabled h' = true /\
    ((p = 0 /\ R' = R /\ exists h1, allocate_new_tag sz (liballoc_init (liballoc_lock h)) = Some (0, h1)) \/
     (p <> 0 /\ blocks (mjoin R') ≡ₚ (p, sz) :: blocks (mjoin R))).
Proof.
  intros Hi0 Hz Hf. destruct (init_inv _ _ _ Hi0) as [Hi Hinit]. unfold kmalloc.
  set (h0 := liballoc_init (liballoc_lock h)) in *. pose proof (inv_0 _ _ _ Hi) as Hi1.
  set (ix := if getexp sz <? MINEXP then MINEXP else getexp sz).
  assert (8 <= ix < 32) as Hix.
  { pose proof (getexp_range sz ltac:(lia)). unfold ix, MINEXP. case_if; lia. }
  rewrite at_index_ok, (fl_head _ _ (i_lists _ _ _ Hi1)) by lia. simpl.
  destruct (find_tag_spec h0 sz fuel (fl ix) 0) as (a & -> & Ha);
    [apply (i_lists _ _ _ Hi1); lia|intros b Hb; by apply (fl_range _ _ (i_lists _ _ _ Hi1) ix)|
     pose proof (fl_length _ _ _ ix Hi1); lia|]. simpl.
  destruct (Z.eqb_spec a 0) as [->|Hne].
  - destruct (allocate_new_tag_spec h0 R fl sz Hi1 Hz) as (a & h1 & En & Hk & Hcase). rewrite En. simpl.
    injection Hk as Ek1 Ek2 Ek3. destruct Hi as [_ Hcnt Hmax Hcoal Hset _ Hacc]. destruct Hcase as [(-> & Hi2 & Ha2)|(Hane & n & Hn & Hi2 & Ha2)].
    + simpl. exists 0, (liballoc_unlock h1), R, fl. split; [done|]. split; [|split; [done|left; split; [done|split; [done|by exists h1]]]].
      split; try done; simpl; rewrite ?Ek1, ?Ek2; try done; [by apply inv0_enabled|by apply Ha2].
    + rewrite (proj2 (Z.eqb_neq a 0)) by done. fold (finish a sz h1).
      destruct (finish_spec h1 [] (Seg a n Limbo) [] R fl sz) as (h2 & mid & fl2 & E2 & Hi3 & Hb & Hen); try done; [|lia|].
      { split; rewrite ?Ek1, ?Ek2; try done. rewrite regions_cons. unfold region_of at 1. simpl. rewrite Z.add_0_r. by apply Ha2. }
      simpl in E2. rewrite E2. exists (a + 32), h2, (([] ++ mid ++ []) :: R), fl2. split; [done|]. split; [done|]. split; [done|]. right.
      split.
      * destruct (i_region _ _ _ Hi2 _ ltac:(left)) as [_ [? _] _ _]. simpl in *. lia.
      * rewrite blocks_split, Hb. done.
  - destruct Ha as [->|(Ha & t & Et & Hroom)]; [done|].
    apply (i_free _ _ _ Hi1) in Ha as (s & Hs & <- & Hu & Hbk).
    destruct (inv_focus _ _ _ _ Hi Hs) as (l1 & l2 & R' & HR & Hi2).
    destruct (take_hold h0 R' fl l1 s l2 Hi2 Hinit Hu) as (h1 & fl1 & E1 & Hh & _ & Hhd).
    rewrite Hbk in E1. rewrite E1. simpl. rewrite (proj2 (Z.eqb_neq (sa s) 0)) by done. fold (finish (sa s) sz h1).
    destruct (inv0_seg _ _ _ _ Hi1 Hs) as (Hfit%fits_min & Hs0 & Hsb).
    destruct (deref_seg _ _ _ _ _ _ (inv_0 _ _ _ Hi2)) as (t' & Et' & Er & _).
    rewrite Et in Et'. injection Et' as <-. rewrite Er in Hroom. unfold TAG in Hroom.
    rewrite !u32_small in Hroom by (unfold is_u32; lia).
    destruct (finish_spec h1 l1 (Seg (sa s) (slen s) Limbo) l2 R' fl1 sz) as (h2 & mid & fl2 & E2 & Hi3 & Hb & Hen);
      try done; simpl; try lia.
    simpl in E2. rewrite E2. exists (sa s + 32), h2, ((l1 ++ mid ++ l2) :: R'), fl2. split; [done|]. split; [done|].
    split; [done|]. right. split; [lia|]. rewrite blocks_split, Hb. simpl. f_equiv.
    rewrite HR. change (s :: l2) with ([s] ++ l2). rewrite blocks_split. unfold blocks at 2. simpl. unfold block_of. by rewrite Hu.
Qed.

(** ** kfree *)

(** A used segment taken in hand. *)
Lemma hold_used h R fl l1 s l2 z :
  inv h ((l1 ++ s :: l2) :: R) fl -> suse s = Used z -> held h l1 (Seg (sa s) (slen s) Limbo) l2 R fl.
Proof.
  intros Hi Hu. pose proof (inv_0 _ _ _ Hi) as Hi0.
  destruct (inv0_chain_at _ _ _ _ _ _ Hi0) as (c & Hc & (H1 & H2 & H3 & H4 & H5) & _). rewrite Hu in H5.
  assert (s ∈ mjoin ((l1 ++ s :: l2) :: R)) as Hin by (change (s :: l2) with ([s] ++ l2); apply elem_of_split; left; left).
  assert (forall i, count i ((l1 ++ s :: l2) :: R) = count i R) as Ecnt.
  { intros i. simpl. assert (is_complete i (l1 ++ s :: l2) = false) as ->; [|done].
    destruct (decide (l1 = [] /\ l2 = [])) as [[-> ->]|Hne]; [apply is_complete_not_free; congruence|by apply is_complete_many]. }
  destruct (inv_counts _ _ _ Hi) as [Hlen Hcnt].
  pose proof (inv_coalesced _ _ _ Hi _ ltac:(left)) as (Q1 & Q2 & _)%coalesced_app.
  split; try done.
  - eapply (change_one h h R l1 s l2 fl fl Limbo c); try done.
    + destruct (inv0_seg _ _ _ _ Hi0 Hin) as [?%fits_min _]. done.
    + intros b. case_decide; [by subst|done].
    + unfold seg_ok. simpl. split_and!; try done. tauto.
    + apply Hi0.
    + intros a i. rewrite (i_free _ _ _ Hi0). change (s :: l2) with ([s] ++ l2).
      rewrite free_in_split, free_in_cons, free_in_nil, Hu. split.
      * intros [[(_ & ? & _)|[]]|?]; [done|by right].
      * intros [(? & _)|?]; [done|by right].
    + intros _. apply (i_links _ _ _ Hi0); [done|congruence].
  - split; [done|]. intros i Hr. by rewrite Hcnt, Ecnt.
  - intros i. rewrite <- Ecnt. apply Hi.
  - intros r Hr. apply (inv_coalesced _ _ _ Hi). by right.
  - intros s' Hs. apply (inv_settled _ _ _ Hi). change (s :: l2) with ([s] ++ l2). apply elem_of_split. by right.
  - intros E. by destruct (inv_init _ _ _ Hi E).
  - rewrite regions_cons, (region_of_one l1 _ s l2) by done. apply Hi.
Qed.

(** Merging keeps everything else of the held state. *)
Lemma held_merge h h' l1 s l2 l1' s' l2' R fl fl' :
  held h l1 s l2 R fl -> inv0 h' ((l1' ++ s' :: l2') :: R) fl' -> suse s' = Limbo -> rest h' = rest h ->
  coalesced l1' -> coalesced l2' -> (forall x, x ∈ l1' -> x ∈ l1) -> (forall x, x ∈ l2' -> x ∈ l2) ->
  region_of (l1' ++ s' :: l2') = region_of (l1 ++ s :: l2) ->
  held h' l1' s' l2' R fl'.
Proof.
  intros [_ _ H3 H4 H5 _ H7 H8 H9] Hi Hs Hr Q1 Q2 Q3 Q4 Hreg.
  assert (l_completePages h' = l_completePages h /\ l_initialized h' = l_initialized h) as [Ec Ei]
    by (unfold rest in Hr; split; congruence).
  split; rewrite ?Ec, ?Ei; try done.
  - intros x Hx. apply H7. unfold others in *. rewrite !elem_of_app in *. destruct Hx as [?|[?|?]]; auto.
  - replace (pages h') with (pages h) by (unfold rest in Hr; congruence). by rewrite regions_cons, Hreg.
Qed.

Lemma index_not_free h R fl l1 s l2 :
  inv0 h ((l1 ++ s :: l2) :: R) fl -> suse s <> Free ->
  exists t, deref h (sa s) = Some t /\ index t = -1.
Proof.
  intros Hi Hn. destruct (deref_seg _ _ _ _ _ _ Hi) as (t & Et & _ & _ & _ & _ & Hx). exists t. split; [done|].
  destruct (suse s); [done|tauto|done].
Qed.

Lemma melt_left_stop fuel h l1 s l2 R fl :
  held h l1 s l2 R fl -> last_not_free l1 -> (0 < fuel)%nat -> melt_left_loop fuel (sa s) h = Some (sa s, h).
Proof.
  intros Hh Hl Hf. destruct fuel as [|fuel]; [lia|]. cbn [melt_left_loop]. pose proof (hd_inv _ _ _ _ _ _ Hh) as Hi.
  destruct (deref_seg _ _ _ _ _ _ Hi) as (t & -> & _ & El & _). simpl. rewrite El.
  destruct l1 as [|u l1 _] using rev_ind; [done|]. unfold last_addr. rewrite last_snoc.
  rewrite <- app_assoc in Hi. simpl in Hi.
  destruct (index_not_free _ _ _ _ _ _ Hi) as (tu & Eu & Ei); [apply Hl; by rewrite last_snoc|].
  rewrite Eu. simpl. rewrite Ei. by case_if.
Qed.

Lemma melt_left_loop_spec fuel h l1 s l2 R fl :
  held h l1 s l2 R fl -> (2 <= fuel)%nat ->
  exists h' l1' s' fl', melt_left_loop fuel (sa s) h = Some (sa s', h') /\ held h' l1' s' l2 R fl' /\
    last_not_free l1' /\ blocks l1' = blocks l1 /\ schedulerEnabled h' = schedulerEnabled h.
Proof.
  intros Hh Hf. destruct l1 as [|u l1' _] using rev_ind.
  { exists h, [], s, fl. split; [eapply melt_left_stop; [done|done|lia]|done]. }
  destruct (decide (suse u = Free)) as [Hu|Hu].
  2: { exists h, (l1' ++ [u]), s, fl.
       assert (last_not_free (l1' ++ [u])) by (intros x; rewrite last_snoc; by intros [= <-]).
       split; [eapply melt_left_stop; [done|done|lia]|done]. }
  destruct fuel as [|fuel]; [lia|]. cbn [melt_left_loop]. pose proof (hd_inv _ _ _ _ _ _ Hh) as Hi.
  destruct (deref_seg _ _ _ _ _ _ Hi) as (t & -> & _ & El & _). simpl. rewrite El. unfold last_addr. rewrite last_snoc.
  rewrite <- app_assoc in Hi. simpl in Hi.
  destruct (deref_seg _ _ _ _ _ _ Hi) as (tu & Eu & _ & _ & _ & _ & Eix). rewrite Hu in Eix.
  assert (u ∈ mjoin ((l1' ++ u :: s :: l2) :: R)) as Hin by (change (u :: s :: l2) with ([u] ++ s :: l2); apply elem_of_split; left; left).
  destruct (inv0_seg _ _ _ _ Hi Hin) as (_ & ? & ?). pose proof (bucket_range (slen u) ltac:(lia)).
  rewrite (proj2 (Z.eqb_neq (sa u) 0)) by lia. rewrite Eu. simpl. rewrite Eix, Z.geb_leb, (proj2 (Z.leb_le _ _)) by lia.
  destruct (melt_left_spec _ _ _ _ _ _ _ Hi Hu (hd_limbo _ _ _ _ _ _ Hh)) as (h1 & h2 & fl' & -> & E2 & Hi2 & Rr).
  simpl. rewrite E2. simpl. set (s' := Seg (sa u) (slen u + slen s) Limbo) in *.
  destruct (hd_here _ _ _ _ _ _ Hh) as [(Q1 & _ & Q2)%coalesced_app Q3].
  assert (held h2 l1' s' l2 R fl') as Hh2.
  { eapply held_merge; try done; [intros x Hx; apply elem_of_app; by left|].
    rewrite <- app_assoc. apply (region_of_app l1' [s'] [u; s] l2); simpl; [done..|lia]. }
  assert (last_not_free l1') as Hl by (by apply Q2).
  exists h2, l1', s', fl'. split; [eapply (melt_left_stop fuel h2 l1' s'); [done|done|lia]|].
  split; [done|]. split; [done|]. split; [|unfold rest in Rr; congruence].
  rewrite blocks_app. unfold blocks at 3. simpl. unfold block_of. by rewrite Hu, app_nil_r.
Qed.

Lemma melt_right_stop fuel h l1 s l2 R fl :
  held h l1 s l2 R fl -> head_not_free l2 -> (0 < fuel)%nat -> melt_right_loop fuel (sa s) h = Some (sa s, h).
Proof.
  intros Hh Hl Hf. destruct fuel as [|fuel]; [lia|]. cbn [melt_right_loop]. pose proof (hd_inv _ _ _ _ _ _ Hh) as Hi.
  destruct (deref_seg _ _ _ _ _ _ Hi) as (t & -> & _ & _ & Er & _). simpl. rewrite Er.
  destruct l2 as [|u l2]; [done|]. simpl.
  assert (inv0 h (((l1 ++ [s]) ++ u :: l2) :: R) fl) as Hi' by (by rewrite <- app_assoc).
  destruct (index_not_free _ _ _ _ _ _ Hi') as (tu & Eu & Ei); [by apply Hl|].
  rewrite Eu. simpl. rewrite Ei. by case_if.
Qed.

Lemma melt_right_loop_spec fuel h l1 s l2 R fl :
  held h l1 s l2 R fl -> (2 <= fuel)%nat ->
  exists h' s' l2' fl', melt_right_loop fuel (sa s) h = Some (sa s', h') /\ held h' l1 s' l2' R fl' /\
    head_not_free l2' /\ blocks l2' = blocks l2 /\ schedulerEnabled h' = schedulerEnabled h.
Proof.
  intros Hh Hf. destruct l2 as [|u l2].
  { exists h, s, [], fl. split; [eapply melt_right_stop; [done|done|lia]|done]. }
  destruct (decide (suse u = Free)) as [Hu|Hu].
  2: { exists h, s, (u :: l2), fl. assert (head_not_free (u :: l2)) by (intros x [= <-]; done).
       split; [eapply melt_right_stop; [done|done|lia]|done]. }
  destruct fuel as [|fuel]; [lia|]. cbn [melt_right_loop]. pose proof (hd_inv _ _ _ _ _ _ Hh) as Hi.
  destruct (deref_seg _ _ _ _ _ _ Hi) as (t & -> & _ & _ & Er & _). simpl in Er |- *. rewrite Er.
  assert (inv0 h (((l1 ++ [s]) ++ u :: l2) :: R) fl) as Hi' by (by rewrite <- app_assoc).
  destruct (deref_seg _ _ _ _ _ _ Hi') as (tu & Eu & _ & _ & _ & _ & Eix). rewrite Hu in Eix.
  assert (u ∈ mjoin (((l1 ++ [s]) ++ u :: l2) :: R)) as Hin by (change (u :: l2) with ([u] ++ l2); apply elem_of_split; left; left).
  destruct (inv0_seg _ _ _ _ Hi' Hin) as (_ & ? & ?). pose proof (bucket_range (slen u) ltac:(lia)).
  rewrite (proj2 (Z.eqb_neq (sa u) 0)) by lia. rewrite Eu. simpl. rewrite Eix, Z.geb_leb, (proj2 (Z.leb_le _ _)) by lia.
  destruct (absorb_right_spec _ _ _ _ _ _ _ Hi (hd_limbo _ _ _ _ _ _ Hh) Hu) as (h2 & fl' & E2 & Hi2 & Rr).
  rewrite E2. simpl. set (s' := Seg (sa s) (slen s + slen u) Limbo) in *.
  destruct (hd_here _ _ _ _ _ _ Hh) as [Q1 [Q2 Q3]%coalesced_cons].
  assert (held h2 l1 s' l2 R fl') as Hh2.
  { eapply held_merge; try done; [intros x Hx; by right|].
    apply (region_of_app l1 [s'] [s; u] l2); simpl; [done..|lia]. }
  exists h2, s', l2, fl'. split; [eapply (melt_right_stop fuel h2 l1 s'); [done|by apply Q2|lia]|].
  split; [done|]. split; [by apply Q2|]. split; [|unfold rest in Rr; congruence].
  unfold blocks at 2. simpl. unfold block_of. by rewrite Hu.
Qed.

(** *** Giving the segment back *)

Lemma tile_bytes l : forall a, tile a l -> bytes_of l = seqZ a (total l) /\ 0 <= total l.
Proof.
  induction l as [|s l IH]; intros a; simpl; [done|]. intros (E & Hf%fits_min & Ht).
  destruct (IH _ Ht) as [E' Hl]. split; [|lia]. change (bytes_of (s :: l)) with (seqZ (sa s) (slen s) ++ bytes_of l).
  rewrite E', E. symmetry. apply seqZ_app; lia.
Qed.

(** A whole region in hand is apart from the other regions. *)
Lemma region_apart h s R fl r :
  inv0 h ([s] :: R) fl -> r ∈ R ->
  head_or 0 r + total r <= sa s \/ sa s + slen s <= head_or 0 r.
Proof.
  intros Hi Hr. destruct (i_region _ _ _ Hi r ltac:(by right)) as [_ _ (Ht & _) Htile].
  destruct (i_region _ _ _ Hi [s] ltac:(left)) as [_ _ (Ht' & _) _]. simpl in Ht'.
  destruct (tile_bytes _ _ Htile) as [Eb _].
  pose proof (i_bytes _ _ _ Hi) as Hn. simpl in Hn.
  destruct (Z.le_gt_cases (head_or 0 r + total r) (sa s)); [by left|].
  destruct (Z.le_gt_cases (sa s + slen s) (head_or 0 r)); [by right|]. exfalso.
  set (x := Z.max (sa s) (head_or 0 r)).
  assert (x ∈ bytes_of r) as (s' & Hs & Hx)%elem_of_bytes by (rewrite Eb; apply elem_of_seqZ; unfold x; lia).
  apply (bytes_disjoint [] s (mjoin R) s' x Hn); [apply list_elem_of_join; eauto|unfold x; lia|done].
Qed.

Lemma inv0_release h s R fl :
  inv0 h ([s] :: R) fl -> suse s = Limbo -> inv0 (with_pages h (memory_free (pages h) (sa s) (slen s))) R fl.
Proof.
  intros Hi Hs. pose proof (i_owns _ _ _ Hi [s] ltac:(left)) as Ho. simpl in Ho. rewrite Z.add_0_r in Ho.
  destruct (free_law (pages h) (sa s) (slen s) (i_pages _ _ _ Hi) Ho) as [Hp Hk].
  split; try done.
  - intros r Hr. apply (i_chain _ _ _ Hi). by right.
  - intros r Hr. apply (i_region _ _ _ Hi). by right.
  - pose proof (i_bytes _ _ _ Hi) as Hn. simpl in Hn. by apply NoDup_app in Hn as (_ & _ & ?).
  - by destruct (i_lists _ _ _ Hi).
  - intros a i. rewrite (i_free _ _ _ Hi). simpl. rewrite free_in_cons, Hs. naive_solver.
  - intros x Hx. apply (i_links _ _ _ Hi). simpl. by right.
  - intros r Hr. apply Hk; [apply (i_owns _ _ _ Hi); by right|]. by eapply region_apart.
Qed.

Lemma inv0_counts h R fl c : inv0 h R fl -> inv0 (with_complete h c) R fl.
Proof. intros [? ? ? [] ? ? ? ?]. split; done. Qed.

Definition give_back (tag : Z) (h : Heap S) : option (Heap S) :=
  t ← deref h tag;
  let idx := getexp (u32 (real_size t - TAG)) in
  let idx := if idx <? MINEXP then MINEXP else idx in
  if (split_left t =? 0) && (split_right t =? 0) then
    c ← at_index (l_completePages h) idx;
    if c =? MAXCOMPLETE then
      let pages := real_size t / l_pageSize in
      let pages := if negb (real_size t mod l_pageSize =? 0) then u32 (pages + 1) else pages in
      let pages := if pages <? l_pageCount then l_pageCount else pages in
      Some (liballoc_unlock (liballoc_free tag pages h))
    else
      h ← add_completePages idx 1 h;
      h ← insert_tag tag idx h;
      Some (liballoc_unlock h)
  else
    h ← insert_tag tag idx h;
    Some (liballoc_unlock h).

(** The region count that a whole free region adds to. *)
Lemma count_free i a n R : count i ([Seg a n Free] :: R) = (if decide (i = bucket n) then 1 else 0) + count i R.
Proof.
  simpl. unfold is_complete. destruct (Z.eqb_spec (bucket n) i), (decide (i = bucket n)); congruence.
Qed.

Lemma give_back_region h s R fl :
  held h [] s [] R fl ->
  exists h' R' fl', give_back (sa s) h = Some h' /\ inv h' R' fl' /\ schedulerEnabled h' = true /\
    blocks (mjoin R') = blocks (mjoin R).
Proof.
  intros Hh. pose proof (hd_inv _ _ _ _ _ _ Hh) as Hi. simpl in Hi.
  destruct (i_region _ _ _ Hi [s] ltac:(left)) as [_ [Hb1 Hb2] (Ht1 & Ht2 & Ht3) _]. simpl in *. rewrite Z.add_0_r in *.
  pose proof (bucket_range (slen s) ltac:(lia)) as Hbk. destruct (hd_counts _ _ _ _ _ _ Hh) as [Hlen Hcnt].
  destruct (deref_seg h R fl [] s [] Hi) as (t & Et & Er & El & Err & _). simpl in El, Err.
  unfold give_back. rewrite Et. simpl. rewrite El, Err, Er. simpl.
  rewrite (u32_small (slen s - TAG)) by (unfold is_u32, TAG; lia). fold (bucket (slen s)).
  rewrite at_index_ok, Hcnt by lia. simpl. destruct (Z.eqb_spec (count (bucket (slen s)) R) MAXCOMPLETE) as [E|E].
  - unfold l_pageSize, l_pageCount. rewrite Ht2. simpl.
    assert (16 <= slen s / 4096) by (apply Z.div_le_lower_bound; lia).
    rewrite (proj2 (Z.ltb_ge _ _)) by lia. unfold liballoc_free, PAGE_SIZE. change 0x1000 with 4096.
    replace (slen s / 4096 * 4096) with (slen s) by (pose proof (Z.div_mod (slen s) 4096); lia).
    rewrite u32_small by (unfold is_u32; lia). do 3 eexists. split; [done|]. split; [|done].
    pose proof (inv0_release _ _ _ _ Hi (hd_limbo _ _ _ _ _ _ Hh)) as Hi'. destruct Hh as [_ _ H3 H4 H5 _ H7 H8 H9].
    split; try done; [by apply inv0_enabled|]. rewrite regions_cons in H9. unfold region_of at 1 in H9. simpl in H9.
    rewrite Z.add_0_r in H9. by apply accounts_free.
  - unfold add_completePages. rewrite at_index_ok, Hcnt by lia. simpl.
    pose proof (hd_max _ _ _ _ _ _ Hh (bucket (slen s))) as Hmx. pose proof (count_nonneg (bucket (slen s)) R).
    unfold MAXCOMPLETE in *. rewrite s32_small by lia. set (h1 := with_complete h _).
    destruct (put_free h1 R fl [] s [] (inv0_counts _ _ _ _ Hi) (hd_limbo _ _ _ _ _ _ Hh)) as (h2 & fl2 & -> & Hi2 & Rr).
    simpl. exists (liballoc_unlock h2), ([Seg (sa s) (slen s) Free] :: R), fl2. split; [done|]. split; [|done]. destruct Hh as [_ _ H3 H4 H5 _ H7 H8 H9].
    assert (l_completePages h2 = l_completePages h1 /\ l_initialized h2 = l_initialized h) as [Ec Ei]
      by (unfold rest in Rr; split; [congruence|]; change (l_initialized h) with (l_initialized h1); congruence).
    split; try done.
    + apply inv0_enabled. exact Hi2.
    + cbn [l_completePages liballoc_unlock with_enabled]. rewrite Ec. unfold h1. cbn [l_completePages with_complete].
      rewrite length_insert. split; [done|]. intros i Hi'. cbn [app]. rewrite count_free.
      destruct (decide (i = bucket (slen s))) as [->|Hne].
      * rewrite list_lookup_insert_eq by lia. f_equal. lia.
      * rewrite list_lookup_insert_ne by lia. by rewrite Hcnt.
    + intros i. cbn [app]. rewrite count_free. specialize (H4 i). unfold MAXCOMPLETE in *. case_decide; subst; lia.
    + intros r [->|Hr]%elem_of_cons; [done|by apply H5].
    + intros x [->|Hx]%elem_of_cons; [done|]. apply H7. done.
    + simpl. rewrite Ei. by intros ?.
    + change (pages (liballoc_unlock h2)) with (pages h2). cbn [app]. replace (pages h2) with (pages h) by (change (pages h) with (pages h1); unfold rest in Rr; congruence).
      rewrite regions_cons in *. exact H9.
Qed.

Lemma give_back_split h l1 s l2 R fl :
  held h l1 s l2 R fl -> last_not_free l1 -> head_not_free l2 -> ~ (l1 = [] /\ l2 = []) ->
  exists h' R' fl', give_back (sa s) h = Some h' /\ inv h' R' fl' /\ schedulerEnabled h' = true /\
    blocks (mjoin R') ≡ₚ blocks (others l1 l2 R).
Proof.
  intros Hh Hl1 Hl2 Hne. pose proof (hd_inv _ _ _ _ _ _ Hh) as Hi.
  assert (s ∈ mjoin ((l1 ++ s :: l2) :: R)) as Hin by (change (s :: l2) with ([s] ++ l2); apply elem_of_split; left; left).
  destruct (inv0_seg _ _ _ _ Hi Hin) as (Hf%fits_min & Hs0 & Hsb).
  pose proof (bucket_range (slen s) ltac:(lia)) as Hbk.
  destruct (deref_seg _ _ _ _ _ _ Hi) as (t & Et & Er & El & Err & _).
  destruct (last_addr_zero _ _ _ _ _ _ Hi) as [Z1 Z2].
  unfold give_back. rewrite Et. simpl. rewrite El, Err, Er.
  assert ((last_addr 0 l1 =? 0) && (head_or 0 l2 =? 0) = false) as ->.
  { apply andb_false_iff. rewrite !Z.eqb_neq, Z1, Z2. destruct l1; [right|left]; naive_solver. }
  rewrite (u32_small (slen s - TAG)) by (unfold is_u32, TAG; lia). fold (bucket (slen s)).
  destruct (put_free _ _ _ _ _ _ Hi (hd_limbo _ _ _ _ _ _ Hh)) as (h2 & fl2 & -> & Hi2 & Rr). simpl.
  exists (liballoc_unlock h2), ((l1 ++ [Seg (sa s) (slen s) Free] ++ l2) :: R), fl2. split; [done|].
  split; [|split; [done|by rewrite blocks_split]]. destruct (hd_here _ _ _ _ _ _ Hh) as [Q1 Q2].
  eapply settle; [exact Hh|exact Hi2|done| | | |].
  - intros i. by apply is_complete_many.
  - apply coalesced_app. done.
  - intros x ->%list_elem_of_singleton. done.
  - by apply region_of_one.
Qed.

Lemma give_back_spec h l1 s l2 R fl :
  held h l1 s l2 R fl -> last_not_free l1 -> head_not_free l2 ->
  exists h' R' fl', give_back (sa s) h = Some h' /\ inv h' R' fl' /\ schedulerEnabled h' = true /\
    blocks (mjoin R') ≡ₚ blocks (others l1 l2 R).
Proof.
  intros Hh Hl1 Hl2. destruct (decide (l1 = [] /\ l2 = [])) as [[-> ->]|Hne]; [|by apply give_back_split with fl].
  destruct (give_back_region _ _ _ _ Hh) as (h' & R' & fl' & E & Hi & Hen & Hb).
  exists h', R', fl'. split_and!; try done. by rewrite Hb.
Qed.

Lemma held_enabled h l1 s l2 R fl b : held h l1 s l2 R fl -> held (with_enabled h b) l1 s l2 R fl.
Proof. intros [? ? ? ? ? ? ? ? ?]. split; try done. by apply inv0_enabled. Qed.

Lemma kfree_spec h R fl fuel p z :
  inv h R fl -> (p, z) ∈ blocks (mjoin R) -> (2 <= fuel)%nat ->
  exists h' R' fl', kfree fuel p h = Some h' /\ inv h' R' fl' /\ schedulerEnabled h' = true /\
    (p, z) :: blocks (mjoin R') ≡ₚ blocks (mjoin R).
Proof.
  intros Hi (s & z' & Hs & Hu & [= -> <-])%elem_of_blocks Hf.
  destruct (inv_focus _ _ _ _ Hi Hs) as (l1 & l2 & R' & HR & Hi').
  destruct (inv0_seg _ _ _ _ (inv_0 _ _ _ Hi) Hs) as (?%fits_min & Hs0 & Hsb).
  pose proof (held_enabled _ _ _ _ _ _ false (hold_used _ _ _ _ _ _ _ Hi' Hu)) as Hh.
  unfold kfree. rewrite (proj2 (Z.eqb_neq _ 0)) by lia.
  replace (u32 (sa s + 32 - TAG)) with (sa s) by (rewrite u32_small; [unfold TAG; lia|unfold is_u32, TAG; lia]).
  destruct (deref_seg _ _ _ _ _ _ (inv_0 _ _ _ Hi')) as (t & Et & _ & _ & _ & Em & _).
  assert (has_magic (liballoc_lock h) (sa s) = true) as -> by (unfold has_magic; change (deref (liballoc_lock h)) with (deref h); rewrite Et, Em; done).
  cbn [negb]. destruct (melt_left_loop_spec fuel (liballoc_lock h) _ _ _ _ _ Hh Hf) as (h1 & m1 & s1 & fl1 & E1 & Hh1 & Hl1 & B1 & _).
  cbn [sa] in E1. rewrite E1. cbn [mbind option_bind].
  destruct (melt_right_loop_spec fuel _ _ _ _ _ _ Hh1 Hf) as (h2 & s2 & m2 & fl2 & -> & Hh2 & Hl2 & B2 & _).
  cbn [mbind option_bind]. fold (give_back (sa s2) h2).
  destruct (give_back_spec _ _ _ _ _ _ Hh2 Hl1 Hl2) as (h3 & R3 & fl3 & E3 & Hi3 & Hen & B3).
  exists h3, R3, fl3. split; [exact E3|]. split; [done|]. split; [done|].
  rewrite B3, HR. change (s :: l2) with ([s] ++ l2). rewrite blocks_split.
  unfold others. rewrite !blocks_app, B1, B2. unfold blocks at 4. simpl. unfold block_of. rewrite Hu. done.
Qed.
End Spec.
End KmallocSpec.
