(* ===== verification/KmallocClient.v ===== *)
(** A client of the kernel heap: every sequence of kmalloc, kcalloc, krealloc and kfree calls
    runs to its end, keeps the live blocks apart, and keeps what the client stored in them. *)

From S2P Require Import Prelude PhysicalAllocator Kmalloc KmallocLists KmallocHeap KmallocSpec.

Module KmallocClient.
Import Kmalloc KmallocLists KmallocHeap KmallocSpec.

(** ** Fuel *)

Section Fuel.
Context {S : Type} `{KernelPages S}.
Implicit Types h : Heap S.

Lemma find_tag_fuel n : forall m h tag sz r, find_tag n h tag sz = Some r -> (n <= m)%nat -> find_tag m h tag sz = Some r.
Proof.
  induction n as [|n IH]; intros [|m] h tag sz r E Hm; simpl in *; try done; [lia|].
  case_if; [done|]. destruct (deref h tag); [|done]. simpl in *. case_if; [done|]. apply IH; [done|lia].
Qed.
Lemma melt_left_fuel n : forall m tag h r, melt_left_loop n tag h = Some r -> (n <= m)%nat -> melt_left_loop m tag h = Some r.
Proof.
  induction n as [|n IH]; intros [|m] tag h r E Hm; simpl in *; try done; [lia|].
  destruct (deref h tag) as [t|]; [|done]. simpl in *. case_if; [done|].
  destruct (deref h (split_left t)); [|done]. simpl in *. case_if; [|done].
  destruct (melt_left tag h) as [[tag' h']|]; [|done]. simpl in *.
  destruct (remove_tag tag' h'); [|done]. simpl in *. apply IH; [done|lia].
Qed.
Lemma melt_right_fuel n : forall m tag h r, melt_right_loop n tag h = Some r -> (n <= m)%nat -> melt_right_loop m tag h = Some r.
Proof.
  induction n as [|n IH]; intros [|m] tag h r E Hm; simpl in *; try done; [lia|].
  destruct (deref h tag) as [t|]; [|done]. simpl in *. case_if; [done|].
  destruct (deref h (split_right t)); [|done]. simpl in *. case_if; [|done].
  destruct (absorb_right tag h) as [[tag' h']|]; [|done]. simpl in *. apply IH; [done|lia].
Qed.
Lemma kmalloc_fuel n m sz h r : kmalloc n sz h = Some r -> (n <= m)%nat -> kmalloc m sz h = Some r.
Proof.
  unfold kmalloc. intros E Hm. set (ix := if getexp sz <? MINEXP then MINEXP else getexp sz) in *.
  set (h0 := liballoc_init _) in *. destruct (at_index (l_freePages h0) ix) as [hd|]; [|done]. cbn [mbind option_bind] in *.
  destruct (find_tag n h0 hd sz) as [tag|] eqn:F; [|done]. by rewrite (find_tag_fuel _ m _ _ _ _ F Hm).
Qed.
Lemma kfree_fuel n m p h r : kfree n p h = Some r -> (n <= m)%nat -> kfree m p h = Some r.
Proof.
  unfold kfree. intros E Hm. case_if; [done|]. case_if; [done|].
  destruct (melt_left_loop n _ _) as [[tag h1]|] eqn:F; [|done]. rewrite (melt_left_fuel _ m _ _ _ F Hm).
  cbn [mbind option_bind] in *. destruct (melt_right_loop n _ _) as [[tag' h2]|] eqn:G; [|done].
  by rewrite (melt_right_fuel _ m _ _ _ G Hm).
Qed.
Lemma krealloc_fuel n m p sz h r : krealloc n p sz h = Some r -> (n <= m)%nat -> krealloc m p sz h = Some r.
Proof.
  unfold krealloc. intros E Hm. case_if.
  - destruct (kfree n p h) eqn:F; [|done]. by rewrite (kfree_fuel _ m _ _ _ F Hm).
  - case_if; [by eapply kmalloc_fuel|]. destruct (deref _ _) as [t|]; [|done]. cbn [mbind option_bind] in *.
    destruct (kmalloc n sz _) as [[q h1]|] eqn:F; [|done]. rewrite (kmalloc_fuel _ m _ _ _ F Hm). cbn [mbind option_bind] in *.
    destruct (kfree n p _) eqn:G; [|done]. by rewrite (kfree_fuel _ m _ _ _ G Hm).
Qed.
End Fuel.

(** ** What the calls do to the callers' bytes *)

Section Payload.
Context {S : Type} `{KernelPages S}.
Implicit Types h : Heap S.

(** Takes a successful sequence of operations apart. *)
Ltac steps := repeat match goal with
  | E : mbind _ _ = Some _ |- _ => apply bind_Some in E as (? & ? & E)
  | E : (if ?b then _ else _) = Some _ |- _ => destruct b
  | E : Some _ = Some _ |- _ => injection E as E
  | p : (_ * _)%type |- _ => destruct p
  | E : None = Some _ |- _ => discriminate E
  end; simplify_eq.

Definition outside h := (payload h, pages h).

Lemma upd_outside a f h h' : upd a f h = Some h' -> outside h' = outside h.
Proof. unfold upd. intros E. steps. done. Qed.
Lemma upd_if_outside a f h h' : upd_if a f h = Some h' -> outside h' = outside h.
Proof. unfold upd_if. intros E. steps; [by eapply upd_outside|done]. Qed.
Lemma set_freePages_outside i v h h' : set_freePages i v h = Some h' -> outside h' = outside h.
Proof. unfold set_freePages. intros E. steps. done. Qed.
Lemma add_completePages_outside i v h h' : add_completePages i v h = Some h' -> outside h' = outside h.
Proof. unfold add_completePages. intros E. steps. done. Qed.

Ltac outs := repeat match goal with
  | E : upd _ _ _ = Some _ |- _ => apply upd_outside in E
  | E : upd_if _ _ _ = Some _ |- _ => apply upd_if_outside in E
  | E : set_freePages _ _ _ = Some _ |- _ => apply set_freePages_outside in E
  | E : add_completePages _ _ _ = Some _ |- _ => apply add_completePages_outside in E
  end; try congruence.

Lemma insert_tag_outside tag i h h' : insert_tag tag i h = Some h' -> outside h' = outside h.
Proof. unfold insert_tag. intros E. steps; outs. Qed.
Lemma remove_tag_outside tag h h' : remove_tag tag h = Some h' -> outside h' = outside h.
Proof. unfold remove_tag. intros E. steps; outs. Qed.
Lemma melt_left_outside tag h r : melt_left tag h = Some r -> outside r.2 = outside h.
Proof. unfold melt_left. intros E. steps; simpl; outs. Qed.
Lemma absorb_right_outside tag h r : absorb_right tag h = Some r -> outside r.2 = outside h.
Proof. unfold absorb_right. intros E. steps; simpl; outs. apply remove_tag_outside in H1. congruence. Qed.
Lemma split_tag_outside tag h r : split_tag tag h = Some r -> outside r.2 = outside h.
Proof.
  unfold split_tag. intros E. steps; simpl.
  match goal with E : insert_tag _ _ _ = Some _ |- _ => apply insert_tag_outside in E as -> end. outs.
  repeat match goal with E : outside _ = outside _ |- _ => rewrite E; clear E end. done.
Qed.
Lemma melt_left_loop_outside n : forall tag h r, melt_left_loop n tag h = Some r -> outside r.2 = outside h.
Proof.
  induction n as [|n IH]; intros tag h r E; simpl in E; [done|]. steps; try done.
  apply IH in E. apply remove_tag_outside in H3. apply melt_left_outside in H2. simpl in *. congruence.
Qed.
Lemma melt_right_loop_outside n : forall tag h r, melt_right_loop n tag h = Some r -> outside r.2 = outside h.
Proof.
  induction n as [|n IH]; intros tag h r E; simpl in E; [done|]. steps; try done.
  apply IH in E. apply absorb_right_outside in H2. simpl in *. congruence.
Qed.

Lemma kfree_payload n p h h' : kfree n p h = Some h' -> payload h' = payload h.
Proof.
  unfold kfree. intros E. destruct (p =? 0); [congruence|]. destruct (negb _); [by injection E as <-|].
  apply bind_Some in E as ([tag h1] & E1 & E). apply bind_Some in E as ([tag' h2] & E2 & E).
  apply melt_left_loop_outside in E1. apply melt_right_loop_outside in E2. simpl in *.
  assert (payload h2 = payload h) as <- by (unfold outside in *; simpl in *; congruence).
  apply bind_Some in E as (t & _ & E). destruct (_ && _).
  - apply bind_Some in E as (c & _ & E). destruct (c =? _); [by injection E as <-|].
    apply bind_Some in E as (h3 & E3%add_completePages_outside & E).
    apply bind_Some in E as (h4 & E4%insert_tag_outside & E). injection E as <-. simpl. unfold outside in *. congruence.
  - apply bind_Some in E as (h4 & E4%insert_tag_outside & E). injection E as <-. simpl. unfold outside in *. congruence.
Qed.

(** Only the bytes of freshly mapped pages change: they are zeroed. *)
Definition fresh_zeroed h h' : Prop :=
  payload h' = payload h \/
  exists n a s, 0 < n <= 2147483648 /\ n mod 4096 = 0 /\
    memory_allocate (pages h) n = Some (a, s) /\ a <> 0 /\ payload h' = zeroed (payload h) a n.

(** A new region asks the page services once, for whole pages. *)
Definition region_bytes (sz : Z) : Z := Z.max 16 ((sz + 32 + 4095) / 4096) * 4096.
Lemma region_bytes_range sz : 0 <= sz <= 1073741824 -> 0 < region_bytes sz <= 2147483648 /\ region_bytes sz mod 4096 = 0.
Proof. intros Hsz. unfold region_bytes. split; [|apply Z.mod_mul; lia]. clear -Hsz. zlia. Qed.

Lemma allocate_new_tag_pages sz h r :
  0 <= sz <= 1073741824 -> allocate_new_tag sz h = Some r ->
  memory_allocate (pages h) (region_bytes sz) = Some (r.1, pages r.2) /\
  payload r.2 = if r.1 =? 0 then payload h else zeroed (payload h) r.1 (region_bytes sz).
Proof.
  intros Hsz. unfold allocate_new_tag, l_pageSize, l_pageCount, TAG.
  rewrite (u32_small (sz + 32)) by (unfold is_u32; lia).
  set (k := if negb ((sz + 32) mod 4096 =? 0) then _ else _).
  assert (k = (sz + 32 + 4095) / 4096) as Ek.
  { unfold k. case_if; [rewrite u32_small by (unfold is_u32; zlia)|]; zlia. }
  set (n := if k <? 16 then _ else _). assert (n = Z.max 16 ((sz + 32 + 4095) / 4096)) as En by (unfold n; case_if; lia).
  assert (16 <= n <= 262146) as Hn by (rewrite En; clear -Hsz; zlia). unfold region_bytes. rewrite <- En. intros E.
  apply bind_Some in E as ([a h1] & E1 & E). unfold liballoc_alloc in E1.
  apply bind_Some in E1 as ([a' s] & E2 & E1). injection E1 as -> <-.
  unfold PAGE_SIZE in *. change 0x1000 with 4096 in *. rewrite u32_small in * by (unfold is_u32; lia).
  by destruct (Z.eqb_spec a 0) as [->|Ha]; simplify_eq; simpl; rewrite ?(proj2 (Z.eqb_neq a 0)) by done.
Qed.

Lemma allocate_new_tag_payload sz h r :
  0 <= sz <= 1073741824 -> allocate_new_tag sz h = Some r -> fresh_zeroed h r.2.
Proof.
  intros Hsz [E Hp]%allocate_new_tag_pages; [|done]. destruct (region_bytes_range sz Hsz) as [Hn Hm].
  destruct (Z.eqb_spec r.1 0) as [_|Ha]; [by left|right]. by exists (region_bytes sz), r.1, (pages r.2).
Qed.

Lemma finish_outside tag sz h r : finish tag sz h = Some r -> outside r.2 = outside h.
Proof.
  unfold finish. intros E. apply bind_Some in E as (h1 & E1%upd_outside & E). apply bind_Some in E as (t & _ & E).
  apply bind_Some in E as (h2 & E2 & E). injection E as <-. cbn [snd].
  change (outside (liballoc_unlock h2)) with (outside h2). rewrite <- E1.
  destruct (_ && _) in E2; [|by injection E2 as ->]. apply bind_Some in E2 as ([tag' h3] & E3%split_tag_outside & E2). injection E2 as <-. exact E3.
Qed.

Lemma liballoc_init_outside h : outside (liballoc_init h) = outside h.
Proof. unfold liballoc_init. by case_if. Qed.

(** kmalloc leaves the bytes and the page services alone, but for what a new region does. *)
Lemma kmalloc_outside n sz h p h' : kmalloc n sz h = Some (p, h') ->
  outside h' = outside h \/ exists h0 r, outside h0 = outside h /\ allocate_new_tag sz h0 = Some r /\ outside h' = outside r.2.
Proof.
  unfold kmalloc. pose proof (liballoc_init_outside (liballoc_lock h)) as E0. set (h0 := liballoc_init _) in *. intros E.
  change (outside (liballoc_lock h)) with (outside h) in E0.
  apply bind_Some in E as (hd & _ & E). apply bind_Some in E as (tag & _ & E).
  apply bind_Some in E as ([tag' h1] & E1 & E).
  assert (outside h' = outside h1) as ->.
  { destruct (tag' =? 0); [injection E as <- <-; done|]. fold (finish tag' sz h1) in E. by apply finish_outside in E. }
  destruct (tag =? 0); [right; by exists h0, (tag', h1)|]. left. rewrite <- E0.
  apply bind_Some in E1 as (h2 & E2%remove_tag_outside & E1). apply bind_Some in E1 as (t & _ & E1).
  apply bind_Some in E1 as (h3 & E3 & E1). injection E1 as <- <-.
  destruct (_ && _) in E3; [apply add_completePages_outside in E3|injection E3 as <-]; congruence.
Qed.

Lemma kmalloc_payload n sz h p h' : 0 <= sz <= 1073741824 -> kmalloc n sz h = Some (p, h') -> fresh_zeroed h h'.
Proof.
  intros Hsz [E|(h0 & r & E0 & Hr%allocate_new_tag_payload & E)]%kmalloc_outside; unfold outside, fresh_zeroed in *; [..|done].
  - left. congruence.
  - injection E0 as E1 E2. injection E as -> _. by rewrite <- E1, <- E2.
Qed.

(** What kmalloc does to the page services: nothing, or one allocation. *)
Lemma kmalloc_pages n sz h p h' : 0 <= sz <= 1073741824 -> kmalloc n sz h = Some (p, h') ->
  pages h' = pages h \/ exists a, memory_allocate (pages h) (region_bytes sz) = Some (a, pages h').
Proof.
  intros Hsz [E|(h0 & r & E0 & [E1 _]%allocate_new_tag_pages & E)]%kmalloc_outside;
    unfold outside in *; [left; congruence|right|done].
  injection E0 as _ <-. injection E as _ ->. by exists r.1.
Qed.
End Payload.

(** ** Block copies and fills *)

Lemma liballoc_memset_loop_spec k : forall m s c i x,
  0 <= s -> 0 <= i -> s + i + Z.of_nat k <= 4294967296 -> is_u32 x ->
  loadb (liballoc_memset_loop k m s c i) x = if (s + i <=? x) && (x <? s + i + Z.of_nat k) then u8 c else loadb m x.
Proof.
  induction k as [|k IH]; intros m s c i x Hs Hi Hk Hx; simpl; [zcases|]. rewrite IH by (done || lia).
  unfold loadb, storeb. rewrite !u32_small by (unfold is_u32 in *; lia). zcases. by rewrite u8_u8.
Qed.
Lemma liballoc_memset_spec m s c n x :
  0 <= s -> 0 <= n -> s + n <= 4294967296 -> is_u32 x ->
  loadb (liballoc_memset m s c n) x = if (s <=? x) && (x <? s + n) then u8 c else loadb m x.
Proof.
  intros. unfold liballoc_memset. rewrite liballoc_memset_loop_spec by (done || lia). by rewrite Z.add_0_r, Z2Nat.id by lia.
Qed.

(** The copy is right on disjoint ranges, whatever the alignment. *)
Lemma liballoc_memcpy_loop_spec k : forall m dst src n x,
  0 <= dst -> 0 <= src -> 0 <= n <= Z.of_nat k -> dst + n < 4294967296 -> src + n < 4294967296 ->
  dst + n <= src \/ src + n <= dst -> is_u32 x ->
  loadb (liballoc_memcpy_loop k m dst src n) x =
    if (dst <=? x) && (x <? dst + n) then loadb m (src + (x - dst)) else loadb m x.
Proof.
  induction k as [|k IH]; intros m dst src n x Hd Hs Hn Hdn Hsn Hdis Hx; simpl; [zcases|].
  destruct (Z.leb_spec 4 n); [|destruct (Z.ltb_spec 0 n); [|zcases]].
  - rewrite !u32_small by (unfold is_u32 in *; lia). rewrite IH by (done || lia).
    destruct (Z.leb_spec (dst + 4) x); simpl; [destruct (Z.ltb_spec x (dst + 4 + (n - 4))); simpl|].
    + rewrite store32_spec by (unfold is_u32 in *; lia). zcases; try (f_equal; lia).
    + rewrite store32_spec by (unfold is_u32 in *; lia). zcases.
    + rewrite store32_spec by (unfold is_u32 in *; lia). zcases. rewrite load32_bytes by lia. done.
  - rewrite !u32_small by (unfold is_u32 in *; lia). rewrite IH by (done || lia).
    assert (forall y, is_u32 y -> loadb (storeb m dst (loadb m src)) y = if y =? dst then loadb m src else loadb m y) as Hst.
    { intros y Hy. destruct (Z.eqb_spec y dst) as [->|Hne].
      - rewrite loadb_storeb_eq by done. apply u8_small, loadb_range.
      - apply loadb_storeb_ne. rewrite !u32_small by (unfold is_u32 in *; lia). done. }
    destruct (Z.leb_spec (dst + 1) x); simpl; [destruct (Z.ltb_spec x (dst + 1 + (n - 1))); simpl|];
      rewrite Hst by (unfold is_u32 in *; lia); zcases; f_equal; lia.
Qed.
Lemma liballoc_memcpy_spec m dst src n x :
  0 <= dst -> 0 <= src -> 0 <= n -> dst + n < 4294967296 -> src + n < 4294967296 ->
  dst + n <= src \/ src + n <= dst -> is_u32 x ->
  loadb (liballoc_memcpy m dst src n) x =
    if (dst <=? x) && (x <? dst + n) then loadb m (src + (x - dst)) else loadb m x.
Proof. intros. apply liballoc_memcpy_loop_spec; lia || done. Qed.

(** ** Live blocks *)

(** The bytes of the blocks, each with the tag in front of it. *)
Definition block_bytes (B : list (Z * Z)) : list Z := B ≫= (fun b => seqZ (b.1 - 32) (b.2 + 32)).
Definition apart (B : list (Z * Z)) : Prop := NoDup (block_bytes B).
Definition in_kernel (B : list (Z * Z)) : Prop := forall p z, (p, z) ∈ B -> 32 < p /\ 0 <= z /\ p + z <= 1073741824.

#[export] Instance apart_proper : Proper ((≡ₚ) ==> iff) apart.
Proof. intros B B' HB. unfold apart, block_bytes. by rewrite HB. Qed.

(** Two positions of the list hold blocks with no common byte. *)
Lemma apart_lookup B i j p z q w :
  apart B -> i <> j -> B !! i = Some (p, z) -> B !! j = Some (q, w) -> 0 <= z -> 0 <= w ->
  p + z <= q - 32 \/ q + w <= p - 32.
Proof.
  intros Ha Hij Hi Hj Hz Hw.
  destruct (Z.le_gt_cases (p + z) (q - 32)); [by left|]. destruct (Z.le_gt_cases (q + w) (p - 32)); [by right|].
  exfalso. apply delete_Permutation in Hi as HB. rewrite HB in Ha. unfold apart, block_bytes in Ha. simpl in Ha.
  apply NoDup_app in Ha as (_ & Hd & _). apply (Hd (Z.max (p - 32) (q - 32))); [apply elem_of_seqZ; lia|].
  apply list_elem_of_bind. exists (q, w). split; [apply elem_of_seqZ; simpl; lia|].
  destruct (decide (j < i)%nat).
  - apply list_elem_of_lookup_2 with j. by rewrite list_lookup_delete_lt.
  - apply list_elem_of_lookup_2 with (pred j). rewrite list_lookup_delete_ge by lia. by replace (Datatypes.S (pred j)) with j by lia.
Qed.

Section Client.
Context {S : Type} `{KernelPages S} `{!PageLaws S} `{!PageLedger S}.
Implicit Types h : Heap S.

(** The heap [h] carries the live blocks [B]. *)
Definition carries h (B : list (Z * Z)) : Prop := exists R fl, inv h R fl /\ blocks (mjoin R) ≡ₚ B.

#[export] Instance carries_proper : Proper (eq ==> (≡ₚ) ==> iff) carries.
Proof. intros h ? <- B B' HB. unfold carries. by setoid_rewrite HB. Qed.

Lemma blocks_apart l : (forall s, s ∈ l -> seg_fits s) -> NoDup (bytes_of l) -> apart (blocks l).
Proof.
  unfold apart. induction l as [|s l IH]; intros Hf Hn; [constructor|].
  change (bytes_of (s :: l)) with (seqZ (sa s) (slen s) ++ bytes_of l) in Hn. apply NoDup_app in Hn as (_ & Hd & Hn).
  specialize (IH (fun s Hs => Hf s (list_elem_of_further _ _ _ Hs)) Hn). unfold blocks. simpl.
  unfold block_of at 1. pose proof (Hf s ltac:(left)) as Hs. unfold seg_fits in Hs. destruct (suse s) as [|z|]; try done.
  unfold block_bytes. simpl. apply NoDup_app. split_and!; [apply NoDup_seqZ| |done].
  intros x Hx%elem_of_seqZ ((p & w) & Hw%elem_of_seqZ & (s' & z' & Hs' & Hu & [= -> ->])%elem_of_blocks)%list_elem_of_bind.
  simpl in *. pose proof (Hf s' ltac:(by right)) as Hf'. unfold seg_fits in Hf'. rewrite Hu in Hf'.
  apply (Hd x); [apply elem_of_seqZ; lia|]. apply elem_of_bytes. exists s'. split; [done|lia].
Qed.

Lemma carries_layout h B : carries h B -> apart B /\ in_kernel B.
Proof.
  intros (R & fl & Hi & HB). pose proof (inv_0 _ _ _ Hi) as Hi0. split.
  - rewrite <- HB. apply blocks_apart; [|apply Hi0]. intros s Hs. by destruct (inv0_seg _ _ _ _ Hi0 Hs).
  - intros p z Hp. rewrite <- HB in Hp. apply elem_of_blocks in Hp as (s & z' & Hs & Hu & [= -> ->]).
    destruct (inv0_seg _ _ _ _ Hi0 Hs) as (Hf & ? & ?). unfold seg_fits in Hf. rewrite Hu in Hf. lia.
Qed.

Lemma inv0_payload h R fl m : inv0 h R fl -> inv0 (with_payload h m) R fl.
Proof. intros [? ? ? [] ? ? ? ?]. split; done. Qed.
Lemma carries_payload h B m : carries h B -> carries (with_payload h m) B.
Proof.
  intros (R & fl & [? ? ? ? ? ? ?] & HB). exists R, fl. split; [|done]. split; try done. by apply inv0_payload.
Qed.
Lemma carries_enabled h B b : carries h B -> carries (with_enabled h b) B.
Proof.
  intros (R & fl & [? ? ? ? ? ? ?] & HB). exists R, fl. split; [|done]. split; try done. by apply inv0_enabled.
Qed.

(** The blocks of [B] hold the same bytes. *)
Definition same_bytes h h' (B : list (Z * Z)) : Prop :=
  forall p z k, (p, z) ∈ B -> 0 <= k < z -> loadb (payload h') (p + k) = loadb (payload h) (p + k).

Lemma fresh_zeroed_same h h' B : carries h B -> fresh_zeroed h h' -> same_bytes h h' B.
Proof.
  intros (R & fl & Hi & HB) Hz p z k Hp Hk. rewrite <- HB in Hp.
  apply elem_of_blocks in Hp as (s & z' & Hs & Hu & [= -> ->]). pose proof (inv_0 _ _ _ Hi) as Hi0.
  destruct Hz as [->|(n & a & s' & Hn & Hn' & E & Ha & ->)]; [done|].
  destruct (inv0_seg _ _ _ _ Hi0 Hs) as (Hf & ? & ?). unfold seg_fits in Hf. rewrite Hu in Hf.
  destruct (allocate_law (pages h) n) as (a' & s1 & E' & _ & _ & Hnew); [apply Hi0|lia|done|].
  rewrite E in E'. injection E' as <- <-. destruct (Hnew Ha) as (_ & _ & _ & _ & Hdis).
  apply list_elem_of_join in Hs as (r & Hs & Hr). specialize (Hdis _ _ (i_owns _ _ _ Hi0 r Hr)).
  destruct (i_region _ _ _ Hi0 r Hr) as [_ _ _ Ht]. destruct (tile_elem _ _ _ Ht Hs) as (_ & ? & ?).
  unfold loadb, zeroed. rewrite u32_small by (unfold is_u32; lia). zcases.
Qed.

Lemma kmalloc_step h B sz : carries h B -> 0 <= sz <= 1073741824 ->
  exists n p h', (forall fuel, (n <= fuel)%nat -> kmalloc fuel sz h = Some (p, h')) /\
    schedulerEnabled h' = true /\ same_bytes h h' B /\ carries h' (if p =? 0 then B else (p, sz) :: B).
Proof.
  intros Hc Hsz. pose proof Hc as (R & fl & Hi & HB). exists (Datatypes.S (length (mjoin R))).
  destruct (kmalloc_spec h R fl (Datatypes.S (length (mjoin R))) sz Hi Hsz ltac:(lia)) as (p & h' & R' & fl' & E & Hi' & Hen & Hr).
  exists p, h'. split_and!; [intros; by eapply kmalloc_fuel|done| |].
  - eapply fresh_zeroed_same; [done|]. by eapply kmalloc_payload.
  - exists R', fl'. split; [done|]. destruct Hr as [(-> & -> & _)|[Hp ->]]; [done|].
    rewrite (proj2 (Z.eqb_neq _ _)) by done. by rewrite HB.
Qed.

Lemma kfree_step h B p z : carries h ((p, z) :: B) ->
  exists h', (forall fuel, (2 <= fuel)%nat -> kfree fuel p h = Some h') /\
    schedulerEnabled h' = true /\ payload h' = payload h /\ carries h' B.
Proof.
  intros (R & fl & Hi & HB). destruct (kfree_spec h R fl 2 p z Hi) as (h' & R' & fl' & E & Hi' & Hen & Hr); [|lia|].
  { rewrite HB. left. }
  exists h'. split_and!; [intros; by eapply kfree_fuel|done|by eapply kfree_payload|].
  exists R', fl'. split; [done|]. rewrite HB in Hr. by apply Permutation_cons_inv in Hr.
Qed.

Lemma krealloc_step h B p z sz : carries h ((p, z) :: B) -> 0 < sz <= 1073741824 ->
  exists n q h', (forall fuel, (n <= fuel)%nat -> krealloc fuel p sz h = Some (q, h')) /\
    schedulerEnabled h' = true /\ carries h' (if q =? 0 then B else (q, sz) :: B) /\
    (q <> 0 -> same_bytes h h' B /\ forall k, 0 <= k < Z.min z sz -> loadb (payload h') (q + k) = loadb (payload h) (p + k)).
Proof.
  intros Hc Hsz. destruct (carries_layout _ _ Hc) as [Hap Hkn]. destruct (Hkn p z ltac:(left)) as (Hp & Hz & Hpz).
  assert (exists t, deref h (p - 32) = Some t /\ size t = z) as (t & Et & Es).
  { destruct Hc as (R & fl & Hi & HB). assert ((p, z) ∈ blocks (mjoin R)) as Hin by (rewrite HB; left).
    apply elem_of_blocks in Hin as (s & z' & Hs & Hu & [= -> ->]).
    destruct (inv_focus _ _ _ _ Hi Hs) as (l1 & l2 & R' & HR & Hi').
    destruct (deref_seg _ _ _ _ _ _ (inv_0 _ _ _ Hi')) as (t & Et & _ & _ & _ & _ & Hx). rewrite Hu in Hx.
    exists t. rewrite Z.add_simpl_r. naive_solver. }
  destruct (kmalloc_step (liballoc_unlock (liballoc_lock h)) ((p, z) :: B) sz) as (n & q & h1 & E1 & _ & Hsame & Hc1);
    [by apply carries_enabled, carries_enabled|lia|].
  set (h2 := with_payload h1 (liballoc_memcpy (payload h1) q p (if z >? sz then sz else z))).
  assert (carries h2 ((p, z) :: (if q =? 0 then B else (q, sz) :: B))) as Hc2.
  { apply carries_payload. case_if; [done|]. eapply carries_proper; [done|apply Permutation_swap|done]. }
  destruct (kfree_step h2 _ p z Hc2) as (h3 & E3 & Hen & Hpl & Hc3).
  exists (2 + n)%nat, q, h3. split_and!; [|done|done|].
  - intros fuel Hf. unfold krealloc. rewrite !(proj2 (Z.eqb_neq _ 0)) by lia. unfold TAG.
    rewrite u32_small by (unfold is_u32; lia). change (deref (liballoc_lock h)) with (deref h). rewrite Et.
    cbn [mbind option_bind]. rewrite E1 by lia. cbn [mbind option_bind]. rewrite Es. fold h2. rewrite E3 by lia. done.
  - intros Hq. rewrite (proj2 (Z.eqb_neq _ _)) in Hc1 by done. destruct (carries_layout _ _ Hc1) as [Hap1 Hkn1].
    destruct (Hkn1 q sz ltac:(left)) as (? & _ & ?).
    assert (forall i x w, B !! i = Some (x, w) -> 0 <= w -> x + w <= q - 32 \/ q + sz <= x - 32) as HB.
    { intros i x w Hi Hw. apply (apart_lookup _ (2 + i) 0 x w q sz Hap1); done || lia. }
    assert (p + z <= q - 32 \/ q + sz <= p - 32) as Hpq by (apply (apart_lookup _ 1 0 p z q sz Hap1); done || lia).
    assert (0 <= (if z >? sz then sz else z) <= Z.min z sz) as Hm by (case_if; lia).
    assert ((if z >? sz then sz else z) = Z.min z sz) as Hm' by (case_if; lia).
    unfold same_bytes in *. change (payload (liballoc_unlock (liballoc_lock h))) with (payload h) in Hsame.
    rewrite Hpl. cbn [payload h2 with_payload]. rewrite Hm' in *. split.
    + intros x w k Hx Hk. rewrite <- (Hsame x w k) by (done || by right). destruct (Hkn1 x w ltac:(right; by right)) as (? & ? & ?).
      apply list_elem_of_lookup_1 in Hx as (i & Hx). apply HB in Hx; [|lia].
      rewrite liballoc_memcpy_spec by (unfold is_u32; lia). zcases.
    + intros k Hk. rewrite <- (Hsame p z k) by (left || lia). rewrite liballoc_memcpy_spec by (unfold is_u32; lia).
      zcases. f_equal. lia.
Qed.

Lemma kcalloc_step h B n sz : carries h B -> 0 <= n -> 0 <= sz -> n * sz <= 1073741824 ->
  exists m p h', (forall fuel, (m <= fuel)%nat -> kcalloc fuel n sz h = Some (p, h')) /\
    schedulerEnabled h' = true /\ carries h' (if p =? 0 then B else (p, n * sz) :: B) /\
    (p <> 0 -> same_bytes h h' B /\ forall k, 0 <= k < n * sz -> loadb (payload h') (p + k) = 0).
Proof.
  intros Hc Hn Hsz Hm. destruct (kmalloc_step h B (n * sz) Hc ltac:(nia)) as (m & p & h1 & E & Hen & Hs & Hc1).
  exists m, p, (with_payload h1 (liballoc_memset (payload h1) p 0 (n * sz))). split_and!; [|done|by apply carries_payload|].
  - intros fuel Hf. unfold kcalloc. rewrite u32_small by (unfold is_u32; nia). by rewrite E.
  - intros Hp. rewrite (proj2 (Z.eqb_neq _ _)) in Hc1 by done. destruct (carries_layout _ _ Hc1) as [Hap Hkn].
    destruct (Hkn p (n * sz) ltac:(left)) as (? & ? & ?). unfold same_bytes in *. cbn [payload with_payload]. split.
    + intros x w k Hx Hk. rewrite <- (Hs x w k) by done. destruct (Hkn x w ltac:(by right)) as (? & ? & ?).
      apply list_elem_of_lookup_1 in Hx as (i & Hx).
      destruct (apart_lookup _ (Datatypes.S i) 0 x w p (n * sz) Hap) as [Hd|Hd]; try done; rewrite liballoc_memset_spec by (unfold is_u32; lia); zcases.
    + intros k Hk. rewrite liballoc_memset_spec by (unfold is_u32; lia). zcases.
Qed.

(** ** Programs *)

(** A client's calls; it names its live blocks by their position in its list, newest first, and
    passes NULL for a position that is not there. *)
Inductive call := Kmalloc (sz : Z) | Kcalloc (n sz : Z) | Krealloc (i : nat) (sz : Z) | Kfree (i : nat).

Definition fair (c : call) : Prop :=
  match c with
  | Kmalloc sz => 0 <= sz <= 1073741824
  | Kcalloc n sz => 0 <= n /\ 0 <= sz /\ n * sz <= 1073741824
  | Krealloc _ sz => 0 <= sz <= 1073741824
  | Kfree _ => True
  end.

Definition grant (p sz : Z) (B : list (Z * Z)) : list (Z * Z) := if p =? 0 then B else (p, sz) :: B.
Definition ptr_of (B : list (Z * Z)) (i : nat) : Z := default 0 (fst <$> B !! i).

Definition exec (fuel : nat) (c : call) (st : list (Z * Z) * Heap S) : option (list (Z * Z) * Heap S) :=
  let '(B, h) := st in
  match c with
  | Kmalloc sz => '(p, h) ← kmalloc fuel sz h; Some (grant p sz B, h)
  | Kcalloc n sz => '(p, h) ← kcalloc fuel n sz h; Some (grant p (n * sz) B, h)
  | Krealloc i sz => '(p, h) ← krealloc fuel (ptr_of B i) sz h; Some (grant p sz (delete i B), h)
  | Kfree i => h ← kfree fuel (ptr_of B i) h; Some (delete i B, h)
  end.

Fixpoint run (fuel : nat) (cs : list call) (st : list (Z * Z) * Heap S) : option (list (Z * Z) * Heap S) :=
  match cs with
  | [] => Some st
  | c :: cs => st ← exec fuel c st; run fuel cs st
  end.

Lemma exec_fuel n m c st r : exec n c st = Some r -> (n <= m)%nat -> exec m c st = Some r.
Proof.
  intros E Hm. destruct st as [B h], c as [sz|k sz|i sz|i]; simpl in *; apply bind_Some in E as (x & Ex & E).
  - by rewrite (kmalloc_fuel _ _ _ _ _ Ex Hm).
  - unfold kcalloc in *. apply bind_Some in Ex as (y & Ey & Ex). rewrite (kmalloc_fuel _ _ _ _ _ Ey Hm).
    cbn [mbind option_bind]. by rewrite Ex.
  - by rewrite (krealloc_fuel _ _ _ _ _ _ Ex Hm).
  - by rewrite (kfree_fuel _ _ _ _ _ Ex Hm).
Qed.
Lemma run_fuel n m cs : forall st r, run n cs st = Some r -> (n <= m)%nat -> run m cs st = Some r.
Proof.
  induction cs as [|c cs IH]; intros st r E Hm; [done|]. cbn [run] in *. apply bind_Some in E as (st' & E1 & E).
  rewrite (exec_fuel _ _ _ _ _ E1 Hm). by apply IH.
Qed.

Lemma delete_none (B : list (Z * Z)) i : B !! i = None -> delete i B = B.
Proof.
  revert i; induction B as [|b B IH]; intros [|i] Hi; try done. simpl in Hi. cbn. f_equal. by apply IH.
Qed.
Lemma carries_at h B i p z : carries h B -> B !! i = Some (p, z) -> carries h ((p, z) :: delete i B).
Proof. intros Hc Hi. eapply carries_proper; [done| |exact Hc]. symmetry. by apply delete_Permutation. Qed.

Lemma exec_step c h B : carries h B -> fair c -> exists n B' h',
  (forall fuel, (n <= fuel)%nat -> exec fuel c (B, h) = Some (B', h')) /\ carries h' B'.
Proof.
  intros Hc Hf. destruct c as [sz|n sz|i sz|i]; simpl in *.
  - destruct (kmalloc_step h B sz Hc Hf) as (m & p & h' & E & _ & _ & Hc'). exists m, (grant p sz B), h'. split; [|done].
    intros fuel Hfu. by rewrite E.
  - destruct Hf as (? & ? & ?). destruct (kcalloc_step h B n sz Hc) as (m & p & h' & E & _ & Hc' & _); [done..|].
    exists m, (grant p (n * sz) B), h'. split; [|done]. intros fuel Hfu. by rewrite E.
  - unfold ptr_of. destruct (B !! i) as [[p z]|] eqn:Hi; simpl.
    + pose proof (carries_at _ _ _ _ _ Hc Hi) as Hc1. destruct (Z.eq_dec sz 0) as [->|Hsz].
      * destruct (kfree_step h _ p z Hc1) as (h' & E & _ & _ & Hc'). exists 2%nat, (delete i B), h'. split; [|done].
        intros fuel Hfu. unfold krealloc. rewrite Z.eqb_refl, E by done. done.
      * destruct (krealloc_step h _ p z sz Hc1 ltac:(lia)) as (m & q & h' & E & _ & Hc' & _).
        exists m, (grant q sz (delete i B)), h'. split; [|done]. intros fuel Hfu. by rewrite E.
    + rewrite (delete_none _ _ Hi). destruct (Z.eq_dec sz 0) as [->|Hsz].
      * exists 0%nat, B, h. split; [|done]. intros fuel _. done.
      * destruct (kmalloc_step h B sz Hc Hf) as (m & p & h' & E & _ & _ & Hc'). exists m, (grant p sz B), h'. split; [|done].
        intros fuel Hfu. unfold krealloc. rewrite (proj2 (Z.eqb_neq sz 0)), Z.eqb_refl by done. by rewrite E.
  - unfold ptr_of. destruct (B !! i) as [[p z]|] eqn:Hi; simpl.
    + destruct (kfree_step h _ p z (carries_at _ _ _ _ _ Hc Hi)) as (h' & E & _ & _ & Hc').
      exists 2%nat, (delete i B), h'. split; [|done]. intros fuel Hfu. by rewrite E.
    + rewrite (delete_none _ _ Hi). exists 0%nat, B, h. split; [|done]. intros fuel _. done.
Qed.

Lemma run_steps cs : forall h B, carries h B -> Forall fair cs -> exists n B' h',
  (forall fuel, (n <= fuel)%nat -> run fuel cs (B, h) = Some (B', h')) /\ carries h' B'.
Proof.
  induction cs as [|c cs IH]; intros h B Hc Hf; [by exists 0%nat, B, h|]. inversion_clear Hf as [|? ? Hf1 Hf2].
  destruct (exec_step c h B Hc Hf1) as (n & B1 & h1 & E1 & Hc1). destruct (IH h1 B1 Hc1 Hf2) as (m & B2 & h2 & E2 & Hc2).
  exists (n + m)%nat, B2, h2. split; [|done]. intros fuel Hfu. cbn [run]. rewrite E1 by lia. cbn [mbind option_bind]. apply E2. lia.
Qed.

(** Before the first call: no tag written, the static arrays zero. *)
Definition boot (s : S) : Heap S := MkHeap ∅ (replicate 32 0) (replicate 32 0) 0 (fun _ => 0) s true.

Lemma boot_carries_on s : pages_inv s -> accounts s [] -> carries (boot s) [].
Proof.
  intros Hp Hacc. exists [], (fun _ => []). split; [|done]. split; try done.
  - split; try done.
    + intros r Hr. by apply not_elem_of_nil in Hr.
    + intros r Hr. by apply not_elem_of_nil in Hr.
    + constructor.
    + split; try done.
      * intros i Hi. change (replicate 32 0 !! Z.to_nat i = Some 0). apply lookup_replicate_2. lia.
      * intros i. constructor.
      * intros i j a Ha. by apply not_elem_of_nil in Ha.
      * intros i a Ha. by apply not_elem_of_nil in Ha.
    + intros a i. rewrite free_in_nil. split; [|done]. by intros ?%not_elem_of_nil.
    + intros s' Hs. by apply not_elem_of_nil in Hs.
    + intros r Hr. by apply not_elem_of_nil in Hr.
  - split; [done|]. intros i Hi. change (replicate 32 0 !! Z.to_nat i = Some 0). apply lookup_replicate_2. lia.
  - intros r Hr. by apply not_elem_of_nil in Hr.
  - intros s' Hs. by apply not_elem_of_nil in Hs.
Qed.

(** When the page services have a region, kmalloc finds a block. *)
Lemma kmalloc_room h B sz a s' : carries h B -> 0 <= sz <= 1073741824 ->
  memory_allocate (pages h) (region_bytes sz) = Some (a, s') -> a <> 0 ->
  exists n p h', (forall fuel, (n <= fuel)%nat -> kmalloc fuel sz h = Some (p, h')) /\ p <> 0 /\ carries h' ((p, sz) :: B).
Proof.
  intros Hc Hsz Ea Ha. pose proof Hc as (R & fl & Hi & HB).
  destruct (kmalloc_step h B sz Hc Hsz) as (n & p & h' & E & _ & _ & Hc'). exists n, p, h'. split; [done|].
  destruct (Z.eqb_spec p 0) as [->|Hp]; [|done]. exfalso.
  destruct (kmalloc_spec h R fl (Datatypes.S (length (mjoin R))) sz Hi Hsz ltac:(lia)) as (p' & h2 & R' & fl' & E' & _ & _ & Hr).
  set (k := Nat.max n (Datatypes.S (length (mjoin R)))).
  assert (kmalloc k sz h = Some (p', h2)) as Ek by (eapply kmalloc_fuel; [exact E'|unfold k; lia]).
  rewrite E in Ek by (unfold k; lia). injection Ek as <- <-.
  destruct Hr as [(_ & _ & h1 & [E1 _]%allocate_new_tag_pages)|[? _]]; [|done..].
  pose proof (liballoc_init_outside (liballoc_lock h)) as Eo. unfold outside in Eo. injection Eo as _ Eo.
  rewrite Eo in E1. change (pages (liballoc_lock h)) with (pages h) in E1. rewrite Ea in E1. by injection E1 as ->.
Qed.

(** With no live block, every region is one free segment. *)
Lemma coalesced_free l : l <> [] -> coalesced l -> (forall s, s ∈ l -> suse s = Free) -> exists s, l = [s].
Proof.
  destruct l as [|s1 [|s2 l]]; intros Hne Hc Hf; [done|by exists s1|]. destruct Hc as [Hc _].
  exfalso. apply Hc. split; apply Hf; [left|right; left].
Qed.
Lemma no_blocks_free h R fl : inv h R fl -> blocks (mjoin R) = [] -> forall s, s ∈ mjoin R -> suse s = Free.
Proof.
  intros Hi Hb s Hs. destruct (suse s) as [|z|] eqn:Hu; [done| |].
  - exfalso. assert ((sa s + 32, z) ∈ blocks (mjoin R)) as Hin by (apply elem_of_blocks; eauto).
    rewrite Hb in Hin. by apply not_elem_of_nil in Hin.
  - by destruct (inv_settled _ _ _ Hi s Hs).
Qed.
End Client.

Section Boot.
Context {S : Type} `{KernelPages S} `{!PageLaws S}.

Lemma boot_carries (s : S) : pages_inv s -> carries (boot s) [].
Proof. intros Hp. by apply boot_carries_on. Qed.

(** The first call takes one region of sixteen pages and cuts the block off its start. *)
Lemma kmalloc_boot (s s' : S) sz a : pages_inv s -> 0 <= sz <= 65504 -> memory_allocate s 65536 = Some (a, s') -> a <> 0 ->
  exists h', kmalloc 1 sz (boot s) = Some (a + 32, h') /\ pages h' = s'.
Proof.
  intros Hp Hz E Ha. destruct (boot_carries s Hp) as (R & fl & Hi & HB).
  assert (R = []) as ->. { apply (inv_init _ _ _ Hi). done. }
  destruct (init_inv _ _ _ Hi) as [Hi0 Hinit]. unfold kmalloc. set (h0 := liballoc_init (liballoc_lock (boot s))) in *.
  set (ix := if getexp sz <? MINEXP then MINEXP else getexp sz).
  assert (8 <= ix < 32) as Hix.
  { pose proof (getexp_range sz ltac:(lia)). unfold ix, MINEXP. case_if; lia. }
  rewrite at_index_ok by lia. change (l_freePages h0) with (replicate 32 0). rewrite lookup_replicate_2 by lia. cbn [default mbind option_bind].
  change (find_tag 1 h0 0 sz) with (Some 0). cbn [mbind option_bind]. rewrite Z.eqb_refl.
  destruct (allocate_new_tag_spec h0 [] fl sz (inv_0 _ _ _ Hi0) ltac:(lia)) as (b & h1 & E1 & Hk & Hcase).
  assert (b = a /\ pages h1 = s') as [-> Hpg].
  { revert E1. unfold allocate_new_tag, liballoc_alloc, l_pageSize, l_pageCount, TAG, PAGE_SIZE. change 0x1000 with 4096.
    rewrite (u32_small (sz + 32)) by (unfold is_u32; lia).
    set (k := if negb ((sz + 32) mod 4096 =? 0) then _ else _).
    assert (k = (sz + 32 + 4095) / 4096) as Ek.
    { unfold k. case_if; [rewrite u32_small by (unfold is_u32; zlia)|]; zlia. }
    assert ((if k <? 16 then 16 else k) = 16) as -> by (case_if; zlia).
    change (pages h0) with s. change (u32 (16 * 4096)) with 65536. rewrite E. cbn [mbind option_bind].
    rewrite (proj2 (Z.eqb_neq a 0)) by done. intros [= <- <-]. done. }
  rewrite E1. cbn [mbind option_bind]. rewrite (proj2 (Z.eqb_neq a 0)) by done. fold (finish a sz h1).
  destruct Hcase as [[? _]|(_ & n & Hn & Hi2 & Ha2)]; [done|]. injection Hk as Ek1 Ek2 Ek3. destruct Hi0 as [_ Hcnt Hmax Hcoal Hset _ Hacc].
  destruct (finish_spec h1 [] (Seg a n Limbo) [] [] fl sz) as (h2 & mid & fl2 & E2 & _); try done; [|lia|].
  { split; rewrite ?Ek1, ?Ek2; done. }
  exists h2. split; [exact E2|]. apply finish_outside in E2. unfold outside in E2. cbn [snd] in E2. by injection E2 as _ ->.
Qed.
End Boot.
End KmallocClient.
