(* ===== verification/KernelHeap.v ===== *)
(** The kernel heap on the memory manager: MemoryManager::memoryAllocate and memoryFree on the
    kernel's page directory provide the pages kmalloc relies on, and the theorems about the
    kernel heap. *)

From S2P Require Import Prelude PhysicalAllocator VirtualMemory MemoryManager.
From S2P Require Import Kmalloc KmallocLists KmallocHeap KmallocSpec KmallocClient.

Module KernelHeap.
Import PhysicalAllocator VirtualMemory MemoryManager.
Import Kmalloc KmallocLists KmallocHeap KmallocSpec KmallocClient.

(** ** The page services *)

(** The machine with the address of the kernel's page directory. *)
#[export] Instance kernel_pages : KernelPages (Z * MM) := {
  memory_allocate '(pd, s) n := '(a, s') ← memoryAllocate (Z.to_nat KERNEL_FUEL) s pd n false; Some (a, (pd, s'));
  memory_free '(pd, s) a n := (pd, memoryFree s pd a n)
}.

(** Every mapped page is backed by a frame marked used. *)
Definition backed (s : MM) (pd : Z) : Prop :=
  forall v x, is_u32 v -> translate s pd v = Some x -> used (phys s) (x / 4096) = true.

(** The pages of [a, a + n) are mapped to frames that hold no paging structure and that no other
    page is mapped to. *)
Definition holds (s : MM) (pd a n : Z) : Prop :=
  exists p, 0 < p /\ p mod 4096 = 0 /\ p + n <= 4294967296 /\
  1048576 <= a /\ a mod 4096 = 0 /\ 0 < n /\ n mod 4096 = 0 /\ a + n <= 1073741824 /\
  (forall v, is_u32 v -> in_pages a (n / 4096) v = true -> translate s pd v = Some (mapped_to a p v)) /\
  (forall q, p / 4096 <= q < p / 4096 + n / 4096 ->
     q <> 0 /\ q <> pd / 4096 /\ forall i, has_table s pd i -> q <> table s pd i / 4096) /\
  (forall v x, is_u32 v -> translate s pd v = Some x -> p / 4096 <= x / 4096 < p / 4096 + n / 4096 ->
     in_pages a (n / 4096) v = true).

Lemma mapped_to_frame a p n v :
  a mod 4096 = 0 -> p mod 4096 = 0 -> in_pages a n v = true -> p / 4096 <= mapped_to a p v / 4096 < p / 4096 + n.
Proof. intros Ha Hp Hv. unfold in_pages, mapped_to in *. bool_facts. zlia. Qed.

Lemma holds_used s pd a n : backed s pd -> holds s pd a n -> exists p, p mod 4096 = 0 /\
  (forall v, is_u32 v -> in_pages a (n / 4096) v = true -> translate s pd v = Some (mapped_to a p v)) /\
  forall q, p / 4096 <= q < p / 4096 + n / 4096 -> used (phys s) q = true.
Proof.
  intros Hb (p & Hp0 & Hpa & Hpn & Ha1 & Haa & Hn & Hna & Han & Htr & _). exists p. split; [done|]. split; [done|].
  intros q Hq. set (v := a + (q - p / 4096) * 4096). assert (is_u32 v) as Hv by (unfold v, is_u32; clear Htr; zlia).
  assert (in_pages a (n / 4096) v = true) as Hin by (unfold in_pages; rewrite andb_true_iff, Z.leb_le, Z.ltb_lt; unfold v; clear Htr; zlia).
  rewrite <- (Hb v (mapped_to a p v) Hv) by auto. f_equal. unfold mapped_to, v. clear Htr. zlia.
Qed.

(** Fresh pages keep what is held, and are none of it. *)
Lemma gained_keeps s s' pd a n p b k :
  kernel_inv s pd -> backed s pd -> same_dir s s' pd -> gained s s' pd a n p ->
  holds s pd b k -> holds s' pd b k /\ forall v, is_u32 v -> in_pages b (k / 4096) v = true -> in_pages a n v = false.
Proof.
  intros Hk Hb Hsd (P1 & P2 & A1 & A2 & A3 & Hrun & Hfree & Hused & Htr) Hh.
  destruct (holds_used _ _ _ _ Hb Hh) as (q & Q1 & Qtr & Qu).
  assert (forall v, is_u32 v -> in_pages b (k / 4096) v = true -> in_pages a n v = false) as Hdis.
  { intros v Hv Hin. destruct (in_pages a n v) eqn:E; [|done]. exfalso.
    pose proof (run_free_translate s pd a n v ltac:(apply Hk) Hv ltac:(lia) A2 ltac:(lia) Hrun E) as Hno.
    rewrite Qtr in Hno by done. done. }
  split; [|exact Hdis].
  destruct Hh as (r & R1 & R2 & R3 & B1 & B2 & K1 & K2 & B3 & Rtr & Rf & Rx). exists r. split_and!; try done.
  - intros v Hv Hin. rewrite Htr, (Hdis v Hv Hin) by done. auto.
  - intros x Hx. destruct (Rf x Hx) as (F1 & F2 & F3). split_and!; try done. intros i Hi.
    rewrite (has_table_same s s') in Hi by done. rewrite (table_same s s') by (done || apply Hi). auto.
  - intros v x Hv. rewrite Htr by done. destruct (in_pages a n v) eqn:E; [|by apply Rx].
    intros [= <-] Hx. exfalso. pose proof (mapped_to_frame a p n v A2 P2 E) as Hm.
    assert (used (phys s) (mapped_to a p v / 4096) = true) as Hu; [|rewrite Hfree in Hu by done; done].
    set (w := b + (mapped_to a p v / 4096 - r / 4096) * 4096). assert (is_u32 w) by (unfold w, is_u32; clear -Hx B1 B2 B3 K1 K2; zlia).
    assert (in_pages b (k / 4096) w = true) as Hw.
    { unfold in_pages. rewrite andb_true_iff, Z.leb_le, Z.ltb_lt. unfold w. clear -Hx B2. zlia. }
    rewrite <- (Hb w (mapped_to b r w)); [|done|by apply Rtr]. f_equal. unfold mapped_to at 2. unfold w. clear -Hx B2 R2. zlia.
Qed.

Lemma gained_backed s s' pd a n p : backed s pd -> gained s s' pd a n p -> backed s' pd.
Proof.
  intros Hb (P1 & P2 & A1 & A2 & A3 & _ & _ & Hused & Htr) v x Hv. rewrite Htr, Hused by done. destruct (in_pages a n v) eqn:E.
  - intros [= <-]. pose proof (mapped_to_frame a p n v A2 P2 E). zcases.
  - intros Hx. rewrite (Hb v x Hv Hx). apply orb_true_r.
Qed.

(** Allocation keeps what is held, and what it hands out is held and was not before. *)
Lemma allocated_keeps s s' pd a n b k :
  kernel_inv s pd -> backed s pd -> same_dir s s' pd -> allocated s s' pd a n -> 0 < n ->
  holds s pd b k -> holds s' pd b k /\ (b + k <= a \/ a + n * 4096 <= b).
Proof.
  intros Hk Hb Hsd (p & Hg)%allocated_gained Hn Hh.
  destruct (gained_keeps _ _ _ _ _ _ _ _ Hk Hb Hsd Hg Hh) as [Hh' Hdis]. split; [done|].
  destruct Hh as (_ & _ & _ & _ & B1 & B2 & K1 & K2 & B3 & _). destruct Hg as (_ & _ & A1 & A2 & A3 & _).
  destruct (Z.le_gt_cases (b + k) a); [by left|]. destruct (Z.le_gt_cases (a + n * 4096) b); [by right|]. exfalso.
  set (v := Z.max a b). assert (is_u32 v) as Hv by (unfold v, is_u32; lia).
  assert (in_pages b (k / 4096) v = true) as Hin.
  { unfold in_pages. rewrite andb_true_iff, Z.leb_le, Z.ltb_lt. unfold v. clear -A2 B2 K1 K2 H H0 Hn. zlia. }
  assert (in_pages a n v = true) as Hin'.
  { unfold in_pages. rewrite andb_true_iff, Z.leb_le, Z.ltb_lt. unfold v. clear -A2 B2 K1 K2 H H0 Hn. zlia. }
  by rewrite (Hdis v Hv Hin) in Hin'.
Qed.

Lemma allocated_holds s s' pd a n :
  kernel_inv s pd -> backed s pd -> same_dir s s' pd -> allocated s s' pd a n -> 0 < n ->
  holds s' pd a (n * 4096) /\ backed s' pd.
Proof.
  intros Hk Hb Hsd Hal Hn. split; [|by destruct (allocated_gained _ _ _ _ _ Hal) as (p & Hg%gained_backed)].
  destruct Hal as (p & P1 & P2 & P3 & A1 & A2 & A3 & Hrun & Hfree & Hused & Htr & _).
  exists p. rewrite Z.div_mul by lia. split_and!; try done; [lia|apply Z.mod_mul; lia| | |].
  - intros v Hv Hin. by rewrite Htr, Hin.
  - intros q Hq. specialize (Hfree q Hq). split_and!.
    + intros ->. rewrite (inv_frame0 _ _ Hk) in Hfree. done.
    + intros ->. rewrite (inv_dir_used _ _ Hk) in Hfree. done.
    + intros i Hi ->. rewrite (has_table_same s s') in Hi by done. rewrite (table_same s s') in Hfree by (done || apply Hi).
        rewrite (inv_tables_used _ _ Hk i Hi) in Hfree. done.
  - intros v x Hv. rewrite Htr by done. destruct (in_pages a n v) eqn:E; [done|]. intros Hx Hq.
    specialize (Hb v x Hv Hx). rewrite Hfree in Hb by done. done.
Qed.

Lemma free_holds s pd a n :
  kernel_inv s pd -> backed s pd -> holds s pd a n ->
  let s' := memoryFree s pd a n in
  kernel_inv s' pd /\ backed s' pd /\
  forall b k, holds s pd b k -> b + k <= a \/ a + n <= b -> holds s' pd b k.
Proof.
  intros Hk Hb (p & P1 & P2 & P3 & A1 & A2 & N1 & N2 & A3 & Htr & Hfr & Hex) s'.
  pose proof (inv_dir _ _ Hk) as [Hw Ht].
  assert (same_dir s s' pd /\
    (forall v, is_u32 v -> translate s' pd v = if in_pages a (n / 4096) v then None else translate s pd v) /\
    (forall q, used (phys s') q = negb ((p / 4096 <=? q) && (q <? p / 4096 + n / 4096)) && used (phys s) q)) as (Hsd & Htr' & Hu').
  { unfold s', memoryFree, PAGE_SIZE. change 0x1000 with 4096.
    assert (n / 4096 * 4096 = n) as En by (clear -N2; zlia). assert (0 < n / 4096) by (clear -N1 N2; zlia).
    destruct (memoryFree_loop_spec (Z.to_nat (n / 4096)) (atomicEnable s) pd a p 0) as (G1 & G2 & G3);
      rewrite ?Z2Nat.id in * by lia; try lia; try done.
    - by eapply (wf_dir_same s).
    - intros k Hkk. split; [apply Ht; rewrite PAGE_DIR_INDEX_div; clear -Hkk A1 A2 A3 N2; zlia|].
      change (translate (atomicEnable s)) with (translate s).
      destruct (in_pages_byte a (n / 4096) (k * 4096)) as [E1 E2]; [done|lia|].
      rewrite Htr, E2; [done|done|unfold is_u32; lia|done].
    - rewrite Z.mul_0_l, Z.add_0_r in G2. rewrite Z.add_0_r in G3. done. }
  split; [|split].
  - split.
    + split; [by eapply wf_dir_same|]. intros i Hi. rewrite (has_table_same s s') by done. auto.
    + rewrite Hu', (inv_frame0 _ _ Hk), andb_true_r. zcases. destruct (Hfr 0 ltac:(lia)) as (? & _). done.
    + rewrite Hu', (inv_dir_used _ _ Hk), andb_true_r. zcases. destruct (Hfr (pd / 4096) ltac:(lia)) as (_ & ? & _). done.
    + intros i Hi. rewrite (has_table_same s s') in Hi by done. rewrite (table_same s s') by (done || apply Hi).
      rewrite Hu', (inv_tables_used _ _ Hk i Hi), andb_true_r. zcases.
      destruct (Hfr (table s pd i / 4096) ltac:(lia)) as (_ & _ & F). by destruct (F i Hi).
  - intros v x Hv. rewrite Htr', Hu' by done. destruct (in_pages a (n / 4096) v) eqn:E; [done|]. intros Hx.
    rewrite (Hb v x Hv Hx), andb_true_r. zcases. rewrite (Hex v x Hv Hx) in E by lia. done.
  - intros b k (q & Q1 & Q2 & Q3 & B1 & B2 & K1 & K2 & B3 & Qtr & Qf & Qx) Hd. exists q. split_and!; try done.
    + intros v Hv Hin. rewrite Htr' by done. rewrite (Qtr v Hv Hin). destruct (in_pages a (n / 4096) v) eqn:E; [|done].
      exfalso. unfold in_pages in *. bool_facts. clear Htr Htr' Hu' Hfr Hex Qtr Qf Qx Hb Hk Hw Ht Hsd s' Hv. zlia.
    + intros x Hx. destruct (Qf x Hx) as (F1 & F2 & F3). split_and!; try done. intros i Hi.
      rewrite (has_table_same s s') in Hi by done. rewrite (table_same s s') by (done || apply Hi). auto.
    + intros v x Hv. rewrite Htr' by done. destruct (in_pages a (n / 4096) v); [done|]. by apply Qx.
Qed.

Lemma holds_same s s' pd b k :
  same_dir s s' pd -> (forall v, is_u32 v -> translate s' pd v = translate s pd v) -> holds s pd b k -> holds s' pd b k.
Proof.
  intros Hsd Htr (q & Q1 & Q2 & Q3 & B1 & B2 & K1 & K2 & B3 & Qtr & Qf & Qx). exists q. split_and!; try done.
  - intros v Hv Hin. rewrite Htr by done. auto.
  - intros x Hx. destruct (Qf x Hx) as (F1 & F2 & F3). split_and!; try done. intros i Hi.
    rewrite (has_table_same s s') in Hi by done. rewrite (table_same s s') by (done || apply Hi). auto.
  - intros v x Hv. rewrite Htr by done. by apply Qx.
Qed.

#[export] Instance kernel_page_laws : PageLaws (Z * MM).
Proof.
  refine {| pages_inv := fun ps => kernel_inv ps.2 ps.1 /\ backed ps.2 ps.1; owns := fun ps => holds ps.2 ps.1 |}.
  - intros [pd s] n [Hk Hb] Hn Hm. simpl in *. assert ((n + 4095) / 4096 * 4096 = n) as En by (clear -Hm; zlia).
    destruct (memoryAllocate_kernel_spec (Z.to_nat KERNEL_FUEL) s pd n Hk) as (a & s' & E & Hk' & Hsd & Hr);
      [rewrite Z2Nat.id by done; done|lia|]. exists a, (pd, s'). rewrite E. split; [done|].
    assert (0 < (n + 4095) / 4096) as Hp by lia. destruct Hr as [(Ha & _ & Hal)|(-> & Hu & Htr)].
    + destruct (allocated_holds _ _ _ _ _ Hk Hb Hsd Hal Hp) as [Hh Hb']. rewrite En in Hh.
      split; [done|]. split; [intros b k Hbk; by destruct (allocated_keeps s s' pd a _ b k Hk Hb Hsd Hal Hp Hbk)|]. intros _.
      pose proof Hh as (p & _ & _ & _ & ? & ? & _ & _ & ? & _). split; [lia|]. split; [done|]. split; [done|]. split; [done|].
      intros b k Hbk. rewrite <- En. by destruct (allocated_keeps s s' pd a _ b k Hk Hb Hsd Hal Hp Hbk).
    + simpl. split; [split; [done|]|split; [|done]].
      * intros v x Hv. rewrite Htr, Hu by done. by apply Hb.
      * intros b k. by apply holds_same.
  - intros [pd s] a n [Hk Hb] Hh. simpl in *. destruct (free_holds s pd a n Hk Hb Hh) as (H1 & H2 & H3). split; [done|]. exact H3.
Defined.

(** ** Theorems, over any page services that keep the laws *)

Section Theorems.
Context {S : Type} `{KernelPages S} `{!PageLaws S}.
Implicit Types h : Heap S.

(** C19: every program of kmalloc, kcalloc, krealloc and kfree calls on the kernel heap runs to
    its end.  From the heap as it is at boot, for page services that keep their laws, any
    sequence of calls with sizes up to 1 GiB (each freed or resized block a live one, or NULL)
    terminates without touching memory that holds no tag and without leaving an array's bounds;
    afterwards any two live blocks, each with the tag in front of it, have no byte in common and
    lie inside the kernel's gigabyte. *)
Theorem heap_calls_safe (s : S) (cs : list call) :
  pages_inv s -> Forall fair cs ->
  exists n B h', (forall fuel, (n <= fuel)%nat -> run fuel cs ([], boot s) = Some (B, h')) /\
    (forall p z, (p, z) ∈ B -> 32 < p /\ 0 <= z /\ p + z <= 1073741824) /\
    (forall i j p z q w, i <> j -> B !! i = Some (p, z) -> B !! j = Some (q, w) -> p + z <= q - 32 \/ q + w <= p - 32).
Proof.
  intros Hp Hf. destruct (run_steps cs (boot s) [] (boot_carries s Hp) Hf) as (n & B & h' & E & Hc).
  destruct (carries_layout _ _ Hc) as [Ha Hk]. exists n, B, h'. split; [done|]. split; [done|].
  intros i j p z q w Hij Hi Hj. eapply apart_lookup; try done; eapply Hk, list_elem_of_lookup_2; done.
Qed.

(** C20: kmalloc and kfree implement an abstract allocator whose state is the bag of live blocks.
    In a heap that carries the blocks [B], kmalloc of up to 1 GiB returns, either NULL with the
    same blocks, or a block added to [B]; kfree of a live block returns and takes exactly that
    block out.  Neither changes a byte of a live block, and both leave the scheduler on. *)
Theorem heap_refines_allocator h (B : list (Z * Z)) :
  carries h B ->
  (forall sz, 0 <= sz <= 1073741824 -> exists n p h',
     (forall fuel, (n <= fuel)%nat -> kmalloc fuel sz h = Some (p, h')) /\ same_bytes h h' B /\
     schedulerEnabled h' = true /\ ((p = 0 /\ carries h' B) \/ (p <> 0 /\ carries h' ((p, sz) :: B)))) /\
  (forall p z B', B ≡ₚ (p, z) :: B' -> exists h',
     (forall fuel, (2 <= fuel)%nat -> kfree fuel p h = Some h') /\ same_bytes h h' B' /\
     schedulerEnabled h' = true /\ carries h' B').
Proof.
  intros Hc. split.
  - intros sz Hsz. destruct (kmalloc_step h B sz Hc Hsz) as (n & p & h' & E & Hen & Hs & Hc').
    exists n, p, h'. split_and!; try done. destruct (Z.eqb_spec p 0) as [->|Hp]; [left|right]; done.
  - intros p z B' HB. rewrite HB in Hc. destruct (kfree_step h B' p z Hc) as (h' & E & Hen & Hpl & Hc').
    exists h'. split_and!; try done. intros q w k _ _. by rewrite Hpl.
Qed.

(** C21: krealloc moves a block with its contents.  For a live block of [z] bytes and a new size up
    to 1 GiB, krealloc returns; when it returns a block, the first [min z sz] bytes are those of
    the old block, the old block is gone, and no other live block changed. *)
Theorem krealloc_keeps_bytes h (B : list (Z * Z)) (p z sz : Z) :
  carries h ((p, z) :: B) -> 0 < sz <= 1073741824 ->
  exists n q h', (forall fuel, (n <= fuel)%nat -> krealloc fuel p sz h = Some (q, h')) /\
    carries h' (if q =? 0 then B else (q, sz) :: B) /\
    (q <> 0 -> same_bytes h h' B /\
       forall k, 0 <= k < Z.min z sz -> loadb (payload h') (q + k) = loadb (payload h) (p + k)).
Proof.
  intros Hc Hsz. destruct (krealloc_step h B p z sz Hc Hsz) as (n & q & h' & E & _ & Hc' & Hb). eauto 10.
Qed.

(** Kcalloc hands out zeroed blocks: when it returns a block for [n * sz] bytes, at most 1 GiB,
    every byte of it reads 0 and no live block changed. *)
Theorem kcalloc_zeroes h (B : list (Z * Z)) (n sz : Z) :
  carries h B -> 0 <= n -> 0 <= sz -> n * sz <= 1073741824 ->
  exists m p h', (forall fuel, (m <= fuel)%nat -> kcalloc fuel n sz h = Some (p, h')) /\
    carries h' (if p =? 0 then B else (p, n * sz) :: B) /\
    (p <> 0 -> same_bytes h h' B /\ forall k, 0 <= k < n * sz -> loadb (payload h') (p + k) = 0).
Proof.
  intros Hc H1 H2 H3. destruct (kcalloc_step h B n sz Hc H1 H2 H3) as (m & p & h' & E & _ & Hc' & Hb). eauto 10.
Qed.

(** The size arithmetic of kmalloc wraps.  For a request of 0xFFFFFFE0 bytes or more,
    adding the tag overflows 32 bits: allocate_new_tag asks for the minimum of 16 pages and
    reports a tag whose recorded size is the whole request although it spans 64 KiB. *)
Theorem allocate_new_tag_wraps h (sz a : Z) (s' : S) :
  0xFFFFFFE0 <= sz < 4294967296 -> memory_allocate (pages h) 65536 = Some (a, s') -> a <> 0 ->
  exists h', allocate_new_tag sz h = Some (a, h') /\
    exists t, deref h' a = Some t /\ size t = sz /\ real_size t = 65536.
Proof.
  intros Hsz E Ha. unfold allocate_new_tag, l_pageSize, l_pageCount, TAG.
  assert (u32 (sz + 32) = sz + 32 - 4294967296) as -> by zlia. set (k := if negb _ then _ else _).
  assert (k < 16) as Hk.
  { unfold k. assert ((sz + 32 - 4294967296) / 4096 = 0) as -> by zlia. case_if; done. }
  rewrite (proj2 (Z.ltb_lt _ _)) by done. unfold liballoc_alloc, PAGE_SIZE. change (u32 (16 * 0x1000)) with 65536.
  rewrite E. simpl. rewrite (proj2 (Z.eqb_neq _ _)) by done. eexists. split; [done|]. unfold deref. simpl.
  rewrite lookup_insert_eq. eauto.
Qed.
End Theorems.

(** ** Page services with a record of what they handed out *)

(** The runs of pages (address and length) obtained and not given back, next to any page
    services. *)
Fixpoint strike (r : Z * Z) (L : list (Z * Z)) : list (Z * Z) :=
  match L with
  | [] => []
  | x :: L => if decide (x = r) then L else x :: strike r L
  end.
Lemma strike_perm r L L' : L ≡ₚ r :: L' -> strike r L ≡ₚ L'.
Proof.
  revert L'; induction L as [|x L IH]; intros L' HL; [by apply Permutation_nil_l in HL|]. simpl. case_decide as Hx.
  - subst. by apply Permutation_cons_inv in HL.
  - assert (x ∈ L') as (L2 & HL2)%elem_of_Permutation.
    { assert (x ∈ r :: L') as Hin by (rewrite <- HL; left). apply elem_of_cons in Hin. naive_solver. }
    rewrite HL2 in HL |- *. rewrite (Permutation_swap r x) in HL || rewrite perm_swap in HL. apply Permutation_cons_inv in HL.
    by rewrite (IH _ HL).
Qed.

Section Recorded.
Context {S : Type} `{KernelPages S} `{!PageLaws S}.

#[export] Instance recorded_pages : KernelPages (S * list (Z * Z)) := {
  memory_allocate '(s, L) n := '(a, s') ← memory_allocate s n; Some (a, (s', if a =? 0 then L else (a, n) :: L));
  memory_free '(s, L) a n := (memory_free s a n, strike (a, n) L)
}.
#[export] Instance recorded_laws : PageLaws (S * list (Z * Z)).
Proof.
  refine {| pages_inv := fun ps => pages_inv ps.1; owns := fun ps => owns ps.1 |}.
  - intros [s L] n Hs Hn Hm. simpl in *. destruct (allocate_law s n Hs Hn Hm) as (a & s' & E & Hr).
    exists a, (s', if a =? 0 then L else (a, n) :: L). rewrite E. done.
  - intros [s L] a n Hs Ho. simpl in *. by apply free_law.
Defined.
#[export] Instance recorded_ledger : PageLedger (S * list (Z * Z)).
Proof.
  refine {| accounts := fun ps X => ps.2 ≡ₚ X |}.
  - intros [s L] X X' HX HL. simpl in *. by rewrite <- HX.
  - intros [s L] n a [s' L'] X E HL. simpl in *. apply bind_Some in E as ([b s2] & _ & [= -> -> <-]). case_if; [done|by rewrite HL].
  - intros [s L] a n X HL. simpl in *. by apply strike_perm.
Defined.

Implicit Types h : Heap (S * list (Z * Z)).

(** The tags of a free list, walked by [next] from [a]. *)
Fixpoint listed h (a : Z) (l : list Z) : Prop :=
  match l with
  | [] => a = 0
  | x :: l => a = x /\ x <> 0 /\ exists t, deref h x = Some t /\ listed h (next t) l
  end.
Lemma dll_listed h l : forall p, dll (links_at h) p l -> (forall a, a ∈ l -> a <> 0) -> listed h (hd 0 l) l.
Proof.
  induction l as [|a l IH]; intros p Hd Hn; [done|]. destruct Hd as [Hl Hd]. simpl. split; [done|]. split; [apply Hn; left|].
  unfold links_at in Hl. destruct (deref h a) as [t|]; [|done]. injection Hl as Hx _. exists t. split; [done|]. rewrite Hx.
  apply (IH a Hd). intros b Hb. apply Hn. by right.
Qed.

(** A heap without live blocks: each region is one free segment. *)
Lemma no_blocks_single h R fl : inv h R fl -> blocks (mjoin R) = [] ->
  exists l : list seg, R = (fun s => [s]) <$> l /\ forall s, s ∈ l -> suse s = Free.
Proof.
  intros Hi Hb. pose proof (no_blocks_free _ _ _ Hi Hb) as Hfree. pose proof (inv_coalesced _ _ _ Hi) as Hc.
  pose proof (fun r Hr => ro_nonempty _ (i_region _ _ _ (inv_0 _ _ _ Hi) r Hr)) as Hne. clear Hi Hb.
  induction R as [|r R IH]; [by exists []|]. destruct IH as (l & -> & Hl).
  - intros s Hs. apply Hfree. simpl. apply elem_of_app. by right.
  - intros r' Hr. apply Hc. by right.
  - intros r' Hr. apply Hne. by right.
  - destruct (coalesced_free r) as (s & ->); [apply Hne; left|apply Hc; left|intros s Hs; apply Hfree; simpl; apply elem_of_app; by left|].
    exists (s :: l). split; [done|]. intros x [->|Hx]%elem_of_cons; [apply Hfree; left|by apply Hl].
Qed.
Lemma fits_addresses l : (forall s, s ∈ l -> 0 < slen s) -> NoDup (bytes_of l) -> NoDup (sa <$> l).
Proof.
  induction l as [|s l IH]; intros Hf Hn; [constructor|].
  change (bytes_of (s :: l)) with (seqZ (sa s) (slen s) ++ bytes_of l) in Hn. apply NoDup_app in Hn as (_ & Hd & Hn).
  rewrite fmap_cons. apply NoDup_cons. split; [|apply IH; [intros x Hx; apply Hf; by right|done]].
  intros (x & Ex & Hx)%list_elem_of_fmap. pose proof (Hf s ltac:(left)). pose proof (Hf x ltac:(by right)).
  apply (Hd (sa s)); [apply elem_of_seqZ; lia|]. apply elem_of_bytes. exists x. split; [done|lia].
Qed.

Lemma join_singles (l : list seg) : mjoin ((fun s => [s]) <$> l) = l.
Proof. induction l as [|s l IH]; [done|]. change (s :: mjoin ((fun s => [s]) <$> l) = s :: l). by rewrite IH. Qed.

(** The free list [i] of a heap without live blocks holds the regions of class [i]. *)
Lemma no_blocks_listed h (l : list seg) fl i :
  inv h ((fun s => [s]) <$> l) fl -> (forall s, s ∈ l -> suse s = Free) -> 0 <= i < 32 ->
  fl i ≡ₚ fst <$> filter (fun r => bucket r.2 = i) ((fun s => (sa s, slen s)) <$> l).
Proof.
  intros Hi Hl Hr. pose proof (inv_0 _ _ _ Hi) as Hi0.
  assert (mjoin ((fun s => [s]) <$> l) = l) as Ej by apply join_singles.
  assert (NoDup (sa <$> l)) as Hn.
  { apply fits_addresses; [|rewrite <- Ej; apply Hi0]. intros s Hs. rewrite <- Ej in Hs.
    destruct (inv0_seg _ _ _ _ Hi0 Hs) as (?%fits_min & _). lia. }
  apply NoDup_Permutation; [apply (i_lists _ _ _ Hi0)| |].
  - eapply sublist_NoDup; [exact Hn|]. clear. induction l as [|s l IH]; [constructor|]. rewrite !fmap_cons, filter_cons.
    case_decide; [by constructor|by apply sublist_cons].
  - intros a. rewrite (i_free _ _ _ Hi0), Ej, list_elem_of_fmap. split.
    + intros (s & Hs & <- & _ & Hb). exists (sa s, slen s). split; [done|]. apply list_elem_of_filter. split; [by simpl|].
      by apply (list_elem_of_fmap_2 (fun s => (sa s, slen s))).
    + intros ([x n] & -> & [Hb (s & [= -> ->] & Hs)%list_elem_of_fmap]%list_elem_of_filter). exists s. auto.
Qed.

(** What a heap without live blocks should look like: every recorded run is one free tag that
    spans it; free list [i], walked from its head, holds the runs of class [i] and nothing else;
    the class's counter is their number, at most MAXCOMPLETE. *)
Definition whole h : Prop := let runs := (pages h).2 in
  (forall a k, (a, k) ∈ runs -> owns (pages h).1 a k /\
     exists t, deref h a = Some t /\ real_size t = k /\ split_left t = 0 /\ split_right t = 0 /\ index t = bucket k) /\
  (forall i, 0 <= i < 32 -> let of_class := filter (fun r => bucket r.2 = i) runs in
     (exists hd l, at_index (l_freePages h) i = Some hd /\ listed h hd l /\ l ≡ₚ fst <$> of_class) /\
     at_index (l_completePages h) i = Some (Z.of_nat (length of_class)) /\
     Z.of_nat (length of_class) <= MAXCOMPLETE).
Lemma count_single i (l : list seg) : (forall s, s ∈ l -> suse s = Free) ->
  count i ((fun s => [s]) <$> l) = Z.of_nat (length (filter (fun r => bucket r.2 = i) ((fun s => (sa s, slen s)) <$> l))).
Proof.
  induction l as [|s l IH]; intros Hl; [done|]. rewrite !fmap_cons, filter_cons. cbn [count].
  rewrite IH by (intros x Hx; apply Hl; by right). pose proof (Hl s ltac:(left)) as Hu. destruct s as [a n u]. simpl in Hu. subst u.
  unfold is_complete. simpl. case_decide; destruct (Z.eqb_spec (bucket n) i); try done; simpl length; lia.
Qed.
Lemma carries_nothing h : carries h [] -> whole h.
Proof.
  intros (R & fl & Hi & HB). apply Permutation_nil_r in HB. destruct (no_blocks_single _ _ _ Hi HB) as (l & -> & Hl).
  pose proof (inv_0 _ _ _ Hi) as Hi0. set (all := (fun s => (sa s, slen s)) <$> l).
  assert ((pages h).2 ≡ₚ all) as HL.
  { pose proof (inv_accounts _ _ _ Hi) as Ha. simpl in Ha. rewrite Ha. unfold regions, all. rewrite <- list_fmap_compose.
    apply Permutation_refl', list_fmap_ext. intros j s _. unfold region_of. simpl. by rewrite Z.add_0_r. }
  assert (forall i, length (filter (fun r => bucket r.2 = i) (pages h).2) = length (filter (fun r => bucket r.2 = i) all)) as Hlen
    by (intros i; by rewrite HL).
  split.
  - intros a k. rewrite HL. intros (s & [= -> ->] & Hs)%list_elem_of_fmap.
    assert ([s] ∈ (fun s => [s]) <$> l) as Hr by (by apply (list_elem_of_fmap_2 (fun s => [s]))). split.
    + pose proof (i_owns _ _ _ Hi0 _ Hr) as Ho. simpl in Ho. by rewrite Z.add_0_r in Ho.
    + destruct (i_chain _ _ _ Hi0 _ Hr) as [(c & Ec & Hs') _]. apply core_at_Some in Ec as (t & Et & ->).
      unfold seg_ok in Hs'. rewrite (Hl s Hs) in Hs'. simpl in Hs'. exists t. destruct Hs' as (_ & ? & ? & ? & ?). done.
  - intros i Hir. cbv zeta. rewrite Hlen, !at_index_ok by lia. destruct (inv_counts _ _ _ Hi) as [_ Hcnt]. rewrite Hcnt, count_single by done.
    split; [|split; [done|]].
    + exists (hd 0 (fl i)), (fl i). split; [by apply (fl_head _ _ (i_lists _ _ _ Hi0))|]. split.
      * eapply dll_listed; [by apply (fl_dll _ _ (i_lists _ _ _ Hi0))|]. intros a Ha.
        by apply (fl_range _ _ (i_lists _ _ _ Hi0)) in Ha as [_ ?].
      * rewrite (no_blocks_listed _ _ _ _ Hi Hl Hir). by rewrite HL.
    + unfold all. rewrite <- (count_single i l Hl). apply Hi.
Qed.

(** C22: freeing everything reunites the memory and gives it back.  Take any page services that
    keep their laws, and note which runs of pages the heap obtains from them and has not given
    back.  Any sequence of calls from boot runs to its end, and when no block is live then, every
    such run is one free tag that spans it whole, with no neighbours; each of the 32 free lists,
    walked from its head, holds exactly the runs of its size class, so no tag is lost or left
    over; and each class keeps at most MAXCOMPLETE runs and counts them: the others have gone
    back to the page allocator. *)
Theorem freed_heap_is_whole (s : S) (cs : list call) :
  pages_inv s -> Forall fair cs ->
  exists n B h', (forall fuel, (n <= fuel)%nat -> run fuel cs ([], boot (s, [])) = Some (B, h')) /\
    (B = [] -> whole h').
Proof.
  intros Hp Hf. assert (carries (boot (s, [])) []) as Hc0 by (apply boot_carries_on; [exact Hp|by simpl]).
  destruct (run_steps cs _ [] Hc0 Hf) as (n & B & h' & E & Hc).
  exists n, B, h'. split; [exact E|]. intros ->. by apply carries_nothing.
Qed.
End Recorded.

(** ** The kernel's own page services *)

Lemma ex_zero a : 2101248 <= a < 4294967296 -> loadb ex_mem a = 0.
Proof.
  intros Ha. unfold loadb, ex_mem, ex_word. rewrite u32_small by (unfold is_u32; lia).
  assert (524544 <= a / 4) by zlia. rewrite (proj2 (Z.ltb_ge _ _)), andb_false_r by lia. done.
Qed.
Lemma ex_no_page v : is_u32 v -> translate ex_mm ex_pd v = None.
Proof.
  intros Hv. rewrite translate_eq by (done || (unfold ex_pd; lia)).
  destruct (e_present (pde ex_mm ex_pd (PAGE_DIR_INDEX v))) eqn:Ep; [|done]. cbn [andb].
  destruct (ex_table (PAGE_DIR_INDEX v)) as [Hi Et]; [split; [by apply dir_index_range|done]|].
  unfold pte_addr. rewrite Et. pose proof (table_index_range v) as Ht. unfold load32.
  by rewrite !ex_zero by lia.
Qed.
Lemma ex_backed : backed ex_mm ex_pd.
Proof. intros v x Hv E. by rewrite ex_no_page in E. Qed.
Lemma ex_pages_inv : pages_inv (PageLaws := kernel_page_laws) (ex_pd, ex_mm).
Proof. split; [apply ex_kernel_inv|apply ex_backed]. Qed.

(** A program on the kernel's own page services. *)
Lemma heap_calls_safe_witness :
  exists n B h', (forall fuel, (n <= fuel)%nat ->
    run fuel [Kmalloc 100; Kcalloc 30 40; Krealloc 1 5000; Kfree 0; Kmalloc 70000] ([], boot (ex_pd, ex_mm)) = Some (B, h')) /\
  in_kernel B.
Proof.
  destruct (heap_calls_safe (ex_pd, ex_mm) [Kmalloc 100; Kcalloc 30 40; Krealloc 1 5000; Kfree 0; Kmalloc 70000] ex_pages_inv)
    as (n & B & h' & E & Hk & _); [repeat constructor; simpl; lia|].
  exists n, B, h'. split; [exact E|exact Hk].
Defined.

(** ** Sequential page services *)

(** Pages handed out upwards from an address and never reused: the simplest services that keep
    the laws. *)
#[local] Instance upward_pages : KernelPages Z := {
  memory_allocate s n := Some (if s + n <=? 1073741824 then (s, s + n) else (0, s));
  memory_free s a n := s
}.
#[local] Instance upward_laws : PageLaws Z.
Proof.
  refine {| pages_inv := fun s => 4096 <= s /\ s mod 4096 = 0; owns := fun s a n => 4096 <= a /\ a + n <= s |}.
  - intros s n [Hs Hm] Hn Hn'. simpl. destruct (Z.leb_spec (s + n) 1073741824).
    + exists s, (s + n). split; [done|]. split; [split; [lia|zlia]|]. split; [intros; lia|]. intros _. split_and!; try done; try lia.
    + exists 0, s. split; [done|]. split; [done|]. split; [intros; lia|]. done.
  - intros s a n Hs Ho. simpl. split; [done|]. intros b k Hb _. done.
Defined.
Lemma upward_boot : carries (boot 4096) [].
Proof. apply boot_carries. split; [lia|done]. Qed.

(** A heap with one live block of 100 bytes. *)
Lemma ex_one_block : exists h, carries h [(4128, 100)].
Proof.
  destruct (kmalloc_step (boot 4096) [] 100 upward_boot ltac:(lia)) as (n & p & h & E & _ & _ & Hc).
  specialize (E (Datatypes.S n) ltac:(lia)).
  assert (fst <$> kmalloc (Datatypes.S n) 100 (boot 4096) = Some 4128) as Ep by (vm_compute; reflexivity).
  rewrite E in Ep. injection Ep as ->. exists h. exact Hc.
Qed.

Lemma heap_refines_allocator_witness : exists h h' : Heap Z,
  carries h [(4128, 100)] /\ kfree 2 4128 h = Some h' /\ carries h' [].
Proof.
  destruct ex_one_block as [h Hc]. destruct (heap_refines_allocator h _ Hc) as [_ Hf].
  destruct (Hf 4128 100 [] (Permutation_refl _)) as (h' & E & _ & _ & Hc').
  exists h, h'. split; [exact Hc|]. split; [apply E; lia|exact Hc'].
Defined.
Lemma krealloc_keeps_bytes_witness : exists (h : Heap Z) n q h',
  carries h [(4128, 100)] /\ krealloc n 4128 300 h = Some (q, h') /\
  (q <> 0 -> loadb (payload h') (q + 7) = loadb (payload h) (4128 + 7)).
Proof.
  destruct ex_one_block as [h Hc]. destruct (krealloc_keeps_bytes h [] 4128 100 300 Hc ltac:(lia)) as (n & q & h' & E & _ & Hb).
  exists h, n, q, h'. split; [exact Hc|]. split; [apply E; lia|]. intros Hq. apply (Hb Hq). lia.
Defined.
Lemma kcalloc_zeroes_witness : exists n p (h' : Heap Z), kcalloc n 10 20 (boot 4096) = Some (p, h') /\
  (p <> 0 -> loadb (payload h') (p + 3) = 0).
Proof.
  destruct (kcalloc_zeroes (boot 4096) [] 10 20 upward_boot ltac:(lia) ltac:(lia) ltac:(lia)) as (n & p & h' & E & _ & Hb).
  exists n, p, h'. split; [apply E; lia|]. intros Hp. apply (Hb Hp). lia.
Defined.
(** Six blocks that fill a region each, freed again: five regions are kept, one went back. *)
Lemma freed_heap_is_whole_witness : exists h',
  run 2 (replicate 6 (Kmalloc 65000) ++ replicate 6 (Kfree 0)) ([], boot (4096, [])) = Some ([], h') /\
  length (pages h').2 = 5%nat /\ whole h'.
Proof.
  set (cs := replicate 6 (Kmalloc 65000) ++ replicate 6 (Kfree 0)).
  destruct (freed_heap_is_whole 4096 cs) as (n & B & h' & E & Hw); [split; [lia|done]|repeat constructor; simpl; lia|].
  assert ((fun st => (st.1, length (pages st.2).2)) <$> run 2 cs ([], boot (4096, [])) = Some ([], 5%nat)) as Ec by (vm_compute; reflexivity).
  destruct (run 2 cs ([], boot (4096, []))) as [[B2 h2]|] eqn:E2; [|done].
  pose proof (run_fuel _ (2 + n)%nat _ _ _ E2 ltac:(lia)) as E3. rewrite E in E3 by lia. injection E3 as -> ->.
  injection Ec as -> Hn. exists h2. split; [done|]. split; [exact Hn|]. by apply Hw.
Defined.
Lemma allocate_new_tag_wraps_witness : exists h',
  allocate_new_tag 0xFFFFFFF0 (boot 4096) = Some (4096, h') /\
  exists t, deref h' 4096 = Some t /\ size t = 0xFFFFFFF0 /\ real_size t = 65536.
Proof. apply (allocate_new_tag_wraps (boot 4096) 0xFFFFFFF0 4096 69632); [lia|reflexivity|lia]. Defined.
End KernelHeap.
