(* ===== verification/Libk.v ===== *)
(** Kernel/Libk/Libk.cpp: the kernel's memory and string routines over byte memory.

    Addresses are 32 bits and wrap; the loops run over a [size_t] counter.  Each routine is
    compared with what it is to compute on the list of bytes. *)

From S2P Require Import Prelude.

Module Libk.

Fixpoint memset_loop (n : nat) (m : Mem) (buf value i : Z) : Mem :=
  match n with O => m | S n => memset_loop n (storeb m (buf + i) (u8 value)) buf value (i + 1) end.
Definition memset (m : Mem) (bufptr value size : Z) : Mem * Z :=
  (memset_loop (Z.to_nat size) m bufptr value 0, bufptr).

Fixpoint copy_up (n : nat) (m : Mem) (dst src i : Z) : Mem :=
  match n with O => m | S n => copy_up n (storeb m (dst + i) (loadb m (src + i))) dst src (i + 1) end.
(** [for (i = size; i != 0; i--) dst[i-1] = src[i-1];] with [n] rounds left. *)
Fixpoint copy_down (n : nat) (m : Mem) (dst src : Z) : Mem :=
  match n with
  | O => m
  | S k => copy_down k (storeb m (dst + Z.of_nat k) (loadb m (src + Z.of_nat k))) dst src
  end.
Definition memmove (m : Mem) (dstptr srcptr size : Z) : Mem * Z :=
  (if dstptr <? srcptr then copy_up (Z.to_nat size) m dstptr srcptr 0
   else copy_down (Z.to_nat size) m dstptr srcptr, dstptr).
Definition memcpy (m : Mem) (dstptr srcptr size : Z) : Mem * Z :=
  (copy_up (Z.to_nat size) m dstptr srcptr 0, dstptr).

Fixpoint memcmp_loop (n : nat) (m : Mem) (a b i : Z) : Z :=
  match n with
  | O => 0
  | S n => if loadb m (a + i) <? loadb m (b + i) then -1
           else if loadb m (b + i) <? loadb m (a + i) then 1
           else memcmp_loop n m a b (i + 1)
  end.
Definition memcmp (m : Mem) (aptr bptr size : Z) : Z := memcmp_loop (Z.to_nat size) m aptr bptr 0.

(** [while (str[len]) len++;] *)
Fixpoint strlen_loop (fuel : nat) (m : Mem) (str len : Z) : option Z :=
  match fuel with
  | O => None
  | S fuel => if negb (loadb m (str + len) =? 0) then strlen_loop fuel m str (u32 (len + 1)) else Some len
  end.
Definition strlen (fuel : nat) (m : Mem) (str : Z) : option Z := strlen_loop fuel m str 0.

Definition strcpy (fuel : nat) (m : Mem) (destination source : Z) : option (Mem * Z) :=
  n ← strlen fuel m source;
  Some ((memcpy m destination source n).1, destination).

(** ** What the routines compute *)

(** The bytes at [p] replaced by those of [l]. *)
Definition written (m : Mem) (p : Z) (l : list Z) (x : Z) : Z :=
  if (p <=? x) && (x <? p + Z.of_nat (length l)) then default 0 (l !! Z.to_nat (x - p)) else loadb m x.

(** A range inside the address space. *)
Definition range (p n : Z) : Prop := 0 <= p /\ 0 <= n /\ p + n <= 4294967296.

Lemma loadb_storeb m a v x : is_u32 a -> is_u32 x -> loadb (storeb m a v) x = if x =? a then u8 v else loadb m x.
Proof.
  intros Ha Hx. destruct (Z.eqb_spec x a) as [->|Hne].
  - by rewrite loadb_storeb_eq.
  - apply loadb_storeb_ne. rewrite !u32_small by done. done.
Qed.

Lemma written_byte m p n src x :
  written m p (bytes m src n) x =
    if (p <=? x) && (x <? p + Z.of_nat n) then loadb m (src + (x - p)) else loadb m x.
Proof.
  unfold written. rewrite bytes_length. destruct (Z.leb_spec p x), (Z.ltb_spec x (p + Z.of_nat n)); simpl; try done.
  rewrite bytes_lookup by lia. simpl. f_equal. lia.
Qed.

Lemma memset_loop_spec n : forall m buf value i x,
  range buf (i + Z.of_nat n) -> 0 <= i -> is_u32 x ->
  loadb (memset_loop n m buf value i) x =
    if (buf + i <=? x) && (x <? buf + i + Z.of_nat n) then u8 value else loadb m x.
Proof.
  unfold range. induction n as [|n IH]; intros m buf value i x Hr Hi Hx; simpl; [zcases|]. rewrite IH by (done || lia).
  rewrite loadb_storeb by (unfold is_u32 in *; lia). rewrite u8_u8. zcases.
Qed.

(** Copying upwards is right when the destination starts below the source. *)
Lemma copy_up_spec n : forall m dst src i x,
  range dst (i + Z.of_nat n) -> range src (i + Z.of_nat n) -> 0 <= i -> is_u32 x ->
  dst <= src \/ src + i + Z.of_nat n <= dst + i ->
  loadb (copy_up n m dst src i) x =
    if (dst + i <=? x) && (x <? dst + i + Z.of_nat n) then loadb m (src + (x - dst)) else loadb m x.
Proof.
  unfold range. induction n as [|n IH]; intros m dst src i x Hd Hs Hi Hx Hov; simpl; [zcases|].
  rewrite IH by (done || lia).
  destruct (Z.leb_spec (dst + (i + 1)) x); simpl; [destruct (Z.ltb_spec x (dst + (i + 1) + Z.of_nat n)); simpl|].
  - rewrite loadb_storeb by (unfold is_u32 in *; lia). zcases.
  - rewrite loadb_storeb by (unfold is_u32 in *; lia). zcases.
  - rewrite loadb_storeb by (unfold is_u32 in *; lia). rewrite u8_small by apply loadb_range. zcases. f_equal. lia.
Qed.

(** Copying downwards is right when the destination starts at or above the source. *)
Lemma copy_down_spec n : forall m dst src x,
  range dst (Z.of_nat n) -> range src (Z.of_nat n) -> is_u32 x -> src <= dst ->
  loadb (copy_down n m dst src) x =
    if (dst <=? x) && (x <? dst + Z.of_nat n) then loadb m (src + (x - dst)) else loadb m x.
Proof.
  unfold range. induction n as [|n IH]; intros m dst src x Hd Hs Hx Hov; cbn [copy_down]; [zcases|].
  rewrite IH by (done || lia).
  destruct (Z.leb_spec dst x); simpl; [destruct (Z.ltb_spec x (dst + Z.of_nat n)); simpl|].
  - rewrite loadb_storeb by (unfold is_u32 in *; lia). zcases.
  - rewrite loadb_storeb by (unfold is_u32 in *; lia). rewrite u8_small by apply loadb_range. zcases. f_equal. lia.
  - rewrite loadb_storeb by (unfold is_u32 in *; lia). zcases.
Qed.

(** Memmove copies correctly however the two ranges overlap: afterwards the destination
    holds the bytes the source held before, and every other byte is as it was. *)
Theorem memmove_copies (m : Mem) (dst src : Z) (n : nat) (x : Z) :
  range dst (Z.of_nat n) -> range src (Z.of_nat n) -> is_u32 x ->
  loadb (memmove m dst src (Z.of_nat n)).1 x = written m dst (bytes m src n) x.
Proof.
  intros Hd Hs Hx. rewrite written_byte. unfold memmove, fst. rewrite Nat2Z.id. destruct (Z.ltb_spec dst src).
  - rewrite copy_up_spec by (done || lia). by rewrite Z.add_0_r.
  - apply copy_down_spec; done || lia.
Qed.

Lemma memmove_copies_witness :
  loadb (memmove (storel (fun _ => 0) 100 [1; 2; 3; 4]) 101 100 3).1 103 = 3.
Proof.
  change 3 with (Z.of_nat 3) at 1. rewrite (memmove_copies _ 101 100 3 103); [reflexivity|unfold range; lia|unfold range; lia|unfold is_u32; lia].
Defined.

(** memcpy agrees with memmove when the destination does not start inside the source. *)
Lemma memcpy_spec (m : Mem) (dst src : Z) (n : nat) (x : Z) :
  range dst (Z.of_nat n) -> range src (Z.of_nat n) -> is_u32 x -> dst <= src \/ src + Z.of_nat n <= dst ->
  loadb (memcpy m dst src (Z.of_nat n)).1 x = written m dst (bytes m src n) x.
Proof.
  intros Hd Hs Hx Hov. rewrite written_byte. unfold memcpy, fst. rewrite Nat2Z.id.
  rewrite copy_up_spec by (done || lia). by rewrite Z.add_0_r.
Qed.
Lemma memset_spec (m : Mem) (p v n x : Z) :
  range p n -> is_u32 x ->
  loadb (memset m p v n).1 x = if (p <=? x) && (x <? p + n) then u8 v else loadb m x.
Proof.
  intros Hr Hx. unfold memset, fst. destruct Hr as (? & ? & ?).
  rewrite memset_loop_spec by (unfold range; done || lia). by rewrite Z.add_0_r, Z2Nat.id by lia.
Qed.

(** ** Comparison *)

(** The sign of the lexicographic comparison. *)
Fixpoint lex (l1 l2 : list Z) : Z :=
  match l1, l2 with
  | x :: l1, y :: l2 => if x <? y then -1 else if y <? x then 1 else lex l1 l2
  | [], [] => 0
  | [], _ => -1
  | _, [] => 1
  end.

Lemma memcmp_loop_spec n : forall m a b i, memcmp_loop n m a b i = lex (bytes m (a + i) n) (bytes m (b + i) n).
Proof.
  induction n as [|n IH]; intros m a b i; simpl; [done|]. rewrite IH, !Z.add_assoc. done.
Qed.

Lemma lex_zero l1 : forall l2, lex l1 l2 = 0 <-> l1 = l2.
Proof.
  induction l1 as [|x l1 IH]; intros [|y l2]; simpl; try (split; [lia|done]); [done|].
  destruct (Z.ltb_spec x y); [split; [lia|intros [=]; lia]|]. destruct (Z.ltb_spec y x); [split; [lia|intros [=]; lia]|].
  rewrite IH. split; [intros ->; f_equal; lia|by intros [=]].
Qed.
Lemma lex_antisym l1 : forall l2, lex l1 l2 = - lex l2 l1.
Proof. induction l1 as [|x l1 IH]; intros [|y l2]; simpl; try done. rewrite IH. zcases. Qed.
Lemma lex_trans l1 : forall l2 l3, lex l1 l2 <= 0 -> lex l2 l3 <= 0 -> lex l1 l3 <= 0.
Proof.
  induction l1 as [|x l1 IH]; intros [|y l2] [|z l3]; simpl; try lia.
  destruct (Z.ltb_spec x y), (Z.ltb_spec y x), (Z.ltb_spec y z), (Z.ltb_spec z y), (Z.ltb_spec x z), (Z.ltb_spec z x); try lia.
  eauto.
Qed.

(** [memcmp] orders memory: its result is -1, 0 or 1 and the sign of the lexicographic
    comparison of the two byte ranges, so it is 0 exactly on equal ranges, swapping the arguments
    negates it, and "not above" is transitive. *)
Theorem memcmp_orders (m : Mem) (a b c : Z) (n : nat) :
  memcmp m a b (Z.of_nat n) = lex (bytes m a n) (bytes m b n) /\
  (memcmp m a b (Z.of_nat n) = 0 <-> bytes m a n = bytes m b n) /\
  memcmp m b a (Z.of_nat n) = - memcmp m a b (Z.of_nat n) /\
  (memcmp m a b (Z.of_nat n) <= 0 -> memcmp m b c (Z.of_nat n) <= 0 -> memcmp m a c (Z.of_nat n) <= 0).
Proof.
  assert (forall a b, memcmp m a b (Z.of_nat n) = lex (bytes m a n) (bytes m b n)) as H.
  { intros p q. unfold memcmp. rewrite Nat2Z.id, memcmp_loop_spec. by rewrite !Z.add_0_r. }
  rewrite !H. split_and!; [done|apply lex_zero|apply lex_antisym|apply lex_trans].
Qed.

Lemma memcmp_orders_witness :
  let m := storel (fun _ => 0) 100 [1; 2; 1; 3; 1; 3] in memcmp m 100 104 (Z.of_nat 2) <= 0.
Proof.
  intros m. destruct (memcmp_orders m 100 102 104 2) as (_ & _ & _ & H).
  apply H; vm_compute; discriminate.
Defined.

(** ** Strings *)

Lemma strlen_loop_spec m p s : forall fuel k,
  cstring m (p + k) s -> 0 <= k -> k + Z.of_nat (length s) < 4294967296 -> (length s < fuel)%nat ->
  strlen_loop fuel m p k = Some (k + Z.of_nat (length s)).
Proof.
  induction s as [|c s IH]; intros [|fuel] k Hs Hk Hb Hf; simpl in Hf; try lia; cbn [strlen_loop cstring length] in *.
  - rewrite Hs. simpl. f_equal. lia.
  - destruct Hs as (-> & Hc & Hs). rewrite (proj2 (Z.eqb_neq _ _)) by done. cbn [negb].
    rewrite u32_small by (unfold is_u32; lia). rewrite IH; [f_equal; lia|by rewrite Z.add_assoc|lia|lia|lia].
Qed.
Lemma strlen_spec m p s fuel :
  cstring m p s -> Z.of_nat (length s) < 4294967296 -> (length s < fuel)%nat ->
  strlen fuel m p = Some (Z.of_nat (length s)).
Proof. intros. unfold strlen. rewrite (strlen_loop_spec m p s); [done|by rewrite Z.add_0_r|lia..]. Qed.

Lemma cstring_bytes m p s : cstring m p s -> bytes m p (length s) = s.
Proof. revert p; induction s as [|c s IH]; intros p Hs; simpl; [done|]. destruct Hs as (-> & _ & Hs). by rewrite IH. Qed.

(** Strcpy copies the characters of the string but not its terminator: the byte after the
    copy keeps its old value, so that the destination is a string only where a NUL stood
    already. *)
Theorem strcpy_drops_terminator (fuel : nat) (m : Mem) (dst src : Z) (s : list Z) :
  cstring m src s -> range dst (Z.of_nat (length s) + 1) -> range src (Z.of_nat (length s)) ->
  dst <= src \/ src + Z.of_nat (length s) <= dst -> (length s < fuel)%nat ->
  exists m', strcpy fuel m dst src = Some (m', dst) /\
    (forall i c, s !! i = Some c -> loadb m' (dst + Z.of_nat i) = c) /\
    loadb m' (dst + Z.of_nat (length s)) = loadb m (dst + Z.of_nat (length s)).
Proof.
  intros Hs Hd Hr Hov Hf. unfold range in *. unfold strcpy. rewrite (strlen_spec m src s) by (done || lia). cbn [mbind option_bind].
  eexists. split; [done|]. split.
  - intros i c Hi. pose proof (lookup_lt_Some _ _ _ Hi). rewrite memcpy_spec by (unfold range, is_u32; lia).
    rewrite written_byte. rewrite (proj2 (Z.leb_le _ _)), (proj2 (Z.ltb_lt _ _)) by lia. cbn [andb].
    destruct (cstring_lookup _ _ _ _ _ Hs Hi) as [E _]. rewrite <- E. f_equal. lia.
  - destruct (Z.eq_dec (dst + Z.of_nat (length s)) 4294967296) as [E|E]; [lia|].
    rewrite memcpy_spec by (unfold range, is_u32; lia). rewrite written_byte. zcases.
Qed.

Lemma strcpy_drops_terminator_witness :
  exists m', strcpy 5 (storel (fun _ => 7) 100 [65; 66; 0]) 200 100 = Some (m', 200) /\ loadb m' 202 = 7.
Proof.
  destruct (strcpy_drops_terminator 5 (storel (fun _ => 7) 100 [65; 66; 0]) 200 100 [65; 66]) as (m' & E & _ & H);
    [vm_compute; repeat split; discriminate|unfold range; simpl; lia..|].
  exists m'. split; [exact E|exact H].
Defined.

End Libk.
