(* ===== verification/Boot.v ===== *)
(** Kernel/Multiboot.h, Multiboot.cpp, and the initialisation of the memory manager
    (physicalAllocatorInit and MemoryManager::init): from the boot loader's memory map and module
    list to a frame bitmap and the kernel's page directory.

    The multiboot structures are read from the machine's memory, at the offsets the structs have
    on i686. *)

From S2P Require Import Prelude PhysicalAllocator VirtualMemory MemoryManager.

Module Boot.
Import PhysicalAllocator VirtualMemory MemoryManager.

Definition MULTIBOOT_BOOTLOADER_MAGIC : Z := 0x2BADB002.

(** The fields of MultibootInfo the kernel uses. *)
Record MultibootInfo := MkInfo { modsCount : Z; modsAddress : Z; mmapLength : Z; mmapAddress : Z }.
Definition read_info (m : Mem) (mbinfo : Z) : MultibootInfo :=
  MkInfo (load32 m (mbinfo + 20)) (load32 m (mbinfo + 24)) (load32 m (mbinfo + 44)) (load32 m (mbinfo + 48)).

Record ModuleInfo := MkModule { modStart : Z; modEnd : Z }.
Definition MODULE_SIZE : Z := 16.
Definition read_module (m : Mem) (a : Z) : ModuleInfo := MkModule (load32 m a) (load32 m (a + 4)).

Definition load64 (m : Mem) (a : Z) : Z := load32 m a + 4294967296 * load32 m (a + 4).
Record MemoryMap := MkMap { map_size : Z; address : Z; length_ : Z; type_ : Z }.
Definition read_map (m : Mem) (a : Z) : MemoryMap :=
  MkMap (load32 m a) (load64 m (a + 4)) (load64 m (a + 12)) (load32 m (a + 20)).

(** ** loadMemoryMap *)

(** The first page and the length in bytes that one entry gives to the allocator: 64-bit fields
    are cut to 32 bits. *)
Definition entry_start (e : MemoryMap) : Z :=
  let startAddress := u32 (address e) in
  if startAddress mod PAGE_SIZE >? 0 then u32 (startAddress + (PAGE_SIZE - startAddress mod PAGE_SIZE)) else startAddress.
Definition entry_length (e : MemoryMap) : Z :=
  let base := u32 (address e) in
  let size := u32 (length_ e) in
  let length := if base mod PAGE_SIZE >? 0 then u32 (size - (PAGE_SIZE - base mod PAGE_SIZE)) else size in
  u32 (length - size mod PAGE_SIZE).

Definition load_entry (e : MemoryMap) (d : MemoryManagerData) (totalFreeMemory : Z) : MemoryManagerData * Z :=
  if type_ e =? 1
  then (physicalFree d (entry_start e) (entry_length e / PAGE_SIZE), u32 (totalFreeMemory + entry_length e))
  else (d, totalFreeMemory).

(** [(uint64_t)map]: a pointer widens with its sign. *)
Definition ptr64 (p : Z) : Z := u64 (s32 p).

Fixpoint loadMemoryMap_loop (fuel : nat) (m : Mem) (info : MultibootInfo) (map : Z) (d : MemoryManagerData) (totalFreeMemory : Z)
  : option (MemoryManagerData * Z) :=
  match fuel with
  | O => None
  | S fuel =>
      if ptr64 map <? u32 (mmapAddress info + mmapLength info) then
        let e := read_map m map in
        let '(d, total) := load_entry e d totalFreeMemory in
        loadMemoryMap_loop fuel m info (u32 (u64 (ptr64 map + map_size e + 4))) d total
      else Some (d, totalFreeMemory)
  end.
Definition loadMemoryMap (fuel : nat) (m : Mem) (info : MultibootInfo) (d : MemoryManagerData) : option (MemoryManagerData * Z) :=
  loadMemoryMap_loop fuel m info (mmapAddress info) d 0.

Definition with_total (d : MemoryManagerData) (t : Z) : MemoryManagerData :=
  MkData t (UsedMemory d) (PhysicalAllocation d).
Definition physicalAllocatorInit (fuel : nat) (m : Mem) (info : MultibootInfo) (d : MemoryManagerData)
  : option (MemoryManagerData * list LogEntry) :=
  '(d, total) ← loadMemoryMap fuel m info (init_bitmap d);
  Some (with_total d total, [Printk (crlf "Total physical memory: %dmb") [total / 1024 / 1024]]).

(** ** Modules and the kernel's directory *)

Fixpoint reserveModuleMemory_loop (fuel n : nat) (lay : Layout) (s : MM) (module : Z) : option MM :=
  match n with
  | O => Some s
  | S n =>
      let md := read_module (mem s) module in
      let size := u32 (modEnd md - modStart md) in
      let s := with_phys s (physicalFree (phys s) (modStart md) (size / PAGE_SIZE)) in
      match identityMap fuel s (kernelPageDirectory lay) (modStart md) size with
      | None => None
      | Some s => reserveModuleMemory_loop fuel n lay s (u32 (module + MODULE_SIZE))
      end
  end.
Definition reserveModuleMemory (fuel : nat) (lay : Layout) (info : MultibootInfo) (s : MM) : option MM :=
  reserveModuleMemory_loop fuel (Z.to_nat (modsCount info)) lay s (modsAddress info).

(** MemoryManager::init: the machine with paging on, and what is loaded into cr3. *)
Definition init (fuel : nat) (lay : Layout) (info : MultibootInfo) (s : MM) : option (MM * Z) :=
  '(d, log) ← physicalAllocatorInit fuel (mem s) info (phys s);
  let s := with_log (with_phys s d) log in
  s ← mapKernelMemory fuel lay s;
  s ← identityMap fuel s (kernelPageDirectory lay) 0 (__start lay);
  s ← reserveModuleMemory fuel lay info s;
  Some (s, GetPhysicalAddress s (kernelPageDirectory lay) (kernelPageDirectory lay)).

(** ** The memory map, abstractly *)

(** The entries [l] stand in memory one after the other from [a] to [e]. *)
Fixpoint map_at (m : Mem) (a : Z) (l : list MemoryMap) (e : Z) : Prop :=
  match l with
  | [] => a = e
  | en :: l => read_map m a = en /\ 0 <= map_size en /\ a + map_size en + 4 <= e /\ map_at m (a + map_size en + 4) l e
  end.

(** The whole pages of an entry that the kernel takes: from its first page boundary, as many as
    its length leaves after the alignment and after dropping [length mod 4096] bytes. *)
Definition first_page (e : MemoryMap) : Z := (address e + 4095) / 4096.
Definition num_bytes (e : MemoryMap) : Z := length_ e - (first_page e * 4096 - address e) - length_ e mod 4096.
Definition in_entry (e : MemoryMap) (q : Z) : bool :=
  (type_ e =? 1) && (first_page e <=? q) && (q <? first_page e + num_bytes e / 4096).

(** An entry below 4 GiB whose length covers the alignment. *)
Definition good (e : MemoryMap) : Prop :=
  0 <= address e /\ 0 <= length_ e /\ address e + length_ e <= 4294963200 /\ (type_ e = 1 -> 0 <= num_bytes e).

Lemma in_entry_inside e q :
  good e -> in_entry e q = true -> type_ e = 1 /\ address e <= q * 4096 /\ (q + 1) * 4096 <= address e + length_ e.
Proof.
  intros (H1 & H2 & H3 & H4) Hq. unfold in_entry in Hq. bool_facts. split; [done|].
  unfold num_bytes, first_page in *. clear H4. zlia.
Qed.

Lemma frames_range p n q :
  is_u32 p -> p mod 4096 = 0 -> 0 <= n -> p + n * 4096 <= 4294967296 ->
  q ∈ frames p n <-> p / 4096 <= q < p / 4096 + n.
Proof.
  intros Hp Hpa Hn Hpn. rewrite elem_of_frames.
  assert (forall k, 0 <= k < n -> frame (page_address p k) = p / 4096 + k) as Hf.
  { intros k Hk. unfold frame, page_address, PAGE_SIZE. unfold is_u32 in Hp. zlia. }
  split.
  - intros (k & Hk & ->). rewrite Hf by done. lia.
  - intros Hq. exists (q - p / 4096). split; [lia|]. rewrite Hf by lia. lia.
Qed.

Lemma entry_values e : good e -> type_ e = 1 ->
  entry_start e = first_page e * 4096 /\ entry_length e = num_bytes e.
Proof.
  intros (H1 & H2 & H3 & H4) Ht. specialize (H4 Ht). unfold entry_start, entry_length, num_bytes, first_page, PAGE_SIZE in *.
  change 0x1000 with 4096. rewrite (u32_small (address e)), (u32_small (length_ e)) by (unfold is_u32; lia).
  rewrite Z.gtb_ltb. destruct (Z.ltb_spec 0 (address e mod 4096)).
  - rewrite !u32_small; unfold is_u32; rewrite ?u32_small by (unfold is_u32; zlia); zlia.
  - rewrite u32_small by (unfold is_u32; zlia). zlia.
Qed.

Lemma load_entry_used e d t q : good e ->
  used (load_entry e d t).1 q = used d q && negb (in_entry e q).
Proof.
  intros Hg. unfold load_entry, in_entry. destruct (Z.eqb_spec (type_ e) 1) as [Ht|Ht]; simpl; [|by rewrite andb_true_r].
  destruct (entry_values e Hg Ht) as [-> ->]. rewrite used_free, andb_comm. f_equal. f_equal. unfold PAGE_SIZE. change 0x1000 with 4096.
  destruct Hg as (H1 & H2 & H3 & H4). specialize (H4 Ht).
  assert (0 <= first_page e * 4096 /\ first_page e * 4096 + num_bytes e <= 4294963200) as [F1 F2]
    by (unfold num_bytes, first_page; zlia).
  pose proof (frames_range (first_page e * 4096) (num_bytes e / 4096) q) as Hf. rewrite Z.div_mul in Hf by lia.
  specialize (Hf ltac:(unfold is_u32; lia) ltac:(apply Z.mod_mul; lia) ltac:(zlia) ltac:(zlia)).
  destruct (existsb (Z.eqb q) _) eqn:E.
  - apply existsb_frames, Hf in E. symmetry. apply andb_true_iff. rewrite Z.leb_le, Z.ltb_lt. lia.
  - symmetry. apply not_true_iff_false. rewrite andb_true_iff, Z.leb_le, Z.ltb_lt. intros Hq. apply Hf, existsb_frames in Hq. congruence.
Qed.

Definition total_free (l : list MemoryMap) : Z :=
  foldr (fun e t => (if type_ e =? 1 then num_bytes e else 0) + t) 0 l.

Lemma load_entry_total e d t : good e -> is_u32 t ->
  (load_entry e d t).2 = u32 (t + if type_ e =? 1 then num_bytes e else 0).
Proof.
  intros Hg Ht. unfold load_entry. destruct (Z.eqb_spec (type_ e) 1) as [He|He]; simpl.
  - by destruct (entry_values e Hg He) as [_ ->].
  - by rewrite Z.add_0_r, u32_small.
Qed.

Lemma load_entry_imbalance e d t : imbalance (load_entry e d t).1 = imbalance d.
Proof. unfold load_entry. case_if; simpl; [apply imbalance_free|done]. Qed.
Lemma load_entry_range e d t : is_u32 (UsedMemory d) -> is_u32 (UsedMemory (load_entry e d t).1).
Proof. intros. unfold load_entry. case_if; simpl; [by apply UsedMemory_free_range|done]. Qed.

Lemma loadMemoryMap_loop_spec m info l : forall fuel a d t,
  map_at m a l (mmapAddress info + mmapLength info) -> Forall good l -> (length l < fuel)%nat ->
  0 <= a -> mmapAddress info + mmapLength info < 2147483648 -> is_u32 t ->
  exists d', loadMemoryMap_loop fuel m info a d t = Some (d', u32 (t + total_free l)) /\
    imbalance d' = imbalance d /\ (is_u32 (UsedMemory d) -> is_u32 (UsedMemory d')) /\
    forall q, used d' q = used d q && negb (existsb (fun e => in_entry e q) l).
Proof.
  assert (forall p, 0 <= p < 2147483648 -> ptr64 p = p) as Hptr.
  { intros p Hp. unfold ptr64. rewrite s32_small by lia. apply u64_small. unfold is_u64. lia. }
  induction l as [|e l IH]; intros [|fuel] a d t Hm Hg Hf Ha Hend Ht; simpl in Hf; try lia; cbn [loadMemoryMap_loop map_at] in *.
  - subst a. rewrite Hptr, u32_small by (unfold is_u32; lia). rewrite Z.ltb_irrefl. exists d. cbn [total_free foldr].
    rewrite Z.add_0_r, u32_small by done. split_and!; try done. intros q. by rewrite andb_true_r.
  - destruct Hm as (Hr & Hs & Hle & Hm). inversion_clear Hg as [|? ? Hge Hgl].
    rewrite Hptr, u32_small by (unfold is_u32; lia). rewrite (proj2 (Z.ltb_lt _ _)) by lia. rewrite Hr.
    pose proof (load_entry_used e d t) as Hu. pose proof (load_entry_total e d t Hge Ht) as Htt.
    pose proof (load_entry_imbalance e d t) as Hi. pose proof (load_entry_range e d t) as Hrg.
    destruct (load_entry e d t) as [d1 t1]. simpl in *. subst t1.
    rewrite u64_small by (unfold is_u64; lia). rewrite u32_small by (unfold is_u32; lia).
    destruct (IH fuel (a + map_size e + 4) d1 (u32 (t + if type_ e =? 1 then num_bytes e else 0))) as (d' & E & Hi' & Hr' & Hu');
      try done; try lia; [apply u32_range|].
    exists d'. split; [rewrite E; do 2 f_equal; rewrite u32_add_l; f_equal; lia|]. split_and!; [congruence|auto|].
    intros q. rewrite Hu', Hu by done. rewrite negb_orb, andb_assoc. done.
Qed.

(** ** Theorems *)

Lemma init_used d q : 0 <= q < 1048568 -> used (init_bitmap d) q = true.
Proof.
  intros Hq. unfold used, init_bitmap. cbn [PhysicalAllocation].
  assert ((0 <=? q / 8) && (q / 8 <? ALLOCATION_BYTES) = true) as ->.
  { apply andb_true_iff. rewrite Z.leb_le, Z.ltb_lt. unfold ALLOCATION_BYTES, MAX_NUM_PHYSICAL_PAGES, TOTAL_MEMORY, PAGE_SIZE.
    change (0xFFFFFFFF / 0x1000 / 8) with 131071. zlia. }
  assert (0 <= q mod 8 < 8) as Hm by (apply Z.mod_pos_bound; lia). change (u8 255) with (Z.ones 8). apply Z.ones_spec_low. lia.
Qed.

(** The frame bitmap after physicalAllocatorInit is the boot loader's memory map.  For a map
    of entries below 4 GiB whose usable entries are at least as long as their alignment, loading
    ends, TotalMemory is the number of bytes taken (mod 2^32), and a frame is free exactly when
    it is one of the pages taken from a usable entry; each such frame lies wholly inside an entry
    of type 1. *)
Theorem memory_map_loaded (m : Mem) (info : MultibootInfo) (l : list MemoryMap) (d : MemoryManagerData) (fuel : nat) :
  map_at m (mmapAddress info) l (mmapAddress info + mmapLength info) -> Forall good l ->
  0 <= mmapAddress info -> mmapAddress info + mmapLength info < 2147483648 -> (length l < fuel)%nat ->
  exists d' log, physicalAllocatorInit fuel m info d = Some (d', log) /\ TotalMemory d' = u32 (total_free l) /\
    (forall q, 0 <= q < 1048568 -> used d' q = negb (existsb (fun e => in_entry e q) l)) /\
    (forall q e, e ∈ l -> in_entry e q = true -> type_ e = 1 /\ address e <= q * 4096 /\ (q + 1) * 4096 <= address e + length_ e).
Proof.
  intros Hm Hg Ha He Hf. unfold physicalAllocatorInit, loadMemoryMap.
  destruct (loadMemoryMap_loop_spec m info l fuel (mmapAddress info) (init_bitmap d) 0) as (d' & E & _ & _ & Hu);
    try done. rewrite E. cbn [mbind option_bind]. do 2 eexists. split; [done|]. split; [done|]. split.
  - intros q Hq. change (used (with_total d' _) q) with (used d' q). rewrite Hu, init_used by done. done.
  - intros q e Hin. apply in_entry_inside. by rewrite Forall_forall in Hg; apply Hg.
Qed.

Lemma imbalance_eq d : imbalance d = u32 (UsedMemory d - PAGE_SIZE * count_used d).
Proof. reflexivity. Qed.
Lemma UsedMemory_init d : UsedMemory (init_bitmap d) = 0.
Proof. reflexivity. Qed.
Lemma counter_arith u x y :
  is_u32 u -> u32 (u - PAGE_SIZE * y) = u32 (0 - PAGE_SIZE * x) -> u = u32 (- (PAGE_SIZE * (x - y))).
Proof.
  unfold is_u32, u32, PAGE_SIZE. change 0x1000 with 4096. intros Hu E. rewrite <- (Z.mod_small u 4294967296) at 1 by lia.
  replace u with (u - 4096 * y + 4096 * y) by lia. rewrite <- Zplus_mod_idemp_l, E, Zplus_mod_idemp_l. f_equal. lia.
Qed.
Lemma count_used_total d t : count_used (with_total d t) = count_used d.
Proof. unfold count_used. generalize (seqZ 0 NUM_FRAMES). reflexivity. Qed.

(** The use counter starts below zero.  physicalAllocatorInit sets UsedMemory to 0 while it marks
    every frame used, and then frees the usable ones: afterwards UsedMemory is minus the bytes of
    the frames freed, modulo 2^32. *)
Theorem used_memory_starts_negative (m : Mem) (info : MultibootInfo) (l : list MemoryMap) (d : MemoryManagerData) (fuel : nat) :
  map_at m (mmapAddress info) l (mmapAddress info + mmapLength info) -> Forall good l ->
  0 <= mmapAddress info -> mmapAddress info + mmapLength info < 2147483648 -> (length l < fuel)%nat ->
  exists d' log, physicalAllocatorInit fuel m info d = Some (d', log) /\
    UsedMemory d' = u32 (- (PAGE_SIZE * (count_used (init_bitmap d) - count_used d'))).
Proof.
  intros Hm Hg Ha He Hf. unfold physicalAllocatorInit, loadMemoryMap.
  destruct (loadMemoryMap_loop_spec m info l fuel (mmapAddress info) (init_bitmap d) 0) as (d' & E & Hi & Hr & _);
    [done..|unfold is_u32; lia|]. rewrite E. cbn [mbind option_bind]. do 2 eexists. split; [reflexivity|].
  rewrite count_used_total. cbn [UsedMemory with_total].
  apply counter_arith; [apply Hr; split; [apply Z.le_refl|reflexivity]|].
  rewrite !imbalance_eq, UsedMemory_init in Hi. exact Hi.
Qed.

(** A PC's map: 639 KiB at 0 with an unaligned end, a reserved hole, and 7 MiB from 1 MiB. *)
Definition ex_map : list MemoryMap :=
  [MkMap 20 0 654336 1; MkMap 20 654336 1024 2; MkMap 20 1048576 7340032 1].
Definition le (n : nat) (v : Z) : list Z := (fun i => v / 256 ^ Z.of_nat i mod 256) <$> seq 0 n.
Definition ex_map_mem : Mem :=
  storel (fun _ => 0) 4096
    (mjoin ((fun e => le 4 (map_size e) ++ le 8 (address e) ++ le 8 (length_ e) ++ le 4 (type_ e)) <$> ex_map)).
Definition ex_info : MultibootInfo := MkInfo 0 0 72 4096.

Lemma ex_map_at : map_at ex_map_mem 4096 ex_map 4168.
Proof. repeat (split; [vm_compute; (reflexivity || discriminate)|]). reflexivity. Qed.
Lemma ex_map_good : Forall good ex_map.
Proof. repeat constructor; try (simpl; lia); intros _; vm_compute; discriminate. Qed.

Lemma memory_map_loaded_witness : exists d' log,
  physicalAllocatorInit 4 ex_map_mem ex_info (MkData 0 0 (fun _ => 0)) = Some (d', log) /\
  used d' 3 = false /\ used d' 159 = true /\ used d' 256 = false.
Proof.
  destruct (memory_map_loaded ex_map_mem ex_info ex_map (MkData 0 0 (fun _ => 0)) 4 ex_map_at ex_map_good)
    as (d' & log & E & _ & Hu & _); [simpl; lia..|].
  exists d', log. split; [exact E|]. rewrite !Hu by lia. repeat split; vm_compute; reflexivity.
Defined.
Lemma used_memory_starts_negative_witness : exists d' log,
  physicalAllocatorInit 4 ex_map_mem ex_info (MkData 0 0 (fun _ => 0)) = Some (d', log) /\
  UsedMemory d' = u32 (- (PAGE_SIZE * (count_used (init_bitmap (MkData 0 0 (fun _ => 0))) - count_used d'))).
Proof.
  apply (used_memory_starts_negative ex_map_mem ex_info ex_map (MkData 0 0 (fun _ => 0)) 4 ex_map_at ex_map_good); simpl; lia.
Defined.

(** An entry shorter than its alignment: the length wraps and nearly 4 GiB are declared free. *)
Example short_entry_wraps :
  let e := MkMap 20 4097 256 1 in entry_length e = 4294963201 /\ entry_length e / PAGE_SIZE = 1048575.
Proof. vm_compute. split; reflexivity. Qed.

End Boot.
