(* ===== verification/BootMemory.v ===== *)
(** The machine after MemoryManager::init (Kernel/MemoryManager/MemoryManager.cpp): paging starts
    in a state that satisfies the invariant under which the page allocator is proved correct.

    Every step of init after the memory map marks some pages used and maps them to themselves;
    [identity] says so for a set of page numbers, and the steps compose. *)

From S2P Require Import Prelude PhysicalAllocator VirtualMemory MemoryManager Boot.

Module BootMemory.
Import PhysicalAllocator VirtualMemory MemoryManager Boot.

(** ** Ranges of pages *)

Definition in_range (p n q : Z) : bool := (p <=? q) && (q <? p + n).

Lemma in_range_iff p n q : in_range p n q = true <-> p <= q < p + n.
Proof. unfold in_range. rewrite andb_true_iff, Z.leb_le, Z.ltb_lt. done. Qed.

(** The pages that identityMap maps for [size] bytes: one more than the size needs when the size
    is already a multiple of the page size. *)
Definition page_count (size : Z) : Z := size / 4096 + 1.

Lemma PAGE_ALIGN_count size : 0 <= size <= 4294959103 -> PAGE_ALIGN size / PAGE_SIZE = page_count size.
Proof. intros H. unfold PAGE_ALIGN, page_count, PAGE_SIZE. change 0x1000 with 4096. zlia. Qed.

Lemma existsb_range a n q : is_u32 a -> a mod 4096 = 0 -> 0 <= n -> a + n * 4096 <= 4294967296 ->
  existsb (Z.eqb q) (frames a n) = in_range (a / 4096) n q.
Proof.
  intros Ha Haa Hn Han. pose proof (frames_range a n q Ha Haa Hn Han) as H.
  rewrite <- existsb_frames, <- in_range_iff in H.
  destruct (existsb _ _), (in_range _ _ _); try done; [by rewrite (proj1 H)|by rewrite (proj2 H)].
Qed.

(** ** Identity mapping *)

(** From [s] to [s'] the pages of [P] were marked used and mapped to themselves in the directory
    [pd], and nothing else changed but the interrupt flag and the count of flushes. *)
Record identity (s s' : MM) (pd : Z) (P : Z -> bool) : Prop := {
  id_used : forall q, used (phys s') q = P q || used (phys s) q;
  id_dir : same_dir s s' pd;
  id_total : TotalMemory (phys s') = TotalMemory (phys s);
  id_log : mlog s' = mlog s;
  id_translate : forall v, is_u32 v ->
    translate s' pd v = if P (v / 4096) then Some v else translate s pd v;
  id_mem : forall a, is_u32 a -> (forall i, has_table s pd i -> a / 4096 * 4096 <> table s pd i) ->
    loadb (mem s') a = loadb (mem s) a
}.

Lemma identity_refl s pd : identity s s pd (fun _ => false).
Proof. by split. Qed.

Lemma identity_trans s s1 s2 pd P Q :
  identity s s1 pd P -> identity s1 s2 pd Q -> identity s s2 pd (fun q => Q q || P q).
Proof.
  intros [A1 A2 A3 A4 A5 A6] [B1 B2 B3 B4 B5 B6]. split; try congruence.
  - intros q. by rewrite B1, A1, orb_assoc.
  - intros i Hi. by rewrite B2, A2.
  - intros v Hv. rewrite B5, A5 by done. by destruct (Q _).
  - intros a Ha Hat. rewrite B6; [by apply A6|done|]. intros i Hi.
    rewrite (has_table_same s s1) in Hi by done. rewrite (table_same s s1) by (done || apply Hi). auto.
Qed.

Lemma identity_ext s s' pd P Q : (forall q, P q = Q q) -> identity s s' pd P -> identity s s' pd Q.
Proof.
  intros E [A1 A2 A3 A4 A5 A6]. split; try done.
  - intros q. by rewrite <- E.
  - intros v Hv. by rewrite <- E, A5.
Qed.

Lemma identity_dir s s' pd P : kernel_dir s pd -> identity s s' pd P -> kernel_dir s' pd.
Proof.
  intros [Hw Ht] Hid. split; [eapply wf_dir_same; [done|apply Hid]|].
  intros i Hi. apply (has_table_same s s'); [apply Hid|auto].
Qed.

Lemma TotalMemory_free_loop n : forall d a i, TotalMemory (physicalFree_loop n d a i) = TotalMemory d.
Proof.
  induction n as [|n IH]; intros d a i; [done|]. simpl. rewrite IH. unfold free_page. by case_if.
Qed.

(** identityMap of an aligned range in the kernel's gigabyte. *)
Lemma identityMap_spec fuel s pd a size :
  kernel_dir s pd -> 0 <= a -> a mod 4096 = 0 -> 0 <= size -> a + page_count size * 4096 <= 1073741824 ->
  exists s', identityMap (S fuel) s pd a size = Some s' /\ interrupts s' = true /\
    identity s s' pd (in_range (a / 4096) (page_count size)).
Proof.
  intros Hk Ha Haa Hs Hn. pose proof Hk as [Hw _]. cbn [identityMap].
  assert (size <= 1073741824) as Hs' by (unfold page_count in Hn; zlia).
  rewrite PAGE_ALIGN_count by lia. cbv zeta. set (n := page_count size) in *.
  assert (0 < n) as Hn0 by (unfold n, page_count; zlia).
  set (s2 := with_phys _ _).
  assert (same_dir s s2 pd) as Hsd by (by intros i Hi).
  destruct (map_loop_present (identityMap fuel) (Z.to_nat n) s2 pd a a false) as (s3 & -> & Hm);
    rewrite ?Z2Nat.id in * by lia; try lia; try done.
  { by eapply wf_dir_same. }
  { intros k Hk'. rewrite (has_table_same s s2) by done. eapply kernel_tables; eauto; lia. }
  destruct Hm as (M1 & M2 & M3 & M4 & M5 & M6).
  exists (atomicDisable s3). split; [done|]. split; [done|]. split; simpl.
  - intros q. rewrite M1. unfold s2. simpl. rewrite used_allocateAt. f_equal.
    apply existsb_range; [unfold is_u32; lia|done|lia|lia].
  - intros i Hi. transitivity (pde s3 pd i); [done|]. rewrite M4 by done. apply Hsd, Hi.
  - rewrite M1. apply TotalMemory_allocateAt.
  - by rewrite M3.
  - intros v Hv. transitivity (translate s3 pd v); [done|]. rewrite M5 by done.
    assert (in_pages a n v = in_range (a / 4096) n (v / 4096)) as -> by done. case_if; [|done].
    f_equal. unfold mapped_to. zlia.
  - intros x Hx Hxt. rewrite M6; [done|done|exact Hxt].
Qed.

(** ** The kernel's page tables *)

(** The image as the linker lays it out: directory and tables are whole pages inside it, in the
    first gigabyte, and do not overlap. *)
Record layout_ok (lay : Layout) : Prop := {
  lay_dir : kernelPageDirectory lay mod 4096 = 0;
  lay_tables : kernelPageTable lay mod 4096 = 0;
  lay_start : 0 < __start lay;
  lay_dir_in : __start lay <= kernelPageDirectory lay /\ kernelPageDirectory lay + 4096 <= _kernel_end lay;
  lay_tables_in : __start lay <= kernelPageTable lay /\ kernelPageTable lay + 1048576 <= _kernel_end lay;
  lay_apart : kernelPageDirectory lay + 4096 <= kernelPageTable lay \/
    kernelPageTable lay + 1048576 <= kernelPageDirectory lay;
  lay_end : _kernel_end lay <= 1073733632
}.

(** The kernel directory with the tables of [lay] in it. *)
Definition kernel_tables_of (lay : Layout) (s : MM) : Prop :=
  forall i, 0 <= i < 256 -> table s (kernelPageDirectory lay) i = kernelPageTable lay + 4096 * i.

(** The bytes of the directory and of its tables. *)
Definition paging_byte (lay : Layout) (a : Z) : Prop :=
  kernelPageDirectory lay <= a < kernelPageDirectory lay + 4096 \/
  kernelPageTable lay <= a < kernelPageTable lay + 1048576.

Lemma mapKernelPageTable_loop_spec lay n : forall m pd i,
  0 <= i -> i + Z.of_nat n <= 256 -> 0 <= pd <= 4294963200 ->
  let m' := mapKernelPageTable_loop n lay m pd i in
  (forall j, i <= j < i + Z.of_nat n -> exists w, load32 m' (pd + 4 * j) =
     kernel_entry w (u32 (kernelPageTable lay + 4096 * j) / PAGE_SIZE)) /\
  (forall j, 0 <= j < 1024 -> ~ (i <= j < i + Z.of_nat n) -> load32 m' (pd + 4 * j) = load32 m (pd + 4 * j)) /\
  (forall a, is_u32 a -> ~ (pd <= a < pd + 4096) -> loadb m' a = loadb m a).
Proof.
  induction n as [|n IH]; intros m pd i Hi Hin Hpd; cbn [mapKernelPageTable_loop]; [split_and!; [lia|done|done]|].
  rewrite (u32_small (pd + 4 * i)) by (unfold is_u32; lia). set (w := kernel_entry _ _).
  destruct (IH (store32 m (pd + 4 * i) w) pd (i + 1)) as (H1 & H2 & H3); [lia|lia|done|].
  assert (forall j, 0 <= j < 1024 -> j <> i -> far (pd + 4 * i) 4 (pd + 4 * j) 4) as Hfar
    by (intros j Hj Hne; apply far_range; lia).
  split_and!.
  - intros j Hj. destruct (decide (j = i)) as [->|Hne]; [|apply H1; lia].
    rewrite H2 by lia. rewrite load32_store32_eq by apply set_pfn_range. by eexists.
  - intros j Hj Hne. rewrite H2 by lia. apply load32_store32_ne, Hfar; lia.
  - intros a Ha Hna. rewrite H3 by done. apply loadb_store32_ne, far_range; unfold is_u32 in Ha; lia.
Qed.

Lemma frame_address p : 0 <= p < 4294967296 -> p mod 4096 = 0 -> (p / 4096) mod 1048576 * 4096 = p.
Proof. intros Hp Ha. rewrite Z.mod_small by zlia. zlia. Qed.

(** The directory words after the loop over all tables. *)
Lemma directory_words lay m pd n :
  layout_ok lay -> 0 <= pd <= 4294963200 -> Z.of_nat n = 256 ->
  let m' := mapKernelPageTable_loop n lay m pd 0 in
  (forall i, 0 <= i < 256 -> e_present (load32 m' (pd + 4 * i)) = true /\
     e_pageFrameNumber (load32 m' (pd + 4 * i)) * 4096 = kernelPageTable lay + 4096 * i) /\
  (forall i, 256 <= i < 1024 -> load32 m' (pd + 4 * i) = load32 m (pd + 4 * i)) /\
  (forall a, is_u32 a -> ~ (pd <= a < pd + 4096) -> loadb m' a = loadb m a).
Proof.
  intros [L1 L2 L3 [L4 L4'] [L5 L5'] L6 L7] Hpd Hn m'.
  destruct (mapKernelPageTable_loop_spec lay n m pd 0) as (H1 & H2 & H3); [lia..|].
  fold m' in H1, H2, H3. clearbody m'. split_and!; [| |exact H3].
  - intros i Hi. destruct (H1 i) as [w E]; [lia|]. rewrite E.
    destruct (kernel_entry_spec w (u32 (kernelPageTable lay + 4096 * i) / PAGE_SIZE)) as (_ & Hp & _ & _ & Hf).
    rewrite Hp, Hf. split; [done|].
    change 0xFFFFF with (Z.ones 20). rewrite Z.land_ones by lia. unfold PAGE_SIZE. change 0x1000 with 4096.
    rewrite u32_small by (unfold is_u32; lia). change (2 ^ 20) with 1048576.
    apply frame_address; [lia|]. rewrite Z.mul_comm, Z.mod_add by lia. done.
  - intros i Hi. apply H2; lia.
Qed.

(** After mapKernelPageTable the directory has exactly the kernel's tables, if it had no others. *)
Lemma mapKernelPageTable_spec lay s :
  layout_ok lay -> let pd := kernelPageDirectory lay in
  (forall i, 256 <= i < 1024 -> e_present (pde s pd i) = false) ->
  let s' := mapKernelPageTable lay s pd in
  (forall i, 0 <= i < 256 -> has_table s' pd i /\ table s' pd i = kernelPageTable lay + 4096 * i) /\
  (forall i, has_table s' pd i -> 0 <= i < 256) /\
  (forall a, is_u32 a -> ~ (pd <= a < pd + 4096) -> loadb (mem s') a = loadb (mem s) a).
Proof.
  intros Hl pd Hz s'.
  assert (exists n, Z.of_nat n = 256 /\ s' = with_mem s (mapKernelPageTable_loop n lay (mem s) pd 0)) as (n & Hn & E).
  { refine (ex_intro _ _ (conj _ eq_refl)). vm_compute. reflexivity. }
  assert (0 <= pd <= 4294963200) as Hpd by (destruct Hl as [_ _ L3 [L4 L4'] _ _ L7]; unfold pd; lia).
  clearbody s'. subst s'. destruct (directory_words lay (mem s) pd n Hl Hpd Hn) as (H1 & H2 & H3).
  set (m' := mapKernelPageTable_loop _ _ _ _ _) in *. clearbody m'. unfold has_table, table, pde. cbn [mem with_mem].
  split_and!; [| |exact H3].
  - intros i Hi. destruct (H1 i Hi) as [Hp Hf]. split; [split; [lia|exact Hp]|exact Hf].
  - intros i [Hi Hp]. destruct (decide (i < 256)); [lia|]. rewrite H2 in Hp by lia. unfold pde in Hz.
    rewrite Hz in Hp by lia. discriminate Hp.
Qed.

Lemma mapKernelPageTable_dir lay s :
  layout_ok lay -> let pd := kernelPageDirectory lay in
  (forall i, 256 <= i < 1024 -> e_present (pde s pd i) = false) ->
  kernel_dir (mapKernelPageTable lay s pd) pd.
Proof.
  intros Hl pd Hz. destruct (mapKernelPageTable_spec lay s Hl Hz) as (H1 & H2 & _). fold pd in H1, H2.
  destruct Hl as [L1 L2 L3 [L4 L4'] [L5 L5'] L6 L7]. split; [split|].
  - unfold pd. lia.
  - done.
  - intros i Hi%H2. destruct (H1 i Hi) as [_ ->]. unfold pd. lia.
  - intros i j Hi%H2 Hj%H2. destruct (H1 i Hi) as [_ ->], (H1 j Hj) as [_ ->]. lia.
  - intros i Hi. by apply H1.
Qed.

(** With empty tables nothing is mapped. *)
Lemma mapKernelPageTable_empty lay s v :
  layout_ok lay -> let pd := kernelPageDirectory lay in
  (forall i, 256 <= i < 1024 -> e_present (pde s pd i) = false) ->
  (forall k, 0 <= k < 262144 -> e_present (load32 (mem s) (kernelPageTable lay + 4 * k)) = false) ->
  is_u32 v -> translate (mapKernelPageTable lay s pd) pd v = None.
Proof.
  intros Hl pd Hz Ht Hv. destruct (mapKernelPageTable_spec lay s Hl Hz) as (H1 & H2 & H3). fold pd in H1, H2, H3.
  set (s' := mapKernelPageTable lay s pd) in *. clearbody s'. pose proof (dir_index_range v Hv) as Hd.
  destruct Hl as [L1 L2 L3 [L4 L4'] [L5 L5'] L6 L7]. rewrite translate_eq by (unfold pd; lia || done).
  destruct (e_present (pde s' pd (PAGE_DIR_INDEX v))) eqn:Ep; [|done].
  assert (has_table s' pd (PAGE_DIR_INDEX v)) as Hi%H2 by done.
  assert (pte_addr s' pd v = kernelPageTable lay + 4 * (v / 4096)) as ->.
  { unfold pte_addr. rewrite (proj2 (H1 _ Hi)), PAGE_DIR_INDEX_div, PAGE_TABLE_INDEX_div. clear. zlia. }
  assert (0 <= v / 4096 < 262144) as Hk by (rewrite PAGE_DIR_INDEX_div in Hi; clear -Hi Hv; zlia).
  specialize (Ht _ Hk). assert (forall x, kernelPageTable lay <= x < kernelPageTable lay + 1048576 ->
    loadb (mem s') x = loadb (mem s) x) as Hx by (intros x Hx; apply H3; unfold is_u32, pd; lia).
  unfold load32 in *. rewrite !Hx by lia. by rewrite Ht.
Qed.

(** ** The steps of init *)

(** The pages mapKernelMemory maps for the kernel image. *)
Definition image_pages (lay : Layout) : Z :=
  (_kernel_end lay - __start lay + __start lay mod 4096) / 4096 + 2.

Lemma mapKernelMemory_spec fuel lay s :
  layout_ok lay -> let pd := kernelPageDirectory lay in
  (forall i, 256 <= i < 1024 -> e_present (pde s pd i) = false) ->
  exists s', mapKernelMemory (S fuel) lay s = Some s' /\
    identity (mapKernelPageTable lay s pd) s' pd (in_range (__start lay / 4096) (image_pages lay)).
Proof.
  intros Hl pd Hz. pose proof (mapKernelPageTable_dir lay s Hl Hz) as Hd. fold pd in Hd.
  destruct Hl as [_ _ L3 [L4 L4'] [L5 L5'] _ L7]. unfold mapKernelMemory, PAGE_SIZE. fold pd. change 0x1000 with 4096.
  set (b := __start lay) in *. set (e := _kernel_end lay) in *.
  assert (0 <= b mod 4096 < 4096) as Hm by (apply Z.mod_pos_bound; lia).
  pose proof (Z.mod_le b 4096 ltac:(lia) ltac:(lia)) as Hle.
  rewrite (u32_small (b - _)), (u32_small (e - b)), (u32_small (e - b + _)) by (unfold is_u32; lia).
  set (size := e - b + b mod 4096). assert (0 <= size <= 1073741824) as Hs by (unfold size; lia).
  rewrite u32_small by (unfold is_u32; zlia).
  assert (page_count (size + (4096 - size mod 4096)) = image_pages lay) as Hc.
  { unfold image_pages. fold b e size. unfold page_count. clearbody size. clear -Hs. zlia. }
  assert ((b - b mod 4096) / 4096 = b / 4096) as Hb by (clear; zlia).
  destruct (identityMap_spec fuel (mapKernelPageTable lay s pd) pd (b - b mod 4096) (size + (4096 - size mod 4096)))
    as (s' & E & _ & Hid).
  - done.
  - clear -L3. zlia.
  - clear. zlia.
  - clear -Hs. zlia.
  - rewrite Hc. unfold image_pages. fold b e size. unfold size. clear -L7 L3. zlia.
  - exists s'. split; [exact E|]. by rewrite <- Hc, <- Hb.
Qed.

Fixpoint modules_at (m : Mem) (a : Z) (l : list ModuleInfo) : Prop :=
  match l with
  | [] => True
  | md :: l => read_module m a = md /\ modules_at m (a + MODULE_SIZE) l
  end.

(** A module as the boot loader places it: on a page boundary, in the first gigabyte. *)
Definition good_module (md : ModuleInfo) : Prop :=
  0 <= modStart md <= modEnd md /\ modStart md mod 4096 = 0 /\
  modStart md + page_count (modEnd md - modStart md) * 4096 <= 1073741824.

Definition module_pages (md : ModuleInfo) : Z -> bool :=
  in_range (modStart md / 4096) (page_count (modEnd md - modStart md)).
Definition in_modules (l : list ModuleInfo) (q : Z) : bool := existsb (fun md => module_pages md q) l.

(** One module: its pages are freed, and then marked used and mapped again, with one page more. *)
Lemma reserve_module fuel s pd md :
  kernel_dir s pd -> good_module md ->
  let size := modEnd md - modStart md in
  exists s', identityMap (S fuel) (with_phys s (physicalFree (phys s) (modStart md) (size / PAGE_SIZE))) pd (modStart md) size
    = Some s' /\ interrupts s' = true /\ identity s s' pd (module_pages md).
Proof.
  intros Hk (H1 & H2 & H3) size. set (s1 := with_phys _ _). fold size in H3.
  assert (0 <= size <= 1073741824) as Hs by (unfold size, page_count in *; zlia).
  assert (kernel_dir s1 pd) as Hk1.
  { destruct Hk as [Hw Ht]. split; [by eapply wf_dir_same|]. exact Ht. }
  destruct (identityMap_spec fuel s1 pd (modStart md) size) as (s' & E & Hi & [I1 I2 I3 I4 I5 I6]); [done|lia|done|lia|done|].
  exists s'. split; [done|]. split; [done|]. split; try done.
  - intros q. rewrite I1. unfold s1. simpl. rewrite used_free.
    unfold PAGE_SIZE. change 0x1000 with 4096. unfold page_count in H3.
    rewrite existsb_range by (unfold is_u32; zlia || done).
    unfold module_pages. fold size. destruct (in_range (modStart md / 4096) (page_count size) q) eqn:E1; [done|].
    destruct (in_range (modStart md / 4096) (size / 4096) q) eqn:E2; [|done].
    apply in_range_iff in E2. apply not_true_iff_false in E1. rewrite in_range_iff in E1. unfold page_count in E1. lia.
  - rewrite I3. apply TotalMemory_free_loop.
Qed.

Lemma modules_at_same m m' l : forall a,
  (forall b, a <= b < a + 16 * Z.of_nat (length l) -> loadb m' b = loadb m b) ->
  modules_at m a l -> modules_at m' a l.
Proof.
  induction l as [|md l IH]; intros a H; [done|]. cbn [modules_at]. intros [E Hl]. split.
  - rewrite <- E. unfold read_module, load32. simpl in H. by rewrite !H by lia.
  - apply IH; [|done]. unfold MODULE_SIZE. intros b Hb. apply H. simpl. lia.
Qed.

Lemma reserveModuleMemory_loop_spec fuel lay l : forall s a,
  let pd := kernelPageDirectory lay in
  kernel_dir s pd -> modules_at (mem s) a l -> Forall good_module l ->
  0 <= a -> a + 16 * Z.of_nat (length l) < 4294967296 ->
  (forall b i, a <= b < a + 16 * Z.of_nat (length l) -> has_table s pd i -> b / 4096 * 4096 <> table s pd i) ->
  interrupts s = true ->
  exists s', reserveModuleMemory_loop (S fuel) (length l) lay s a = Some s' /\ interrupts s' = true /\
    identity s s' pd (in_modules l).
Proof.
  induction l as [|md l IH]; intros s a pd Hk Hm Hg Ha Hal Hout Hint.
  { exists s. split; [done|]. split; [done|]. apply identity_refl. }
  destruct Hm as [E Hm]. inversion_clear Hg as [|? ? Hgm Hgl]. cbn [reserveModuleMemory_loop length]. fold pd. rewrite E.
  assert (u32 (modEnd md - modStart md) = modEnd md - modStart md) as ->.
  { destruct Hgm as (G1 & _ & G3). apply u32_small. unfold is_u32, page_count in *. zlia. }
  destruct (reserve_module fuel s pd md Hk Hgm) as (s1 & -> & Hi1 & Hid1).
  rewrite u32_small by (unfold is_u32, MODULE_SIZE; simpl in Hal; lia).
  simpl length in *. rewrite Nat2Z.inj_succ in Hal, Hout.
  destruct (IH s1 (a + MODULE_SIZE)) as (s' & E' & Hi' & Hid'); unfold MODULE_SIZE; try lia; try done.
  - by eapply identity_dir.
  - apply (modules_at_same (mem s)); [|exact Hm]. intros b Hb. unfold MODULE_SIZE in Hb. apply Hid1; [unfold is_u32; lia|].
    intros i. apply Hout. lia.
  - intros b i Hb Hi. rewrite (has_table_same s s1) in Hi by apply Hid1.
    rewrite (table_same s s1) by (apply Hid1 || apply Hi). apply Hout; [lia|done].
  - exists s'. split; [done|]. split; [done|]. eapply identity_ext; [|by eapply identity_trans].
    intros q. simpl. apply orb_comm.
Qed.

(** ** The machine at boot *)

(** The machine the boot loader hands over: the image in place with its zeroed page tables, the
    memory map [es] and the modules [l] behind the pointers of the multiboot structure, the array
    of the modules outside the paging structures. *)
Record boot_state (lay : Layout) (info : MultibootInfo) (s : MM) (es : list MemoryMap) (l : list ModuleInfo) : Prop := {
  boot_layout : layout_ok lay;
  boot_dir : forall i, 256 <= i < 1024 -> e_present (pde s (kernelPageDirectory lay) i) = false;
  boot_tables : forall k, 0 <= k < 262144 -> e_present (load32 (mem s) (kernelPageTable lay + 4 * k)) = false;
  boot_map : map_at (mem s) (mmapAddress info) es (mmapAddress info + mmapLength info);
  boot_map_range : 0 <= mmapAddress info /\ mmapAddress info + mmapLength info < 2147483648;
  boot_map_good : Forall good es;
  boot_mods : modules_at (mem s) (modsAddress info) l;
  boot_mods_count : modsCount info = Z.of_nat (length l);
  boot_mods_range : 0 <= modsAddress info /\ modsAddress info + 16 * Z.of_nat (length l) < 4294967296;
  boot_mods_good : Forall good_module l;
  boot_mods_outside : forall b, modsAddress info <= b < modsAddress info + 16 * Z.of_nat (length l) -> ~ paging_byte lay b
}.

(** The pages init keeps back: the low memory up to the kernel, the kernel image, the modules. *)
Definition reserved (lay : Layout) (l : list ModuleInfo) (q : Z) : bool :=
  in_modules l q ||
  (in_range 0 (page_count (__start lay)) q || in_range (__start lay / 4096) (image_pages lay) q).

Lemma reserved_image lay l q : layout_ok lay ->
  __start lay <= q * 4096 < _kernel_end lay -> reserved lay l q = true.
Proof.
  intros [_ _ L3 _ _ _ _] Hq. unfold reserved. rewrite !orb_true_iff. right. right.
  apply in_range_iff. unfold image_pages. zlia.
Qed.

(** The paging structures of the kernel directory lie in the image. *)
Lemma kernel_inv_identity lay s s' l :
  layout_ok lay -> let pd := kernelPageDirectory lay in
  (forall i, 256 <= i < 1024 -> e_present (pde s pd i) = false) ->
  identity (mapKernelPageTable lay s pd) s' pd (reserved lay l) -> kernel_inv s' pd.
Proof.
  intros Hl pd Hz Hid. pose proof (mapKernelPageTable_dir lay s Hl Hz) as Hd.
  destruct (mapKernelPageTable_spec lay s Hl Hz) as (H1 & H2 & _). fold pd in Hd, H1, H2.
  set (s1 := mapKernelPageTable lay s pd) in *. clearbody s1.
  assert (forall q, reserved lay l q = true -> used (phys s') q = true) as Hu.
  { intros q Hq. by rewrite (id_used _ _ _ _ Hid), Hq. }
  pose proof Hl as [L1 L2 L3 [L4 L4'] [L5 L5'] L6 L7]. split.
  - by eapply identity_dir.
  - apply Hu. unfold reserved. rewrite !orb_true_iff. right. left. apply in_range_iff. unfold page_count. zlia.
  - apply Hu, reserved_image; [done|]. replace (pd / 4096 * 4096) with pd; [unfold pd; lia|]. clear -L1. unfold pd. zlia.
  - intros i Hi. rewrite (has_table_same s1 s') in Hi by apply Hid.
    rewrite (table_same s1 s') by (apply Hid || apply Hi). pose proof (H2 _ Hi) as Hi'. rewrite (proj2 (H1 _ Hi')).
    apply Hu, reserved_image; [done|].
    replace ((kernelPageTable lay + 4096 * i) / 4096 * 4096) with (kernelPageTable lay + 4096 * i); [lia|].
    clear -L2. zlia.
Qed.

(** From the memory map on, init is a composition of identity mappings. *)
Lemma init_spec fuel lay info s es l :
  boot_state lay info s es l -> (length es < S fuel)%nat ->
  let pd := kernelPageDirectory lay in
  exists d log s', physicalAllocatorInit (S fuel) (mem s) info (phys s) = Some (d, log) /\
    init (S fuel) lay info s = Some (s', GetPhysicalAddress s' pd pd) /\ interrupts s' = true /\
    identity (mapKernelPageTable lay (with_log (with_phys s d) log) pd) s' pd (reserved lay l).
Proof.
  intros [Hl Hz _ Hm Hr Hg Hms Hmc Hmr Hmg Hmo] Hf pd.
  destruct (memory_map_loaded (mem s) info es (phys s) (S fuel) Hm Hg ltac:(lia) ltac:(lia) Hf) as (d & log & Ei & _).
  set (s0 := with_log (with_phys s d) log).
  assert (forall i, 256 <= i < 1024 -> e_present (pde s0 pd i) = false) as Hz0 by exact Hz.
  destruct (mapKernelMemory_spec fuel lay s0 Hl Hz0) as (s1 & E1 & Hid1).
  destruct (mapKernelPageTable_spec lay s0 Hl Hz0) as (T1 & T2 & T3).
  pose proof (mapKernelPageTable_dir lay s0 Hl Hz0) as Hd. fold pd in Hd, Hid1, T1, T2, T3.
  set (sk := mapKernelPageTable lay s0 pd) in *.
  pose proof (identity_dir _ _ _ _ Hd Hid1) as Hd1.
  pose proof Hl as [L1 L2 L3 [L4 L4'] [L5 L5'] L6 L7].
  destruct (identityMap_spec fuel s1 pd 0 (__start lay)) as (s2 & E2 & Hi2 & Hid2);
    [done|lia|done|lia|unfold page_count; zlia|].
  pose proof (identity_trans _ _ _ _ _ _ Hid1 Hid2) as Hid12. pose proof (identity_dir _ _ _ _ Hd Hid12) as Hd2.
  assert (forall b i, modsAddress info <= b < modsAddress info + 16 * Z.of_nat (length l) ->
    has_table sk pd i -> b / 4096 * 4096 <> table sk pd i) as Hout.
  { intros b i Hb Hi. pose proof (T2 _ Hi) as Hi'. rewrite (proj2 (T1 _ Hi')). specialize (Hmo b Hb).
    unfold paging_byte in Hmo. intros E. apply Hmo. right. clear -E L2 Hi'. zlia. }
  destruct (reserveModuleMemory_loop_spec fuel lay l s2 (modsAddress info)) as (s3 & E3 & Hi3 & Hid3); try done; try lia.
  - apply (modules_at_same (mem s)); [|exact Hms]. intros b Hb.
    rewrite (id_mem _ _ _ _ Hid12); [|unfold is_u32; lia|intros i; by apply Hout].
    rewrite T3; [done|unfold is_u32; lia|]. specialize (Hmo b Hb). unfold paging_byte in Hmo. fold pd in Hmo. tauto.
  - intros b i Hb Hi. fold pd in Hi |- *. rewrite (has_table_same sk s2) in Hi by apply Hid12.
    rewrite (table_same sk s2) by (apply Hid12 || apply Hi). by apply Hout.
  - exists d, log, s3. split; [done|]. split.
    + unfold init. rewrite Ei. cbn [mbind option_bind]. fold s0. rewrite E1. cbn [mbind option_bind].
      unfold pd in E2. rewrite E2. cbn [mbind option_bind]. unfold reserveModuleMemory. rewrite Hmc, Nat2Z.id, E3. done.
    + split; [done|]. by eapply identity_trans.
Qed.

(** MemoryManager::init brings the machine into the state the page allocator needs.  For a
    kernel image whose page tables are zero, a memory map below 4 GiB and modules on page
    boundaries in the first gigabyte, init ends; cr3 is the kernel's directory, with the
    kernel's tables in it; the allocator's invariant holds; a frame is free exactly when it is a
    page of a usable entry of the memory map and not reserved; and a virtual address is mapped
    exactly when its page is reserved, to itself; no byte outside the paging structures changes.
    Reserved are the pages up to and with the kernel image and the pages of the modules. *)
Theorem init_machine (fuel : nat) (lay : Layout) (info : MultibootInfo) (s : MM) (es : list MemoryMap) (l : list ModuleInfo) :
  boot_state lay info s es l -> (length es < fuel)%nat ->
  exists s' cr3, init fuel lay info s = Some (s', cr3) /\ cr3 = kernelPageDirectory lay /\
    kernel_inv s' cr3 /\ kernel_tables_of lay s' /\ interrupts s' = true /\ TotalMemory (phys s') = u32 (total_free es) /\
    (forall q, 0 <= q < 1048568 ->
       used (phys s') q = reserved lay l q || negb (existsb (fun e => in_entry e q) es)) /\
    (forall v, is_u32 v -> translate s' cr3 v = if reserved lay l (v / 4096) then Some v else None) /\
    (forall i, has_table s' cr3 i -> 0 <= i < 256) /\
    (forall a, is_u32 a -> ~ paging_byte lay a -> loadb (mem s') a = loadb (mem s) a).
Proof.
  intros Hb Hf. destruct fuel as [|fuel]; [lia|]. set (pd := kernelPageDirectory lay).
  destruct (init_spec fuel lay info s es l Hb Hf) as (d & log & s' & Ei & E & Hi & Hid). fold pd in E, Hid.
  destruct Hb as [Hl Hz Ht Hm Hr Hg _ _ _ _ _].
  destruct (memory_map_loaded (mem s) info es (phys s) (S fuel) Hm Hg ltac:(lia) ltac:(lia) Hf) as (d' & log' & Ei' & Htot & Hu & _).
  rewrite Ei in Ei'. injection Ei' as <- <-. set (s0 := with_log (with_phys s d) log) in *.
  assert (forall v, is_u32 v -> translate s' pd v = if reserved lay l (v / 4096) then Some v else None) as Htr.
  { intros v Hv. rewrite (id_translate _ _ _ _ Hid) by done. case_if; [done|].
    apply (mapKernelPageTable_empty lay s0 v Hl Hz Ht Hv). }
  assert (GetPhysicalAddress s' pd pd = pd) as Hcr3.
  { pose proof Hl as [L1 L2 L3 [L4 L4'] _ _ L7]. assert (is_u32 pd) as Hpd by (unfold is_u32, pd; lia).
    specialize (Htr pd Hpd). rewrite reserved_image in Htr; [|done|].
    - unfold translate in Htr. destruct (IsPagePresent s' pd pd); [|discriminate Htr]. by injection Htr.
    - replace (pd / 4096 * 4096) with pd; [unfold pd; lia|]. clear -L1. unfold pd. zlia. }
  rewrite Hcr3 in E. exists s', pd. split; [exact E|]. split; [done|]. split; [exact (kernel_inv_identity lay s0 s' l Hl Hz Hid)|].
  split.
  { intros i Hi0. destruct (mapKernelPageTable_spec lay s0 Hl Hz) as (T1 & _). fold pd.
    rewrite (table_same (mapKernelPageTable lay s0 pd) s') by (apply Hid || lia). by apply T1. }
  split; [done|]. split; [rewrite (id_total _ _ _ _ Hid); exact Htot|].
  destruct (mapKernelPageTable_spec lay s0 Hl Hz) as (T1 & T2 & T3). fold pd in T1, T2, T3.
  set (sk := mapKernelPageTable lay s0 pd) in *. split_and!; [|done| |].
  - intros q Hq. rewrite (id_used _ _ _ _ Hid). f_equal. by apply Hu.
  - intros i Hti. rewrite (has_table_same sk s') in Hti by apply Hid. by apply T2.
  - intros a Ha Hnp. rewrite (id_mem _ _ _ _ Hid), T3; [done|done|unfold paging_byte in Hnp; fold pd in Hnp; tauto|done|].
    intros i Hti Et. pose proof (T2 _ Hti) as Hi'. rewrite (proj2 (T1 _ Hi')) in Et. apply Hnp. right.
    pose proof (lay_tables _ Hl) as L2. clear -Et L2 Hi'. zlia.
Qed.

(** ** A concrete machine *)

Lemma storel_outside m p l x : is_u32 x -> ~ (p <= x < p + Z.of_nat (length l)) -> loadb (storel m p l) x = loadb m x.
Proof.
  intros Hx Hn. unfold loadb, storel. rewrite u32_small by done.
  destruct (Z.leb_spec p x); simpl; [|done]. rewrite (proj2 (Z.ltb_ge _ _)) by lia. done.
Qed.

(** The map of a PC at 4096, at 8192 a module of 9029 bytes that lies at 5 MiB, the kernel from
    1 to 4 MiB. *)
Definition ex_lay : Layout := MkLayout 2097152 2101248 1048576 4194304.
Definition ex_modules : list Z := le 4 5242880 ++ le 4 5251909 ++ le 4 0 ++ le 4 0.
Definition ex_boot_mem : Mem := storel ex_map_mem 8192 ex_modules.
Definition ex_boot : MM := MkMM (MkData 0 0 (fun _ => 0)) ex_boot_mem false 0 [].
Definition ex_boot_info : MultibootInfo := MkInfo 1 8192 72 4096.

Lemma ex_boot_zero x : 8208 <= x < 4294967296 - 3 -> load32 ex_boot_mem x = 0.
Proof.
  intros Hx. assert (forall y, 8208 <= y < 4294967296 -> loadb ex_boot_mem y = 0) as H.
  { intros y Hy. assert (length ex_modules = 16%nat) as Hl by reflexivity.
    unfold ex_boot_mem. rewrite storel_outside by (unfold is_u32; rewrite ?Hl; lia).
    unfold ex_map_mem. rewrite storel_outside; [reflexivity|unfold is_u32; lia|].
    match goal with |- context [length ?l] => assert (length l = 72%nat) as -> by (vm_compute; reflexivity) end. lia. }
  unfold load32. rewrite !H by lia. reflexivity.
Qed.

Lemma ex_boot_state : boot_state ex_lay ex_boot_info ex_boot ex_map [MkModule 5242880 5251909].
Proof.
  split.
  - split; simpl; (reflexivity || lia).
  - intros i Hi. unfold pde. simpl. rewrite ex_boot_zero by lia. reflexivity.
  - intros k Hk. simpl. rewrite ex_boot_zero by lia. reflexivity.
  - repeat (split; [vm_compute; (reflexivity || discriminate)|]). reflexivity.
  - simpl. lia.
  - apply ex_map_good.
  - split; [vm_compute; reflexivity|exact I].
  - reflexivity.
  - simpl. lia.
  - repeat constructor; vm_compute; (reflexivity || discriminate).
  - intros b Hb. unfold paging_byte. simpl in *. lia.
Qed.

Lemma init_machine_witness : exists s',
  init 4 ex_lay ex_boot_info ex_boot = Some (s', 2097152) /\ kernel_inv s' 2097152 /\
  used (phys s') 1279 = false /\ used (phys s') 1280 = true /\ translate s' 2097152 5251908 = Some 5251908 /\
  translate s' 2097152 5300000 = None.
Proof.
  destruct (init_machine 4 ex_lay ex_boot_info ex_boot ex_map _ ex_boot_state) as (s' & cr3 & E & -> & Hi & _ & _ & _ & Hu & Ht & _);
    [simpl; lia|].
  exists s'. split; [exact E|]. split; [exact Hi|]. simpl in Ht. rewrite !Hu, !Ht by (unfold is_u32; lia).
  repeat split; vm_compute; reflexivity.
Defined.

End BootMemory.
