(* ===== verification/UserDirectory.v ===== *)
(** User page directories (MemoryManager::createUserPageDirectory in
    Kernel/MemoryManager/MemoryManager.cpp): what a process made with one can see of the kernel. *)

From S2P Require Import Prelude PhysicalAllocator VirtualMemory MemoryManager Boot BootMemory.

Module UserDirectory.
Import PhysicalAllocator VirtualMemory MemoryManager Boot BootMemory.

(** Writing a page that holds no paging structure changes no directory word and no translation. *)
Lemma write_page_outside s m' pd p :
  wf_dir s pd -> 0 <= p -> p mod 4096 = 0 -> not_paging s pd p ->
  (forall a, is_u32 a -> ~ (p <= a < p + 4096) -> loadb m' a = loadb (mem s) a) ->
  same_dir s (with_mem s m') pd /\
  forall v, is_u32 v -> translate (with_mem s m') pd v = translate s pd v.
Proof.
  intros Hw Hp0 Hp [N1 N2] Hm. pose proof (dir_range _ _ Hw) as Hr. pose proof (dir_aligned _ _ Hw) as Ha.
  assert (p / 4096 * 4096 = p) as Ep by (clear -Hp; zlia). rewrite Ep in N1, N2.
  assert (forall w, 0 <= w <= 4294967292 -> w mod 4 = 0 -> w / 4096 * 4096 <> p -> load32 m' w = load32 (mem s) w) as Hw32.
  { intros w Hwr Hwa Hwp. unfold load32. rewrite !Hm by first [unfold is_u32; lia|clear -Hwa Hwp Hp; zlia]. done. }
  assert (same_dir s (with_mem s m') pd) as Hsd.
  { intros i Hi. apply Hw32; [lia|clear -Ha; zlia|clear -Ha Hi N1; zlia]. }
  split; [done|]. intros v Hv. pose proof (dir_index_range v Hv) as Hi. rewrite !translate_eq by done.
  rewrite Hsd by done. rewrite (pte_addr_same s (with_mem s m')) by done.
  destruct (e_present (pde s pd (PAGE_DIR_INDEX v))) eqn:E; [|done].
  destruct (pte_addr_range s pd v) as [Q1 Q2]. cbn [mem with_mem].
  rewrite Hw32; [done|done|done|]. rewrite pte_addr_page. intros Et. by apply (N2 (PAGE_DIR_INDEX v)).
Qed.

(** A zeroed page that gets the kernel's tables is a directory that shares them. *)
Lemma shared_directory lay s p n :
  let pd := kernelPageDirectory lay in
  layout_ok lay -> kernel_inv s pd -> kernel_tables_of lay s -> Z.of_nat n = 256 ->
  0 <= p <= 4294963200 -> p mod 4096 = 0 -> not_paging s pd p ->
  (forall x, p <= x < p + 4096 -> loadb (mem s) x = 0) ->
  let s' := with_mem s (mapKernelPageTable_loop n lay (mem s) p 0) in
  same_dir s s' pd /\ kernel_dir s' p /\ (forall i, has_table s' p i -> i < 256) /\
  (forall i, 0 <= i < 256 -> table s' p i = table s' pd i) /\
  forall v, is_u32 v -> translate s' pd v = translate s pd v.
Proof.
  intros pd Hl Hk Ht Hn Hp Hpa Hnp Hz s'. pose proof (inv_dir _ _ Hk) as Hkd. pose proof Hkd as [Hw Hkt].
  destruct (directory_words lay (mem s) p n Hl Hp Hn) as (D1 & D2 & D3).
  destruct (write_page_outside s _ pd p Hw ltac:(lia) Hpa Hnp D3) as [Hsd Htr]. fold s' in Hsd, Htr.
  assert (forall i, 0 <= i < 256 -> has_table s' p i /\ table s' p i = kernelPageTable lay + 4096 * i) as T1.
  { intros i Hi. destruct (D1 i Hi) as [E1 E2]. split; [split; [lia|exact E1]|exact E2]. }
  assert (forall i, has_table s' p i -> 0 <= i < 256) as T2.
  { intros i [Hi E]. destruct (decide (i < 256)); [lia|]. unfold s', pde in E. cbn [mem with_mem] in E.
    rewrite D2 in E by lia. unfold load32 in E. rewrite !Hz in E by lia. discriminate E. }
  split; [done|]. split; [|split; [intros i Hi; by apply T2|split; [|done]]].
  - split; [split|]; [lia|done| | |].
    + intros i Hi%T2. rewrite (proj2 (T1 i Hi)). intros E. destruct Hnp as [_ N2]. apply (N2 i); [by apply Hkt|].
      rewrite Ht by done. rewrite E. clear -Hpa. zlia.
    + intros i j Hi%T2 Hj%T2. rewrite (proj2 (T1 i Hi)), (proj2 (T1 j Hj)). lia.
    + intros i Hi. by apply T1.
  - intros i Hi. rewrite (proj2 (T1 i Hi)), (table_same s s') by (done || lia). symmetry. by apply Ht.
Qed.

(** Two directories with the same tables translate alike where they have tables. *)
Lemma same_tables_translate s pd p v :
  kernel_dir s pd -> kernel_dir s p -> (forall i, 0 <= i < 256 -> table s p i = table s pd i) ->
  0 <= v < 1073741824 -> translate s p v = translate s pd v.
Proof.
  intros [Hw Hk] [Hwp Hkp] Ht Hv. assert (is_u32 v) as Hv32 by (unfold is_u32; lia).
  assert (0 <= PAGE_DIR_INDEX v < 256) as Hi by (rewrite PAGE_DIR_INDEX_div; clear -Hv; zlia).
  rewrite !translate_eq by (apply Hw || apply Hwp || done).
  unfold pte_addr. rewrite Ht, (proj2 (Hk _ Hi)), (proj2 (Hkp _ Hi)) by done. done.
Qed.

Lemma no_table_translate s p v :
  0 <= p <= 4294963200 -> is_u32 v -> ~ has_table s p (PAGE_DIR_INDEX v) -> translate s p v = None.
Proof.
  intros Hp Hv Hn. rewrite translate_eq by done. destruct (e_present _) eqn:E; [|done].
  exfalso. apply Hn. split; [by apply dir_index_range|done].
Qed.

(** C14: createUserPageDirectory gives a process the kernel's gigabyte and nothing else.  In a machine
    as init leaves it, the call always returns.  Either there was no memory, it returns null and
    frames and translations are as before; or it returns the address, in the running task's
    directory, of a frame that was free, and this frame is a directory that translates every
    address of the first gigabyte like the kernel's directory and no other address.  The
    kernel's directory keeps its invariant, and gets the page of the new one as its only new
    page. *)
Theorem createUserPageDirectory_shares (fuel : nat) (lay : Layout) (s : MM) :
  let pd := kernelPageDirectory lay in
  layout_ok lay -> kernel_inv s pd -> kernel_tables_of lay s -> KERNEL_FUEL <= Z.of_nat fuel ->
  exists a s', createUserPageDirectory fuel lay s pd = Some (a, s') /\ kernel_inv s' pd /\ interrupts s' = true /\
    ((a = 0 /\ (forall q, used (phys s') q = used (phys s) q) /\
      forall v, is_u32 v -> translate s' pd v = translate s pd v) \/
     (a <> 0 /\ exists p, translate s' pd a = Some p /\ used (phys s) (p / 4096) = false /\ kernel_dir s' p /\
      (forall v, is_u32 v -> translate s' p v = if v <? 1073741824 then translate s' pd v else None) /\
      (forall v, is_u32 v -> v / 4096 <> a / 4096 -> translate s' pd v = translate s pd v))).
Proof.
  intros pd Hl Hk Ht Hf. unfold createUserPageDirectory.
  destruct (memoryAllocate_kernel_spec fuel (atomicEnable s) pd (4 * PAGE_DIRECTORY_ENTRY_COUNT))
    as (a & s1 & -> & Hk1 & Hsd1 & Hr); [by eapply kernel_inv_mono|done|unfold PAGE_DIRECTORY_ENTRY_COUNT; lia|].
  destruct Hr as [(Ha & _ & p & P1 & P2 & P3 & A1 & A2 & A3 & _ & Pf & Pu & Ptr & Pz)|(-> & Hu & Htr)].
  2: { rewrite Z.eqb_refl. do 2 eexists. split; [reflexivity|]. split; [by eapply kernel_inv_mono|].
       split; [done|]. left. done. }
  rewrite (proj2 (Z.eqb_neq _ _)) by done.
  change ((4 * PAGE_DIRECTORY_ENTRY_COUNT + 4095) / 4096) with 1 in *.
  assert (in_pages a 1 a = true /\ mapped_to a p a = p) as [Hin Hmt].
  { destruct (in_pages_byte a 1 0 A2 ltac:(lia)) as [E1 E2]. rewrite Z.add_0_r in E1, E2. split; [done|].
    rewrite E2 by done. lia. }
  assert (translate s1 pd a = Some p) as Ea by (rewrite Ptr by (unfold is_u32; lia); by rewrite Hin, Hmt).
  rewrite (translate_GetPhysicalAddress _ _ _ _ Ea).
  assert (used (phys s) (p / 4096) = false) as Hfree by (apply Pf; lia).
  assert (not_paging s1 pd p) as Hnp.
  { destruct (free_frame_not_paging s pd p Hk Hfree) as [N1 N2]. split; [done|]. intros i Hi.
    rewrite (has_table_same s s1) in Hi by exact Hsd1. rewrite (table_same s s1) by (exact Hsd1 || apply Hi). auto. }
  assert (kernel_tables_of lay s1) as Ht1.
  { intros i Hi. fold pd. rewrite (table_same s s1) by (exact Hsd1 || lia). by apply Ht. }
  assert (exists n, Z.of_nat n = 256 /\ mapKernelPageTable lay s1 p = with_mem s1 (mapKernelPageTable_loop n lay (mem s1) p 0))
    as (n & Hn & E).
  { refine (ex_intro _ _ (conj _ eq_refl)). vm_compute. reflexivity. }
  rewrite E. clear E.
  destruct (shared_directory lay s1 p n Hl Hk1 Ht1 Hn) as (S1 & S2 & S3 & S4 & S5); [lia|done|done|intros x Hx; apply Pz; lia|].
  set (s2 := with_mem s1 _) in *. fold pd in S1, S4, S5.
  assert (kernel_inv s2 pd) as Hk2 by (by eapply kernel_inv_mono). clearbody s2.
  exists a, (atomicDisable s2). split; [reflexivity|]. split; [by eapply kernel_inv_mono|]. split; [done|].
  right. split; [done|]. exists p. split; [|split; [done|split; [|split]]].
  - transitivity (translate s2 pd a); [done|]. rewrite S5; [done|unfold is_u32; lia].
  - destruct S2 as [W T]. split; [by eapply wf_dir_same|exact T].
  - intros v Hv. transitivity (translate s2 p v); [done|]. destruct (Z.ltb_spec v 1073741824).
    + transitivity (translate s2 pd v); [|done]. apply same_tables_translate; [apply Hk2|done|done|unfold is_u32 in Hv; lia].
    + apply no_table_translate; [lia|done|]. intros Hi%S3. rewrite PAGE_DIR_INDEX_div in Hi. clear -Hi H. zlia.
  - intros v Hv Hne. transitivity (translate s2 pd v); [done|]. rewrite S5, Ptr by done.
    assert (in_pages a 1 v = false) as ->; [|done]. apply not_true_iff_false. unfold in_pages.
    rewrite andb_true_iff, Z.leb_le, Z.ltb_lt. lia.
Qed.

(** ** A concrete machine: what init leaves *)

Lemma ex_tables_of : kernel_tables_of (MkLayout 2097152 2101248 1048576 4194304) ex_mm.
Proof.
  intros i Hi. cbn [kernelPageDirectory kernelPageTable]. fold ex_pd.
  destruct (ex_table i) as [_ ->]; [|lia]. apply ex_kernel_inv. lia.
Qed.

Lemma createUserPageDirectory_shares_witness : exists fuel a s',
  createUserPageDirectory fuel (MkLayout 2097152 2101248 1048576 4194304) ex_mm 2097152 = Some (a, s') /\
  kernel_inv s' 2097152 /\ interrupts s' = true.
Proof.
  exists (Z.to_nat 262144).
  destruct (createUserPageDirectory_shares (Z.to_nat 262144) (MkLayout 2097152 2101248 1048576 4194304) ex_mm)
    as (a & s' & E & Hk & Hi & _).
  - split; cbn; (reflexivity || lia).
  - exact ex_kernel_inv.
  - exact ex_tables_of.
  - rewrite Z2Nat.id by lia. apply Z.le_refl.
  - exists a, s'. split; [exact E|]. split; [exact Hk|exact Hi].
Defined.

End UserDirectory.
