(* ===== verification/Keyboard.v ===== *)
(** Kernel/Devices/Keyboard.h and Keyboard.cpp: the keyboard driver, an interrupt handler that puts
    translated scan codes into a ring buffer and a blocking read that takes them out. *)

From S2P Require Import Prelude RingBuffer.

Module Keyboard.
Import RingBuffer.

Definition KEYBOARD_RINGBUF_SIZE : Z := 1024.
Definition PS2_DATA_REG : Z := 0x60.

Definition keymap : list Z :=
  [0; 27] ++ str "1234567890-=" ++ [8] ++
  [9] ++ str "qwertyuiop[]" ++ [10] ++
  [0] ++ str "asdfghjkl;'`" ++ [0] ++
  [92] ++ str "zxcvbnm,./" ++ [0] ++ str "*" ++ [0] ++
  str " " ++ [0; 0] ++
  [0; 0; 0; 0; 0; 0; 0; 0; 0; 0; 0] ++ str "789-456+1230." ++ [0; 0; 92; 0; 0; 0].

(** [keymap[code]]; the array is shorter than the 128 codes, what stands behind it is [beyond]. *)
Definition keymap_at (beyond : Z -> Z) (code : Z) : Z :=
  match keymap !! Z.to_nat code with Some c => c | None => beyond code end.

(** The interrupt: [keycode] is what inb(PS2_DATA_REG) returned. *)
Definition irqCallback (beyond : Z -> Z) (keycode : Z) (r : t Z) : t Z :=
  if negb (negb (Z.land keycode 0x80 =? 0))
  then let code := Z.land keycode 0x7F in
       (push KEYBOARD_RINGBUF_SIZE r (keymap_at beyond code) false).1.1
  else r.

(** One round of read's loop; [pop] of a non-empty buffer always sets the character. *)
Definition read_round (r : t Z) (m : Mem) (buffer read : Z) : t Z * Mem * Z :=
  if numElements r >? 0 then
    let '(r', _, c) := pop KEYBOARD_RINGBUF_SIZE r in
    match c with
    | Some c => (r', storeb m (buffer + read) c, u32 (read + 1))
    | None => (r', m, u32 (read + 1))
    end
  else (r, m, read).
(** [while (read < length)], while no interrupt arrives; the function returns 0. *)
Fixpoint read_loop (fuel : nat) (r : t Z) (m : Mem) (buffer read length : Z) : option (t Z * Mem) :=
  match fuel with
  | O => None
  | S fuel =>
      if read <? length
      then let '(r, m, read) := read_round r m buffer read in read_loop fuel r m buffer read length
      else Some (r, m)
  end.
Definition read (fuel : nat) (r : t Z) (m : Mem) (buffer length : Z) : option (t Z * Mem * Z) :=
  '(r, m) ← read_loop fuel r m buffer 0 length; Some (r, m, 0).

Definition write (buffer length : Z) : Z := u32 (-1).

(** ** The driver as a pipe *)

Abbreviation kbd_wf := (wf KEYBOARD_RINGBUF_SIZE).
Abbreviation pending := (contents KEYBOARD_RINGBUF_SIZE).

Lemma size_ok : 0 < KEYBOARD_RINGBUF_SIZE <= 2147483648.
Proof. unfold KEYBOARD_RINGBUF_SIZE. lia. Qed.

(** The characters a scan code stands for: none for a key release. *)
Definition typed (beyond : Z -> Z) (keycode : Z) : list Z :=
  if Z.testbit keycode 7 then [] else [keymap_at beyond (Z.land keycode 0x7F)].

Lemma release_bit k : (Z.land k 0x80 =? 0) = negb (Z.testbit k 7).
Proof.
  change 0x80 with (2 ^ 7). destruct (Z.testbit k 7) eqn:E; simpl.
  - apply Z.eqb_neq. intros H. assert (Z.testbit (Z.land k (2 ^ 7)) 7 = false) as Hf by (rewrite H; apply Z.bits_0).
    rewrite Z.land_spec, E, Z.pow2_bits_true in Hf by lia. done.
  - apply Z.eqb_eq. apply Z.bits_inj'. intros i Hi. rewrite Z.land_spec, Z.bits_0, Z.pow2_bits_eqb by lia.
    destruct (Z.eqb_spec 7 i) as [<-|]; [by rewrite E|]. apply andb_false_r.
Qed.

Lemma irqCallback_spec beyond k r : kbd_wf r ->
  kbd_wf (irqCallback beyond k r) /\
  pending (irqCallback beyond k r) =
    if Z.of_nat (length (pending r)) <? KEYBOARD_RINGBUF_SIZE then pending r ++ typed beyond k else pending r.
Proof.
  intros Hw. unfold irqCallback, typed. rewrite release_bit, negb_involutive. destruct (Z.testbit k 7); cbn [negb].
  - split; [done|]. rewrite app_nil_r. by case_if.
  - pose proof (push_spec _ size_ok r (keymap_at beyond (Z.land k 127)) false Hw) as H.
    destruct (push _ _ _ _) as [[r' e] room]. destruct H as (Hw' & _ & H). cbn [fst qstep] in *. split; [exact Hw'|].
    revert H. case_if; intros H; simplify_eq; done.
Qed.

Lemma read_round_empty r m b k : kbd_wf r -> pending r = [] -> read_round r m b k = (r, m, k).
Proof.
  intros Hw Hp. pose proof (contents_length _ r Hw) as HL. rewrite Hp in HL. simpl in HL.
  unfold read_round, numElements. rewrite Z.gtb_ltb, (proj2 (Z.ltb_ge _ _)) by lia. done.
Qed.
Lemma read_round_spec r m b k c q : kbd_wf r -> pending r = c :: q ->
  exists r', read_round r m b k = (r', storeb m (b + k) c, u32 (k + 1)) /\ kbd_wf r' /\ pending r' = q.
Proof.
  intros Hw Hp. pose proof (contents_length _ r Hw) as HL. rewrite Hp in HL. simpl in HL.
  unfold read_round, numElements. rewrite Z.gtb_ltb, (proj2 (Z.ltb_lt _ _)) by lia.
  pose proof (pop_spec _ size_ok r Hw) as H. destruct (pop _ _) as [[r' e] x]. destruct H as (Hw' & _ & H).
  rewrite Hp in H. simpl in H. injection H as H1 ->. exists r'. done.
Qed.

(** ** A read under interrupts *)

(** How far read(&c, 1) has come: at the loop's test, inside pop, or with the character stored.
    [uninit] is what the local [c] holds when pop does not set it. *)
Inductive reading := Testing | Popping (p : pop_at Z) | Taken (c : Z).

Definition reading_step (uninit : Z) (r : t Z) (s : reading) : t Z * reading :=
  match s with
  | Testing => (r, if numElements r >? 0 then Popping PopStart else Testing)
  | Popping (PopDone x) => (r, Taken (u8 (default uninit x)))
  | Popping p => let '(r', p') := pop_step KEYBOARD_RINGBUF_SIZE r p in (r', Popping p')
  | Taken c => (r, Taken c)
  end.

(** Alone, the steps are one round of read's loop. *)
Lemma reading_alone uninit r : 0 < numElements r ->
  let '(r', m, n) := read_round r (fun _ => 0) 0 0 in
  n = 1 /\ Nat.iter 8 (fun st => reading_step uninit st.1 st.2) (r, Testing) = (r', Taken (loadb m 0)).
Proof.
  intros Hn. unfold read_round. assert ((numElements r >? 0) = true) as E by lia. rewrite E.
  unfold pop. assert (isEmpty r = false) as Ee by (unfold isEmpty, numElements in *; lia). rewrite Ee. simpl.
  split; [done|]. cbn. rewrite E. cbn. rewrite Ee. cbn. do 2 f_equal. by rewrite loadb_storeb_eq.
Qed.

(** Where the task may stand between two of its accesses that no push may come between: the two
    that getTail makes, and the two of the decrement of the count. *)
Definition in_window (s : reading) : bool :=
  match s with Popping (PopHead _) | Popping (PopCount _ _) => true | _ => false end.

(** Characters out of the buffer but not returned yet. *)
Definition in_hand (s : reading) : list Z :=
  match s with Popping (PopDone (Some c)) => [u8 c] | Taken c => [c] | _ => [] end.

(** What the task has read of the buffer agrees with what stands there. *)
Definition sees (r : t Z) (s : reading) : Prop :=
  match s with
  | Testing | Taken _ | Popping (PopDone (Some _)) => True
  | Popping (PopDone None) => False
  | Popping p => exists x q, pending r = x :: q /\
      match p with
      | PopHead head => head = m_head r
      | PopTail tail => tail = oldest KEYBOARD_RINGBUF_SIZE r
      | PopTaken y => y = x
      | PopCount y n => y = x /\ n = m_numElements r
      | _ => True
      end
  end.

(** A step of the read moves at most one character, from the buffer to the hand. *)
Lemma reading_step_sees uninit r s : kbd_wf r -> sees r s -> (forall c, s <> Taken c) ->
  let '(r', s') := reading_step uninit r s in
  kbd_wf r' /\ sees r' s' /\ in_hand s' ++ (u8 <$> pending r') = in_hand s ++ (u8 <$> pending r).
Proof.
  intros Hw Hs Ht. pose proof (contents_length _ r Hw) as HL. destruct s as [|p|c]; [| |by destruct (Ht c)].
  - cbn [reading_step]. unfold numElements. destruct (m_numElements r >? 0) eqn:E; [|done]. split; [done|]. split; [|done].
    destruct (pending r) as [|x q] eqn:Hq; [simpl in HL; lia|]. by exists x, q.
  - destruct p as [|  |h|tl|y|y n|[y|]]; simpl in Hs; try done; destruct Hs as (x & q & Hq & Hs); rewrite Hq in HL; simpl in HL;
      cbn [reading_step pop_step].
    + unfold isEmpty. rewrite (proj2 (Z.eqb_neq _ 0)) by lia. split; [done|]. split; [|done]. by exists x, q.
    + split; [done|]. split; [|done]. by exists x, q.
    + subst h. split; [done|]. split; [|done]. simpl. exists x, q. split; [done|]. by apply (getTail_mod _ size_ok).
    + subst tl. split; [done|]. split; [|done]. simpl. exists x, q. split; [done|]. by eapply contents_oldest.
    + subst y. split; [done|]. split; [|done]. by exists x, q.
    + destruct Hs as [-> ->]. destruct (drop_oldest _ size_ok r x q Hw Hq) as [Hw' Hq']. split; [done|]. split; [done|].
      simpl. rewrite Hq', Hq. done.
Qed.

(** A key interrupt outside the windows, with room in the buffer, leaves what the task has seen. *)
Lemma irqCallback_sees beyond k r s : kbd_wf r -> sees r s ->
  typed beyond k = [] \/ in_window s = false /\ Z.of_nat (length (pending r)) < KEYBOARD_RINGBUF_SIZE ->
  kbd_wf (irqCallback beyond k r) /\ sees (irqCallback beyond k r) s /\ pending (irqCallback beyond k r) = pending r ++ typed beyond k.
Proof.
  intros Hw Hs Hk. destruct (irqCallback_spec beyond k r Hw) as [Hw1 Hp]. unfold typed in *. destruct (Z.testbit k 7) eqn:Eb.
  { assert (irqCallback beyond k r = r) as -> by (unfold irqCallback; by rewrite release_bit, Eb). by rewrite app_nil_r. }
  destruct Hk as [?|[Hwin Hn]]; [done|]. rewrite (proj2 (Z.ltb_lt _ _)) in Hp by done. split; [done|]. split; [|done].
  pose proof (contents_length _ r Hw) as HL.
  destruct (push_oldest _ size_ok r (keymap_at beyond (Z.land k 0x7F)) Hw ltac:(lia)) as [Ho _].
  assert (irqCallback beyond k r = (push KEYBOARD_RINGBUF_SIZE r (keymap_at beyond (Z.land k 0x7F)) false).1.1) as Er
    by (unfold irqCallback; by rewrite release_bit, Eb).
  destruct s as [|p|c]; [done| |done]. destruct p as [| |h|tl|y|y n|[y|]]; try done; destruct Hs as (x & q & Hq & Hs);
    simpl; rewrite Hp, Hq; exists x, (q ++ [keymap_at beyond (Z.land k 127)]); (split; [done|]); try done.
  rewrite Er, Ho. exact Hs.
Qed.

(** What happens around the task: a key interrupt, or the task's next step. *)
Inductive event := Irq (keycode : Z) | Run.

(** What is typed in a sequence of events. *)
Definition input (beyond : Z -> Z) (es : list event) : list Z :=
  es ≫= (fun e => match e with Irq k => typed beyond k | Run => [] end).
Lemma input_app beyond es es' : input beyond (es ++ es') = input beyond es ++ input beyond es'.
Proof. apply bind_app. Qed.

(** ** The blocking read *)

Lemma read_loop_spec q : forall fuel r m b k n,
  kbd_wf r -> n = k + Z.of_nat (length q) -> (exists rest, pending r = q ++ rest) ->
  0 <= b -> 0 <= k -> b + n < 4294967296 -> (length q < fuel)%nat ->
  exists r' m', read_loop fuel r m b k n = Some (r', m') /\ kbd_wf r' /\ pending r' = drop (length q) (pending r) /\
    (forall i c, q !! i = Some c -> loadb m' (b + k + Z.of_nat i) = u8 c) /\
    (forall x, is_u32 x -> x < b + k \/ b + n <= x -> loadb m' x = loadb m x).
Proof.
  induction q as [|c q IH]; intros [|fuel] r m b k n Hw Hn [rest Hp] Hb Hk Hbn Hf; simpl in Hf, Hn; try lia; cbn [read_loop].
  - rewrite (proj2 (Z.ltb_ge _ _)) by lia. exists r, m. split_and!; try done.
  - rewrite (proj2 (Z.ltb_lt _ _)) by lia.
    destruct (read_round_spec r m b k c (q ++ rest) Hw Hp) as (r1 & -> & Hw1 & Hp1).
    rewrite u32_small by (unfold is_u32; lia).
    destruct (IH fuel r1 (storeb m (b + k) c) b (k + 1) n) as (r' & m' & E & Hw' & Hp' & Hin & Hout); try done; try lia; [by exists rest|].
    exists r', m'. split_and!; [done|done| | |].
    + rewrite Hp', Hp1, Hp. done.
    + intros [|i] d Hi; simpl in Hi.
      * simplify_eq. rewrite Z.add_0_r, Hout by (unfold is_u32; lia). by rewrite loadb_storeb_eq.
      * rewrite <- (Hin i d Hi). f_equal. lia.
    + intros x Hx Hd. rewrite Hout by (done || lia). apply loadb_storeb_ne. rewrite !u32_small by (unfold is_u32 in *; lia). lia.
Qed.

(** A read that finds enough characters returns: with at least [n] characters pending, read
    of [n] bytes ends after [n] rounds, stores the oldest [n] characters in order, takes exactly
    those out of the buffer, writes nothing else, and returns 0 (not the number read). *)
Theorem keyboard_read_takes_oldest (fuel : nat) (r : t Z) (m : Mem) (buffer : Z) (q rest : list Z) :
  kbd_wf r -> pending r = q ++ rest -> 0 <= buffer -> buffer + Z.of_nat (length q) < 4294967296 -> (length q < fuel)%nat ->
  exists r' m', read fuel r m buffer (Z.of_nat (length q)) = Some (r', m', 0) /\ pending r' = rest /\
    (forall i c, q !! i = Some c -> loadb m' (buffer + Z.of_nat i) = u8 c) /\
    (forall x, is_u32 x -> x < buffer \/ buffer + Z.of_nat (length q) <= x -> loadb m' x = loadb m x).
Proof.
  intros Hw Hp Hb Hbn Hf.
  destruct (read_loop_spec q fuel r m buffer 0 (Z.of_nat (length q))) as (r' & m' & E & _ & Hr & Hin & Hout); try done; try lia; [by exists rest|].
  exists r', m'. unfold read. rewrite E. rewrite Z.add_0_r in *. split_and!; [done| |done|done].
  by rewrite Hr, Hp, drop_app_length.
Qed.

Lemma keyboard_read_takes_oldest_witness : exists r' m',
  read 3 (irqCallback (fun _ => 0) 0x17 (irqCallback (fun _ => 0) 0x23 (init (fun _ => 0)))) (fun _ => 0) 4096 1 = Some (r', m', 0) /\
  pending r' = str "i".
Proof.
  destruct (keyboard_read_takes_oldest 3 (irqCallback (fun _ => 0) 0x17 (irqCallback (fun _ => 0) 0x23 (init (fun _ => 0)))) (fun _ => 0)
    4096 (str "h") (str "i")) as (r' & m' & E & H & _); [split; vm_compute; split; (discriminate || reflexivity)|reflexivity|lia|simpl; lia|simpl; lia|].
  exists r', m'. split; [exact E|exact H].
Defined.

(** The table has 90 entries: the scan codes from 0x5A on index behind it. *)
Example keymap_short : length keymap = 90%nat.
Proof. reflexivity. Qed.

End Keyboard.
