(* ===== verification/Console.v ===== *)
(** Kernel/Devices/TTY.h, TTY.cpp, Kernel/Arch/i386/vga.h, Kernel/Devices/Serial.cpp, and setTTY and printk
    of Kernel/Libk/Libk.cpp: the text console, the serial port, and formatted printing on the
    console.

    The screen is the array of 16-bit cells from VGA_MEMORY on; indices behind the 80 x 25 screen
    are cells of the same array.  The CRT controller is its register file with the selected
    register. *)

From Stdlib Require Import Floats.SpecFloat.
From S2P Require Import Prelude Printf PrintfSpec.

Module Console.
Import Printf PrintfSpec.

Definition VGA_WIDTH : Z := 80.
Definition VGA_HEIGHT : Z := 25.
Definition VGA_REG_CURSOR_START : Z := 0x0A.
Definition VGA_REG_CURSOR_END : Z := 0x0B.
Definition VGA_REG_CURSOR_LOC_HIGH : Z := 0x0E.
Definition VGA_REG_CURSOR_LOC_LOW : Z := 0x0F.
Definition VGA_COLOR_BLACK : Z := 0.
Definition VGA_COLOR_LIGHT_GREY : Z := 7.

Definition vga_entry_color (fg bg : Z) : Z := u8 (Z.lor fg (Z.shiftl bg 4)).
Definition vga_entry (uc color : Z) : Z := u16 (Z.lor uc (Z.shiftl color 8)).

Record TTY := MkTTY {
  m_color : Z;
  m_row : Z;
  m_column : Z;
  m_buffer : Z -> Z;
  crtc_index : Z;
  crtc : Z -> Z
}.

Definition with_cursor (t : TTY) (row column : Z) : TTY :=
  MkTTY (m_color t) row column (m_buffer t) (crtc_index t) (crtc t).
Definition set_cell (i v : Z) (t : TTY) : TTY :=
  MkTTY (m_color t) (m_row t) (m_column t) (<[i := v]> (m_buffer t)) (crtc_index t) (crtc t).

Definition getBufferIndex (x y : Z) : Z := y * VGA_WIDTH + x.

(** Select a register through port 0x3D4, then write or read it through port 0x3D5. *)
Definition vgaWrite (addr value : Z) (t : TTY) : TTY :=
  MkTTY (m_color t) (m_row t) (m_column t) (m_buffer t) (u8 addr) (<[u8 addr := u8 value]> (crtc t)).
Definition vgaRead (addr : Z) (t : TTY) : TTY * Z :=
  (MkTTY (m_color t) (m_row t) (m_column t) (m_buffer t) (u8 addr) (crtc t), crtc t (u8 addr)).

Definition updateCursor (x y : Z) (t : TTY) : TTY :=
  let pos := getBufferIndex x y in
  let t := vgaWrite VGA_REG_CURSOR_LOC_LOW (u8 (Z.land pos 0xFF)) t in
  vgaWrite VGA_REG_CURSOR_LOC_HIGH (u8 (Z.land (Z.shiftr pos 8) 0xFF)) t.

(** Both halves are written to VGA_REG_CURSOR_START. *)
Definition enableCursor (cursor_start cursor_end : Z) (t : TTY) : TTY :=
  let '(t, v) := vgaRead VGA_REG_CURSOR_START t in
  let t := vgaWrite VGA_REG_CURSOR_START (Z.lor (Z.land v 0xC0) cursor_start) t in
  let '(t, v) := vgaRead VGA_REG_CURSOR_END t in
  vgaWrite VGA_REG_CURSOR_START (Z.lor (Z.land v 0xE0) cursor_end) t.
Definition disableCursor (t : TTY) : TTY := vgaWrite VGA_REG_CURSOR_START 0x20 t.

(** The inner and the outer loop of clear over the cells, with the rounds left. *)
Fixpoint clear_row (n : nat) (color y x : Z) (cells : Z -> Z) : Z -> Z :=
  match n with
  | O => cells
  | S n => clear_row n color y (x + 1) (<[y * VGA_WIDTH + x := vga_entry (chr " ") color]> cells)
  end.
Fixpoint clear_rows (n : nat) (color y : Z) (cells : Z -> Z) : Z -> Z :=
  match n with O => cells | S n => clear_rows n color (y + 1) (clear_row (Z.to_nat VGA_WIDTH) color y 0 cells) end.
Definition clear (t : TTY) : TTY :=
  MkTTY (m_color t) (m_row t) (m_column t) (clear_rows (Z.to_nat VGA_HEIGHT) (m_color t) 0 (m_buffer t)) (crtc_index t) (crtc t).

(** [writeChar(c, color, x, y)]: the index is compared as a size_t. *)
Definition writeCharAt (c color x y : Z) (t : TTY) : TTY :=
  let index := u32 (getBufferIndex x y) in
  if index >? VGA_WIDTH * VGA_HEIGHT
  then set_cell 0 (vga_entry (u8 c) color) (with_cursor (clear t) 0 0)
  else set_cell index (vga_entry (u8 c) color) t.

Definition writeChar (c : Z) (t : TTY) : TTY :=
  if (c =? 13) || (c =? 10) then with_cursor t (m_row t + 1) 0
  else if c =? 8 then
    if m_column t >? 0
    then with_cursor (set_cell (getBufferIndex (m_column t - 1) (m_row t)) (chr " ") t) (m_row t) (m_column t - 1)
    else t
  else
    let t := writeCharAt (u8 c) (m_color t) (m_column t) (m_row t) t in
    if m_column t + 1 =? VGA_WIDTH
    then if m_row t + 1 =? VGA_HEIGHT then with_cursor t 0 0 else with_cursor t (m_row t + 1) 0
    else with_cursor t (m_row t) (m_column t + 1).

Definition write_bytes (l : list Z) (t : TTY) : TTY := fold_left (fun t c => writeChar c t) l t.
Definition write (m : Mem) (buffer length : Z) (t : TTY) : TTY * Z :=
  let t := write_bytes (bytes m buffer (Z.to_nat length)) t in
  (updateCursor (m_column t) (m_row t) t, length).
Definition read (buffer length : Z) : Z := u32 (-1).

(** The console part of open: cursor at the origin, grey on black, a cleared screen. *)
Definition open (t : TTY) : TTY :=
  let t := MkTTY (vga_entry_color VGA_COLOR_LIGHT_GREY VGA_COLOR_BLACK) 0 0 (m_buffer t) (crtc_index t) (crtc t) in
  updateCursor 0 0 (enableCursor 0 0 (clear t)).

(** ** Serial port *)

Definition COM1 : Z := 0x3F8.
Definition INT_REG (com : Z) : Z := com + 1.
Definition INT_CTL_REG (com : Z) : Z := com + 2.
Definition LINE_CONTROL (com : Z) : Z := com + 3.
Definition MODEM_CONTROL (com : Z) : Z := com + 4.
Definition LINE_STATUS (com : Z) : Z := com + 5.
Definition DLAB_BIT : Z := 0x80.
Definition THRE : Z := 0x20.

(** The bytes sent to ports so far, and the answers the line status register will give. *)
Record Port := MkPort { sent : list (Z * Z); status : list Z }.
Definition outb (port val : Z) (p : Port) : Port := MkPort (sent p ++ [(port, u8 val)]) (status p).

(** [while (canTransmit() == 0);] over the answers; no answer left is a wait that goes on. *)
Fixpoint wait_ready (l : list Z) : option (list Z) :=
  match l with
  | [] => None
  | s :: l => if Z.land s THRE =? 0 then wait_ready l else Some l
  end.
Definition Write (a : Z) (p : Port) : option Port :=
  l ← wait_ready (status p); Some (outb COM1 a (MkPort (sent p) l)).
Fixpoint WriteAll (l : list Z) (p : Port) : option Port :=
  match l with [] => Some p | a :: l => p ← Write a p; WriteAll l p end.
Definition Init (p : Port) : Port :=
  let port := COM1 in
  let p := outb (INT_REG port) 0x00 p in
  let p := outb (LINE_CONTROL port) DLAB_BIT p in
  let p := outb port 0x03 p in
  let p := outb port 0x00 p in
  let p := outb (LINE_CONTROL port) 0x03 p in
  let p := outb (INT_CTL_REG port) 0xC7 p in
  outb (MODEM_CONTROL port) 0x0B p.

(** ** printk *)

Definition PRINTK_BUFFER_SIZE : Z := 100.

Section Printk.
Context {D : Type} `{Double D}.

(** [printkBuffer] is the address of the static buffer; without a console nothing is shown. *)
Definition printk (fuel : nat) (printkBuffer : Z) (console : option TTY) (format : Z) (va : list Z) (s : PState)
  : option (option TTY * PState) :=
  '(len, s) ← vsnprintf fuel printkBuffer (u32 (-1)) format va s;
  let len := if len >? PRINTK_BUFFER_SIZE then PRINTK_BUFFER_SIZE else len in
  Some ((fun t => (write (pmem s) printkBuffer (u32 len) t).1) <$> console, s).
End Printk.

(** ** The screen invariant *)

(** Between calls the column is on the screen, and the row too unless the column is 0, or 1 on the
    row just below. *)
Definition tty_ok (t : TTY) : Prop :=
  0 <= m_column t < 80 /\ 0 <= m_row t /\ (m_row t < 25 \/ m_row t = 25 /\ m_column t = 1 \/ m_column t = 0).

Lemma clear_row_spec n : forall color y x cells i,
  clear_row n color y x cells i =
    if (y * 80 + x <=? i) && (i <? y * 80 + x + Z.of_nat n) then vga_entry (chr " ") color else cells i.
Proof.
  induction n as [|n IH]; intros color y x cells i; cbn [clear_row].
  - destruct (Z.leb_spec (y * 80 + x) i), (Z.ltb_spec i (y * 80 + x + Z.of_nat 0)); try done; lia.
  - rewrite IH. unfold VGA_WIDTH. generalize (vga_entry (chr " ") color). intros v.
    destruct (decide (i = y * 80 + x)) as [->|Hne].
    + rewrite fn_lookup_insert. zcases.
    + rewrite fn_lookup_insert_ne by done. zcases.
Qed.

Lemma clear_rows_spec n : forall color y cells i,
  clear_rows n color y cells i =
    if (y * 80 <=? i) && (i <? (y + Z.of_nat n) * 80) then vga_entry (chr " ") color else cells i.
Proof.
  induction n as [|n IH]; intros color y cells i; cbn [clear_rows].
  - destruct (Z.leb_spec (y * 80) i), (Z.ltb_spec i ((y + Z.of_nat 0) * 80)); try done; lia.
  - rewrite IH, clear_row_spec, Z2Nat.id by (unfold VGA_WIDTH; lia). unfold VGA_WIDTH.
    generalize (vga_entry (chr " ") color) (cells i). intros v w. clear. zcases.
Qed.

Lemma clear_cells t i :
  m_buffer (clear t) i = if (0 <=? i) && (i <? 2000) then vga_entry (chr " ") (m_color t) else m_buffer t i.
Proof. cbn [m_buffer clear]. rewrite clear_rows_spec, Z2Nat.id by (unfold VGA_HEIGHT; lia). reflexivity. Qed.

(** What writeCharAt does at a position of a row up to 25. *)
Lemma writeCharAt_low c color t : tty_ok t -> m_row t * 80 + m_column t <= 2000 ->
  writeCharAt c color (m_column t) (m_row t) t = set_cell (m_row t * 80 + m_column t) (vga_entry (u8 c) color) t.
Proof.
  intros (Hc & Hr & _) Hi. unfold writeCharAt, getBufferIndex, VGA_WIDTH, VGA_HEIGHT.
  rewrite u32_small by (unfold is_u32; lia). rewrite Z.gtb_ltb, (proj2 (Z.ltb_ge _ _)) by lia. done.
Qed.
Lemma writeCharAt_high c color t : tty_ok t -> 2000 < m_row t * 80 + m_column t < 4294967296 ->
  writeCharAt c color (m_column t) (m_row t) t = set_cell 0 (vga_entry (u8 c) color) (with_cursor (clear t) 0 0).
Proof.
  intros (Hc & Hr & _) Hi. unfold writeCharAt, getBufferIndex, VGA_WIDTH, VGA_HEIGHT.
  rewrite u32_small by (unfold is_u32; lia). rewrite Z.gtb_ltb, (proj2 (Z.ltb_lt _ _)) by lia. done.
Qed.

Definition row_limit : Z := 26843545.

Lemma writeChar_ok c t : tty_ok t -> m_row t <= row_limit ->
  tty_ok (writeChar c t) /\ m_row (writeChar c t) <= m_row t + 1 /\
  forall i, ~ (0 <= i <= 2000) -> m_buffer (writeChar c t) i = m_buffer t i.
Proof.
  intros Hok Hlim. pose proof Hok as (Hc & Hr & Hrc). unfold row_limit, writeChar in *.
  destruct ((c =? 13) || (c =? 10)); [|destruct (c =? 8)].
  - split_and!; try done. unfold tty_ok. simpl. lia.
  - destruct (Z.gtb_spec (m_column t) 0); [|split_and!; try done; lia]. unfold tty_ok. simpl.
    split_and!; try lia. intros i Hi. unfold getBufferIndex, VGA_WIDTH. rewrite fn_lookup_insert_ne by lia. done.
  - destruct (Z.le_gt_cases (m_row t * 80 + m_column t) 2000).
    + rewrite writeCharAt_low by done. cbn [m_column m_row set_cell]. unfold VGA_WIDTH, VGA_HEIGHT, tty_ok.
      repeat case_if; cbn [m_column m_row m_buffer with_cursor set_cell]; (split_and!; try lia);
        intros i Hi; rewrite fn_lookup_insert_ne by lia; done.
    + rewrite writeCharAt_high by (done || lia). cbn [m_column m_row set_cell with_cursor]. unfold VGA_WIDTH, VGA_HEIGHT, tty_ok.
      repeat case_if; cbn [m_column m_row m_buffer with_cursor set_cell]; (split_and!; try lia);
        intros i Hi; rewrite fn_lookup_insert_ne by lia; rewrite clear_cells; zcases.
Qed.

Lemma write_bytes_ok l : forall t, tty_ok t -> m_row t + Z.of_nat (length l) <= row_limit ->
  tty_ok (write_bytes l t) /\ forall i, ~ (0 <= i <= 2000) -> m_buffer (write_bytes l t) i = m_buffer t i.
Proof.
  induction l as [|c l IH]; intros t Hok Hl; [done|]. simpl in Hl.
  destruct (writeChar_ok c t Hok ltac:(lia)) as (Hok1 & Hr1 & Hb1).
  destruct (IH (writeChar c t) Hok1 ltac:(lia)) as [Hok2 Hb2]. split; [done|].
  intros i Hi. unfold write_bytes. cbn [fold_left]. fold (write_bytes l (writeChar c t)). rewrite Hb2, Hb1 by done. done.
Qed.

(** The console stays in its window.  From any state in which the cursor is on the
    screen, in column 0 of any row, or in column 1 of row 25, writing any bytes, as long as the row
    count stays below 2^31/80, keeps that invariant and changes no cell outside 0 .. 2000.  The bound
    2000 is one more than the last cell of the 80 x 25 screen. *)
Theorem tty_write_bounded (m : Mem) (buffer length : Z) (t : TTY) :
  tty_ok t -> 0 <= length -> m_row t + length <= row_limit ->
  tty_ok (write m buffer length t).1 /\
  forall i, ~ (0 <= i <= 2000) -> m_buffer (write m buffer length t).1 i = m_buffer t i.
Proof.
  intros Hok Hl Hr. unfold write. destruct (write_bytes_ok (bytes m buffer (Z.to_nat length)) t Hok) as [Hok' Hb].
  - rewrite bytes_length, Z2Nat.id by lia. lia.
  - split; [exact Hok'|exact Hb].
Qed.

Definition ex_tty : TTY := open (MkTTY 0 0 0 (fun _ => 0) 0 (fun _ => 0)).
Lemma tty_write_bounded_witness :
  tty_ok (write (storel (fun _ => 10) 0 (str "abc")) 0 30 ex_tty).1.
Proof. refine (proj1 (tty_write_bounded _ 0 30 ex_tty _ _ _)); [vm_compute; intuition discriminate|lia|vm_compute; discriminate]. Defined.

(** The cell one behind the screen is written: with the cursor at column 0 of row 25, which
    25 newlines reach, a printable character goes to cell 2000, and the test of writeChar
    lets it through. *)
Theorem tty_writes_behind_screen (c : Z) (t : TTY) :
  m_row t = 25 -> m_column t = 0 -> c <> 13 -> c <> 10 -> c <> 8 ->
  m_buffer (writeChar c t) 2000 = vga_entry (u8 c) (m_color t) /\ m_row (writeChar c t) = 25.
Proof.
  intros Hr Hc H1 H2 H3. unfold writeChar. rewrite !(proj2 (Z.eqb_neq c _)) by done. cbn [orb].
  rewrite writeCharAt_low by (unfold tty_ok; lia). rewrite Hr, Hc. cbn [m_column m_row set_cell].
  rewrite Hr, Hc. unfold VGA_WIDTH. rewrite (proj2 (Z.eqb_neq (0 + 1) 80)) by lia.
  cbn [m_buffer m_row with_cursor set_cell]. change (25 * 80 + 0) with 2000. by rewrite fn_lookup_insert, u8_u8.
Qed.
Lemma tty_writes_behind_screen_witness :
  m_buffer (writeChar 65 (write_bytes (replicate 25 10) ex_tty)) 2000 = vga_entry 65 7 /\
  m_row (writeChar 65 (write_bytes (replicate 25 10) ex_tty)) = 25.
Proof. apply (tty_writes_behind_screen 65 (write_bytes (replicate 25 10) ex_tty)); [reflexivity..|lia|lia|lia]. Defined.

(** ** Text on the screen *)

Definition printable (c : Z) : bool := (32 <=? c) && (c <? 256).

Lemma write_line l : forall t,
  tty_ok t -> m_row t < 25 -> m_column t + Z.of_nat (length l) < 80 -> forallb printable l = true ->
  write_bytes l t = MkTTY (m_color t) (m_row t) (m_column t + Z.of_nat (length l)) (m_buffer (write_bytes l t)) (crtc_index t) (crtc t) /\
  forall i, m_buffer (write_bytes l t) i =
    if (m_row t * 80 + m_column t <=? i) && (i <? m_row t * 80 + m_column t + Z.of_nat (length l))
    then vga_entry (default 0 (l !! Z.to_nat (i - (m_row t * 80 + m_column t)))) (m_color t) else m_buffer t i.
Proof.
  induction l as [|c l IH]; intros t Hok Hr Hc Hp; simpl in Hc, Hp.
  - split; [destruct t; cbn [write_bytes fold_left length]; by rewrite Z.add_0_r|]. intros i. cbn [length]. zcases.
  - apply andb_true_iff in Hp as [Hp1 Hp]. unfold printable in Hp1. bool_facts. pose proof Hok as (Hc1 & Hr1 & _).
    change (write_bytes (c :: l) t) with (write_bytes l (writeChar c t)).
    assert (writeChar c t = with_cursor (set_cell (m_row t * 80 + m_column t) (vga_entry c (m_color t)) t) (m_row t) (m_column t + 1)) as E.
    { unfold writeChar. rewrite !(proj2 (Z.eqb_neq c _)) by lia. cbn [orb]. rewrite writeCharAt_low by (done || lia).
      cbn [m_column m_row set_cell]. unfold VGA_WIDTH. rewrite (proj2 (Z.eqb_neq (m_column t + 1) 80)) by lia.
      rewrite !u8_small by (unfold is_u8; rewrite ?u8_small by (unfold is_u8; lia); lia). done. }
    rewrite E. set (t1 := with_cursor _ _ _). destruct (IH t1) as [E1 B1]; [unfold tty_ok, t1; simpl; lia|done|unfold t1; simpl; lia|done|].
    split; [rewrite E1; unfold t1; cbn [m_color m_row m_column crtc_index crtc with_cursor set_cell]; f_equal; cbn [length]; lia|].
    intros i. rewrite B1. unfold t1. cbn [m_color m_row m_column m_buffer with_cursor set_cell]. cbn [length].
    destruct (decide (i = m_row t * 80 + m_column t)) as [->|Hne].
    + rewrite fn_lookup_insert, Z.sub_diag. zcases.
    + rewrite fn_lookup_insert_ne by done. zcases. do 2 f_equal.
      replace (Z.to_nat (i - (m_row t * 80 + m_column t))) with (S (Z.to_nat (i - (m_row t * 80 + (m_column t + 1))))) by lia. done.
Qed.

(** The cursor position the CRT controller shows. *)
Definition cursor_pos (t : TTY) : Z := crtc t VGA_REG_CURSOR_LOC_LOW + 256 * crtc t VGA_REG_CURSOR_LOC_HIGH.

Lemma updateCursor_pos x y t : 0 <= getBufferIndex x y < 65536 -> cursor_pos (updateCursor x y t) = getBufferIndex x y.
Proof.
  intros H. unfold cursor_pos, updateCursor, vgaWrite. cbn [crtc].
  change (u8 VGA_REG_CURSOR_LOC_LOW) with VGA_REG_CURSOR_LOC_LOW. change (u8 VGA_REG_CURSOR_LOC_HIGH) with VGA_REG_CURSOR_LOC_HIGH.
  rewrite fn_lookup_insert_ne by done. rewrite !fn_lookup_insert. rewrite !u8_u8. change 0xFF with (Z.ones 8).
  rewrite !Z.land_ones, Z.shiftr_div_pow2 by lia. unfold u8. change (2 ^ 8) with 256. zlia.
Qed.

(** A line of text appears where the cursor stands.  Printable bytes that fit in the rest of
    the current row of the screen are shown in the console's colour in consecutive cells from the
    cursor on, every other cell keeps its contents, the cursor moves behind the text, and the CRT
    controller's cursor registers hold its position. *)
Theorem tty_shows_text (m : Mem) (buffer : Z) (l : list Z) (t : TTY) :
  tty_ok t -> m_row t < 25 -> m_column t + Z.of_nat (length l) < 80 -> forallb printable l = true ->
  bytes m buffer (length l) = l ->
  let t' := (write m buffer (Z.of_nat (length l)) t).1 in
  m_row t' = m_row t /\ m_column t' = m_column t + Z.of_nat (length l) /\
  cursor_pos t' = m_row t * 80 + m_column t + Z.of_nat (length l) /\
  forall i, m_buffer t' i =
    if (m_row t * 80 + m_column t <=? i) && (i <? m_row t * 80 + m_column t + Z.of_nat (length l))
    then vga_entry (default 0 (l !! Z.to_nat (i - (m_row t * 80 + m_column t)))) (m_color t) else m_buffer t i.
Proof.
  intros Hok Hr Hc Hp Hb. unfold write. rewrite Nat2Z.id, Hb. cbn [fst].
  destruct (write_line l t Hok Hr Hc Hp) as [E B]. pose proof Hok as (? & ? & _).
  set (t1 := write_bytes l t) in *. rewrite updateCursor_pos by (rewrite E; unfold getBufferIndex, VGA_WIDTH; cbn [m_row m_column]; lia).
  split; [cbn [updateCursor vgaWrite m_row]; by rewrite E|]. split; [cbn [updateCursor vgaWrite m_column]; by rewrite E|].
  split; [rewrite E; unfold getBufferIndex, VGA_WIDTH; cbn [m_row m_column]; lia|]. exact B.
Qed.
Lemma tty_shows_text_witness :
  cursor_pos (write (storel (fun _ => 0) 64 (str "hi")) 64 (Z.of_nat (length (str "hi"))) ex_tty).1 = 2.
Proof.
  destruct (tty_shows_text (storel (fun _ => 0) 64 (str "hi")) 64 (str "hi") ex_tty) as (_ & _ & H & _);
    [vm_compute; intuition discriminate|reflexivity|reflexivity|reflexivity|reflexivity|exact H].
Defined.

(** ** printk on a plain text *)

Lemma cstring_frame m m' l : forall p,
  (forall k, 0 <= k <= Z.of_nat (length l) -> loadb m' (p + k) = loadb m (p + k)) -> cstring m p l -> cstring m' p l.
Proof.
  induction l as [|c l IH]; intros p Hf Hs; cbn [cstring length] in *.
  - rewrite <- (Z.add_0_r p), Hf by lia. by rewrite Z.add_0_r.
  - destruct Hs as (H1 & H2 & Hs). split; [|split; [done|]].
    + rewrite <- (Z.add_0_r p), Hf by lia. by rewrite Z.add_0_r.
    + apply IH; [|done]. intros k Hk. replace (p + 1 + k) with (p + (k + 1)) by lia. apply Hf. lia.
Qed.

Section PrintkSpec.
Context {D : Type} `{Double D}.

Abbreviation LIMIT := 4294967295.

(** The loop over a format without directives stores it character by character. *)
Lemma vsn_loop_plain l : forall fuel buffer f va s i,
  cstring (pmem s) f l -> Forall (fun c => c <> chr "%") l -> (length l < fuel)%nat ->
  0 <= buffer -> 0 <= i -> 0 <= f -> f + Z.of_nat (length l) < 4294967296 ->
  buffer + i + Z.of_nat (length l) < 4294967296 ->
  f + Z.of_nat (length l) < buffer + i \/ buffer + i + Z.of_nat (length l) <= f ->
  exists s', vsn_loop (H := mem_sink _out_buffer buffer LIMIT) fuel f va (s, i) = Some (s', i + Z.of_nat (length l)) /\
    forall x, is_u32 x -> loadb (pmem s') x =
      if (buffer + i <=? x) && (x <? buffer + i + Z.of_nat (length l))
      then u8 (default 0 (l !! Z.to_nat (x - (buffer + i)))) else loadb (pmem s) x.
Proof.
  induction l as [|c l IH]; intros [|fuel] buffer f va s i Hs Hp Hf Hb Hi Hff Hfl Hbl Hd; cbn [length] in *; try lia;
    cbn [vsn_loop cstring] in *; cbn [peek mem_sink fst].
  - rewrite Hs. rewrite Z.eqb_refl, Z.add_0_r. exists s. split; [done|]. intros x Hx.
    destruct (Z.leb_spec (buffer + i) x), (Z.ltb_spec x (buffer + i + Z.of_nat 0)); try done; lia.
  - destruct Hs as (Hc & Hc0 & Hs). inversion_clear Hp as [|? ? Hp1 Hp2]. rewrite Hc, (proj2 (Z.eqb_neq c 0)) by done.
    rewrite (proj2 (Z.eqb_neq c _)) by done. cbn [negb put mem_sink fst snd].
    rewrite !u32_small by (unfold is_u32; lia). unfold _out_buffer at 2. rewrite (proj2 (Z.ltb_lt _ _)) by lia.
    set (s1 := MkP _ _ _). destruct (IH fuel buffer (f + 1) va s1 (i + 1)) as (s' & E & Hx'); try done; try lia.
    { eapply cstring_frame; [|exact Hs]. intros k Hk. apply loadb_storeb_ne. rewrite !u32_small by (unfold is_u32; lia). lia. }
    exists s'. split; [rewrite E; do 2 f_equal; lia|]. intros x Hx. rewrite Hx' by done. cbn [pmem s1].
    destruct (decide (x = buffer + i)) as [->|Hne].
    + rewrite loadb_storeb_eq by done. rewrite Z.sub_diag. zcases.
    + rewrite loadb_storeb_ne by (rewrite !u32_small by (unfold is_u32 in *; lia); lia). zcases. do 2 f_equal.
      by replace (Z.to_nat (x - (buffer + i))) with (S (Z.to_nat (x - (buffer + (i + 1))))) by lia.
Qed.

(** A message without directives: what printk stores and what it shows of it. *)
Lemma printk_plain_spec (fuel : nat) (printkBuffer format : Z) (console : option TTY) (va : list Z) (s : PState) (l : list Z) :
  cstring (pmem s) format l -> Forall (fun c => c <> chr "%") l -> (length l < fuel)%nat ->
  0 < printkBuffer -> 0 <= format -> Z.of_nat (length l) < 2147483648 ->
  format + Z.of_nat (length l) < 4294967296 -> printkBuffer + Z.of_nat (length l) < 4294967296 ->
  format + Z.of_nat (length l) < printkBuffer \/ printkBuffer + Z.of_nat (length l) < format ->
  exists s', printk fuel printkBuffer console format va s =
      Some ((fun t => (write (pmem s') printkBuffer (Z.min (Z.of_nat (length l)) 100) t).1) <$> console, s') /\
    bytes (pmem s') printkBuffer (length l) = u8 <$> l /\ loadb (pmem s') (printkBuffer + Z.of_nat (length l)) = 0 /\
    forall x, is_u32 x -> ~ (printkBuffer <= x <= printkBuffer + Z.of_nat (length l)) -> loadb (pmem s') x = loadb (pmem s) x.
Proof.
  intros Hs Hp Hf Hb Hfm Hn Hfl Hbl Hd.
  destruct (vsn_loop_plain l fuel printkBuffer format va s 0) as (s1 & E & Hx); try done; try lia.
  unfold printk, vsnprintf, _vsnprintf. change (u32 (-1)) with 4294967295. rewrite (proj2 (Z.eqb_neq printkBuffer 0)) by lia.
  rewrite E. cbn [mbind option_bind]. rewrite Z.add_0_l, (proj2 (Z.ltb_lt _ _)) by lia. rewrite s32_small by lia.
  unfold _out_buffer. rewrite (proj2 (Z.ltb_lt _ _)) by lia. cbn [mbind option_bind].
  assert ((if Z.of_nat (length l) >? PRINTK_BUFFER_SIZE then PRINTK_BUFFER_SIZE else Z.of_nat (length l)) = Z.min (Z.of_nat (length l)) 100) as ->
    by (unfold PRINTK_BUFFER_SIZE; case_if; lia).
  rewrite (u32_small (Z.min _ _)) by (unfold is_u32; lia). rewrite Z.add_0_r in *. eexists. split; [reflexivity|]. split_and!.
  - cbn [pmem]. apply list_eq_same_length with (length l); [by rewrite length_fmap|by rewrite bytes_length|].
    intros i x y Hi. rewrite bytes_lookup by lia. rewrite list_lookup_fmap. intros [= <-].
    rewrite loadb_storeb_ne by (rewrite !u32_small by (unfold is_u32; lia); lia). rewrite Hx by (unfold is_u32; lia).
    replace (Z.to_nat (printkBuffer + Z.of_nat i - printkBuffer)) with i by lia.
    intros Hy. apply fmap_Some in Hy as (z & Hz & ->). rewrite Hz. zcases.
  - cbn [pmem]. by rewrite loadb_storeb_eq.
  - intros x Hxu Hout. cbn [pmem]. rewrite loadb_storeb_ne by (rewrite !u32_small by (unfold is_u32 in *; lia); lia).
    rewrite Hx by done. zcases.
Qed.

(** Printk bounds what it shows but not what it formats.  On a message without directives, of [n]
    characters, that lies apart from the static buffer, printk returns; the console is given the
    first [min n 100] characters; and the whole message with its NUL has been stored from the
    start of the 100-byte buffer on, so that a message of 100 or more characters overwrites what
    lies behind it. *)
Theorem printk_plain (fuel : nat) (printkBuffer format : Z) (console : option TTY) (va : list Z) (s : PState) (l : list Z) :
  cstring (pmem s) format l -> Forall (fun c => c <> chr "%") l -> (length l < fuel)%nat ->
  0 < printkBuffer -> 0 <= format -> Z.of_nat (length l) < 2147483648 ->
  format + Z.of_nat (length l) < 4294967296 -> printkBuffer + Z.of_nat (length l) < 4294967296 ->
  format + Z.of_nat (length l) < printkBuffer \/ printkBuffer + Z.of_nat (length l) < format ->
  exists s', printk fuel printkBuffer console format va s =
      Some ((fun t => (write (pmem s') printkBuffer (Z.min (Z.of_nat (length l)) 100) t).1) <$> console, s') /\
    bytes (pmem s') printkBuffer (length l) = u8 <$> l /\ loadb (pmem s') (printkBuffer + Z.of_nat (length l)) = 0.
Proof.
  intros H1 H2 H3 H4 H5 H6 H7 H8 H9. destruct (printk_plain_spec fuel printkBuffer format console va s l) as (s' & ? & ? & ? & _); eauto.
Qed.
End PrintkSpec.

Lemma cstring_replicate c n : forall p, 0 <= p -> p + Z.of_nat n < 4294967296 -> 0 < c < 256 ->
  cstring (storel (fun _ => 0) p (replicate n c)) p (replicate n c).
Proof.
  intros p Hp Hn Hc. assert (forall k m, (k <= n)%nat -> (m = n - k)%nat ->
    cstring (storel (fun _ => 0) p (replicate n c)) (p + Z.of_nat m) (replicate k c)) as H.
  { induction k as [|k IH]; intros m Hk Hm; cbn [replicate cstring].
    - unfold loadb, storel. rewrite length_replicate, u32_small by (unfold is_u32; lia). zcases.
    - split; [|split; [lia|]].
      + unfold loadb, storel. rewrite length_replicate, u32_small by (unfold is_u32; lia).
        rewrite lookup_replicate_2 by lia. cbn [default]. rewrite (proj2 (Z.leb_le _ _)), (proj2 (Z.ltb_lt _ _)) by lia.
        apply u8_small. unfold is_u8. lia.
      + replace (p + Z.of_nat m + 1) with (p + Z.of_nat (S m)) by lia. apply IH; lia. }
  specialize (H n 0%nat ltac:(lia) ltac:(lia)). by rewrite Z.add_0_r in H.
Qed.

(** A message of 150 characters overwrites the 51 bytes behind the buffer. *)
Lemma printk_plain_witness : exists s' t',
  printk (D := spec_float) 151 8192 (Some ex_tty) 4096 [] (MkP (storel (fun _ => 0) 4096 (replicate 150 65)) [] []) = Some (t', s') /\
  loadb (pmem s') (8192 + 150) = 0 /\ bytes (pmem s') 8192 150 = replicate 150 65.
Proof.
  destruct (printk_plain (D := spec_float) 151 8192 4096 (Some ex_tty) [] (MkP (storel (fun _ => 0) 4096 (replicate 150 65)) [] [])
    (replicate 150 65)) as (s' & E & H1 & H2).
  - apply cstring_replicate; lia.
  - by apply Forall_replicate.
  - rewrite length_replicate. lia.
  - lia.
  - lia.
  - vm_compute. reflexivity.
  - vm_compute. reflexivity.
  - vm_compute. reflexivity.
  - left. vm_compute. reflexivity.
  - exists s'. eexists. split; [exact E|]. split; [exact H2|]. exact H1.
Defined.

End Console.
