(* ===== verification/Interrupts.v ===== *)
(** Kernel/Arch/i386/GDT.cpp, IDT.cpp, Kernel/InterruptHandler.cpp, Kernel/Syscalls.cpp and the user side
    newlib/newlib/libc/sys/sakura/syscalls.c: segment and gate descriptors, the dispatch of
    interrupts to drivers, and system calls from both ends.

    Bit-level structures are 64-bit words or records of fields; what the processor reads out of a
    descriptor is given by the decoders of the Intel layout.  Port writes and console messages
    are logged. *)

From S2P Require Import Prelude.

Module Interrupts.

(** ** Segment descriptors *)

Definition SEG_DESCTYPE (x : Z) : Z := Z.shiftl x 0x04.
Definition SEG_PRES (x : Z) : Z := Z.shiftl x 0x07.
Definition SEG_SAVL (x : Z) : Z := Z.shiftl x 0x0C.
Definition SEG_LONG (x : Z) : Z := Z.shiftl x 0x0D.
Definition SEG_SIZE (x : Z) : Z := Z.shiftl x 0x0E.
Definition SEG_GRAN (x : Z) : Z := Z.shiftl x 0x0F.
Definition SEG_PRIV (x : Z) : Z := Z.shiftl (Z.land x 0x03) 0x05.
Definition SEG_DATA_RDWR : Z := 0x02.
Definition SEG_CODE_EXRD : Z := 0x0A.

Definition segment (priv type : Z) : Z :=
  Z.lor (Z.lor (Z.lor (Z.lor (Z.lor (Z.lor (Z.lor (SEG_DESCTYPE 1) (SEG_PRES 1)) (SEG_SAVL 0)) (SEG_LONG 0)) (SEG_SIZE 1)) (SEG_GRAN 1)) (SEG_PRIV priv)) type.
Definition GDT_CODE_PL0 : Z := segment 0 SEG_CODE_EXRD.
Definition GDT_DATA_PL0 : Z := segment 0 SEG_DATA_RDWR.
Definition GDT_CODE_PL3 : Z := segment 3 SEG_CODE_EXRD.
Definition GDT_DATA_PL3 : Z := segment 3 SEG_DATA_RDWR.

(** create_descriptor: the 64-bit word left in [desc]. *)
Definition create_descriptor (base limit flag : Z) : Z :=
  let d := Z.land limit 0x000F0000 in
  let d := Z.lor d (Z.land (Z.shiftl flag 8) 0x00F0FF00) in
  let d := Z.lor d (Z.land (Z.shiftr base 16) 0x000000FF) in
  let d := Z.lor d (Z.land base 0xFF000000) in
  let d := u64 (Z.shiftl d 32) in
  let d := Z.lor d (u32 (Z.shiftl base 16)) in
  Z.lor d (Z.land limit 0x0000FFFF).

(** The fields of gdt_entry_t in that word. *)
Definition limit_low (d : Z) : Z := Z.land d 0xFFFF.
Definition base_low (d : Z) : Z := Z.land (Z.shiftr d 16) 0xFFFF.
Definition base_middle (d : Z) : Z := Z.land (Z.shiftr d 32) 0xFF.
Definition access (d : Z) : Z := Z.land (Z.shiftr d 40) 0xFF.
Definition granularity (d : Z) : Z := Z.land (Z.shiftr d 48) 0xFF.
Definition base_high (d : Z) : Z := Z.land (Z.shiftr d 56) 0xFF.

(** What the processor makes of a descriptor. *)
Definition seg_base (d : Z) : Z := Z.lor (Z.lor (base_low d) (Z.shiftl (base_middle d) 16)) (Z.shiftl (base_high d) 24).
Definition seg_limit (d : Z) : Z := Z.lor (limit_low d) (Z.shiftl (Z.land (granularity d) 0x0F) 16).
Definition seg_flags (d : Z) : Z := Z.lor (access d) (Z.shiftl (Z.land (granularity d) 0xF0) 8).
Definition seg_present (d : Z) : bool := Z.testbit (access d) 7.

(** sizeof(TSS): 25 words and two half words. *)
Definition TSS_SIZE : Z := 104.
Record gdt_state := MkGdt { gdTable : list Z; gp_limit : Z; gp_base : Z }.
Definition init_gdt (tss gdTable_address : Z) : gdt_state :=
  MkGdt [create_descriptor 0 0 0;
         create_descriptor 0 0x000FFFFF GDT_CODE_PL0;
         create_descriptor 0 0x000FFFFF GDT_DATA_PL0;
         create_descriptor 0 0x000FFFFF GDT_CODE_PL3;
         create_descriptor 0 0x000FFFFF GDT_DATA_PL3;
         create_descriptor tss TSS_SIZE 99]
        (8 * 6 - 1) gdTable_address.

(** ** Interrupt gates *)

Record IDT_entry := MkGate { offsetLower : Z; selector : Z; zero : Z; typeAttribute : Z; offsethigher : Z }.
Definition NUM_IDT_ENTRIES : Z := 256.

Definition configureGate (offset gateNum : Z) (t : Z -> IDT_entry) : Z -> IDT_entry :=
  <[gateNum := MkGate (Z.land offset 0xffff) 0x08 0 0x8E (Z.shiftr (Z.land offset 0xffff0000) 16)]> t.
Definition gate_offset (g : IDT_entry) : Z := offsetLower g + 65536 * offsethigher g.

(** [irq n] is the address of the stub irq<n>. *)
Definition gate_list : list (Z * Z) :=
  [(0, 0); (1, 1); (3, 2); (4, 4); (5, 5); (6, 6); (7, 7); (8, 8); (10, 10); (11, 11); (12, 12); (13, 13); (14, 14);
   (17, 17); (32, 32); (33, 33); (128, 128)].
Definition configureIdt (irq : Z -> Z) (t : Z -> IDT_entry) : Z -> IDT_entry :=
  fold_left (fun t '(stub, gate) => configureGate (irq stub) gate t) gate_list t.

(** The two words handed to lidt, and what lidt reads of them: a 16-bit limit and a 32-bit base. *)
Definition idt_ptr (idt_address : Z) : Z * Z :=
  (u32 (8 * NUM_IDT_ENTRIES + u32 (Z.shiftl (Z.land idt_address 0xffff) 16)), Z.shiftr idt_address 16).
Definition lidt_limit (p : Z * Z) : Z := Z.land p.1 0xffff.
Definition lidt_base (p : Z * Z) : Z := Z.shiftr p.1 16 + 65536 * Z.land p.2 0xffff.

(** The PIC is remapped to vectors 32..47 before the table is filled. *)
Definition pic_remap : list (Z * Z) :=
  [(0x20, 0x11); (0xA0, 0x11); (0x21, 0x20); (0xA1, 40); (0x21, 0x04); (0xA1, 0x02); (0x21, 0x01); (0xA1, 0x01); (0x21, 0x0); (0xA1, 0x0)].
Record idt_state := MkIdt { IDTTable : Z -> IDT_entry; idtr : Z * Z; pic_log : list (Z * Z); if_flag : bool }.
Definition init_idt (irq : Z -> Z) (idt_address : Z) (s : idt_state) : idt_state :=
  MkIdt (configureIdt irq (IDTTable s)) (idt_ptr idt_address) (pic_log s ++ pic_remap) true.

(** ** Drivers *)

Definition NumInterrupts : Z := 48.
(** The callback table: which handler object, if any, serves an interrupt. *)
Abbreviation callback_table := (Z -> option Z).
Definition registerInterrupt (handler intNum : Z) (t : callback_table) : callback_table * list LogEntry :=
  if intNum <? NumInterrupts then (<[intNum := Some handler]> t, [])
  else (t, [Printk (crlf "Invalid interrupt number %d. Cannot register interrupt callback") []]).
(** The handler whose irqCallback runs. *)
Definition dispatch (t : callback_table) (intNum : Z) : option Z :=
  if intNum <? NumInterrupts then t intNum else None.

(** ** System calls, kernel side *)

Definition SYSCALL_OPEN : Z := 0.
Definition SYSCALL_CLOSE : Z := 1.
Definition SYSCALL_WRITE : Z := 2.

(** A call to printk: with a format of the kernel's, or with a user pointer as the format. *)
Inductive printed := Kernel (e : LogEntry) | UserFormat (data : Z).

Definition SyscallOpen (fileName flags : Z) : list printed * Z :=
  ([Kernel (Printk (crlf "syscall open. File = %s") [fileName])], 1).
Definition SyscallWrite (fd data len : Z) : list printed * Z :=
  (if s32 fd =? 1 then [UserFormat data] else [], 0).
Definition SyscallClose (file : Z) : list printed * Z :=
  ([Kernel (Printk (crlf "syscall close. file = %d") [file])], 0).
Definition Handle (syscall p1 p2 p3 p4 p5 : Z) : list printed * Z :=
  if syscall =? SYSCALL_OPEN then SyscallOpen p1 p2
  else if syscall =? SYSCALL_WRITE then SyscallWrite p1 p2 p3
  else if syscall =? SYSCALL_CLOSE then SyscallClose p1
  else ([Kernel (Printk (crlf "Unknown syscall %d") [syscall])], 1).

(** ** The common interrupt handler *)

Record Registers := MkRegs { edi : Z; esi : Z; ebx : Z; edx : Z; ecx : Z; eax : Z; int_no : Z }.
Definition set_eax (r : Registers) (v : Z) : Registers := MkRegs (edi r) (esi r) (ebx r) (edx r) (ecx r) v (int_no r).

Definition PIC1_COMMAND : Z := 0x20.
Definition PIC2_COMMAND : Z := 0xA0.
Definition PIC_EOI : Z := 0x20.

(** What one interrupt does: the end-of-interrupt write, the driver called, the messages, the
    registers popped afterwards; [None] registers when the handler never returns. *)
Record effect := MkEffect { eoi : Z * Z; callback : option Z; messages : list printed; result : option Registers }.

Definition interruptHandler (t : callback_table) (regs : Registers) : effect :=
  let e := if int_no regs >=? 40 then (PIC2_COMMAND, PIC_EOI) else (PIC1_COMMAND, PIC_EOI) in
  if int_no regs <? 32 then MkEffect e None [Kernel (Printk (crlf "Exception occured! %d") [int_no regs])] None
  else if int_no regs <? 48 then MkEffect e (dispatch t (int_no regs)) [] (Some regs)
  else if int_no regs =? 128 then
    let '(msgs, v) := Handle (eax regs) (ebx regs) (ecx regs) (edx regs) (esi regs) (edi regs) in
    MkEffect e None msgs (Some (set_eax regs v))
  else MkEffect e None [] (Some regs).

(** ** System calls, user side *)

Definition SYSCALL_READ : Z := 3.
Definition SYSCALL_SRBK : Z := 4.
Definition SYSCALL_KILL : Z := 5.
Definition SYSCALL_EXIT : Z := 6.

(** [int $0x80] with the arguments in the registers the inline assembly names; a 32-bit int is its
    unsigned value. *)
Definition syscall (t : callback_table) (n p1 p2 p3 p4 p5 : Z) : list printed * Z :=
  let e := interruptHandler t (MkRegs (u32 p5) (u32 p4) (u32 p1) (u32 p3) (u32 p2) n 128) in
  (messages e, match result e with Some r => eax r | None => 0 end).

Definition write (t : callback_table) (file ptr len : Z) : list printed * Z :=
  ((syscall t SYSCALL_WRITE file ptr len 15 16).1, 0).
Definition read (t : callback_table) (file ptr len : Z) : list printed * Z :=
  ((syscall t SYSCALL_READ file ptr len 15 16).1, 0).
Definition open (t : callback_table) (name flags : Z) : list printed * Z :=
  ((syscall t SYSCALL_OPEN name flags 33 44 55).1, 0).
Definition close (t : callback_table) (file : Z) : list printed * Z :=
  ((syscall t SYSCALL_CLOSE file 0 0 0 6).1, 0).
Definition sbrk (t : callback_table) (incr : Z) : list printed * Z :=
  ((syscall t SYSCALL_SRBK incr 0 0 0 6).1, 0).
Definition kill (t : callback_table) (pid sig : Z) : list printed * Z :=
  ((syscall t SYSCALL_KILL pid sig 0 0 6).1, 0).
Definition _exit (t : callback_table) : list printed := (syscall t SYSCALL_EXIT 0 0 0 0 6).1.

(** The calls that do not enter the kernel: fstat with the [st_mode] it stores; lseek, which ends without a return statement. *)
Definition S_IFCHR : Z := 8192.
Definition isatty (file : Z) : Z := 1.
Definition fstat (file : Z) : Z * Z := (0, S_IFCHR).
Definition lseek (file ptr dir : Z) : option Z := None.
Definition getpid : Z := 0.

(** ** Descriptors: proofs *)

(** [cmp]: settle every integer comparison of the goal by arithmetic. *)
Ltac cmp := repeat match goal with
  | |- context [?a <=? ?b] => first [rewrite (proj2 (Z.leb_le a b)) by lia | rewrite (proj2 (Z.leb_gt a b)) by lia]
  | |- context [?a <? ?b] => first [rewrite (proj2 (Z.ltb_lt a b)) by lia | rewrite (proj2 (Z.ltb_ge a b)) by lia]
  end.

(** Bits of the masks the code uses. *)
Lemma mask_bit n k i : 0 <= n -> 0 <= k -> 0 <= i -> Z.testbit (Z.shiftl (Z.ones n) k) i = (k <=? i) && (i <? k + n).
Proof.
  intros Hn Hk Hi. rewrite Z.shiftl_spec by lia. destruct (Z.leb_spec k i); simpl.
  - destruct (Z.ltb_spec i (k + n)); [apply Z.ones_spec_low|apply Z.ones_spec_high]; lia.
  - apply Z.testbit_neg_r. lia.
Qed.
Lemma wrap_bit x n i : 0 <= n -> 0 <= i -> Z.testbit (x mod 2 ^ n) i = (i <? n) && Z.testbit x i.
Proof.
  intros Hn Hi. destruct (Z.ltb_spec i n); simpl; [by apply Z.mod_pow2_bits_low|apply Z.mod_pow2_bits_high; lia].
Qed.
Lemma neg_bit x i : i < 0 -> Z.testbit x i = false.
Proof. apply Z.testbit_neg_r. Qed.

(** Every bit of a descriptor word, by region. *)
Lemma descriptor_bit base limit flag i : is_u32 base -> is_u32 limit -> 0 <= i ->
  Z.testbit (create_descriptor base limit flag) i =
    if i <? 16 then Z.testbit limit i
    else if i <? 32 then Z.testbit base (i - 16)
    else if i <? 40 then Z.testbit base (i - 16)
    else if i <? 48 then Z.testbit flag (i - 40)
    else if i <? 52 then Z.testbit limit (i - 32)
    else if i <? 56 then Z.testbit flag (i - 40)
    else if i <? 64 then Z.testbit base (i - 32) else false.
Proof.
  intros Hb Hl Hi. unfold create_descriptor.
  change 0x000F0000 with (Z.shiftl (Z.ones 4) 16). change 0x00F0FF00 with (Z.lor (Z.shiftl (Z.ones 8) 8) (Z.shiftl (Z.ones 4) 20)).
  change 0x000000FF with (Z.shiftl (Z.ones 8) 0). change 0xFF000000 with (Z.shiftl (Z.ones 8) 24). change 0x0000FFFF with (Z.shiftl (Z.ones 16) 0).
  rewrite !Z.lor_spec, Z.land_spec, mask_bit by lia. change (u64 ?x) with (x mod 2 ^ 64). change (u32 ?x) with (x mod 2 ^ 32).
  rewrite !wrap_bit by lia. rewrite (Z.shiftl_spec _ 32) by lia. rewrite (Z.shiftl_spec base) by lia.
  destruct (Z.ltb_spec i 32) as [H32|H32].
  - rewrite (neg_bit _ (i - 32)) by lia. rewrite andb_false_r. cbn [orb].
    destruct (Z.ltb_spec i 16).
    + rewrite (neg_bit base) by lia. rewrite (proj2 (Z.leb_le 0 i)), (proj2 (Z.ltb_lt _ _)) by lia. cbn. by rewrite andb_true_r.
    + rewrite (proj2 (Z.ltb_ge i (0 + 16))) by lia. rewrite !andb_false_r, orb_false_r. done.
  - set (j := i - 32). assert (0 <= j) by lia. rewrite (proj2 (Z.ltb_ge i (0 + 16))) by lia.
    rewrite !andb_false_r, !orb_false_r. rewrite (proj2 (Z.ltb_ge i 16)) by lia.
    cbn [andb]. rewrite ?orb_false_r.
    rewrite !Z.lor_spec, !Z.land_spec, !Z.lor_spec, !mask_bit, Z.shiftr_spec, (Z.shiftl_spec flag) by lia.
    replace (i - 16) with (j + 16) by lia. replace (i - 40) with (j - 8) by lia.
    destruct (Z.ltb_spec i 64); cbn [andb].
    2: { repeat (rewrite (proj2 (Z.ltb_ge i _)) by lia). done. }
    destruct (Z.ltb_spec i 40); [|destruct (Z.ltb_spec i 48); [|destruct (Z.ltb_spec i 52); [|destruct (Z.ltb_spec i 56)]]];
      cmp; cbn [andb orb]; rewrite ?andb_true_r, ?andb_false_r, ?orb_false_r; reflexivity.
Qed.

Lemma u32_bits x y : is_u32 x -> is_u32 y -> (forall i, 0 <= i < 32 -> Z.testbit x i = Z.testbit y i) -> x = y.
Proof.
  intros Hx Hy H. apply Z.bits_inj'. intros i Hi. destruct (Z.lt_ge_cases i 32); [by apply H|].
  rewrite (testbit_high x 32 i), (testbit_high y 32 i); try done; unfold is_u32 in *; lia.
Qed.

(** C26: A segment descriptor holds what it was made from.  For every 32-bit base and limit and
    16-bit flag word, the processor reads out of the descriptor word the base, the low 20 bits of
    the limit, and the flags without their bits 8 to 11 (which the limit's high bits occupy). *)
Theorem descriptor_roundtrip (base limit flag : Z) :
  is_u32 base -> is_u32 limit -> is_u16 flag ->
  let d := create_descriptor base limit flag in
  seg_base d = base /\ seg_limit d = limit mod 1048576 /\ seg_flags d = Z.land flag 0xF0FF.
Proof.
  intros Hb Hl Hf d.
  assert (forall n k i, 0 <= n -> 0 <= k -> 0 <= i -> Z.testbit (Z.land (Z.shiftr d k) (Z.ones n)) i = (i <? n) && Z.testbit d (i + k)) as Hbit.
  { intros n k i Hn Hk Hi. rewrite Z.land_spec, Z.shiftr_spec by lia. destruct (Z.ltb_spec i n).
    - rewrite Z.ones_spec_low, andb_true_r by lia. reflexivity.
    - rewrite Z.ones_spec_high, andb_false_r by lia. reflexivity. }
  split_and!.
  - apply Z.bits_inj'. intros i Hi. unfold seg_base, base_low, base_middle, base_high.
    change 0xFFFF with (Z.ones 16). change 0xFF with (Z.ones 8). rewrite !Z.lor_spec, Hbit by lia.
    rewrite !Z.shiftl_spec by lia.
    destruct (Z.ltb_spec i 16); [|destruct (Z.ltb_spec i 24); [|destruct (Z.ltb_spec i 32)]].
    + rewrite !(neg_bit _ (i - _)) by lia. rewrite !orb_false_r. unfold d. rewrite descriptor_bit by (done || lia). cmp. cbn [andb]. f_equal. lia.
    + rewrite (neg_bit _ (i - 24)) by lia. rewrite Hbit by lia. unfold d. rewrite !descriptor_bit by (done || lia). cmp. cbn [andb orb]. rewrite orb_false_r. f_equal. lia.
    + rewrite !Hbit by lia. unfold d. rewrite !descriptor_bit by (done || lia). cmp. cbn [andb orb]. f_equal. lia.
    + rewrite !Hbit by lia. cmp. cbn [andb orb]. symmetry. apply (testbit_high base 32); unfold is_u32 in *; lia.
  - apply Z.bits_inj'. intros i Hi. unfold seg_limit, limit_low, granularity.
    change 1048576 with (2 ^ 20). rewrite wrap_bit by lia. change 0xFFFF with (Z.ones 16). change 0xFF with (Z.ones 8). change 0x0F with (Z.ones 4).
    rewrite Z.lor_spec. rewrite <- (Z.shiftr_0_r d) at 1. rewrite Hbit, Z.shiftl_spec by lia.
    destruct (Z.ltb_spec i 16); [|destruct (Z.ltb_spec i 20)].
    + rewrite (neg_bit _ (i - 16)) by lia. unfold d. rewrite !descriptor_bit by (done || lia). cmp. cbn [andb]. rewrite orb_false_r. f_equal. lia.
    + rewrite Z.land_spec, Hbit, Z.ones_spec_low by lia. unfold d. rewrite !descriptor_bit by (done || lia). cmp. cbn [andb orb]. rewrite andb_true_r. f_equal. lia.
    + rewrite Z.land_spec, Hbit, Z.ones_spec_high by lia. cmp. rewrite !andb_false_r. reflexivity.
  - apply Z.bits_inj'. intros i Hi. unfold seg_flags, access, granularity.
    change 0xF0FF with (Z.lor (Z.shiftl (Z.ones 8) 0) (Z.shiftl (Z.ones 4) 12)). change 0xF0 with (Z.shiftl (Z.ones 4) 4). change 0xFF with (Z.ones 8).
    rewrite Z.lor_spec, (Z.land_spec flag), Z.lor_spec, !mask_bit, Hbit, Z.shiftl_spec by lia.
    destruct (Z.ltb_spec i 8); [|destruct (Z.ltb_spec i 12); [|destruct (Z.ltb_spec i 16)]].
    + rewrite (neg_bit _ (i - 8)) by lia. unfold d. rewrite !descriptor_bit by (done || lia). cmp. cbn [andb orb].
      rewrite ?andb_true_r, ?orb_false_r. f_equal. lia.
    + rewrite Z.land_spec, Hbit, mask_bit by lia. cmp. cbn [andb orb]. rewrite ?andb_false_r. reflexivity.
    + rewrite Z.land_spec, Hbit, mask_bit by lia. unfold d. rewrite !descriptor_bit by (done || lia). cmp. cbn [andb orb].
      rewrite ?andb_true_r. f_equal. lia.
    + rewrite Z.land_spec, mask_bit by lia. cmp. cbn [andb orb]. rewrite ?andb_false_r. reflexivity.
Qed.

Lemma descriptor_roundtrip_witness :
  seg_base (create_descriptor 0x12345678 0xFFFFF GDT_DATA_PL3) = 0x12345678.
Proof. apply (descriptor_roundtrip 0x12345678 0xFFFFF GDT_DATA_PL3); split; vm_compute; (reflexivity || discriminate). Defined.

(** The segments gdt::init sets up: the null segment, four flat present 4 KiB-granular segments of
    4 GiB with the code and data types of rings 0 and 3, and last a task-state segment with the
    address of the TSS that is not marked present. *)
Theorem gdt_segments (tss table : Z) : is_u32 tss ->
  let g := init_gdt tss table in
  length (gdTable g) = 6%nat /\ gp_limit g + 1 = 8 * Z.of_nat (length (gdTable g)) /\
  gdTable g !! 0%nat = Some 0 /\
  (forall k, (1 <= k <= 4)%nat -> exists d, gdTable g !! k = Some d /\
     seg_base d = 0 /\ seg_limit d = 0xFFFFF /\ seg_present d = true /\
     seg_flags d = Z.lor 0xC090 (Z.lor (if decide (k <= 2)%nat then 0 else 0x60) (if Nat.odd k then SEG_CODE_EXRD else SEG_DATA_RDWR))) /\
  exists d, gdTable g !! 5%nat = Some d /\ seg_base d = tss /\ seg_limit d = TSS_SIZE /\ seg_present d = false.
Proof.
  intros Ht g. split_and!; [reflexivity|reflexivity|reflexivity| |].
  - intros k Hk. assert (k = 1 \/ k = 2 \/ k = 3 \/ k = 4)%nat as [->|[->|[->| ->]]] by lia;
      (eexists; split; [reflexivity|]); vm_compute; repeat split.
  - exists (create_descriptor tss TSS_SIZE 99). split; [reflexivity|].
    destruct (descriptor_roundtrip tss TSS_SIZE 99 Ht) as (E1 & E2 & E3); [split; vm_compute; (reflexivity || discriminate)..|].
    split; [exact E1|]. split; [rewrite E2; reflexivity|]. unfold seg_present, access. change 0xFF with (Z.ones 8).
    rewrite Z.land_spec, Z.ones_spec_low, andb_true_r, Z.shiftr_spec by lia.
    rewrite descriptor_bit by (done || lia || (split; vm_compute; (reflexivity || discriminate))). reflexivity.
Qed.
Lemma gdt_segments_witness : length (gdTable (init_gdt 4096 8192)) = 6%nat.
Proof. apply (gdt_segments 4096 8192). unfold is_u32. lia. Defined.

Lemma gate_roundtrip offset n t : is_u32 offset -> gate_offset (configureGate offset n t n) = offset.
Proof.
  intros Ho. unfold configureGate, gate_offset. rewrite fn_lookup_insert. cbn [offsetLower offsethigher].
  change 0xffff0000 with (Z.shiftl (Z.ones 16) 16). change 0xffff with (Z.ones 16).
  assert (Z.shiftr (Z.land offset (Z.shiftl (Z.ones 16) 16)) 16 = offset / 65536) as ->.
  { rewrite Z.shiftr_land, Z.shiftr_shiftl_l, Z.shiftl_0_r, Z.land_ones, Z.shiftr_div_pow2 by lia.
    change (2 ^ 16) with 65536. unfold is_u32 in Ho. apply Z.mod_small. zlia. }
  rewrite Z.land_ones by lia. change (2 ^ 16) with 65536. zlia.
Qed.

(** The interrupt table after IDT::init.  Each configured vector holds a present 32-bit kernel
    interrupt gate to its stub, every other entry is untouched, and lidt is given the address of
    the table; vector 2 leads to the stub of vector 3 and vector 3 has no gate, and the limit
    is one past the last byte of the table. *)
Theorem idt_gates (irq : Z -> Z) (address : Z) (s : idt_state) :
  (forall n, is_u32 (irq n)) -> is_u32 address ->
  let s' := init_idt irq address s in
  (forall stub v, (stub, v) ∈ gate_list ->
     gate_offset (IDTTable s' v) = irq stub /\ selector (IDTTable s' v) = 8 /\ typeAttribute (IDTTable s' v) = 0x8E) /\
  (forall v, v ∉ gate_list.*2 -> IDTTable s' v = IDTTable s v) /\
  lidt_base (idtr s') = address /\ lidt_limit (idtr s') = 8 * NUM_IDT_ENTRIES /\
  (3, 2) ∈ gate_list /\ 3 ∉ gate_list.*2.
Proof.
  intros Hirq Ha s'.
  assert (forall l t v, v ∉ l.*2 -> fold_left (fun t '(stub, gate) => configureGate (irq stub) gate t) l t v = t v) as Hother.
  { induction l as [|[stub g] l IH]; intros t v Hv; [done|]. rewrite fmap_cons, not_elem_of_cons in Hv. destruct Hv as [H1 H2].
    cbn [fold_left]. rewrite IH by done. unfold configureGate. by rewrite fn_lookup_insert_ne. }
  assert (forall l t stub v, NoDup (l.*2) -> (stub, v) ∈ l ->
    fold_left (fun t '(stub, gate) => configureGate (irq stub) gate t) l t v = configureGate (irq stub) v (fun _ => MkGate 0 0 0 0 0) v) as Hin.
  { induction l as [|[stub' g] l IH]; intros t stub v Hn Hv; [by apply not_elem_of_nil in Hv|].
    rewrite fmap_cons in Hn. apply NoDup_cons in Hn as [Hn1 Hn2]. apply elem_of_cons in Hv as [[= <- <-]|Hv].
    - cbn [fold_left]. rewrite Hother by done. unfold configureGate. by rewrite !fn_lookup_insert.
    - cbn [fold_left]. by apply IH. }
  split_and!.
  - intros stub v Hv. unfold s', init_idt, configureIdt. cbn [IDTTable]. rewrite (Hin _ _ stub v); [|by apply (bool_decide_unpack _)|done].
    split; [by apply gate_roundtrip|]. unfold configureGate. rewrite fn_lookup_insert. done.
  - intros v Hv. unfold s', init_idt, configureIdt. cbn [IDTTable]. by apply Hother.
  - unfold s', init_idt, idt_ptr, lidt_base, NUM_IDT_ENTRIES. cbn [idtr fst snd]. change 0xffff with (Z.ones 16).
    rewrite !Z.land_ones, Z.shiftl_mul_pow2, !Z.shiftr_div_pow2 by lia. change (2 ^ 16) with 65536. unfold is_u32 in Ha. zlia.
  - unfold s', init_idt, idt_ptr, lidt_limit, NUM_IDT_ENTRIES. cbn [idtr fst snd]. change 0xffff with (Z.ones 16).
    rewrite !Z.land_ones, Z.shiftl_mul_pow2 by lia. change (2 ^ 16) with 65536. unfold is_u32 in Ha. zlia.
  - by apply (bool_decide_unpack _).
  - by apply (bool_decide_unpack _).
Qed.
Lemma idt_gates_witness :
  gate_offset (IDTTable (init_idt (fun n => 0x100000 + u8 n) 4096 (MkIdt (fun _ => MkGate 0 0 0 0 0) (0, 0) [] false)) 32) = 0x100020.
Proof.
  destruct (idt_gates (fun n => 0x100000 + u8 n) 4096 (MkIdt (fun _ => MkGate 0 0 0 0 0) (0, 0) [] false)) as (H & _).
  - intros n. pose proof (u8_range n). unfold is_u8, is_u32 in *. lia.
  - unfold is_u32. lia.
  - apply (H 32 32). apply (bool_decide_unpack _). vm_compute. reflexivity.
Defined.

(** What one interrupt does.  A hardware interrupt calls exactly the driver registered for its
    vector, if any, and returns with the registers unchanged; an exception reports itself and
    never returns; vector 128 is a system call, whose number and arguments are eax, ebx, ecx,
    edx, esi, edi and whose result replaces eax only.  One end-of-interrupt command is always
    sent: to the slave controller from vector 40 on (the system call included), else to the
    master. *)
Theorem interrupt_dispatch (t : callback_table) (h v : Z) (r : Registers) (n : Z) :
  0 <= int_no r -> 0 <= v < 48 ->
  let e := interruptHandler (registerInterrupt h v t).1 r in
  eoi e = (if 40 <=? int_no r then 0xA0 else 0x20, 0x20) /\
  (int_no r < 32 -> result e = None /\ callback e = None) /\
  (32 <= int_no r < 48 -> result e = Some r /\ messages e = [] /\ callback e = if int_no r =? v then Some h else t (int_no r)) /\
  (int_no r = 128 -> callback e = None /\
     (messages e, Some (result e)) = ((Handle (eax r) (ebx r) (ecx r) (edx r) (esi r) (edi r)).1,
       Some (Some (set_eax r (Handle (eax r) (ebx r) (ecx r) (edx r) (esi r) (edi r)).2)))).
Proof.
  intros Hn Hv e. unfold e, registerInterrupt, NumInterrupts. rewrite (proj2 (Z.ltb_lt v 48)) by lia. cbn [fst].
  unfold interruptHandler. rewrite Z.geb_leb. split_and!.
  - destruct (40 <=? int_no r), (int_no r <? 32), (int_no r <? 48), (int_no r =? 128); cbn [eoi]; try reflexivity;
      by destruct (Handle _ _ _ _ _ _).
  - intros H. rewrite (proj2 (Z.ltb_lt _ _)) by lia. done.
  - intros H. rewrite (proj2 (Z.ltb_ge _ 32)), (proj2 (Z.ltb_lt _ 48)) by lia. cbn [result messages callback].
    split; [done|]. split; [done|]. unfold dispatch, NumInterrupts. rewrite (proj2 (Z.ltb_lt _ 48)) by lia.
    destruct (Z.eqb_spec (int_no r) v) as [->|Hne]; [by rewrite fn_lookup_insert|by rewrite fn_lookup_insert_ne].
  - intros H. rewrite H. cbn [Z.ltb Z.compare]. simpl. destruct (Handle _ _ _ _ _ _). done.
Qed.
Lemma interrupt_dispatch_witness :
  callback (interruptHandler (registerInterrupt 7 33 (fun _ => None)).1 (MkRegs 0 0 0 0 0 0 33)) = Some 7.
Proof.
  destruct (interrupt_dispatch (fun _ => None) 7 33 (MkRegs 0 0 0 0 0 0 33) 0) as (_ & _ & H & _); [simpl; lia|lia|].
  apply H. simpl. lia.
Defined.

(** System calls from the C library to the kernel.  A write of a user program to descriptor 1
    hands its data to printk as the format, whatever the length, and a write to any other
    descriptor prints nothing; open and close reach their kernel functions with their first
    argument; read, sbrk, kill and _exit use numbers the kernel does not know.  All of them
    return 0 to the program, whatever the kernel answered. *)
Theorem syscalls_end_to_end (t : callback_table) (a b c : Z) :
  write t a b c = (if s32 a =? 1 then [UserFormat (u32 b)] else [], 0) /\
  open t a b = ([Kernel (Printk (crlf "syscall open. File = %s") [u32 a])], 0) /\
  close t a = ([Kernel (Printk (crlf "syscall close. file = %d") [u32 a])], 0) /\
  read t a b c = ([Kernel (Printk (crlf "Unknown syscall %d") [3])], 0) /\
  sbrk t a = ([Kernel (Printk (crlf "Unknown syscall %d") [4])], 0) /\
  kill t a b = ([Kernel (Printk (crlf "Unknown syscall %d") [5])], 0) /\
  _exit t = [Kernel (Printk (crlf "Unknown syscall %d") [6])].
Proof.
  split_and!; try reflexivity. unfold write, syscall, interruptHandler. simpl.
  unfold SyscallWrite. assert (s32 (u32 a) = s32 a) as -> by (unfold s32; by rewrite u32_u32). done.
Qed.

End Interrupts.
