(* ===== verification/UserOutput.v ===== *)
(** Output of a user program, from its write to the screen: the system call of
    newlib/newlib/libc/sys/sakura/syscalls.c, the kernel's dispatch in IDT.cpp and Syscalls.cpp, printk in
    Libk.cpp, and the console. *)

From Stdlib Require Import Floats.SpecFloat.
From S2P Require Import Prelude Printf PrintfSpec Console Interrupts.

Module UserOutput.
Import Printf PrintfSpec Console.

Section Output.
Context {D : Type} `{Double D}.
(** Where the linker put a format of the kernel; the stack words printk takes for arguments when
    it is called without any. *)
Context (text_at : string -> Z) (stack : list Z).

(** The calls of printk that an interrupt makes, performed on the console and the memory. *)
Definition perform (fuel : nat) (printkBuffer : Z) (p : Interrupts.printed) (st : option TTY * PState) : option (option TTY * PState) :=
  match p with
  | Interrupts.Kernel e => printk fuel printkBuffer st.1 (text_at (lg_format e)) (lg_args e) st.2
  | Interrupts.UserFormat data => printk fuel printkBuffer st.1 data stack st.2
  end.
Fixpoint performs (fuel : nat) (printkBuffer : Z) (l : list Interrupts.printed) (st : option TTY * PState) : option (option TTY * PState) :=
  match l with
  | [] => Some st
  | p :: l => st ← perform fuel printkBuffer p st; performs fuel printkBuffer l st
  end.

(** C27: A program's text reaches the screen.  Let [l] be a C string of printable bytes other than '%'
    in memory, apart from printk's buffer, that fits in the rest of the cursor's row.  A write of
    it to descriptor 1 ends, whatever the length argument says, and shows exactly the bytes of [l] from
    the cursor on; no other cell changes, and the cursor and the CRT controller's registers move
    behind the text.  A write to any other descriptor changes nothing.  The program gets 0 in
    both cases. *)
Theorem user_write_shown (fuel : nat) (callbacks : Interrupts.callback_table) (printkBuffer ptr len fd : Z)
    (s : PState) (t : TTY) (l : list Z) :
  cstring (pmem s) ptr l -> forallb printable l = true -> Forall (fun c => c <> chr "%") l -> (length l < fuel)%nat ->
  0 < printkBuffer -> 0 <= ptr -> ptr + Z.of_nat (length l) < 4294967296 -> printkBuffer + Z.of_nat (length l) < 4294967296 ->
  ptr + Z.of_nat (length l) < printkBuffer \/ printkBuffer + Z.of_nat (length l) < ptr ->
  tty_ok t -> m_row t < 25 -> m_column t + Z.of_nat (length l) < 80 ->
  let '(msgs, r) := Interrupts.write callbacks fd ptr len in
  r = 0 /\
  exists t' s', performs fuel printkBuffer msgs (Some t, s) = Some (Some t', s') /\
    if s32 fd =? 1 then
      m_row t' = m_row t /\ m_column t' = m_column t + Z.of_nat (length l) /\
      cursor_pos t' = m_row t * 80 + m_column t + Z.of_nat (length l) /\
      forall i, m_buffer t' i =
        if (m_row t * 80 + m_column t <=? i) && (i <? m_row t * 80 + m_column t + Z.of_nat (length l))
        then vga_entry (default 0 (l !! Z.to_nat (i - (m_row t * 80 + m_column t)))) (m_color t) else m_buffer t i
    else t' = t /\ s' = s.
Proof.
  intros Hs Hp Hpc Hf Hb Hptr Hpl Hbl Hd Hok Hr Hc.
  destruct (Interrupts.syscalls_end_to_end callbacks fd ptr len) as [Hw _]. rewrite Hw. clear Hw. split; [done|].
  rewrite (u32_small ptr) by (unfold is_u32; lia).
  destruct (s32 fd =? 1); [|by exists t, s]. cbn [performs perform fst snd].
  destruct Hok as (Hc0 & Hok').
  destruct (printk_plain_spec fuel printkBuffer ptr (Some t) stack s l) as (s' & -> & Hbytes & _); try done; try lia.
  cbn [mbind option_bind fmap option_fmap option_map]. eexists _, s'. split; [reflexivity|].
  pose proof Hc as Hc1. rewrite Z.min_l by (clear -Hc0 Hc1; lia).
  assert (u8 <$> l = l) as Hu.
  { rewrite <- (list_fmap_id l) at 2. apply list_fmap_ext. intros i c Hi. apply u8_small.
    rewrite forallb_forall in Hp. specialize (Hp c (proj1 (list_elem_of_In _ _) (list_elem_of_lookup_2 _ _ _ Hi))).
    unfold printable in Hp. apply andb_true_iff in Hp as [?%Z.leb_le ?%Z.ltb_lt]. unfold is_u8. simpl. lia. }
  rewrite Hu in Hbytes. apply (tty_shows_text (pmem s') printkBuffer l t); done.
Qed.
End Output.

(** Hello, with a length that is wrong: all of it is shown. *)
Lemma user_write_shown_witness : exists t' s',
  performs (D := spec_float) (fun _ => 0) [] 10 8192 (Interrupts.write (fun _ => None) 1 4096 2).1
    (Some ex_tty, MkP (storel (fun _ => 0) 4096 (str "hello")) [] []) = Some (Some t', s') /\
  cursor_pos t' = 5 /\ m_buffer t' 4 = vga_entry (chr "o") 7.
Proof.
  destruct (user_write_shown (D := spec_float) (fun _ => 0) [] 10 (fun _ => None) 8192 4096 2 1
    (MkP (storel (fun _ => 0) 4096 (str "hello")) [] []) ex_tty (str "hello")) as (_ & t' & s' & E & _ & _ & Hcur & Hcell).
  - vm_compute. repeat split; discriminate.
  - reflexivity.
  - repeat constructor; discriminate.
  - simpl. lia.
  - lia.
  - lia.
  - reflexivity.
  - reflexivity.
  - left. reflexivity.
  - vm_compute. intuition discriminate.
  - reflexivity.
  - reflexivity.
  - exists t', s'. split; [exact E|]. split; [exact Hcur|]. rewrite Hcell. reflexivity.
Defined.

End UserOutput.
