(* ===== verification/Terminal.v ===== *)
(** The terminal (Kernel/Devices/TTY.cpp, tty_process, over Keyboard.cpp): key interrupts on one side, the
    task that echoes what it reads to the screen on the other, in any interleaving. *)

From S2P Require Import Prelude RingBuffer Keyboard Console.

Module Terminal.
Import RingBuffer Keyboard Console.

(** The part of a round of tty_process behind its read. *)
Definition echo (t : TTY) (c : Z) : TTY :=
  let t := writeChar c t in updateCursor (m_column t) (m_row t) t.

(** A step of tty_process: a step of its blocking read, and when that has its character, the rest
    of the round, which shares nothing with the interrupt. *)
Definition tty_process (uninit : Z) (r : t Z) (s : reading) (tty : TTY) : t Z * reading * TTY :=
  match s with
  | Taken c => (r, Testing, echo tty c)
  | _ => let '(r', s') := reading_step uninit r s in (r', s', tty)
  end.

Definition terminal : Type := t Z * reading * TTY.
Definition tstep (beyond : Z -> Z) (uninit : Z) (st : terminal) (e : event) : terminal :=
  let '(r, s, tty) := st in
  match e with
  | Irq k => (irqCallback beyond k r, s, tty)
  | Run => tty_process uninit r s tty
  end.
Definition trun (beyond : Z -> Z) (uninit : Z) (es : list event) (st : terminal) : terminal := fold_left (tstep beyond uninit) es st.

(** No key press comes in a window of the reader or finds the buffer full. *)
Fixpoint undisturbed (beyond : Z -> Z) (uninit : Z) (es : list event) (st : terminal) : Prop :=
  match es with
  | [] => True
  | e :: es =>
      match e with
      | Irq k => typed beyond k = [] \/
                 in_window st.1.2 = false /\ Z.of_nat (length (pending st.1.1)) < KEYBOARD_RINGBUF_SIZE
      | Run => True
      end /\ undisturbed beyond uninit es (tstep beyond uninit st e)
  end.

Lemma trun_app beyond uninit es es' st : trun beyond uninit (es ++ es') st = trun beyond uninit es' (trun beyond uninit es st).
Proof. apply fold_left_app. Qed.
Lemma undisturbed_app beyond uninit es es' : forall st,
  undisturbed beyond uninit es st -> undisturbed beyond uninit es' (trun beyond uninit es st) -> undisturbed beyond uninit (es ++ es') st.
Proof. induction es as [|e es IH]; intros st H H'; [done|]. destruct H as [H1 H2]. split; [done|]. by apply IH. Qed.
Lemma undisturbed_alone beyond uninit n : forall st, undisturbed beyond uninit (replicate n Run) st.
Proof. induction n as [|n IH]; intros st; [done|]. split; [done|]. apply IH. Qed.

(** ** Nothing is lost, nothing is invented *)

(** From the screen [t0] and the characters [typed], some are echoed and the others on their way. *)
Record echoing (t0 : TTY) (typed shown : list Z) (st : terminal) : Prop := {
  ec_ring : kbd_wf st.1.1;
  ec_sees : sees st.1.1 st.1.2;
  ec_screen : st.2 = fold_left echo shown t0;
  ec_typed : shown ++ in_hand st.1.2 ++ (u8 <$> pending st.1.1) = typed
}.

Lemma tty_process_echoing uninit t0 l shown r s tty : echoing t0 l shown (r, s, tty) ->
  exists shown', echoing t0 l shown' (tty_process uninit r s tty).
Proof.
  intros [Hw Hs Ht Hl]. simpl in *. assert ((exists c, s = Taken c) \/ forall c, s <> Taken c) as [(c & ->)|Hne] by (destruct s; [by right|by right|left; eauto]).
  - exists (shown ++ [c]). split; [done|done| |].
    + simpl. by rewrite fold_left_app, Ht.
    + simpl in *. by rewrite <- app_assoc.
  - pose proof (reading_step_sees uninit r s Hw Hs Hne) as H. exists shown.
    assert (tty_process uninit r s tty = let '(r', s') := reading_step uninit r s in (r', s', tty)) as ->
      by (destruct s; [done|done|by destruct (Hne c)]).
    destruct (reading_step uninit r s) as [r' s']. destruct H as (H1 & H2 & H3). split; [done|done|done|]. simpl. by rewrite H3.
Qed.

Lemma trun_echoing beyond uninit t0 es : forall l shown st,
  echoing t0 l shown st -> undisturbed beyond uninit es st ->
  exists shown', echoing t0 (l ++ (u8 <$> input beyond es)) shown' (trun beyond uninit es st).
Proof.
  induction es as [|e es IH]; intros l shown [[r s] tty] H Hu.
  - exists shown. by rewrite app_nil_r.
  - destruct Hu as [He Hu]. cbn [trun fold_left]. fold (trun beyond uninit es). destruct e as [k|].
    + simpl in He. destruct H as [Hw Hs Ht Hl]. destruct (irqCallback_sees beyond k r s Hw Hs He) as (H1 & H2 & H3).
      change (input beyond (Irq k :: es)) with (typed beyond k ++ input beyond es). rewrite fmap_app, app_assoc.
      apply (IH _ shown); [|exact Hu]. split; [done|done|done|]. simpl in *. by rewrite H3, fmap_app, <- Hl, !app_assoc.
    + change (input beyond (Run :: es)) with (input beyond es).
      destruct (tty_process_echoing uninit t0 l shown r s tty H) as (shown' & H'). by apply (IH _ shown').
Qed.

(** ** The task gets there *)

(** Steps the task needs, at most: ten for a character in the buffer, and what is left of the
    round it is in. *)
Definition left_over (st : terminal) : Z :=
  10 * Z.of_nat (length (pending st.1.1)) +
  match st.1.2 with
  | Testing => 9 | Taken _ => 11
  | Popping PopStart => 8 | Popping PopNonEmpty => 7 | Popping (PopHead _) => 6 | Popping (PopTail _) => 5
  | Popping (PopTaken _) => 4 | Popping (PopCount _ _) => 3 | Popping (PopDone _) => 12
  end.

Lemma tty_process_nearer uninit t0 l shown r s tty : echoing t0 l shown (r, s, tty) ->
  (s = Testing /\ pending r = [] /\ tty_process uninit r s tty = (r, s, tty)) \/
  left_over (tty_process uninit r s tty) < left_over (r, s, tty).
Proof.
  intros [Hw Hs _ _]. simpl in Hw, Hs. pose proof (contents_length _ r Hw) as HL. unfold left_over. destruct s as [|p|c]; [| |right; simpl; lia].
  - simpl. unfold numElements. destruct (m_numElements r >? 0) eqn:E; [right; simpl; lia|]. left.
    split; [done|]. split; [|done]. destruct (pending r); [done|simpl in HL; lia].
  - right. destruct p as [|  |h|tl|y|y n|[y|]]; simpl in Hs; try done; try (simpl; lia); destruct Hs as (x & q & Hq & Hs); simpl.
    + unfold isEmpty. rewrite Hq in HL. simpl in HL. rewrite (proj2 (Z.eqb_neq _ 0)) by lia. lia.
    + destruct Hs as [-> ->]. destruct (drop_oldest _ size_ok r x q Hw Hq) as [_ ->]. rewrite Hq. simpl. lia.
Qed.

Lemma drained beyond uninit t0 l n : forall shown st, echoing t0 l shown st -> left_over st <= Z.of_nat n + 9 ->
  (trun beyond uninit (replicate n Run) st).2 = fold_left echo l t0.
Proof.
  induction n as [|n IH]; intros shown [[r s] tty] H Hn.
  - destruct (tty_process_nearer uninit t0 l shown r s tty H) as [(-> & Hp & _)|Hlt].
    + destruct H as [_ _ Ht Hl]. simpl in *. rewrite Hp, app_nil_r in Hl. by subst.
    + exfalso. destruct (tty_process_echoing uninit t0 l shown r s tty H) as (shown' & [Hw' _ _ _]).
      clear -Hn Hlt H. destruct H as [Hw Hs _ _]. simpl in Hw, Hs. unfold left_over in *.
      pose proof (contents_length _ r Hw) as HL.
      destruct s as [|p|c]; [|destruct p as [|  |h|tl|y|y n|[y|]]; simpl in *; try done; try lia; destruct Hs as (x & q & Hq & _); rewrite Hq in *; simpl in *; lia|simpl in *; lia].
      simpl in *. destruct (numElements r >? 0) eqn:E; simpl in *; [|lia]. unfold numElements in E. lia.
  - cbn [replicate trun fold_left]. fold (trun beyond uninit (replicate n Run)).
    destruct (tty_process_echoing uninit t0 l shown r s tty H) as (shown' & H').
    cbn [tstep]. destruct (tty_process_nearer uninit t0 l shown r s tty H) as [(-> & Hp & Et)|Hlt].
    + rewrite Et in H' |- *. apply (IH shown' _ H'). unfold left_over. simpl. rewrite Hp. simpl. lia.
    + apply (IH shown' _ H'). lia.
Qed.

(** ** Echoing is writing *)

(** Equal screens: everything but the registers of the CRT controller. *)
Definition same_screen (t1 t2 : TTY) : Prop :=
  m_color t1 = m_color t2 /\ m_row t1 = m_row t2 /\ m_column t1 = m_column t2 /\ forall i, m_buffer t1 i = m_buffer t2 i.

#[export] Instance same_screen_equiv : Equivalence same_screen.
Proof.
  split.
  - by intros t.
  - intros t1 t2 (H1 & H2 & H3 & H4). split_and!; auto.
  - intros t1 t2 t3 (H1 & H2 & H3 & H4) (K1 & K2 & K3 & K4). split_and!; congruence.
Qed.

Lemma set_cell_same i v t1 t2 : same_screen t1 t2 -> same_screen (set_cell i v t1) (set_cell i v t2).
Proof.
  intros (H1 & H2 & H3 & H4). split_and!; [exact H1|exact H2|exact H3|]. intros j. cbn [m_buffer set_cell].
  destruct (decide (i = j)) as [->|]; [by rewrite !fn_lookup_insert|by rewrite !fn_lookup_insert_ne].
Qed.
Lemma with_cursor_same r c t1 t2 : same_screen t1 t2 -> same_screen (with_cursor t1 r c) (with_cursor t2 r c).
Proof. intros (H1 & H2 & H3 & H4). split_and!; [exact H1|reflexivity|reflexivity|exact H4]. Qed.
Lemma clear_same t1 t2 : same_screen t1 t2 -> same_screen (clear t1) (clear t2).
Proof. intros (H1 & H2 & H3 & H4). split_and!; [exact H1|exact H2|exact H3|]. intros i. by rewrite !clear_cells, H1, H4. Qed.
Lemma writeCharAt_same c color x y t1 t2 : same_screen t1 t2 -> same_screen (writeCharAt c color x y t1) (writeCharAt c color x y t2).
Proof. intros H. unfold writeCharAt. case_if; auto using set_cell_same, with_cursor_same, clear_same. Qed.

#[export] Instance writeChar_same c : Proper (same_screen ==> same_screen) (writeChar c).
Proof.
  intros t1 t2 H. pose proof H as (H1 & H2 & H3 & _). unfold writeChar. rewrite H1, H2, H3.
  pose proof (writeCharAt_same (u8 c) (m_color t2) (m_column t2) (m_row t2) t1 t2 H) as Hw. pose proof Hw as (_ & W2 & W3 & _).
  rewrite W2, W3. repeat case_if; auto using set_cell_same, with_cursor_same.
Qed.

Lemma updateCursor_same x y t : same_screen (updateCursor x y t) t.
Proof. repeat split. Qed.

Lemma echo_write l : forall t1 t2, same_screen t1 t2 -> same_screen (fold_left echo l t1) (write_bytes l t2).
Proof.
  induction l as [|c l IH]; intros t1 t2 H; [done|]. apply IH. unfold echo. rewrite updateCursor_same. by rewrite H.
Qed.

(** The CRT controller's cursor is where the next character goes. *)
Definition cursor_shown (t : TTY) : Prop := cursor_pos t = getBufferIndex (m_column t) (m_row t).

Lemma echo_cursor l : forall t, tty_ok t -> cursor_shown t -> m_row t + Z.of_nat (length l) <= 818 ->
  cursor_shown (fold_left echo l t).
Proof.
  induction l as [|c l IH]; intros t Hok Hc Hr; [done|]. cbn [fold_left length] in *.
  destruct (writeChar_ok c t Hok) as (Hok1 & Hr1 & _); [unfold row_limit; lia|].
  apply IH; [exact Hok1| |unfold echo; simpl; lia].
  unfold cursor_shown, echo. rewrite updateCursor_pos; [done|].
  destruct Hok1 as (C1 & C2 & _). unfold getBufferIndex, VGA_WIDTH. lia.
Qed.

Lemma open_cursor t : tty_ok (open t) /\ cursor_shown (open t).
Proof. split; [unfold tty_ok; simpl; lia|]. unfold cursor_shown, open. rewrite updateCursor_pos; [done|]. unfold getBufferIndex. simpl. lia. Qed.

Lemma echoes_inside shown t0 : Z.of_nat (length shown) <= row_limit ->
  forall i, ~ (0 <= i <= 2000) -> m_buffer (fold_left echo shown (open t0)) i = m_buffer t0 i.
Proof.
  intros Hs i Hi. destruct (open_cursor t0) as [Hok _].
  destruct (echo_write shown (open t0) (open t0) ltac:(reflexivity)) as (_ & _ & _ & ->).
  destruct (write_bytes_ok shown (open t0) Hok) as [_ Hb]; [simpl; lia|]. rewrite Hb by exact Hi.
  unfold open. cbn [m_buffer updateCursor enableCursor vgaWrite vgaRead].
  change (m_buffer (clear (MkTTY (vga_entry_color VGA_COLOR_LIGHT_GREY VGA_COLOR_BLACK) 0 0 (m_buffer t0) (crtc_index t0) (crtc t0))) i = m_buffer t0 i).
  rewrite clear_cells. cbn [m_buffer]. zcases.
Qed.

Lemma left_over_bound t0 l shown st : echoing t0 l shown st -> left_over st <= 10 * Z.of_nat (length l) + 13.
Proof.
  intros [_ Hs _ Hl]. apply (f_equal length) in Hl. rewrite !length_app, length_fmap in Hl. unfold left_over.
  destruct st as [[r s] tty]. simpl in *. destruct s as [|[|  |h|tl|y|y n|[y|]]|c]; simpl in *; try done; lia.
Qed.

Lemma open_echoing junk t0 : echoing (open t0) [] [] (init junk, Testing, open t0).
Proof. split; [split; simpl; unfold KEYBOARD_RINGBUF_SIZE; lia|done|done|done]. Qed.

(** C25: what is typed appears.  After opening the console, let key interrupts and steps of the
    echoing task come in any order, a step being one access of the task to the ring buffer's
    members, with two restrictions on presses: none finds the 1024 places full, and none comes
    between the two members getTail reads or between the read and the write of the decrement in
    pop (the code does not lock them; [press_in_getTail] and [press_in_decrement] below are what happens).  Then
    what was typed (releases give nothing) is a text that has been echoed, followed by the
    character the task has in hand if any, followed by what is in the ring buffer; colours, cursor
    and cells of the screen are what writing that text in one piece makes of the opened console;
    no cell outside 0 .. 2000 was changed; while fewer than 819 characters were echoed the CRT
    controller shows the cursor at the place of the next character; and once the task has had
    ten more steps for each character typed, and four, all that was typed is on the screen. *)
Theorem typed_keys_shown (beyond junk : Z -> Z) (uninit : Z) (t0 : TTY) (es : list event) :
  undisturbed beyond uninit es (init junk, Testing, open t0) -> Z.of_nat (length (input beyond es)) <= row_limit ->
  (let '(r, s, tty) := trun beyond uninit es (init junk, Testing, open t0) in
   exists shown, shown ++ in_hand s ++ (u8 <$> pending r) = u8 <$> input beyond es /\
     same_screen tty (write_bytes shown (open t0)) /\
     (forall i, ~ (0 <= i <= 2000) -> m_buffer tty i = m_buffer t0 i) /\
     (Z.of_nat (length shown) <= 818 -> cursor_pos tty = m_row tty * 80 + m_column tty)) /\
  (forall n, 10 * Z.of_nat (length (input beyond es)) + 4 <= Z.of_nat n ->
     same_screen (trun beyond uninit (es ++ replicate n Run) (init junk, Testing, open t0)).2
       (write_bytes (u8 <$> input beyond es) (open t0))).
Proof.
  intros Hu Hn. destruct (trun_echoing beyond uninit (open t0) es [] [] _ (open_echoing junk t0) Hu) as (shown & H).
  destruct (open_cursor t0) as [Hok Hc]. split.
  - destruct (trun _ _ _ _) as [[r s] tty]. destruct H as [_ _ Ht Hl]. simpl in Ht, Hl. subst tty.
    assert (Z.of_nat (length shown) <= row_limit) as Hs.
    { apply (f_equal length) in Hl. rewrite length_app, length_fmap in Hl. lia. }
    pose proof (echo_write shown (open t0) (open t0) ltac:(reflexivity)) as Hw.
    exists shown. split; [exact Hl|]. split; [exact Hw|]. split; [by apply echoes_inside|].
    intros Hs818. apply (echo_cursor shown (open t0) Hok Hc). simpl. lia.
  - intros n Hn'. rewrite trun_app. rewrite (drained _ _ _ _ n shown _ H); [by apply echo_write|].
    pose proof (left_over_bound _ _ _ _ H) as Hb. simpl in Hb. rewrite length_fmap in Hb. lia.
Qed.

Definition ex_keys : list event :=
  [Irq 0x23; Run; Run; Irq 0xA3; Run; Run; Run; Irq 0x17; Run].

Lemma typed_keys_shown_witness :
  m_buffer (trun (fun _ => 0) 0 (ex_keys ++ replicate 24 Run) (init (fun _ => 0), Testing, open ex_tty)).2 0 = vga_entry (chr "h") 7 /\
  m_buffer (trun (fun _ => 0) 0 (ex_keys ++ replicate 24 Run) (init (fun _ => 0), Testing, open ex_tty)).2 1 = vga_entry (chr "i") 7.
Proof.
  destruct (typed_keys_shown (fun _ => 0) (fun _ => 0) 0 ex_tty ex_keys) as [_ H];
    [vm_compute; repeat split; (by left) || (by right) || done|vm_compute; discriminate|].
  destruct (H 24%nat ltac:(vm_compute; discriminate)) as (_ & _ & _ & Hb). split; rewrite Hb; vm_compute; reflexivity.
Defined.

(** ** A press inside pop *)

(** The screen's first cells after the keys h and i, the second pressed when the task has taken
    [k] steps with the first in the buffer. *)
Definition race (k : nat) : list Z :=
  let st := trun (fun _ => 0) 0 ([Irq 0x23] ++ replicate k Run ++ [Irq 0x17] ++ replicate 30 Run) (init (fun _ => chr "?"), Testing, open ex_tty) in
  (fun i => u8 (m_buffer st.2 i)) <$> [0; 1; 2].

(** Outside the windows both keys appear. *)
Example press_outside : race 1 = str "hi " /\ race 2 = str "hi " /\ race 4 = str "hi " /\ race 5 = str "hi " /\ race 7 = str "hi ".
Proof. vm_compute. done. Qed.
(** With the head read and the count not: the place before the oldest is read, in which no key was
    ever stored, and the first key is lost. *)
Example press_in_getTail : race 3 = str "?i ".
Proof. vm_compute. reflexivity. Qed.
(** With the count read and not yet written: the second key is lost. *)
Example press_in_decrement : race 6 = str "h  ".
Proof. vm_compute. reflexivity. Qed.

End Terminal.
