(* ===== verification/CxxAbi.v ===== *)
(** Kernel/Libk/CPP.h and CPP.cpp: the C++ runtime support, exit handlers, guards of local statics, and
    new and delete on the kernel heap.

    Functions are known by their addresses, 0 is the null pointer; a call of a destructor is an
    entry of a log.  Destructors that register or finalise again are outside the model. *)

From S2P Require Import Prelude Kmalloc.

Module CxxAbi.

Definition ATEXIT_MAX_FUNCS : Z := 128.

Record atexit_func_entry_t := MkEntry { destructor_func : Z; obj_ptr : Z; dso_handle : Z }.
Record Exit := MkExit { __atexit_funcs : Z -> atexit_func_entry_t; __atexit_func_count : Z }.

Definition __cxa_atexit (f objptr dso : Z) (s : Exit) : Exit * Z :=
  if __atexit_func_count s >=? ATEXIT_MAX_FUNCS then (s, -1)
  else (MkExit (<[__atexit_func_count s := MkEntry f objptr dso]> (__atexit_funcs s)) (u32 (__atexit_func_count s + 1)), 0).

(** A destructor call: the function and its argument. *)
Definition call_of (e : atexit_func_entry_t) : Z * Z := (destructor_func e, obj_ptr e).

(** The two loops [while (i--)], from the top of the table down. *)
Fixpoint finalize_all (i : nat) (s : Exit) : list (Z * Z) :=
  match i with
  | O => []
  | S i => let e := __atexit_funcs s (Z.of_nat i) in
           (if destructor_func e =? 0 then [] else [call_of e]) ++ finalize_all i s
  end.
Fixpoint finalize_one (i : nat) (f : Z) (s : Exit) : Exit * list (Z * Z) :=
  match i with
  | O => (s, [])
  | S i =>
      let e := __atexit_funcs s (Z.of_nat i) in
      if destructor_func e =? f
      then let '(s', l) := finalize_one i f
             (MkExit (<[Z.of_nat i := MkEntry 0 (obj_ptr e) (dso_handle e)]> (__atexit_funcs s)) (__atexit_func_count s)) in
           (s', call_of e :: l)
      else finalize_one i f s
  end.
Definition __cxa_finalize (f : Z) (s : Exit) : Exit * list (Z * Z) :=
  if f =? 0 then (s, finalize_all (Z.to_nat (__atexit_func_count s)) s)
  else finalize_one (Z.to_nat (__atexit_func_count s)) f s.

(** Guards of function-local statics: the first byte of the 64-bit guard. *)
Definition __cxa_guard_acquire (m : Mem) (g : Z) : Z := if loadb m g =? 0 then 1 else 0.
Definition __cxa_guard_release (m : Mem) (g : Z) : Mem := storeb m g 1.
Definition __cxa_guard_abort (m : Mem) (g : Z) : Mem := m.

(** operator new and delete. *)
Section New.
Context {S : Type} `{Kmalloc.KernelPages S}.
Definition operator_new (fuel : nat) (size : Z) (h : Kmalloc.Heap S) : option (Z * Kmalloc.Heap S) := Kmalloc.kmalloc fuel size h.
Definition operator_delete (fuel : nat) (p : Z) (h : Kmalloc.Heap S) : option (Kmalloc.Heap S) := Kmalloc.kfree fuel p h.
End New.

(** ** The table as a stack *)

(** The registered entries, oldest first. *)
Definition entries (s : Exit) : list atexit_func_entry_t :=
  (fun i => __atexit_funcs s (Z.of_nat i)) <$> seq 0 (Z.to_nat (__atexit_func_count s)).
Definition exit_ok (s : Exit) : Prop := 0 <= __atexit_func_count s <= ATEXIT_MAX_FUNCS.

Lemma entries_ext s s' n :
  (forall i, (i < n)%nat -> __atexit_funcs s' (Z.of_nat i) = __atexit_funcs s (Z.of_nat i)) ->
  ((fun i => __atexit_funcs s' (Z.of_nat i)) <$> seq 0 n) = ((fun i => __atexit_funcs s (Z.of_nat i)) <$> seq 0 n).
Proof. intros H. apply list_fmap_ext. intros i x Hx. apply H. apply lookup_seq in Hx as [-> Hi]. done. Qed.

Lemma atexit_spec f o d s : exit_ok s -> __atexit_func_count s < ATEXIT_MAX_FUNCS ->
  let '(s', r) := __cxa_atexit f o d s in
  r = 0 /\ exit_ok s' /\ entries s' = entries s ++ [MkEntry f o d].
Proof.
  intros Hok Hlt. unfold exit_ok, ATEXIT_MAX_FUNCS in *. unfold __cxa_atexit, ATEXIT_MAX_FUNCS. rewrite Z.geb_leb, (proj2 (Z.leb_gt _ _)) by lia.
  split; [done|]. unfold entries. cbn [__atexit_func_count __atexit_funcs]. rewrite u32_small by (unfold is_u32; lia). split; [lia|].
  rewrite Z2Nat.inj_add, Nat.add_1_r by lia. rewrite seq_S, fmap_app. cbn [fmap list_fmap]. f_equal.
  - etrans; [|apply (entries_ext s (__cxa_atexit f o d s).1)].
    { unfold __cxa_atexit, ATEXIT_MAX_FUNCS. rewrite Z.geb_leb, (proj2 (Z.leb_gt _ _)) by lia. done. }
    intros i Hi. unfold __cxa_atexit, ATEXIT_MAX_FUNCS.
    rewrite Z.geb_leb, (proj2 (Z.leb_gt _ _)) by lia. cbn [fst __atexit_funcs]. rewrite fn_lookup_insert_ne by lia. done.
  - rewrite Nat.add_0_l, Z2Nat.id by lia. by rewrite fn_lookup_insert.
Qed.

Lemma finalize_all_spec s n :
  finalize_all n s = reverse (call_of <$> filter (fun e => destructor_func e <> 0) ((fun i => __atexit_funcs s (Z.of_nat i)) <$> seq 0 n)).
Proof.
  induction n as [|n IH]; [done|]. rewrite seq_S, fmap_app, filter_app, fmap_app, reverse_app. cbn [finalize_all]. rewrite IH. f_equal.
  rewrite Nat.add_0_l. cbn [fmap list_fmap]. rewrite filter_cons, filter_nil. case_decide as Hd.
  - rewrite (proj2 (Z.eqb_neq _ _)) by done. done.
  - destruct (Z.eqb_spec (destructor_func (__atexit_funcs s (Z.of_nat n))) 0); [done|]. by destruct Hd.
Qed.

Lemma list_filter_fmap {A B} (P : B -> Prop) `{!forall x, Decision (P x)} (g : A -> B) (l : list A) :
  filter P (g <$> l) = g <$> filter (fun x => P (g x)) l.
Proof.
  induction l as [|x l IH]; [done|]. rewrite fmap_cons, !filter_cons, IH. by case_decide.
Qed.

Lemma filter_none {A} (P : A -> Prop) `{!forall x, Decision (P x)} (l : list A) :
  (forall x, x ∈ l -> ~ P x) -> filter P l = [].
Proof.
  induction l as [|x l IH]; intros Hl; [done|]. rewrite filter_cons_False by (apply Hl; left). apply IH. intros y Hy. apply Hl. by right.
Qed.

(** The table with the entries of [f] unset. *)
Definition unset (f : Z) (e : atexit_func_entry_t) : atexit_func_entry_t :=
  if destructor_func e =? f then MkEntry 0 (obj_ptr e) (dso_handle e) else e.

Lemma finalize_one_spec f n : forall s,
  let '(s', l) := finalize_one n f s in
  l = reverse (call_of <$> filter (fun e => destructor_func e = f) ((fun i => __atexit_funcs s (Z.of_nat i)) <$> seq 0 n)) /\
  __atexit_func_count s' = __atexit_func_count s /\
  forall i, __atexit_funcs s' i = if (0 <=? i) && (i <? Z.of_nat n) then unset f (__atexit_funcs s i) else __atexit_funcs s i.
Proof.
  induction n as [|n IH]; intros s.
  { cbn [finalize_one]. split_and!; try done. intros i. destruct (Z.leb_spec 0 i), (Z.ltb_spec i (Z.of_nat 0)); try done; lia. }
  rewrite seq_S, fmap_app, filter_app, fmap_app, reverse_app, Nat.add_0_l. cbn [fmap list_fmap]. rewrite filter_cons, filter_nil.
  cbn [finalize_one]. set (e := __atexit_funcs s (Z.of_nat n)). destruct (Z.eqb_spec (destructor_func e) f) as [He|He].
  - set (s1 := MkExit _ _). specialize (IH s1). destruct (finalize_one n f s1) as [s' l]. destruct IH as (-> & Hc & Hi).
    rewrite decide_True by done. split_and!; [|done|].
    + change (reverse (call_of <$> [e])) with [call_of e]. cbn [app]. do 4 f_equal. apply (entries_ext s s1). intros i Hin. cbn [__atexit_funcs s1]. rewrite fn_lookup_insert_ne by lia. done.
    + intros i. rewrite Hi. cbn [__atexit_funcs s1]. destruct (decide (i = Z.of_nat n)) as [->|Hne].
      * rewrite fn_lookup_insert. fold e. unfold unset. rewrite He, Z.eqb_refl. zcases.
      * rewrite fn_lookup_insert_ne by done. zcases.
  - specialize (IH s). destruct (finalize_one n f s) as [s' l]. destruct IH as (-> & Hc & Hi).
    rewrite decide_False by done. split_and!; [done|done|]. intros i. rewrite Hi.
    destruct (decide (i = Z.of_nat n)) as [->|Hne]; [|zcases]. fold e. unfold unset. rewrite (proj2 (Z.eqb_neq _ _)) by done. zcases.
Qed.

(** C28: exit handlers run last in, first out.  Registering up to 128 destructors all succeed;
    __cxa_finalize(NULL) then calls exactly the registered non-null ones, newest first, and leaves the
    table as it is, so that a second call runs them all again; __cxa_finalize(f) calls exactly the
    entries of [f], newest first, and unsets them, so that a second call of it runs none and a
    following __cxa_finalize(NULL) runs the others. *)
Theorem exit_handlers (s : Exit) (f : Z) : exit_ok s -> f <> 0 ->
  (forall g o d, __atexit_func_count s < ATEXIT_MAX_FUNCS ->
     (__cxa_atexit g o d s).2 = 0 /\ entries (__cxa_atexit g o d s).1 = entries s ++ [MkEntry g o d]) /\
  (forall g o d, __atexit_func_count s = ATEXIT_MAX_FUNCS -> __cxa_atexit g o d s = (s, -1)) /\
  __cxa_finalize 0 s = (s, reverse (call_of <$> filter (fun e => destructor_func e <> 0) (entries s))) /\
  let '(s1, l) := __cxa_finalize f s in
  l = reverse (call_of <$> filter (fun e => destructor_func e = f) (entries s)) /\
  entries s1 = unset f <$> entries s /\ (__cxa_finalize f s1).2 = [] /\
  (__cxa_finalize 0 s1).2 = reverse (call_of <$> filter (fun e => destructor_func e <> 0 /\ destructor_func e <> f) (entries s)).
Proof.
  intros Hok Hf. split_and!.
  - intros g o d Hlt. pose proof (atexit_spec g o d s Hok Hlt) as H. destruct (__cxa_atexit g o d s) as [s' r]. naive_solver.
  - intros g o d E. unfold __cxa_atexit. rewrite E. done.
  - unfold __cxa_finalize. cbn. f_equal. apply finalize_all_spec.
  - unfold __cxa_finalize at 1. rewrite (proj2 (Z.eqb_neq f 0)) by done. set (n := Z.to_nat (__atexit_func_count s)).
    pose proof (finalize_one_spec f n s) as H. destruct (finalize_one n f s) as [s1 l]. destruct H as (-> & Hc & Hi).
    assert (entries s1 = unset f <$> entries s) as He.
    { unfold entries. rewrite Hc, <- list_fmap_compose. apply list_fmap_ext. intros i x Hx. apply lookup_seq in Hx as [-> Hin]. simpl.
      rewrite Hi. zcases. }
    assert (forall e, destructor_func (unset f e) <> f) as Hun.
    { intros e. unfold unset. destruct (Z.eqb_spec (destructor_func e) f); simpl; congruence. }
    split_and!; [done|done| |].
    + unfold __cxa_finalize. rewrite (proj2 (Z.eqb_neq f 0)) by done. pose proof (finalize_one_spec f (Z.to_nat (__atexit_func_count s1)) s1) as H.
      destruct (finalize_one _ f s1) as [s2 l2]. destruct H as (-> & _). cbn [snd]. fold (entries s1). rewrite He.
      rewrite list_filter_fmap, filter_none; [done|]. intros e _. apply Hun.
    + unfold __cxa_finalize. rewrite Z.eqb_refl. cbn [snd]. rewrite finalize_all_spec. fold (entries s1). rewrite He. f_equal.
      rewrite list_filter_fmap, <- list_fmap_compose.
      rewrite (filter_ext_in _ (fun e => destructor_func e <> 0 /\ destructor_func e <> f)).
      * apply list_fmap_ext. intros i e Hx. apply list_elem_of_lookup_2, list_elem_of_filter in Hx as [[_ Hne] _].
        simpl. unfold compose, unset. rewrite (proj2 (Z.eqb_neq _ _)) by done. done.
      * intros e _. unfold compose, unset. destruct (Z.eqb_spec (destructor_func e) f); simpl; tauto.
Qed.

Lemma exit_handlers_witness :
  let s := MkExit (fun i => if i =? 1 then MkEntry 8 200 0 else MkEntry 4 (100 + i) 0) 3 in
  __cxa_finalize 0 s = (s, [(4, 102); (8, 200); (4, 100)]).
Proof.
  intros s. destruct (exit_handlers s 4) as (_ & _ & H & _); [unfold exit_ok; simpl; unfold ATEXIT_MAX_FUNCS; lia|lia|]. rewrite H. reflexivity.
Defined.

(** A guarded initialiser runs until it is released, and never again. *)
Lemma guard_runs_once m g : loadb m g = 0 ->
  __cxa_guard_acquire m g = 1 /\ __cxa_guard_acquire (__cxa_guard_abort m g) g = 1 /\ __cxa_guard_acquire (__cxa_guard_release m g) g = 0.
Proof.
  intros H. unfold __cxa_guard_acquire, __cxa_guard_abort, __cxa_guard_release. rewrite H, loadb_storeb_eq by done. done.
Qed.

End CxxAbi.
