(* ===== verification/Tasks.v ===== *)
(** Scheduler::createTask of Kernel/Scheduler.cpp, Kernel/Elf.h and Elf.cpp, and Multiboot::loadModules:
    making tasks out of the heap, the memory manager and the scheduler.

    The kernel is the scheduler together with the heap, whose page services carry the machine
    (frames, page tables, memory).  A pointer that the code dereferences without a test is a
    failure ([None]) when it is null. *)

From S2P Require Import Prelude PhysicalAllocator VirtualMemory MemoryManager Scheduler.
From S2P Require Import Kmalloc KmallocHeap KmallocSpec KmallocClient KernelHeap Boot.

Module Tasks.
Import PhysicalAllocator VirtualMemory MemoryManager KmallocHeap KmallocSpec KmallocClient KernelHeap.

Record Kernel := MkKernel { sched : Scheduler.Sched; heap : Kmalloc.Heap (Z * MM) }.
Definition machine (k : Kernel) : MM := (Kmalloc.pages (heap k)).2.
Definition with_machine (h : Kmalloc.Heap (Z * MM)) (s : MM) : Kmalloc.Heap (Z * MM) :=
  Kmalloc.with_pages h ((Kmalloc.pages h).1, s).

(** sizeof(Task) on i686, and TASK_STACK_SIZE. *)
Definition TASK_SIZE : Z := 92.
Definition TASK_STACK_SIZE : Z := 0x1000.

(** A word stored and read through a page directory. *)
Definition store_word (s : MM) (pd v x : Z) : MM := with_mem s (store32 (mem s) (GetPhysicalAddress s pd v) x).
Definition load_word (s : MM) (pd v : Z) : Z := load32 (mem s) (GetPhysicalAddress s pd v).

(** createTask(isUser, arg).  [old] is what stands in the memory kmalloc returns: the name, the
    wake-up time, the state and two registers are left as they are.  The stack comes from the
    running task's directory, memoryAllocate's default. *)
Definition createTask (fuel : nat) (lay : Layout) (mainTask : Z) (old : Scheduler.Task) (isUser : bool) (arg : Z) (k : Kernel)
  : option (Z * Kernel) :=
  '(task, h) ← Kmalloc.kmalloc fuel TASK_SIZE (heap k);
  if task =? 0 then None
  else
    main ← Scheduler.tasks (sched k) !! mainTask;
    run ← Scheduler.getRunningTask (sched k);
    let current := Scheduler.cr3 (Scheduler.regs run) in
    let s := (Kmalloc.pages h).2 in
    '(directory, s) ← (if isUser then createUserPageDirectory fuel lay s current else Some (kernelPageDirectory lay, s));
    '(stack, s) ← memoryAllocate fuel s current TASK_STACK_SIZE false;
    let esp := u32 (u32 (stack + TASK_STACK_SIZE) - 4) in
    let s := store_word s current esp arg in
    let r := Scheduler.Regs 0 0 0 0 0 0 esp (Scheduler.ebp (Scheduler.regs old)) (Scheduler.eip (Scheduler.regs old))
               (Scheduler.eflags (Scheduler.regs main)) directory in
    let t := Scheduler.MkTask r 0 (Scheduler.name old) (Scheduler.wakeupTime old) (Scheduler.state old) in
    Some (task, MkKernel (Scheduler.with_tasks (sched k) (<[task := t]> (Scheduler.tasks (sched k)))) (with_machine h s)).

(** ** ELF files *)

Definition ELFMAG0 : Z := 0x7F.
Definition ELFCLASS32 : Z := 1.
Definition ELFDATA2LSB : Z := 1.
Definition EM_386 : Z := 3.
Definition EV_CURRENT : Z := 1.
Definition ET_REL : Z := 1.
Definition ET_EXEC : Z := 2.

Record ElfHeader := MkElf {
  m_ident : Z -> Z; m_type : Z; m_machine : Z; m_entry : Z; m_phoff : Z; m_phentsize : Z; m_phnum : Z
}.
Definition read_header (m : Mem) (a : Z) : ElfHeader :=
  MkElf (fun i => loadb m (a + i)) (load16 m (a + 16)) (load16 m (a + 18)) (load32 m (a + 24)) (load32 m (a + 28))
    (load16 m (a + 42)) (load16 m (a + 44)).

(** As Elf.h declares it: the sizes are 16 bits wide. *)
Record ElfProgramHeader := MkPh { p_type : Z; m_offset : Z; m_vaddr : Z; m_filesz : Z }.
Definition read_program_header (m : Mem) (a : Z) : ElfProgramHeader :=
  MkPh (load32 m a) (load32 m (a + 4)) (load32 m (a + 8)) (load16 m (a + 16)).

Definition verifyElfHeader (m : Mem) (header : Z) : bool * list LogEntry :=
  let h := read_header m header in
  if header =? 0 then (false, [])
  else if negb (m_ident h 0 =? ELFMAG0) then (false, [Printk (lf "ELF Header EI_MAG0 incorrect.") []])
  else if negb (m_ident h 1 =? chr "E") then (false, [Printk (lf "ELF Header EI_MAG1 incorrect.") []])
  else if negb (m_ident h 2 =? chr "L") then (false, [Printk (lf "ELF Header EI_MAG2 incorrect.") []])
  else if negb (m_ident h 3 =? chr "F") then (false, [Printk (lf "ELF Header EI_MAG3 incorrect.") []])
  else if negb (m_ident h 4 =? ELFCLASS32) then (false, [Printk (lf "Unsupported ELF File Class.") []])
  else if negb (m_ident h 5 =? ELFDATA2LSB) then (false, [Printk (lf "Unsupported ELF File byte order.") []])
  else if negb (m_machine h =? EM_386) then (false, [Printk (lf "Unsupported ELF File target.") []])
  else if negb (m_ident h 6 =? EV_CURRENT) then (false, [Printk (lf "Unsupported ELF File version.") []])
  else if negb (m_type h =? ET_REL) && negb (m_type h =? ET_EXEC) then (false, [Printk (lf "Unsupported ELF File type.") []])
  else (true, []).

(** Libk::memcpy through a page directory. *)
Fixpoint virtual_copy (n : nat) (s : MM) (pd dst src : Z) : MM :=
  match n with
  | O => s
  | S n =>
      virtual_copy n
        (with_mem s (storeb (mem s) (GetPhysicalAddress s pd dst) (loadb (mem s) (GetPhysicalAddress s pd src))))
        pd (u32 (dst + 1)) (u32 (src + 1))
  end.

(** The file and its headers stand at [elfData], mapped to itself (loadModules has seen to it), so
    they are read at their own addresses; the segments are written through the directory.

    One program header: the address is rounded down to a page and written back, pages are mapped
    for the file size, and the contents copied; the kernel's own directory is active. *)
Definition load_segment (fuel : nat) (directory elfData ph : Z) (s : MM) : option MM :=
  let v := m_vaddr (read_program_header (mem s) ph) in
  let s := with_mem s (store32 (mem s) (u32 (ph + 8)) (v - v mod PAGE_SIZE)) in
  let p := read_program_header (mem s) ph in
  s ← memoryMap fuel s directory (m_vaddr p) (m_filesz p) false;
  let p := read_program_header (mem s) ph in
  Some (virtual_copy (Z.to_nat (m_filesz p)) s directory (m_vaddr p) (u32 (elfData + m_offset p))).
(** The loop over the program headers, which reads the header's count again before each round, for
    at most [n] rounds. *)
Fixpoint load_segments (fuel n : nat) (sec : Z) (directory elfData : Z) (s : MM) : option MM :=
  let h := read_header (mem s) elfData in
  if sec <? m_phnum h then
    match n with
    | O => None
    | S n =>
        s ← load_segment fuel directory elfData (u32 (u32 (elfData + m_phoff h) + m_phentsize h * sec)) s;
        load_segments fuel n (sec + 1) directory elfData s
    end
  else Some s.

Definition add_log (k : Kernel) (l : list LogEntry) : Kernel :=
  MkKernel (sched k) (with_machine (heap k) (with_log (machine k) l)).

Definition load (fuel : nat) (lay : Layout) (mainTask : Z) (old : Scheduler.Task) (elfData length : Z) (k : Kernel)
  : option (bool * Kernel) :=
  let '(ok, msgs) := verifyElfHeader (mem (machine k)) elfData in
  let k := add_log k msgs in
  if ok then
    '(task, k) ← createTask fuel lay mainTask old false 0 k;
    t ← Scheduler.tasks (sched k) !! task;
    s ← load_segments fuel fuel 0 (Scheduler.cr3 (Scheduler.regs t)) elfData (machine k);
    match Scheduler.taskStart mainTask (sched k) task (m_entry (read_header (mem s) elfData)) with
    | Scheduler.Ret sc => Some (true, MkKernel sc (with_machine (heap k) s))
    | _ => None
    end
  else Some (false, k).

(** Multiboot::loadModules, with the rounds left; [old] is what stands in
    the memory of the task made in each round. *)
Fixpoint loadModules_loop (fuel n : nat) (lay : Layout) (mainTask : Z) (old : nat -> Scheduler.Task) (module : Z) (k : Kernel) : option Kernel :=
  match n with
  | O => Some k
  | S n =>
      let md := Boot.read_module (mem (machine k)) module in
      let size := u32 (Boot.modEnd md - Boot.modStart md) in
      match identityMap fuel (machine k) (kernelPageDirectory lay) (Boot.modStart md) size with
      | None => None
      | Some s =>
          '(_, k) ← load fuel lay mainTask (old n) (Boot.modStart md) size (MkKernel (sched k) (with_machine (heap k) s));
          loadModules_loop fuel n lay mainTask old (u32 (module + Boot.MODULE_SIZE)) k
      end
  end.
Definition loadModules (fuel : nat) (lay : Layout) (mainTask : Z) (old : nat -> Scheduler.Task) (info : Boot.MultibootInfo) (k : Kernel) : option Kernel :=
  if Boot.modsCount info >? 0
  then loadModules_loop fuel (Z.to_nat (Boot.modsCount info)) lay mainTask old (Boot.modsAddress info)
         (add_log k [Printk (crlf "Loading %d modules") [Boot.modsCount info]])
  else Some k.


(** ** A word stored into a fresh page *)

Lemma storeb_same s pd a b :
  wf_dir s pd -> is_u32 a -> not_paging s pd a ->
  let s' := with_mem s (storeb (mem s) a b) in
  same_dir s s' pd /\ (forall v, is_u32 v -> translate s' pd v = translate s pd v) /\
  wf_dir s' pd /\ (forall x, not_paging s pd x -> not_paging s' pd x).
Proof.
  intros Hw Ha Hn s'. destruct (storeb_outside s pd a b Hw Ha Hn) as (Hsd & Htr & _). fold s' in Hsd, Htr.
  split; [done|]. split; [done|]. split; [by eapply wf_dir_same|]. intros x [Hx1 Hx2]. split; [done|].
  intros i Hi. rewrite (has_table_same s s') in Hi by done. rewrite (table_same s s') by (done || apply Hi). auto.
Qed.

Lemma store32_same s pd a b :
  wf_dir s pd -> 0 <= a -> a mod 4096 <= 4092 -> a + 4 <= 4294967296 -> not_paging s pd a ->
  let s' := with_mem s (store32 (mem s) a b) in
  same_dir s s' pd /\ forall v, is_u32 v -> translate s' pd v = translate s pd v.
Proof.
  intros Hw Ha Hm Hr Hn s'.
  assert (forall s0 j, 0 <= j < 4 -> not_paging s0 pd a -> not_paging s0 pd (a + j)) as Hnext.
  { intros s0 j Hj [H1 H2]. assert ((a + j) / 4096 = a / 4096) as E by zlia. split; rewrite E; done. }
  destruct (storeb_same s pd a b Hw ltac:(unfold is_u32; lia) Hn) as (D1 & T1 & W1 & N1).
  set (s1 := with_mem s (storeb (mem s) a b)) in *.
  destruct (storeb_same s1 pd (a + 1) (b / 256) W1 ltac:(unfold is_u32; lia) ltac:(apply Hnext; auto; lia)) as (D2 & T2 & W2 & N2).
  set (s2 := with_mem s1 (storeb (mem s1) (a + 1) (b / 256))) in *.
  destruct (storeb_same s2 pd (a + 2) (b / 65536) W2 ltac:(unfold is_u32; lia) ltac:(apply Hnext; auto; lia)) as (D3 & T3 & W3 & N3).
  set (s3 := with_mem s2 (storeb (mem s2) (a + 2) (b / 65536))) in *.
  destruct (storeb_same s3 pd (a + 3) (b / 16777216) W3 ltac:(unfold is_u32; lia) ltac:(apply Hnext; auto; lia)) as (D4 & T4 & _ & _).
  split.
  - intros i Hi. unfold s'. etransitivity; [apply (D4 i Hi)|]. by rewrite D3, D2, D1.
  - intros v Hv. unfold s'. etransitivity; [apply (T4 v Hv)|]. by rewrite T3, T2, T1.
Qed.

(** ** createTask *)

Lemma heap_machine h B pd s' :
  carries (S := Z * MM) h B -> (Kmalloc.pages h).1 = pd -> kernel_inv s' pd -> backed s' pd ->
  (forall a n, holds (Kmalloc.pages h).2 pd a n -> holds s' pd a n) ->
  carries (S := Z * MM) (with_machine h s') B.
Proof.
  intros (R & fl & Hi & HB) <- Hk Hb Ho. exists R, fl. split; [|done].
  pose proof (inv_0 _ _ _ Hi) as H0. destruct Hi as [_ ? ? ? ? ?].
  split; try done. unfold with_machine.
  apply (inv0_pages h R fl ((Kmalloc.pages h).1, s') H0) with (m := Kmalloc.payload h); [done|].
  intros r Hr. apply Ho. exact (i_owns _ _ _ H0 r Hr).
Qed.

Lemma carries_machine h B : carries (S := Z * MM) h B ->
  kernel_inv (Kmalloc.pages h).2 (Kmalloc.pages h).1 /\ backed (Kmalloc.pages h).2 (Kmalloc.pages h).1.
Proof. intros (R & fl & Hi & _). exact (i_pages _ _ _ (inv_0 _ _ _ Hi)). Qed.


(** A fresh page at [a]: nothing was mapped there, its frame was free, and every other address
    translates as it did. *)
Definition fresh_stack (s s' : MM) (pd a : Z) : Prop :=
  1048576 <= a /\ a mod 4096 = 0 /\ a + TASK_STACK_SIZE <= 1073741824 /\
  exists q, 0 < q /\ q mod 4096 = 0 /\ used (phys s) (q / 4096) = false /\ used (phys s') (q / 4096) = true /\
    forall v, is_u32 v ->
      if (a <=? v) && (v <? a + TASK_STACK_SIZE) then translate s pd v = None /\ translate s' pd v = Some (q + (v - a))
      else translate s' pd v = translate s pd v.

Lemma in_one_page a v : a mod 4096 = 0 -> in_pages a 1 v = (a <=? v) && (v <? a + 4096).
Proof. intros Ha. unfold in_pages. apply eq_true_iff_eq. rewrite !andb_true_iff, !Z.leb_le, !Z.ltb_lt. split; intros [? ?]; split; zlia. Qed.

Lemma allocated_fresh s s' pd a :
  wf_dir s pd -> allocated s s' pd a 1 -> fresh_stack s s' pd a.
Proof.
  intros Hw (p & P1 & P2 & P3 & A1 & A2 & A3 & Hrun & Hfree & Hused & Htr & _). unfold fresh_stack, TASK_STACK_SIZE.
  change 0x1000 with 4096. split; [done|]. split; [done|]. split; [lia|]. exists p. split; [done|]. split; [done|].
  split; [apply Hfree; lia|]. split; [rewrite Hused, Z.leb_refl, (proj2 (Z.ltb_lt _ _)) by lia; done|].
  intros v Hv. rewrite <- in_one_page, Htr by done. destruct (in_pages a 1 v) eqn:E; [|done]. split.
  - apply (run_free_translate s pd a 1); done || lia.
  - f_equal. rewrite in_one_page, andb_true_iff, Z.leb_le, Z.ltb_lt in E by done. unfold mapped_to. clear -E P2 A2. zlia.
Qed.

(** The stack of a new task: one fresh page with the argument in its last word. *)
Lemma task_stack fuel h B pd arg :
  carries (S := Z * MM) h B -> (Kmalloc.pages h).1 = pd -> KERNEL_FUEL <= Z.of_nat fuel -> is_u32 arg ->
  exists a s', memoryAllocate fuel (Kmalloc.pages h).2 pd TASK_STACK_SIZE false = Some (a, s') /\
    (a <> 0 -> 1048576 <= a <= 1073737728 /\ fresh_stack (Kmalloc.pages h).2 (store_word s' pd (a + 4092) arg) pd a /\
       carries (S := Z * MM) (with_machine h (store_word s' pd (a + 4092) arg)) B /\
       load_word (store_word s' pd (a + 4092) arg) pd (a + 4092) = arg).
Proof.
  intros Hc <- Hf Harg. destruct (carries_machine h B Hc) as [Hk Hb].
  destruct (memoryAllocate_kernel_spec fuel (Kmalloc.pages h).2 (Kmalloc.pages h).1 TASK_STACK_SIZE Hk Hf ltac:(unfold TASK_STACK_SIZE; lia))
    as (a & s' & -> & Hk' & Hsd & Hr). exists a, s'. split; [done|]. intros Ha.
  destruct Hr as [(_ & _ & Hal)|(-> & _)]; [|done]. change ((TASK_STACK_SIZE + 4095) / 4096) with 1 in Hal.
  destruct (allocated_holds _ _ _ _ _ Hk Hb Hsd Hal ltac:(lia)) as [Hh Hb'].
  set (pd := (Kmalloc.pages h).1) in *. pose proof Hh as (p & P1 & P2 & P3 & A1 & A2 & _ & _ & A3 & Htr & Hpg & _).
  change (1 * 4096) with 4096 in *. change (4096 / 4096) with 1 in *.
  destruct (in_pages_byte a 1 4092 A2 ltac:(lia)) as [Hin Hmap]. specialize (Hmap p P2).
  assert (is_u32 (a + 4092)) as Hu by (unfold is_u32; lia).
  pose proof (Htr _ Hu Hin) as Ht. rewrite Hmap in Ht. pose proof (translate_GetPhysicalAddress _ _ _ _ Ht) as Hg.
  destruct (store32_same s' pd (p + 4092) arg) as [Hsd' Htr']; [apply Hk'|lia|zlia|lia| |].
  { assert ((p + 4092) / 4096 = p / 4096) as Ep by zlia. destruct (Hpg (p / 4096) ltac:(lia)) as (_ & N1 & N2).
    pose proof (dir_aligned _ _ (proj1 (inv_dir _ _ Hk'))) as Hda. split; rewrite Ep; [clear -N1 Hda; zlia|].
    intros i Hi E. apply (N2 i Hi). pose proof (proj2 (table_range s' pd i)) as Hta. clear -E Hta. zlia. }
  assert (store_word s' pd (a + 4092) arg = with_mem s' (store32 (mem s') (p + 4092) arg)) as ->
    by (unfold store_word; by rewrite Hg).
  set (s2 := with_mem s' (store32 (mem s') (p + 4092) arg)) in *. split; [lia|]. split; [|split].
  - destruct (allocated_fresh _ _ _ _ (proj1 (inv_dir _ _ Hk)) Hal) as (F1 & F2 & F3 & f & F4 & F5 & F6 & F7 & F8).
    split; [done|]. split; [done|]. split; [done|]. exists f. do 4 (split; [done|]). intros v Hv. rewrite Htr' by done. by apply F8.
  - eapply heap_machine; [done|done| | |].
    + eapply kernel_inv_mono; [exact Hk'|done|]. by intros q Hq.
    + intros v x Hv. rewrite Htr' by done. by apply Hb'.
    + intros b n Hbn. eapply holds_same; [exact Hsd'|exact Htr'|].
      exact (proj1 (allocated_keeps _ _ _ _ _ _ _ Hk Hb Hsd Hal ltac:(lia) Hbn)).
  - unfold load_word. rewrite (translate_GetPhysicalAddress s2 pd (a + 4092) (p + 4092)) by (by rewrite Htr').
    by apply load32_store32_eq.
Qed.

Lemma kmalloc_directory n sz (h : Kmalloc.Heap (Z * MM)) p h' :
  0 <= sz <= 1073741824 -> Kmalloc.kmalloc n sz h = Some (p, h') -> (Kmalloc.pages h').1 = (Kmalloc.pages h).1.
Proof.
  intros Hsz [->|(a & E)]%kmalloc_pages; [done| |done]. destruct (Kmalloc.pages h) as [pd s]. simpl in *.
  apply bind_Some in E as ([a' s'] & _ & E). by injection E as _ <-.
Qed.

(** A started task, switched to, runs from its entry point on its own stack and page directory. *)
Lemma start_switch mainTask ts p t entry sc q tq :
  Scheduler.tasks ts !! p = Some t -> Scheduler.taskStart mainTask ts p entry = Scheduler.Ret sc ->
  Scheduler.tasks sc !! q = Some tq -> q <> p ->
  exists sc', Scheduler.switchTask sc q p = Scheduler.Ret sc' /\ Scheduler.eip (Scheduler.cpu sc') = entry /\
    Scheduler.cr3 (Scheduler.cpu sc') = Scheduler.cr3 (Scheduler.regs t) /\
    Scheduler.esp (Scheduler.cpu sc') = u32 (Scheduler.esp (Scheduler.regs t) - 4).
Proof.
  intros Ht Hs Hq Hne. unfold Scheduler.taskStart in Hs. rewrite Ht in Hs.
  repeat case_match; simplify_eq. unfold Scheduler.switchTask. rewrite Hq.
  cbn [Scheduler.tasks Scheduler.with_tasks Scheduler.with_tail] in *. rewrite lookup_insert_ne, lookup_insert_eq by done.
  eexists. split; [done|]. cbn.
  assert (Scheduler.regs t1 = Scheduler.Regs (Scheduler.eax (Scheduler.regs t)) (Scheduler.ebx (Scheduler.regs t))
    (Scheduler.ecx (Scheduler.regs t)) (Scheduler.edx (Scheduler.regs t)) (Scheduler.esi (Scheduler.regs t))
    (Scheduler.edi (Scheduler.regs t)) (Scheduler.esp (Scheduler.regs t)) (Scheduler.ebp (Scheduler.regs t)) entry
    (Scheduler.eflags (Scheduler.regs t)) (Scheduler.cr3 (Scheduler.regs t))) as ->; [|done].
  destruct (decide (Scheduler.m_taskTail ts = p)) as [Ep|Hp].
  - rewrite Ep, lookup_insert_eq in H0. rewrite Ep, lookup_insert_eq in H. by simplify_eq.
  - rewrite lookup_insert_ne, lookup_insert_eq in H0 by done. by simplify_eq.
Qed.

(** createTask when the heap has room: the stack is allocated, and if there is one, the task's
    registers and the argument on the stack are in place beside all the old blocks. *)
Lemma createTask_made fuel lay mainTask old run main arg k p h' B :
  let pd := kernelPageDirectory lay in
  Kmalloc.kmalloc fuel TASK_SIZE (heap k) = Some (p, h') -> p <> 0 ->
  carries (S := Z * MM) h' B -> (Kmalloc.pages h').1 = pd ->
  Scheduler.getRunningTask (sched k) = Some run -> Scheduler.cr3 (Scheduler.regs run) = pd ->
  Scheduler.tasks (sched k) !! mainTask = Some main -> is_u32 arg -> KERNEL_FUEL <= Z.of_nat fuel ->
  exists a s', memoryAllocate fuel (Kmalloc.pages h').2 pd TASK_STACK_SIZE false = Some (a, s') /\
  exists t k', createTask fuel lay mainTask old false arg k = Some (p, k') /\
    sched k' = Scheduler.with_tasks (sched k) (<[p := t]> (Scheduler.tasks (sched k))) /\
    Scheduler.cr3 (Scheduler.regs t) = pd /\
    Scheduler.esp (Scheduler.regs t) = u32 (u32 (a + TASK_STACK_SIZE) - 4) /\
    (a <> 0 -> Scheduler.esp (Scheduler.regs t) = a + 4092 /\ 1048576 <= a <= 1073737728 /\
       machine k' = store_word s' pd (a + 4092) arg /\ fresh_stack (Kmalloc.pages h').2 (machine k') pd a /\ carries (S := Z * MM) (heap k') B /\
       load_word (machine k') pd (a + 4092) = arg).
Proof.
  intros pd E Hp Hc Hpd Hrun Hcr Hmain Harg Hkf.
  destruct (task_stack fuel h' B pd arg Hc Hpd Hkf Harg) as (a & s' & Es & Hgood). exists a, s'. split; [exact Es|].
  unfold createTask. rewrite E. cbn [mbind option_bind]. rewrite (proj2 (Z.eqb_neq p 0)), Hmain, Hrun by done.
  cbn [mbind option_bind]. rewrite Hcr, Es. cbn [mbind option_bind].
  do 2 eexists. split; [reflexivity|]. split; [done|]. split; [done|]. split; [done|]. intros Ha.
  destruct (Hgood Ha) as (Har & Haa & Hcar & Hload). cbn [sched heap Scheduler.regs Scheduler.esp machine].
  assert (u32 (u32 (a + TASK_STACK_SIZE) - 4) = a + 4092) as ->.
  { unfold TASK_STACK_SIZE. rewrite !u32_small by (unfold is_u32 in *; lia || (rewrite u32_small; unfold is_u32; lia)). lia. }
  split; [done|]. split; [done|]. split; [done|]. split; [exact Haa|]. split; [exact Hcar|exact Hload].
Qed.

(** ** ELF headers *)

Lemma bytes_7 m a : bytes m a 7 =
  [loadb m a; loadb m (a + 1); loadb m (a + 2); loadb m (a + 3); loadb m (a + 4); loadb m (a + 5); loadb m (a + 6)].
Proof. cbn [bytes]. rewrite <- !Z.add_assoc. reflexivity. Qed.

Lemma reject_iff (x y : Z) l (r : bool * list LogEntry) : (if negb (x =? y) then (false, l) else r).1 = true <-> x = y /\ r.1 = true.
Proof. destruct (Z.eqb_spec x y); simpl; naive_solver. Qed.
Lemma accept_iff (x y z : Z) (l : list LogEntry) :
  (if negb (x =? y) && negb (x =? z) then (false, l) else (true, [])).1 = true <-> x = y \/ x = z.
Proof. destruct (Z.eqb_spec x y), (Z.eqb_spec x z); simpl; naive_solver. Qed.

(** C24: what the loader accepts.  A header is accepted exactly when it is not null and carries the
    magic number, the 32-bit class, little-endian data, version 1, the i386 machine and the type of
    a relocatable or executable file; every rejection of a header that is there is reported by one
    message, an accepted one by none; and a rejected file leaves the kernel as it was, the messages
    apart. *)
Theorem elf_header_accepted (m : Mem) (header : Z) :
  header <> 0 ->
  ((verifyElfHeader m header).1 = true <->
     bytes m header 7 = [0x7F; 0x45; 0x4C; 0x46; 1; 1; 1] /\
     load16 m (header + 18) = 3 /\ (load16 m (header + 16) = 1 \/ load16 m (header + 16) = 2)) /\
  length (verifyElfHeader m header).2 = (if (verifyElfHeader m header).1 then 0%nat else 1%nat) /\
  forall fuel lay mainTask old length k, mem (machine k) = m -> (verifyElfHeader m header).1 = false ->
    load fuel lay mainTask old header length k = Some (false, add_log k (verifyElfHeader m header).2).
Proof.
  intros Hh. split; [|split].
  - unfold verifyElfHeader, read_header, ELFMAG0, ELFCLASS32, ELFDATA2LSB, EM_386, EV_CURRENT, ET_REL, ET_EXEC.
    cbn [m_ident m_machine m_type]. rewrite (proj2 (Z.eqb_neq _ _)) by done.
    rewrite !reject_iff, accept_iff. change (chr "E") with 0x45. change (chr "L") with 0x4C. change (chr "F") with 0x46.
    rewrite bytes_7, Z.add_0_r.
    split; [intros (?&?&?&?&?&?&?&?&?)|intros ([= ? ? ? ? ? ? ?] & ? & ?)]; repeat split; try congruence; try done.
  - unfold verifyElfHeader. cbv zeta. rewrite (proj2 (Z.eqb_neq _ _)) by done. by repeat case_if.
  - intros fuel lay mainTask old n k <- Hv. unfold load. destruct (verifyElfHeader _ _) as [ok msgs]. simpl in Hv. by subst ok.
Qed.

(** ** Witnesses *)

Definition ex_elf : Mem := fun a =>
  nth (Z.to_nat (a - 4096)) [0x7F; 0x45; 0x4C; 0x46; 1; 1; 1; 0; 0; 0; 0; 0; 0; 0; 0; 0; 2; 0; 3; 0] 0.

Lemma elf_header_accepted_witness : (verifyElfHeader ex_elf 4096).1 = true.
Proof. apply (elf_header_accepted ex_elf 4096); [lia|]. split; [vm_compute; done|]. split; [vm_compute; done|]. right. vm_compute. done. Defined.

Definition ex_task : Scheduler.Task :=
  Scheduler.MkTask (Scheduler.Regs 0 0 0 0 0 0 0 0 0 0x202 ex_pd) 4096 "main" 0 Scheduler.Running.
Definition ex_kernel : Kernel :=
  MkKernel (Scheduler.MkSched {[4096 := ex_task]} 4096 4096 0 true (Scheduler.regs ex_task) 0 []) (boot (ex_pd, ex_mm)).

End Tasks.
