(* ===== verification/AddressSpace.v ===== *)
(** Address spaces that only grow (Kernel/MemoryManager/MemoryManager.cpp): the order in which
    one state of the machine follows another when pages are added to the kernel's directory, what
    the page allocator and memoryMap add, and contents that stay in place as long as that is all
    that happens. *)

From S2P Require Import Prelude PhysicalAllocator VirtualMemory MemoryManager.

Module AddressSpace.
Import PhysicalAllocator VirtualMemory MemoryManager.

(** ** Growth *)

(** From [s] to [s'] nothing is taken away: the directory's entries, the frames in use, the
    translations, and the bytes of the frames in use that hold no paging structure. *)
Record grows (pd : Z) (s s' : MM) : Prop := {
  grows_dir : same_dir s s' pd;
  grows_used : forall q, used (phys s) q = true -> used (phys s') q = true;
  grows_translate : forall v x, is_u32 v -> translate s pd v = Some x -> translate s' pd v = Some x;
  grows_bytes : forall x, is_u32 x -> not_paging s pd x -> used (phys s) (x / 4096) = true ->
    loadb (mem s') x = loadb (mem s) x
}.

Lemma not_paging_same s s' pd x : same_dir s s' pd -> not_paging s pd x -> not_paging s' pd x.
Proof.
  intros Hsd [N1 N2]. split; [done|]. intros i Hi. rewrite (has_table_same s s') in Hi by done.
  rewrite (table_same s s') by (done || apply Hi). auto.
Qed.

#[export] Instance grows_preorder pd : PreOrder (grows pd).
Proof.
  split.
  - intros s. by split.
  - intros s1 s2 s3 [D1 U1 T1 B1] [D2 U2 T2 B2]. split; auto.
    + intros i Hi. by rewrite D2, D1.
    + intros x Hx Hn Hu. rewrite B2; auto. by eapply not_paging_same.
Qed.

Lemma grows_inv pd s s' : kernel_inv s pd -> grows pd s s' -> kernel_inv s' pd.
Proof. intros Hk [D U _ _]. by eapply kernel_inv_mono. Qed.

(** A gain is a growth when it leaves the bytes of the frames in use. *)
Lemma gained_grows s s' pd a n p :
  kernel_inv s pd -> same_dir s s' pd -> gained s s' pd a n p ->
  (forall x, is_u32 x -> not_paging s pd x -> used (phys s) (x / 4096) = true -> loadb (mem s') x = loadb (mem s) x) ->
  grows pd s s'.
Proof.
  intros Hk Hsd (P1 & P2 & A1 & A2 & A3 & Hrun & _ & Hused & Htr) Hb. split; [done| | |done].
  - intros q Hq. by rewrite Hused, Hq, orb_true_r.
  - intros v x Hv E. rewrite Htr by done. destruct (in_pages a n v) eqn:Ein; [|done].
    rewrite (run_free_translate s pd a n v ltac:(apply Hk) Hv ltac:(lia) A2 ltac:(lia) Hrun Ein) in E. done.
Qed.

(** memoryAllocate, whether it finds room or not. *)
Lemma memoryAllocate_grows (fuel : nat) (s s' : MM) (pd size a : Z) :
  kernel_inv s pd -> KERNEL_FUEL <= Z.of_nat fuel -> 0 < size <= 4294963200 ->
  memoryAllocate fuel s pd size false = Some (a, s') -> grows pd s s'.
Proof.
  intros Hk Hf Hs E. destruct (memoryAllocate_kernel_spec fuel s pd size Hk Hf Hs) as (a' & s1 & E' & _ & Hsd & Hr).
  rewrite E in E'. injection E' as <- <-.
  assert (forall x, is_u32 x -> not_paging s pd x -> used (phys s) (x / 4096) = true -> loadb (mem s') x = loadb (mem s) x) as Hb.
  { clear Hr. revert E. unfold memoryAllocate. rewrite num_pages_eq by done. set (n := (size + 4095) / 4096).
    assert (0 < n <= 1048575) as Hn by (unfold n; clear -Hs; zlia). change (phys (atomicEnable s)) with (phys s).
    destruct (physicalAllocate_frames (phys s) n) as [(p & d & -> & Hp & Hpa & Hpn & Hfree & Hused)|(log & ->)];
      [lia|apply Hk| |intros [= <- <-]; done].
    rewrite (proj2 (Z.ltb_lt _ _)) by lia. set (s0 := with_log (with_phys (atomicEnable s) d) []).
    assert (kernel_inv s0 pd) as Hk0.
    { eapply kernel_inv_mono; [exact Hk|done|]. intros q Hq. cbn. rewrite Hused, Hq. apply orb_true_r. }
    destruct (VirtualAllocate_kernel_spec fuel s0 pd p n) as [(b & s2 & -> & Hb0 & Hba & Hbn & _ & Hm)|(s2 & -> & _ & P2 & _)];
      try done; try lia; [apply Hk0| |]; cbn [mbind option_bind].
    - rewrite (proj2 (Z.eqb_neq b 0)) by lia. rewrite u32_small by (unfold is_u32, PAGE_SIZE; lia).
      unfold PAGE_SIZE. change 0x1000 with 4096. intros [= _ <-] x Hx Hnp Hu.
      destruct (clear_fresh s0 s2 pd b p n) as (_ & _ & _ & _ & _ & _ & C7); try done; try lia.
      { intros y Hy. apply (free_frame_not_paging s); [done|]. apply Hfree. zlia. }
      apply C7; [done|done|]. intros Hin. rewrite Hfree in Hu by (clear -Hin Hpa; zlia). done.
    - rewrite Z.eqb_refl. intros [= _ <-] x _ _ _. cbn [mem with_log atomicDisable with_interrupts with_phys]. by rewrite P2. }
  destruct Hr as [(_ & _ & (p & Hg)%allocated_gained)|(_ & Hu & Htr)]; [by eapply gained_grows|].
  split; [done| | |done].
  - intros q. by rewrite Hu.
  - intros v x Hv. by rewrite Htr.
Qed.

(** Pages apart from the ones gained stay unmapped. *)
Lemma gained_run_free s s' pd a n p v k :
  gained s s' pd a n p -> 0 <= v -> v mod 4096 = 0 -> v + k * 4096 <= 1073741824 -> a + n * 4096 <= v \/ v + k * 4096 <= a ->
  run_free s pd v k -> run_free s' pd v k.
Proof.
  intros (_ & _ & A3 & A4 & _ & _ & _ & _ & Htr) Hv Hva Hvk Ha Hu j Hj. specialize (Hu j Hj).
  assert (is_u32 (v + j * 4096)) as Hj32 by (unfold is_u32; lia). specialize (Htr _ Hj32).
  assert (in_pages a n (v + j * 4096) = false) as Hin.
  { apply not_true_iff_false. unfold in_pages. rewrite andb_true_iff, Z.leb_le, Z.ltb_lt. clear -A4 Hva Hj Ha. zlia. }
  rewrite Hin in Htr. unfold translate in Htr. rewrite Hu in Htr. by destruct (IsPagePresent s' _ _).
Qed.
Lemma same_translate_run_free s s' pd v k : (forall w, is_u32 w -> translate s' pd w = translate s pd w) ->
  0 <= v -> v + k * 4096 <= 4294967296 -> run_free s pd v k -> run_free s' pd v k.
Proof.
  intros Htr Hv Hvk Hu j Hj. specialize (Hu j Hj). specialize (Htr (v + j * 4096) ltac:(unfold is_u32; lia)).
  unfold translate in Htr. rewrite Hu in Htr. by destruct (IsPagePresent s' _ _).
Qed.

(** ** Frames in a row *)

(** A run of [n] free frames inside the memory; the first-fit search takes nothing from it but what
    it hands out. *)
Definition frame_run (d : MemoryManagerData) (n : Z) : Prop :=
  exists f, 0 < f /\ f + n <= TotalMemory d / PAGE_SIZE /\ f + n <= 1048576 /\ forall q, f <= q < f + n -> used d q = false.

Lemma frame_run_less d m n : frame_run d m -> n <= m -> frame_run d n.
Proof. intros (f & F0 & F1 & F2 & Hf) Hn. exists f. repeat split; [lia..|]. intros q Hq. apply Hf. lia. Qed.

Lemma elem_of_run_frames j n q :
  0 <= j -> j + n <= 1048576 -> q ∈ frames (u32 (j * PAGE_SIZE)) n <-> j <= q < j + n.
Proof.
  intros Hj Hn. rewrite elem_of_frames.
  assert (forall k, 0 <= k < n -> frame (page_address (u32 (j * PAGE_SIZE)) k) = j + k) as E.
  { intros k Hk. unfold frame, page_address, PAGE_SIZE. change 0x1000 with 4096. clear -Hj Hn Hk. zlia. }
  split; [intros (k & Hk & ->); rewrite E by done; lia|]. intros Hq. exists (q - j). rewrite E by lia. lia.
Qed.

Lemma allocate_run d m n :
  used d 0 = true -> frame_run d m -> 0 <= n <= m ->
  exists p d', physicalAllocate d n = (p, d', []) /\ 0 <= p /\ p mod 4096 = 0 /\ p + n * 4096 <= 4294967296 /\
    (forall q, p / 4096 <= q < p / 4096 + n -> used d q = false) /\
    (forall q, used d' q = (p / 4096 <=? q) && (q <? p / 4096 + n) || used d q) /\ frame_run d' (m - n).
Proof.
  intros H0 (f & F0 & F1 & F2 & Hf) Hn. unfold physicalAllocate.
  pose proof (search_loop_spec (Z.to_nat (TotalMemory d / PAGE_SIZE)) d n 0) as H.
  assert (0 < n /\ isPhysicalFree d (u32 (f * PAGE_SIZE)) n = true \/ n = 0 /\ isPhysicalFree d (u32 (0 * PAGE_SIZE)) n = true) as Hfit.
  { destruct (Z.eq_dec n 0) as [->|]; [by right|left]. split; [lia|]. apply isPhysicalFree_true. intros q Hq%elem_of_run_frames; [apply Hf|..]; lia. }
  destruct (search_loop _ d n 0) as [a|].
  2: { exfalso. destruct Hfit as [[Hn0 Hfit]|[-> Hfit]]; rewrite H in Hfit by lia; done. }
  destruct H as (j & Hj & -> & Hfree & Hmin). rewrite isPhysicalFree_true in Hfree.
  assert (j <= f /\ j < 1048576) as [Hjf Hj20].
  { destruct Hfit as [[Hn0 Hfit]|[-> Hfit]].
    - destruct (Z.le_gt_cases j f); [lia|]. rewrite Hmin in Hfit by lia. done.
    - destruct (Z.le_gt_cases j 0); [lia|]. rewrite Hmin in Hfit by lia. done. }
  assert (u32 (j * PAGE_SIZE) = j * 4096) as Ej by (apply u32_small; unfold is_u32, PAGE_SIZE; lia).
  pose proof (fun q => elem_of_run_frames j n q ltac:(lia) ltac:(lia)) as Hin.
  do 2 eexists. split; [reflexivity|]. rewrite Ej in *. rewrite Z.div_mul by lia.
  assert (forall q, used (physicalAllocateAt d (j * 4096) n) q = (j <=? q) && (q <? j + n) || used d q) as Hu.
  { intros q. rewrite used_allocateAt. destruct (decide (j <= q < j + n)) as [Hq|Hq].
    - rewrite (proj2 (existsb_frames _ _)) by (by apply Hin). zcases.
    - rewrite existsb_frames_false by (by rewrite Hin). zcases. }
  split; [lia|]. split; [apply Z.mod_mul; lia|]. split; [lia|]. split; [intros q Hq; by apply Hfree, Hin|]. split; [exact Hu|].
  exists (Z.max f (j + n)). rewrite TotalMemory_allocateAt. split; [lia|]. split; [lia|]. split; [lia|].
  intros q Hq. rewrite Hu, Hf by lia. zcases.
Qed.

(** ** The lowest free pages *)

(** The search for virtual pages stops at the first run. *)
Lemma find_loop_first fuel : forall s pd va start idx top n a b,
  0 <= start -> 0 <= idx < n -> va = start + idx * 4096 -> start mod 4096 = 0 -> top <= 4294963200 ->
  find_loop fuel s pd va start idx top n = Some (Some a) ->
  start <= b -> b mod 4096 = 0 -> run_free s pd b n -> a <= b.
Proof.
  induction fuel as [|fuel IH]; intros s pd va start idx top n a b Hs Hi Hva Hsa Htop E Hb Hba Hrun; [done|]. simpl in E.
  destruct (Z.ltb_spec va top) as [Hlt|]; [|done].
  assert (u32 (va + PAGE_SIZE) = va + 4096) as Hnext by (apply u32_small; unfold is_u32, PAGE_SIZE; lia). rewrite Hnext in E.
  destruct (IsPagePresent s pd va) eqn:Ep; simpl in E.
  - refine (IH s pd (va + 4096) (va + 4096) 0 top n a b _ _ _ _ _ E _ _ _); try lia; try done; [clear -Hva Hsa; zlia|].
    destruct (Z.le_gt_cases b va) as [Hl|]; [|clear -Hva Hsa Hba H; zlia]. exfalso.
    specialize (Hrun ((va - b) / 4096)). replace (b + (va - b) / 4096 * 4096) with va in Hrun by (clear -Hva Hsa Hba; zlia).
    rewrite Hrun in Ep; [done|]. clear -Hva Hsa Hba Hl Hb Hi. zlia.
  - destruct (idx + 1 =? n) eqn:En; [injection E as <-; done|]. bool_facts. eapply IH; [..|exact E|exact Hb|done|done]; try lia; done.
Qed.

(** Where there is a run of frames and a run of unmapped pages at [b], memoryAllocate succeeds at [b]
    or below it, and takes no more of the frames than it needs. *)
Lemma memoryAllocate_first (fuel : nat) (s : MM) (pd size m b : Z) :
  let n := (size + 4095) / 4096 in
  kernel_inv s pd -> KERNEL_FUEL <= Z.of_nat fuel -> 0 < size <= 4294963200 -> frame_run (phys s) m -> n <= m ->
  1048576 <= b -> b mod 4096 = 0 -> b + n * 4096 <= 1073741824 -> run_free s pd b n ->
  exists a s', memoryAllocate fuel s pd size false = Some (a, s') /\ 1048576 <= a <= b /\ same_dir s s' pd /\
    allocated s s' pd a n /\ grows pd s s' /\ frame_run (phys s') (m - n).
Proof.
  intros n Hk Hf Hs Hfr Hm Hb Hba Hbn Hrun. assert (0 < n) as Hn by (unfold n; clear -Hs; zlia).
  destruct (allocate_run (phys s) m n (inv_frame0 _ _ Hk) Hfr ltac:(lia)) as (p & d & E & P0 & P1 & P2 & Pf & Pu & Pr).
  destruct (memoryAllocate_kernel_spec fuel s pd size Hk Hf Hs) as (a & s' & Ea & _ & Hsd & Hr). fold n in Hr.
  pose proof (memoryAllocate_grows fuel s s' pd size a Hk Hf Hs Ea) as W. pose proof Ea as Ea'.
  unfold memoryAllocate in Ea'. rewrite num_pages_eq in Ea' by done. fold n in Ea'. change (phys (atomicEnable s)) with (phys s) in Ea'.
  rewrite E in Ea'. assert (0 < p) as Hp.
  { destruct (Z.eq_dec p 0) as [->|]; [|lia]. specialize (Pf 0 ltac:(clear -Hn; zlia)). rewrite (inv_frame0 _ _ Hk) in Pf. done. }
  rewrite (proj2 (Z.ltb_lt _ _)) in Ea' by done.
  set (s1 := with_log (with_phys (atomicEnable s) d) []) in *. unfold VirtualAllocate in Ea'.
  change userStartAddress with 1073741824 in Ea'. change KERNEL_START_ADDRESS with 1048576 in Ea'. unfold KERNEL_FUEL in Hf.
  destruct (find_loop_spec fuel s1 pd 1048576 1048576 0 1073741824 n) as [(c & Ec & H1 & H2 & H3 & H4)|(_ & Hno)];
    try lia; try done; [clear -Hf; zlia|clear; intros k Hk'; lia| |].
  2: { exfalso. by apply (Hno b). }
  pose proof (find_loop_first fuel s1 pd 1048576 1048576 0 1073741824 n c b ltac:(lia) ltac:(lia) eq_refl eq_refl ltac:(lia) Ec Hb Hba Hrun) as Hcb.
  rewrite Ec in Ea'. unfold VirtualMap in Ea'. pose proof (inv_dir _ _ Hk) as Hkd.
  destruct (map_loop_present (identityMap fuel) (Z.to_nat n) s1 pd c p false) as (s2 & E2 & Hmap);
    rewrite ?Z2Nat.id by lia; try lia; try done; [eapply (wf_dir_same s); [apply Hkd|done]|intros k Hk'; by eapply (kernel_tables s); eauto; lia|].
  rewrite E2 in Ea'. cbn [mbind option_bind] in Ea'. rewrite (proj2 (Z.eqb_neq c 0)) in Ea' by lia. injection Ea' as -> Es.
  exists a, s'. split; [exact Ea|]. split; [lia|]. split; [done|]. destruct Hr as [(_ & _ & Hal)|(-> & _)]; [|lia].
  assert (phys s' = d) as Ed.
  { rewrite <- Es. rewrite u32_small by (unfold is_u32, PAGE_SIZE; lia). unfold PAGE_SIZE. change 0x1000 with 4096.
    rewrite Z2Nat.id in Hmap by lia. destruct (clear_fresh s1 s2 pd a p n) as (C1 & _); try done; try lia.
    - eapply kernel_inv_mono; [exact Hk|done|]. intros q Hq. cbn. rewrite Pu, Hq. apply orb_true_r.
    - intros x Hx. apply (free_frame_not_paging s); [done|]. apply Pf. zlia. }
  rewrite Ed. by split.
Qed.

(** ** memoryMap *)

Lemma num_pages_small size : 0 <= size <= 4294963200 -> num_pages size = (size + 4095) / 4096.
Proof. intros Hs. destruct (Z.eq_dec size 0) as [->|]; [done|]. apply num_pages_eq. lia. Qed.

(** Mapping unmapped pages of the kernel's gigabyte gains them, on frames that were free. *)
Lemma memoryMap_gains (fuel : nat) (s : MM) (pd v size m : Z) :
  let n := (size + 4095) / 4096 in
  kernel_inv s pd -> 0 <= size <= 4294963200 -> 1048576 <= v -> v mod 4096 = 0 -> v + n * 4096 <= 1073741824 ->
  run_free s pd v n -> frame_run (phys s) m -> n <= m ->
  exists p s', memoryMap fuel s pd v size false = Some s' /\ same_dir s s' pd /\ gained s s' pd v n p /\
    p + n * 4096 <= 4294967296 /\ frame_run (phys s') (m - n) /\ grows pd s s'.
Proof.
  intros n Hk Hs Hv Hva Hvn Hrun Hfr Hm. assert (0 <= n) as Hn by (unfold n; clear -Hs; zlia).
  destruct (allocate_run (phys s) m n (inv_frame0 _ _ Hk) Hfr ltac:(lia)) as (p & d & E & P0 & P1 & P2 & Pf & Pu & Pr).
  unfold memoryMap. rewrite num_pages_small by done. fold n. rewrite E. unfold VirtualMap.
  set (s1 := with_log (with_phys s d) []). pose proof (inv_dir _ _ Hk) as Hkd.
  destruct (map_loop_present (identityMap fuel) (Z.to_nat n) s1 pd v p false) as (s' & -> & Hmap);
    rewrite ?Z2Nat.id by lia; try lia; try done; [eapply (wf_dir_same s); [apply Hkd|done]|intros k Hk'; by eapply (kernel_tables s); eauto; lia|].
  rewrite Z2Nat.id in Hmap by lia. destruct Hmap as (M1 & M2 & M3 & M4 & M5 & M6).
  assert (gained s s' pd v n p) as Hg.
  { split; [done|]. split; [done|]. split; [done|]. split; [done|]. split; [done|]. split; [done|]. split; [done|].
    split; [|exact M5]. intros q. rewrite M1. apply Pu. }
  exists p, s'. split; [done|]. split; [exact M4|]. split; [exact Hg|]. split; [done|]. split; [by rewrite M1|].
  eapply gained_grows; [done|exact M4|exact Hg|]. intros x Hx [_ Hn2] _. by apply M6.
Qed.

(** ** More fuel *)

(** A result stays the same with more fuel. *)
Definition fuel_mono {A} (f : nat -> option A) : Prop := forall n m r, f n = Some r -> (n <= m)%nat -> f m = Some r.

Lemma map_loop_mono (rec rec' : MM -> Z -> Z -> Z -> option MM) n :
  (forall s pd a z r, rec s pd a z = Some r -> rec' s pd a z = Some r) ->
  forall s pd v p b r, map_loop rec n s pd v p b = Some r -> map_loop rec' n s pd v p b = Some r.
Proof.
  intros Hrec. induction n as [|n IH]; intros s pd v p b r; [done|]. simpl.
  destruct (e_present _); [apply IH|]. unfold create_table. destruct (physicalAllocate (phys s) 1) as [[a d] l].
  destruct (rec _ pd a 0) as [s2|] eqn:E; [|done]. rewrite (Hrec _ _ _ _ _ E). apply IH.
Qed.
Lemma identityMap_mono s pd a z : fuel_mono (fun n => identityMap n s pd a z).
Proof.
  intros n. revert s pd a z. induction n as [|n IH]; intros s pd a z m r E Hm; [done|]. destruct m as [|m]; [lia|].
  cbn [identityMap] in *. destruct (map_loop (identityMap n) _ _ _ _ _ _) as [s3|] eqn:E3; [|done].
  eapply map_loop_mono in E3; [by rewrite E3|]. intros s' pd' a' z' r' E'. eapply IH; [exact E'|lia].
Qed.
Lemma VirtualMap_mono s pd v p n b : fuel_mono (fun k => VirtualMap k s pd v p n b).
Proof. intros k m r E Hm. eapply map_loop_mono; [|exact E]. intros. by eapply identityMap_mono. Qed.
Lemma find_loop_mono s pd va start i top n : fuel_mono (fun k => find_loop k s pd va start i top n).
Proof.
  intros k. revert va start i. induction k as [|k IH]; intros va start i m r E Hm; [done|]. destruct m as [|m]; [lia|]. cbn [find_loop] in *.
  repeat case_match; try done; (eapply IH; [exact E|lia]).
Qed.
Lemma VirtualAllocate_mono s pd p n b : fuel_mono (fun k => VirtualAllocate k s pd p n b).
Proof.
  intros k m r E Hm. unfold VirtualAllocate in *. cbv zeta in *. destruct (find_loop k _ _ _ _ _ _ _) as [o|] eqn:Eo; [|done].
  rewrite (find_loop_mono _ _ _ _ _ _ _ _ _ _ Eo Hm). destruct o as [a|]; [|done].
  destruct (VirtualMap k _ _ _ _ _ _) as [s'|] eqn:Es; [|done]. by rewrite (VirtualMap_mono _ _ _ _ _ _ _ _ _ Es Hm).
Qed.
Lemma memoryAllocate_mono s pd z b : fuel_mono (fun k => memoryAllocate k s pd z b).
Proof.
  intros k m r E Hm. unfold memoryAllocate in *. cbv zeta in *. destruct (physicalAllocate _ _) as [[p d] l]. destruct (0 <? p); [|done].
  destruct (VirtualAllocate k _ _ _ _ _) as [[a s']|] eqn:Ea; [|done]. by rewrite (VirtualAllocate_mono _ _ _ _ _ _ _ _ Ea Hm).
Qed.
Lemma memoryMap_mono s pd v z b : fuel_mono (fun k => memoryMap k s pd v z b).
Proof. intros k m r E Hm. unfold memoryMap in *. destruct (physicalAllocate _ _) as [[p d] l]. by eapply VirtualMap_mono. Qed.

(** ** Contents in place *)

(** The bytes [l] at the virtual address [v], on the frames from [p] on, which are in use and hold
    no paging structure. *)
Definition placed (s : MM) (pd v p : Z) (l : list Z) : Prop :=
  0 <= v /\ v + Z.of_nat (length l) <= 1073741824 /\
  forall i b, l !! i = Some b ->
    let x := p + Z.of_nat i in
    translate s pd (v + Z.of_nat i) = Some x /\ is_u32 x /\ not_paging s pd x /\ used (phys s) (x / 4096) = true /\
    loadb (mem s) x = b.

Lemma placed_grows pd s s' v p l : grows pd s s' -> placed s pd v p l -> placed s' pd v p l.
Proof.
  intros [D U T B] (V1 & V2 & H). split; [done|]. split; [done|]. intros i b Hb x.
  destruct (H i b Hb) as (H1 & H2 & H3 & H4 & H5). apply lookup_lt_Some in Hb. fold x in H1, H2, H3, H4, H5.
  split; [apply T; [unfold is_u32; lia|done]|]. split; [done|]. split; [by eapply not_paging_same|]. split; [auto|].
  by rewrite B.
Qed.

Lemma placed_GetPhysicalAddress pd s v p l i :
  placed s pd v p l -> 0 <= i < Z.of_nat (length l) -> GetPhysicalAddress s pd (v + i) = p + i.
Proof.
  intros (V1 & V2 & H) Hi. destruct (lookup_lt_is_Some_2 l (Z.to_nat i) ltac:(lia)) as [b Hb].
  destruct (H _ _ Hb) as (T & _). rewrite Z2Nat.id in T by lia. by apply translate_GetPhysicalAddress.
Qed.
End AddressSpace.
