(* ===== verification/ElfLoad.v ===== *)
(** What Kernel/Elf.cpp loads: the segments of a program file on fresh pages, with the file's bytes
    in them, and the task that runs at the file's entry point. *)

From S2P Require Import Prelude PhysicalAllocator VirtualMemory MemoryManager AddressSpace Scheduler.
From S2P Require Import Kmalloc KmallocHeap KmallocSpec KmallocClient KernelHeap UserDirectory Tasks.

Module ElfLoad.
Import PhysicalAllocator VirtualMemory MemoryManager AddressSpace KmallocHeap KmallocSpec KmallocClient KernelHeap UserDirectory Tasks.

(** ** The same bytes *)

Lemma load32_ext m m' a : (forall x, loadb m' x = loadb m x) -> load32 m' a = load32 m a.
Proof. intros H. unfold load32. by rewrite !H. Qed.

(** Writing a word back changes nothing. *)
Lemma store32_back m a x : loadb (store32 m a (load32 m a)) x = loadb m x.
Proof.
  assert (forall m' b w y, u8 w = loadb m b -> (forall z, loadb m' z = loadb m z) -> loadb (storeb m' b w) y = loadb m y) as H.
  { intros m' b w y Hw Hm. destruct (Z.eq_dec (u32 b) (u32 y)) as [e|e].
    - rewrite loadb_storeb_eq, Hw by done. unfold loadb. by rewrite e.
    - by rewrite loadb_storeb_ne. }
  unfold store32. pose proof (load32_bytes m a) as Hb.
  apply H; [apply (Hb 3); lia|]. intros x2. apply H; [apply (Hb 2); lia|]. intros x1.
  apply H; [apply (Hb 1); lia|]. intros x0. apply H; [|done].
  specialize (Hb 0 ltac:(lia)). by rewrite Z.pow_0_r, Z.div_1_r, Z.add_0_r in Hb.
Qed.

Section SameBytes.
Context (s : MM) (m : Mem) (Hm : forall x, loadb m x = loadb (mem s) x).

Lemma same_bytes_GetPhysicalAddress pd v : GetPhysicalAddress (with_mem s m) pd v = GetPhysicalAddress s pd v.
Proof.
  unfold GetPhysicalAddress, GetPageTableEntry, GetPageTable. cbn [mem with_mem].
  by rewrite !(load32_ext (mem s) m).
Qed.
Lemma same_bytes_present pd v : IsPagePresent (with_mem s m) pd v = IsPagePresent s pd v.
Proof.
  unfold IsPagePresent, GetPageTableEntry, GetPageTable. cbn [mem with_mem].
  by rewrite !(load32_ext (mem s) m).
Qed.
Lemma same_bytes_translate pd v : translate (with_mem s m) pd v = translate s pd v.
Proof. unfold translate. by rewrite same_bytes_present, same_bytes_GetPhysicalAddress. Qed.
Lemma same_bytes_dir pd : same_dir s (with_mem s m) pd.
Proof. intros i Hi. by apply load32_ext. Qed.
Lemma same_bytes_grows pd : grows pd s (with_mem s m).
Proof. split; [apply same_bytes_dir|done|intros v x _; by rewrite same_bytes_translate|intros; apply Hm]. Qed.
End SameBytes.

(** ** Copying *)

(** Copying [n] virtual bytes between different physical bytes, the target outside the paging
    structures. *)
Lemma virtual_copy_spec n : forall s pd a p src q,
  wf_dir s pd -> 0 <= a -> 0 <= p -> 0 <= src -> 0 <= q ->
  a + Z.of_nat n <= 4294967296 -> p + Z.of_nat n <= 4294967296 ->
  src + Z.of_nat n <= 4294967296 -> q + Z.of_nat n <= 4294967296 ->
  (forall k, 0 <= k < Z.of_nat n ->
     GetPhysicalAddress s pd (a + k) = p + k /\ has_table s pd (PAGE_DIR_INDEX (a + k)) /\ not_paging s pd (p + k) /\
     GetPhysicalAddress s pd (src + k) = q + k /\ has_table s pd (PAGE_DIR_INDEX (src + k))) ->
  (forall k j, 0 <= k < Z.of_nat n -> 0 <= j < Z.of_nat n -> p + k <> q + j) ->
  let s' := virtual_copy n s pd a src in
  phys s' = phys s /\ same_dir s s' pd /\ (forall v, is_u32 v -> translate s' pd v = translate s pd v) /\
  (forall x, is_u32 x -> loadb (mem s') x =
     if (p <=? x) && (x <? p + Z.of_nat n) then loadb (mem s) (q + (x - p)) else loadb (mem s) x).
Proof.
  induction n as [|n IH]; intros s pd a p src q Hw Ha Hp Hsrc Hq Han Hpn Hsn Hqn Hk Hd; simpl.
  { split_and!; try done. intros x Hx. case_if; [lia|done]. }
  destruct (Hk 0 ltac:(lia)) as (Eg & Ht & Hnp & Es & _). rewrite !Z.add_0_r in *.
  destruct (storeb_outside s pd p (loadb (mem s) q) Hw ltac:(unfold is_u32; lia) Hnp) as (Hsd & Htr & Hgp).
  rewrite Eg, Es. set (s1 := with_mem s (storeb (mem s) p (loadb (mem s) q))) in *.
  assert (forall x, is_u32 x -> loadb (mem s1) x = if x =? p then loadb (mem s) q else loadb (mem s) x) as Hs1.
  { intros x Hx. cbn [mem s1 with_mem]. destruct (Z.eqb_spec x p) as [->|Hne].
    - rewrite loadb_storeb_eq by done. apply u8_small, loadb_range.
    - by rewrite loadb_storeb_ne by (rewrite !u32_small; [done..|unfold is_u32; lia]). }
  destruct n as [|n].
  { simpl. split_and!; try done. intros x Hx. rewrite Hs1 by done.
    destruct (Z.eqb_spec x p) as [->|Hne]; [|case_if; [lia|done]].
    rewrite (proj2 (Z.leb_le _ _)), (proj2 (Z.ltb_lt _ _)) by lia. simpl. f_equal. lia. }
  rewrite !u32_small by (unfold is_u32; lia).
  destruct (IH s1 pd (a + 1) (p + 1) (src + 1) (q + 1)) as (E1 & E2 & E3 & E4); try lia.
  - by eapply wf_dir_same.
  - intros k Hk'. destruct (Hk (k + 1) ltac:(lia)) as (Eg' & Ht' & Hnp' & Es' & Hts').
    replace (a + 1 + k) with (a + (k + 1)) by lia. replace (p + 1 + k) with (p + (k + 1)) by lia.
    replace (src + 1 + k) with (src + (k + 1)) by lia. replace (q + 1 + k) with (q + (k + 1)) by lia.
    rewrite !Hgp by (done || (unfold is_u32; lia)). rewrite !(has_table_same s s1) by done.
    split_and!; try done. by eapply not_paging_same.
  - intros k j Hk' Hj. specialize (Hd (k + 1) (j + 1)). lia.
  - split_and!; [done| | |].
    + intros i Hi. by rewrite E2, Hsd.
    + intros v Hv. by rewrite E3, Htr.
    + intros x Hx. rewrite E4 by done. pose proof (Hd 0) as Hd0.
      destruct (Z.leb_spec (p + 1) x), (Z.ltb_spec x (p + 1 + Z.of_nat (S n))); simpl.
      * rewrite (proj2 (Z.leb_le _ _)), (proj2 (Z.ltb_lt _ _)) by lia. simpl.
        rewrite Hs1 by (unfold is_u32 in *; lia). specialize (Hd0 (1 + (x - (p + 1)))).
        rewrite (proj2 (Z.eqb_neq _ _)) by lia. f_equal. lia.
      * rewrite Hs1 by done. rewrite (proj2 (Z.eqb_neq _ _)) by lia. case_if; [lia|done].
      * rewrite Hs1 by done. destruct (Z.eqb_spec x p) as [->|Hne]; [|case_if; [lia|done]].
        rewrite (proj2 (Z.leb_le _ _)), (proj2 (Z.ltb_lt _ _)) by lia. simpl. f_equal. lia.
      * lia.
Qed.

(** ** One segment *)

(** What a program header asks for: whole pages for the bytes of the file, which stand at its
    address if this is the start of a page. *)
Definition segment_pages (ph : ElfProgramHeader) : Z := (m_filesz ph + 4095) / 4096.
Definition segment_bytes (f : list Z) (ph : ElfProgramHeader) : list Z :=
  take (Z.to_nat (m_filesz ph)) (drop (Z.to_nat (m_offset ph)) f).

(** A header whose bytes lie in the file, and whose address is a page of the kernel's gigabyte
    above the first megabyte. *)
Record segment_fits (f : list Z) (ph : ElfProgramHeader) : Prop := {
  fits_file : m_offset ph + m_filesz ph <= Z.of_nat (length f);
  fits_page : m_vaddr ph mod 4096 = 0;
  fits_low : 1048576 <= m_vaddr ph;
  fits_high : m_vaddr ph + segment_pages ph * 4096 <= 1073741824
}.

Lemma read_program_header_range m a :
  let ph := read_program_header m a in 0 <= m_offset ph /\ 0 <= m_filesz ph < 65536.
Proof.
  unfold read_program_header. cbn [m_offset m_filesz]. pose proof (load32_range m (a + 4)). pose proof (load16_range m (a + 16)).
  unfold is_u32, is_u16 in *. lia.
Qed.

Lemma read_program_header_ext m m' a :
  (forall j, 0 <= j < 32 -> loadb m' (a + j) = loadb m (a + j)) -> read_program_header m' a = read_program_header m a.
Proof.
  intros H. unfold read_program_header, load16, load32. rewrite <- !Z.add_assoc. cbn [Z.add Pos.add Pos.succ].
  pose proof (H 0 ltac:(lia)) as H0. rewrite Z.add_0_r in H0. by rewrite H0, !H by lia.
Qed.

(** The file is where the boot loader left it, mapped to itself. *)
Lemma placed_same_bytes pd s s' v p q l i : placed s pd v p l -> placed s' pd v q l ->
  0 <= i < Z.of_nat (length l) -> loadb (mem s') (q + i) = loadb (mem s) (p + i).
Proof.
  intros (_ & _ & H) (_ & _ & H') Hi. destruct (lookup_lt_is_Some_2 l (Z.to_nat i) ltac:(lia)) as [b Hb].
  destruct (H _ _ Hb) as (_ & _ & _ & _ & E), (H' _ _ Hb) as (_ & _ & _ & _ & E'). rewrite Z2Nat.id in * by lia. congruence.
Qed.

(** Copying a part of the file into pages gained for it. *)
Lemma copy_gained s s2 pd v n q E f off sz :
  kernel_inv s pd -> placed s pd E E f -> same_dir s s2 pd -> gained s s2 pd v n q -> grows pd s s2 -> q + n * 4096 <= 4294967296 ->
  0 <= off -> 0 <= sz -> off + sz <= Z.of_nat (length f) -> sz <= n * 4096 ->
  let s3 := virtual_copy (Z.to_nat sz) s2 pd v (E + off) in
  same_dir s s3 pd /\ gained s s3 pd v n q /\ grows pd s s3 /\ phys s3 = phys s2 /\
  placed s3 pd v q (take (Z.to_nat sz) (drop (Z.to_nat off) f)).
Proof.
  intros Hk Hf Hsd Hg W Hq Ho Hs Hos Hsn s3. pose proof Hf as (E0 & E1 & Hfb). pose proof (placed_grows _ _ _ _ _ _ W Hf) as Hf2.
  pose proof Hg as (A1 & A2 & A3 & A4 & A5 & A6 & A7 & A8 & A9). pose proof (grows_inv _ _ _ Hk W) as Hk2.
  assert (forall k, 0 <= k < n * 4096 -> used (phys s) ((q + k) / 4096) = false) as Hfree by (intros k Hk'; apply A7; clear -Hk' A2; zlia).
  assert (forall k, 0 <= k < n * 4096 -> translate s2 pd (v + k) = Some (q + k)) as Htr.
  { intros k Hk'. destruct (in_pages_byte v n k A4 Hk') as [Hin Hmap]. rewrite A9, Hin, Hmap by (done || (unfold is_u32; lia)). done. }
  assert (forall k, 0 <= k < n * 4096 -> not_paging s2 pd (q + k)) as Hnp.
  { intros k Hk'. eapply not_paging_same; [done|]. apply free_frame_not_paging; auto. }
  assert (forall v, 0 <= v < 1073741824 -> has_table s2 pd (PAGE_DIR_INDEX v)) as Hht.
  { intros w Hw. apply (inv_dir _ _ Hk2). rewrite PAGE_DIR_INDEX_div. clear -Hw. zlia. }
  destruct (virtual_copy_spec (Z.to_nat sz) s2 pd v q (E + off) (E + off)) as (C1 & C2 & C3 & C4); try lia.
  { apply Hk2. }
  { intros k Hk'. rewrite <- Z.add_assoc. rewrite (placed_GetPhysicalAddress _ _ _ _ _ _ Hf2) by lia. split; [apply translate_GetPhysicalAddress, Htr; lia|].
    split; [apply Hht; lia|]. split; [apply Hnp; lia|]. split; [done|apply Hht; lia]. }
  { intros k j Hk' Hj Ekj. destruct (lookup_lt_is_Some_2 f (Z.to_nat (off + j)) ltac:(lia)) as [b Hb].
    destruct (Hfb _ _ Hb) as (_ & _ & _ & Hu & _). rewrite Z2Nat.id in Hu by lia.
    replace (E + (off + j)) with (q + k) in Hu by lia. rewrite Hfree in Hu by lia. done. }
  fold s3 in C1, C2, C3, C4. rewrite Z2Nat.id in C4 by done.
  assert (gained s s3 pd v n q) as Hg3.
  { do 7 (split; [done|]). split; [by rewrite C1|]. intros w Hw. rewrite C3 by done. by apply A9. }
  assert (same_dir s s3 pd) as Hsd3 by (intros i Hi; by rewrite C2, Hsd).
  split; [exact Hsd3|]. split; [exact Hg3|]. split; [|split; [exact C1|]].
  - eapply gained_grows; [done|exact Hsd3|exact Hg3|]. intros x Hx Hnx Hu. rewrite C4 by done.
    rewrite (grows_bytes _ _ _ W x) by done. case_if; [|done]. replace x with (q + (x - q)) in Hu by lia. rewrite Hfree in Hu by lia. done.
  - split; [lia|]. rewrite length_take, length_drop. split; [lia|]. intros i b (Eb & Hi)%lookup_take_Some. rewrite lookup_drop in Eb.
    rewrite C3, C1 by (unfold is_u32; lia). split; [apply Htr; lia|]. split; [unfold is_u32; lia|].
    split; [eapply not_paging_same; [exact C2|apply Hnp; lia]|].
    split.
    + rewrite A8. destruct (in_pages_byte q n (Z.of_nat i) A2 ltac:(lia)) as [Hin _]. unfold in_pages in Hin. by rewrite Hin.
    + rewrite C4 by (unfold is_u32; lia). rewrite (proj2 (Z.leb_le _ _)), (proj2 (Z.ltb_lt _ _)) by lia. cbn [andb].
      destruct Hf2 as (_ & _ & Hb2). destruct (Hb2 _ _ Eb) as (_ & _ & _ & _ & Ey).
      rewrite <- Ey. f_equal. lia.
Qed.

(** Loading one segment maps fresh pages for it and puts its bytes there. *)
Lemma load_segment_places (fuel : nat) (s : MM) (pd E : Z) (f : list Z) (ph m : Z) :
  let p := read_program_header (mem s) ph in
  kernel_inv s pd -> placed s pd E E f -> E <= ph -> ph + 32 <= E + Z.of_nat (length f) ->
  segment_fits f p -> run_free s pd (m_vaddr p) (segment_pages p) ->
  frame_run (phys s) m -> segment_pages p <= m ->
  exists s' q, load_segment fuel pd E ph s = Some s' /\ same_dir s s' pd /\ gained s s' pd (m_vaddr p) (segment_pages p) q /\
    grows pd s s' /\ frame_run (phys s') (m - segment_pages p) /\ placed s' pd (m_vaddr p) q (segment_bytes f p).
Proof.
  intros p Hk Hf Hph1 Hph2 [F1 F2 F3 F4] Hrun Hfr Hm. destruct (read_program_header_range (mem s) ph) as [Ro Rs]. fold p in Ro, Rs.
  pose proof Hf as (E0 & E1 & _). unfold load_segment. rewrite u32_small by (unfold is_u32; lia).
  set (m1 := store32 (mem s) (ph + 8) _).
  assert (forall x, loadb m1 x = loadb (mem s) x) as Hm1.
  { intros x. unfold m1, PAGE_SIZE. change 0x1000 with 4096. fold p. rewrite F2, Z.sub_0_r. apply store32_back. }
  clearbody m1. set (s1 := with_mem s m1). assert (read_program_header (mem s1) ph = p) as -> by (by apply read_program_header_ext).
  destruct (memoryMap_gains fuel s1 pd (m_vaddr p) (m_filesz p) m) as (q & s2 & -> & D2 & G2 & Q2 & R2 & W2); try done; try lia.
  { by eapply grows_inv, same_bytes_grows. }
  { intros k Hk'. unfold s1. rewrite same_bytes_present by done. by apply Hrun. }
  fold (segment_pages p) in *. assert (grows pd s s2) as W by (etransitivity; [by apply same_bytes_grows|exact W2]).
  pose proof (placed_grows _ _ _ _ _ _ W Hf) as Hf2.
  assert (read_program_header (mem s2) ph = p) as Ep.
  { apply read_program_header_ext. intros j Hj. replace (ph + j) with (E + (ph + j - E)) by lia.
    apply (placed_same_bytes pd s s2 E E E f); [done..|lia]. }
  cbn [mbind option_bind]. rewrite Ep. rewrite u32_small by (unfold is_u32; lia).
  assert (gained s s2 pd (m_vaddr p) (segment_pages p) q) as Hg.
  { destruct G2 as (A1 & A2 & A3 & A4 & A5 & _ & A7 & A8 & A9). do 6 (split; [done|]). split; [exact A7|]. split; [exact A8|].
    intros v Hv. rewrite A9 by done. unfold s1. by rewrite same_bytes_translate. }
  assert (m_filesz p <= segment_pages p * 4096) as Hsz by (unfold segment_pages; clear -Rs; zlia).
  destruct (copy_gained s s2 pd (m_vaddr p) (segment_pages p) q E f (m_offset p) (m_filesz p)) as (C1 & C2 & C3 & C4 & C5);
    try done; try lia; [intros i Hi; rewrite D2 by done; by apply same_bytes_dir|].
  eexists _, q. split; [reflexivity|]. split; [exact C1|]. split; [exact C2|]. split; [exact C3|]. split; [by rewrite C4|exact C5].
Qed.

(** ** A program file *)

(** The program headers as load walks them, the pages they ask for, and no two of them a page in
    common. *)
Definition header_address (m : Mem) (E i : Z) : Z :=
  u32 (u32 (E + m_phoff (read_header m E)) + m_phentsize (read_header m E) * i).
Definition program_headers (m : Mem) (E : Z) : list ElfProgramHeader :=
  (fun i => read_program_header m (header_address m E i)) <$> seqZ 0 (m_phnum (read_header m E)).
Definition image_pages (segs : list ElfProgramHeader) : Z := foldr (fun ph n => segment_pages ph + n) 0 segs.
Definition pages_apart (p q : ElfProgramHeader) : Prop :=
  m_vaddr p + segment_pages p * 4096 <= m_vaddr q \/ m_vaddr q + segment_pages q * 4096 <= m_vaddr p.
Definition unmapped (s : MM) (pd : Z) (ph : ElfProgramHeader) : Prop := run_free s pd (m_vaddr ph) (segment_pages ph).

(** A program file [f] at [E], with its headers inside it. *)
Record program_file (s : MM) (pd E : Z) (f : list Z) : Prop := {
  file_placed : placed s pd E E f;
  file_header : 52 <= Z.of_nat (length f);
  file_table : m_phoff (read_header (mem s) E) + m_phentsize (read_header (mem s) E) * m_phnum (read_header (mem s) E)
    <= Z.of_nat (length f);
  file_entries : 0 < m_phnum (read_header (mem s) E) -> 32 <= m_phentsize (read_header (mem s) E);
  file_fits : Forall (segment_fits f) (program_headers (mem s) E);
  file_apart : ForallOrdPairs pages_apart (program_headers (mem s) E)
}.

Lemma image_pages_nonneg l : Forall (fun ph => 0 <= m_filesz ph) l -> 0 <= image_pages l.
Proof.
  induction 1 as [|ph l Hph _ IH]; [done|]. cbn [image_pages foldr]. fold (image_pages l).
  unfold segment_pages. clear -Hph IH. zlia.
Qed.

(** Pages that none of the segments has a part of stay unmapped. *)
Definition clear_of (v k : Z) (ph : ElfProgramHeader) : Prop :=
  v + k * 4096 <= m_vaddr ph \/ m_vaddr ph + segment_pages ph * 4096 <= v.
Definition leaves_apart (segs : list ElfProgramHeader) (pd : Z) (s s' : MM) : Prop :=
  forall v k, 0 <= v -> v mod 4096 = 0 -> v + k * 4096 <= 1073741824 -> Forall (clear_of v k) segs -> run_free s pd v k -> run_free s' pd v k.

(** What the heap has, it keeps. *)
Definition hosts (pd : Z) (s s' : MM) : Prop :=
  backed s pd -> backed s' pd /\ forall a n, holds s pd a n -> holds s' pd a n.
#[export] Instance hosts_preorder pd : PreOrder (hosts pd).
Proof.
  split; [done|]. intros s1 s2 s3 H1 H2 Hb. destruct (H1 Hb) as [Hb1 K1], (H2 Hb1) as [Hb2 K2]. auto.
Qed.
Lemma gained_hosts s s' pd a n p : kernel_inv s pd -> same_dir s s' pd -> gained s s' pd a n p -> hosts pd s s'.
Proof.
  intros Hk Hsd Hg Hb. split; [by eapply gained_backed|]. intros b k Hh. by eapply (gained_keeps s s').
Qed.

Lemma placed_load32 pd s s' E f k : placed s pd E E f -> placed s' pd E E f -> 0 <= k -> k + 4 <= Z.of_nat (length f) ->
  load32 (mem s') (E + k) = load32 (mem s) (E + k).
Proof.
  intros H H' Hk Hk'. unfold load32. rewrite <- !Z.add_assoc. by rewrite !(placed_same_bytes pd s s' E E E f) by (done || lia).
Qed.
Lemma placed_load16 pd s s' E f k : placed s pd E E f -> placed s' pd E E f -> 0 <= k -> k + 2 <= Z.of_nat (length f) ->
  load16 (mem s') (E + k) = load16 (mem s) (E + k).
Proof.
  intros H H' Hk Hk'. unfold load16. rewrite <- !Z.add_assoc. by rewrite !(placed_same_bytes pd s s' E E E f) by (done || lia).
Qed.
Lemma header_address_kept pd s s' E f i : placed s pd E E f -> placed s' pd E E f -> 52 <= Z.of_nat (length f) ->
  header_address (mem s') E i = header_address (mem s) E i.
Proof.
  intros H H' Hl. unfold header_address, read_header. cbn [m_phoff m_phentsize].
  by rewrite !(placed_load32 pd s s' E f), !(placed_load16 pd s s' E f) by (done || lia).
Qed.

(** The loop over the program headers, from the header [sec] on. *)
Lemma load_segments_places (fuel : nat) (pd E : Z) (f : list Z) : forall segs sec s m rounds,
  m_phnum (read_header (mem s) E) = sec + Z.of_nat (length segs) -> (length segs <= rounds)%nat ->
  kernel_inv s pd -> placed s pd E E f -> 52 <= Z.of_nat (length f) ->
  (forall i ph, segs !! i = Some ph -> let a := header_address (mem s) E (sec + Z.of_nat i) in
     E <= a /\ a + 32 <= E + Z.of_nat (length f) /\ read_program_header (mem s) a = ph) ->
  Forall (segment_fits f) segs -> ForallOrdPairs pages_apart segs -> Forall (unmapped s pd) segs ->
  frame_run (phys s) m -> image_pages segs <= m ->
  exists s', load_segments fuel rounds sec pd E s = Some s' /\ grows pd s s' /\ hosts pd s s' /\
    frame_run (phys s') (m - image_pages segs) /\ leaves_apart segs pd s s' /\
    Forall (fun ph => exists q, placed s' pd (m_vaddr ph) q (segment_bytes f ph)) segs.
Proof.
  induction segs as [|ph segs IH]; intros sec s m rounds Hn Hrd Hk Hf Hl Hat Hfit Hap Hun Hfr Hm.
  { exists s. split; [destruct rounds; cbn [load_segments]; by rewrite (proj2 (Z.ltb_ge _ _)) by (cbn [length] in Hn; lia)|]. split; [done|]. split; [done|]. split; [eapply frame_run_less; [exact Hfr|cbn; lia]|]. split; [by intros v k _|constructor]. }
  destruct (Hat 0%nat ph eq_refl) as (B1 & B2 & B3). rewrite Z.add_0_r in B1, B2, B3.
  apply Forall_cons in Hfit as [Hfit0 Hfit]. apply Forall_cons in Hun as [Hun0 Hun]. inversion Hap as [|? ? Hap0 Hap']; subst.
  assert (0 <= image_pages segs) as Hnn.
  { apply image_pages_nonneg, Forall_lookup. intros i p Hp. destruct (Hat (S i) p Hp) as (_ & _ & <-). apply read_program_header_range. }
  cbn [image_pages foldr] in Hm. fold (image_pages segs) in Hm.
  cbn [length] in Hn, Hrd. destruct rounds as [|rounds]; [lia|]. cbn [load_segments]. rewrite (proj2 (Z.ltb_lt _ _)) by lia.
  change (u32 (u32 (E + _) + _ * sec)) with (header_address (mem s) E sec). set (a := header_address (mem s) E sec) in *.
  destruct (load_segment_places fuel s pd E f a m) as (s1 & q & -> & D1 & G1 & W1 & R1 & P1); try done; [lia|].
  set (ph := read_program_header (mem s) a) in *. cbn [mbind option_bind].
  pose proof (placed_grows _ _ _ _ _ _ W1 Hf) as Hf1.
  assert (m_phnum (read_header (mem s1) E) = m_phnum (read_header (mem s) E)) as En
    by (apply (placed_load16 pd s s1 E f); done || lia).
  destruct (IH (sec + 1) s1 (m - segment_pages ph) rounds) as (s2 & -> & W2 & H2 & R2 & L2 & P2); try done; try lia.
  - by eapply grows_inv.
  - intros i p Hp. destruct (Hat (S i) p Hp) as (C1 & C2 & C3). rewrite (header_address_kept pd s s1 E f) by done.
    replace (sec + 1 + Z.of_nat i) with (sec + Z.of_nat (S i)) by lia. split; [done|]. split; [done|]. rewrite <- C3.
    apply read_program_header_ext. intros j Hj. replace (header_address _ _ _ + j) with (E + (header_address (mem s) E (sec + Z.of_nat (S i)) + j - E)) by lia.
    apply (placed_same_bytes pd s s1 E E E f); [done..|lia].
  - rewrite Forall_forall in *. intros p Hp. destruct (Hfit p Hp) as [_ ? ? ?]. eapply gained_run_free; [exact G1|lia|done|done|exact (Hap0 p Hp)|exact (Hun p Hp)].
  - exists s2. split; [done|]. split; [by etransitivity|]. split; [etransitivity; [by eapply gained_hosts|exact H2]|].
    split; [eapply frame_run_less; [exact R2|cbn [image_pages foldr]; fold (image_pages segs); lia]|]. split.
    + intros v k Hv Hva Hvk [Ho0 Ho]%Forall_cons Hr. apply L2; [done..|]. eapply gained_run_free; [exact G1|done|done|done|unfold clear_of in Ho0; lia|exact Hr].
    + constructor; [|exact P2]. exists q. by eapply placed_grows.
Qed.

(** ** The task *)

(** Room to make a task in front of the segments: frames in a row for a heap region, a stack and
    the segments, and unmapped pages for the first two below the unmapped pages of the others. *)
Definition program_room (s : MM) (pd : Z) (segs : list ElfProgramHeader) : Prop :=
  frame_run (phys s) (17 + image_pages segs) /\
  exists b, 1048576 <= b /\ b mod 4096 = 0 /\ b + 69632 <= 1073741824 /\ run_free s pd b 17 /\
    Forall (fun ph => b + 69632 <= m_vaddr ph /\ unmapped s pd ph) segs.

(** Pages stay unmapped at and above [b]. *)
Definition leaves_above (b pd : Z) (s s' : MM) : Prop :=
  forall v k, b <= v -> v mod 4096 = 0 -> v + k * 4096 <= 1073741824 -> run_free s pd v k -> run_free s' pd v k.

Lemma allocated_leaves s s' pd a n b : allocated s s' pd a n -> a + n * 4096 <= b -> 0 <= b -> leaves_above b pd s s'.
Proof. intros (p & Hg)%allocated_gained Ha Hb v k Hv Hva Hvk Hu. eapply gained_run_free; [exact Hg|lia|done|done|lia|done]. Qed.

(** A block for a task: nothing, or one region of sixteen pages. *)
Lemma kmalloc_takes (h : Kmalloc.Heap (Z * MM)) B m b :
  let pd := (Kmalloc.pages h).1 in let s := (Kmalloc.pages h).2 in
  carries (S := Z * MM) h B -> frame_run (phys s) (16 + m) -> 0 <= m ->
  1048576 <= b -> b mod 4096 = 0 -> b + 65536 <= 1073741824 -> run_free s pd b 16 ->
  exists n p h', (forall fuel, (n <= fuel)%nat -> Kmalloc.kmalloc fuel TASK_SIZE h = Some (p, h')) /\ p <> 0 /\
    carries (S := Z * MM) h' ((p, TASK_SIZE) :: B) /\ (Kmalloc.pages h').1 = pd /\ let s' := (Kmalloc.pages h').2 in
    grows pd s s' /\ frame_run (phys s') m /\ leaves_above (b + 65536) pd s s'.
Proof.
  intros pd s Hc Hfr Hm Hb Hba Hbn Hrun. destruct (carries_machine _ _ Hc) as [Hk _]. fold s pd in Hk.
  assert (0 <= TASK_SIZE <= 1073741824) as Hsz by (unfold TASK_SIZE; lia). assert (region_bytes TASK_SIZE = 65536) as Er by done.
  assert (KERNEL_FUEL <= Z.of_nat (Z.to_nat KERNEL_FUEL)) as Hf by (rewrite Z2Nat.id by done; done).
  remember (Z.to_nat KERNEL_FUEL) as fuel eqn:Efu.
  destruct (memoryAllocate_first fuel s pd 65536 (16 + m) b) as (a & s1 & Ea & Hab & Hsd & Hal & W & Hfr');
    change ((65536 + 4095) / 4096) with 16 in *; try done; try lia.
  assert (Kmalloc.memory_allocate (Kmalloc.pages h) (region_bytes TASK_SIZE) = Some (a, (pd, s1))) as Em.
  { rewrite Er. destruct (Kmalloc.pages h) as [pd0 s0] eqn:Eh. unfold Kmalloc.memory_allocate, kernel_pages.
    change s0 with s. change pd0 with pd. by rewrite <- Efu, Ea. }
  destruct (kmalloc_room h B TASK_SIZE a (pd, s1) Hc Hsz Em ltac:(lia)) as (n & p & h' & E & Hp & Hc').
  exists n, p, h'. split; [done|]. split; [done|]. split; [done|].
  destruct (kmalloc_pages n TASK_SIZE h p h' Hsz (E n ltac:(lia))) as [Eq|(a' & Ea')].
  - rewrite Eq. split; [done|]. cbv zeta. split; [done|]. split; [eapply frame_run_less; [exact Hfr|lia]|]. by intros v k _.
  - rewrite Em in Ea'. injection Ea' as _ Ea'. rewrite <- Ea'. split; [done|]. cbv zeta. split; [done|].
    split; [eapply frame_run_less; [exact Hfr'|lia]|]. eapply allocated_leaves; [exact Hal|lia..].
Qed.

(** The stack of a task, and the word stored on it. *)
Lemma stack_takes fuel s pd m b w :
  kernel_inv s pd -> KERNEL_FUEL <= Z.of_nat fuel -> frame_run (phys s) (1 + m) -> 0 <= m ->
  1048576 <= b -> b mod 4096 = 0 -> b + 4096 <= 1073741824 -> run_free s pd b 1 ->
  exists a s', memoryAllocate fuel s pd TASK_STACK_SIZE false = Some (a, s') /\ a <> 0 /\
    let s2 := store_word s' pd (a + 4092) w in grows pd s s2 /\ frame_run (phys s2) m /\ leaves_above (b + 4096) pd s s2.
Proof.
  intros Hk Hf Hfr Hm Hb Hba Hbn Hrun.
  destruct (memoryAllocate_first fuel s pd TASK_STACK_SIZE (1 + m) b) as (a & s' & Ea & Hab & Hsd & Hal & W & Hfr');
    change ((TASK_STACK_SIZE + 4095) / 4096) with 1 in *; unfold TASK_STACK_SIZE in *; try done; try lia.
  exists a, s'. split; [done|]. split; [lia|]. pose proof (allocated_leaves _ _ _ _ _ (b + 4096) Hal ltac:(lia) ltac:(lia)) as Hl.
  destruct Hal as (q & Q1 & Q2 & Q3 & A1 & A2 & A3 & _ & Qf & _ & Qt & _).
  destruct (in_pages_byte a 1 4092 A2 ltac:(lia)) as [Hin Hmap]. specialize (Hmap q Q2).
  assert (translate s' pd (a + 4092) = Some (q + 4092)) as Ht by (rewrite Qt by (unfold is_u32; lia); by rewrite Hin, Hmap).
  assert (used (phys s) ((q + 4092) / 4096) = false) as Hu by (apply Qf; clear -Q2; zlia).
  cbv zeta. unfold store_word. rewrite (translate_GetPhysicalAddress _ _ _ _ Ht). set (x := q + 4092) in *.
  assert (not_paging s' pd x) as Hn by (eapply not_paging_same; [exact Hsd|by apply free_frame_not_paging]).
  destruct (store32_same s' pd x w) as [Hsd2 Htr2]; try done; [apply (grows_inv _ _ _ Hk W)|unfold x; lia|unfold x; clear -Q2; zlia|unfold x; lia|].
  split; [|split].
  - destruct W as [D U T Bs]. split; [intros i Hi; by rewrite Hsd2, D|done|intros y z Hy; rewrite Htr2 by done; by apply T|].
    intros y Hy Hny Huy. cbn [mem with_mem]. rewrite store32_spec by (done || unfold x; lia). destruct (_ && _) eqn:Ein; [|by apply Bs].
    rewrite andb_true_iff, Z.leb_le, Z.ltb_lt in Ein. exfalso.
    assert (y / 4096 = x / 4096) as Ey by (unfold x in *; clear -Ein Q2; zlia). rewrite Ey in Huy. congruence.
  - cbn [phys with_mem]. eapply frame_run_less; [exact Hfr'|lia].
  - intros v k Hv Hva Hvk Hr. eapply same_translate_run_free; [exact Htr2|lia|lia|by apply Hl].
Qed.

Lemma add_log_nil k : add_log k [] = k.
Proof.
  destruct k as [sc h]. unfold add_log, with_machine, machine, Kmalloc.with_pages, with_log. cbn. f_equal.
  destruct h as [? ? ? ? ? [pd [? ? ? ? ?]] ?]. cbn. by rewrite app_nil_r.
Qed.

Lemma verified_silently m E : (verifyElfHeader m E).1 = true -> E <> 0 /\ verifyElfHeader m E = (true, []).
Proof. unfold verifyElfHeader. cbv zeta. destruct (Z.eqb_spec E 0); [done|]. by repeat case_if. Qed.

(** From [sc] to [sc'] the task [p] was appended to the ring: the others have the registers they had. *)
Definition appended (p : Z) (sc sc' : Scheduler.Sched) : Prop :=
  (forall q tq, q <> p -> Scheduler.tasks sc !! q = Some tq ->
     exists tq', Scheduler.tasks sc' !! q = Some tq' /\ Scheduler.regs tq' = Scheduler.regs tq) /\
  Scheduler.m_runningTask sc' = Scheduler.m_runningTask sc /\ Scheduler.m_taskTail sc' = p.

Lemma taskStart_appends mainTask s p t entry :
  Scheduler.tasks s !! p = Some t -> is_Some (Scheduler.tasks s !! Scheduler.m_taskTail s) ->
  exists sc t', Scheduler.taskStart mainTask s p entry = Scheduler.Ret sc /\ appended p s sc /\
    Scheduler.tasks sc !! p = Some t' /\ Scheduler.eip (Scheduler.regs t') = entry /\
    Scheduler.cr3 (Scheduler.regs t') = Scheduler.cr3 (Scheduler.regs t) /\ Scheduler.state t' = Scheduler.Running.
Proof.
  intros Hp [tl Htl]. unfold Scheduler.taskStart, appended. rewrite Hp. cbv zeta.
  destruct (decide (Scheduler.m_taskTail s = p)) as [->|Hne].
  - rewrite lookup_insert_eq, lookup_insert_eq. do 2 eexists. split; [reflexivity|].
    cbn [Scheduler.tasks Scheduler.with_tail Scheduler.with_tasks]. split; [|by rewrite lookup_insert_eq].
    split; [|done]. intros q tq Hq E. rewrite !lookup_insert_ne by done. eauto.
  - rewrite lookup_insert_ne, Htl by done. rewrite lookup_insert_ne, lookup_insert_eq by done. do 2 eexists. split; [reflexivity|].
    cbn [Scheduler.tasks Scheduler.with_tail Scheduler.with_tasks]. split; [|by rewrite lookup_insert_eq].
    split; [|done]. intros q tq Hq E. rewrite lookup_insert_ne by done.
    destruct (decide (Scheduler.m_taskTail s = q)) as [Eq|Hne'].
    + rewrite Eq in Htl |- *. rewrite lookup_insert_eq. rewrite E in Htl. injection Htl as ->. by eexists.
    + rewrite !lookup_insert_ne by done. eauto.
Qed.

Lemma switch_into sc q p tq t : Scheduler.tasks sc !! q = Some tq -> Scheduler.tasks sc !! p = Some t -> q <> p ->
  exists sc', Scheduler.switchTask sc q p = Scheduler.Ret sc' /\ Scheduler.eip (Scheduler.cpu sc') = Scheduler.eip (Scheduler.regs t) /\
    Scheduler.cr3 (Scheduler.cpu sc') = Scheduler.cr3 (Scheduler.regs t).
Proof.
  intros Hq Hp Hne. unfold Scheduler.switchTask. rewrite Hq. cbn [Scheduler.tasks Scheduler.with_tasks].
  rewrite lookup_insert_ne, Hp by done. by eexists.
Qed.

(** Where there is room createTask makes a task with a stack, and takes no more than seventeen pages. *)
Lemma createTask_room lay mainTask old run main arg k B m b :
  let pd := kernelPageDirectory lay in
  carries (S := Z * MM) (heap k) B -> (Kmalloc.pages (heap k)).1 = pd ->
  Scheduler.getRunningTask (sched k) = Some run -> Scheduler.cr3 (Scheduler.regs run) = pd ->
  Scheduler.tasks (sched k) !! mainTask = Some main -> is_u32 arg -> frame_run (phys (machine k)) (17 + m) -> 0 <= m ->
  1048576 <= b -> b mod 4096 = 0 -> b + 69632 <= 1073741824 -> run_free (machine k) pd b 17 ->
  exists n p, p <> 0 /\ forall fuel, (n <= fuel)%nat ->
  exists t k', createTask fuel lay mainTask old false arg k = Some (p, k') /\
    sched k' = Scheduler.with_tasks (sched k) (<[p := t]> (Scheduler.tasks (sched k))) /\
    1048576 <= Scheduler.esp (Scheduler.regs t) /\ Scheduler.cr3 (Scheduler.regs t) = pd /\
    carries (S := Z * MM) (heap k') ((p, TASK_SIZE) :: B) /\ (Kmalloc.pages (heap k')).1 = pd /\
    grows pd (machine k) (machine k') /\ frame_run (phys (machine k')) m /\ leaves_above (b + 69632) pd (machine k) (machine k').
Proof.
  intros pd Hc Hpd Hrun Hcr Hmain Harg Hfr Hm Hb Hba Hbn Hfree. unfold machine in *.
  destruct (kmalloc_takes (heap k) B (1 + m) b) as (n & p & h' & E & Hp & Hc' & Hpd' & W1 & Hfr1 & Hl1); rewrite ?Hpd in *;
    try done; try lia; [by replace (16 + (1 + m)) with (17 + m) by lia|intros j Hj; apply Hfree; lia|].
  exists (Nat.max n (Z.to_nat KERNEL_FUEL)), p. split; [done|]. intros fuel Hfu.
  assert (KERNEL_FUEL <= Z.of_nat fuel) as Hkf by (unfold KERNEL_FUEL in *; lia). specialize (E fuel ltac:(lia)).
  destruct (carries_machine _ _ Hc') as [Hk' _]. rewrite Hpd' in Hk'.
  destruct (stack_takes fuel (Kmalloc.pages h').2 pd m (b + 65536) arg) as (a & s' & Es & Ha & W2 & Hfr2 & Hl2); try done; try lia; [clear -Hba; zlia| |].
  { apply Hl1; [lia|clear -Hba; zlia|lia|]. intros j Hj. specialize (Hfree (16 + j) ltac:(lia)). by replace (b + 65536 + j * 4096) with (b + (16 + j) * 4096) by lia. }
  destruct (createTask_made fuel lay mainTask old run main arg k p h' ((p, TASK_SIZE) :: B)) as (a' & s1 & Es' & t & k' & Ek & Hs & Hcr' & _ & Hgood); try done.
  fold pd in Es', Hcr', Hgood. rewrite Es in Es'. injection Es' as <- <-. destruct (Hgood Ha) as (He & Har & Em & _ & Hcar & _). unfold machine in Em.
  exists t, k'. split; [done|]. split; [done|]. split; [lia|]. split; [done|]. split; [done|]. split.
  { revert Ek. unfold createTask. rewrite E. cbn [mbind option_bind]. rewrite (proj2 (Z.eqb_neq p 0)), Hmain, Hrun by done. cbn [mbind option_bind].
    rewrite Hcr, Es. cbn [mbind option_bind]. intros [= <-]. exact Hpd'. }
  rewrite Em. split; [by etransitivity|]. split; [done|]. intros v j Hv Hva Hvk Hr. apply Hl2; [lia|done|done|]. apply Hl1; [lia|done..].
Qed.

Lemma header_address_in_file s pd E f i : program_file s pd E f -> 0 <= i < m_phnum (read_header (mem s) E) ->
  let a := header_address (mem s) E i in E <= a /\ a + 32 <= E + Z.of_nat (length f).
Proof.
  intros [(P0 & P1 & _) _ T N _ _] Hi. specialize (N ltac:(lia)). unfold header_address, read_header in *. cbn [m_phoff m_phentsize m_phnum] in *.
  pose proof (load32_range (mem s) (E + 28)) as Ro. unfold is_u32 in Ro.
  set (o := load32 (mem s) (E + 28)) in *. set (z := load16 (mem s) (E + 42)) in *. set (n := load16 (mem s) (E + 44)) in *.
  assert (z * i + z <= z * n) by (clear -Hi N; nia). assert (0 <= z * i) by (clear -Hi N; nia).
  rewrite !u32_small by (unfold is_u32; rewrite ?u32_small by (unfold is_u32; lia); lia). lia.
Qed.

(** The program headers and the entry point stay readable. *)
Lemma program_file_kept pd s s' E f : program_file s pd E f -> grows pd s s' ->
  m_phnum (read_header (mem s') E) = m_phnum (read_header (mem s) E) /\
  m_entry (read_header (mem s') E) = m_entry (read_header (mem s) E) /\
  forall i, 0 <= i < m_phnum (read_header (mem s) E) -> header_address (mem s') E i = header_address (mem s) E i /\
    read_program_header (mem s') (header_address (mem s) E i) = read_program_header (mem s) (header_address (mem s) E i).
Proof.
  intros Hf W. pose proof (file_placed _ _ _ _ Hf) as P. pose proof (placed_grows _ _ _ _ _ _ W P) as P'. pose proof (file_header _ _ _ _ Hf) as H.
  split; [apply (placed_load16 pd s s' E f); (done || lia)|]. split; [apply (placed_load32 pd s s' E f); (done || lia)|]. intros i Hi.
  split; [by apply (header_address_kept pd s s' E f)|]. destruct (header_address_in_file _ _ _ _ _ Hf Hi) as [A1 A2].
  apply read_program_header_ext. intros j Hj. replace (header_address _ _ _ + j) with (E + (header_address (mem s) E i + j - E)) by lia.
  apply (placed_same_bytes pd s s' E E E f); [done..|lia].
Qed.

Lemma program_headers_lookup m E i ph : program_headers m E !! i = Some ph ->
  0 <= Z.of_nat i < m_phnum (read_header m E) /\ ph = read_program_header m (header_address m E (Z.of_nat i)).
Proof. unfold program_headers. intros (j & -> & [-> Hi]%lookup_seqZ)%list_lookup_fmap_Some. rewrite Z.add_0_l. split; [lia|done]. Qed.

(** ** More fuel *)

Lemma createTask_mono lay mainTask old arg k : fuel_mono (fun n => createTask n lay mainTask old false arg k).
Proof.
  intros n m r E Hm. unfold createTask in *. apply bind_Some in E as ([p h] & Ek & E). rewrite (kmalloc_fuel _ _ _ _ _ Ek Hm). cbn [mbind option_bind].
  destruct (p =? 0); [done|]. destruct (Scheduler.tasks _ !! _); [|done]. destruct (Scheduler.getRunningTask _); [|done]. cbn [mbind option_bind] in *.
  apply bind_Some in E as ([a s] & Ea & E). rewrite (memoryAllocate_mono _ _ _ _ _ _ _ Ea Hm). exact E.
Qed.
Lemma load_segment_mono pd E ph s : fuel_mono (fun n => load_segment n pd E ph s).
Proof.
  intros n m r F Hm. unfold load_segment in *. cbv zeta in *. apply bind_Some in F as (s' & F1 & F).
  rewrite (memoryMap_mono _ _ _ _ _ _ _ _ F1 Hm). exact F.
Qed.
Lemma load_segments_mono pd E k : forall sec s n m k' r,
  load_segments n k sec pd E s = Some r -> (n <= m)%nat -> (k <= k')%nat -> load_segments m k' sec pd E s = Some r.
Proof.
  induction k as [|k IH]; intros sec s n m [|k'] r F Hm Hk; cbn [load_segments] in *; case_if; try done; [lia|].
  apply bind_Some in F as (s' & F1 & F). rewrite (load_segment_mono _ _ _ _ _ _ _ F1 Hm). cbn [mbind option_bind]. apply (IH _ _ n); [done..|lia].
Qed.
Lemma load_mono lay mainTask old E length k : fuel_mono (fun n => load n lay mainTask old E length k).
Proof.
  intros n m r F Hm. unfold load in *. destruct (verifyElfHeader _ _) as [ok l]. destruct ok; [|done].
  apply bind_Some in F as ([p k1] & F1 & F). rewrite (createTask_mono _ _ _ _ _ _ _ _ F1 Hm). cbn [mbind option_bind].
  destruct (Scheduler.tasks _ !! _); [|done]. cbn [mbind option_bind] in *. apply bind_Some in F as (s' & F2 & F).
  rewrite (load_segments_mono _ _ _ _ _ _ _ _ _ F2 Hm Hm). exact F.
Qed.

(** ** A new task's stack *)

(** Room for a task: seventeen free frames in a row, for a heap region and a stack, and as many
    unmapped pages. *)
Definition task_room (s : MM) (pd : Z) : Prop :=
  frame_run (phys s) 17 /\ exists b, 1048576 <= b /\ b mod 4096 = 0 /\ b + 69632 <= 1073741824 /\ run_free s pd b 17.

(** C23: A new kernel task reaches its entry point with its argument, on a fresh stack of its own.
    With enough fuel createTask returns a task, unless the heap has none for it, which needs a
    machine without seventeen free frames and pages in a row.  The task's stack pointer is in the
    last word of a page at [a].  Again only without that room, [a] is 0: the stack allocation
    failed and the code does not look.  Otherwise nothing was mapped at the 4096 bytes from [a]
    when kmalloc had made the task's block, they are mapped to a frame that was free, every other
    address translates as it did, and the heap carries the task as a new block beside the old
    ones.  Whatever entry point taskStart is then given, switching to the task from another one
    puts the processor at that entry point, in the kernel's address space, with the stack pointer
    in that page and the argument where the C calling convention has it, one word above it. *)
Theorem task_entry_receives_argument (lay : Layout) (mainTask : Z) (old run main : Scheduler.Task) (arg : Z) (k : Kernel) (B : list (Z * Z)) :
  let pd := kernelPageDirectory lay in
  carries (S := Z * MM) (heap k) B -> (Kmalloc.pages (heap k)).1 = pd ->
  Scheduler.getRunningTask (sched k) = Some run -> Scheduler.cr3 (Scheduler.regs run) = pd ->
  Scheduler.tasks (sched k) !! mainTask = Some main -> is_u32 arg ->
  exists n, forall fuel, (n <= fuel)%nat ->
  match createTask fuel lay mainTask old false arg k with
  | None => ~ task_room (machine k) pd /\ exists h', Kmalloc.kmalloc fuel TASK_SIZE (heap k) = Some (0, h')
  | Some (p, k') =>
      exists t h' a, p <> 0 /\ Kmalloc.kmalloc fuel TASK_SIZE (heap k) = Some (p, h') /\
      Scheduler.tasks (sched k') = <[p := t]> (Scheduler.tasks (sched k)) /\ Scheduler.esp (Scheduler.regs t) = a + 4092 /\
      (a = 0 -> ~ task_room (machine k) pd) /\
      (a <> 0 ->
       fresh_stack (Kmalloc.pages h').2 (machine k') pd a /\
       carries (S := Z * MM) (heap k') ((p, TASK_SIZE) :: B) /\
       forall entry sc q tq, Scheduler.taskStart mainTask (sched k') p entry = Scheduler.Ret sc ->
         Scheduler.tasks sc !! q = Some tq -> q <> p ->
         exists sc', Scheduler.switchTask sc q p = Scheduler.Ret sc' /\
           Scheduler.eip (Scheduler.cpu sc') = entry /\ Scheduler.cr3 (Scheduler.cpu sc') = pd /\
           Scheduler.esp (Scheduler.cpu sc') = a + 4088 /\
           load_word (machine k') pd (Scheduler.esp (Scheduler.cpu sc') + 4) = arg)
  end.
Proof.
  intros pd Hc Hpd Hrun Hcr Hmain Harg.
  destruct (kmalloc_step (heap k) B TASK_SIZE Hc ltac:(unfold TASK_SIZE; lia)) as (n & p & h' & E & _ & _ & Hc').
  exists (Nat.max n (Z.to_nat KERNEL_FUEL)). intros fuel Hfu.
  assert (KERNEL_FUEL <= Z.of_nat fuel) as Hkf by (unfold KERNEL_FUEL in *; lia).
  assert (task_room (machine k) pd -> exists m p2 t2 k2, (fuel <= m)%nat /\ createTask m lay mainTask old false arg k = Some (p2, k2) /\
    Scheduler.tasks (sched k2) !! p2 = Some t2 /\ 1048576 <= Scheduler.esp (Scheduler.regs t2)) as Hroom.
  { intros (Hfr & b & Hb & Hba & Hbn & Hrf).
    destruct (createTask_room lay mainTask old run main arg k B 0 b) as (m & p2 & _ & Hm); try done.
    destruct (Hm (m + fuel)%nat ltac:(lia)) as (t2 & k2 & E2 & Hs2 & He2 & _). exists (m + fuel)%nat, p2, t2, k2.
    split; [lia|]. split; [done|]. split; [rewrite Hs2; apply lookup_insert_eq|done]. }
  destruct (Z.eqb_spec p 0) as [->|Hp].
  { assert (forall m, (fuel <= m)%nat -> createTask m lay mainTask old false arg k = None) as En.
    { intros m Hm. unfold createTask. rewrite E by lia. cbn [mbind option_bind]. by rewrite Z.eqb_refl. }
    rewrite En by done. split; [|exists h'; by apply E; lia]. intros (m & p2 & t2 & k2 & Hm & E2 & _)%Hroom. by rewrite En in E2. }
  destruct (createTask_made fuel lay mainTask old run main arg k p h' ((p, TASK_SIZE) :: B)) as (a & s' & _ & t & k' & Ek & Hs & Hcr' & He & Hgood);
    try done; [by apply E; lia|refine (eq_trans (kmalloc_directory n TASK_SIZE _ _ _ _ (E n ltac:(lia))) Hpd); unfold TASK_SIZE; lia|].
  rewrite Ek. exists t, h', a. split; [done|]. split; [by apply E; lia|]. split; [by rewrite Hs|].
  destruct (Z.eq_dec a 0) as [->|Ha].
  { split; [by rewrite He|]. split; [|done]. intros _ (m & p2 & t2 & k2 & Hm & E2 & Ht2 & He2)%Hroom.
    pose proof (createTask_mono _ _ _ _ _ _ _ _ Ek Hm) as E3. cbv beta in E3. rewrite E2 in E3. injection E3 as -> ->.
    rewrite Hs in Ht2. cbn in Ht2. rewrite lookup_insert_eq in Ht2. injection Ht2 as <-. rewrite He in He2. by vm_compute in He2. }
  destruct (Hgood Ha) as (He' & Har & _ & Hfr & Hcar & Hload). split; [done|]. split; [done|]. intros _.
  split; [exact Hfr|]. split; [exact Hcar|]. intros entry sc q tq Hst Hq Hne.
  eapply start_switch in Hst as (sc' & E1 & E2 & E3 & E4); [|rewrite Hs; apply lookup_insert_eq|exact Hq|done].
  assert (Scheduler.esp (Scheduler.cpu sc') = a + 4088) as E5 by (rewrite E4, He', u32_small by (unfold is_u32; lia); lia).
  exists sc'. split; [done|]. split; [done|]. split; [by rewrite E3|]. split; [done|].
  rewrite E5. replace (a + 4088 + 4) with (a + 4092) by lia. exact Hload.
Qed.

Lemma ex_task_room : task_room ex_mm ex_pd.
Proof.
  split.
  - exists 1281. split; [done|]. split; [by vm_compute|]. split; [by vm_compute|].
    assert (forallb (fun q => negb (used (phys ex_mm) q)) (seqZ 1281 17) = true) as H by (vm_compute; reflexivity).
    intros q Hq. rewrite forallb_forall in H. apply negb_true_iff, H, list_elem_of_In, elem_of_seqZ. lia.
  - exists 1048576. do 3 (split; [done|]). intros j Hj. pose proof (ex_no_page (1048576 + j * 4096) ltac:(unfold is_u32; lia)) as E.
    unfold translate in E. by destruct (IsPagePresent _ _ _).
Qed.

(** The concrete machine has the room: the task is made, and its stack is there. *)
Lemma task_entry_receives_argument_witness : exists n p k' h' t a,
  createTask n (MkLayout ex_pd 0 0 0) 4096 ex_task false 42 ex_kernel = Some (p, k') /\ p <> 0 /\ a <> 0 /\
  Scheduler.tasks (sched k') !! p = Some t /\ Scheduler.esp (Scheduler.regs t) = a + 4092 /\
  fresh_stack (Kmalloc.pages (S := Z * MM) h').2 (machine k') ex_pd a.
Proof.
  destruct (task_entry_receives_argument (MkLayout ex_pd 0 0 0) 4096 ex_task ex_task ex_task 42 ex_kernel [])
    as (n & Hn); [apply boot_carries, ex_pages_inv|done|done|done|done|unfold is_u32; lia|].
  specialize (Hn n ltac:(lia)). exists n. destruct (createTask _ _ _ _ _ _ _) as [[p k']|].
  - destruct Hn as (t & h' & a & Hp & _ & Ht & He & Hz & Hgood). exists p, k', h', t, a.
    assert (a <> 0) as Ha by (intros Ha; exact (Hz Ha ex_task_room)). destruct (Hgood Ha) as (Hfr & _).
    split; [done|]. split; [done|]. split; [done|]. split; [rewrite Ht; apply lookup_insert_eq|]. split; [done|exact Hfr].
  - destruct Hn as [Hn _]. by destruct (Hn ex_task_room).
Defined.

(** ** Loading *)

(** A kernel whose heap carries the blocks [B] and whose running task is in the kernel's directory. *)
Record serving (lay : Layout) (mainTask : Z) (k : Kernel) (B : list (Z * Z)) : Prop := {
  srv_heap : carries (S := Z * MM) (heap k) B;
  srv_dir : (Kmalloc.pages (heap k)).1 = kernelPageDirectory lay;
  srv_run : exists run, Scheduler.getRunningTask (sched k) = Some run /\ Scheduler.cr3 (Scheduler.regs run) = kernelPageDirectory lay;
  srv_main : is_Some (Scheduler.tasks (sched k) !! mainTask);
  srv_tail : is_Some (Scheduler.tasks (sched k) !! Scheduler.m_taskTail (sched k))
}.

(** The task [p] starts at [entry] in the directory [pd]. *)
Definition starts_at (sc : Scheduler.Sched) (p entry pd : Z) : Prop :=
  exists t, Scheduler.tasks sc !! p = Some t /\ Scheduler.eip (Scheduler.regs t) = entry /\ Scheduler.cr3 (Scheduler.regs t) = pd.

(** What loading the file [f] at [E] as the task [p] did: the segments are in place, [m] frames in a
    row are left, and pages from [b] on that are clear of the segments stay unmapped. *)
Record loaded (k k' : Kernel) (pd E : Z) (f : list Z) (p m b : Z) : Prop := {
  ld_grows : grows pd (machine k) (machine k');
  ld_placed : Forall (fun ph => exists q, placed (machine k') pd (m_vaddr ph) q (segment_bytes f ph)) (program_headers (mem (machine k)) E);
  ld_frames : frame_run (phys (machine k')) m;
  ld_pages : forall v j, b <= v -> v mod 4096 = 0 -> v + j * 4096 <= 1073741824 ->
    Forall (clear_of v j) (program_headers (mem (machine k)) E) -> run_free (machine k) pd v j -> run_free (machine k') pd v j;
  ld_appended : appended p (sched k) (sched k');
  ld_task : starts_at (sched k') p (m_entry (read_header (mem (machine k)) E)) pd
}.

Lemma appended_serving lay mainTask k k' p B B' entry :
  serving lay mainTask k B -> appended p (sched k) (sched k') -> starts_at (sched k') p entry (kernelPageDirectory lay) ->
  carries (S := Z * MM) (heap k') B' -> (Kmalloc.pages (heap k')).1 = kernelPageDirectory lay -> serving lay mainTask k' B'.
Proof.
  intros [_ _ (run & Hrun & Hcr) [main Hmain] _] (Ha & Hr & Ht) (t & Et & _ & Hc) Hh Hpd.
  assert (forall q tq, Scheduler.tasks (sched k) !! q = Some tq -> Scheduler.cr3 (Scheduler.regs tq) = kernelPageDirectory lay ->
    exists tq', Scheduler.tasks (sched k') !! q = Some tq' /\ Scheduler.cr3 (Scheduler.regs tq') = kernelPageDirectory lay) as Hk.
  { intros q tq E E'. destruct (decide (q = p)) as [->|Hne]; [eauto|]. destruct (Ha q tq Hne E) as (tq' & E1 & E2). exists tq'. by rewrite E2. }
  split; [done|done| | |rewrite Ht; by eexists].
  - unfold Scheduler.getRunningTask in *. rewrite Hr. by eapply Hk.
  - destruct (decide (mainTask = p)) as [->|Hne]; [by eexists|]. destruct (Ha _ _ Hne Hmain) as (? & ? & _). by eexists.
Qed.

(** load in a kernel with room to spare. *)
Lemma load_program (lay : Layout) (mainTask : Z) (old : Scheduler.Task) (k : Kernel) (B : list (Z * Z)) (E length : Z) (f : list Z) (m b : Z) :
  let pd := kernelPageDirectory lay in
  let segs := program_headers (mem (machine k)) E in
  serving lay mainTask k B -> program_file (machine k) pd E f -> (verifyElfHeader (mem (machine k)) E).1 = true ->
  frame_run (phys (machine k)) (17 + image_pages segs + m) -> 0 <= m ->
  1048576 <= b -> b mod 4096 = 0 -> b + 69632 <= 1073741824 -> run_free (machine k) pd b 17 ->
  Forall (fun ph => b + 69632 <= m_vaddr ph /\ unmapped (machine k) pd ph) segs ->
  exists n p k', p <> 0 /\ (forall fuel, (n <= fuel)%nat -> load fuel lay mainTask old E length k = Some (true, k')) /\
    serving lay mainTask k' ((p, TASK_SIZE) :: B) /\ loaded k k' pd E f p m (b + 69632).
Proof.
  intros pd segs Hsrv Hfile Hver Hfr Hm Hb Hba Hbn Hfree Hun. pose proof Hsrv as [Hc Hpd (run & Hrun & Hcr) [main Hmain] Htail]. fold pd in Hpd, Hcr.
  assert (0 <= image_pages segs) as Hnn.
  { apply image_pages_nonneg, Forall_lookup. intros i ph [_ ->]%program_headers_lookup. apply read_program_header_range. }
  destruct (createTask_room lay mainTask old run main 0 k B (image_pages segs + m) b) as (n0 & p & Hp & Hmade); try done; [by rewrite Z.add_assoc|lia|].
  set (n := (n0 + Datatypes.length segs)%nat). assert (Datatypes.length segs <= n)%nat as Hrd by (unfold n; lia).
  destruct (Hmade n ltac:(unfold n; lia)) as (t & k1 & Et & Hs & _ & Hcr' & Hcar & Hpd1 & W & Hfr1 & Hl).
  enough (exists k', load n lay mainTask old E length k = Some (true, k') /\ serving lay mainTask k' ((p, TASK_SIZE) :: B) /\ loaded k k' pd E f p m (b + 69632))
    as (k' & El & Hdone).
  { exists n, p, k'. split; [done|]. split; [intros fuel Hfu; exact (load_mono _ _ _ _ _ _ _ _ _ El Hfu)|exact Hdone]. }
  destruct (verified_silently _ _ Hver) as [_ Hv]. unfold load. rewrite Hv, add_log_nil, Et. cbn [mbind option_bind].
  assert (Scheduler.tasks (sched k1) !! p = Some t) as Ht by (rewrite Hs; apply lookup_insert_eq). rewrite Ht. cbn [mbind option_bind].
  rewrite Hcr'. fold pd. destruct (program_file_kept _ _ _ _ _ Hfile W) as (Kn & _ & Ka).
  destruct (carries_machine _ _ Hcar) as [Hk1 Hb1]. rewrite Hpd1 in Hk1, Hb1. change ((Kmalloc.pages (heap k1)).2) with (machine k1) in Hk1, Hb1.
  assert (m_phnum (read_header (mem (machine k1)) E) = Z.of_nat (Datatypes.length segs)) as Hlen.
  { rewrite Kn. unfold segs, program_headers. rewrite length_fmap, length_seqZ. pose proof (load16_range (mem (machine k)) (E + 44)) as Hu. unfold is_u16 in Hu. cbn [m_phnum read_header]. lia. }
  destruct (load_segments_places n pd E f segs 0 (machine k1) (image_pages segs + m) n) as (s' & El & W' & Hh & Hfr' & Hla & Hpl);
    try done; try lia; [by eapply placed_grows, file_placed|apply Hfile| |apply Hfile|apply Hfile| |].
  { intros i ph [Hi ->]%program_headers_lookup. rewrite Z.add_0_l. destruct (Ka _ Hi) as [-> Er]. cbv zeta. rewrite Er.
    destruct (header_address_in_file _ _ _ _ _ Hfile Hi). done. }
  { pose proof (file_fits _ _ _ _ Hfile) as Hfit. rewrite Forall_forall in *. intros ph Hph. destruct (Hun ph Hph) as [Hlow Hu].
    destruct (Hfit ph Hph) as [_ ? _ ?]. by apply Hl. }
  rewrite El. cbn [mbind option_bind].
  pose proof (transitivity W W') as W2. destruct (program_file_kept _ _ _ _ _ Hfile W2) as (_ & -> & _).
  destruct (taskStart_appends mainTask (sched k1) p t (m_entry (read_header (mem (machine k)) E)))
    as (sc & t' & Hst & (Ha1 & Ha2 & Ha3) & Ht' & He' & Hc' & _); [done| |].
  { rewrite Hs. cbn. apply lookup_insert_is_Some'. by right. }
  rewrite Hst. eexists. split; [done|].
  set (k' := MkKernel _ _). assert (appended p (sched k) (sched k')) as Hap.
  { rewrite Hs in Ha1, Ha2. split; [|done]. intros q tq Hq E1. apply (Ha1 q tq Hq). cbn. by rewrite lookup_insert_ne. }
  assert (starts_at (sched k') p (m_entry (read_header (mem (machine k)) E)) pd) as Hat by (exists t'; by rewrite Hc').
  split; [|split].
  - eapply appended_serving; [exact Hsrv|exact Hap|exact Hat| |exact Hpd1].
    destruct (Hh Hb1) as [Hb' Hho]. eapply heap_machine; [exact Hcar|exact Hpd1|by eapply grows_inv|done|exact Hho].
  - exact W2.
  - exact Hpl.
  - change (frame_run (phys s') m). by replace m with (image_pages segs + m - image_pages segs) by lia.
  - intros v j Hvb Hva Hvj Hcl Hr. apply Hla; [lia|done|done|done|by apply Hl].
  - exact Hap.
  - exact Hat.
Qed.

(** C2: a program starts as its file says.  Take an accepted ELF file that is mapped in the kernel's
    address space, with its program headers inside it and asking for different pages; and room:
    frames in a row for the segments, a heap region and a stack, and unmapped pages for the last
    two below those of the segments.  Then load succeeds.  The heap carries the new task beside its
    old blocks, what was mapped is as it was, every segment has fresh frames of its own at its
    address with exactly the bytes the file has for it, and switching to the task runs at the
    file's entry point in the address space the segments are in. *)
Theorem program_starts (lay : Layout) (mainTask : Z) (old : Scheduler.Task) (k : Kernel) (B : list (Z * Z)) (E length : Z) (f : list Z) :
  let pd := kernelPageDirectory lay in
  let segs := program_headers (mem (machine k)) E in
  serving lay mainTask k B -> program_file (machine k) pd E f -> (verifyElfHeader (mem (machine k)) E).1 = true ->
  program_room (machine k) pd segs ->
  exists n p k', p <> 0 /\ (forall fuel, (n <= fuel)%nat -> load fuel lay mainTask old E length k = Some (true, k')) /\
    carries (S := Z * MM) (heap k') ((p, TASK_SIZE) :: B) /\ grows pd (machine k) (machine k') /\
    Forall (fun ph => exists q, placed (machine k') pd (m_vaddr ph) q (segment_bytes f ph)) segs /\
    forall q tq, Scheduler.tasks (sched k') !! q = Some tq -> q <> p ->
      exists sc, Scheduler.switchTask (sched k') q p = Scheduler.Ret sc /\
        Scheduler.eip (Scheduler.cpu sc) = m_entry (read_header (mem (machine k)) E) /\ Scheduler.cr3 (Scheduler.cpu sc) = pd.
Proof.
  intros pd segs Hsrv Hfile Hver (Hfr & b & Hb & Hba & Hbn & Hfree & Hun).
  destruct (load_program lay mainTask old k B E length f 0 b) as (n & p & k' & Hp & El & Hsrv' & [W Hpl _ _ _ (t & Ht & He & Hc)]);
    try done; [by rewrite Z.add_0_r|].
  exists n, p, k'. split; [done|]. split; [done|]. split; [apply Hsrv'|]. split; [done|]. split; [done|].
  intros q tq Hq Hne. destruct (switch_into _ q p tq t Hq Ht Hne) as (sc & E1 & E2 & E3). exists sc. by rewrite E2, E3.
Qed.

(** ** A concrete file *)

(** A jump to itself at 6 MiB, in a file at 5 MiB: the header, one program header, the code. *)
Definition ex_program : list Z :=
  [0x7F; 0x45; 0x4C; 0x46; 1; 1; 1] ++ replicate 9 0 ++ [2; 0; 3; 0; 1; 0; 0; 0] ++ [0; 0; 0x60; 0] ++ [52; 0; 0; 0] ++
  replicate 8 0 ++ [52; 0; 32; 0; 1; 0] ++ replicate 6 0 ++
  [1; 0; 0; 0] ++ [84; 0; 0; 0] ++ [0; 0; 0x60; 0] ++ replicate 4 0 ++ [2; 0; 0; 0; 2; 0; 0; 0] ++ replicate 8 0 ++ [0xEB; 0xFE].
Definition ex_at : Z := 5242880.

(** The page it stands in, with the module table of the boot loader behind the file. *)
Definition ex_page : list Z := ex_program ++ replicate 42 0 ++ [0; 0; 0x50; 0; 86; 0; 0x50; 0] ++ replicate 8 0.

(** The machine without a mapping, with the file's page mapped to itself, and with the page's bytes. *)
Definition ex_mapped : MM :=
  map_entry (with_phys ex_mm (physicalAllocateAt (phys ex_mm) ex_at 1)) ex_pd ex_at ex_at false.
Definition ex_loaded : MM :=
  with_mem ex_mapped (fun a => if (ex_at <=? a) && (a <? ex_at + 144) then nth (Z.to_nat (a - ex_at)) ex_page 0 else mem ex_mapped a).

Lemma translate_with_phys s d pd v : translate (with_phys s d) pd v = translate s pd v.
Proof. reflexivity. Qed.

Lemma ex_page_free : not_paging ex_mm ex_pd ex_at.
Proof. apply free_frame_not_paging; [apply ex_kernel_inv|vm_compute; reflexivity]. Qed.

Lemma ex_used : used (phys ex_loaded) 1280 = true.
Proof. vm_compute. reflexivity. Qed.

Lemma ex_loaded_maps : same_dir ex_mm ex_loaded ex_pd /\
  forall v, is_u32 v -> translate ex_loaded ex_pd v = if v / 4096 =? 1280 then Some v else None.
Proof.
  set (s0 := with_phys ex_mm (physicalAllocateAt (phys ex_mm) ex_at 1)). pose proof (proj1 (inv_dir _ _ ex_kernel_inv)) as Hw.
  assert (wf_dir s0 ex_pd) as Hw0 by (by eapply (wf_dir_same ex_mm)).
  destruct (map_entry_mapped s0 ex_pd ex_at ex_at false Hw0) as (_ & _ & _ & D1 & T1 & _); [unfold is_u32, ex_at; lia..|by apply ex_kernel_inv|].
  change (map_entry s0 _ _ _ _) with ex_mapped in *.
  assert (same_dir ex_mm ex_mapped ex_pd) as D by exact D1.
  destruct (write_page_outside ex_mapped (mem ex_loaded) ex_pd ex_at) as [D2 T2]; [by eapply (wf_dir_same ex_mm)|unfold ex_at; lia|done|
    eapply not_paging_same; [exact D|exact ex_page_free]| |].
  { intros a Ha Hout. unfold loadb. f_equal. rewrite u32_small by done. cbn [mem ex_loaded with_mem].
    unfold ex_at in *. by rewrite (proj2 (andb_false_iff _ _)) by (rewrite Z.leb_gt, Z.ltb_ge; lia). }
  change (with_mem ex_mapped (mem ex_loaded)) with ex_loaded in *. split; [intros i Hi; by rewrite D2, D|].
  intros v Hv. rewrite T2, T1 by done. unfold s0. rewrite translate_with_phys, ex_no_page by done.
  unfold in_pages, mapped_to, ex_at. change (5242880 / 4096) with 1280. destruct (Z.eqb_spec (v / 4096) 1280) as [Ev|Hne].
  - rewrite Ev. simpl. f_equal. clear -Ev. zlia.
  - zcases.
Qed.

Lemma ex_loaded_unmapped v k : 0 <= v -> v + k * 4096 <= 4294967296 -> v mod 4096 = 0 -> v + k * 4096 <= ex_at \/ ex_at + 4096 <= v ->
  run_free ex_loaded ex_pd v k.
Proof.
  intros Hv Hvk Hva Ho j Hj. pose proof (proj2 ex_loaded_maps (v + j * 4096) ltac:(unfold is_u32; lia)) as E. unfold translate in E.
  rewrite (proj2 (Z.eqb_neq _ _)) in E by (unfold ex_at in Ho; clear -Hva Ho Hj; zlia). by destruct (IsPagePresent _ _ _).
Qed.

Lemma ex_loaded_inv : pages_inv (PageLaws := kernel_page_laws) (ex_pd, ex_loaded).
Proof.
  destruct ex_loaded_maps as [D T]. split; simpl.
  - eapply kernel_inv_mono; [exact ex_kernel_inv|exact D|]. intros q Hq.
    change (phys ex_loaded) with (physicalAllocateAt (phys ex_mm) ex_at 1). by rewrite used_allocateAt, Hq, orb_true_r.
  - intros v x Hv. rewrite T by done. destruct (Z.eqb_spec (v / 4096) 1280) as [Ev|]; [|done]. intros [= <-]. rewrite Ev. exact ex_used.
Qed.

Lemma ex_program_bytes : forallb (fun i => loadb (mem ex_loaded) (ex_at + i) =? nth (Z.to_nat i) ex_program 0) (seqZ 0 86) = true.
Proof. vm_compute. reflexivity. Qed.

Lemma ex_program_placed : placed ex_loaded ex_pd ex_at ex_at ex_program.
Proof.
  split; [done|]. split; [done|]. intros i b Hb x. pose proof (lookup_lt_Some _ _ _ Hb) as Hi. change (length ex_program) with 86%nat in Hi.
  assert (x / 4096 = 1280) as Ex by (unfold x, ex_at; clear -Hi; zlia). assert (is_u32 x) as Hx by (unfold x, ex_at, is_u32; lia).
  fold x. destruct ex_loaded_maps as [D T]. rewrite T by done. rewrite Ex, Z.eqb_refl. split; [done|]. split; [done|].
  split; [|split; [exact ex_used|]].
  - eapply not_paging_same; [exact D|]. destruct ex_page_free as [N1 N2]. unfold not_paging. rewrite Ex. by split.
  - pose proof ex_program_bytes as Hp. rewrite forallb_forall in Hp. specialize (Hp (Z.of_nat i)). rewrite Z.eqb_eq in Hp.
    unfold x. rewrite Hp by (apply list_elem_of_In, elem_of_seqZ; lia). rewrite Nat2Z.id. by apply nth_lookup_Some.
Qed.

Lemma ex_headers : program_headers (mem ex_loaded) ex_at = [MkPh 1 84 6291456 2].
Proof. vm_compute. reflexivity. Qed.

Lemma ex_program_file : program_file ex_loaded ex_pd ex_at ex_program.
Proof.
  split; [exact ex_program_placed|done|by vm_compute|by vm_compute|rewrite ex_headers..].
  - constructor; [|constructor]. by split; vm_compute.
  - repeat constructor.
Qed.

Lemma ex_room_frames : forallb (fun q => negb (used (phys ex_loaded) q)) (seqZ 1281 18) = true.
Proof. vm_compute. reflexivity. Qed.

Lemma ex_program_room : program_room ex_loaded ex_pd (program_headers (mem ex_loaded) ex_at).
Proof.
  rewrite ex_headers. split.
  - exists 1281. split; [done|]. split; [by vm_compute|]. split; [by vm_compute|]. intros q Hq. pose proof ex_room_frames as H.
    rewrite forallb_forall in H. apply negb_true_iff, H, list_elem_of_In, elem_of_seqZ. change (image_pages _) with 1 in Hq. lia.
  - exists 1048576. do 3 (split; [done|]). split; [apply ex_loaded_unmapped; unfold ex_at; lia || done|].
    constructor; [|constructor]. split; [done|]. apply ex_loaded_unmapped; unfold ex_at; cbn; lia || done.
Qed.

Definition ex_kernel_with_file : Kernel := MkKernel (sched ex_kernel) (boot (ex_pd, ex_loaded)).

Lemma ex_serving : serving (MkLayout ex_pd 0 0 0) 4096 ex_kernel_with_file [].
Proof. split; [apply boot_carries, ex_loaded_inv|done|by eexists|by eexists|by eexists]. Qed.

Lemma program_starts_witness : exists n p k' q, p <> 0 /\
  (forall fuel, (n <= fuel)%nat -> load fuel (MkLayout ex_pd 0 0 0) 4096 ex_task ex_at 86 ex_kernel_with_file = Some (true, k')) /\
  placed (machine k') ex_pd 6291456 q [0xEB; 0xFE].
Proof.
  destruct (program_starts (MkLayout ex_pd 0 0 0) 4096 ex_task ex_kernel_with_file [] ex_at 86 ex_program)
    as (n & p & k' & Hp & Hn & _ & _ & Hpl & _); [exact ex_serving|exact ex_program_file|by vm_compute|exact ex_program_room|].
  change (mem (machine ex_kernel_with_file)) with (mem ex_loaded) in Hpl. rewrite ex_headers in Hpl.
  apply Forall_cons in Hpl as [(q & Hq) _]. exists n, p, k', q. split; [exact Hp|]. split; [exact Hn|exact Hq].
Defined.

End ElfLoad.
