(* ===== verification/Modules.v ===== *)
(** Multiboot::loadModules of Kernel/Multiboot.cpp on the machine that MemoryManager::init leaves:
    the program files the boot loader brought along become tasks. *)

From S2P Require Import Prelude PhysicalAllocator VirtualMemory MemoryManager AddressSpace Scheduler.
From S2P Require Import Kmalloc KmallocHeap KmallocSpec KmallocClient KernelHeap Boot BootMemory Tasks ElfLoad.

Module Modules.
Import PhysicalAllocator VirtualMemory MemoryManager AddressSpace KmallocHeap KmallocSpec KmallocClient KernelHeap.
Import BootMemory Tasks ElfLoad.

(** ** Mapping again what is mapped *)

(** The same frames in use, the same translations, the same bytes outside the paging structures. *)
Record same_space (pd : Z) (s s' : MM) : Prop := {
  ss_used : forall q, used (phys s') q = used (phys s) q;
  ss_total : TotalMemory (phys s') = TotalMemory (phys s);
  ss_dir : same_dir s s' pd;
  ss_translate : forall v, is_u32 v -> translate s' pd v = translate s pd v;
  ss_bytes : forall x, is_u32 x -> not_paging s pd x -> loadb (mem s') x = loadb (mem s) x
}.

Lemma with_log_space pd s l : same_space pd s (with_log s l).
Proof. by split. Qed.

Section SameSpace.
Context (pd : Z) (s s' : MM) (H : same_space pd s s').

Lemma space_grows : grows pd s s'.
Proof.
  destruct H as [U _ D T M]. split; [done| | |by auto].
  - intros q. by rewrite U.
  - intros v x Hv. by rewrite T.
Qed.
Lemma space_hosts : hosts pd s s'.
Proof.
  intros Hb. destruct H as [U _ D T _]. split; [|intros a n; by apply holds_same].
  intros v x Hv E. rewrite U. rewrite T in E by done. by eapply Hb.
Qed.
Lemma space_frame_run n : frame_run (phys s) n -> frame_run (phys s') n.
Proof.
  intros (f & F0 & F1 & F2 & Hf). exists f. rewrite (ss_total _ _ _ H). split; [done|]. split; [done|]. split; [done|].
  intros q Hq. rewrite (ss_used _ _ _ H). auto.
Qed.
Lemma space_run_free v k : 0 <= v -> v + k * 4096 <= 4294967296 -> run_free s pd v k -> run_free s' pd v k.
Proof. apply same_translate_run_free, H. Qed.
End SameSpace.

Lemma identityMap_again fuel s pd a size :
  kernel_inv s pd -> 0 <= a -> a mod 4096 = 0 -> 0 <= size -> a + page_count size * 4096 <= 1073741824 ->
  (forall v, is_u32 v -> in_range (a / 4096) (page_count size) (v / 4096) = true ->
     translate s pd v = Some v /\ used (phys s) (v / 4096) = true) ->
  exists s', identityMap (S fuel) s pd a size = Some s' /\ same_space pd s s'.
Proof.
  intros Hk Ha Haa Hs Hn Hm. destruct (identityMap_spec fuel s pd a size (inv_dir _ _ Hk) Ha Haa Hs Hn) as (s' & E & _ & [I1 I2 I3 I4 I5 I6]).
  exists s'. split; [exact E|]. split; [|done|done| |intros x Hx [_ Hx2]; by apply I6].
  - intros q. rewrite I1. destruct (in_range _ _ q) eqn:Eq; [|done]. symmetry. simpl.
    apply in_range_iff in Eq as Hq. pose proof (Hm (q * 4096)) as Hu. rewrite Z.div_mul in Hu by lia.
    apply Hu; [unfold is_u32; clear -Hq Ha Hn Haa; zlia|done].
  - intros v Hv. rewrite I5 by done. destruct (in_range _ _ _) eqn:Eq; [|done]. symmetry. by apply Hm.
Qed.

Lemma serving_space lay mainTask k B s' :
  serving lay mainTask k B -> same_space (kernelPageDirectory lay) (machine k) s' ->
  serving lay mainTask (MkKernel (sched k) (with_machine (heap k) s')) B.
Proof.
  intros [Hc Hpd Hr Hm Ht] Hs. split; try done. destruct (carries_machine _ _ Hc) as [Hk Hb]. rewrite Hpd in Hk, Hb.
  destruct (space_hosts _ _ _ Hs Hb) as [Hb' Hh]. eapply heap_machine; [exact Hc|exact Hpd| |exact Hb'|exact Hh].
  eapply grows_inv; [exact Hk|by apply space_grows].
Qed.

Lemma serving_blocks lay mainTask k B B' : serving lay mainTask k B -> B' ≡ₚ B -> serving lay mainTask k B'.
Proof. intros [Hc ? ? ? ?] HB. split; try done. by rewrite HB. Qed.

(** ** Program files that stay *)

Lemma verifyElfHeader_ext m m' E : (forall j, 0 <= j < 20 -> loadb m' (E + j) = loadb m (E + j)) ->
  verifyElfHeader m' E = verifyElfHeader m E.
Proof.
  intros H. unfold verifyElfHeader, read_header, load16. cbn [m_ident m_machine m_type]. rewrite <- !Z.add_assoc. cbn [Z.add Pos.add Pos.succ].
  pose proof (H 0 ltac:(lia)) as H0. rewrite Z.add_0_r in *. by rewrite ?H0, !H by lia.
Qed.

Lemma program_file_grows pd s s' E f : program_file s pd E f -> grows pd s s' ->
  program_file s' pd E f /\ program_headers (mem s') E = program_headers (mem s) E /\
  verifyElfHeader (mem s') E = verifyElfHeader (mem s) E.
Proof.
  intros Hf W. destruct (program_file_kept _ _ _ _ _ Hf W) as (En & _ & Ea). destruct Hf as [P H T N F A].
  pose proof (placed_grows _ _ _ _ _ _ W P) as P'.
  assert (program_headers (mem s') E = program_headers (mem s) E) as Eh.
  { unfold program_headers. rewrite En. apply list_fmap_ext. intros i x [-> Hi]%lookup_seqZ. rewrite Z.add_0_l.
    destruct (Ea (Z.of_nat i) ltac:(lia)) as [-> Er]. exact Er. }
  split; [|split; [done|]].
  - assert (m_phoff (read_header (mem s') E) = m_phoff (read_header (mem s) E)) as Eo by (apply (placed_load32 pd s s' E f); (done || lia)).
    assert (m_phentsize (read_header (mem s') E) = m_phentsize (read_header (mem s) E)) as Ez by (apply (placed_load16 pd s s' E f); (done || lia)).
    split; [done|done|by rewrite Eo, Ez, En|by rewrite En, Ez|by rewrite Eh|by rewrite Eh].
  - apply verifyElfHeader_ext. intros j Hj. apply (placed_same_bytes pd s s' E E E f); (done || lia).
Qed.

(** A program file of the boot loader, and the headers and the entry point in it. *)
Record ModuleFile := MkFile { start : Z; content : list Z; headers : list ElfProgramHeader; entry : Z }.
Definition file_size (md : ModuleFile) : Z := Z.of_nat (length (content md)).

(** The file is in memory, mapped to itself by whole pages, and the module table has it at [a]. *)
Record module_in (s : MM) (pd a : Z) (md : ModuleFile) : Prop := {
  mi_table : forall j, 0 <= j < 16 -> is_u32 (a + j) /\ not_paging s pd (a + j) /\ used (phys s) ((a + j) / 4096) = true;
  mi_read : Boot.read_module (mem s) a = Boot.MkModule (start md) (start md + file_size md);
  mi_file : program_file s pd (start md) (content md);
  mi_headers : program_headers (mem s) (start md) = headers md;
  mi_entry : m_entry (read_header (mem s) (start md)) = entry md;
  mi_accepted : (verifyElfHeader (mem s) (start md)).1 = true;
  mi_aligned : start md mod 4096 = 0;
  mi_bound : start md + page_count (file_size md) * 4096 <= 1073741824;
  mi_mapped : forall v, is_u32 v -> in_range (start md / 4096) (page_count (file_size md)) (v / 4096) = true ->
    translate s pd v = Some v /\ used (phys s) (v / 4096) = true
}.

Lemma module_in_grows pd s s' a md : module_in s pd a md -> grows pd s s' -> module_in s' pd a md.
Proof.
  intros [Mt Mr Mf Mh Me Ma Mal Mb Mm] W. destruct (program_file_grows _ _ _ _ _ Mf W) as (Pf & Ph & Pv).
  destruct (program_file_kept _ _ _ _ _ Mf W) as (_ & Pe & _). split; try done; try congruence.
  - intros j Hj. destruct (Mt j Hj) as (H1 & H2 & H3). split; [done|]. split; [by eapply not_paging_same; [apply W|]|by apply W].
  - rewrite <- Mr. assert (forall j, 0 <= j < 16 -> loadb (mem s') (a + j) = loadb (mem s) (a + j)) as Hj.
    { intros j Hj. destruct (Mt j Hj) as (H1 & H2 & H3). by apply W. }
    unfold Boot.read_module, load32. rewrite <- !Z.add_assoc. cbn [Z.add Pos.add Pos.succ].
    pose proof (Hj 0 ltac:(lia)) as H0. rewrite Z.add_0_r in H0. by rewrite H0, !Hj by lia.
  - intros v Hv Hin. destruct (Mm v Hv Hin) as [M1 M2]. split; by apply W.
Qed.

(** ** Room for all of them *)

Definition all_headers (mods : list ModuleFile) : list ElfProgramHeader := mjoin (headers <$> mods).
Definition modules_frames (mods : list ModuleFile) : Z := foldr (fun md n => 17 + image_pages (headers md) + n) 0 mods.
Definition modules_pages (mods : list ModuleFile) : Z := 17 * Z.of_nat (length mods).

(** The module table stands at [a]; frames in a row for a heap region, a stack and the segments of
    each file; unmapped pages from [b] on for regions and stacks, and behind them the segments of
    all the files, apart from each other. *)
Record modules_ready (s : MM) (pd a b : Z) (mods : list ModuleFile) : Prop := {
  mr_modules : forall i md, mods !! i = Some md -> module_in s pd (a + 16 * Z.of_nat i) md;
  mr_frames : frame_run (phys s) (modules_frames mods);
  mr_low : 1048576 <= b;
  mr_aligned : b mod 4096 = 0;
  mr_high : b + modules_pages mods * 4096 <= 1073741824;
  mr_free : run_free s pd b (modules_pages mods);
  mr_unmapped : Forall (fun ph => b + modules_pages mods * 4096 <= m_vaddr ph /\ unmapped s pd ph) (all_headers mods);
  mr_apart : ForallOrdPairs pages_apart (all_headers mods)
}.

Lemma ForallOrdPairs_app {A} (R : A -> A -> Prop) l1 l2 : ForallOrdPairs R (l1 ++ l2) ->
  ForallOrdPairs R l1 /\ ForallOrdPairs R l2 /\ forall x y, x ∈ l1 -> y ∈ l2 -> R x y.
Proof.
  induction l1 as [|x l1 IH]; intros H; [split; [constructor|split; [done|by intros ? ? ?%not_elem_of_nil]]|].
  inversion H as [|? ? Hx Hl]; subst. destruct (IH Hl) as (H1 & H2 & H3). apply Forall_app in Hx as [Hx1 Hx2].
  split; [by constructor|]. split; [done|]. intros y z [->|Hy]%elem_of_cons Hz; [by eapply Forall_forall|by apply H3].
Qed.

Lemma modules_frames_nonneg mods : (forall md, md ∈ mods -> 0 <= image_pages (headers md)) -> 0 <= modules_frames mods.
Proof.
  induction mods as [|md mods IH]; intros H; [done|]. cbn [modules_frames foldr]. fold (modules_frames mods).
  pose proof (H md ltac:(left)). specialize (IH (fun m Hm => H m ltac:(by right))). lia.
Qed.

Lemma module_image_nonneg s pd a md : module_in s pd a md -> 0 <= image_pages (headers md).
Proof.
  intros H. rewrite <- (mi_headers _ _ _ _ H). apply image_pages_nonneg, Forall_lookup. intros i ph [_ ->]%program_headers_lookup.
  apply read_program_header_range.
Qed.

Lemma ready_images s pd a b mods : modules_ready s pd a b mods -> forall md, md ∈ mods -> 0 <= image_pages (headers md).
Proof. intros H md [i Hi]%list_elem_of_lookup. eapply module_image_nonneg, (mr_modules _ _ _ _ _ H _ _ Hi). Qed.

Lemma ready_fits s pd a b mods : modules_ready s pd a b mods ->
  forall ph, ph ∈ all_headers mods -> m_vaddr ph mod 4096 = 0 /\ m_vaddr ph + segment_pages ph * 4096 <= 1073741824.
Proof.
  intros H ph (l & Hl & (md & -> & [i Hi]%list_elem_of_lookup)%list_elem_of_fmap)%list_elem_of_join.
  pose proof (mr_modules _ _ _ _ _ H _ _ Hi) as Hm. pose proof (file_fits _ _ _ _ (mi_file _ _ _ _ Hm)) as Hf.
  rewrite (mi_headers _ _ _ _ Hm) in Hf. rewrite Forall_forall in Hf. destruct (Hf ph Hl) as [_ ? _ ?]. done.
Qed.

Lemma ready_space pd s s' a b mods : modules_ready s pd a b mods -> same_space pd s s' -> modules_ready s' pd a b mods.
Proof.
  intros Hr Hs. pose proof (ready_fits _ _ _ _ _ Hr) as Hfit. destruct Hr as [Hm Hf Hb Hba Hbn Hfree Hu Ha].
  split; try done.
  - intros i md Hi. eapply module_in_grows; [by apply Hm|by apply space_grows].
  - by eapply space_frame_run.
  - by eapply space_run_free; [exact Hs|lia|lia|].
  - rewrite Forall_forall in *. intros ph Hph. destruct (Hu ph Hph) as [H1 H2], (Hfit ph Hph) as [_ H3]. split; [done|].
    eapply space_run_free; [exact Hs|unfold modules_pages in *; lia|lia|exact H2].
Qed.

(** After the first file is loaded there is room for the others. *)
Lemma ready_next pd k k' a b md mods p :
  modules_ready (machine k) pd a b (md :: mods) -> loaded k k' pd (start md) (content md) p (modules_frames mods) (b + 69632) ->
  modules_ready (machine k') pd (a + 16) (b + 69632) mods.
Proof.
  intros Hr [W _ Hfr Hpg _ _]. pose proof (ready_fits _ _ _ _ _ Hr) as Hfit. destruct Hr as [Hm _ Hb Hba Hbn Hfree Hu Ha].
  rewrite (mi_headers _ _ _ _ (Hm 0%nat md eq_refl)) in Hpg.
  change (all_headers (md :: mods)) with (headers md ++ all_headers mods) in *.
  assert (modules_pages (md :: mods) = 17 + modules_pages mods) as En by (unfold modules_pages; cbn [length]; lia).
  assert (0 <= modules_pages mods) as Hn0 by (unfold modules_pages; lia). rewrite En in *.
  apply ForallOrdPairs_app in Ha as (_ & Ha2 & Ha12). apply Forall_app in Hu as [Hu1 Hu2].
  split; [|done|lia|clear -Hba; zlia|lia| | |done].
  - intros i md' Hi. eapply module_in_grows; [|exact W]. specialize (Hm (S i) md' Hi). by replace (a + 16 + 16 * Z.of_nat i) with (a + 16 * Z.of_nat (S i)) by lia.
  - apply Hpg; [lia|clear -Hba; zlia|lia| |].
    + eapply Forall_impl; [exact Hu1|]. intros ph [H1 _]. left. lia.
    + intros j Hj. specialize (Hfree (17 + j) ltac:(lia)). by replace (b + 69632 + j * 4096) with (b + (17 + j) * 4096) by lia.
  - rewrite Forall_forall in Hu1, Hu2 |- *. intros ph Hph. destruct (Hu2 ph Hph) as [H1 H2]. split; [lia|].
    destruct (Hfit ph ltac:(apply elem_of_app; by right)) as [F1 F2]. apply Hpg; [lia|done|done| |exact H2].
    apply Forall_forall. intros ph1 Hph1. specialize (Ha12 ph1 ph Hph1 Hph). unfold pages_apart, clear_of in *. lia.
Qed.

(** ** The loop *)

(** The task [p] runs the file: it starts at its entry point, and the segments are in memory. *)
Definition runs (lay : Layout) (k : Kernel) (md : ModuleFile) (p : Z) : Prop :=
  p <> 0 /\ starts_at (sched k) p (entry md) (kernelPageDirectory lay) /\
  Forall (fun ph => exists q, placed (machine k) (kernelPageDirectory lay) (m_vaddr ph) q (segment_bytes (content md) ph)) (headers md).

(** Where blocks of [k] are tasks with an entry point, they are in [k']. *)
Definition keeps_tasks (lay : Layout) (k k' : Kernel) (B : list (Z * Z)) : Prop :=
  forall p e, (p, TASK_SIZE) ∈ B -> starts_at (sched k) p e (kernelPageDirectory lay) -> starts_at (sched k') p e (kernelPageDirectory lay).

Lemma new_block_apart (h : Kmalloc.Heap (Z * MM)) B p q z w : carries h ((p, z) :: B) -> (q, w) ∈ B -> q <> p.
Proof.
  intros Hc Hq ->. destruct (carries_layout _ _ Hc) as [Ha Hk]. apply list_elem_of_lookup in Hq as [i Hi].
  destruct (Hk p z ltac:(left)) as (_ & Hz & _). destruct (Hk p w ltac:(right; by eapply list_elem_of_lookup_2)) as (_ & Hw & _).
  destruct (apart_lookup _ 0 (S i) p z p w Ha ltac:(lia) eq_refl Hi Hz Hw); lia.
Qed.

Lemma appended_keeps lay k k' p B B' :
  appended p (sched k) (sched k') -> carries (S := Z * MM) (heap k') ((p, TASK_SIZE) :: B') -> B ⊆ B' -> keeps_tasks lay k k' B.
Proof.
  intros (Ha & _) Hc HB q e Hq (t & Ht & He & Hd). pose proof (new_block_apart _ _ _ _ _ _ Hc (HB _ Hq)) as Hne.
  destruct (Ha q t Hne Ht) as (t' & Ht' & Er). exists t'. by rewrite Er.
Qed.

(** One round: the file is mapped again and loaded. *)
Lemma load_module lay mainTask old k B a b md mods :
  let pd := kernelPageDirectory lay in
  serving lay mainTask k B -> modules_ready (machine k) pd a b (md :: mods) ->
  exists n p s k', (forall fuel, (n <= fuel)%nat -> identityMap fuel (machine k) pd (start md) (file_size md) = Some s /\
      load fuel lay mainTask old (start md) (file_size md) (MkKernel (sched k) (with_machine (heap k) s)) = Some (true, k')) /\
    serving lay mainTask k' ((p, TASK_SIZE) :: B) /\ modules_ready (machine k') pd (a + 16) (b + 69632) mods /\
    grows pd (machine k) (machine k') /\ runs lay k' md p /\ keeps_tasks lay k k' B.
Proof.
  intros pd Hsrv Hr. pose proof (mr_modules _ _ _ _ _ Hr 0%nat md eq_refl) as Hm.
  destruct (carries_machine _ _ (srv_heap _ _ _ _ Hsrv)) as [Hk _]. rewrite (srv_dir _ _ _ _ Hsrv) in Hk.
  destruct (identityMap_again 0 (machine k) pd (start md) (file_size md)) as (s & Es & Hs); try apply Hm; try done; [unfold file_size; lia|].
  set (k1 := MkKernel (sched k) (with_machine (heap k) s)).
  pose proof (serving_space _ _ _ _ _ Hsrv Hs : serving lay mainTask k1 B) as Hsrv1.
  pose proof (ready_space _ _ _ _ _ _ Hr Hs : modules_ready (machine k1) pd a b (md :: mods)) as Hr1.
  pose proof (mr_modules _ _ _ _ _ Hr1 0%nat md eq_refl) as Hm1. pose proof (mi_headers _ _ _ _ Hm1) as Eh.
  pose proof (modules_frames_nonneg mods (fun m H => ready_images _ _ _ _ _ Hr1 m ltac:(by right))) as Hn0.
  assert (17 <= modules_pages (md :: mods)) as H17 by (unfold modules_pages; cbn [length]; lia).
  destruct (load_program lay mainTask old k1 B (start md) (file_size md) (content md) (modules_frames mods) b) as (n & p & k' & Hp & El & Hsrv' & Hl);
    try apply Hr1; try apply Hm1; try done.
  { rewrite Eh. exact (mr_frames _ _ _ _ _ Hr1). }
  { pose proof (mr_high _ _ _ _ _ Hr1). lia. }
  { intros j Hj. apply (mr_free _ _ _ _ _ Hr1). lia. }
  { rewrite Eh. pose proof (mr_unmapped _ _ _ _ _ Hr1) as Hu. change (all_headers (md :: mods)) with (headers md ++ all_headers mods) in Hu.
    apply Forall_app in Hu as [Hu _]. eapply Forall_impl; [exact Hu|]. intros ph [H1 H2]. split; [lia|done]. }
  exists (S n), p, s, k'. split; [intros fuel Hf; split; [eapply identityMap_mono; [exact Es|lia]|apply El; lia]|].
  split; [exact Hsrv'|]. split; [by eapply ready_next|]. destruct Hl as [W Hpl _ _ Hap Hat]. rewrite Eh in Hpl.
  split; [etransitivity; [by apply space_grows|exact W]|]. split.
  - split; [done|]. split; [|exact Hpl]. rewrite <- (mi_entry _ _ _ _ Hm1). exact Hat.
  - eapply (appended_keeps lay k k' p B B); [exact Hap|apply Hsrv'|done].
Qed.

Lemma runs_kept lay k k' md p B : runs lay k md p -> grows (kernelPageDirectory lay) (machine k) (machine k') ->
  keeps_tasks lay k k' B -> (p, TASK_SIZE) ∈ B -> runs lay k' md p.
Proof.
  intros (Hp & Hs & Hpl) W Hk HB. split; [done|]. split; [by eapply Hk|]. eapply Forall_impl; [exact Hpl|].
  intros ph [q Hq]. exists q. by eapply placed_grows.
Qed.

Definition task_blocks (ps : list Z) : list (Z * Z) := (fun p => (p, TASK_SIZE)) <$> ps.

Lemma loadModules_loop_runs lay mainTask old : forall mods k B a b,
  serving lay mainTask k B -> modules_ready (machine k) (kernelPageDirectory lay) a b mods ->
  exists n ps k', (forall fuel, (n <= fuel)%nat -> loadModules_loop fuel (length mods) lay mainTask old a k = Some k') /\
    serving lay mainTask k' (task_blocks ps ++ B) /\ grows (kernelPageDirectory lay) (machine k) (machine k') /\
    Forall2 (runs lay k') mods ps /\ keeps_tasks lay k k' B.
Proof.
  induction mods as [|md mods IH]; intros k B a b Hsrv Hr.
  { exists 0%nat, [], k. split; [done|]. split; [done|]. split; [done|]. split; [constructor|by intros p e]. }
  destruct (load_module lay mainTask (old (length mods)) k B a b md mods Hsrv Hr) as (n1 & p & s & k1 & E1 & Hsrv1 & Hr1 & W1 & Hrun & K1).
  assert (modules_ready (machine k1) (kernelPageDirectory lay) (u32 (a + 16)) (b + 69632) mods) as Hr2.
  { destruct mods as [|md2 mods]; [by destruct Hr1|]. rewrite u32_small; [done|].
    pose proof (mr_modules _ _ _ _ _ Hr1 0%nat md2 eq_refl) as Hm2. destruct (mi_table _ _ _ _ Hm2 0 ltac:(lia)) as (Hu & _).
    change (16 * Z.of_nat 0) with 0 in Hu. by rewrite !Z.add_0_r in Hu. }
  destruct (IH k1 ((p, TASK_SIZE) :: B) (u32 (a + 16)) (b + 69632) Hsrv1 Hr2) as (n2 & ps & k' & E2 & Hsrv2 & W2 & Hruns & K2).
  exists (Nat.max n1 n2), (p :: ps), k'. pose proof (mr_modules _ _ _ _ _ Hr 0%nat md eq_refl) as Hm.
  change (16 * Z.of_nat 0) with 0 in Hm. rewrite Z.add_0_r in Hm. split; [|split; [|split; [by etransitivity|split]]].
  - intros fuel Hf. cbn [loadModules_loop length]. rewrite (mi_read _ _ _ _ Hm). cbn [Boot.modStart Boot.modEnd].
    destruct (E1 fuel ltac:(lia)) as [Ei El]. destruct (file_placed _ _ _ _ (mi_file _ _ _ _ Hm)) as (P0 & P1 & _).
    assert (u32 (start md + file_size md - start md) = file_size md) as ->.
    { rewrite u32_small; [lia|]. unfold is_u32, file_size in *. lia. }
    rewrite Ei, El. cbn [mbind option_bind]. apply E2. lia.
  - eapply serving_blocks; [exact Hsrv2|]. unfold task_blocks. cbn [fmap list_fmap app]. apply Permutation_middle.
  - constructor; [|done]. eapply runs_kept; [exact Hrun|exact W2|exact K2|left].
  - intros q e Hq Hs. apply K2; [by right|]. by apply K1.
Qed.

Lemma task_blocks_distinct (h : Kmalloc.Heap (Z * MM)) ps B : carries h (task_blocks ps ++ B) -> NoDup ps.
Proof.
  intros [Ha _]%carries_layout. apply NoDup_alt. intros i j p Hi Hj. destruct (decide (i = j)) as [|Hij]; [done|]. exfalso.
  assert (forall k, ps !! k = Some p -> (task_blocks ps ++ B) !! k = Some (p, TASK_SIZE)) as H.
  { intros k Hk. rewrite lookup_app_l; [by apply list_lookup_fmap_Some; eauto|]. unfold task_blocks. rewrite length_fmap. by eapply lookup_lt_Some. }
  destruct (apart_lookup _ i j p TASK_SIZE p TASK_SIZE Ha Hij (H i Hi) (H j Hj)); unfold TASK_SIZE in *; lia.
Qed.

(** C3: the programs the boot loader brings along run.  Take a kernel in which every file of the
    module table is an accepted ELF file, mapped to itself as reserveModuleMemory leaves it, and
    room: frames in a row for the segments of all files and for a heap region and a stack each,
    unmapped pages for regions and stacks, and behind them unmapped pages for the segments, apart
    from each other.  Then loadModules makes of each file a task of its own: the heap carries the
    tasks beside its old blocks, all segments of all files stand at their addresses with the bytes
    of their files, nothing else changed, and switching to any of the tasks runs at the entry point
    of its file. *)
Theorem modules_run (lay : Layout) (mainTask : Z) (old : nat -> Scheduler.Task) (info : Boot.MultibootInfo) (k : Kernel) (B : list (Z * Z))
    (mods : list ModuleFile) (b : Z) :
  let pd := kernelPageDirectory lay in
  serving lay mainTask k B -> modules_ready (machine k) pd (Boot.modsAddress info) b mods ->
  Boot.modsCount info = Z.of_nat (length mods) ->
  exists n ps k', (forall fuel, (n <= fuel)%nat -> loadModules fuel lay mainTask old info k = Some k') /\
    NoDup ps /\ carries (S := Z * MM) (heap k') (task_blocks ps ++ B) /\ grows pd (machine k) (machine k') /\
    Forall2 (fun md p =>
      Forall (fun ph => exists q, placed (machine k') pd (m_vaddr ph) q (segment_bytes (content md) ph)) (headers md) /\
      forall q tq, Scheduler.tasks (sched k') !! q = Some tq -> q <> p ->
        exists sc, Scheduler.switchTask (sched k') q p = Scheduler.Ret sc /\
          Scheduler.eip (Scheduler.cpu sc) = entry md /\ Scheduler.cr3 (Scheduler.cpu sc) = pd) mods ps.
Proof.
  intros pd Hsrv Hr Hn. unfold loadModules. rewrite Hn. set (l := [Printk _ _]).
  enough (exists k1, (if Z.of_nat (length mods) >? 0 then add_log k l else k) = k1 /\ serving lay mainTask k1 B /\
    modules_ready (machine k1) pd (Boot.modsAddress info) b mods /\ grows pd (machine k) (machine k1)) as (k1 & Ek & Hsrv1 & Hr1 & W1).
  - destruct (loadModules_loop_runs lay mainTask old mods k1 B _ b Hsrv1 Hr1) as (n & ps & k' & E & Hsrv' & W2 & Hruns & _).
    exists n, ps, k'. split; [|split; [by eapply task_blocks_distinct, Hsrv'|split; [apply Hsrv'|split; [by etransitivity|]]]].
    + intros fuel Hf. specialize (E fuel Hf). rewrite Nat2Z.id. destruct mods as [|md mods]; [by simpl in *; simplify_eq|].
      change (Z.of_nat (length (md :: mods)) >? 0) with true in *. by rewrite Ek.
    + eapply Forall2_impl; [exact Hruns|]. intros md p (Hp & (t & Ht & He & Hc) & Hpl). split; [done|]. intros q tq Hq Hne.
      destruct (switch_into _ q p tq t Hq Ht Hne) as (sc & E1 & E2 & E3). exists sc. by rewrite E2, E3.
  - eexists. split; [done|]. destruct (_ >? 0); [|done]. pose proof (with_log_space pd (machine k) l) as Hs.
    split; [by apply serving_space|]. split; [by eapply ready_space|by apply space_grows].
Qed.

(** ** A concrete boot *)

Definition ex_module : ModuleFile := MkFile ex_at ex_program [MkPh 1 84 6291456 2] 6291456.

Lemma ex_module_in : module_in ex_loaded ex_pd (ex_at + 128) ex_module.
Proof.
  destruct ex_loaded_maps as [D T]. split; try done.
  - intros j Hj. assert ((ex_at + 128 + j) / 4096 = 1280) as E by (unfold ex_at; clear -Hj; zlia).
    split; [unfold is_u32, ex_at; lia|]. rewrite E. split; [|exact ex_used].
    eapply not_paging_same; [exact D|]. destruct ex_page_free as [N1 N2]. unfold not_paging. rewrite E. by split.
  - exact ex_program_file.
  - intros v Hv Hin. rewrite T by done. change (in_range 1280 1 (v / 4096) = true) in Hin. apply in_range_iff in Hin.
    replace (v / 4096) with 1280 by lia. split; [done|exact ex_used].
Qed.

Lemma ex_modules_ready : modules_ready ex_loaded ex_pd (ex_at + 128) 1048576 [ex_module].
Proof.
  destruct ex_program_room as (Hf & _). rewrite ex_headers in Hf. split; try done.
  - intros [|i] md Hi; [|done]. injection Hi as <-. rewrite Z.add_0_r. exact ex_module_in.
  - change (modules_pages [ex_module]) with 17. apply ex_loaded_unmapped; [lia|lia|done|unfold ex_at; lia].
  - constructor; [|constructor]. split; [done|]. apply ex_loaded_unmapped; unfold ex_at; cbn; lia || done.
  - repeat constructor.
Qed.

Lemma modules_run_witness : exists n p k', (forall fuel, (n <= fuel)%nat ->
    loadModules fuel (MkLayout ex_pd 0 0 0) 4096 (fun _ => ex_task) (Boot.MkInfo 1 (ex_at + 128) 0 0) ex_kernel_with_file = Some k') /\
  exists q, placed (machine k') ex_pd 6291456 q [0xEB; 0xFE] /\ carries (S := Z * MM) (heap k') [(p, TASK_SIZE)].
Proof.
  destruct (modules_run (MkLayout ex_pd 0 0 0) 4096 (fun _ => ex_task) (Boot.MkInfo 1 (ex_at + 128) 0 0) ex_kernel_with_file [] [ex_module] 1048576)
    as (n & ps & k' & E & _ & Hc & _ & H); [exact ex_serving|exact ex_modules_ready|reflexivity|].
  inversion H as [|? p ? ps' [Hpl _] Hn]; subst. inversion Hn; subst. apply Forall_cons in Hpl as [(q & Hq) _].
  exists n, p, k'. split; [exact E|]. exists q. split; [exact Hq|exact Hc].
Defined.

End Modules.
