(* ===== verification/KernelMain.v ===== *)
(** Kernel/Kernel.cpp: the boot of the kernel, [kernel_main], as the composition of the components.

    The machine is the state of all components; an initialisation that leaves no task to run or
    dereferences null is a failure ([None]).  [kernel_main] ends in one of two ways: it returns to
    boot.S, which halts, or it goes into its idle loop, from which on interrupts drive the kernel. *)

From Stdlib Require Import Floats.SpecFloat.
From S2P Require Import Prelude PhysicalAllocator VirtualMemory MemoryManager Scheduler RingBuffer Keyboard Boot BootMemory.
From S2P Require Import Kmalloc KmallocHeap KmallocSpec KmallocClient KernelHeap Printf Console Interrupts Tasks.

Module KernelMain.
Import PhysicalAllocator VirtualMemory MemoryManager Boot BootMemory KmallocHeap KmallocSpec KmallocClient KernelHeap Printf.

Record Machine := MkMachine {
  gdt : Interrupts.gdt_state;
  idt : Interrupts.idt_state;
  callbacks : Interrupts.callback_table;
  port : Console.Port;
  tty : Console.TTY;
  m_task : Z;
  m_keyboard : RingBuffer.t Z;
  console : Z;
  kernel : Tasks.Kernel
}.

Definition with_gdt (m : Machine) (g : Interrupts.gdt_state) : Machine :=
  MkMachine g (idt m) (callbacks m) (port m) (tty m) (m_task m) (m_keyboard m) (console m) (kernel m).
Definition with_idt (m : Machine) (i : Interrupts.idt_state) : Machine :=
  MkMachine (gdt m) i (callbacks m) (port m) (tty m) (m_task m) (m_keyboard m) (console m) (kernel m).
Definition with_callbacks (m : Machine) (c : Interrupts.callback_table) : Machine :=
  MkMachine (gdt m) (idt m) c (port m) (tty m) (m_task m) (m_keyboard m) (console m) (kernel m).
Definition with_port (m : Machine) (p : Console.Port) : Machine :=
  MkMachine (gdt m) (idt m) (callbacks m) p (tty m) (m_task m) (m_keyboard m) (console m) (kernel m).
Definition with_tty (m : Machine) (t : Console.TTY) : Machine :=
  MkMachine (gdt m) (idt m) (callbacks m) (port m) t (m_task m) (m_keyboard m) (console m) (kernel m).
Definition with_task (m : Machine) (p : Z) : Machine :=
  MkMachine (gdt m) (idt m) (callbacks m) (port m) (tty m) p (m_keyboard m) (console m) (kernel m).
Definition with_keyboard (m : Machine) (r : RingBuffer.t Z) : Machine :=
  MkMachine (gdt m) (idt m) (callbacks m) (port m) (tty m) (m_task m) r (console m) (kernel m).
Definition with_console (m : Machine) (c : Z) : Machine :=
  MkMachine (gdt m) (idt m) (callbacks m) (port m) (tty m) (m_task m) (m_keyboard m) c (kernel m).
Definition with_kernel (m : Machine) (k : Tasks.Kernel) : Machine :=
  MkMachine (gdt m) (idt m) (callbacks m) (port m) (tty m) (m_task m) (m_keyboard m) (console m) k.

(** The memory manager's part of the machine, and the bytes of memory. *)
Definition mm (m : Machine) : MM := Tasks.machine (kernel m).
Definition with_mm (m : Machine) (s : MM) : Machine :=
  with_kernel m (Tasks.MkKernel (Tasks.sched (kernel m)) (Tasks.with_machine (Tasks.heap (kernel m)) s)).
Definition memory (m : Machine) : Mem := mem (mm m).
Definition with_memory (m : Machine) (b : Mem) : Machine := with_mm m (with_mem (mm m) b).
Definition with_sched (m : Machine) (s : Scheduler.Sched) : Machine := with_kernel m (Tasks.MkKernel s (Tasks.heap (kernel m))).

(** Where the linker and the boot code put things: the static variables, the entry points, the
    constructor table, the literals; and the objects on the stack of [kernel_main]. *)
Record Image := MkImage {
  layout : Layout;
  mainTask : Z; tss : Z; gdTable : Z; IDTTable : Z; printkBuffer : Z;
  irq : Z -> Z;
  tty_process : Z;
  start_ctors : Z; end_ctors : Z;
  text_at : list Z -> Z;
  scheduler_object : Z; tty_object : Z; keyboard_object : Z
}.

Definition Timer : Z := 32.
Definition KeyboardInterrupt : Z := 33.
Definition unsupported : list Z := str "Booted with an unsupported bootloader %d" ++ [13; 10].
Definition greeting : list Z := str "Sakura 1.0.0" ++ [13].

Section Main.
Context {D : Type} `{Double D}.
Context (im : Image).
(** What a constructor does. *)
Context (call : Z -> Machine -> option Machine).

(** Libk::printk on the machine.  The image is mapped to itself, so that its addresses are those of
    memory. *)
Definition printk (fuel : nat) (format : Z) (va : list Z) (m : Machine) : option Machine :=
  '(c, st) ← Console.printk fuel (printkBuffer im) (if console m =? 0 then None else Some (tty m)) format va (MkP (memory m) [] []);
  Some (with_tty (with_memory m (pmem st)) (default (tty m) c)).

(** [while (iterator < &end_ctors)]. *)
Fixpoint initGlobalConstructors (fuel : nat) (iterator : Z) (m : Machine) : option Machine :=
  match fuel with
  | O => None
  | S fuel =>
      if iterator <? end_ctors im
      then
        let fp := Tasks.load_word (mm m) (Scheduler.cr3 (Scheduler.cpu (Tasks.sched (kernel m)))) iterator in
        m ← call fp m;
        initGlobalConstructors fuel (u32 (iterator + 4)) m
      else Some m
  end.

(** The constructor of TTY: the ring buffer of its keyboard is empty, and the keyboard registers
    its interrupt. *)
Definition construct_tty (m : Machine) : Machine :=
  with_callbacks (with_keyboard m (RingBuffer.init (RingBuffer.m_buffer (m_keyboard m)))) (Interrupts.registerInterrupt (keyboard_object im) KeyboardInterrupt (callbacks m)).1.

(** changePageDirectory and enablePaging: cr3 is loaded. *)
Definition load_cr3 (m : Machine) (cr3 : Z) : Machine :=
  let s := Tasks.sched (kernel m) in
  let r := Scheduler.cpu s in
  with_sched m (Scheduler.with_cpu s (Scheduler.Regs (Scheduler.eax r) (Scheduler.ebx r) (Scheduler.ecx r) (Scheduler.edx r)
    (Scheduler.esi r) (Scheduler.edi r) (Scheduler.esp r) (Scheduler.ebp r) (Scheduler.eip r) (Scheduler.eflags r) cr3)).

(** Scheduler::start with its interrupt registration. *)
Definition scheduler_start (m : Machine) : option Machine :=
  let m := with_callbacks m (Interrupts.registerInterrupt (scheduler_object im) Timer (callbacks m)).1 in
  match Scheduler.start (mainTask im) (Tasks.sched (kernel m)) with
  | Scheduler.Ret s => Some (with_sched m s)
  | _ => None
  end.

(** TTY::open; Keyboard::open does nothing. *)
Definition tty_open (fuel : nat) (old : Scheduler.Task) (m : Machine) : option Machine :=
  let m := with_tty m (Console.open (tty m)) in
  '(task, k) ← Tasks.createTask fuel (layout im) (mainTask im) old false (tty_object im) (kernel m);
  match Scheduler.taskStart (mainTask im) (Tasks.sched k) task (tty_process im) with
  | Scheduler.Ret s => Some (with_task (with_kernel m (Tasks.MkKernel s (Tasks.heap k))) task)
  | _ => None
  end.

(** [Returned]: kernel_main returned 0; [Idle]: it is in [while (1)]. *)
Inductive ending := Returned (m : Machine) | Idle (m : Machine).

Definition kernel_main (fuel : nat) (magic mbinfo : Z) (old : Scheduler.Task) (m : Machine) : option ending :=
  let m := with_gdt m (Interrupts.init_gdt (tss im) (gdTable im)) in
  let m := construct_tty m in
  let m := with_port m (Console.Init (port m)) in
  if negb (magic =? MULTIBOOT_BOOTLOADER_MAGIC)
  then m ← printk fuel (text_at im unsupported) [magic] m; Some (Returned m)
  else
    let multiboot := read_info (memory m) mbinfo in
    let m := with_idt m (Interrupts.init_idt (irq im) (IDTTable im) (idt m)) in
    '(s, cr3) ← init fuel (layout im) multiboot (mm m);
    let m := load_cr3 (with_mm m s) cr3 in
    m ← initGlobalConstructors fuel (start_ctors im) m;
    m ← scheduler_start m;
    m ← tty_open fuel old m;
    let m := with_console m (tty_object im) in
    m ← printk fuel (text_at im greeting) [] m;
    Some (Idle m).
End Main.

(** ** Memory outside the paging structures *)

(** [b] and the memory of [s] agree on the bytes of the directory [pd] and of its tables. *)
Definition same_paging (s : MM) (pd : Z) (b : Mem) : Prop :=
  forall x, is_u32 x -> ~ not_paging s pd x -> loadb b x = loadb (mem s) x.

Lemma same_paging_translate s pd b : wf_dir s pd -> same_paging s pd b ->
  same_dir s (with_mem s b) pd /\ forall v, is_u32 v -> translate (with_mem s b) pd v = translate s pd v.
Proof.
  intros Hw Hb. pose proof (dir_range _ _ Hw) as Hr. pose proof (dir_aligned _ _ Hw) as Ha. set (s' := with_mem s b).
  assert (forall w pg, 0 <= w <= 4294967292 -> w mod 4 = 0 -> w / 4096 * 4096 = pg ->
    pg = pd \/ (exists i, has_table s pd i /\ pg = table s pd i) -> load32 b w = load32 (mem s) w) as Hword.
  { intros w pg Hw0 Hw4 Hpg Hp. unfold load32. rewrite !Hb; [done|..]; try (unfold is_u32; lia);
      intros [N1 N2]; (destruct Hp as [->|(i & Hi & ->)]; [apply N1|apply (N2 i Hi)]; clear -Hpg Hw4; zlia). }
  assert (same_dir s s' pd) as Hsd.
  { intros i Hi. apply (Hword _ pd); [lia|zlia|zlia|by left]. }
  split; [done|]. intros v Hv. rewrite !translate_eq by done. rewrite Hsd by (by apply dir_index_range).
  rewrite (pte_addr_same s s') by done. destruct (e_present (pde s pd (PAGE_DIR_INDEX v))) eqn:Ep; [|done]. cbn [andb].
  change (mem s') with b. destruct (pte_addr_range s pd v).
  rewrite (Hword (pte_addr s pd v) (table s pd (PAGE_DIR_INDEX v))); [done|lia|done|by rewrite pte_addr_page|].
  right. eexists. split; [|done]. split; [by apply dir_index_range|done].
Qed.

(** ** The greeting *)

(** The screen after the greeting: its text in the first row, blanks behind it, the cursor at the
    start of the second row. *)
Definition greeted (t : Console.TTY) : Prop :=
  Console.m_row t = 1 /\ Console.m_column t = 0 /\ Console.cursor_pos t = 80 /\
  forall i, 0 <= i < 2000 -> Console.m_buffer t i = Console.vga_entry (default (chr " ") (str "Sakura 1.0.0" !! Z.to_nat i)) 7.

Lemma open_cells t i : 0 <= i < 2000 -> Console.m_buffer (Console.open t) i = Console.vga_entry (chr " ") 7.
Proof.
  intros Hi. unfold Console.open. set (t1 := Console.MkTTY _ _ _ _ _ _).
  transitivity (Console.m_buffer (Console.clear t1) i); [reflexivity|]. rewrite Console.clear_cells.
  rewrite (proj2 (Z.leb_le _ _)), (proj2 (Z.ltb_lt _ _)) by lia. reflexivity.
Qed.

Lemma updateCursor_buffer x y t : Console.m_buffer (Console.updateCursor x y t) = Console.m_buffer t.
Proof. unfold Console.updateCursor. by destruct t. Qed.

Lemma write_bytes_snoc l c t : Console.write_bytes (l ++ [c]) t = Console.writeChar c (Console.write_bytes l t).
Proof. unfold Console.write_bytes. by rewrite fold_left_app. Qed.

(** The new line behind a text at the start of an opened console. *)
Lemma line_shown (l : list Z) (t t1 : Console.TTY) : length l = 12%nat -> Console.m_row t = 0 -> Console.m_column t = 0 -> Console.m_color t = 7 ->
  (forall i, 0 <= i < 2000 -> Console.m_buffer t i = Console.vga_entry (chr " ") 7) -> Console.m_row t1 = 0 ->
  (forall i, Console.m_buffer t1 i = if (Console.m_row t * 80 + Console.m_column t <=? i) && (i <? Console.m_row t * 80 + Console.m_column t + Z.of_nat (length l))
    then Console.vga_entry (default 0 (l !! Z.to_nat (i - (Console.m_row t * 80 + Console.m_column t)))) (Console.m_color t) else Console.m_buffer t i) ->
  let t2 := Console.writeChar 13 t1 in let t3 := Console.updateCursor (Console.m_column t2) (Console.m_row t2) t2 in
  Console.m_row t3 = 1 /\ Console.m_column t3 = 0 /\ Console.cursor_pos t3 = 80 /\
  forall i, 0 <= i < 2000 -> Console.m_buffer t3 i = Console.vga_entry (default (chr " ") (l !! Z.to_nat i)) 7.
Proof.
  intros El R C K Hc R1 B t2. change t2 with (Console.with_cursor t1 (Console.m_row t1 + 1) 0). rewrite R1.
  split; [done|]. split; [done|]. split; [by apply Console.updateCursor_pos|].
  intros i Hi. rewrite updateCursor_buffer. cbn [Console.m_buffer Console.with_cursor]. rewrite B, R, C, K, Hc, El by done.
  destruct (decide (i < 12)) as [Hlt|Hge].
  - rewrite (proj2 (Z.leb_le _ _)), (proj2 (Z.ltb_lt _ _)), Z.sub_0_r by lia. cbn [andb].
    destruct (lookup_lt_is_Some_2 l (Z.to_nat i)) as [c Hlk]; [lia|]. by rewrite Hlk.
  - rewrite (proj2 (Z.ltb_ge i _)), andb_false_r by lia. rewrite lookup_ge_None_2 by lia. done.
Qed.

Lemma greeting_shown b buffer t0 : bytes b buffer 13 = greeting -> greeted (Console.write b buffer 13 (Console.open t0)).1.
Proof.
  intros Hb. unfold Console.write. change (Z.to_nat 13) with 13%nat. rewrite Hb. cbn [fst].
  assert (Console.m_row (Console.open t0) = 0 /\ Console.m_column (Console.open t0) = 0 /\ Console.m_color (Console.open t0) = 7) as (R & C & K) by done.
  pose proof (open_cells t0) as Hc. revert R C K Hc. generalize (Console.open t0). intros t R C K Hc.
  unfold greeting. rewrite write_bytes_snoc.
  destruct (Console.write_line (str "Sakura 1.0.0") t) as [E B]; [unfold Console.tty_ok; rewrite R, C; lia|lia|rewrite C; vm_compute; reflexivity|reflexivity|].
  assert (Console.m_row (Console.write_bytes (str "Sakura 1.0.0") t) = 0) as R1 by (rewrite E; exact R).
  exact (line_shown (str "Sakura 1.0.0") t _ eq_refl R C K Hc R1 B).
Qed.

(** ** The first task *)

(** A task started when main alone exists runs at the first tick of the timer. *)
Lemma first_tick main s t0 p t entry :
  Scheduler.tasks s = {[main := t0]} -> Scheduler.m_runningTask s = main -> Scheduler.m_taskTail s = main ->
  Scheduler.schedulerEnabled s = true -> main <> 0 -> p <> 0 -> p <> main -> Scheduler.sched_reach main s ->
  exists s', Scheduler.taskStart main (Scheduler.with_tasks s (<[p := t]> (Scheduler.tasks s))) p entry = Scheduler.Ret s' /\
    Scheduler.sched_reach main s' /\
    forall fuel, exists s'', Scheduler.irqCallback (S fuel) s' = Scheduler.Ret s'' /\ Scheduler.m_runningTask s'' = p /\
      Scheduler.eip (Scheduler.cpu s'') = entry /\ Scheduler.cr3 (Scheduler.cpu s'') = Scheduler.cr3 (Scheduler.regs t) /\
      Scheduler.esp (Scheduler.cpu s'') = u32 (Scheduler.esp (Scheduler.regs t) - 4).
Proof.
  intros Ht Hr Hl He Hm Hp Hne Hreach.
  assert (exists s', Scheduler.taskStart main (Scheduler.with_tasks s (<[p := t]> (Scheduler.tasks s))) p entry = Scheduler.Ret s') as (s' & E).
  { unfold Scheduler.taskStart. cbn [Scheduler.tasks Scheduler.with_tasks Scheduler.m_taskTail]. rewrite lookup_insert_eq, Hl.
    rewrite lookup_insert_ne, lookup_insert_ne, Ht, lookup_singleton_eq by done.
    rewrite lookup_insert_ne, lookup_insert_eq by done. by eexists. }
  exists s'. split; [exact E|]. split.
  { eapply Scheduler.reach_step; [exact Hreach|]. eapply Scheduler.step_spawn; [|exact Hp|exact E].
    by rewrite Ht, lookup_singleton_ne. }
  intros fuel. revert E. unfold Scheduler.taskStart. cbn [Scheduler.tasks Scheduler.with_tasks Scheduler.m_taskTail]. rewrite lookup_insert_eq, Hl.
  rewrite lookup_insert_ne, lookup_insert_ne, Ht, lookup_singleton_eq by done.
  rewrite lookup_insert_ne, lookup_insert_eq by done. intros [= <-].
  unfold Scheduler.irqCallback, Scheduler.schedule. cbn -[Z.eqb]. rewrite He. unfold Scheduler.goToNextTask. cbn -[Z.eqb].
  rewrite Hr, lookup_insert_ne, lookup_insert_eq by done. cbn -[Z.eqb]. rewrite (proj2 (Z.eqb_neq p 0)), lookup_insert_eq by done.
  cbn -[Z.eqb]. unfold Scheduler.eligible. cbn [Scheduler.state]. rewrite bool_decide_true by done. cbn -[Z.eqb].
  rewrite (proj2 (Z.eqb_neq p 0)) by done. unfold Scheduler.switchTask. cbn -[Z.eqb].
  rewrite lookup_insert_ne, lookup_insert_ne, lookup_insert_eq by done. cbn -[Z.eqb].
  rewrite lookup_insert_ne, lookup_insert_eq by done. cbn -[Z.eqb]. by eexists.
Qed.

Section Boot.
Context (im : Image).
Abbreviation lay := (layout im).
Abbreviation pd := (kernelPageDirectory (layout im)).

(** [n] bytes from [a] on lie in the image, outside the paging structures. *)
Definition in_image (a n : Z) : Prop :=
  __start lay <= a /\ a + n <= _kernel_end lay /\ forall x, a <= x < a + n -> ~ paging_byte lay x.

(** Paging is on: the allocator's invariant, with the kernel's own tables, and the image mapped to
    itself. *)
Record paged (s : MM) : Prop := {
  pg_layout : layout_ok lay;
  pg_inv : kernel_inv s pd;
  pg_backed : backed s pd;
  pg_tables : forall i, has_table s pd i -> 0 <= i < 256 /\ table s pd i = kernelPageTable lay + 4096 * i;
  pg_image : forall v, __start lay <= v < _kernel_end lay -> translate s pd v = Some v
}.

Lemma image_u32 s v : paged s -> __start lay <= v < _kernel_end lay -> is_u32 v.
Proof. intros [[_ _ ? _ _ _ ?] _ _ _ _] Hv. unfold is_u32. lia. Qed.

Lemma paged_not_paging s x : paged s -> ~ paging_byte lay x -> not_paging s pd x.
Proof.
  intros [[L1 L2 _ _ _ _ _] _ _ Ht _] Hx. unfold paging_byte in Hx. split.
  - intros E. apply Hx. left. clear -E L1. zlia.
  - intros i Hi E. destruct (Ht i Hi) as [Hr Et]. rewrite Et in E. apply Hx. right. clear -E L2 Hr. zlia.
Qed.

Lemma paged_used s v : paged s -> __start lay <= v < _kernel_end lay -> used (phys s) (v / 4096) = true.
Proof. intros Hp Hv. eapply (pg_backed s Hp); [by eapply image_u32|by apply pg_image]. Qed.

Lemma paged_agree s b : paged s -> (forall x, is_u32 x -> paging_byte lay x -> loadb b x = loadb (mem s) x) -> same_paging s pd b.
Proof.
  intros Hp Hb x Hx Hnp. apply Hb; [done|]. destruct (decide (paging_byte lay x)) as [|Hno]; [done|].
  exfalso. by apply Hnp, (paged_not_paging s).
Qed.

(** Memory written outside the paging structures leaves paging as it is. *)
Lemma paged_memory s b : paged s -> same_paging s pd b ->
  paged (with_mem s b) /\ same_dir s (with_mem s b) pd /\
  forall v, is_u32 v -> translate (with_mem s b) pd v = translate s pd v.
Proof.
  intros Hp Hb. destruct (same_paging_translate s pd b) as [Hsd Htr]; [apply (pg_inv _ Hp)|done|].
  split; [|done]. pose proof Hp as [Hl Hi Hbk Ht Him]. split; [done| | | |].
  - eapply kernel_inv_mono; [exact Hi|done|done].
  - intros v x Hv. rewrite Htr by done. by apply Hbk.
  - intros i Hti. rewrite (has_table_same s (with_mem s b)) in Hti by done.
    rewrite (table_same s (with_mem s b)) by (done || apply Hti). auto.
  - intros v Hv. rewrite Htr; [auto|by eapply image_u32].
Qed.

(** ** The steps of the boot *)

Lemma boot_paged fuel info s es l : boot_state lay info s es l -> (length es < fuel)%nat ->
  exists s', init fuel lay info s = Some (s', pd) /\ paged s' /\ TotalMemory (phys s') = u32 (total_free es) /\
    (forall q, 0 <= q < 1048568 -> used (phys s') q = reserved lay l q || negb (existsb (fun e => in_entry e q) es)) /\
    (forall v, is_u32 v -> translate s' pd v = if reserved lay l (v / 4096) then Some v else None) /\
    forall a, is_u32 a -> ~ paging_byte lay a -> loadb (mem s') a = loadb (mem s) a.
Proof.
  intros Hb Hf. destruct (init_machine fuel lay info s es l Hb Hf) as (s' & cr3 & E & -> & Hi & Hkt & _ & Htot & Hu & Htr & Ht & Hm).
  exists s'. split; [exact E|]. split; [|done]. pose proof (boot_layout _ _ _ _ _ Hb) as Hl. split; [done|done| | |].
  - intros v x Hv Hx. assert (0 <= v / 4096 < 262144) as Hq.
    { rewrite translate_eq in Hx by (done || apply (dir_range _ _ (proj1 (inv_dir _ _ Hi)))).
      destruct (e_present (pde s' pd (PAGE_DIR_INDEX v))) eqn:Ep; [|done].
      assert (0 <= PAGE_DIR_INDEX v < 256) as Hd by (apply Ht; split; [by apply dir_index_range|done]).
      rewrite PAGE_DIR_INDEX_div in Hd. clear -Hd Hv. zlia. }
    rewrite Htr in Hx by done. destruct (reserved lay l (v / 4096)) eqn:Er; [|done]. injection Hx as <-.
    rewrite Hu by lia. by rewrite Er.
  - intros i Hti. split; [auto|]. apply Hkt. auto.
  - pose proof Hl as [_ _ L3 L4 _ _ L7]. intros v Hv. rewrite Htr by (unfold is_u32; lia).
    assert (reserved lay l (v / 4096) = true) as ->; [|done]. unfold reserved. rewrite !orb_true_iff. right. right.
    apply in_range_iff. unfold image_pages. clear -L3 L4 Hv. zlia.
Qed.

(** A run of [n] cannot cover a run of [n] + 1. *)
Lemma escape x n f : 0 < n -> exists g, f <= g <= f + n /\ ~ (x <= g < x + n).
Proof. intros Hn. destruct (Z.le_gt_cases x f); [exists (f + n)|exists f]; lia. Qed.

(** After [n] pages were allocated out of a run of [n] + 1, there is room for one more. *)
Lemma room_next s s1 n a f : 0 < n -> wf_dir s pd -> allocated s s1 pd a n -> TotalMemory (phys s1) = TotalMemory (phys s) ->
  256 <= f -> f + n + 1 <= 262144 -> f + n + 1 <= TotalMemory (phys s) / 4096 ->
  (forall q, f <= q < f + n + 1 -> used (phys s) q = false) -> run_free s pd (f * 4096) (n + 1) ->
  frame_room (phys s1) 1 /\ page_room s1 pd 1.
Proof.
  intros Hn Hw (p & P1 & P2 & P3 & A1 & A2 & A3 & _ & _ & Hu & Htr & _) Htot F1 F2 F3 Hfree Hrun. split.
  - destruct (escape (p / 4096) n f Hn) as (g & G1 & G2). exists g. rewrite Htot. unfold PAGE_SIZE. change 0x1000 with 4096.
    split_and!; [lia|lia|lia|]. intros q Hq. assert (q = g) as -> by lia. rewrite Hu, Hfree by lia. zcases.
  - destruct (escape (a / 4096) n f Hn) as (g & G1 & G2). exists g. split_and!; [lia|lia|].
    intros k Hk. assert (k = 0) as -> by lia. rewrite Z.mul_0_l, Z.add_0_r. set (v := g * 4096).
    assert (is_u32 v) as Hv by (unfold v, is_u32; lia). assert (v / 4096 = g) as Ev by (unfold v; zlia).
    assert (translate s1 pd v = None) as Hno; [|unfold translate in Hno; by destruct (IsPagePresent s1 pd v)].
    rewrite Htr by done. assert (in_pages a n v = false) as -> by (unfold in_pages; rewrite Ev; zcases).
    assert (IsPagePresent s pd v = false) as Hp; [|unfold translate; by rewrite Hp].
    replace v with (f * 4096 + (g - f) * 4096) by (unfold v; lia). apply Hrun. lia.
Qed.

(** A constructor that writes memory outside [keep] and nothing else. *)
Definition harmless (keep : Z -> Prop) (f : Machine -> option Machine) : Prop :=
  forall m, exists b, f m = Some (with_memory m b) /\ forall x, is_u32 x -> keep x -> loadb b x = loadb (memory m) x.

Lemma with_memory_id m : with_memory m (memory m) = m.
Proof. by destruct m as [? ? ? ? ? ? ? ? [? [? ? ? ? ? [? []] ?]]]. Qed.

Lemma ctors_run call (keep : Z -> Prop) k : forall fuel it m,
  (k < fuel)%nat -> it + 4 * Z.of_nat k = end_ctors im -> paged (mm m) -> Scheduler.cr3 (Scheduler.cpu (Tasks.sched (kernel m))) = pd ->
  in_image it (4 * Z.of_nat k) -> (forall x, paging_byte lay x \/ it <= x < it + 4 * Z.of_nat k -> keep x) ->
  (forall j, 0 <= j < Z.of_nat k -> harmless keep (call (load32 (memory m) (it + 4 * j)))) ->
  exists b, initGlobalConstructors im call fuel it m = Some (with_memory m b) /\
    forall x, is_u32 x -> keep x -> loadb b x = loadb (memory m) x.
Proof.
  induction k as [|k IH]; intros [|fuel] it m Hf He Hp Hcr Hin Hk Hh; try lia; cbn [initGlobalConstructors].
  - rewrite (proj2 (Z.ltb_ge _ _)) by lia. exists (memory m). by rewrite with_memory_id.
  - rewrite (proj2 (Z.ltb_lt _ _)) by lia. rewrite Hcr. destruct Hin as (I1 & I2 & I3).
    assert (forall v, it <= v < it + 4 * Z.of_nat (S k) -> is_u32 v) as Hu by (intros v Hv; eapply image_u32; [exact Hp|lia]).
    unfold Tasks.load_word. rewrite (translate_GetPhysicalAddress (mm m) pd it it) by (apply pg_image; [done|lia]).
    destruct (Hh 0 ltac:(lia) m) as (b & E & Hb). rewrite Z.mul_0_r, Z.add_0_r in E. change (mem (mm m)) with (memory m). rewrite E.
    cbn [mbind option_bind]. rewrite u32_small by (unfold is_u32; pose proof (Hu it ltac:(lia)); pose proof (Hu (it + 3) ltac:(lia));
      destruct (pg_layout _ Hp) as [_ _ ? _ _ _ ?]; lia).
    destruct (paged_memory (mm m) b Hp) as (Hp' & _).
    { apply paged_agree; [done|]. intros x Hx Hpx. apply Hb; auto. }
    destruct (IH fuel (it + 4) (with_memory m b)) as (b' & E' & Hb'); try lia; try done.
    + split; [lia|split; [lia|]]. intros x Hx. apply I3. lia.
    + intros x [Hx|Hx]; apply Hk; [by left|right; lia].
    + intros j Hj. assert (load32 (memory (with_memory m b)) (it + 4 + 4 * j) = load32 (memory m) (it + 4 * (j + 1))) as ->.
      { replace (it + 4 + 4 * j) with (it + 4 * (j + 1)) by lia. unfold load32. rewrite !Hb by first [apply Hu; lia|apply Hk; right; lia]. done. }
      apply Hh. lia.
    + exists b'. split; [exact E'|]. intros x Hx Hkx. rewrite Hb' by done. by apply Hb.
Qed.

Lemma paged_allocated s s' a n : paged s -> kernel_inv s' pd -> same_dir s s' pd -> allocated s s' pd a n -> 0 < n -> paged s'.
Proof.
  intros Hp Hi Hsd Hal Hn. pose proof Hp as [Hl Hk Hb Ht Him].
  destruct (allocated_holds s s' pd a n Hk Hb Hsd Hal Hn) as [_ Hb']. split; [done|done|done| |].
  - intros i Hti. rewrite (has_table_same s s') in Hti by done. rewrite (table_same s s') by (done || apply Hti). auto.
  - intros v Hv. destruct Hal as (p & _ & _ & _ & A1 & A2 & A3 & Hrun & _ & _ & Htr & _).
    rewrite Htr by (by eapply image_u32). destruct (in_pages a n v) eqn:E; [|auto]. exfalso.
    pose proof (run_free_translate s pd a n v ltac:(apply Hk) (image_u32 s v Hp Hv) ltac:(lia) A2 ltac:(lia) Hrun E) as Hno.
    by rewrite Him in Hno.
Qed.

(** The image's bytes survive an allocation. *)
Lemma image_kept s s' x : paged s -> __start lay <= x < _kernel_end lay -> ~ paging_byte lay x ->
  (forall x, is_u32 x -> not_paging s pd x -> used (phys s) (x / 4096) = true -> loadb (mem s') x = loadb (mem s) x) ->
  loadb (mem s') x = loadb (mem s) x.
Proof.
  intros Hp Hx Hnp Hk. apply Hk; [by eapply image_u32|by apply paged_not_paging|by eapply paged_used].
Qed.

(** The word at the top of a page just allocated, and what is stored there. *)
Lemma stack_word s s' a b : paged s -> kernel_inv s' pd -> same_dir s s' pd -> allocated s s' pd a 1 -> is_u32 b ->
  let s2 := Tasks.store_word s' pd (a + 4092) b in
  exists x, GetPhysicalAddress s' pd (a + 4092) = x /\ translate s2 pd (a + 4092) = Some x /\ 0 <= x /\ x + 4 <= 4294967296 /\
    (forall j, 0 <= j < 4 -> used (phys s) ((x + j) / 4096) = false) /\ paged s2 /\ load32 (mem s2) x = b /\
    forall y, is_u32 y -> ~ (x <= y < x + 4) -> loadb (mem s2) y = loadb (mem s') y.
Proof.
  intros Hp Hi Hsd Hal Hb s2. pose proof (paged_allocated s s' a 1 Hp Hi Hsd Hal ltac:(lia)) as Hp'.
  destruct Hal as (p & P1 & P2 & P3 & A1 & A2 & A3 & Hrun & Hfree & Hu & Htr & _).
  destruct (in_pages_byte a 1 4092 A2 ltac:(lia)) as [Hin Hmap]. specialize (Hmap p P2).
  assert (is_u32 (a + 4092)) as Hau by (unfold is_u32; lia). pose proof (Htr _ Hau) as Ht. rewrite Hin, Hmap in Ht.
  pose proof (translate_GetPhysicalAddress _ _ _ _ Ht) as Hg.
  assert (forall j, 0 <= j < 4 -> (p + 4092 + j) / 4096 = p / 4096) as Hpage by (intros j Hj; clear -P2 Hj; zlia).
  assert (forall j, 0 <= j < 4 -> not_paging s pd (p + 4092 + j)) as Hnp.
  { intros j Hj. apply (free_frame_not_paging s); [apply Hp|]. rewrite Hpage by done. apply Hfree. lia. }
  assert (not_paging s' pd (p + 4092)) as Hnp'.
  { destruct (Hnp 0 ltac:(lia)) as [N1 N2]. rewrite Z.add_0_r in N1, N2. split; [done|]. intros i Hti.
    rewrite (has_table_same s s') in Hti by done. rewrite (table_same s s') by (done || apply Hti). auto. }
  destruct (Tasks.store32_same s' pd (p + 4092) b) as [Hsd2 Htr2]; [apply Hi|lia|clear -P2; zlia|lia|done|].
  assert (s2 = with_mem s' (store32 (mem s') (p + 4092) b)) as Es by (unfold s2, Tasks.store_word; by rewrite Hg).
  clearbody s2. subst s2. exists (p + 4092). split; [done|]. split; [rewrite Htr2 by done; exact Ht|].
  split; [lia|]. split; [lia|]. split; [intros j Hj; rewrite Hpage by done; apply Hfree; lia|]. split; [|split].
  - apply paged_memory; [done|]. intros x Hx Hxp. apply loadb_store32_ne, far_range; [unfold is_u32 in *; lia..|].
    destruct (decide (p + 4092 <= x < p + 4092 + 4)); [|lia]. exfalso. apply Hxp. replace x with (p + 4092 + (x - (p + 4092))) by lia.
    destruct (Hnp (x - (p + 4092)) ltac:(lia)) as [N1 N2]. split; [done|]. intros i Hti. rewrite (has_table_same s s') in Hti by done. rewrite (table_same s s') by (done || apply Hti). auto.
  - by apply load32_store32_eq.
  - intros y Hy Hout. apply loadb_store32_ne, far_range; unfold is_u32 in *; lia.
Qed.

(** The scheduler as start leaves it: main alone, running, in the kernel's address space. *)
Record started (sc : Scheduler.Sched) (t0 : Scheduler.Task) : Prop := {
  st_tasks : Scheduler.tasks sc = {[mainTask im := t0]};
  st_running : Scheduler.m_runningTask sc = mainTask im;
  st_tail : Scheduler.m_taskTail sc = mainTask im;
  st_enabled : Scheduler.schedulerEnabled sc = true;
  st_cr3 : Scheduler.cr3 (Scheduler.regs t0) = pd;
  st_reach : Scheduler.sched_reach (mainTask im) sc
}.

(** Seventeen pages from [f] on, free and unmapped: sixteen for the heap's first region, one for
    the stack. *)
Definition room (s : MM) (f : Z) : Prop :=
  256 <= f /\ f + 17 <= 262144 /\ f + 17 <= TotalMemory (phys s) / 4096 /\
  (forall q, f <= q < f + 17 -> used (phys s) q = false) /\ run_free s pd (f * 4096) 17.

(** What the first tick of the timer makes of a task: it runs [entry] in the kernel's address
    space, with the argument [arg], stored in memory at [x], above its stack pointer. *)
Definition ticks_into (sc : Scheduler.Sched) (s : MM) (task entry arg x : Z) : Prop :=
  load32 (mem s) x = arg /\ forall fuel, exists sc', Scheduler.irqCallback (S fuel) sc = Scheduler.Ret sc' /\
    Scheduler.m_runningTask sc' = task /\ Scheduler.eip (Scheduler.cpu sc') = entry /\ Scheduler.cr3 (Scheduler.cpu sc') = pd /\
    is_u32 (Scheduler.esp (Scheduler.cpu sc') + 4) /\ translate s pd (Scheduler.esp (Scheduler.cpu sc') + 4) = Some x.

(** The first block of the heap: its page was unmapped before, and there is room for the stack. *)
Lemma first_block s sz f : paged s -> 0 <= sz <= 65504 -> room s f ->
  exists p h' s1, (forall fuel, (1 <= fuel)%nat -> Kmalloc.kmalloc fuel sz (boot (pd, s)) = Some (p, h')) /\
    Kmalloc.pages h' = (pd, s1) /\ 0 < p < 1073741824 /\ translate s pd p = None /\ carries (S := Z * MM) h' [(p, sz)] /\
    paged s1 /\ (forall q, used (phys s) q = true -> used (phys s1) q = true) /\ frame_room (phys s1) 1 /\ page_room s1 pd 1 /\
    forall y, __start lay <= y < _kernel_end lay -> ~ paging_byte lay y -> loadb (mem s1) y = loadb (mem s) y.
Proof.
  intros Hp Hsz (F1 & F2 & F3 & F4 & F5). pose proof Hp as [Hl Hk Hb Ht Him].
  destruct (memoryAllocate_room (Z.to_nat KERNEL_FUEL) s pd 65536 Hk ltac:(rewrite Z2Nat.id; done) ltac:(lia))
    as (a1 & s1 & E1 & K1 & D1 & N1 & Al1 & T1 & M1); [change ((65536 + 4095) / 4096) with 16..|].
  { exists f. split_and!; [lia|lia|unfold PAGE_SIZE; change 0x1000 with 4096; lia|]. intros q Hq. apply F4. lia. }
  { exists f. split_and!; [lia|lia|]. intros k Hk'. apply F5. lia. }
  change ((65536 + 4095) / 4096) with 16 in Al1. pose proof (paged_allocated _ _ _ _ Hp K1 D1 Al1 ltac:(lia)) as Hp1.
  destruct (room_next s s1 16 a1 f) as [R1 R2]; try lia; try done; [apply Hk|intros q Hq; apply F4; lia|].
  assert (pages_inv (PageLaws := kernel_page_laws) (pd, s)) as Hpi by done.
  destruct (kmalloc_boot (pd, s) (pd, s1) sz a1 Hpi Hsz) as (h' & Ekm & Epg); [|done|].
  { cbn [Kmalloc.memory_allocate kernel_pages]. by rewrite E1. }
  destruct (kmalloc_step (boot (pd, s)) [] sz (boot_carries _ Hpi) ltac:(lia)) as (n & p & h2 & Ekm2 & _ & _ & Hc).
  pose proof (kmalloc_fuel _ (Nat.max 1 n) _ _ _ Ekm ltac:(lia)) as E3. rewrite Ekm2 in E3 by lia. injection E3 as -> ->. clear Ekm2.
  pose proof Al1 as (q0 & _ & _ & _ & A1 & A2 & A3 & Arun & _ & Hu & _). rewrite (proj2 (Z.eqb_neq _ _)) in Hc by lia.
  exists (a1 + 32), h', s1. split; [intros fuel Hf; by eapply kmalloc_fuel|]. split; [done|]. split; [lia|]. split_and!; try done.
  - apply (run_free_translate s pd a1 16); [apply Hk|unfold is_u32; lia|lia|done|lia|done|].
    unfold in_pages. rewrite andb_true_iff, Z.leb_le, Z.ltb_lt. clear -A2. zlia.
  - intros q Hq. rewrite Hu, Hq. apply orb_true_r.
  - intros y Hy Hyp. by apply (image_kept s s1 y Hp Hy Hyp M1).
Qed.

Lemma tty_open_ok fuel old m t0 f :
  paged (mm m) -> Tasks.heap (kernel m) = boot (pd, mm m) -> KERNEL_FUEL <= Z.of_nat fuel ->
  started (Tasks.sched (kernel m)) t0 -> __start lay <= mainTask im < _kernel_end lay -> is_u32 (tty_object im) -> room (mm m) f ->
  exists task m' x, tty_open im fuel old m = Some m' /\
    m' = with_task (with_kernel (with_tty m (Console.open (tty m))) (kernel m')) task /\ task <> 0 /\
    paged (mm m') /\ carries (Tasks.heap (kernel m')) [(task, Tasks.TASK_SIZE)] /\ (Kmalloc.pages (Tasks.heap (kernel m'))).1 = pd /\
    Scheduler.sched_reach (mainTask im) (Tasks.sched (kernel m')) /\
    (forall y, __start lay <= y < _kernel_end lay -> ~ paging_byte lay y -> loadb (memory m') y = loadb (memory m) y) /\
    (forall j, 0 <= j < 4 -> used (phys (mm m)) ((x + j) / 4096) = false) /\ 0 <= x /\ x + 4 <= 4294967296 /\
    ticks_into (Tasks.sched (kernel m')) (mm m') task (tty_process im) (tty_object im) x.
Proof.
  intros Hp Hh Hf [S1 S2 S3 S4 S5 S6] Hmain Htty Hroom. pose proof Hp as [Hl Hk Hb Ht Him].
  destruct (first_block (mm m) Tasks.TASK_SIZE f Hp ltac:(unfold Tasks.TASK_SIZE; lia) Hroom)
    as (p & h' & s1 & Ekm & Epg & Hp0 & Hpn & Hc & Hp1 & Hu1 & R1 & R2 & M1).
  pose proof (pg_inv _ Hp1) as K1. assert (p <> mainTask im) as Hpm.
  { intros ->. by rewrite Him in Hpn. }
  assert (Kmalloc.kmalloc fuel Tasks.TASK_SIZE (Tasks.heap (kernel m)) = Some (p, h')) as Ek
    by (rewrite Hh; apply Ekm; unfold KERNEL_FUEL in Hf; lia).
  destruct (Tasks.createTask_made fuel lay (mainTask im) old t0 t0 (tty_object im) (kernel m) p h' [(p, Tasks.TASK_SIZE)])
    as (a2 & s2 & E2 & t & k' & Ec & Hs & Hcr & He & Hgood); try done; [lia|by rewrite Epg| | |].
  { unfold Scheduler.getRunningTask. by rewrite S2, S1, lookup_singleton_eq. }
  { by rewrite S1, lookup_singleton_eq. }
  rewrite Epg in E2. cbn [snd] in E2.
  destruct (memoryAllocate_room fuel s1 pd Tasks.TASK_STACK_SIZE K1 Hf ltac:(unfold Tasks.TASK_STACK_SIZE; lia) R1 R2)
    as (a2' & s2' & E2' & K2 & D2 & N2 & Al2 & T2 & M2). rewrite E2 in E2'. injection E2' as <- <-.
  change ((Tasks.TASK_STACK_SIZE + 4095) / 4096) with 1 in *.
  destruct (Hgood N2) as (He' & Har & Hm' & _ & Hc' & _). destruct (stack_word s1 s2 a2 (tty_object im) Hp1 K2 D2 Al2 Htty)
    as (x & _ & Wt & W1 & W2 & Wf & Wp & Wl & Wo).
  destruct (first_tick (mainTask im) (Tasks.sched (kernel m)) t0 p t (tty_process im)) as (sc & Es & Hreach & Htick); try done;
    [destruct Hl as [_ _ ? _ _ _ _]; lia|lia|].
  exists p, (with_task (with_kernel (with_tty m (Console.open (tty m))) (Tasks.MkKernel sc (Tasks.heap k'))) p), x.
  split. { unfold tty_open. cbn [kernel with_tty with_kernel]. rewrite Ec. cbn [mbind option_bind]. rewrite Hs, Es. done. }
  split; [done|]. split; [lia|]. cbn [kernel with_task with_kernel Tasks.heap Tasks.sched].
  assert (mm (with_task (with_kernel (with_tty m (Console.open (tty m))) (Tasks.MkKernel sc (Tasks.heap k'))) p) =
    Tasks.store_word s2 pd (a2 + 4092) (tty_object im)) as Emm by exact Hm'.
  unfold memory. rewrite Emm. split; [exact Wp|]. split; [exact Hc'|]. split.
  { revert Ec. unfold Tasks.createTask. rewrite Ek. cbn [mbind option_bind]. rewrite (proj2 (Z.eqb_neq p 0)) by lia.
    unfold Scheduler.getRunningTask. rewrite S2, S1, lookup_singleton_eq. cbn [mbind option_bind]. rewrite S5, Epg. cbn [snd].
    rewrite E2. cbn [mbind option_bind]. intros [= <-]. cbn. by rewrite Epg. }
  split; [exact Hreach|]. split.
  { intros y Hy Hyp. rewrite Wo; [rewrite (image_kept s1 s2 y Hp1 Hy Hyp M2); by apply M1|by eapply image_u32|].
    intros Hin. pose proof (Wf (y - x) ltac:(lia)) as Hw. replace (x + (y - x)) with y in Hw by lia.
    by rewrite (paged_used s1 y Hp1 Hy) in Hw. }
  split. { intros j Hj. apply not_true_iff_false. intros Hq%Hu1. by rewrite Wf in Hq. }
  split; [done|]. split; [done|]. split; [exact Wl|]. intros fuel'.
  destruct (Htick fuel') as (sc' & Q1 & Q2 & Q3 & Q4 & Q5). exists sc'. split; [done|]. split; [done|]. split; [done|].
  split; [by rewrite Q4|]. rewrite Q5, He', u32_small by (unfold is_u32; lia).
  replace (a2 + 4092 - 4 + 4) with (a2 + 4092) by lia. split; [unfold is_u32; lia|done].
Qed.

Lemma room_memory s b f : paged s -> same_paging s pd b -> room s f -> room (with_mem s b) f.
Proof.
  intros Hp Hb (F1 & F2 & F3 & F4 & F5). split_and!; try done. intros k Hk.
  destruct (paged_memory s b Hp Hb) as (_ & _ & Htr). specialize (Htr (f * 4096 + k * 4096) ltac:(unfold is_u32; lia)).
  unfold translate in Htr. rewrite (F5 k Hk) in Htr. by destruct (IsPagePresent (with_mem s b) pd _).
Qed.

(** Memory written outside the paging structures, under a heap. *)
Lemma carries_memory h B b : carries (S := Z * MM) h B -> (Kmalloc.pages h).1 = pd -> paged (Kmalloc.pages h).2 ->
  same_paging (Kmalloc.pages h).2 pd b -> carries (S := Z * MM) (Tasks.with_machine h (with_mem (Kmalloc.pages h).2 b)) B.
Proof.
  intros Hc Hpd Hp Hb. destruct (paged_memory _ b Hp Hb) as (Hp' & Hsd & Htr).
  eapply Tasks.heap_machine; [done|done|apply Hp'|apply Hp'|]. intros a n Hn. by eapply holds_same.
Qed.

Context {D : Type} `{Double D}.

Lemma greet_ok fuel m t0 B :
  console m <> 0 -> tty m = Console.open t0 -> paged (mm m) -> carries (S := Z * MM) (Tasks.heap (kernel m)) B ->
  (Kmalloc.pages (Tasks.heap (kernel m))).1 = pd -> (13 < fuel)%nat ->
  in_image (printkBuffer im) 14 -> in_image (text_at im greeting) 14 ->
  text_at im greeting + 13 < printkBuffer im \/ printkBuffer im + 13 < text_at im greeting ->
  cstring (memory m) (text_at im greeting) greeting ->
  exists b t, printk im fuel (text_at im greeting) [] m = Some (with_tty (with_memory m b) t) /\ greeted t /\
    paged (with_mem (mm m) b) /\ (forall v, is_u32 v -> translate (with_mem (mm m) b) pd v = translate (mm m) pd v) /\
    carries (S := Z * MM) (Tasks.heap (kernel (with_memory m b))) B /\
    forall y, is_u32 y -> ~ (printkBuffer im <= y < printkBuffer im + 14) -> loadb b y = loadb (memory m) y.
Proof.
  intros Hcon Htty Hp Hc Hpd Hf (B1 & B2 & B3) (G1 & G2 & G3) Hdis Hs. pose proof (pg_layout _ Hp) as [_ _ L3 _ _ _ L7].
  unfold printk. rewrite (proj2 (Z.eqb_neq _ _)) by done.
  destruct (Console.printk_plain_spec fuel (printkBuffer im) (text_at im greeting) (Some (tty m)) [] (MkP (memory m) [] []) greeting)
    as (st & E & Hby & _ & Hfr); change (Z.of_nat (length greeting)) with 13 in *; try done; try lia;
    [repeat constructor; vm_compute; discriminate|]. cbn [pmem] in Hfr.
  rewrite E. cbn [mbind option_bind fmap option_fmap option_map default]. exists (pmem st). eexists. split; [reflexivity|].
  assert (same_paging (mm m) pd (pmem st)) as Hsp.
  { apply paged_agree; [done|]. intros x Hx Hxp. apply Hfr; [done|]. intros Hin. apply (B3 x); [lia|done]. }
  destruct (paged_memory (mm m) (pmem st) Hp Hsp) as (Hp' & _ & Htr). split_and!; [|done|done| |].
  - rewrite Htty. change (Z.min 13 100) with 13. apply greeting_shown. exact Hby.
  - apply carries_memory; done.
  - intros y Hy Hout. apply Hfr; [done|lia].
Qed.

(** ** The boot *)

Context (call : Z -> Machine -> option Machine).

(** Fourteen bytes of the image that hold the greeting or are printk's to write. *)
Definition keep (k : nat) (x : Z) : Prop :=
  paging_byte lay x \/ start_ctors im <= x < start_ctors im + 4 * Z.of_nat k \/
  text_at im greeting <= x < text_at im greeting + 14.

(** The machine as the boot loader leaves it: its memory ([es] and [l] are the memory map and the
    modules behind the multiboot structure), the static variables as the image has them, a table
    of [k] constructors that write memory of their own, and seventeen usable pages from [f] on. *)
Record bootable (m : Machine) (mbinfo : Z) (es : list MemoryMap) (l : list ModuleInfo) (k : nat) (f : Z) : Prop := {
  bt_state : boot_state lay (read_info (memory m) mbinfo) (mm m) es l;
  bt_heap : Tasks.heap (kernel m) = boot (pd, mm m);
  bt_task : exists t0, Scheduler.tasks (Tasks.sched (kernel m)) = {[mainTask im := t0]} /\ Scheduler.next t0 = 0;
  bt_enabled : Scheduler.schedulerEnabled (Tasks.sched (kernel m)) = true;
  bt_console : console m = 0;
  bt_main : __start lay <= mainTask im < _kernel_end lay;
  bt_tty : is_u32 (tty_object im) /\ tty_object im <> 0;
  bt_ctors : in_image (start_ctors im) (4 * Z.of_nat k) /\ end_ctors im = start_ctors im + 4 * Z.of_nat k;
  bt_harmless : forall j, 0 <= j < Z.of_nat k -> harmless (keep k) (call (load32 (memory m) (start_ctors im + 4 * j)));
  bt_buffer : in_image (printkBuffer im) 14;
  bt_text : in_image (text_at im greeting) 14;
  bt_apart : text_at im greeting + 13 < printkBuffer im \/ printkBuffer im + 13 < text_at im greeting;
  bt_greeting : cstring (memory m) (text_at im greeting) greeting;
  bt_usable : 256 <= f /\ f + 17 <= 262144 /\ f + 17 <= u32 (total_free es) / 4096 /\
    forall q, f <= q < f + 17 -> reserved lay l q = false /\ existsb (fun e => in_entry e q) es = true
}.

Lemma image_range a n : layout_ok lay -> in_image a n -> forall x, a <= x < a + n -> is_u32 x /\ ~ paging_byte lay x.
Proof. intros [_ _ ? _ _ _ ?] (I1 & I2 & I3) x Hx. split; [unfold is_u32; lia|auto]. Qed.

(** The scheduler after cr3 was loaded and start has run. *)
Lemma start_started m t0 : Scheduler.tasks (Tasks.sched (kernel m)) = {[mainTask im := t0]} -> Scheduler.next t0 = 0 ->
  Scheduler.schedulerEnabled (Tasks.sched (kernel m)) = true -> Scheduler.cr3 (Scheduler.cpu (Tasks.sched (kernel m))) = pd ->
  exists sc t1, scheduler_start im m = Some (with_sched (with_callbacks m
      (<[Timer := Some (scheduler_object im)]> (callbacks m))) sc) /\ started sc t1.
Proof.
  intros Ht Hn He Hcr. unfold scheduler_start. cbn [kernel with_callbacks].
  destruct (Scheduler.start (mainTask im) (Tasks.sched (kernel m))) as [sc| |] eqn:E; revert E; unfold Scheduler.start;
    rewrite Ht, lookup_singleton_eq; intros [= E]. subst sc.
  eexists _, _. split; [reflexivity|]. split; try done.
  - cbn. apply insert_singleton_eq.
  - exact Hcr.
  - eapply Scheduler.reach_start with (s0 := Tasks.sched (kernel m)); [done|done|].
    unfold Scheduler.start. by rewrite Ht, lookup_singleton_eq.
Qed.

(** With the loader's magic number: paging on, constructors run, the scheduler started. *)
Lemma boot_to_scheduler fuel m mbinfo es l k f :
  bootable m mbinfo es l k f -> (length es < fuel)%nat -> (k < fuel)%nat ->
  exists s m1 t1, init fuel lay (read_info (memory m) mbinfo) (mm m) = Some (s, pd) /\
    (m2 ← initGlobalConstructors im call fuel (start_ctors im) (load_cr3 (with_mm m s) pd); scheduler_start im m2) = Some m1 /\
    paged (mm m1) /\ Tasks.heap (kernel m1) = boot (pd, mm m1) /\ started (Tasks.sched (kernel m1)) t1 /\ room (mm m1) f /\
    gdt m1 = gdt m /\ idt m1 = idt m /\ callbacks m1 = <[Timer := Some (scheduler_object im)]> (callbacks m) /\
    tty m1 = tty m /\ m_keyboard m1 = m_keyboard m /\ console m1 = console m /\
    forall x, text_at im greeting <= x < text_at im greeting + 14 -> loadb (memory m1) x = loadb (memory m) x.
Proof.
  intros [Hst Hh (t0 & Ht & Hn) He Hcon Hmain Htty (Hct & Hend) Hharm Hbuf Htext Hap Hgr (F1 & F2 & F3 & F4)] Hf Hk.
  destruct (boot_paged fuel _ _ _ _ Hst Hf) as (s & E & Hp & Htot & Hu & Htr & Hm).
  pose proof (image_range _ _ (pg_layout _ Hp) Htext) as Rt. pose proof (image_range _ _ (pg_layout _ Hp) Hct) as Rc.
  set (m0 := load_cr3 (with_mm m s) pd). assert (mm m0 = s) as Em by done.
  destruct (ctors_run call (keep k) k fuel (start_ctors im) m0) as (b & Ec & Hb); rewrite ?Em; try done; try lia.
  { intros x [?|?]; [by left|right; by left]. }
  { intros j Hj. assert (load32 (memory m0) (start_ctors im + 4 * j) = load32 (memory m) (start_ctors im + 4 * j)) as ->; [|auto].
    unfold memory. rewrite Em. unfold load32. by rewrite !Hm by (apply Rc; lia). }
  assert (same_paging s pd b) as Hsp.
  { apply paged_agree; [done|]. intros x Hx Hxp. rewrite Hb; [done|done|by left]. }
  destruct (paged_memory s b Hp Hsp) as (Hp' & _ & Htr').
  destruct (start_started (with_memory m0 b) t0 Ht Hn He eq_refl) as (sc & t1 & Es & Hsc).
  assert (room s f) as Hroom.
  { split; [done|]. split; [done|]. split; [by rewrite Htot|]. split.
    - intros q Hq. destruct (F4 q Hq) as [Fr Fe]. rewrite Hu, Fr, Fe by lia. done.
    - intros i Hi. assert (translate s pd (f * 4096 + i * 4096) = None) as Hno; [|unfold translate in Hno; by destruct (IsPagePresent s pd _)].
      rewrite Htr by (unfold is_u32; lia). replace ((f * 4096 + i * 4096) / 4096) with (f + i) by zlia.
      by rewrite (proj1 (F4 (f + i) ltac:(lia))). }
  exists s, (with_sched (with_callbacks (with_memory m0 b) (<[Timer := Some (scheduler_object im)]> (callbacks (with_memory m0 b)))) sc), t1.
  split; [exact E|]. fold m0. split; [rewrite Ec; exact Es|]. split; [exact Hp'|]. split.
  { cbn [kernel with_sched with_kernel Tasks.heap with_callbacks with_memory with_mm m0 load_cr3]. rewrite Hh. done. }
  split; [exact Hsc|]. split; [by apply (room_memory s b f)|]. repeat (split; [done|]).
  intros x Hx. transitivity (loadb b x); [done|]. rewrite Hb; [|by apply Rt|right; right; lia].
  unfold memory. rewrite Em. apply Hm; by apply Rt.
Qed.

(** C1: the kernel boots.  From a machine as a Multiboot loader leaves it, with constructors that keep
    to memory of their own and seventeen usable pages between 1 MiB and 1 GiB: with another magic
    number the only way in which kernel_main ends is to return, with the screen, the scheduler and
    the frames as they were.  With the loader's it reaches its idle loop: the page allocator's
    invariant holds and the image is mapped to itself; the heap carries the console's task; the
    scheduler is in a reachable state; timer and keyboard interrupts have their handlers, no key is
    pending; the screen shows the greeting; and the first tick of the timer switches to
    tty_process, in the kernel's address space, with the console as its argument on its stack. *)
Theorem kernel_boots (fuel : nat) (m : Machine) (mbinfo : Z) (old : Scheduler.Task) (es : list MemoryMap) (l : list ModuleInfo) (k : nat) (f : Z) :
  bootable m mbinfo es l k f -> (length es < fuel)%nat -> (k < fuel)%nat -> KERNEL_FUEL <= Z.of_nat fuel ->
  (forall magic r, magic <> MULTIBOOT_BOOTLOADER_MAGIC -> kernel_main im call fuel magic mbinfo old m = Some r ->
     exists m', r = Returned m' /\ tty m' = tty m /\ Tasks.sched (kernel m') = Tasks.sched (kernel m) /\ phys (mm m') = phys (mm m)) /\
  exists m' x, kernel_main im call fuel MULTIBOOT_BOOTLOADER_MAGIC mbinfo old m = Some (Idle m') /\
    paged (mm m') /\ carries (S := Z * MM) (Tasks.heap (kernel m')) [(m_task m', Tasks.TASK_SIZE)] /\
    Scheduler.sched_reach (mainTask im) (Tasks.sched (kernel m')) /\
    callbacks m' Timer = Some (scheduler_object im) /\ callbacks m' KeyboardInterrupt = Some (keyboard_object im) /\
    RingBuffer.contents Keyboard.KEYBOARD_RINGBUF_SIZE (m_keyboard m') = [] /\ greeted (tty m') /\
    ticks_into (Tasks.sched (kernel m')) (mm m') (m_task m') (tty_process im) (tty_object im) x.
Proof.
  intros Hbt Hf Hk Hkf. split.
  - intros magic r Hne. unfold kernel_main. rewrite (proj2 (Z.eqb_neq _ _)) by done. cbn [negb]. intros E.
    apply bind_Some in E as (m1 & E & [= <-]). exists m1. split; [done|]. revert E. unfold printk.
    cbn [console with_port construct_tty with_callbacks with_keyboard with_gdt]. rewrite (bt_console _ _ _ _ _ _ Hbt), Z.eqb_refl. intros E.
    apply bind_Some in E as ([c st] & E & [= <-]). unfold Console.printk in E. apply bind_Some in E as ([len st'] & _ & [= <- _]). done.
  - set (m0 := with_idt (with_port (construct_tty im (with_gdt m (Interrupts.init_gdt (tss im) (gdTable im)))) (Console.Init (port m)))
      (Interrupts.init_idt (irq im) (IDTTable im) (idt m))).
    assert (bootable m0 mbinfo es l k f) as Hbt0 by (by destruct Hbt; split).
    destruct (boot_to_scheduler fuel m0 mbinfo es l k f Hbt0 Hf Hk)
      as (s & m1 & t1 & Ei & Es & Hp & Hh & Hst & Hroom & _ & _ & Ecb & Et & Ekb & _ & Hby).
    destruct Hbt as [_ _ _ _ _ Hmain [Htty Htty0] _ _ Hbuf Htext Hap Hgr _].
    destruct (tty_open_ok fuel old m1 t1 f Hp Hh Hkf Hst Hmain Htty Hroom)
      as (task & m2 & x & Eo & Em2 & _ & Hp2 & Hc2 & Hpd2 & Hr2 & Hmem & Hxf & X1 & X2 & Hx & Htick).
    set (m3 := with_console m2 (tty_object im)).
    assert (tty m3 = Console.open (tty m1)) as Etty by (unfold m3; rewrite Em2; done).
    assert (m_task m3 = task) as Etask by (unfold m3; rewrite Em2; done).
    assert (callbacks m3 = callbacks m1) as Ecb3 by (unfold m3; rewrite Em2; done).
    assert (m_keyboard m3 = m_keyboard m1) as Ekb3 by (unfold m3; rewrite Em2; done). clear Em2.
    pose proof (image_range _ _ (pg_layout _ Hp) Htext) as Rt. pose proof (image_range _ _ (pg_layout _ Hp) Hbuf) as Rb.
    destruct (greet_ok fuel m3 (tty m1) [(task, Tasks.TASK_SIZE)]) as (b & t & Ep & Hg & Hp3 & Htr3 & Hc3 & Hfr); try done; [unfold KERNEL_FUEL in Hkf; lia| |].
    { eapply Console.cstring_frame; [|exact Hgr]. change (Z.of_nat (length greeting)) with 13. intros i Hi.
      change (memory m3) with (memory m2). destruct Htext as (T1 & T2 & T3). rewrite Hmem by (apply T3 || idtac; lia). apply Hby. lia. }
    exists (with_tty (with_memory m3 b) t), x. split.
    { unfold kernel_main. rewrite Z.eqb_refl. cbn [negb]. change (init _ _ (read_info _ _) _) with (init fuel lay (read_info (memory m0) mbinfo) (mm m0)). rewrite Ei.
      cbn [mbind option_bind]. fold m0. revert Es. destruct (initGlobalConstructors _ _ _ _ _) as [mc|]; [|done]. cbn [mbind option_bind]. intros ->.
      cbn [mbind option_bind]. rewrite Eo. cbn [mbind option_bind]. fold m3. by rewrite Ep. }
    split; [exact Hp3|]. split; [change (m_task _) with (m_task m3); rewrite Etask; exact Hc3|]. split; [exact Hr2|].
    split; [change (callbacks _) with (callbacks m3); by rewrite Ecb3, Ecb|]. split.
    { change (callbacks _) with (callbacks m3). by rewrite Ecb3, Ecb. }
    split; [change (m_keyboard _) with (m_keyboard m3); by rewrite Ekb3, Ekb|]. split; [exact Hg|]. split.
    + change (load32 b x = tty_object im). rewrite <- Hx. unfold load32.
      assert (forall j, 0 <= j < 4 -> loadb b (x + j) = loadb (mem (mm m2)) (x + j)) as Hsame.
      { intros j Hj. apply Hfr; [unfold is_u32; lia|]. intros Hin. pose proof (Hxf j Hj) as Hno.
        destruct Hbuf as (B1 & B2 & _). by rewrite (paged_used (mm m1) (x + j) Hp) in Hno by lia. }
      pose proof (Hsame 0 ltac:(lia)) as H0. rewrite Z.add_0_r in H0. by rewrite H0, !Hsame by lia.
    + intros fuel'. destruct (Htick fuel') as (sc' & Q1 & Q2 & Q3 & Q4 & Q5 & Q6). exists sc'.
      change (m_task _) with (m_task m3). rewrite Etask. split; [exact Q1|]. split; [done|]. split; [done|]. split; [done|]. split; [exact Q5|].
      change (mm (with_tty (with_memory m3 b) t)) with (with_mem (mm m3) b). by rewrite Htr3.
Qed.

End Boot.

(** ** A concrete boot *)

(** The machine of [ex_boot] with the multiboot structure at 12288 and the literals in the image. *)
Definition ex_info_bytes : list Z :=
  le 4 0 ++ le 4 0 ++ le 4 0 ++ le 4 0 ++ le 4 0 ++ le 4 1 ++ le 4 8192 ++ le 8 0 ++ le 8 0 ++ le 4 72 ++ le 4 4096.
Definition ex_main_mem : Mem := storel (storel (storel ex_boot_mem 12288 ex_info_bytes) 1114112 greeting) 1126400 unsupported.
Definition ex_image : Image :=
  MkImage ex_lay 1122304 1134592 1138688 1142784 1118208 (fun n => 1200000 + n) 1300000 1130496 1130500
    (fun l => if decide (l = greeting) then 1114112 else 1126400) 4190208 4190220 4190300.
Definition ex_mm_main : MM := MkMM (MkData 0 0 (fun _ => 0)) ex_main_mem false 0 [].
Definition ex_machine : Machine :=
  MkMachine (Interrupts.MkGdt [] 0 0) (Interrupts.MkIdt (fun _ => Interrupts.MkGate 0 0 0 0 0) (0, 0) [] false) (fun _ => None)
    (Console.MkPort [] []) (Console.MkTTY 0 0 0 (fun _ => 0) 0 (fun _ => 0)) 0 (RingBuffer.init (fun _ => 0)) 0
    (Tasks.MkKernel (Scheduler.MkSched {[1122304 := Scheduler.MkTask (Scheduler.regs Tasks.ex_task) 0 "" 0 Scheduler.NoState]} 0 0 0 true
       (Scheduler.regs Tasks.ex_task) 0 []) (boot (2097152, ex_mm_main))).

Lemma ex_main_zero x : 2097152 <= x < 4294967293 -> load32 ex_main_mem x = 0.
Proof.
  intros Hx. rewrite <- (ex_boot_zero x) by lia. unfold load32, ex_main_mem.
  assert (length ex_info_bytes = 52%nat /\ length greeting = 13%nat /\ length unsupported = 42%nat) as (L1 & L2 & L3) by done.
  rewrite !storel_outside; try done; unfold is_u32; rewrite ?L1, ?L2, ?L3; lia.
Qed.

Lemma ex_main_state : boot_state ex_lay ex_boot_info ex_mm_main ex_map [MkModule 5242880 5251909].
Proof.
  split.
  - split; simpl; (reflexivity || lia).
  - intros i Hi. unfold pde. simpl. rewrite ex_main_zero by lia. reflexivity.
  - intros k Hk. simpl. rewrite ex_main_zero by lia. reflexivity.
  - repeat (split; [vm_compute; (reflexivity || discriminate)|]). reflexivity.
  - simpl. lia.
  - apply ex_map_good.
  - split; [vm_compute; reflexivity|exact I].
  - reflexivity.
  - simpl. lia.
  - repeat constructor; vm_compute; (reflexivity || discriminate).
  - intros b Hb. unfold paging_byte. simpl in *. lia.
Qed.

Lemma ex_bootable : bootable ex_image (fun _ m => Some m) ex_machine 12288 ex_map [MkModule 5242880 5251909] 1 1100.
Proof.
  assert (forall a n, 1048576 <= a -> a + n <= 2097152 -> in_image ex_image a n) as Him.
  { intros a n Ha Hn. split; [done|]. simpl. split; [lia|]. intros x Hx. unfold paging_byte. simpl. lia. }
  split.
  - replace (read_info _ _) with ex_boot_info by (vm_compute; reflexivity). exact ex_main_state.
  - done.
  - by eexists.
  - done.
  - done.
  - simpl. lia.
  - done.
  - split; [by apply Him|done].
  - intros j Hj m. exists (memory m). by rewrite with_memory_id.
  - by apply Him.
  - by apply Him.
  - left. vm_compute. reflexivity.
  - vm_compute. repeat split; discriminate.
  - split; [lia|]. split; [lia|]. split; [vm_compute; discriminate|]. intros q Hq.
    assert (forallb (fun q => negb (reserved ex_lay [MkModule 5242880 5251909] q) && existsb (fun e => in_entry e q) ex_map) (seqZ 1100 17) = true)
      as Hall by (vm_compute; reflexivity).
    rewrite forallb_forall in Hall. specialize (Hall q). rewrite <- list_elem_of_In, elem_of_seqZ in Hall.
    specialize (Hall ltac:(lia)). by apply andb_true_iff in Hall as [?%negb_true_iff ?].
Qed.

Lemma kernel_boots_witness : exists m' x,
  kernel_main (D := spec_float) ex_image (fun _ m => Some m) (Z.to_nat KERNEL_FUEL) MULTIBOOT_BOOTLOADER_MAGIC 12288 Tasks.ex_task ex_machine = Some (Idle m') /\
  callbacks m' Timer = Some 4190208 /\ greeted (tty m') /\ ticks_into ex_image (Tasks.sched (kernel m')) (mm m') (m_task m') 1300000 4190220 x.
Proof.
  destruct (kernel_boots (D := spec_float) ex_image (fun _ m => Some m) (Z.to_nat KERNEL_FUEL) ex_machine 12288 Tasks.ex_task ex_map _ 1 1100 ex_bootable)
    as (_ & m' & x & E & _ & _ & _ & Hc & _ & _ & Hg & Ht).
  - apply Nat2Z.inj_lt. rewrite Z2Nat.id by done. reflexivity.
  - apply Nat2Z.inj_lt. rewrite Z2Nat.id by done. reflexivity.
  - by rewrite Z2Nat.id.
  - exists m', x. split; [exact E|]. split; [exact Hc|]. split; [exact Hg|exact Ht].
Defined.

(** With a wrong magic number the message is formatted, not shown, and kernel_main returns. *)
Example unsupported_returns :
  match kernel_main (D := spec_float) ex_image (fun _ m => Some m) 50 0 12288 Tasks.ex_task ex_machine with
  | Some (Returned m') =>
      bytes (memory m') 1118208 41 = str "Booted with an unsupported bootloader 0" ++ [13; 10] /\ Console.m_buffer (tty m') 0 = 0
  | _ => False
  end.
Proof. vm_compute. split; reflexivity. Qed.

End KernelMain.
