(* ===== verification/Qsort.v ===== *)
(** newlib/newlib/libc/search/qsort.c and bsearch.c: sorting and searching arrays.

    An array is a list of elements and a pointer into it an index, so the element size [es] is the
    unit; a read or an exchange outside the array is a failure ([None]), which the theorems
    exclude.  [cmp] is the caller's comparison function. *)

From S2P Require Import Prelude.

Module Qsort.

Section Qsort.
Context {A : Type} (cmp : A -> A -> Z).
Local Open Scope nat_scope.
Implicit Types l : list A.

Definition CMP (l : list A) (x y : nat) : option Z := a ← l !! x; b ← l !! y; Some (cmp a b).
Definition swap (l : list A) (a b : nat) : option (list A) :=
  t ← l !! a; u ← l !! b; Some (<[b := t]> (<[a := u]> l)).

(** swapfunc: [n] elements from [a] on against [n] from [b] on. *)
Fixpoint swapfunc (n : nat) (l : list A) (a b : nat) : option (list A) :=
  match n with
  | O => Some l
  | S n => l ← swap l a b; swapfunc n l (S a) (S b)
  end.

Definition med3 (l : list A) (a b c : nat) : option nat :=
  ab ← CMP l a b;
  if (ab <? 0)%Z
  then bc ← CMP l b c;
       if (bc <? 0)%Z then Some b else ac ← CMP l a c; Some (if (ac <? 0)%Z then c else a)
  else bc ← CMP l b c;
       if (bc >? 0)%Z then Some b else ac ← CMP l a c; Some (if (ac <? 0)%Z then a else c).

(** The inner loop of the insertion sort, from [pl] down to [a]. *)
Fixpoint sift (pl a : nat) (l : list A) : option (list A) :=
  match pl with
  | O => Some l
  | S p =>
      if a <? pl then
        c ← CMP l p pl;
        if (c >? 0)%Z then l ← swap l pl p; sift p a l else Some l
      else Some l
  end.
(** The outer loop, with [k] rounds left. *)
Fixpoint insertion_loop (k pm a : nat) (l : list A) : option (list A) :=
  match k with
  | O => Some l
  | S k => l ← sift pm a l; insertion_loop k (S pm) a l
  end.
Definition insertion_sort (a n : nat) (l : list A) : option (list A) := insertion_loop (n - 1) (a + 1) a l.

(** The choice of the pivot. *)
Definition pivot (l : list A) (a n : nat) : option nat :=
  let pm := a + n / 2 in
  if 7 <? n then
    let pl := a in
    let pn := a + (n - 1) in
    if 40 <? n then
      let d := n / 8 in
      pl ← med3 l pl (pl + d) (pl + 2 * d);
      pm ← med3 l (pm - d) pm (pm + d);
      pn ← med3 l (pn - 2 * d) (pn - d) pn;
      med3 l pl pm pn
    else med3 l pl pm pn
  else Some pm.

(** The scans of the partition: the array, the four pointers and swap_cnt.  A scan has as many
    rounds left as there are elements from [pb] to [pc]. *)
Record Scan := MkScan { arr : list A; pa : nat; pb : nat; pc : nat; pd : nat; swap_cnt : bool }.

Fixpoint scan_up (k a : nat) (s : Scan) : option Scan :=
  match k with
  | O => Some s
  | S k =>
      c ← CMP (arr s) (pb s) a;
      if (c <=? 0)%Z then
        if (c =? 0)%Z
        then l ← swap (arr s) (pa s) (pb s); scan_up k a (MkScan l (S (pa s)) (S (pb s)) (pc s) (pd s) true)
        else scan_up k a (MkScan (arr s) (pa s) (S (pb s)) (pc s) (pd s) (swap_cnt s))
      else Some s
  end.
Fixpoint scan_down (k a : nat) (s : Scan) : option Scan :=
  match k with
  | O => Some s
  | S k =>
      c ← CMP (arr s) (pc s) a;
      if (c >=? 0)%Z then
        if (c =? 0)%Z
        then l ← swap (arr s) (pc s) (pd s); scan_down k a (MkScan l (pa s) (pb s) (pc s - 1) (pd s - 1) true)
        else scan_down k a (MkScan (arr s) (pa s) (pb s) (pc s - 1) (pd s) (swap_cnt s))
      else Some s
  end.
(** The [for (;;)] around them. *)
Fixpoint partition_loop (fuel a : nat) (s : Scan) : option Scan :=
  match fuel with
  | O => None
  | S fuel =>
      s ← scan_up (S (pc s) - pb s) a s;
      s ← scan_down (S (pc s) - pb s) a s;
      if pc s <? pb s then Some s
      else
        l ← swap (arr s) (pb s) (pc s);
        partition_loop fuel a (MkScan l (pa s) (S (pb s)) (pc s - 1) (pd s) true)
  end.

(** From the label [loop] to the choice of what to sort next: the array, and the larger and the
    smaller part, if there are any. *)
Definition step (a n : nat) (l : list A) : option (list A * option ((nat * nat) * (nat * nat))) :=
  if n <? 7 then l ← insertion_sort a n l; Some (l, None)
  else
    pm ← pivot l a n;
    l ← swap l a pm;
    s ← partition_loop n a (MkScan l (a + 1) (a + 1) (a + (n - 1)) (a + (n - 1)) false);
    if negb (swap_cnt s) then l ← insertion_sort a n (arr s); Some (l, None)
    else
      let pn := a + n in
      let r := Nat.min (pa s - a) (pb s - pa s) in
      l ← swapfunc r (arr s) a (pb s - r);
      let r := Nat.min (pd s - pc s) (pn - pd s - 1) in
      l ← swapfunc r l (pb s) (pn - r);
      let d := pb s - pa s in
      let r := pd s - pc s in
      let pn := pn - r in
      Some (l, Some (if d <? r then ((pn, r), (a, d)) else ((a, d), (pn, r)))).

Definition PARAMETER_STACK_LEVELS : nat := 8.

(** The loop with its parameter stack, whose length is recursion_level. *)
Fixpoint qsort_loop (fuel a n : nat) (stack : list (nat * nat)) (l : list A) : option (list A) :=
  match fuel with
  | O => None
  | S fuel =>
      let pop l :=
        match stack with
        | [] => Some l
        | (a, n) :: stack => qsort_loop fuel a n stack l
        end in
      '(l, parts) ← step a n l;
      match parts with
      | None => pop l
      | Some ((a, n), (pa, r)) =>
          if 1 <? r then
            if length stack <? PARAMETER_STACK_LEVELS
            then qsort_loop fuel pa r ((a, n) :: stack) l
            else
              l ← qsort_loop fuel pa r [] l;
              if 1 <? n then qsort_loop fuel a n stack l else pop l
          else if 1 <? n then qsort_loop fuel a n stack l
          else pop l
      end
  end.
Definition qsort (fuel : nat) (l : list A) : option (list A) := qsort_loop fuel 0 (length l) [] l.

(** bsearch: the midpoint is computed in 32 bits. *)
Fixpoint bsearch_loop (fuel : nat) (key : A) (l : list A) (lower upper : Z) : option (option Z) :=
  match fuel with
  | O => None
  | S fuel =>
      if (lower <? upper)%Z then
        let index := (u32 (lower + upper) / 2)%Z in
        current ← l !! Z.to_nat index;
        let result := cmp key current in
        if (result <? 0)%Z then bsearch_loop fuel key l lower index
        else if (result >? 0)%Z then bsearch_loop fuel key l (u32 (index + 1)) upper
        else Some (Some index)
      else Some None
  end.
Definition bsearch (fuel : nat) (key : A) (l : list A) (nmemb : Z) : option (option Z) :=
  if (nmemb =? 0)%Z then Some None else bsearch_loop fuel key l 0 nmemb.

End Qsort.
End Qsort.
