(* ===== verification/QsortSpec.v ===== *)
(** What qsort and bsearch of Qsort.v compute: qsort leaves the array a permutation of itself
    for any comparison function, sorted when the comparison is an order; bsearch then finds what
    is there. *)

From S2P Require Import Prelude Qsort.

Module QsortSpec.
Import Qsort.

(** What a comparison function promises. *)
Class Order {A : Type} (cmp : A -> A -> Z) : Prop := {
  cmp_flip x y : cmp x y < 0 <-> 0 < cmp y x;
  cmp_trans x y z : cmp x y <= 0 -> cmp y z <= 0 -> cmp x z <= 0
}.

Section Order.
Context {A : Type} (cmp : A -> A -> Z) `{!Order cmp}.
Lemma cmp_refl x : cmp x x = 0.
Proof. pose proof (cmp_flip x x). lia. Qed.
Lemma cmp_opp x y : 0 <= cmp y x <-> cmp x y <= 0.
Proof. pose proof (cmp_flip x y). pose proof (cmp_flip y x). lia. Qed.
Lemma cmp_swap x y : 0 < cmp x y -> cmp y x <= 0.
Proof. pose proof (cmp_flip y x). lia. Qed.
End Order.

Section Spec.
Context {A : Type} (cmp : A -> A -> Z).
Local Open Scope nat_scope.
Implicit Types l : list A.

(** ** Rearrangements of a part of the array *)

Definition inside (s : nat * nat) (i : nat) : Prop := s.1 <= i < s.1 + s.2.

(** [l'] is [l] with the elements of the part [s] permuted. *)
Record rearranged (s : nat * nat) l l' : Prop := {
  re_perm : l ≡ₚ l';
  re_outside : forall i, ~ inside s i -> l' !! i = l !! i;
  re_inside : forall i, inside s i -> exists j, inside s j /\ l' !! i = l !! j
}.

Lemma re_refl s l : rearranged s l l.
Proof. split; [done|done|]. intros i Hi. by exists i. Qed.
Lemma re_trans s l1 l2 l3 : rearranged s l1 l2 -> rearranged s l2 l3 -> rearranged s l1 l3.
Proof.
  intros [P1 O1 I1] [P2 O2 I2]. split; [by rewrite P1|intros i Hi; by rewrite O2, O1|].
  intros i Hi. destruct (I2 i Hi) as (j & Hj & ->). apply I1 in Hj as (k & Hk & ->). by exists k.
Qed.
Lemma re_length s l l' : rearranged s l l' -> length l' = length l.
Proof. intros H. symmetry. by apply Permutation_length, (re_perm s). Qed.
Lemma re_mono s t l l' : (forall i, inside s i -> inside t i) -> rearranged s l l' -> rearranged t l l'.
Proof.
  intros Hs [P O I]. split; [done|intros i Hi; apply O; auto|]. intros i Hi.
  destruct (decide (s.1 <= i < s.1 + s.2)) as [Hin|Hin].
  - destruct (I i Hin) as (j & Hj & E). eauto.
  - exists i. split; [done|by apply O].
Qed.

Lemma swap_spec l i j : i < length l -> j < length l -> exists l', swap l i j = Some l' /\
  l ≡ₚ l' /\ forall k, l' !! k = if decide (k = j) then l !! i else if decide (k = i) then l !! j else l !! k.
Proof.
  intros [x Hx]%lookup_lt_is_Some_2 [y Hy]%lookup_lt_is_Some_2. unfold swap. rewrite Hx, Hy. eexists. split; [done|].
  split; [symmetry; by apply Permutation_insert_swap|]. intros k.
  pose proof (lookup_lt_Some _ _ _ Hx). pose proof (lookup_lt_Some _ _ _ Hy).
  destruct (decide (k = j)) as [->|Hj]; [by rewrite list_lookup_insert_eq by (rewrite length_insert; lia)|].
  rewrite list_lookup_insert_ne by done. destruct (decide (k = i)) as [->|Hi]; [by rewrite list_lookup_insert_eq|].
  by rewrite list_lookup_insert_ne.
Qed.

Lemma swap_rearranged s l l' i j : inside s i -> inside s j -> l ≡ₚ l' ->
  (forall k, l' !! k = if decide (k = j) then l !! i else if decide (k = i) then l !! j else l !! k) -> rearranged s l l'.
Proof.
  intros Hi Hj Hp Hk. split; [done| |].
  - intros k Hn. rewrite Hk. repeat case_decide; [congruence..|done].
  - intros k Hin. rewrite Hk. repeat case_decide; eauto.
Qed.

(** Exchanging two runs that do not meet. *)
Lemma swapfunc_spec n s : forall l x y, (forall k, k < n -> inside s (x + k) /\ inside s (y + k)) -> s.1 + s.2 <= length l ->
  x + n <= y -> exists l', swapfunc n l x y = Some l' /\ rearranged s l l' /\
  forall k, l' !! k = if decide (x <= k < x + n) then l !! (k - x + y) else if decide (y <= k < y + n) then l !! (k - y + x) else l !! k.
Proof.
  unfold inside. induction n as [|n IH]; intros l x y Hin Hl Hxy; simpl.
  { exists l. split; [done|]. split; [apply re_refl|]. intros k. repeat case_decide; done || lia. }
  destruct (Hin 0 ltac:(lia)) as [Hx Hy]. rewrite !Nat.add_0_r in *.
  destruct (swap_spec l x y ltac:(lia) ltac:(lia)) as (l1 & -> & Hp & Hk1). simpl.
  pose proof (swap_rearranged s _ _ _ _ Hx Hy Hp Hk1) as Hr1.
  destruct (IH l1 (S x) (S y)) as (l2 & -> & Hr2 & Hk2).
  { intros k Hk. specialize (Hin (S k) ltac:(lia)). lia. }
  { by rewrite (re_length _ _ _ Hr1). }
  { lia. }
  exists l2. split; [done|]. split; [by eapply re_trans|]. intros k. rewrite Hk2, !Hk1.
  repeat case_decide; try lia; f_equal; lia.
Qed.

(** Order between two places. *)
Definition le l (i j : nat) : Prop := forall x y, l !! i = Some x -> l !! j = Some y -> (cmp x y <= 0)%Z.

Lemma CMP_spec l i j : i < length l -> j < length l -> exists x y, l !! i = Some x /\ l !! j = Some y /\ CMP cmp l i j = Some (cmp x y).
Proof.
  intros [x Hx]%lookup_lt_is_Some_2 [y Hy]%lookup_lt_is_Some_2. exists x, y. unfold CMP. by rewrite Hx, Hy.
Qed.

(** ** Insertion sort *)

(** Sorted from [a] to [pm] but for the element on its way down, at [pl]. *)
Definition sifting l (a pl pm : nat) : Prop :=
  (forall i j, a <= i < j -> j <= pm -> i <> pl -> j <> pl -> le l i j) /\ forall j, pl < j <= pm -> le l pl j.

Lemma sift_spec pl : forall a pm l, a <= pl <= pm -> pm < length l ->
  exists l', sift cmp pl a l = Some l' /\ rearranged (a, S pm - a) l l' /\
    (Order cmp -> sifting l a pl pm -> forall i j, a <= i < j -> j <= pm -> le l' i j).
Proof.
  induction pl as [|p IH]; intros a pm l Hpl Hpm; cbn [sift].
  { exists l. split; [done|]. split; [apply re_refl|]. intros _ [H1 H2] i j Hij Hj.
    destruct (decide (i = 0)) as [->|]; [apply H2; lia|apply H1; lia]. }
  destruct (Nat.ltb_spec a (S p)).
  2: { exists l. split; [done|]. split; [apply re_refl|]. intros _ [H1 H2] i j Hij Hj.
       destruct (decide (i = S p)) as [->|]; [apply H2; lia|apply H1; lia]. }
  destruct (CMP_spec l p (S p)) as (x & y & Hx & Hy & ->); [lia..|]. cbn [mbind option_bind].
  destruct (Z.gtb_spec (cmp x y) 0).
  - destruct (swap_spec l (S p) p ltac:(lia) ltac:(lia)) as (l1 & -> & Hp & Hk). cbn [mbind option_bind].
    assert (rearranged (a, S pm - a) l l1) as Hr by (eapply swap_rearranged; [..|done|exact Hk]; unfold inside; simpl; lia).
    destruct (IH a pm l1 ltac:(lia) ltac:(rewrite (re_length _ _ _ Hr); lia)) as (l2 & -> & Hr2 & Ho).
    exists l2. split; [done|]. split; [by eapply re_trans|]. intros Ord [H1 H2]. apply Ho; [done|]. split.
    + intros i j Hij Hj Hi Hjp u v. rewrite !Hk. repeat case_decide; subst; try lia; intros Hu Hv.
      * eapply (H1 p j); [lia..|done|done].
      * eapply (H1 i p); [lia..|done|done].
      * eapply (H1 i j); [lia..|done|done].
    + intros j Hj u v. rewrite !Hk. repeat case_decide; subst; try lia; intros Hu Hv.
      * simplify_eq. apply cmp_swap; [done|lia].
      * eapply H2; [|done..]. lia.
  - exists l. split; [done|]. split; [apply re_refl|]. intros Ord [H1 H2] i j Hij Hj u v Hu Hv.
    destruct (decide (i = S p)) as [->|]; [eapply H2; [|done..]; lia|].
    destruct (decide (j = S p)) as [->|]; [|eapply (H1 i j); [lia..|done|done]].
    destruct (decide (i = p)) as [->|]; [simplify_eq; lia|].
    eapply cmp_trans; [eapply (H1 i p); [lia..|done|done]|]. simplify_eq. lia.
Qed.

Lemma insertion_loop_spec k : forall pm a l, a < pm -> pm + k <= length l ->
  exists l', insertion_loop cmp k pm a l = Some l' /\ rearranged (a, pm + k - a) l l' /\
    (Order cmp -> (forall i j, a <= i < j -> j < pm -> le l i j) -> forall i j, a <= i < j -> j < pm + k -> le l' i j).
Proof.
  induction k as [|k IH]; intros pm a l Ha Hl; cbn [insertion_loop].
  { exists l. split; [done|]. split; [apply re_refl|]. intros _ H i j Hij Hj. apply H; lia. }
  destruct (sift_spec pm a pm l ltac:(lia) ltac:(lia)) as (l1 & -> & Hr1 & Ho1). cbn [mbind option_bind].
  destruct (IH (S pm) a l1 ltac:(lia) ltac:(rewrite (re_length _ _ _ Hr1); lia)) as (l2 & -> & Hr2 & Ho2).
  exists l2. split; [done|]. split.
  - eapply re_trans; [eapply re_mono; [|exact Hr1]|eapply re_mono; [|exact Hr2]]; unfold inside; simpl; lia.
  - intros Ord H i j Hij Hj. eapply Ho2; [done| |done|lia]. intros i' j' Hij' Hj'.
    apply Ho1; [done| |done|lia]. split; [intros; apply H; lia|lia].
Qed.

Lemma insertion_sort_spec a n l : a + n <= length l ->
  exists l', insertion_sort cmp a n l = Some l' /\ rearranged (a, n) l l' /\
    (Order cmp -> forall i j, a <= i < j -> j < a + n -> le l' i j).
Proof.
  intros Hl. unfold insertion_sort. destruct (decide (n <= 1)).
  { replace (n - 1) with 0 by lia. exists l. split; [done|]. split; [apply re_refl|]. intros _ i j Hij Hj. lia. }
  destruct (insertion_loop_spec (n - 1) (a + 1) a l ltac:(lia) ltac:(lia)) as (l' & -> & Hr & Ho).
  exists l'. split; [done|]. split.
  - eapply re_mono; [|exact Hr]. unfold inside. simpl. lia.
  - intros Ord i j Hij Hj. apply Ho; [done| |done|lia]. intros. lia.
Qed.

(** ** The pivot *)

Lemma med3_spec l a b c : a < length l -> b < length l -> c < length l ->
  exists m, med3 cmp l a b c = Some m /\ (m = a \/ m = b \/ m = c).
Proof.
  intros Ha Hb Hc. unfold med3.
  destruct (CMP_spec l a b Ha Hb) as (? & ? & _ & _ & ->). cbn [mbind option_bind].
  destruct (CMP_spec l b c Hb Hc) as (? & ? & _ & _ & ->). cbn [mbind option_bind].
  destruct (CMP_spec l a c Ha Hc) as (? & ? & _ & _ & ->). cbn [mbind option_bind].
  repeat case_match; eauto.
Qed.

Lemma pivot_spec l a n : 0 < n -> a + n <= length l -> exists m, pivot cmp l a n = Some m /\ inside (a, n) m.
Proof.
  intros Hn Hl. unfold pivot, inside. cbn [fst snd]. assert (n / 2 < n) by (apply Nat.div_lt; lia).
  destruct (Nat.ltb_spec 7 n); [|eexists; split; [done|lia]].
  destruct (Nat.ltb_spec 40 n).
  - assert (8 * (n / 8) <= n /\ 2 * (n / 2) <= n /\ n <= 2 * (n / 2) + 1) as Hdiv.
    { pose proof (Nat.div_mod_eq n 8). pose proof (Nat.div_mod_eq n 2). pose proof (Nat.mod_upper_bound n 2 ltac:(lia)). lia. }
    set (d := n / 8) in *. set (h := n / 2) in *.
    destruct (med3_spec l a (a + d) (a + 2 * d)) as (m1 & -> & M1); [lia..|]. cbn [mbind option_bind].
    destruct (med3_spec l (a + h - d) (a + h) (a + h + d)) as (m2 & -> & M2); [lia..|]. cbn [mbind option_bind].
    destruct (med3_spec l (a + (n - 1) - 2 * d) (a + (n - 1) - d) (a + (n - 1))) as (m3 & -> & M3); [lia..|]. cbn [mbind option_bind].
    destruct (med3_spec l m1 m2 m3) as (m & -> & M4); [lia..|]. exists m. split; [done|]. lia.
  - destruct (med3_spec l a (a + n / 2) (a + (n - 1))) as (m & -> & Hm); [lia..|]. exists m. split; [done|]. lia.
Qed.

(** ** The partition *)

(** Every element of a run satisfies [P]. *)
Definition run (P : A -> Prop) l (i j : nat) : Prop := forall k x, i <= k < j -> l !! k = Some x -> P x.

Lemma run_nil P l i : run P l i i.
Proof. intros k x Hk. lia. Qed.
Lemma run_app P l i j k : run P l i j -> run P l j k -> run P l i k.
Proof. intros H1 H2 q x Hq. destruct (decide (q < j)); [apply H1|apply H2]; lia. Qed.
Lemma run_one P l i x : l !! i = Some x -> P x -> run P l i (S i).
Proof. intros Hx Hp k y Hk. replace k with i by lia. intros. by simplify_eq. Qed.

Section Partition.
Context (a n : nat) (v : A).
Definition low (x : A) : Prop := (cmp x v < 0)%Z.
Definition mid (x : A) : Prop := x = v \/ cmp x v = 0%Z.
Definition high (x : A) : Prop := (0 < cmp x v)%Z.

(** The four finished runs and the unread elements from [pb] to [pc]. *)
Record parted (l0 : list A) (s : Scan) : Prop := {
  pt_moved : rearranged (a, n) l0 (arr s);
  pt_pointers : a < pa s /\ pa s <= pb s /\ pb s <= S (pc s) /\ pc s <= pd s /\ pd s < a + n;
  pt_pivot : arr s !! a = Some v;
  pt_left_mid : run mid (arr s) a (pa s);
  pt_low : run low (arr s) (pa s) (pb s);
  pt_high : run high (arr s) (S (pc s)) (S (pd s));
  pt_right_mid : run mid (arr s) (S (pd s)) (a + n)
}.

(** A run after a swap: an element at either place is judged where it came from. *)
Lemma run_swap (P : A -> Prop) l l' x y i j :
  (forall k, l' !! k = if decide (k = y) then l !! x else if decide (k = x) then l !! y else l !! k) ->
  (forall k z, i <= k < j -> k <> x -> k <> y -> l !! k = Some z -> P z) ->
  (i <= x < j -> x <> y -> forall z, l !! y = Some z -> P z) -> (i <= y < j -> forall z, l !! x = Some z -> P z) -> run P l' i j.
Proof.
  intros Hk H1 H2 H3 k z Hkk. rewrite Hk. repeat case_decide; subst; eauto.
Qed.

Lemma parted_swap l0 s x y : parted l0 s -> a + n <= length l0 -> inside (a, n) x -> inside (a, n) y ->
  exists l', swap (arr s) x y = Some l' /\ rearranged (a, n) l0 l' /\
    forall k, l' !! k = if decide (k = y) then arr s !! x else if decide (k = x) then arr s !! y else arr s !! k.
Proof.
  intros [Hm _ _ _ _ _ _] Hl Hx Hy. pose proof (re_length _ _ _ Hm). pose proof Hx as Hx'. pose proof Hy as Hy'. unfold inside in Hx', Hy'. simpl in Hx', Hy'.
  destruct (swap_spec (arr s) x y ltac:(lia) ltac:(lia)) as (l' & -> & Hp & Hk). exists l'. split; [done|]. split; [|done].
  eapply re_trans; [exact Hm|]. eapply swap_rearranged; [exact Hx|exact Hy|exact Hp|exact Hk].
Qed.

Lemma parted_CMP l0 s x : parted l0 s -> a + n <= length l0 -> inside (a, n) x ->
  exists z, arr s !! x = Some z /\ CMP cmp (arr s) x a = Some (cmp z v).
Proof.
  intros [Hm ? Hv _ _ _ _] Hl Hx. pose proof (re_length _ _ _ Hm). unfold inside in Hx. simpl in Hx.
  destruct (CMP_spec (arr s) x a ltac:(lia) ltac:(lia)) as (z & v' & Hz & Hv' & ->). simplify_eq. eauto.
Qed.

Lemma scan_up_spec k : forall l0 s, parted l0 s -> a + n <= length l0 -> S (pc s) - pb s = k ->
  exists s', scan_up cmp k a s = Some s' /\ parted l0 s' /\ pc s' = pc s /\ pb s <= pb s' /\
    (pb s' <= pc s' -> exists z, arr s' !! pb s' = Some z /\ high z).
Proof.
  induction k as [|k IH]; intros l0 s Hs Hl Hk; cbn [scan_up].
  { exists s. split; [done|]. split; [done|]. split; [done|]. split; [done|lia]. }
  pose proof Hs as [Hm (P1 & P2 & P3 & P4 & P5) Hv Hlm Hlo Hhi Hrm].
  destruct (parted_CMP l0 s (pb s) Hs Hl) as (z & Hz & ->); [unfold inside; simpl; lia|]. cbn [mbind option_bind].
  destruct (Z.leb_spec (cmp z v) 0).
  2: { exists s. do 4 (split; [done|]). exists z. split; [done|]. unfold high. lia. }
  destruct (Z.eqb_spec (cmp z v) 0) as [Hc|Hc].
  - destruct (parted_swap l0 s (pa s) (pb s) Hs Hl) as (l' & -> & Hr & Hk'); [unfold inside; simpl; lia..|]. cbn [mbind option_bind].
    destruct (IH l0 (MkScan l' (S (pa s)) (S (pb s)) (pc s) (pd s) true)) as (s' & -> & Hs' & Hpc & Hpb & Hstop); [|done|simpl; lia|].
    + split; simpl; [done|lia| | | | |].
      * rewrite Hk'. rewrite !decide_False by lia. done.
      * eapply run_swap; [exact Hk'| | |]; [intros k' z' ? ? ? ?; eapply Hlm; [|done]; lia| |].
        -- intros _ _ z' Hz'. simplify_eq. by right.
        -- intros Hin z' Hz'. replace (pb s) with (pa s) in * by lia. simplify_eq. by right.
      * eapply run_swap; [exact Hk'| | |]; [intros k' z' ? ? ? ?; eapply Hlo; [|done]; lia|lia|].
        intros Hin z' Hz'. destruct (decide (pa s = pb s)); [lia|]. eapply Hlo; [|exact Hz']. lia.
      * eapply run_swap; [exact Hk'| | |]; [intros k' z' ? ? ? ?; eapply Hhi; [|done]; lia|lia|lia].
      * eapply run_swap; [exact Hk'| | |]; [intros k' z' ? ? ? ?; eapply Hrm; [|done]; lia|lia|lia].
    + exists s'. simpl in *. do 3 (split; [done|]). split; [lia|done].
  - destruct (IH l0 (MkScan (arr s) (pa s) (S (pb s)) (pc s) (pd s) (swap_cnt s))) as (s' & -> & Hs' & Hpc & Hpb & Hstop); [|done|simpl; lia|].
    + split; simpl; try done; [lia|]. eapply run_app; [exact Hlo|]. eapply run_one; [done|]. unfold low. lia.
    + exists s'. simpl in *. do 3 (split; [done|]). split; [lia|done].
Qed.

Lemma scan_down_spec k : forall l0 s, parted l0 s -> a + n <= length l0 -> S (pc s) - pb s = k ->
  exists s', scan_down cmp k a s = Some s' /\ parted l0 s' /\ pb s' = pb s /\ pc s' <= pc s /\
    (pb s' <= pc s' -> arr s' !! pb s' = arr s !! pb s' /\ exists z, arr s' !! pc s' = Some z /\ low z).
Proof.
  induction k as [|k IH]; intros l0 s Hs Hl Hk; cbn [scan_down].
  { exists s. split; [done|]. split; [done|]. split; [done|]. split; [done|lia]. }
  pose proof Hs as [Hm (P1 & P2 & P3 & P4 & P5) Hv Hlm Hlo Hhi Hrm].
  destruct (parted_CMP l0 s (pc s) Hs Hl) as (z & Hz & ->); [unfold inside; simpl; lia|]. cbn [mbind option_bind].
  assert (S (pc s - 1) = pc s) as Epc by lia. assert (S (pd s - 1) = pd s) as Epd by lia.
  destruct (Z.geb_spec (cmp z v) 0).
  2: { exists s. do 4 (split; [done|]). split; [done|]. exists z. split; [done|]. unfold low. lia. }
  destruct (Z.eqb_spec (cmp z v) 0) as [Hc|Hc].
  - destruct (parted_swap l0 s (pc s) (pd s) Hs Hl) as (l' & -> & Hr & Hk'); [unfold inside; simpl; lia..|]. cbn [mbind option_bind].
    destruct (IH l0 (MkScan l' (pa s) (pb s) (pc s - 1) (pd s - 1) true)) as (s' & -> & Hs' & Hpb & Hpc & Hstop); [|done|simpl; lia|].
    + split; simpl; rewrite ?Epc, ?Epd; [done|lia| | | | |].
      * rewrite Hk'. rewrite !decide_False by lia. done.
      * eapply run_swap; [exact Hk'| | |]; [intros k' z' ? ? ? ?; eapply Hlm; [|done]; lia|lia|lia].
      * eapply run_swap; [exact Hk'| | |]; [intros k' z' ? ? ? ?; eapply Hlo; [|done]; lia|lia|lia].
      * eapply run_swap; [exact Hk'| | |]; [intros k' z' ? ? ? ?; eapply Hhi; [|done]; lia| |lia].
        intros Hin Hne z' Hz'. eapply Hhi; [|exact Hz']. lia.
      * eapply run_swap; [exact Hk'| | |]; [intros k' z' ? ? ? ?; eapply Hrm; [|done]; lia| |].
        -- intros Hin Hne. lia.
        -- intros _ z' Hz'. simplify_eq. by right.
    + exists s'. simpl in *. do 3 (split; [done|]). split; [lia|]. intros Hle. destruct (Hstop Hle) as [-> Hz']. split; [|done].
      rewrite Hk', !decide_False by lia. done.
  - destruct (IH l0 (MkScan (arr s) (pa s) (pb s) (pc s - 1) (pd s) (swap_cnt s))) as (s' & -> & Hs' & Hpb & Hpc & Hstop); [|done|simpl; lia|].
    + split; simpl; rewrite ?Epc; try done; [lia|]. eapply run_app; [|exact Hhi]. eapply run_one; [done|]. unfold high. lia.
    + exists s'. simpl in *. do 3 (split; [done|]). split; [lia|done].
Qed.

Lemma partition_spec fuel : forall l0 s, parted l0 s -> a + n <= length l0 -> S (S (pc s)) - pb s <= fuel ->
  exists s', partition_loop cmp fuel a s = Some s' /\ parted l0 s' /\ pb s' = S (pc s').
Proof.
  induction fuel as [|fuel IH]; intros l0 s Hs Hl Hf; cbn [partition_loop].
  { pose proof (pt_pointers _ _ Hs). lia. }
  destruct (scan_up_spec _ l0 s Hs Hl eq_refl) as (s1 & -> & Hs1 & Hpc1 & Hpb1 & Hu). cbn [mbind option_bind].
  destruct (scan_down_spec _ l0 s1 Hs1 Hl eq_refl) as (s2 & -> & Hs2 & Hpb2 & Hpc2 & Hd). cbn [mbind option_bind].
  pose proof Hs2 as [Hm (P1 & P2 & P3 & P4 & P5) Hv Hlm Hlo Hhi Hrm].
  destruct (Nat.ltb_spec (pc s2) (pb s2)).
  { exists s2. split; [done|]. split; [done|]. lia. }
  destruct (Hd ltac:(lia)) as (Eb & y & Hy & Hylow). rewrite Hpb2, Hpc1 in *.
  destruct (Hu ltac:(lia)) as (x & Hx & Hxhigh). rewrite <- Eb in Hx.
  assert (pb s1 <> pc s2) as Hne by (intros E; rewrite E in Hx; simplify_eq; unfold low, high in *; lia).
  rewrite <- Hpb2 in *. destruct (parted_swap l0 s2 (pb s2) (pc s2) Hs2 Hl) as (l' & -> & Hr & Hk'); [unfold inside; simpl; lia..|].
  cbn [mbind option_bind]. apply IH; [|done|simpl; lia]. assert (S (pc s2 - 1) = pc s2) as Epc by lia.
  split; simpl; rewrite ?Epc; [done|lia| | | | |].
  - rewrite Hk'. rewrite !decide_False by lia. done.
  - eapply run_swap; [exact Hk'| | |]; [intros k' z' ? ? ? ?; eapply Hlm; [|done]; lia|lia|lia].
  - eapply run_swap; [exact Hk'| | |]; [intros k' z' ? ? ? ?; eapply Hlo; [|done]; lia| |lia]. intros _ _ z' Hz'. by simplify_eq.
  - eapply run_swap; [exact Hk'| | |]; [intros k' z' ? ? ? ?; eapply Hhi; [|done]; lia|lia|]. intros _ z' Hz'. by simplify_eq.
  - eapply run_swap; [exact Hk'| | |]; [intros k' z' ? ? ? ?; eapply Hrm; [|done]; lia|lia|lia].
Qed.

End Partition.

(** Two neighbouring runs change places. *)
Lemma gather_spec (P Q : A -> Prop) s l x m y : run P l x m -> run Q l m y -> x <= m <= y -> y <= length l ->
  (forall k, x <= k < y -> inside s k) -> s.1 + s.2 <= length l ->
  let r := Nat.min (m - x) (y - m) in
  exists l', swapfunc r l x (y - r) = Some l' /\ rearranged s l l' /\
    run Q l' x (x + (y - m)) /\ run P l' (x + (y - m)) y /\ forall k, ~ (x <= k < y) -> l' !! k = l !! k.
Proof.
  intros HP HQ Hm Hy Hin Hl r.
  destruct (swapfunc_spec r s l x (y - r)) as (l' & -> & Hr & Hk); [|done|lia|].
  { intros k Hk. split; apply Hin; lia. }
  exists l'. split; [done|]. split; [done|]. split; [|split].
  - intros k z Hkk. rewrite Hk. repeat case_decide; intros Hz; (eapply HQ; [|exact Hz]) || lia; lia.
  - intros k z Hkk. rewrite Hk. repeat case_decide; intros Hz; (eapply HP; [|exact Hz]) || lia; lia.
  - intros k Hkk. rewrite Hk. by rewrite !decide_False by lia.
Qed.

Definition disj (s t : nat * nat) : Prop := s.1 + s.2 <= t.1 \/ t.1 + t.2 <= s.1.

(** The places [i] and [j] are in order, or still to be sorted together. *)
Definition settled l (todo : list (nat * nat)) (i j : nat) : Prop :=
  le l i j \/ exists s, s ∈ todo /\ inside s i /\ inside s j.

Lemma three_runs v l a b c d i j : Order cmp -> run (low v) l a b -> run (mid v) l b c -> run (high v) l c d ->
  a <= i < j -> j < d -> le l i j \/ (i < b /\ j < b) \/ (c <= i /\ c <= j).
Proof.
  intros Ord Hlo Hmi Hhi Hij Hj. destruct (decide (j < b)); [right; left; lia|]. destruct (decide (c <= i)); [right; right; lia|].
  left. intros x y Hx Hy.
  assert (cmp x v <= 0)%Z as H1.
  { destruct (decide (i < b)); [assert (low v x) by (eapply Hlo; [|done]; lia); unfold low in *; lia|].
    assert (mid v x) as [->|] by (eapply Hmi; [|done]; lia); [rewrite cmp_refl by done|]; lia. }
  assert (cmp v y <= 0)%Z as H2; [|by eapply cmp_trans].
  destruct (decide (c <= j)); [assert (high v y) by (eapply Hhi; [|done]; lia); apply cmp_swap; unfold high in *; done|].
  assert (mid v y) as [->|] by (eapply Hmi; [|done]; lia); [rewrite cmp_refl by done; lia|]. apply cmp_opp; [done|lia].
Qed.

Lemma qsort_step_spec a n l : a + n <= length l ->
  exists l' parts, step cmp a n l = Some (l', parts) /\ rearranged (a, n) l l' /\
  match parts with
  | None => Order cmp -> forall i j, a <= i < j -> j < a + n -> le l' i j
  | Some (p1, p2) =>
      p2.2 <= p1.2 /\ p1.2 + p2.2 < n /\ disj p1 p2 /\
      (forall i, inside p1 i \/ inside p2 i -> inside (a, n) i) /\
      (Order cmp -> forall i j, a <= i < j -> j < a + n -> settled l' [p1; p2] i j)
  end.
Proof.
  intros Hl. unfold step. destruct (Nat.ltb_spec n 7).
  { destruct (insertion_sort_spec a n l Hl) as (l' & -> & Hr & Ho). exists l', None. split; [done|]. split; [done|]. exact Ho. }
  destruct (pivot_spec l a n ltac:(lia) Hl) as (m & -> & Hm). cbn [mbind option_bind].
  assert (inside (a, n) a) as Ha by (unfold inside; simpl; lia).
  destruct (swap_spec l a m ltac:(lia) ltac:(unfold inside in Hm; simpl in Hm; lia)) as (l1 & -> & Hp1 & Hk1). cbn [mbind option_bind].
  pose proof (swap_rearranged _ _ _ _ _ Ha Hm Hp1 Hk1) as Hr1. pose proof (re_length _ _ _ Hr1) as Hl1.
  destruct (lookup_lt_is_Some_2 l1 a ltac:(lia)) as [v Hv].
  assert (parted a n v l1 (MkScan l1 (a + 1) (a + 1) (a + (n - 1)) (a + (n - 1)) false)) as Hs0.
  { split; simpl; [apply re_refl|lia|done| |apply run_nil|apply run_nil|].
    - rewrite Nat.add_1_r. by eapply run_one; [|left].
    - replace (S (a + (n - 1))) with (a + n) by lia. apply run_nil. }
  destruct (partition_spec a n v n l1 _ Hs0 ltac:(lia) ltac:(simpl; lia)) as (s & -> & Hs & Hpb). cbn [mbind option_bind].
  destruct Hs as [Hmv (P1 & P2 & _ & P4 & P5) Hpv Hlm Hlo Hhi Hrm]. pose proof (re_length _ _ _ Hmv) as Hl2.
  assert (rearranged (a, n) l (arr s)) as Hr2 by (by eapply re_trans).
  destruct (swap_cnt s); simpl negb; cbv iota.
  2: { destruct (insertion_sort_spec a n (arr s) ltac:(lia)) as (l' & -> & Hr & Ho). exists l', None. split; [done|].
       split; [by eapply re_trans|exact Ho]. }
  destruct (gather_spec (mid v) (low v) (a, n) (arr s) a (pa s) (pb s)) as (l2 & -> & Hr3 & Ha1 & Ha2 & Ha3);
    [done|done|lia|lia|unfold inside; simpl; lia|simpl; lia|]. cbn [mbind option_bind].
  pose proof (re_length _ _ _ Hr3) as Hl3.
  assert (Nat.min (pd s - pc s) (a + n - pd s - 1) = Nat.min (S (pd s) - pb s) (a + n - S (pd s))) as -> by lia.
  destruct (gather_spec (high v) (mid v) (a, n) l2 (pb s) (S (pd s)) (a + n)) as (l3 & -> & Hr4 & Hb1 & Hb2 & Hb3);
    [| |lia|lia|unfold inside; simpl; lia|simpl; lia|]; [intros k x Hk; rewrite Ha3 by lia; apply (Hhi k x); lia|
      intros k x Hk; rewrite Ha3 by lia; apply (Hrm k x); lia|]. cbn [mbind option_bind].
  set (d := pb s - pa s) in *. set (r := pd s - pc s).
  assert (forall i, a + n - r <= i < a + n -> inside (a, n) i) by (unfold inside; simpl; lia).
  assert (run (low v) l3 a (a + d)) as Q1 by (intros k x Hk; rewrite Hb3 by lia; apply (Ha1 k x); lia).
  assert (run (mid v) l3 (a + d) (a + n - r)) as Q2.
  { eapply run_app with (pb s); [intros k x Hk; rewrite Hb3 by lia; apply (Ha2 k x); lia|].
    intros k x Hk. apply (Hb1 k x). lia. }
  assert (run (high v) l3 (a + n - r) (a + n)) as Q3 by (intros k x Hk; apply (Hb2 k x); lia).
  exists l3. eexists. split; [done|]. split; [eapply re_trans; [exact Hr2|by eapply re_trans]|].
  assert (Order cmp -> forall i j, a <= i < j -> j < a + n ->
    le l3 i j \/ (inside (a, d) i /\ inside (a, d) j) \/ (inside (a + n - r, r) i /\ inside (a + n - r, r) j)) as Hset.
  { intros Ord i j Hij Hj. destruct (three_runs v l3 a (a + d) (a + n - r) (a + n) i j) as [?|[?|?]]; try done; [by left|right; left|right; right];
      unfold inside; simpl; lia. }
  destruct (Nat.ltb_spec d r); cbn [fst snd]; unfold disj, settled, inside in *; cbn [fst snd] in *.
  - split; [lia|]. split; [lia|]. split; [lia|]. split; [lia|]. intros Ord i j Hij Hj.
    destruct (Hset Ord i j Hij Hj) as [?|[?|?]]; [by left|right; exists (a, d)|right; exists (a + n - r, r)]; (split; [set_solver|done]).
  - split; [lia|]. split; [lia|]. split; [lia|]. split; [lia|]. intros Ord i j Hij Hj.
    destruct (Hset Ord i j Hij Hj) as [?|[?|?]]; [by left|right; exists (a, d)|right; exists (a + n - r, r)]; (split; [set_solver|done]).
Qed.

(** ** The loop and its stack *)

#[local] Instance inside_dec s i : Decision (inside s i).
Proof. unfold inside. apply _. Defined.

Lemma disj_inside s t i : disj s t -> inside s i -> inside t i -> False.
Proof. unfold disj, inside. lia. Qed.

(** The parts of a list have no place in common. *)
Fixpoint apart (segs : list (nat * nat)) : Prop :=
  match segs with [] => True | s :: segs => Forall (disj s) segs /\ apart segs end.
Lemma apart_elem segs s t i : apart segs -> s ∈ segs -> t ∈ segs -> inside s i -> inside t i -> s = t.
Proof.
  induction segs as [|u segs IH]; [set_solver|]. intros [Hu Ha] [->|Hs]%elem_of_cons [->|Ht]%elem_of_cons Hi Hj; [done| | |by apply IH].
  - rewrite Forall_forall in Hu. destruct (disj_inside u t i); auto.
  - rewrite Forall_forall in Hu. destruct (disj_inside u s i); auto.
Qed.

(** Each of the parts [segs] is sorted in place, and nothing else changes. *)
Record sorts (segs : list (nat * nat)) l l' : Prop := {
  so_perm : l ≡ₚ l';
  so_outside : forall i, (forall s, s ∈ segs -> ~ inside s i) -> l' !! i = l !! i;
  so_inside : forall s i, s ∈ segs -> inside s i -> exists j, inside s j /\ l' !! i = l !! j;
  so_sorted : Order cmp -> forall s i j, s ∈ segs -> inside s i -> inside s j -> i < j -> le l' i j
}.

Lemma sorts_nil l : sorts [] l l.
Proof. split; try done; set_solver. Qed.
Lemma sorts_length segs l l' : sorts segs l l' -> length l' = length l.
Proof. intros H. symmetry. by eapply Permutation_length, so_perm. Qed.

(** Where the element at [i] comes from: from the part [i] is in, or from [i] itself. *)
Lemma sorts_source segs l l' i : sorts segs l l' -> apart segs ->
  exists j, l' !! i = l !! j /\ (forall s, s ∈ segs -> inside s i <-> inside s j) /\ (j = i \/ exists s, s ∈ segs /\ inside s i).
Proof.
  intros H Ha. destruct (decide (Exists (fun s => inside s i) segs)) as [(s & Hs & Hi)%Exists_exists|Hn].
  - destruct (so_inside _ _ _ H s i Hs Hi) as (j & Hj & E). exists j. split; [done|]. split; [|eauto].
    intros t Ht. split; intros Hti.
    + by rewrite (apart_elem segs t s i).
    + by rewrite (apart_elem segs t s j).
  - exists i. split; [|split; [done|by left]]. apply (so_outside _ _ _ H). intros s Hs Hi. apply Hn, Exists_exists. eauto.
Qed.

Lemma sorts_seq segs1 segs2 l l1 l2 : sorts segs1 l l1 -> sorts segs2 l1 l2 ->
  (forall s t, s ∈ segs1 -> t ∈ segs2 -> disj s t) -> sorts (segs1 ++ segs2) l l2.
Proof.
  intros [P1 O1 I1 S1] [P2 O2 I2 S2] Hd. 
  assert (forall s i, s ∈ segs1 -> inside s i -> l2 !! i = l1 !! i) as Hkeep.
  { intros s i Hs Hi. apply O2. intros t Ht Hti. by apply (disj_inside s t i); [apply Hd| |]. }
  split; [by rewrite P1| | |].
  - intros i Hi. rewrite O2, O1; [done|intros s Hs; apply Hi, elem_of_app; by left|intros s Hs; apply Hi, elem_of_app; by right].
  - intros s i [Hs|Hs]%elem_of_app Hi.
    + destruct (I1 s i Hs Hi) as (j & Hj & E). exists j. split; [done|]. by rewrite (Hkeep s).
    + destruct (I2 s i Hs Hi) as (j & Hj & E). exists j. split; [done|]. rewrite E. apply O1.
      intros t Ht Htj. by apply (disj_inside t s j); [apply Hd| |].
  - intros Ord s i j [Hs|Hs]%elem_of_app Hi Hj Hij; [|by eapply S2].
    intros x y. rewrite !(Hkeep s) by done. by apply (S1 Ord s).
Qed.

(** One partition, and then the parts of it. *)
Lemma sorts_step s todo stack l l1 l' :
  rearranged s l l1 -> sorts (todo ++ stack) l1 l' -> Forall (disj s) stack -> apart (todo ++ stack) ->
  (forall p i, p ∈ todo -> inside p i -> inside s i) ->
  (Order cmp -> forall i j, inside s i -> inside s j -> i < j -> settled l1 todo i j) -> sorts (s :: stack) l l'.
Proof.
  intros [P1 O1 I1] Hso Hst Hap Hsub Hset. rewrite Forall_forall in Hst.
  assert (forall p i, p ∈ stack -> inside s i -> ~ inside p i) as Hno by (intros p i Hp Hi Hpi; by apply (disj_inside s p i); [apply Hst| |]).
  assert (forall i, inside s i -> exists j, inside s j /\ l' !! i = l1 !! j /\
    (forall p, p ∈ todo -> inside p i <-> inside p j) /\ (j = i \/ exists p, p ∈ todo /\ inside p i)) as Hsrc.
  { clear Hset. intros i Hi. destruct (sorts_source _ _ _ i Hso Hap) as (j & E & Hp & Hj). exists j.
    assert (j = i \/ exists p, p ∈ todo /\ inside p i) as Hj'.
    { destruct Hj as [|(p & [Hin|Hin]%elem_of_app & Hpi)]; [by left|right; eauto|]. by destruct (Hno p i). }
    split; [|split; [done|split; [|done]]]; [|intros p Hin; apply Hp, elem_of_app; by left]. destruct Hj' as [->|(p & Hin & Hpi)]; [done|].
    apply (Hsub p); [done|]. apply Hp; [apply elem_of_app; by left|done]. }
  split.
  - by rewrite P1, (so_perm _ _ _ Hso).
  - intros i Hi. rewrite (so_outside _ _ _ Hso).
    + apply O1. apply Hi. left.
    + intros p [Hp|Hp]%elem_of_app Hpi; [|apply (Hi p); [by right|done]]. apply (Hi s); [left|by apply (Hsub p)].
  - intros p i [->|Hp]%elem_of_cons Hi.
    + destruct (Hsrc i Hi) as (j & Hj & E & _). destruct (I1 j Hj) as (k & Hk & E'). exists k. split; [done|]. by rewrite E.
    + destruct (so_inside _ _ _ Hso p i) as (j & Hj & E); [apply elem_of_app; by right|done|]. exists j. split; [done|]. rewrite E. apply O1.
      intros Hs. by apply (Hno p j).
  - intros Ord p i j [->|Hp]%elem_of_cons Hi Hj Hij; [|apply (so_sorted _ _ _ Hso Ord p); [apply elem_of_app; by right|done..]].
    destruct (decide (Exists (fun p => inside p i /\ inside p j) todo)) as [(p & Hp & Hpi & Hpj)%Exists_exists|Hn].
    { apply (so_sorted _ _ _ Hso Ord p); [apply elem_of_app; by left|done..]. }
    rewrite Exists_exists in Hn. destruct (Hsrc i Hi) as (i' & Hi' & Ei & Hpi & Hii), (Hsrc j Hj) as (j' & Hj' & Ej & Hpj & Hjj).
    assert (i' < j') as Hij'.
    { destruct Hii as [->|(p & Hp & Hp1)], Hjj as [->|(q & Hq & Hq1)]; [done| | |].
      - pose proof (proj1 (Hpj q Hq) Hq1). assert (~ inside q i) by naive_solver. unfold inside in *. lia.
      - pose proof (proj1 (Hpi p Hp) Hp1). assert (~ inside p j) by naive_solver. unfold inside in *. lia.
      - pose proof (proj1 (Hpi p Hp) Hp1) as Hp2. pose proof (proj1 (Hpj q Hq) Hq1) as Hq2.
        assert (~ inside p j) as N1 by naive_solver. assert (~ inside p j') as N2 by (rewrite <- Hpj; done).
        assert (~ inside q i) as N3 by naive_solver. assert (~ inside q i') as N4 by (rewrite <- Hpi; done).
        unfold inside in *. lia. }
    intros x y Hx Hy. rewrite Ei in Hx. rewrite Ej in Hy.
    destruct (Hset Ord i' j' Hi' Hj' Hij') as [Hle|(p & Hp & Hp1 & Hp2)]; [by apply Hle|].
    exfalso. apply Hn. exists p. split; [done|]. by rewrite Hpi, Hpj.
Qed.

(** The sizes of the parts still to be sorted: each round makes their sum smaller. *)
Definition pending (segs : list (nat * nat)) : nat := sum_list (snd <$> segs).
Lemma pending_cons a n segs : pending ((a, n) :: segs) = n + pending segs.
Proof. done. Qed.
Definition fits l (s : nat * nat) : Prop := s.1 + s.2 <= length l.

Lemma settled_drop l todo todo' i j : (forall p, p ∈ todo -> p ∈ todo' \/ p.2 <= 1) -> i < j ->
  settled l todo i j -> settled l todo' i j.
Proof.
  intros Hp Hij [Hle|(p & Hin & Hpi & Hpj)]; [by left|]. destruct (Hp p Hin) as [Hin'|Hs].
  - right. eauto.
  - unfold inside in *. lia.
Qed.

Lemma apart_within s segs todo : Forall (disj s) segs -> apart segs -> apart todo ->
  (forall p i, p ∈ todo -> inside p i -> inside s i) -> Forall (fun p => 1 <= p.2) todo -> Forall (fun p => 1 <= p.2) segs -> apart (todo ++ segs).
Proof.
  intros Hs Ha Ht Hin Hne Hne'. induction todo as [|p todo IH]; [done|]. destruct Ht as [Hp Ht]. apply Forall_cons in Hne as [Hnp Hne]. split.
  - apply Forall_app. split; [done|]. rewrite Forall_forall in *. intros q Hq.
    specialize (Hs q Hq). specialize (Hne' q Hq).
    pose proof (Hin p p.1 ltac:(left) ltac:(unfold inside; lia)) as H1. pose proof (Hin p (p.1 + p.2 - 1) ltac:(left) ltac:(unfold inside; lia)) as H2.
    unfold disj, inside in *. lia.
  - apply IH; [done| |done]. intros q i Hq. apply Hin. by right.
Qed.

(** The parts a round leaves to be sorted, in the order they are. *)
Definition todo_of (parts : option ((nat * nat) * (nat * nat))) : list (nat * nat) :=
  match parts with
  | None => []
  | Some (p1, p2) => (if 1 <? p2.2 then [p2] else []) ++ (if 1 <? p1.2 then [p1] else [])
  end.

Lemma elem_of_todo p1 p2 p : p ∈ todo_of (Some (p1, p2)) <-> (p = p1 \/ p = p2) /\ 1 < p.2.
Proof. simpl. destruct (Nat.ltb_spec 1 p1.2), (Nat.ltb_spec 1 p2.2); rewrite ?elem_of_app, ?list_elem_of_singleton; set_solver by lia. Qed.

Lemma round_spec a n l stack :
  apart ((a, n) :: stack) -> Forall (fits l) ((a, n) :: stack) -> Forall (fun p => 1 <= p.2) stack ->
  exists l1 parts, step cmp a n l = Some (l1, parts) /\ length l1 = length l /\
    (forall p1 p2, parts = Some (p1, p2) -> p2.2 <= p1.2 /\ p1.2 + p2.2 < n) /\
    Forall (fits l) (todo_of parts ++ stack) /\ apart (todo_of parts ++ stack) /\
    Forall (fun p => 1 <= p.2) (todo_of parts ++ stack) /\
    forall l', sorts (todo_of parts ++ stack) l1 l' -> sorts ((a, n) :: stack) l l'.
Proof.
  intros [Hd Ha] [Hfit Hfits]%Forall_cons Hne.
  destruct (qsort_step_spec a n l Hfit) as (l1 & parts & E & Hr & Hparts). exists l1, parts. split; [done|]. split; [by eapply re_length|].
  split; [intros p1 p2 ->; by destruct Hparts as (? & ? & _)|].
  assert (Forall (fun p => 1 <= p.2) (todo_of parts) /\ apart (todo_of parts) /\ (forall p i, p ∈ todo_of parts -> inside p i -> inside (a, n) i) /\
    (Order cmp -> forall i j, inside (a, n) i -> inside (a, n) j -> i < j -> settled l1 (todo_of parts) i j)) as (H1 & H2 & H3 & H4).
  { destruct parts as [[p1 p2]|].
    2: { split; [constructor|]. split; [done|]. split; [set_solver|]. intros Ord i j Hi Hj Hij. left. unfold inside in *. simpl in Hi, Hj.
         apply (Hparts Ord); lia. }
    destruct Hparts as (Hle & Hlt & Hdd & Hin & Hset). split; [|split; [|split]].
    - apply Forall_forall. intros p [_ Hp]%elem_of_todo. lia.
    - assert (disj p2 p1) by (unfold disj in *; lia). simpl. destruct (1 <? p2.2), (1 <? p1.2); simpl; rewrite ?Forall_singleton, ?Forall_nil; done.
    - intros p i [[-> | ->] _]%elem_of_todo Hi; apply Hin; [by left|by right].
    - intros Ord i j Hi Hj Hij. eapply settled_drop with [p1; p2]; [|done|unfold inside in *; simpl in Hi, Hj; apply Hset; [done|lia..]].
      intros p Hp. rewrite elem_of_todo. destruct (decide (1 < p.2)); [left|right; lia]. split; [set_solver|done]. }
  assert (apart (todo_of parts ++ stack)) as Hap by (by eapply apart_within).
  split; [|split; [done|split; [by apply Forall_app|]]].
  - apply Forall_app. split; [|done]. rewrite !Forall_forall in *. intros p Hp. specialize (H1 p Hp).
    pose proof (H3 p (p.1 + p.2 - 1) Hp ltac:(unfold inside; lia)) as Hx. unfold inside, fits in *. simpl in *. lia.
  - intros l' Hso. by eapply sorts_step.
Qed.

Lemma apart_app segs1 segs2 : apart (segs1 ++ segs2) ->
  apart segs1 /\ apart segs2 /\ forall s t, s ∈ segs1 -> t ∈ segs2 -> disj s t.
Proof.
  induction segs1 as [|u segs1 IH]; [set_solver|]. intros [Hu (H1 & H2 & H3)%IH]. apply Forall_app in Hu as [Hu1 Hu2].
  split; [done|]. split; [done|]. rewrite Forall_forall in Hu2. intros s t [->|Hs]%elem_of_cons Ht; auto.
Qed.

Lemma qsort_loop_spec fuel : forall a n stack l,
  (1 <= n \/ stack = []) -> n + pending stack < fuel ->
  apart ((a, n) :: stack) -> Forall (fits l) ((a, n) :: stack) -> Forall (fun p => 1 <= p.2) stack ->
  exists l', qsort_loop cmp fuel a n stack l = Some l' /\ sorts ((a, n) :: stack) l l'.
Proof.
  induction fuel as [|fuel IH]; intros a n stack l Hn Hf Hap Hfits Hne; [lia|]. cbn [qsort_loop].
  destruct (round_spec a n l stack Hap Hfits Hne) as (l1 & parts & -> & Hl1 & Hsize & Hfits1 & Hap1 & Hne1 & Hfin). cbn [mbind option_bind].
  (* a list of parts in hand is sorted from its first on *)
  assert (forall segs l2, length l2 = length l -> (segs = [] \/ pending segs < fuel) -> apart segs -> Forall (fits l) segs -> Forall (fun p => 1 <= p.2) segs ->
    exists l', match segs with [] => Some l2 | (a, n) :: stack => qsort_loop cmp fuel a n stack l2 end = Some l' /\ sorts segs l2 l') as Hgo.
  { intros [|[a' n'] segs] l2 Hl2 Hf2 Ha2 Hfi2 Hn2; [exists l2; split; [done|apply sorts_nil]|]. apply Forall_cons in Hn2 as [Hn1 Hn2].
    destruct Hf2 as [|Hf2]; [done|]. apply IH; try done; [by left|]. unfold fits. by rewrite Hl2. }
  destruct parts as [[[a1 n1] [a2 r2]]|].
  2: { destruct (Hgo stack l1 Hl1 ltac:(lia || tauto || (destruct Hn; [right; lia|by left])) Hap1 Hfits1 Hne1) as (l' & -> & Hso). eauto. }
  destruct (Hsize _ _ eq_refl) as [Hle Hlt]. unfold todo_of in *. cbn [fst snd] in *.
  assert (pending stack + n1 + r2 < fuel) as Hf1 by lia. destruct (Nat.ltb_spec 1 r2).
  - rewrite (proj2 (Nat.ltb_lt 1 n1)) in * by lia. simpl app in *. destruct (Nat.ltb_spec (length stack) PARAMETER_STACK_LEVELS).
    + destruct (Hgo ((a2, r2) :: (a1, n1) :: stack) l1 Hl1) as (l' & -> & Hso); [right; rewrite !pending_cons; lia|done|done|done|eauto].
    + apply (apart_app [(a2, r2)]) in Hap1 as (Hap2 & Hap1 & Hdd). apply Forall_cons in Hfits1 as [Hf2 Hfits1]. apply Forall_cons in Hne1 as [Hn2 Hne1].
      destruct (Hgo [(a2, r2)] l1 Hl1) as (l2 & -> & Hso2); try done.
      { right. rewrite pending_cons. unfold pending. simpl. lia. } { by constructor. } { by constructor. }
      cbn [mbind option_bind]. pose proof (sorts_length _ _ _ Hso2) as Hl2.
      destruct (Hgo ((a1, n1) :: stack) l2) as (l' & -> & Hso); try done.
      { congruence. } { right. rewrite !pending_cons. lia. }
      exists l'. split; [done|]. apply Hfin. by apply (sorts_seq [(a2, r2)] ((a1, n1) :: stack) _ l2).
  - simpl app in *. destruct (Nat.ltb_spec 1 n1); simpl app in *.
    + destruct (Hgo ((a1, n1) :: stack) l1 Hl1) as (l' & -> & Hso); [right; rewrite !pending_cons; lia|done|done|done|eauto].
    + destruct (Hgo stack l1 Hl1) as (l' & -> & Hso); [right; lia|done|done|done|eauto].
Qed.

Lemma qsort_array l (fuel : nat) : length l < fuel ->
  exists l', qsort cmp fuel l = Some l' /\ l ≡ₚ l' /\ (Order cmp -> forall i j, i < j -> le l' i j).
Proof.
  intros Hf. destruct (qsort_loop_spec fuel 0 (length l) [] l) as (l' & E & Hso).
  - by right.
  - unfold pending. simpl. lia.
  - by split; [constructor|].
  - constructor; [unfold fits; simpl; lia|constructor].
  - constructor.
  - exists l'. split; [exact E|]. split; [by eapply so_perm|]. intros Ord i j Hij x y Hi Hj.
    pose proof (lookup_lt_Some _ _ _ Hj) as Hlt. rewrite (sorts_length _ _ _ Hso) in Hlt.
    eapply (so_sorted _ _ _ Hso Ord (0, length l) i j); [left|unfold inside; simpl; lia..|done|done|done].
Qed.

(** C29: qsort sorts.  For every array and every comparison function, with fuel for one round per
    element qsort ends, reads and writes nothing outside the array, and leaves a permutation of
    it; if the comparison is an order (its sign flips with its arguments and "not above" is
    transitive) the result is sorted. *)
Theorem qsort_sorts l (fuel : nat) : length l < fuel ->
  exists l', qsort cmp fuel l = Some l' /\ l ≡ₚ l' /\
    (Order cmp -> forall i j x y, i < j -> l' !! i = Some x -> l' !! j = Some y -> (cmp x y <= 0)%Z).
Proof. intros Hf. destruct (qsort_array l fuel Hf) as (l' & E & Hp & Hs). exists l'. split; [done|]. split; [done|]. intros Ord i j x y Hij. by apply Hs. Qed.

(** ** Searching *)

Definition sorted l : Prop := forall i j, i < j -> le l i j.

Lemma sorted_le l i j x y : Order cmp -> sorted l -> i <= j -> l !! i = Some x -> l !! j = Some y -> (cmp x y <= 0)%Z.
Proof.
  intros Ord Hs Hij Hx Hy. destruct (decide (i = j)) as [->|]; [simplify_eq; by rewrite cmp_refl|]. eapply (Hs i j); [lia|done|done].
Qed.

(** The key is not before [lower] and not from [upper] on. *)
Definition narrowed key l (lower upper : Z) : Prop :=
  (0 <= lower <= upper)%Z /\ (upper <= Z.of_nat (length l))%Z /\
  forall i x, l !! i = Some x -> ((Z.of_nat i < lower)%Z -> (0 < cmp key x)%Z) /\ ((upper <= Z.of_nat i)%Z -> (cmp key x < 0)%Z).

Definition found key l (r : option Z) : Prop :=
  match r with
  | Some i => (0 <= i)%Z /\ exists x, l !! Z.to_nat i = Some x /\ cmp key x = 0%Z
  | None => forall x, x ∈ l -> cmp key x <> 0%Z
  end.

Lemma bsearch_loop_spec fuel key l : Order cmp -> sorted l -> (Z.of_nat (length l) <= 2147483648)%Z -> forall lower upper,
  narrowed key l lower upper -> (upper - lower < Z.of_nat fuel)%Z ->
  exists r, bsearch_loop cmp fuel key l lower upper = Some r /\ found key l r.
Proof.
  intros Ord Hs Hl. induction fuel as [|fuel IH]; intros lower upper (Hlu & Hu & Hn) Hf; [lia|]. cbn [bsearch_loop].
  destruct (Z.ltb_spec lower upper).
  2: { exists None. split; [done|]. intros x [i Hi]%list_elem_of_lookup. destruct (Hn i x Hi). lia. }
  rewrite (u32_small (lower + upper)) by (unfold is_u32; lia).
  assert (lower <= (lower + upper) / 2 < upper)%Z as Hix by zlia. set (ix := ((lower + upper) / 2)%Z) in *.
  destruct (lookup_lt_is_Some_2 l (Z.to_nat ix)) as [x Hx]; [lia|]. rewrite Hx. cbn [mbind option_bind].
  destruct (Z.ltb_spec (cmp key x) 0); [|destruct (Z.gtb_spec (cmp key x) 0)].
  - apply IH; [|lia]. split; [lia|]. split; [lia|]. intros i y Hi. split; [apply (Hn i y Hi)|]. intros Hle.
    pose proof (sorted_le l (Z.to_nat ix) i x y Ord Hs ltac:(lia) Hx Hi). apply Z.nle_gt. intros Hk.
    assert (cmp x key <= 0)%Z by (eapply cmp_trans; [done|by apply cmp_opp]). pose proof (cmp_flip key x). lia.
  - rewrite (u32_small (ix + 1)) by (unfold is_u32; lia). apply IH; [|lia]. split; [lia|]. split; [lia|]. intros i y Hi. split; [|apply (Hn i y Hi)]. intros Hle.
    pose proof (sorted_le l i (Z.to_nat ix) y x Ord Hs ltac:(lia) Hi Hx). apply Z.nle_gt. intros Hk.
    assert (cmp key x <= 0)%Z by (by eapply cmp_trans). lia.
  - exists (Some ix). split; [done|]. split; [lia|]. exists x. split; [done|lia].
Qed.

(** Searching what was sorted decides membership.  For up to 2^31 elements and a comparison
    that is an order, bsearch on the array that qsort leaves ends inside the array, and answers
    with a place that holds an element equal to the key exactly when the array given to qsort had
    such an element, and with NULL otherwise. *)
Theorem bsearch_after_qsort (key : A) l (fuel : nat) : Order cmp -> (Z.of_nat (length l) <= 2147483648)%Z -> length l < fuel ->
  exists l' r, qsort cmp fuel l = Some l' /\ bsearch cmp fuel key l' (Z.of_nat (length l')) = Some r /\
    (is_Some r <-> exists x, x ∈ l /\ cmp key x = 0%Z) /\
    forall i, r = Some i -> exists x, l' !! Z.to_nat i = Some x /\ cmp key x = 0%Z.
Proof.
  intros Ord Hl Hf. destruct (qsort_array l fuel Hf) as (l' & -> & Hp & Hs). exists l'.
  pose proof (Permutation_length Hp) as Hlen. specialize (Hs Ord).
  assert (exists r, bsearch cmp fuel key l' (Z.of_nat (length l')) = Some r /\ found key l' r) as (r & -> & Hr).
  { unfold bsearch. destruct (Z.eqb_spec (Z.of_nat (length l')) 0) as [E|].
    - exists None. split; [done|]. destruct l'; [|simpl in E; lia]. intros x Hx. set_solver.
    - apply bsearch_loop_spec; [done|done|lia| |lia]. split; [lia|]. split; [lia|]. intros i x Hi. apply lookup_lt_Some in Hi. lia. }
  exists r. split; [done|]. split; [done|]. split.
  - setoid_rewrite Hp. destruct r as [i|]; simpl in Hr.
    + split; [|eauto]. intros _. destruct Hr as (_ & x & Hx & Hk). exists x. split; [by eapply list_elem_of_lookup_2|done].
    + split; [intros [? ?]; done|]. intros (x & Hx & Hk). by destruct (Hr x Hx).
  - intros i ->. by destruct Hr as (_ & ?).
Qed.

End Spec.

(** ** Witnesses *)

#[export] Instance Zsub_order : Order Z.sub.
Proof. split; lia. Qed.

Lemma qsort_sorts_witness : exists l', qsort Z.sub 10 [3; 1; 2; 3; 3; 0; 3; 9; 0] = Some l' /\ [3; 1; 2; 3; 3; 0; 3; 9; 0] ≡ₚ l'.
Proof. destruct (qsort_sorts Z.sub [3; 1; 2; 3; 3; 0; 3; 9; 0] 10) as (l' & E & Hp & _); [simpl; lia|]. exists l'. split; [exact E|exact Hp]. Defined.

Lemma bsearch_after_qsort_witness : exists l' i, qsort Z.sub 10 [3; 1; 2; 3; 3; 0; 3; 9; 0] = Some l' /\ bsearch Z.sub 10 9 l' (Z.of_nat (length l')) = Some (Some i).
Proof.
  destruct (bsearch_after_qsort Z.sub 9 [3; 1; 2; 3; 3; 0; 3; 9; 0] 10) as (l' & r & E & Eb & Hr & _); [apply _|simpl; lia|simpl; lia|].
  destruct (proj2 Hr) as [i ->]; [exists 9; split; [apply list_elem_of_In; simpl; tauto|reflexivity]|]. exists l', i. split; [exact E|exact Eb].
Defined.

End QsortSpec.
