(* ===== verification/TreeSearch.v ===== *)
(** newlib/newlib/libc/search: the binary search trees of tsearch.c, tfind.c, tdelete.c, twalk.c and
    tdestroy.c, as nodes in a store.

    A [node_t *] is an address, 0 the null pointer; a [node_t **] is a [Place], the root variable or
    a link of a node.  The comparison is a function on keys.  malloc is a call into the rest of the
    C library: its result is an argument of tsearch. *)

From stdpp Require Import sorting.
From S2P Require Import Prelude QsortSpec.

Module TreeSearch.
Import QsortSpec(Order, cmp_flip, cmp_trans, cmp_refl, cmp_opp, cmp_swap).

(** ** The store *)

Record Node := MkNode { key : Z; llink : Z; rlink : Z }.
Record Store := MkStore { root : Z; nodes : gmap Z Node }.

Inductive Place := Root | LeftLink (a : Z) | RightLink (a : Z).

Definition set_llink (v : Z) (n : Node) : Node := MkNode (key n) v (rlink n).
Definition set_rlink (v : Z) (n : Node) : Node := MkNode (key n) (llink n) v.
Definition on_nodes (f : gmap Z Node -> gmap Z Node) (s : Store) : Store := MkStore (root s) (f (nodes s)).

(** [*rootp], and [*rootp = v]. *)
Definition load_place (s : Store) (P : Place) : option Z :=
  match P with Root => Some (root s) | LeftLink a => llink <$> nodes s !! a | RightLink a => rlink <$> nodes s !! a end.
Definition store_place (s : Store) (P : Place) (v : Z) : Store :=
  match P with
  | Root => MkStore v (nodes s)
  | LeftLink a => on_nodes (alter (set_llink v) a) s
  | RightLink a => on_nodes (alter (set_rlink v) a) s
  end.

Section Code.
Context (compar : Z -> Z -> Z).

(** ** tsearch.c, tfind.c *)

(** The descent of tsearch and tfind: the node with the key, or the place of the null link. *)
Fixpoint descend (fuel : nat) (s : Store) (vkey : Z) (rootp : Place) : option (Z + Place) :=
  match fuel with
  | O => None
  | S fuel =>
      p ← load_place s rootp;
      if p =? 0 then Some (inr rootp)
      else
        n ← nodes s !! p;
        let r := compar vkey (key n) in
        if r =? 0 then Some (inl p)
        else descend fuel s vkey (if r <? 0 then LeftLink p else RightLink p)
  end.

(** [q] is what malloc returns. *)
Definition tsearch (fuel : nat) (s : Store) (vkey : Z) (vrootp : option Place) (q : Z) : option (Z * Store) :=
  match vrootp with
  | None => Some (0, s)
  | Some rootp =>
      r ← descend fuel s vkey rootp;
      match r with
      | inl p => Some (p, s)
      | inr rootp =>
          if negb (q =? 0) then Some (q, on_nodes <[q := MkNode vkey 0 0]> (store_place s rootp q)) else Some (q, s)
      end
  end.

Definition tfind (fuel : nat) (s : Store) (vkey : Z) (vrootp : option Place) : option Z :=
  match vrootp with
  | None => Some 0
  | Some rootp => r ← descend fuel s vkey rootp; Some (match r with inl p => p | inr _ => 0 end)
  end.

(** ** tdelete.c *)

(** The place of the node with the key, and the node above it ([p] for the first one). *)
Fixpoint tdelete_loop (fuel : nat) (s : Store) (vkey : Z) (rootp : Place) (p : Z) : option (option (Place * Z)) :=
  match fuel with
  | O => None
  | S fuel =>
      a ← load_place s rootp; n ← nodes s !! a;
      let cmp := compar vkey (key n) in
      if negb (cmp =? 0) then
        let p := a in
        let rootp := if cmp <? 0 then LeftLink a else RightLink a in
        v ← load_place s rootp;
        if v =? 0 then Some None else tdelete_loop fuel s vkey rootp p
      else Some (Some (rootp, p))
  end.
(** [for (q = r->llink; q->llink != NULL; q = r->llink) r = q;] *)
Fixpoint successor_loop (fuel : nat) (s : Store) (r : Z) : option (Z * Z) :=
  match fuel with
  | O => None
  | S fuel =>
      nr ← nodes s !! r; let q := llink nr in
      nq ← nodes s !! q;
      if negb (llink nq =? 0) then successor_loop fuel s q else Some (r, q)
  end.
(** D1 to D3: what takes the place of the node [a], and the store. *)
Definition unlink (fuel : nat) (s : Store) (a : Z) : option (Z * Store) :=
  n ← nodes s !! a;
  let r := rlink n in let q := llink n in
  if q =? 0 then Some (r, s)
  else if negb (r =? 0) then
    nr ← nodes s !! r;
    if llink nr =? 0 then Some (r, on_nodes (alter (set_llink q) r) s)
    else
      '(r, q) ← successor_loop fuel s r;
      nq ← nodes s !! q;
      let s := on_nodes (alter (set_llink (rlink nq)) r) s in
      n ← nodes s !! a;
      let s := on_nodes (alter (set_llink (llink n)) q) s in
      n ← nodes s !! a;
      Some (q, on_nodes (alter (set_rlink (rlink n)) q) s)
  else Some (q, s).

Definition tdelete (fuel : nat) (s : Store) (vkey : Z) (vrootp : option Place) : option (Z * Store) :=
  match vrootp with
  | None => Some (0, s)
  | Some rootp =>
      p ← load_place s rootp;
      if p =? 0 then Some (0, s)
      else
        f ← tdelete_loop fuel s vkey rootp p;
        match f with
        | None => Some (0, s)
        | Some (rootp, p) =>
            a ← load_place s rootp;
            '(q, s) ← unlink fuel s a;
            Some (p, store_place (on_nodes (delete a) s) rootp q)
        end
  end.
End Code.

(** ** twalk.c, tdestroy.c *)

Inductive VISIT := preorder | postorder | endorder | leaf.

(** The calls of the action, a pointer that is not null. *)
Fixpoint walk (fuel : nat) (s : Store) (root level : Z) : option (list (Z * VISIT * Z)) :=
  match fuel with
  | O => None
  | S fuel =>
      n ← nodes s !! root;
      if (llink n =? 0) && (rlink n =? 0) then Some [(root, leaf, level)]
      else
        l ← (if negb (llink n =? 0) then walk fuel s (llink n) (level + 1) else Some []);
        r ← (if negb (rlink n =? 0) then walk fuel s (rlink n) (level + 1) else Some []);
        Some ((root, preorder, level) :: l ++ (root, postorder, level) :: r ++ [(root, endorder, level)])
  end.
Definition twalk (fuel : nat) (s : Store) (vroot : Z) : option (list (Z * VISIT * Z)) :=
  if negb (vroot =? 0) then walk fuel s vroot 0 else Some [].

(** The keys handed to the caller's function, and the nodes that are left. *)
Fixpoint destroy (fuel : nat) (m : gmap Z Node) (root : Z) : option (list Z * gmap Z Node) :=
  match fuel with
  | O => None
  | S fuel =>
      n ← m !! root;
      '(l, m) ← (if negb (llink n =? 0) then destroy fuel m (llink n) else Some ([], m));
      n ← m !! root;
      '(r, m) ← (if negb (rlink n =? 0) then destroy fuel m (rlink n) else Some ([], m));
      n ← m !! root;
      Some (l ++ r ++ [key n], delete root m)
  end.
Definition tdestroy (fuel : nat) (s : Store) (vrootp : Z) : option (list Z * Store) :=
  if negb (vrootp =? 0) then '(ks, m) ← destroy fuel (nodes s) vrootp; Some (ks, MkStore (root s) m) else Some ([], s).

(** ** Trees in the store *)

Inductive Tree := Leaf | Branch (a k : Z) (l r : Tree).

(** A node and its key, in order. *)
Fixpoint items (t : Tree) : list (Z * Z) := match t with Leaf => [] | Branch a k l r => items l ++ (a, k) :: items r end.
Definition addrs (t : Tree) : list Z := (items t).*1.

Fixpoint rep (m : gmap Z Node) (p : Z) (t : Tree) : Prop :=
  match t with
  | Leaf => p = 0
  | Branch a k l r => p = a /\ a <> 0 /\ exists pl pr, m !! a = Some (MkNode k pl pr) /\ rep m pl l /\ rep m pr r
  end.

Lemma addrs_branch a k l r : addrs (Branch a k l r) = addrs l ++ a :: addrs r.
Proof. unfold addrs. simpl. by rewrite fmap_app. Qed.

Lemma elem_of_branch b a k l r : (b ∈ addrs (Branch a k l r)) <-> b = a \/ (b ∈ addrs l) \/ (b ∈ addrs r).
Proof. rewrite addrs_branch. set_solver. Qed.

Lemma rep_frame m m' t : forall p, rep m p t -> (forall a, a ∈ addrs t -> m' !! a = m !! a) -> rep m' p t.
Proof.
  induction t as [|a k l IHl r IHr]; intros p; [done|]. rewrite addrs_branch. intros (-> & Ha & pl & pr & Hn & Hl & Hr) Hm. split; [done|]. split; [done|].
  exists pl, pr. split; [rewrite Hm; [done|set_solver]|]. split; [apply IHl|apply IHr]; try done; intros; apply Hm; set_solver.
Qed.
Lemma rep_null m t : rep m 0 t -> t = Leaf.
Proof. destruct t; [done|]. by intros (<- & ? & _). Qed.
Lemma rep_branch m p t : rep m p t -> p <> 0 -> exists k l r, t = Branch p k l r.
Proof. destruct t as [|a k l r]; [by intros ->|]. intros (-> & _) _. by exists k, l, r. Qed.

(** A tree with a hole: the way from the hole up to the root. *)
Inductive Frame := InLeft (a k : Z) (r : Tree) | InRight (a k : Z) (l : Tree).
Fixpoint plug (c : list Frame) (t : Tree) : Tree :=
  match c with [] => t | InLeft a k r :: c => plug c (Branch a k t r) | InRight a k l :: c => plug c (Branch a k l t) end.
Fixpoint before (c : list Frame) : list (Z * Z) :=
  match c with [] => [] | InLeft _ _ _ :: c => before c | InRight a k l :: c => before c ++ items l ++ [(a, k)] end.
Fixpoint after (c : list Frame) : list (Z * Z) :=
  match c with [] => [] | InLeft a k r :: c => (a, k) :: items r ++ after c | InRight _ _ _ :: c => after c end.

Lemma items_plug c : forall t, items (plug c t) = before c ++ items t ++ after c.
Proof. induction c as [|[a k r|a k l] c IH]; intros t; simpl; [by rewrite app_nil_r|..]; rewrite IH; simpl; by rewrite <- !app_assoc. Qed.

(** The hole is at the place [P]. *)
Fixpoint hole (s : Store) (P : Place) (c : list Frame) : Prop :=
  match c with
  | [] => P = Root
  | InLeft a k r :: c => P = LeftLink a /\ a <> 0 /\ (exists v pr, nodes s !! a = Some (MkNode k v pr) /\ rep (nodes s) pr r) /\
      exists P', load_place s P' = Some a /\ hole s P' c
  | InRight a k l :: c => P = RightLink a /\ a <> 0 /\ (exists v pl, nodes s !! a = Some (MkNode k pl v) /\ rep (nodes s) pl l) /\
      exists P', load_place s P' = Some a /\ hole s P' c
  end.

Definition context (c : list Frame) : list Z := (before c ++ after c).*1.
Lemma context_left a k r c x : x ∈ context (InLeft a k r :: c) <-> x = a \/ x ∈ addrs r \/ x ∈ context c.
Proof. unfold context, addrs. simpl. rewrite !fmap_app. simpl. rewrite fmap_app. set_solver. Qed.
Lemma context_right a k l c x : x ∈ context (InRight a k l :: c) <-> x = a \/ x ∈ addrs l \/ x ∈ context c.
Proof. unfold context, addrs. simpl. rewrite !fmap_app. simpl. set_solver. Qed.

Lemma store_place_local s1 s2 P v b : nodes s1 !! b = nodes s2 !! b -> nodes (store_place s1 P v) !! b = nodes (store_place s2 P v) !! b.
Proof. intros E. destruct P as [|a|a]; simpl; [done|..]; (destruct (decide (a = b)) as [->|]; [by rewrite !lookup_alter_eq, E|by rewrite !lookup_alter_ne]). Qed.

(** The node that a place is part of. *)
Definition owner (P : Place) : option Z := match P with Root => None | LeftLink a | RightLink a => Some a end.
Lemma store_place_other s P v b : owner P <> Some b -> nodes (store_place s P v) !! b = nodes s !! b.
Proof. intros Ho. destruct P as [|a|a]; simpl in *; [done|..]; apply lookup_alter_ne; congruence. Qed.
Lemma store_place_root s P v : root (store_place s P v) = match P with Root => v | _ => root s end.
Proof. by destruct P. Qed.
Lemma store_place_same s P v b : load_place s P = Some v -> nodes (store_place s P v) !! b = nodes s !! b.
Proof.
  destruct P as [|a|a]; simpl; [done|..]; intros E; (destruct (decide (a = b)) as [->|]; [rewrite lookup_alter_eq|by rewrite lookup_alter_ne]);
    (destruct (nodes s !! b) as [[k x y]|]; simpl in *; [by simplify_eq|done]).
Qed.
Lemma hole_owner s P c : hole s P c -> match owner P with None => c = [] | Some a => a ∈ context c end.
Proof.
  destruct c as [|[a k r|a k l] c]; simpl; [by intros ->|..]; intros (-> & _); simpl; [rewrite context_left|rewrite context_right]; by left.
Qed.

(** Filling the hole with another tree: nothing but its place changes on the way up. *)
Lemma plug_rep c : forall s s' P v u, hole s P c -> NoDup (context c) ->
  (forall b, b ∈ context c -> nodes s' !! b = nodes (store_place s P v) !! b) -> root s' = root (store_place s P v) ->
  rep (nodes s') v u -> rep (nodes s') (root s') (plug c u).
Proof.
  induction c as [|f c IH]; intros s s' P v u Hh Hnd Hs Hr Hu; [simpl in Hh; subst P; by rewrite Hr|].
  assert (exists a, owner P = Some a /\ (a ∉ context c) /\ NoDup (context c) /\ rep (nodes s') a (plug [f] u) /\ exists P', load_place s P' = Some a /\ hole s P' c) as
    (a & Ho & Ha & Hndc & Hrep & P' & HP' & Hh').
  { destruct f as [a k r|a k l]; destruct Hh as (-> & Ha0 & (x & y & Hn & Hsub) & Hup); exists a; (split; [done|]).
    - assert (NoDup (a :: addrs r ++ context c)) as [Ha Hrc]%NoDup_cons.
      { eapply NoDup_Permutation_proper; [|exact Hnd]. unfold context, addrs. simpl. rewrite !fmap_app. simpl. rewrite fmap_app. solve_Permutation. }
      apply NoDup_app in Hrc as (_ & Hd & Hndc). split; [set_solver|]. split; [done|]. split; [|done]. simpl. split; [done|]. split; [done|].
      exists v, y. split; [rewrite Hs by (rewrite context_left; by left); simpl; by rewrite lookup_alter_eq, Hn|]. split; [done|].
      apply (rep_frame (nodes s)); [done|]. intros b Hb. rewrite Hs by (rewrite context_left; auto). simpl. apply lookup_alter_ne. set_solver.
    - assert (NoDup (a :: addrs l ++ context c)) as [Ha Hrc]%NoDup_cons.
      { eapply NoDup_Permutation_proper; [|exact Hnd]. unfold context, addrs. simpl. rewrite !fmap_app. simpl. solve_Permutation. }
      apply NoDup_app in Hrc as (_ & Hd & Hndc). split; [set_solver|]. split; [done|]. split; [|done]. simpl. split; [done|]. split; [done|].
      exists y, v. split; [rewrite Hs by (rewrite context_right; by left); simpl; by rewrite lookup_alter_eq, Hn|]. split; [|done].
      apply (rep_frame (nodes s)); [done|]. intros b Hb. rewrite Hs by (rewrite context_right; auto). simpl. apply lookup_alter_ne. set_solver. }
  replace (plug (f :: c) u) with (plug c (plug [f] u)) by (by destruct f). apply (IH s s' P' a); [done|done| | |done].
  - intros b Hb. rewrite Hs by (destruct f; [rewrite context_left|rewrite context_right]; auto). rewrite (store_place_same s P' a) by done. apply store_place_other. congruence.
  - rewrite Hr, !store_place_root. destruct P; [done|..]; destruct P'; try done; simpl in HP'; congruence.
Qed.

(** ** Order *)

Section Order.
Context (compar : Z -> Z -> Z).

Definition precedes (x y : Z * Z) : Prop := compar x.2 y.2 < 0.
Definition ordered (L : list (Z * Z)) : Prop := StronglySorted precedes L.

(** The key [k] belongs between the parts of the context. *)
Definition around (k : Z) (c : list Frame) : Prop :=
  Forall (fun x => 0 < compar k x.2) (before c) /\ Forall (fun x => compar k x.2 < 0) (after c).

Lemma ordered_app L1 L2 : ordered (L1 ++ L2) <-> ordered L1 /\ ordered L2 /\ (forall x y, x ∈ L1 -> y ∈ L2 -> compar x.2 y.2 < 0).
Proof.
  unfold ordered. induction L1 as [|x L1 IH]; simpl; [split; [intros H; split; [constructor|]; split; [done|]; intros x y Hx; set_solver|tauto]|].
  split.
  - intros [H1 H2]%StronglySorted_inv. apply IH in H1 as (H3 & H4 & H5). apply Forall_app in H2 as [H6 H7]. rewrite Forall_forall in H7.
    split; [by constructor|]. split; [done|]. intros y z [->|Hy]%elem_of_cons Hz; [by apply H7|by apply H5].
  - intros ([H1 H2]%StronglySorted_inv & H3 & H4). constructor; [apply IH; split; [done|]; split; [done|]; intros y z Hy; apply H4; set_solver|].
    apply Forall_app. split; [done|]. rewrite Forall_forall. intros y Hy. apply H4; set_solver.
Qed.
Lemma ordered_cons x L : ordered (x :: L) <-> ordered L /\ Forall (precedes x) L.
Proof. split; [intros H; by apply StronglySorted_inv in H|]. intros [H1 H2]. by constructor. Qed.

Context `{!Order compar}.

Lemma cmp_lt_le x y z : compar x y < 0 -> compar y z <= 0 -> compar x z < 0.
Proof using All.
  intros H1 H2. destruct (Z.lt_ge_cases (compar x z) 0) as [|H]; [done|]. exfalso. apply (cmp_opp compar z x) in H.
  pose proof (cmp_trans y z x H2 H). pose proof (cmp_flip x y). lia.
Qed.
Lemma cmp_le_lt x y z : compar x y <= 0 -> compar y z < 0 -> compar x z < 0.
Proof using All.
  intros H1 H2. destruct (Z.lt_ge_cases (compar x z) 0) as [|H]; [done|]. exfalso. apply (cmp_opp compar z x) in H.
  pose proof (cmp_trans z x y H H1). pose proof (cmp_flip y z). lia.
Qed.

Lemma around_left k a ka r c t : ordered (items (plug c (Branch a ka t r))) -> around k c -> compar k ka < 0 -> around k (InLeft a ka r :: c).
Proof using All.
  intros Ho [H1 H2] Hk. split; [done|]. simpl. rewrite items_plug in Ho. apply ordered_app in Ho as (_ & Ho & _). simpl in Ho.
  rewrite <- app_assoc in Ho. apply ordered_app in Ho as (_ & Ho & _). simpl in Ho. apply ordered_cons in Ho as [_ Ho].
  constructor; [done|]. apply Forall_app. split; [|done]. apply Forall_app in Ho as [Ho _]. eapply Forall_impl; [exact Ho|]. intros x Hx.
  unfold precedes in Hx. simpl in Hx |- *. eapply cmp_lt_le; [done|lia].
Qed.
Lemma around_right k a ka l c t : ordered (items (plug c (Branch a ka l t))) -> around k c -> 0 < compar k ka -> around k (InRight a ka l :: c).
Proof using All.
  intros Ho [H1 H2] Hk. split; [|done]. simpl. rewrite items_plug in Ho. apply ordered_app in Ho as (_ & Ho & _). simpl in Ho.
  rewrite <- app_assoc in Ho. apply ordered_app in Ho as (_ & _ & Ho). apply Forall_app. split; [done|]. apply Forall_app. split; [|by constructor].
  rewrite Forall_forall. intros x Hx. specialize (Ho x (a, ka) Hx ltac:(set_solver)). simpl in Ho.
  apply cmp_flip. eapply cmp_lt_le; [exact Ho|]. apply (cmp_swap compar). done.
Qed.

Lemma descend_spec s k u : forall c P p fuel, hole s P c -> load_place s P = Some p -> rep (nodes s) p u -> ordered (items (plug c u)) -> around k c ->
  (length (items u) < fuel)%nat ->
  (exists a k' l r c', descend compar fuel s k P = Some (inl a) /\ a <> 0 /\ plug c' (Branch a k' l r) = plug c u /\ compar k k' = 0) \/
  (exists P' c', descend compar fuel s k P = Some (inr P') /\ hole s P' c' /\ load_place s P' = Some 0 /\ plug c' Leaf = plug c u /\ around k c').
Proof using All.
  induction u as [|a ka l IHl r IHr]; intros c P p [|fuel] Hh Hp Hrep Ho Hk Hf; try (simpl in Hf; lia); cbn [descend]; rewrite Hp; cbn [mbind option_bind].
  - simpl in Hrep. subst p. right. exists P, c. split; [done|]. by split_and!.
  - destruct Hrep as (-> & Ha & pl & pr & Hn & Hl & Hr). rewrite (proj2 (Z.eqb_neq a 0)), Hn by done. cbn [mbind option_bind key]. simpl in Hf. rewrite length_app in Hf. simpl in Hf.
    destruct (Z.eqb_spec (compar k ka) 0) as [E|E]; [left; exists a, ka, l, r, c; by split_and!|]. destruct (Z.ltb_spec (compar k ka) 0) as [Hlt|Hge].
    + apply (IHl (InLeft a ka r :: c) (LeftLink a) pl fuel); [|simpl; by rewrite Hn|done|done|by eapply around_left|lia].
      simpl. split; [done|]. split; [done|]. split; [by exists pl, pr|by exists P].
    + apply (IHr (InRight a ka l :: c) (RightLink a) pr fuel); [|simpl; by rewrite Hn|done|done|eapply around_right; [done|done|lia]|lia].
      simpl. split; [done|]. split; [done|]. split; [by exists pr, pl|by exists P].
Qed.

Lemma tdelete_loop_spec s k u : forall c P p0 a fuel, hole s P c -> load_place s P = Some a -> rep (nodes s) a u -> u <> Leaf -> ordered (items (plug c u)) -> around k c ->
  p0 <> 0 -> (length (items u) < fuel)%nat ->
  (exists P' p' a' k' l r c', tdelete_loop compar fuel s k P p0 = Some (Some (P', p')) /\ p' <> 0 /\ hole s P' c' /\ load_place s P' = Some a' /\
    rep (nodes s) a' (Branch a' k' l r) /\ plug c' (Branch a' k' l r) = plug c u /\ compar k k' = 0) \/
  (exists c', tdelete_loop compar fuel s k P p0 = Some None /\ plug c' Leaf = plug c u /\ around k c').
Proof using All.
  induction u as [|a ka l IHl r IHr]; intros c P p0 p [|fuel] Hh Hp Hrep Hu Ho Hk Hp0 Hf; try (simpl in Hf; lia); try done; cbn [tdelete_loop]; rewrite Hp; cbn [mbind option_bind].
  pose proof Hrep as (-> & Ha & pl & pr & Hn & Hl & Hr). rewrite Hn. cbn [mbind option_bind key]. simpl in Hf. rewrite length_app in Hf. simpl in Hf.
  destruct (Z.eqb_spec (compar k ka) 0) as [E|E]; cbn [negb]; [left; exists P, p0, a, ka, l, r, c; by split_and!|].
  destruct (Z.ltb_spec (compar k ka) 0) as [Hlt|Hge].
  - assert (hole s (LeftLink a) (InLeft a ka r :: c)) as Hh' by (simpl; split; [done|]; split; [done|]; split; [by exists pl, pr|by exists P]).
    assert (around k (InLeft a ka r :: c)) as Hk' by (by eapply around_left).
    assert (load_place s (LeftLink a) = Some pl) as Hpl by (simpl; by rewrite Hn). rewrite Hpl. cbn [mbind option_bind].
    destruct (Z.eqb_spec pl 0) as [->|Hnz]; [right; exists (InLeft a ka r :: c); split; [done|]; split; [by rewrite (rep_null _ _ Hl)|done]|].
    apply (IHl (InLeft a ka r :: c) (LeftLink a) a pl fuel); try done; [by intros ->|lia].
  - assert (hole s (RightLink a) (InRight a ka l :: c)) as Hh' by (simpl; split; [done|]; split; [done|]; split; [by exists pr, pl|by exists P]).
    assert (around k (InRight a ka l :: c)) as Hk' by (eapply around_right; [done|done|lia]).
    assert (load_place s (RightLink a) = Some pr) as Hpr by (simpl; by rewrite Hn). rewrite Hpr. cbn [mbind option_bind].
    destruct (Z.eqb_spec pr 0) as [->|Hnz]; [right; exists (InRight a ka l :: c); split; [done|]; split; [by rewrite (rep_null _ _ Hr)|done]|].
    apply (IHr (InRight a ka l :: c) (RightLink a) a pr fuel); try done; [by intros ->|lia].
Qed.
End Order.

(** ** Taking a node out *)

(** The leftmost node of the tree [l] below [b]: without it the tree is the one that the link above it then leads to. *)
Lemma successor_spec m l : forall b kb rr pb fuel s, nodes s = m -> rep m pb (Branch b kb l rr) -> l <> Leaf -> NoDup (addrs (Branch b kb l rr)) -> (length (items l) < fuel)%nat ->
  exists r q kq x t, successor_loop fuel s pb = Some (r, q) /\ m !! q = Some (MkNode kq 0 x) /\ q <> 0 /\ r <> q /\ r ∈ addrs t /\
    items (Branch b kb l rr) = (q, kq) :: items t /\ rep (alter (set_llink x) r m) pb t.
Proof.
  induction l as [|c kc l1 IH l2 _]; intros b kb rr pb [|fuel] s Hs Hrep Hl Hnd Hf; try done; try (simpl in Hf; lia). subst m. cbn [successor_loop].
  pose proof Hrep as (-> & Hb & pl & pr & Hnb & Hrl & Hrr). pose proof Hrl as (-> & Hc & p1 & p2 & Hnc & Hr1 & Hr2).
  rewrite Hnb. cbn [mbind option_bind llink]. rewrite Hnc. cbn [mbind option_bind llink]. rewrite !addrs_branch in Hnd.
  assert (b <> c /\ (b ∉ addrs l2) /\ (b ∉ addrs rr) /\ (forall d, d ∈ addrs (Branch c kc l1 l2) -> d <> b /\ d ∉ addrs rr) /\ NoDup (addrs (Branch c kc l1 l2))) as (Hbc & Hb2 & Hbr & Hdis & Hndc).
  { rewrite addrs_branch. apply NoDup_app in Hnd as (H1 & H2 & [H3 H4]%NoDup_cons). split; [intros ->; apply (H2 c); set_solver|].
    split; [intros Hin; apply (H2 b); set_solver|]. split; [done|]. split; [|done]. intros d Hd. specialize (H2 d Hd). set_solver. }
  destruct (Z.eqb_spec p1 0) as [->|Hp1]; cbn [negb].
  - rewrite (rep_null _ _ Hr1) in *. exists b, c, kc, p2, (Branch b kb l2 rr). split; [done|]. split; [done|]. split; [done|]. split; [done|].
    split; [rewrite addrs_branch; set_solver|]. split; [done|]. simpl. split; [done|]. split; [done|]. exists p2, pr. split; [by rewrite lookup_alter_eq, Hnb|].
    split; (eapply rep_frame; [done|]); intros d Hd; apply lookup_alter_ne; set_solver.
  - destruct (IH c kc l2 c fuel s eq_refl Hrl) as (r & q & kq & x & t & E & Hq & Hq0 & Hrq & Hrt & Hit & Hrep'); [by intros ->|done|simpl in Hf; rewrite length_app in Hf; simpl in Hf; lia|].
    exists r, q, kq, x, (Branch b kb t rr). split; [done|]. split; [done|]. split; [done|]. split; [done|]. split; [rewrite addrs_branch; set_solver|].
    assert (r ∈ addrs (Branch c kc l1 l2)) as Hrin by (unfold addrs in *; rewrite Hit; simpl; set_solver). destruct (Hdis r Hrin) as [Hrb Hrr'].
    split; [simpl items in Hit |- *; by rewrite Hit|]. simpl. split; [done|]. split; [done|]. exists c, pr. split; [by rewrite lookup_alter_ne, Hnb|]. split; [done|].
    eapply rep_frame; [done|]. intros d Hd. apply lookup_alter_ne. set_solver.
Qed.

Lemma unlink_spec fuel s a k l r : rep (nodes s) a (Branch a k l r) -> NoDup (addrs (Branch a k l r)) -> (length (items r) < fuel)%nat ->
  exists q s' u, unlink fuel s a = Some (q, s') /\ root s' = root s /\ rep (nodes s') q u /\ items u = items l ++ items r /\
    (forall b, b ∉ addrs l -> b ∉ addrs r -> nodes s' !! b = nodes s !! b).
Proof.
  intros (_ & Ha & pl & pr & Hn & Hl & Hr) Hnd Hf. unfold unlink. rewrite Hn. cbn [mbind option_bind llink rlink].
  rewrite addrs_branch in Hnd. apply NoDup_app in Hnd as (_ & Hlr & [Har Hndr]%NoDup_cons).
  destruct (Z.eqb_spec pl 0) as [->|Hpl]; [exists pr, s, r; rewrite (rep_null _ _ Hl); by split_and!|].
  destruct (Z.eqb_spec pr 0) as [->|Hpr]; cbn [negb]; [exists pl, s, l; rewrite (rep_null _ _ Hr); split_and!; try done; by rewrite app_nil_r|].
  destruct (rep_branch _ _ _ Hr Hpr) as (kr & r1 & r2 & ->). pose proof Hr as (_ & _ & p1 & p2 & Hnr & Hr1 & Hr2). rewrite Hnr. cbn [mbind option_bind llink].
  destruct (Z.eqb_spec p1 0) as [->|Hp1].
  - rewrite (rep_null _ _ Hr1) in *. rewrite addrs_branch in *. apply NoDup_app in Hndr as (_ & _ & [Hpr2 _]%NoDup_cons).
    exists pr, (on_nodes (alter (set_llink pl) pr) s), (Branch pr kr l r2). split; [done|]. split; [done|]. split; [|split; [done|]].
    + simpl. split; [done|]. split; [done|]. exists pl, p2. split; [by rewrite lookup_alter_eq, Hnr|].
      split; (eapply rep_frame; [done|]); intros d Hd; apply lookup_alter_ne; [|set_solver]. intros <-. apply (Hlr pr Hd). set_solver.
    + intros b _ Hb. simpl. apply lookup_alter_ne. set_solver.
  - destruct (successor_spec (nodes s) r1 pr kr r2 pr fuel s eq_refl Hr) as (b & q & kq & x & t & -> & Hq & Hq0 & Hbq & Hbt & Hit & Hrep);
      [by intros ->|done|simpl in Hf; rewrite length_app in Hf; lia|]. cbn [mbind option_bind]. rewrite Hq. cbn [mbind option_bind rlink].
    assert (addrs (Branch pr kr r1 r2) = q :: addrs t) as Hat by (unfold addrs; by rewrite Hit). rewrite Hat in *. apply NoDup_cons in Hndr as [Hqt _].
    assert (b <> a /\ q <> a /\ (b ∉ addrs l) /\ (q ∉ addrs l)) as (Hba & Hqa & Hbl & Hql).
    { split; [intros ->; set_solver|]. split; [intros ->; set_solver|]. split; intros Hin; apply (Hlr _ Hin); set_solver. }
    simpl nodes. rewrite lookup_alter_ne, Hn by done. cbn [mbind option_bind llink on_nodes nodes]. rewrite lookup_alter_ne, lookup_alter_ne, Hn by done. cbn [mbind option_bind rlink].
    eexists q, _, (Branch q kq l t). split; [done|]. split; [done|]. split; [|split; [cbn [items] in Hit |- *; by rewrite Hit|]].
    + simpl. split; [done|]. split; [done|]. exists pl, pr. split; [by rewrite !lookup_alter_eq, lookup_alter_ne, Hq by done|].
      split; (eapply rep_frame; [done|]); intros d Hd.
      * by rewrite !lookup_alter_ne by (by intros ->).
      * by rewrite (lookup_alter_ne _ _ q), (lookup_alter_ne _ _ q) by (by intros ->).
    + intros d _ Hd. apply not_elem_of_cons in Hd as [Hdq Hdt]. simpl. by rewrite !lookup_alter_ne by (by intros ->).
Qed.

(** ** The set that a tree stands for *)

Section Set_.
Context (compar : Z -> Z -> Z) `{!Order compar}.
Local Abbreviation ordered := (ordered compar).
Local Abbreviation around := (around compar).

(** The contents of a tree as a list of nodes with their keys, in order: looking a key up, entering and removing it. *)
Fixpoint lookup_key (k : Z) (L : list (Z * Z)) : Z := match L with [] => 0 | x :: L => if compar k x.2 =? 0 then x.1 else lookup_key k L end.
Fixpoint enter (k q : Z) (L : list (Z * Z)) : list (Z * Z) :=
  match L with [] => [(q, k)] | x :: L => if compar k x.2 <? 0 then (q, k) :: x :: L else x :: enter k q L end.
Definition leave (k : Z) (L : list (Z * Z)) : list (Z * Z) := filter (fun x => compar k x.2 <> 0) L.

Lemma ordered_around k a k' L1 L2 : ordered (L1 ++ (a, k') :: L2) -> compar k k' = 0 ->
  Forall (fun x => 0 < compar k x.2) L1 /\ Forall (fun x => compar k x.2 < 0) L2.
Proof using All.
  intros (_ & [_ H2]%ordered_cons & H)%ordered_app E. split; rewrite Forall_forall in *; intros x Hx.
  - specialize (H x (a, k') Hx ltac:(set_solver)). simpl in H. apply (proj1 (cmp_flip _ _)). refine (cmp_lt_le compar _ _ _ H _). apply (cmp_opp compar). lia.
  - specialize (H2 x Hx). refine (cmp_le_lt compar _ _ _ _ H2). simpl. lia.
Qed.

Lemma lookup_key_skip k L1 L2 : Forall (fun x => 0 < compar k x.2) L1 -> lookup_key k (L1 ++ L2) = lookup_key k L2.
Proof. induction 1 as [|x L1 Hx _ IH]; [done|]. simpl. by rewrite (proj2 (Z.eqb_neq _ _)) by lia. Qed.
Lemma lookup_key_none k L : Forall (fun x => compar k x.2 < 0) L -> lookup_key k L = 0.
Proof. induction 1 as [|x L1 Hx _ IH]; [done|]. simpl. by rewrite (proj2 (Z.eqb_neq _ _)) by lia. Qed.
Lemma lookup_key_found k a k' L1 L2 : ordered (L1 ++ (a, k') :: L2) -> compar k k' = 0 -> lookup_key k (L1 ++ (a, k') :: L2) = a.
Proof using All. intros Ho E. destruct (ordered_around k a k' L1 L2 Ho E) as [H _]. rewrite lookup_key_skip by done. simpl. by rewrite E. Qed.
Lemma enter_here k q L1 L2 : Forall (fun x => 0 < compar k x.2) L1 -> Forall (fun x => compar k x.2 < 0) L2 -> enter k q (L1 ++ L2) = L1 ++ (q, k) :: L2.
Proof.
  induction 1 as [|x L1 Hx _ IH]; intros H2; simpl.
  - destruct H2 as [|y L2 Hy _]; [done|]. simpl. by rewrite (proj2 (Z.ltb_lt _ _)).
  - rewrite (proj2 (Z.ltb_ge _ _)) by lia. by rewrite IH.
Qed.
Lemma leave_none k L : Forall (fun x => compar k x.2 <> 0) L -> leave k L = L.
Proof. intros H. unfold leave. induction H as [|x L Hx _ IH]; [done|]. by rewrite filter_cons_True, IH. Qed.
Lemma leave_found k a k' L1 L2 : ordered (L1 ++ (a, k') :: L2) -> compar k k' = 0 -> leave k (L1 ++ (a, k') :: L2) = L1 ++ L2.
Proof using All.
  intros Ho E. destruct (ordered_around k a k' L1 L2 Ho E) as [H1 H2]. unfold leave. rewrite filter_app, filter_cons_False by (simpl; auto).
  f_equal; apply leave_none; eapply Forall_impl; [done| |done|]; simpl; intros; lia.
Qed.

(** The store holds a tree with these contents, in order, and nothing else. *)
Definition holds (s : Store) (L : list (Z * Z)) : Prop :=
  exists t, rep (nodes s) (root s) t /\ items t = L /\ NoDup L.*1 /\ ordered L /\ forall b, is_Some (nodes s !! b) -> b ∈ L.*1.

Inductive Op := Search (vkey q : Z) | Find (vkey : Z) | Delete (vkey : Z).
Definition operate (fuel : nat) (s : Store) (o : Op) : option (Z * Store) :=
  match o with
  | Search k q => tsearch compar fuel s k (Some Root) q
  | Find k => r ← tfind compar fuel s k (Some Root); Some (r, s)
  | Delete k => tdelete compar fuel s k (Some Root)
  end.
(** What the set is after an operation, and what the operation returns. *)
Definition after_op (L : list (Z * Z)) (o : Op) : list (Z * Z) :=
  match o with
  | Search k q => if (lookup_key k L =? 0) && negb (q =? 0) then enter k q L else L
  | Find k => L
  | Delete k => leave k L
  end.
Definition answer (L : list (Z * Z)) (o : Op) (r : Z) : Prop :=
  match o with
  | Search k q => r = if lookup_key k L =? 0 then q else lookup_key k L
  | Find k => r = lookup_key k L
  | Delete k => r = 0 <-> lookup_key k L = 0
  end.
(** malloc returns the null pointer or a node that is not in use. *)
Definition allowed (L : list (Z * Z)) (o : Op) : Prop := match o with Search k q => q ∉ L.*1 | _ => True end.

Lemma tsearch_step fuel s L k q : holds s L -> q ∉ L.*1 -> (length L < fuel)%nat ->
  exists r s', operate fuel s (Search k q) = Some (r, s') /\ answer L (Search k q) r /\ holds s' (after_op L (Search k q)).
Proof using All.
  intros (t & Hrep & <- & Hnd & Ho & Hdom) Hq Hf. cbn [operate tsearch answer after_op].
  destruct (descend_spec compar s k t [] Root (root s) fuel eq_refl eq_refl Hrep Ho ltac:(split; constructor) Hf) as [(a & k' & l & r & c & -> & Ha & Hpl & E)|(P & c & -> & Hh & HP & Hpl & Hk)];
    cbn [mbind option_bind]; simpl plug in Hpl; assert (items (plug c _) = items t) as Hit by (by rewrite Hpl); rewrite items_plug in Hit.
  - exists a, s. split; [done|]. assert (lookup_key k (items t) = a) as ->.
    { rewrite <- Hit in Ho |- *. simpl in *. rewrite <- app_assoc, app_assoc in *. simpl in *. by apply (lookup_key_found _ _ k'). }
    rewrite (proj2 (Z.eqb_neq a 0)) by done. split; [done|]. by exists t.
  - simpl in Hit. destruct Hk as [Hk1 Hk2].
    assert (lookup_key k (items t) = 0) as -> by (by rewrite <- Hit, lookup_key_skip, lookup_key_none). rewrite Z.eqb_refl. cbn [andb].
    destruct (Z.eqb_spec q 0) as [->|Hq0]; cbn [negb]; [exists 0, s; split; [done|]; split; [done|by exists t]|].
    eexists q, _. split; [done|]. split; [done|]. assert (q ∉ context c) as Hqc by (unfold context; by rewrite Hit).
    assert (NoDup (context c)) as Hndc by (unfold context; by rewrite Hit).
    assert (owner P <> Some q) as Hoq by (pose proof (hole_owner _ _ _ Hh) as Hw; destruct (owner P); [intros [= ->]; done|done]).
    rewrite <- Hit, enter_here by done. exists (plug c (Branch q k Leaf Leaf)). split_and!.
    + apply (plug_rep c s _ P q); [done|done| |done|].
      * intros b Hb. simpl. apply lookup_insert_ne. by intros ->.
      * simpl. split; [done|]. split; [done|]. exists 0, 0. split; [by rewrite lookup_insert_eq|done].
    + by rewrite items_plug.
    + rewrite fmap_app. simpl. apply NoDup_app. rewrite <- Hit, fmap_app in Hnd. apply NoDup_app in Hnd as (N1 & N2 & N3). unfold context in Hqc. rewrite fmap_app in Hqc. split; [done|].
      split; [|constructor; [set_solver|done]]. intros x Hx [->|Hx2]%elem_of_cons; [set_solver|by apply (N2 x)].
    + rewrite <- Hit in Ho. apply ordered_app in Ho as (O1 & O2 & O3). apply ordered_app. split; [done|]. split.
      * apply ordered_cons. split; [done|]. eapply Forall_impl; [exact Hk2|]. done.
      * rewrite Forall_forall in Hk1. intros x y Hx [->|Hy]%elem_of_cons; [apply (proj2 (cmp_flip _ _)); simpl; by apply Hk1|by apply O3].
    + intros b Hb. simpl in Hb. rewrite fmap_app. simpl. destruct (decide (b = q)) as [->|Hbq]; [set_solver|]. rewrite lookup_insert_ne in Hb by done.
      assert (b ∈ context c) as Hbc; [|unfold context in Hbc; rewrite fmap_app in Hbc; set_solver]. unfold context. rewrite Hit. apply Hdom.
      destruct P as [|a|a]; simpl in Hb; [done|..]; (destruct (decide (b = a)) as [->|]; [rewrite lookup_alter_eq in Hb|by rewrite lookup_alter_ne in Hb]);
        by destruct (nodes s !! a).
Qed.

Lemma tfind_step fuel s L k : holds s L -> (length L < fuel)%nat -> operate fuel s (Find k) = Some (lookup_key k L, s).
Proof using All.
  intros (t & Hrep & <- & Hnd & Ho & Hdom) Hf. cbn [operate tfind].
  destruct (descend_spec compar s k t [] Root (root s) fuel eq_refl eq_refl Hrep Ho ltac:(split; constructor) Hf) as [(a & k' & l & r & c & -> & Ha & Hpl & E)|(P & c & -> & Hh & HP & Hpl & [Hk1 Hk2])];
    cbn [mbind option_bind]; simpl plug in Hpl; assert (items (plug c _) = items t) as Hit by (by rewrite Hpl); rewrite items_plug in Hit; do 2 f_equal.
  - rewrite <- Hit in Ho |- *. simpl in *. rewrite <- app_assoc, app_assoc in *. simpl in *. by rewrite (lookup_key_found _ _ k').
  - simpl in Hit. by rewrite <- Hit, lookup_key_skip, lookup_key_none.
Qed.

Lemma tdelete_step fuel s L k : holds s L -> (length L < fuel)%nat ->
  exists r s', operate fuel s (Delete k) = Some (r, s') /\ answer L (Delete k) r /\ holds s' (after_op L (Delete k)).
Proof using All.
  intros (t & Hrep & <- & Hnd & Ho & Hdom) Hf. cbn [operate tdelete answer after_op load_place mbind option_bind].
  destruct (Z.eqb_spec (root s) 0) as [E0|E0].
  { rewrite E0 in Hrep. assert (t = Leaf) as -> by (by eapply rep_null). exists 0, s. split; [done|]. split; [done|]. exists Leaf. by rewrite E0. }
  destruct (tdelete_loop_spec compar s k t [] Root (root s) (root s) fuel eq_refl eq_refl Hrep ltac:(by intros ->) Ho ltac:(split; constructor) E0 Hf)
    as [(P & p & a & ka & l & r & c & -> & Hp & Hh & HP & Hsub & Hpl & E)|(c & -> & Hpl & [Hk1 Hk2])];
    cbn [mbind option_bind]; simpl plug in Hpl; assert (items (plug c _) = items t) as Hit by (by rewrite Hpl); rewrite items_plug in Hit.
  2: { simpl in Hit. exists 0, s. split; [done|]. rewrite <- Hit at 1. rewrite lookup_key_skip, lookup_key_none by done. split; [done|].
       rewrite <- Hit at 1. rewrite leave_none; [rewrite Hit; by exists t|]. apply Forall_app. split; (eapply Forall_impl; [done|]); intros; simpl in *; lia. }
  rewrite HP. cbn [mbind option_bind].
  assert (NoDup (addrs (Branch a ka l r)) /\ NoDup (context c) /\ (forall b, b ∈ context c -> b ∉ addrs (Branch a ka l r)) /\ NoDup (before c ++ (items l ++ items r) ++ after c).*1) as (Hnd1 & Hnd2 & Hdis & Hnd3).
  { rewrite <- Hit in Hnd. assert (NoDup (addrs (Branch a ka l r) ++ context c)) as (N1 & N2 & N3)%NoDup_app.
    { eapply NoDup_Permutation_proper; [|exact Hnd]. unfold addrs, context. rewrite !fmap_app. solve_Permutation. }
    split; [done|]. split; [done|]. split; [intros b Hb Hb'; by apply (N2 b)|]. apply (NoDup_cons a).
    eapply NoDup_Permutation_proper; [|exact Hnd]. simpl. rewrite !fmap_app. simpl. solve_Permutation. }
  assert (length (items r) < fuel)%nat as Hfr by (rewrite <- Hit, !length_app in Hf; simpl in Hf; rewrite length_app in Hf; simpl in Hf; lia).
  destruct (unlink_spec fuel s a ka l r Hsub Hnd1 Hfr) as (q & s1 & u & -> & Hroot & Hu & Hiu & Hframe). cbn [mbind option_bind].
  rewrite addrs_branch in Hnd1, Hdis. assert (addrs u = addrs l ++ addrs r) as Hau by (unfold addrs; by rewrite Hiu, fmap_app).
  assert ((a ∉ addrs l) /\ (a ∉ addrs r)) as [Hal Har] by (apply NoDup_app in Hnd1 as (_ & N1 & [N2 _]%NoDup_cons); split; [intros Hin; apply (N1 a Hin); set_solver|done]).
  assert (items t = (before c ++ items l) ++ (a, ka) :: items r ++ after c) as Hit' by (rewrite <- Hit; simpl; by rewrite <- !app_assoc).
  rewrite Hit' in Ho |- *. rewrite (lookup_key_found _ _ ka), (leave_found _ _ ka) by done.
  exists p, (store_place (on_nodes (delete a) s1) P q). split; [done|]. split; [split; [done|destruct Hsub as (_ & ? & _); done]|].
  assert (forall b, owner P = Some b -> b ∈ context c) as Hown by (intros b Hb; pose proof (hole_owner _ _ _ Hh) as Hw; by rewrite Hb in Hw).
  assert ((before c ++ items l) ++ items r ++ after c = items (plug c u)) as -> by (by rewrite items_plug, Hiu, <- !app_assoc).
  exists (plug c u). split; [|split; [done|split; [by rewrite items_plug, Hiu|split]]].
  - apply (plug_rep c s _ P q); [done|done| | |].
    + intros b Hb. apply store_place_local. simpl. pose proof (Hdis b Hb). rewrite lookup_delete_ne by set_solver. apply Hframe; set_solver.
    + by rewrite !store_place_root; destruct P.
    + eapply rep_frame; [exact Hu|]. intros b Hb. rewrite Hau in Hb. assert (b <> a) by (intros ->; set_solver).
      rewrite store_place_other; [simpl; by rewrite lookup_delete_ne|]. intros Hb'. apply Hown in Hb'. apply (Hdis b Hb'). set_solver.
  - rewrite items_plug, Hiu, <- app_assoc, app_assoc. apply ordered_app in Ho as (O1 & [O2 _]%ordered_cons & O3). apply ordered_app. split; [done|]. split; [done|]. intros x y Hx Hy. apply O3; set_solver.
  - intros b Hb. assert (b <> a /\ is_Some (nodes s1 !! b)) as [Hba Hb1].
    { destruct P as [|x|x]; simpl in Hb.
      - apply lookup_delete_is_Some in Hb as [? ?]. done.
      - destruct (decide (b = x)) as [->|]; [rewrite lookup_alter_eq in Hb|rewrite lookup_alter_ne in Hb by done]; apply fmap_is_Some in Hb || idtac; by apply lookup_delete_is_Some in Hb as [? ?].
      - destruct (decide (b = x)) as [->|]; [rewrite lookup_alter_eq in Hb|rewrite lookup_alter_ne in Hb by done]; apply fmap_is_Some in Hb || idtac; by apply lookup_delete_is_Some in Hb as [? ?]. }
    rewrite items_plug, Hiu, !fmap_app. destruct (decide (b ∈ addrs l)) as [|Hbl]; [set_solver|]. destruct (decide (b ∈ addrs r)) as [|Hbr]; [set_solver|].
    rewrite Hframe in Hb1 by done. apply Hdom in Hb1. rewrite Hit', !fmap_app in Hb1. simpl in Hb1. rewrite fmap_app in Hb1. set_solver.
Qed.

(** Sequences of calls, the answers they must give, and what malloc may return on the way. *)
Fixpoint run (fuel : nat) (s : Store) (ops : list Op) : option (list Z * Store) :=
  match ops with
  | [] => Some ([], s)
  | o :: ops => '(r, s) ← operate fuel s o; '(rs, s) ← run fuel s ops; Some (r :: rs, s)
  end.
Fixpoint answers (L : list (Z * Z)) (ops : list Op) (rs : list Z) : Prop :=
  match ops, rs with
  | [], [] => True
  | o :: ops, r :: rs => answer L o r /\ answers (after_op L o) ops rs
  | _, _ => False
  end.
Fixpoint all_allowed (L : list (Z * Z)) (ops : list Op) : Prop :=
  match ops with [] => True | o :: ops => allowed L o /\ all_allowed (after_op L o) ops end.

Lemma after_op_length L o : (length (after_op L o) <= S (length L))%nat.
Proof.
  destruct o as [k q|k|k]; simpl; [case_match; [|lia]|lia|].
  - assert (length (enter k q L) = S (length L)) as ->; [|lia]. clear H. induction L as [|x L IH]; simpl; [done|]. case_match; simpl; [done|]. by rewrite IH.
  - unfold leave. etransitivity; [apply length_filter|lia].
Qed.

(** C30: the search tree is a set.  Any sequence of tsearch, tfind and tdelete on a tree that holds the keys of a list in order, with any
    order as comparison, returns, and answers as that list does: a search hands out the node of the key, which it enters when it is
    missing and malloc has memory, tfind finds just the keys that are there, tdelete takes out exactly its key and reports one that is
    missing.  After the last call the store holds the tree of what the list has become and nothing besides: no node is lost or shared.
    A null pointer in place of the root's address does nothing. *)
Theorem tree_refines_set fuel s L ops : holds s L -> all_allowed L ops -> (length L + length ops < fuel)%nat ->
  (exists rs s', run fuel s ops = Some (rs, s') /\ answers L ops rs /\ holds s' (fold_left after_op ops L)) /\
  (forall k q, tsearch compar fuel s k None q = Some (0, s) /\ tfind compar fuel s k None = Some 0 /\ tdelete compar fuel s k None = Some (0, s)).
Proof using All.
  intros Hs Ha Hf. split; [|done]. revert s L Hs Ha Hf. induction ops as [|o ops IH]; intros s L Hs Ha Hf; [by exists [], s|]. destruct Ha as [Ho Ha]. simpl in Hf.
  assert (exists r s', operate fuel s o = Some (r, s') /\ answer L o r /\ holds s' (after_op L o)) as (r & s1 & E & Hr & Hs1).
  { destruct o as [k q|k|k]; [apply tsearch_step; [done|exact Ho|lia]| |apply tdelete_step; [done|lia]].
    exists (lookup_key k L), s. split; [apply tfind_step; [done|lia]|done]. }
  pose proof (after_op_length L o). destruct (IH s1 _ Hs1 Ha ltac:(lia)) as (rs & s' & E' & Hrs & Hs'). exists (r :: rs), s'. cbn [run]. rewrite E. cbn [mbind option_bind]. rewrite E'.
  by split_and!.
Qed.
End Set_.

(** ** Walks *)

#[export] Instance VISIT_eq_dec : EqDecision VISIT.
Proof. solve_decision. Defined.

Fixpoint visits (t : Tree) (level : Z) : list (Z * VISIT * Z) :=
  match t with
  | Leaf => []
  | Branch a _ Leaf Leaf => [(a, leaf, level)]
  | Branch a _ l r => (a, preorder, level) :: visits l (level + 1) ++ (a, postorder, level) :: visits r (level + 1) ++ [(a, endorder, level)]
  end.

Lemma walk_spec s t : forall p level fuel, rep (nodes s) p t -> t <> Leaf -> (length (items t) < fuel)%nat -> walk fuel s p level = Some (visits t level).
Proof.
  induction t as [|a k l IHl r IHr]; intros p level [|fuel] Hrep Ht Hf; try done; try (simpl in Hf; lia). cbn [walk].
  destruct Hrep as (-> & Ha & pl & pr & Hn & Hl & Hr). rewrite Hn. cbn [mbind option_bind llink rlink]. simpl in Hf. rewrite length_app in Hf. simpl in Hf.
  assert (forall q u, rep (nodes s) q u -> (q =? 0) = match u with Leaf => true | _ => false end) as Hz.
  { intros q [|b kb u1 u2]; [by intros ->|]. intros (-> & Hb & _). by apply Z.eqb_neq. }
  rewrite (Hz pl l Hl), (Hz pr r Hr).
  destruct l as [|b kb l1 l2], r as [|c kc r1 r2]; cbn [andb negb]; [done|..].
  - cbn [mbind option_bind]. rewrite (IHr pr (level + 1) fuel Hr) by (done || lia). done.
  - rewrite (IHl pl (level + 1) fuel Hl) by (done || lia). done.
  - rewrite (IHl pl (level + 1) fuel Hl) by (done || lia). cbn [mbind option_bind]. rewrite (IHr pr (level + 1) fuel Hr) by (done || lia). done.
Qed.

(** The nodes that the action is called for at some of the visits. *)
Definition visited (which : VISIT -> Prop) `{!forall v, Decision (which v)} (vs : list (Z * VISIT * Z)) : list Z := (filter (fun x => which x.1.2) vs).*1.*1.
Lemma visited_app which `{!forall v, Decision (which v)} vs ws : visited which (vs ++ ws) = visited which vs ++ visited which ws.
Proof. unfold visited. by rewrite filter_app, !fmap_app. Qed.
Lemma visited_cons which `{!forall v, Decision (which v)} a v l vs : visited which ((a, v, l) :: vs) = if decide (which v) then a :: visited which vs else visited which vs.
Proof. unfold visited. rewrite filter_cons. simpl. by destruct (decide (which v)). Qed.

Lemma visited_nil which `{!forall v, Decision (which v)} : visited which [] = [].
Proof. done. Qed.
Lemma visits_branch a k l r level : (l = Leaf /\ r = Leaf) \/
  visits (Branch a k l r) level = (a, preorder, level) :: visits l (level + 1) ++ (a, postorder, level) :: visits r (level + 1) ++ [(a, endorder, level)].
Proof. destruct l, r; auto. Qed.

Lemma visits_in_order t : forall level, visited (fun v => v = postorder \/ v = leaf) (visits t level) = addrs t.
Proof.
  induction t as [|a k l IHl r IHr]; intros level; [done|]. destruct (visits_branch a k l r level) as [[-> ->]| ->]; [done|].
  rewrite addrs_branch, visited_cons, visited_app, visited_cons, visited_app, visited_cons, visited_nil, IHl, IHr. simpl. by rewrite app_nil_r.
Qed.
Lemma visits_before t : forall level, visited (fun v => v = preorder \/ v = leaf) (visits t level) ≡ₚ addrs t.
Proof.
  induction t as [|a k l IHl r IHr]; intros level; [done|]. destruct (visits_branch a k l r level) as [[-> ->]| ->]; [done|].
  rewrite addrs_branch, visited_cons, visited_app, visited_cons, visited_app, visited_cons, visited_nil. simpl. rewrite IHl, IHr, app_nil_r. solve_Permutation.
Qed.
Lemma visits_behind t : forall level, visited (fun v => v = endorder \/ v = leaf) (visits t level) ≡ₚ addrs t.
Proof.
  induction t as [|a k l IHl r IHr]; intros level; [done|]. destruct (visits_branch a k l r level) as [[-> ->]| ->]; [done|].
  rewrite addrs_branch, visited_cons, visited_app, visited_cons, visited_app, visited_cons, visited_nil. simpl. rewrite IHl, IHr. solve_Permutation.
Qed.

Lemma destroy_spec t : forall m p fuel, rep m p t -> t <> Leaf -> NoDup (addrs t) -> (length (items t) < fuel)%nat ->
  exists ks m', destroy fuel m p = Some (ks, m') /\ ks ≡ₚ (items t).*2 /\ forall b, m' !! b = if decide (b ∈ addrs t) then None else m !! b.
Proof.
  induction t as [|a k l IHl r IHr]; intros m p [|fuel] Hrep Ht Hnd Hf; try done; try (simpl in Hf; lia). cbn [destroy].
  destruct Hrep as (-> & Ha & pl & pr & Hn & Hl & Hr). rewrite Hn. cbn [mbind option_bind llink rlink]. simpl in Hf. rewrite length_app in Hf. simpl in Hf.
  rewrite addrs_branch in Hnd. apply NoDup_app in Hnd as (Hndl & Hlr & [Har Hndr]%NoDup_cons).
  assert (forall q u m fuel, rep m q u -> NoDup (addrs u) -> (u <> Leaf -> exists ks m', destroy fuel m q = Some (ks, m') /\ ks ≡ₚ (items u).*2 /\ forall b, m' !! b = if decide (b ∈ addrs u) then None else m !! b) ->
    exists ks m', (if negb (q =? 0) then destroy fuel m q else Some ([], m)) = Some (ks, m') /\ ks ≡ₚ (items u).*2 /\ forall b, m' !! b = if decide (b ∈ addrs u) then None else m !! b) as Hsub.
  { intros q u m0 f0 Hu _ IH. destruct u as [|b kb u1 u2].
    - simpl in Hu. subst q. exists [], m0. split; [done|]. split; [done|]. intros b. rewrite decide_False; [done|]. apply not_elem_of_nil.
    - destruct Hu as (-> & Hb & _). rewrite (proj2 (Z.eqb_neq b 0)) by done. by apply IH. }
  destruct (Hsub pl l m fuel Hl Hndl) as (ks1 & m1 & -> & Hk1 & Hm1); [intros; apply IHl; done || lia|]. cbn [mbind option_bind].
  assert (a ∉ addrs l) as Hal by (intros Hin; apply (Hlr a Hin), list_elem_of_here).
  rewrite Hm1, decide_False, Hn by done. cbn [mbind option_bind llink rlink].
  assert (rep m1 pr r) as Hr1 by (eapply rep_frame; [done|]; intros b Hb; rewrite Hm1, decide_False; [done|]; intros Hin; apply (Hlr b Hin), list_elem_of_further, Hb).
  destruct (Hsub pr r m1 fuel Hr1 Hndr) as (ks2 & m2 & -> & Hk2 & Hm2); [intros; apply IHr; done || lia|]. cbn [mbind option_bind].
  rewrite Hm2, decide_False, Hm1, decide_False, Hn by done. cbn [mbind option_bind key]. eexists _, _. split; [done|]. split.
  - simpl. rewrite fmap_app, Hk1, Hk2. simpl. solve_Permutation.
  - intros b. destruct (decide (b = a)) as [->|Hb]; [rewrite lookup_delete_eq, decide_True; [done|rewrite elem_of_branch; auto]|]. rewrite lookup_delete_ne, Hm2, Hm1 by done.
    pose proof (elem_of_branch b a k l r) as Hel.
    destruct (decide (b ∈ addrs r)), (decide (b ∈ addrs l)); (rewrite decide_True by tauto; done) || (rewrite decide_False by tauto; done).
Qed.

(** Walking and destroying a tree.  twalk calls the action for every node: among the calls for leaves and, between the subtrees, for
    the other nodes, the nodes stand in the order of their keys, and the calls before and after the subtrees reach each node once, too.
    tdestroy hands every key to the caller's function once and frees every node. *)
Theorem tree_walked compar fuel s L : holds compar s L -> (length L < fuel)%nat ->
  (exists vs, twalk fuel s (root s) = Some vs /\ visited (fun v => v = postorder \/ v = leaf) vs = L.*1 /\
    visited (fun v => v = preorder \/ v = leaf) vs ≡ₚ L.*1 /\ visited (fun v => v = endorder \/ v = leaf) vs ≡ₚ L.*1) /\
  (exists ks, tdestroy fuel s (root s) = Some (ks, MkStore (root s) ∅) /\ ks ≡ₚ L.*2).
Proof.
  intros (t & Hrep & <- & Hnd & _ & Hdom) Hf. unfold twalk, tdestroy. destruct t as [|a k l r].
  - simpl in Hrep. rewrite Hrep. split; [by exists []|]. exists []. split; [|done]. destruct s as [rt m]. simpl in *. subst rt. do 3 f_equal. apply map_eq. intros b.
    rewrite lookup_empty. destruct (m !! b) eqn:E; [|done]. exfalso. specialize (Hdom b ltac:(by rewrite E)). set_solver.
  - assert (root s <> 0) as Hz by (by destruct Hrep as (-> & ? & _)). rewrite (proj2 (Z.eqb_neq _ _)) by done. cbn [negb]. split.
    + rewrite (walk_spec s _ _ 0 fuel Hrep) by done. eexists. split; [done|]. split; [apply visits_in_order|]. split; [apply visits_before|apply visits_behind].
    + destruct (destroy_spec _ (nodes s) (root s) fuel Hrep ltac:(done) Hnd Hf) as (ks & m & -> & Hks & Hm). exists ks. split; [|done]. cbn [mbind option_bind]. do 3 f_equal.
      apply map_eq. intros b. rewrite Hm, lookup_empty. destruct (decide _) as [|Hb]; [done|]. destruct (nodes s !! b) eqn:E; [|done]. exfalso. apply Hb, Hdom. by rewrite E.
Qed.

(** ** Witnesses *)

#[local] Existing Instance QsortSpec.Zsub_order.
Definition ex_empty : Store := MkStore 0 ∅.
Definition ex_ops : list Op := [Search 5 100; Search 3 200; Search 8 300; Search 7 400; Search 3 500; Find 3; Delete 5; Delete 5; Find 5].

Lemma ex_holds : holds Z.sub ex_empty [].
Proof. exists Leaf. split; [done|]. split; [done|]. split; [constructor|]. split; [constructor|]. intros b [x Hx]. simpl in Hx. by rewrite lookup_empty in Hx. Qed.
(** A tree of two levels, of which both subtrees of the root are there. *)
Definition ex_store : Store := MkStore 100 (<[100 := MkNode 5 200 300]> (<[200 := MkNode 3 0 0]> (<[300 := MkNode 8 0 0]> ∅))).
Lemma ex_holds_3 : holds Z.sub ex_store [(200, 3); (100, 5); (300, 8)].
Proof.
  exists (Branch 100 5 (Branch 200 3 Leaf Leaf) (Branch 300 8 Leaf Leaf)). split; [|split; [done|]].
  - simpl. split; [done|]. split; [done|]. exists 200, 300. split; [done|]. by split; (split; [done|]; split; [done|]; exists 0, 0).
  - split; [repeat constructor; set_solver|]. split; [repeat constructor|]. intros b [x Hx]. unfold ex_store in Hx. simpl in Hx.
    apply lookup_insert_Some in Hx as [[<- _]|[_ Hx]]; [set_solver|]. apply lookup_insert_Some in Hx as [[<- _]|[_ Hx]]; [set_solver|].
    apply lookup_insert_Some in Hx as [[<- _]|[_ Hx]]; [set_solver|]. by rewrite lookup_empty in Hx.
Qed.

Lemma tree_refines_set_witness : exists rs s', run Z.sub 12 ex_empty ex_ops = Some (rs, s') /\ answers Z.sub [] ex_ops rs /\
  holds Z.sub s' [(200, 3); (400, 7); (300, 8)].
Proof.
  destruct (tree_refines_set Z.sub 12 ex_empty [] ex_ops) as [(rs & s' & H1 & H2 & H3) _]; [apply ex_holds| |simpl; lia|].
  - vm_compute. repeat split; intros H; inversion H; subst; set_solver.
  - exists rs, s'. split; [exact H1|]. split; [exact H2|exact H3].
Defined.
Example ex_run : option_map fst (run Z.sub 12 ex_empty ex_ops) = Some [100; 200; 300; 400; 200; 200; 100; 0; 0].
Proof. vm_compute. reflexivity. Qed.

Lemma tree_walked_witness : (exists vs, twalk 4 ex_store 100 = Some vs /\ visited (fun v => v = postorder \/ v = leaf) vs = [200; 100; 300]) /\
  (exists ks, tdestroy 4 ex_store 100 = Some (ks, MkStore 100 ∅) /\ ks ≡ₚ [3; 5; 8]).
Proof.
  destruct (tree_walked Z.sub 4 ex_store _ ex_holds_3) as [(vs & H1 & H2 & _) H3]; [simpl; lia|]. split; [exists vs; split; [exact H1|exact H2]|exact H3].
Defined.
Example ex_walk : twalk 4 ex_store 100 =
  Some [(100, preorder, 0); (200, leaf, 1); (100, postorder, 0); (300, leaf, 1); (100, endorder, 0)].
Proof. vm_compute. reflexivity. Qed.
End TreeSearch.
