(* ===== verification/NewlibString.v ===== *)
(** newlib/newlib/libc/string: strcmp, strncmp, strcpy, strncpy and memccpy of the C library of
    user programs.

    Each file holds two versions of its routine: a short one for PREFER_SIZE_OVER_SPEED and one
    that works a machine word at a time while both pointers are aligned.  Both are modelled, the
    short one with the suffix [_small], and proved to do the same; [long] is 32 bits and [char] is
    signed, as on i686. *)

From S2P Require Import Prelude Libk.

Module NewlibString.

Definition UNALIGNED (x y : Z) : Z := Z.lor (Z.land x 3) (Z.land y 3).
Definition DETECTNULL (x : Z) : Z := Z.land (Z.land (u32 (x - 0x01010101)) (u32 (Z.lnot x))) 0x80808080.
Definition TOO_SMALL (len : Z) : bool := len <? 4.

(** ** strcmp *)

Fixpoint strcmp_small (fuel : nat) (m : Mem) (s1 s2 : Z) : option Z :=
  match fuel with
  | O => None
  | S fuel =>
      if negb (loadb m s1 =? 0) && (loadb m s1 =? loadb m s2) then strcmp_small fuel m (u32 (s1 + 1)) (u32 (s2 + 1))
      else Some (loadb m s1 - loadb m s2)
  end.

(** The word loop: the pointers it stops at, or the result 0. *)
Inductive words := Return0 | Bytes (a1 a2 n : Z).
Fixpoint strcmp_words (fuel : nat) (m : Mem) (a1 a2 : Z) : option words :=
  match fuel with
  | O => None
  | S fuel =>
      if load32 m a1 =? load32 m a2 then
        if negb (DETECTNULL (load32 m a1) =? 0) then Some Return0
        else strcmp_words fuel m (u32 (a1 + 4)) (u32 (a2 + 4))
      else Some (Bytes a1 a2 0)
  end.
Definition strcmp (fuel : nat) (m : Mem) (s1 s2 : Z) : option Z :=
  if UNALIGNED s1 s2 =? 0 then
    r ← strcmp_words fuel m s1 s2;
    match r with
    | Return0 => Some 0
    | Bytes a1 a2 _ => strcmp_small fuel m a1 a2
    end
  else strcmp_small fuel m s1 s2.

(** ** strncmp *)

Fixpoint strncmp_small_loop (fuel : nat) (m : Mem) (s1 s2 n : Z) : option Z :=
  match fuel with
  | O => None
  | S fuel =>
      if negb (n =? 0) && (loadb m s1 =? loadb m s2) then
        let n := n - 1 in
        if (n =? 0) || (loadb m s1 =? 0) then Some (loadb m s1 - loadb m s2)
        else strncmp_small_loop fuel m (u32 (s1 + 1)) (u32 (s2 + 1)) n
      else Some (loadb m s1 - loadb m s2)
  end.
Definition strncmp_small (fuel : nat) (m : Mem) (s1 s2 n : Z) : option Z :=
  if n =? 0 then Some 0 else strncmp_small_loop fuel m s1 s2 n.

Fixpoint strncmp_words (fuel : nat) (m : Mem) (a1 a2 n : Z) : option words :=
  match fuel with
  | O => None
  | S fuel =>
      if (n >=? 4) && (load32 m a1 =? load32 m a2) then
        let n := n - 4 in
        if (n =? 0) || negb (DETECTNULL (load32 m a1) =? 0) then Some Return0
        else strncmp_words fuel m (u32 (a1 + 4)) (u32 (a2 + 4)) n
      else Some (Bytes a1 a2 n)
  end.
Fixpoint strncmp_bytes (fuel : nat) (m : Mem) (s1 s2 n : Z) : option Z :=
  match fuel with
  | O => None
  | S fuel =>
      if (n >? 0) && (loadb m s1 =? loadb m s2) then
        let n := n - 1 in
        if (n =? 0) || (loadb m s1 =? 0) then Some 0
        else strncmp_bytes fuel m (u32 (s1 + 1)) (u32 (s2 + 1)) n
      else Some (loadb m s1 - loadb m s2)
  end.
Definition strncmp (fuel : nat) (m : Mem) (s1 s2 n : Z) : option Z :=
  if n =? 0 then Some 0
  else if UNALIGNED s1 s2 =? 0 then
    r ← strncmp_words fuel m s1 s2 n;
    match r with
    | Return0 => Some 0
    | Bytes a1 a2 n => strncmp_bytes fuel m a1 a2 n
    end
  else strncmp_bytes fuel m s1 s2 n.

(** ** strcpy *)

Fixpoint strcpy_bytes (fuel : nat) (m : Mem) (dst src : Z) : option Mem :=
  match fuel with
  | O => None
  | S fuel =>
      let c := loadb m src in
      let m := storeb m dst c in
      if c =? 0 then Some m else strcpy_bytes fuel m (u32 (dst + 1)) (u32 (src + 1))
  end.
Definition strcpy_small (fuel : nat) (m : Mem) (dst0 src0 : Z) : option (Mem * Z) :=
  m ← strcpy_bytes fuel m dst0 src0; Some (m, dst0).
Fixpoint strcpy_words (fuel : nat) (m : Mem) (dst src : Z) : option (Mem * Z * Z) :=
  match fuel with
  | O => None
  | S fuel =>
      if DETECTNULL (load32 m src) =? 0
      then strcpy_words fuel (store32 m dst (load32 m src)) (u32 (dst + 4)) (u32 (src + 4))
      else Some (m, dst, src)
  end.
Definition strcpy (fuel : nat) (m : Mem) (dst0 src0 : Z) : option (Mem * Z) :=
  '(m, dst, src) ← (if UNALIGNED src0 dst0 =? 0 then strcpy_words fuel m dst0 src0 else Some (m, dst0, src0));
  m ← strcpy_bytes fuel m dst src;
  Some (m, dst0).

(** ** strncpy *)

Fixpoint zero_fill (n : nat) (m : Mem) (dst : Z) : Mem :=
  match n with O => m | S n => zero_fill n (storeb m dst 0) (u32 (dst + 1)) end.
(** The byte loop, with [count] rounds left, and the fill behind it. *)
Fixpoint strncpy_bytes (count : nat) (m : Mem) (dst src : Z) : Mem :=
  match count with
  | O => m
  | S count =>
      let c := loadb m src in
      let m := storeb m dst c in
      if c =? 0 then zero_fill count m (u32 (dst + 1)) else strncpy_bytes count m (u32 (dst + 1)) (u32 (src + 1))
  end.
Definition strncpy_small (m : Mem) (dst0 src0 count : Z) : Mem * Z := (strncpy_bytes (Z.to_nat count) m dst0 src0, dst0).
Fixpoint strncpy_words (fuel : nat) (m : Mem) (dst src count : Z) : option (Mem * Z * Z * Z) :=
  match fuel with
  | O => None
  | S fuel =>
      if (count >=? 4) && (DETECTNULL (load32 m src) =? 0)
      then strncpy_words fuel (store32 m dst (load32 m src)) (u32 (dst + 4)) (u32 (src + 4)) (count - 4)
      else Some (m, dst, src, count)
  end.
Definition strncpy (fuel : nat) (m : Mem) (dst0 src0 count : Z) : option (Mem * Z) :=
  '(m, dst, src, count) ← (if (UNALIGNED src0 dst0 =? 0) && negb (TOO_SMALL count)
                           then strncpy_words fuel m dst0 src0 count else Some (m, dst0, src0, count));
  Some (strncpy_bytes (Z.to_nat count) m dst src, dst0).

(** ** memccpy *)

Definition endchar_of (endchar0 : Z) : Z := s8 (Z.land endchar0 0xff).
(** The byte copier, with [len0] rounds left. *)
Fixpoint memccpy_bytes (len0 : nat) (m : Mem) (dst src endchar : Z) : Mem * Z :=
  match len0 with
  | O => (m, 0)
  | S len0 =>
      let c := loadb m src in
      let m := storeb m dst c in
      if s8 c =? endchar then (m, u32 (dst + 1)) else memccpy_bytes len0 m (u32 (dst + 1)) (u32 (src + 1)) endchar
  end.
Definition memccpy_small (m : Mem) (dst0 src0 endchar0 len0 : Z) : Mem * Z :=
  memccpy_bytes (Z.to_nat len0) m dst0 src0 (endchar_of endchar0).

Fixpoint mask_loop (n : nat) (mask endchar : Z) : Z :=
  match n with O => mask | S n => mask_loop n (u32 (Z.shiftl mask 8 + endchar)) endchar end.
Fixpoint memccpy_words (fuel : nat) (m : Mem) (dst src mask len0 : Z) : option (Mem * Z * Z * Z) :=
  match fuel with
  | O => None
  | S fuel =>
      if len0 >=? 4 then
        let buffer := Z.lxor (load32 m src) mask in
        if negb (DETECTNULL buffer =? 0) then Some (m, dst, src, len0)
        else memccpy_words fuel (store32 m dst (load32 m src)) (u32 (dst + 4)) (u32 (src + 4)) mask (len0 - 4)
      else Some (m, dst, src, len0)
  end.
Definition memccpy (fuel : nat) (m : Mem) (dst0 src0 endchar0 len0 : Z) : option (Mem * Z) :=
  let endchar := endchar_of endchar0 in
  '(m, dst, src, len0) ← (if negb (TOO_SMALL len0) && (UNALIGNED src0 dst0 =? 0)
                          then memccpy_words fuel m dst0 src0 (mask_loop 4 0 endchar) len0 else Some (m, dst0, src0, len0));
  Some (memccpy_bytes (Z.to_nat len0) m dst src endchar).

(** ** The word test *)

Lemma testbit_div x k : 0 <= k -> Z.testbit x k = (x / 2 ^ k mod 2 =? 1).
Proof.
  intros Hk. pose proof (Z.testbit_spec' x k Hk) as E. destruct (Z.testbit x k); simpl in E; rewrite <- E; done.
Qed.

(** The mask keeps the top bit of each byte. *)
Lemma high_bits x : Z.land x 0x80808080 = 0 <-> Z.testbit x 7 = false /\ Z.testbit x 15 = false /\ Z.testbit x 23 = false /\ Z.testbit x 31 = false.
Proof.
  split.
  - intros H. assert (forall k, Z.testbit 0x80808080 k = true -> Z.testbit x k = false) as Hk.
    { intros k Hk. pose proof (f_equal (fun z => Z.testbit z k) H) as E. cbv beta in E. rewrite Z.land_spec, Hk, andb_true_r, Z.bits_0 in E. done. }
    repeat split; apply Hk; done.
  - intros (H7 & H15 & H23 & H31). apply Z.bits_inj'. intros k Hk. rewrite Z.land_spec, Z.bits_0.
    destruct (decide (k = 7)) as [->|]; [by rewrite H7|]. destruct (decide (k = 15)) as [->|]; [by rewrite H15|].
    destruct (decide (k = 23)) as [->|]; [by rewrite H23|]. destruct (decide (k = 31)) as [->|]; [by rewrite H31|].
    destruct (Z.ltb_spec k 32).
    + assert (k ∈ seqZ 0 32) as Hin by (apply elem_of_seqZ; lia).
      assert (forallb (fun k => (k =? 7) || (k =? 15) || (k =? 23) || (k =? 31) || negb (Z.testbit 0x80808080 k)) (seqZ 0 32) = true) as Hall by done.
      rewrite forallb_forall in Hall. specialize (Hall k (proj1 (list_elem_of_In _ _) Hin)).
      repeat rewrite (proj2 (Z.eqb_neq _ _)) in Hall by done. simpl in Hall. rewrite (negb_true_iff) in Hall. by rewrite Hall, andb_false_r.
    + rewrite (Z.bits_above_log2 0x80808080 k), andb_false_r; [done|done|]. change (Z.log2 0x80808080) with 31. lia.
Qed.

Lemma high_bit_at x k : is_u32 x -> 0 <= k < 32 ->
  Z.testbit (Z.land (u32 (x - 0x01010101)) (u32 (Z.lnot x))) k = ((x - 0x01010101) / 2 ^ k mod 2 =? 1) && (x / 2 ^ k mod 2 =? 0).
Proof.
  intros Hx Hk. rewrite Z.land_spec. unfold u32. change 4294967296 with (2 ^ 32).
  rewrite !Z.mod_pow2_bits_low by lia. rewrite testbit_div by lia. f_equal. rewrite Z.lnot_spec, testbit_div by lia.
  pose proof (Z.mod_pos_bound (x / 2 ^ k) 2 ltac:(lia)). zcases.
Qed.

(** The test finds a zero byte wherever it stands in the word. *)
Lemma DETECTNULL_zero b0 b1 b2 b3 : is_u8 b0 -> is_u8 b1 -> is_u8 b2 -> is_u8 b3 ->
  DETECTNULL (b0 + 256 * b1 + 65536 * b2 + 16777216 * b3) = 0 <-> b0 <> 0 /\ b1 <> 0 /\ b2 <> 0 /\ b3 <> 0.
Proof.
  intros H0 H1 H2 H3. set (x := b0 + _ + _ + _). assert (is_u32 x) as Hx by (unfold x, is_u32, is_u8 in *; lia).
  unfold DETECTNULL. rewrite high_bits, !high_bit_at by (done || lia).
  change (2 ^ 7) with 128. change (2 ^ 15) with 32768. change (2 ^ 23) with 8388608. change (2 ^ 31) with 2147483648.
  rewrite !andb_false_iff, !Z.eqb_neq. clear Hx. unfold x, is_u8 in *. clear x. split.
  - intros (E0 & E1 & E2 & E3). destruct (Z.eq_dec b0 0) as [->|N0]; [exfalso; zlia|]. destruct (Z.eq_dec b1 0) as [->|N1]; [exfalso; zlia|].
    destruct (Z.eq_dec b2 0) as [->|N2]; [exfalso; zlia|]. destruct (Z.eq_dec b3 0) as [->|N3]; [exfalso; zlia|]. done.
  - intros (N0 & N1 & N2 & N3). repeat split; zlia.
Qed.

Lemma load32_nonzero m a : DETECTNULL (load32 m a) = 0 <-> forall k, 0 <= k < 4 -> loadb m (a + k) <> 0.
Proof.
  unfold load32. rewrite DETECTNULL_zero by apply loadb_range. split.
  - intros (H0 & H1 & H2 & H3) k Hk. assert (k = 0 \/ k = 1 \/ k = 2 \/ k = 3) as [->|[->|[->| ->]]] by lia; by rewrite ?Z.add_0_r.
  - intros H. rewrite <- (Z.add_0_r a) at 1. repeat split; apply H; lia.
Qed.
Lemma load32_equal m a b : load32 m a = load32 m b <-> forall k, 0 <= k < 4 -> loadb m (a + k) = loadb m (b + k).
Proof.
  split.
  - intros E k Hk. by rewrite <- !load32_bytes, E by done.
  - intros H. unfold load32. pose proof (H 0 ltac:(lia)) as H0. rewrite !Z.add_0_r in H0. by rewrite H0, !H by lia.
Qed.

(** ** Comparing *)

(** The difference of the first two characters that differ, the terminators included. *)
Fixpoint diff (l1 l2 : list Z) : Z :=
  match l1, l2 with
  | [], [] => 0
  | [], y :: _ => 0 - y
  | x :: _, [] => x - 0
  | x :: l1, y :: l2 => if x =? y then diff l1 l2 else x - y
  end.

Lemma diff_refl l : diff l l = 0.
Proof. induction l as [|x l IH]; simpl; [done|]. by rewrite Z.eqb_refl. Qed.

(** It has the sign of the lexicographic order. *)
Lemma diff_lex l1 : forall l2, Forall (fun c => 0 < c) l1 -> Forall (fun c => 0 < c) l2 -> Z.sgn (diff l1 l2) = Libk.lex l1 l2.
Proof.
  induction l1 as [|x l1 IH]; intros [|y l2] H1 H2; try apply Forall_cons in H1 as [Hx H1]; try apply Forall_cons in H2 as [Hy H2]; simpl; [done|lia..|].
  destruct (Z.eqb_spec x y) as [->|]; [rewrite Z.ltb_irrefl; auto|]. zcases.
Qed.

(** A string inside the address space. *)
Definition string_in (m : Mem) (p : Z) (l : list Z) : Prop := cstring m p l /\ 0 <= p /\ p + Z.of_nat (length l) < 4294967296.

Lemma string_cons m p c l : string_in m p (c :: l) -> loadb m p = c /\ c <> 0 /\ string_in m (u32 (p + 1)) l.
Proof.
  intros ((Hc & Hn & Hs) & Hp & Hl). simpl in Hl. rewrite u32_small by (unfold is_u32; lia). split_and!; try done. split; [done|lia].
Qed.
Lemma string_nil m p : string_in m p [] -> loadb m p = 0.
Proof. by intros [? _]. Qed.
Lemma string_positive m p l : string_in m p l -> Forall (fun c => 0 < c) l.
Proof.
  revert p; induction l as [|c l IH]; intros p H; [constructor|]. apply string_cons in H as (Hc & Hn & H). constructor; [|by eapply IH].
  pose proof (loadb_range m p). unfold is_u8 in *. lia.
Qed.

(** A word without a NUL holds four characters of the string. *)
Lemma string_word m p l : string_in m p l -> DETECTNULL (load32 m p) = 0 ->
  exists l0 l', l = l0 ++ l' /\ length l0 = 4%nat /\ string_in m (u32 (p + 4)) l' /\ p + 4 < 4294967296 /\ l0 = bytes m p 4.
Proof.
  rewrite load32_nonzero. intros (Hs & Hp & Hl) Hk.
  destruct l as [|c0 [|c1 [|c2 [|c3 l]]]]; simpl in Hs; rewrite <- ?Z.add_assoc in Hs; simpl in Hs;
    [exfalso; apply (Hk 0); [lia|by rewrite Z.add_0_r]|exfalso; apply (Hk 1); [lia|tauto]|exfalso; apply (Hk 2); [lia|tauto]|exfalso; apply (Hk 3); [lia|tauto]|].
  destruct Hs as (E0 & _ & E1 & _ & E2 & _ & E3 & _ & Hs). simpl in Hl.
  exists [c0; c1; c2; c3], l. rewrite u32_small by (unfold is_u32; lia). split; [done|]. split; [done|].
  split; [split; [done|lia]|]. split; [lia|]. cbn [bytes]. rewrite <- !Z.add_assoc. simpl. by rewrite E0, E1, E2, E3.
Qed.

(** Strings that agree up to a NUL are equal. *)
Lemma string_same m n l1 : forall p q l2, string_in m p l1 -> string_in m q l2 ->
  (forall k, 0 <= k < Z.of_nat n -> loadb m (p + k) = loadb m (q + k)) -> (exists k, 0 <= k < Z.of_nat n /\ loadb m (p + k) = 0) -> l1 = l2.
Proof.
  revert n. induction l1 as [|c l1 IH]; intros n p q l2 H1 H2 He (k & Hk & Hz).
  - apply string_nil in H1. pose proof (He 0 ltac:(lia)) as E. rewrite !Z.add_0_r in E. destruct l2 as [|d l2]; [done|].
    apply string_cons in H2 as (? & ? & _). congruence.
  - apply string_cons in H1 as (Hc & Hn & H1). pose proof (He 0 ltac:(lia)) as E. rewrite !Z.add_0_r in E.
    destruct l2 as [|d l2]; [apply string_nil in H2; congruence|]. apply string_cons in H2 as (Hd & _ & H2).
    destruct (Z.eq_dec k 0) as [->|]; [rewrite Z.add_0_r in Hz; congruence|].
    f_equal; [congruence|]. apply (IH (n - 1)%nat _ _ _ H1 H2).
    + intros j Hj. rewrite <- (loadb_u32 m (u32 (p + 1) + j)), <- (loadb_u32 m (u32 (q + 1) + j)), !u32_add_l, !loadb_u32, <- !Z.add_assoc. apply He. lia.
    + exists (k - 1). split; [lia|]. rewrite <- loadb_u32, u32_add_l, loadb_u32. by replace (p + 1 + (k - 1)) with (p + k) by lia.
Qed.

Lemma string_same_word m p q l1 l2 : string_in m p l1 -> string_in m q l2 ->
  load32 m p = load32 m q -> DETECTNULL (load32 m p) <> 0 -> l1 = l2.
Proof.
  intros H1 H2 E Hd. eapply (string_same m 4); [done|done|by apply load32_equal|].
  destruct (decide (Exists (fun k => loadb m (p + k) = 0) (seqZ 0 4))) as [(k & Hk%elem_of_seqZ & Hz)%Exists_exists|Hn]; [by exists k|].
  exfalso. apply Hd, load32_nonzero. intros k Hk Hz. apply Hn, Exists_exists. exists k. split; [apply elem_of_seqZ; lia|done].
Qed.

Lemma strcmp_small_spec m l1 : forall fuel s1 s2 l2, string_in m s1 l1 -> string_in m s2 l2 -> (length l1 < fuel)%nat ->
  strcmp_small fuel m s1 s2 = Some (diff l1 l2).
Proof.
  induction l1 as [|x l1 IH]; intros [|fuel] s1 s2 l2 H1 H2 Hf; simpl in Hf; try lia; cbn [strcmp_small].
  - apply string_nil in H1 as ->. simpl. destruct l2 as [|y l2]; [by apply string_nil in H2 as ->|]. by apply string_cons in H2 as (-> & _ & _).
  - apply string_cons in H1 as (-> & Hx & H1). rewrite (proj2 (Z.eqb_neq x 0)) by done. cbn [negb andb].
    destruct l2 as [|y l2]; [apply string_nil in H2 as ->; by rewrite (proj2 (Z.eqb_neq x 0))|].
    apply string_cons in H2 as (-> & Hy & H2). simpl. destruct (Z.eqb_spec x y); [|done]. apply IH; [done|done|lia].
Qed.

(** What the word loop hands on. *)
Definition words_left (m : Mem) (l1 l2 : list Z) (r : words) : Prop :=
  match r with
  | Return0 => diff l1 l2 = 0
  | Bytes a1 a2 _ => exists l1' l2', string_in m a1 l1' /\ string_in m a2 l2' /\ diff l1 l2 = diff l1' l2' /\ (length l1' <= length l1)%nat
  end.

Lemma diff_app l l1 l2 : diff (l ++ l1) (l ++ l2) = diff l1 l2.
Proof. induction l as [|x l IH]; simpl; [done|]. by rewrite Z.eqb_refl. Qed.

Lemma strcmp_words_spec m fuel : forall s1 s2 l1 l2, string_in m s1 l1 -> string_in m s2 l2 -> (length l1 < fuel)%nat ->
  exists r, strcmp_words fuel m s1 s2 = Some r /\ words_left m l1 l2 r.
Proof.
  induction fuel as [|fuel IH]; intros s1 s2 l1 l2 H1 H2 Hf; [lia|]. cbn [strcmp_words].
  destruct (Z.eqb_spec (load32 m s1) (load32 m s2)) as [E|]; [|eexists; split; [done|]; exists l1, l2; done].
  destruct (Z.eqb_spec (DETECTNULL (load32 m s1)) 0) as [Hd|Hd]; cbn [negb].
  - destruct (string_word m s1 l1 H1 Hd) as (c1 & l1' & -> & Hc1 & H1' & _ & Eb1). rewrite E in Hd.
    destruct (string_word m s2 l2 H2 Hd) as (c2 & l2' & -> & Hc2 & H2' & _ & Eb2).
    assert (c1 = c2) as -> by (rewrite Eb1, Eb2; apply bytes_ext; by apply load32_equal).
    rewrite length_app in Hf. destruct (IH _ _ l1' l2' H1' H2' ltac:(lia)) as (r & -> & Hr). exists r. split; [done|].
    destruct r as [|a1 a2 n]; simpl in *; rewrite diff_app; [done|]. destruct Hr as (k1 & k2 & ? & ? & ? & ?). exists k1, k2.
    split; [done|]. split; [done|]. split; [done|]. rewrite length_app. lia.
  - exists Return0. split; [done|]. simpl. rewrite (string_same_word m s1 s2 l1 l2) by done. apply diff_refl.
Qed.

Lemma strcmp_spec m fuel s1 s2 l1 l2 : string_in m s1 l1 -> string_in m s2 l2 -> (length l1 < fuel)%nat -> strcmp fuel m s1 s2 = Some (diff l1 l2).
Proof.
  intros H1 H2 Hf. unfold strcmp. destruct (UNALIGNED s1 s2 =? 0); [|by apply strcmp_small_spec].
  destruct (strcmp_words_spec m fuel s1 s2 l1 l2 H1 H2 Hf) as ([|a1 a2 n] & -> & Hr); cbn [mbind option_bind] in *; simpl in Hr; [by rewrite Hr|].
  destruct Hr as (k1 & k2 & Hk1 & Hk2 & -> & Hle). apply strcmp_small_spec; [done|done|lia].
Qed.

(** The comparison of at most [n] characters. *)
Definition ndiff (n : Z) (l1 l2 : list Z) : Z := diff (take (Z.to_nat n) l1) (take (Z.to_nat n) l2).

Lemma ndiff_cons n x y l1 l2 : 0 < n -> ndiff n (x :: l1) (y :: l2) = if x =? y then ndiff (n - 1) l1 l2 else x - y.
Proof. intros Hn. unfold ndiff. replace (Z.to_nat n) with (S (Z.to_nat (n - 1))) by lia. done. Qed.
Lemma ndiff_nil n l : 0 < n -> ndiff n [] l = 0 - hd 0 l /\ ndiff n l [] = hd 0 l - 0.
Proof.
  intros Hn. unfold ndiff. replace (Z.to_nat n) with (S (Z.to_nat (n - 1))) by lia. by destruct l.
Qed.
Lemma ndiff_0 l1 l2 : ndiff 0 l1 l2 = 0.
Proof. done. Qed.
Lemma ndiff_app n l l1 l2 : Z.of_nat (length l) <= n -> ndiff n (l ++ l1) (l ++ l2) = ndiff (n - Z.of_nat (length l)) l1 l2.
Proof.
  intros Hn. unfold ndiff. rewrite !take_app, !take_ge by lia. rewrite diff_app. do 2 f_equal; lia.
Qed.

Lemma string_head m p l : string_in m p l -> loadb m p = hd 0 l.
Proof. destruct l; [apply string_nil|]. by intros (? & _)%string_cons. Qed.

Lemma strncmp_bytes_spec m l1 : forall fuel s1 s2 n l2, string_in m s1 l1 -> string_in m s2 l2 -> (length l1 < fuel)%nat -> 0 < n ->
  strncmp_bytes fuel m s1 s2 n = Some (ndiff n l1 l2) /\ strncmp_small_loop fuel m s1 s2 n = Some (ndiff n l1 l2).
Proof.
  induction l1 as [|x l1 IH]; intros [|fuel] s1 s2 n l2 H1 H2 Hf Hn; simpl in Hf; try lia; cbn [strncmp_bytes strncmp_small_loop];
    rewrite (proj2 (Z.gtb_lt n 0)), (proj2 (Z.eqb_neq n 0)) by lia; cbn [negb andb].
  - rewrite (proj1 (ndiff_nil n l2 Hn)). rewrite (string_head _ _ _ H1), (string_head _ _ _ H2). simpl hd.
    destruct (Z.eqb_spec 0 (hd 0 l2)) as [<-|]; [|done]. by rewrite orb_true_r.
  - apply string_cons in H1 as (-> & Hx & H1). destruct l2 as [|y l2].
    { apply string_nil in H2 as ->. rewrite (proj2 (ndiff_nil n _ Hn)). by rewrite (proj2 (Z.eqb_neq x 0)) by done. }
    apply string_cons in H2 as (-> & Hy & H2). rewrite ndiff_cons by done. destruct (Z.eqb_spec x y) as [->|]; [|done].
    rewrite (proj2 (Z.eqb_neq y 0)) by done. rewrite orb_false_r. destruct (Z.eqb_spec (n - 1) 0) as [->|]; [by rewrite ndiff_0, Z.sub_diag|].
    apply IH; [done|done|lia|lia].
Qed.

Lemma strncmp_words_spec m fuel : forall s1 s2 n l1 l2, string_in m s1 l1 -> string_in m s2 l2 -> (length l1 < fuel)%nat -> 0 < n ->
  exists r, strncmp_words fuel m s1 s2 n = Some r /\
    match r with
    | Return0 => ndiff n l1 l2 = 0
    | Bytes a1 a2 n' => 0 < n' /\ exists l1' l2', string_in m a1 l1' /\ string_in m a2 l2' /\ ndiff n l1 l2 = ndiff n' l1' l2' /\ (length l1' <= length l1)%nat
    end.
Proof.
  induction fuel as [|fuel IH]; intros s1 s2 n l1 l2 H1 H2 Hf Hn; [lia|]. cbn [strncmp_words].
  destruct (Z.geb_spec n 4) as [Hn4|]; cbn [andb]; [|eexists; split; [done|]; split; [done|]; by exists l1, l2].
  destruct (Z.eqb_spec (load32 m s1) (load32 m s2)) as [E|]; [|eexists; split; [done|]; split; [done|]; by exists l1, l2].
  destruct (Z.eqb_spec (DETECTNULL (load32 m s1)) 0) as [Hd|Hd]; cbn [negb].
  - destruct (string_word m s1 l1 H1 Hd) as (c1 & l1' & -> & Hc1 & H1' & _ & Eb1). rewrite E in Hd.
    destruct (string_word m s2 l2 H2 Hd) as (c2 & l2' & -> & Hc2 & H2' & _ & Eb2).
    assert (c1 = c2) as -> by (rewrite Eb1, Eb2; apply bytes_ext; by apply load32_equal).
    rewrite orb_false_r, ndiff_app by lia. rewrite Hc2. change (Z.of_nat 4) with 4. rewrite length_app in Hf.
    destruct (Z.eqb_spec (n - 4) 0) as [->|]; [by exists Return0|].
    destruct (IH _ _ (n - 4) l1' l2' H1' H2' ltac:(lia) ltac:(lia)) as (r & -> & Hr). exists r. split; [done|].
    destruct r as [|a1 a2 n']; [done|]. destruct Hr as (Hn' & k1 & k2 & ? & ? & ? & ?). split; [done|]. exists k1, k2.
    split; [done|]. split; [done|]. split; [done|]. rewrite length_app. lia.
  - exists Return0. rewrite orb_true_r. split; [done|]. rewrite (string_same_word m s1 s2 l1 l2) by done. apply diff_refl.
Qed.

Lemma strncmp_spec m fuel s1 s2 n l1 l2 : string_in m s1 l1 -> string_in m s2 l2 -> (length l1 < fuel)%nat -> 0 <= n ->
  strncmp fuel m s1 s2 n = Some (ndiff n l1 l2) /\ strncmp_small fuel m s1 s2 n = Some (ndiff n l1 l2).
Proof.
  intros H1 H2 Hf Hn. unfold strncmp, strncmp_small. destruct (Z.eqb_spec n 0) as [->|]; [done|].
  destruct (strncmp_bytes_spec m l1 fuel s1 s2 n l2 H1 H2 Hf ltac:(lia)) as [Hb Hs]. split; [|done].
  destruct (UNALIGNED s1 s2 =? 0); [|done].
  destruct (strncmp_words_spec m fuel s1 s2 n l1 l2 H1 H2 Hf ltac:(lia)) as ([|a1 a2 n'] & -> & Hr); cbn [mbind option_bind]; [by rewrite Hr|].
  destruct Hr as (Hn' & k1 & k2 & Hk1 & Hk2 & -> & Hle). apply strncmp_bytes_spec; [done|done|lia|done].
Qed.

(** C34: the comparison of strings a word at a time is the comparison byte by byte.  On any two
    strings, aligned or not, both versions of strcmp end and return the same number, whose sign is
    that of the lexicographic order; so do both versions of strncmp, with the order of the first
    [n] characters. *)
Theorem strcmp_versions (fuel : nat) (m : Mem) (s1 s2 n : Z) (l1 l2 : list Z) :
  string_in m s1 l1 -> string_in m s2 l2 -> (length l1 < fuel)%nat -> 0 <= n ->
  exists r rn, strcmp fuel m s1 s2 = Some r /\ strcmp_small fuel m s1 s2 = Some r /\ Z.sgn r = Libk.lex l1 l2 /\
    strncmp fuel m s1 s2 n = Some rn /\ strncmp_small fuel m s1 s2 n = Some rn /\
    Z.sgn rn = Libk.lex (take (Z.to_nat n) l1) (take (Z.to_nat n) l2).
Proof.
  intros H1 H2 Hf Hn. destruct (strncmp_spec m fuel s1 s2 n l1 l2 H1 H2 Hf Hn) as [En Es].
  pose proof (string_positive _ _ _ H1) as P1. pose proof (string_positive _ _ _ H2) as P2.
  exists (diff l1 l2), (ndiff n l1 l2). split_and!; try done; [by apply strcmp_spec|by apply strcmp_small_spec|by apply diff_lex|].
  apply diff_lex; by apply Forall_take.
Qed.

(** ** Copying *)

(** [m'] is [m] with the [n] bytes from [src] copied to [dst]. *)
Definition copied (m m' : Mem) (dst src n : Z) : Prop :=
  forall x, is_u32 x -> loadb m' x = if (dst <=? x) && (x <? dst + n) then loadb m (src + (x - dst)) else loadb m x.

(** Two places of [n] bytes that do not meet, inside the address space. *)
Definition separate (dst src n : Z) : Prop :=
  0 <= dst /\ 0 <= src /\ dst + n <= 4294967296 /\ src + n <= 4294967296 /\ (dst + n <= src \/ src + n <= dst).

Lemma copied_0 m dst src : copied m m dst src 0.
Proof. intros x Hx. zcases. Qed.
(** Copying upwards in pieces: the target may overlap the source from below. *)
Lemma copied_app_below m m1 m2 dst src k n : 0 <= k <= n -> 0 <= dst -> 0 <= src -> dst + n <= 4294967296 -> src + n <= 4294967296 ->
  (dst <= src \/ src + n <= dst) -> copied m m1 dst src k -> copied m1 m2 (dst + k) (src + k) (n - k) -> copied m m2 dst src n.
Proof.
  intros Hk ? ? ? ? Hs C1 C2 x Hx. rewrite C2 by done.
  destruct (Z.leb_spec (dst + k) x); simpl; [destruct (Z.ltb_spec x (dst + k + (n - k))); simpl|].
  - rewrite C1 by (unfold is_u32 in *; lia). replace (src + k + (x - (dst + k))) with (src + (x - dst)) by lia. zcases.
  - rewrite C1 by done. zcases.
  - rewrite C1 by done. zcases.
Qed.
Lemma copied_app m m1 m2 dst src k n : 0 <= k <= n -> separate dst src n ->
  copied m m1 dst src k -> copied m1 m2 (dst + k) (src + k) (n - k) -> copied m m2 dst src n.
Proof. intros Hk (? & ? & ? & ? & Hs). apply copied_app_below; lia. Qed.
Lemma copied_byte m dst src : 0 <= dst < 4294967296 -> copied m (storeb m dst (loadb m src)) dst src 1.
Proof.
  intros Hd x Hx. rewrite Libk.loadb_storeb by (unfold is_u32 in *; lia). rewrite u8_small by apply loadb_range.
  zcases. f_equal. lia.
Qed.
Lemma copied_word m dst src : 0 <= dst -> dst + 4 <= 4294967296 -> copied m (store32 m dst (load32 m src)) dst src 4.
Proof.
  intros Hd Hd' x Hx. rewrite store32_spec by done. zcases. apply load32_bytes. lia.
Qed.

(** A string that is not written over stays. *)
Lemma string_frame m m' p l : (forall k, 0 <= k <= Z.of_nat (length l) -> loadb m' (p + k) = loadb m (p + k)) -> string_in m p l -> string_in m' p l.
Proof.
  intros He (Hs & Hp & Hl). split; [|done]. clear Hp Hl. revert p He Hs. induction l as [|c l IH]; intros p He Hs.
  - simpl in *. rewrite <- Hs, <- (Z.add_0_r p). apply He. lia.
  - destruct Hs as (Hc & Hn & Hs). split; [|split; [done|]].
    + rewrite <- Hc, <- (Z.add_0_r p). apply He. simpl. lia.
    + apply IH; [|done]. intros k Hk. rewrite <- !Z.add_assoc. apply He. simpl. lia.
Qed.
Lemma string_copied m m' dst src k p l : copied m m' dst src k -> separate dst src (k + (Z.of_nat (length l) + 1)) -> p = src + k -> 0 <= k ->
  string_in m p l -> string_in m' p l.
Proof.
  intros Hc (? & ? & ? & ? & Hs) -> Hk. apply string_frame. intros j Hj. rewrite Hc by (unfold is_u32; lia). zcases.
Qed.

Lemma string_next m p l0 l : string_in m p (l0 ++ l) -> 0 <= p + Z.of_nat (length l0) < 4294967296.
Proof. intros (_ & Hp & Hl). rewrite length_app in Hl. lia. Qed.

(** The byte loop copies the string with its terminator. *)
Lemma strcpy_bytes_spec l : forall fuel m dst src, string_in m src l -> separate dst src (Z.of_nat (length l) + 1) -> (length l < fuel)%nat ->
  exists m', strcpy_bytes fuel m dst src = Some m' /\ copied m m' dst src (Z.of_nat (length l) + 1).
Proof.
  induction l as [|c l IH]; intros [|fuel] m dst src Hs Hd Hf; simpl in Hf; try lia; cbn [strcpy_bytes];
    pose proof Hd as (? & ? & ? & ? & Hov); simpl in *; pose proof (copied_byte m dst src ltac:(lia)) as Hb.
  - rewrite (string_nil _ _ Hs) in *. simpl. eexists. split; [done|exact Hb].
  - pose proof (string_cons _ _ _ _ Hs) as (E & Hn & Hs'). rewrite E in *. rewrite (proj2 (Z.eqb_neq c 0)) by done.
    rewrite (u32_small (src + 1)), (u32_small (dst + 1)) in * by (unfold is_u32; lia).
    destruct (IH fuel (storeb m dst c) (dst + 1) (src + 1)) as (m' & -> & Hm').
    { eapply (string_copied _ _ dst src 1); [exact Hb| |done|lia|done]. split_and!; lia. }
    { split_and!; lia. }
    { lia. }
    exists m'. split; [done|]. eapply (copied_app m (storeb m dst c) m' dst src 1); [lia|done|done|].
    by replace (Z.of_nat (S (length l)) + 1 - 1) with (Z.of_nat (length l) + 1) by lia.
Qed.

Lemma strcpy_words_spec fuel : forall m dst src l, string_in m src l -> separate dst src (Z.of_nat (length l) + 1) -> (length l < fuel)%nat ->
  exists m' k, strcpy_words fuel m dst src = Some (m', dst + k, src + k) /\ 0 <= k <= Z.of_nat (length l) /\
    copied m m' dst src k /\ string_in m' (src + k) (drop (Z.to_nat k) l).
Proof.
  induction fuel as [|fuel IH]; intros m dst src l Hs Hd Hf; [lia|]. cbn [strcpy_words].
  destruct (Z.eqb_spec (DETECTNULL (load32 m src)) 0) as [E|].
  2: { exists m, 0. rewrite !Z.add_0_r. split; [done|]. split; [lia|]. split; [apply copied_0|done]. }
  destruct (string_word m src l Hs E) as (l0 & l' & -> & Hl0 & Hs' & Hlt & _).
  pose proof Hd as (? & ? & ? & ? & Hov). rewrite length_app in *.
  rewrite (u32_small (src + 4)) in * by (unfold is_u32; lia). rewrite (u32_small (dst + 4)) by (unfold is_u32; lia).
  pose proof (copied_word m dst src ltac:(lia) ltac:(lia)) as Hw. set (m1 := store32 m dst (load32 m src)) in *.
  destruct (IH m1 (dst + 4) (src + 4) l') as (m' & k & -> & Hk & Hc & Hsk).
  { eapply (string_copied m m1 dst src 4); [exact Hw| |done|lia|done]. split_and!; lia. }
  { split_and!; lia. }
  { lia. }
  exists m', (4 + k). rewrite !Z.add_assoc. split; [done|]. split; [lia|]. split.
  - eapply (copied_app m m1 m' dst src 4); [lia|split_and!; lia|done|]. by replace (4 + k - 4) with k by lia.
  - replace (Z.to_nat (4 + k)) with (length l0 + Z.to_nat k)%nat by lia. by rewrite drop_app_add.
Qed.

Lemma strcpy_spec fuel m dst src l : string_in m src l -> separate dst src (Z.of_nat (length l) + 1) -> (length l < fuel)%nat ->
  exists m', strcpy fuel m dst src = Some (m', dst) /\ copied m m' dst src (Z.of_nat (length l) + 1).
Proof.
  intros Hs Hd Hf. unfold strcpy. destruct (UNALIGNED src dst =? 0).
  2: { cbn [mbind option_bind]. destruct (strcpy_bytes_spec l fuel m dst src Hs Hd Hf) as (m' & -> & Hm'). by exists m'. }
  destruct (strcpy_words_spec fuel m dst src l Hs Hd Hf) as (m1 & k & -> & Hk & Hc & Hsk). cbn [mbind option_bind].
  pose proof Hd as (? & ? & ? & ? & Hov).
  destruct (strcpy_bytes_spec (drop (Z.to_nat k) l) fuel m1 (dst + k) (src + k)) as (m' & -> & Hm'); [done| | |].
  { rewrite length_drop. split_and!; lia. } { rewrite length_drop. lia. }
  exists m'. split; [done|]. eapply copied_app; [|exact Hd|exact Hc|]; [lia|].
  rewrite length_drop in Hm'. by replace (Z.of_nat (length l) + 1 - k) with (Z.of_nat (length l - Z.to_nat k) + 1) by lia.
Qed.

(** *** strncpy *)

Lemma zero_fill_spec n : forall m dst x, 0 <= dst -> dst + Z.of_nat n < 4294967296 -> is_u32 x ->
  loadb (zero_fill n m dst) x = if (dst <=? x) && (x <? dst + Z.of_nat n) then 0 else loadb m x.
Proof.
  induction n as [|n IH]; intros m dst x Hd Hn Hx; simpl; [zcases|]. rewrite u32_small by (unfold is_u32; lia).
  rewrite IH by (done || lia). rewrite Libk.loadb_storeb by (unfold is_u32 in *; lia). zcases.
Qed.

(** [m'] is [m] with the string [l] from [src] in the [count] bytes from [dst], cut off or filled up
    with NULs. *)
Definition padded (m m' : Mem) (dst src : Z) (l : list Z) (count : Z) : Prop :=
  forall x, is_u32 x -> loadb m' x =
    if (dst <=? x) && (x <? dst + count) then (if x - dst <? Z.of_nat (length l) then loadb m (src + (x - dst)) else 0) else loadb m x.

(** The string, with its terminator, and the target do not meet. *)
Definition clear_of (dst count src : Z) (l : list Z) : Prop :=
  0 <= dst /\ 0 <= count /\ dst + count < 4294967296 /\ (dst + count <= src \/ src + Z.of_nat (length l) + 1 <= dst).

Lemma padded_app m m1 m2 dst src l k count : 0 <= k <= count -> k <= Z.of_nat (length l) -> string_in m src l -> clear_of dst count src l ->
  copied m m1 dst src k -> padded m1 m2 (dst + k) (src + k) (drop (Z.to_nat k) l) (count - k) -> padded m m2 dst src l count.
Proof.
  intros Hk Hkl (_ & Hs0 & Hs1) (D1 & D2 & D3 & D4) C P x Hx. rewrite P by done. rewrite length_drop.
  destruct (Z.leb_spec (dst + k) x); simpl; [destruct (Z.ltb_spec x (dst + k + (count - k))); simpl|].
  - destruct (Z.ltb_spec (x - (dst + k)) (Z.of_nat (length l - Z.to_nat k))).
    + rewrite C by (unfold is_u32 in *; lia). replace (src + k + (x - (dst + k))) with (src + (x - dst)) by lia. zcases.
    + zcases.
  - rewrite C by done. zcases.
  - rewrite C by done. zcases.
Qed.

Lemma string_clear m m' dst count src l k l' : clear_of dst count src l -> copied m m' dst src k -> 0 <= k <= count ->
  k + Z.of_nat (length l') = Z.of_nat (length l) -> string_in m (src + k) l' -> string_in m' (src + k) l'.
Proof.
  intros (D1 & D2 & D3 & D4) C Hk Hl Hs. pose proof Hs as (_ & ? & ?). eapply string_frame; [|exact Hs]. intros j Hj.
  rewrite C by (unfold is_u32; lia). zcases.
Qed.

Lemma strncpy_bytes_spec n : forall m dst src l, string_in m src l -> clear_of dst (Z.of_nat n) src l ->
  padded m (strncpy_bytes n m dst src) dst src l (Z.of_nat n).
Proof.
  induction n as [|n IH]; intros m dst src l Hs Hd; [intros x Hx; simpl; zcases|].
  pose proof Hd as (D1 & D2 & D3 & D4). cbn [strncpy_bytes]. pose proof (copied_byte m dst src ltac:(lia)) as Hb.
  rewrite (u32_small (dst + 1)) by (unfold is_u32; lia). destruct l as [|c l].
  - rewrite (string_nil _ _ Hs) in *. simpl. intros x Hx. rewrite zero_fill_spec by (done || lia). rewrite Hb by done.
    simpl length. destruct (Z.leb_spec (dst + 1) x); simpl; [|zcases]; [|rewrite <- (string_nil _ _ Hs); f_equal; lia].
    zcases.
  - pose proof (string_cons _ _ _ _ Hs) as (E & Hn & Hs'). rewrite E in *. rewrite (proj2 (Z.eqb_neq c 0)) by done.
    pose proof Hs as (_ & S1 & S2). simpl in S2. rewrite (u32_small (src + 1)) in * by (unfold is_u32; lia).
    eapply (padded_app m (storeb m dst c) _ dst src (c :: l) 1); [lia|simpl; lia|done|done|done|].
    change (drop (Z.to_nat 1) (c :: l)) with l. replace (Z.of_nat (S n) - 1) with (Z.of_nat n) by lia. simpl in D4. apply IH.
    + eapply (string_clear m _ dst (Z.of_nat (S n)) src (c :: l) 1); [done|done|lia|simpl; lia|done].
    + split_and!; lia.
Qed.

Lemma strncpy_words_spec fuel : forall m dst src count l, string_in m src l -> clear_of dst count src l -> (length l < fuel)%nat ->
  exists m' k, strncpy_words fuel m dst src count = Some (m', dst + k, src + k, count - k) /\ 0 <= k <= count /\ k <= Z.of_nat (length l) /\
    copied m m' dst src k /\ string_in m' (src + k) (drop (Z.to_nat k) l).
Proof.
  induction fuel as [|fuel IH]; intros m dst src count l Hs Hd Hf; [lia|]. cbn [strncpy_words]. pose proof Hd as (D1 & D2 & D3 & D4).
  destruct (Z.geb_spec count 4); cbn [andb]; [destruct (Z.eqb_spec (DETECTNULL (load32 m src)) 0) as [E|]|].
  2, 3: exists m, 0; rewrite !Z.add_0_r, Z.sub_0_r; split; [done|]; split; [lia|]; split; [lia|]; split; [apply copied_0|done].
  destruct (string_word m src l Hs E) as (l0 & l' & -> & Hl0 & Hs' & Hlt & _). rewrite length_app in *.
  rewrite (u32_small (src + 4)) in * by (unfold is_u32; destruct Hs as (_ & ? & _); lia). rewrite (u32_small (dst + 4)) by (unfold is_u32; lia).
  pose proof (copied_word m dst src ltac:(lia) ltac:(lia)) as Hw. set (m1 := store32 m dst (load32 m src)) in *.
  destruct (IH m1 (dst + 4) (src + 4) (count - 4) l') as (m' & k & -> & Hk & Hkl & Hc & Hsk).
  { eapply (string_clear m m1 dst count src (l0 ++ l') 4); [done|done|lia|rewrite length_app; lia|done]. }
  { split_and!; lia. } { lia. }
  exists m', (4 + k). rewrite !Z.add_assoc. replace (count - 4 - k) with (count - (4 + k)) by lia. split; [done|]. split; [lia|]. split; [lia|].
  replace (Z.to_nat (4 + k)) with (length l0 + Z.to_nat k)%nat by lia. rewrite drop_app_add. split; [|done].
  intros x Hx. rewrite Hc by done. destruct Hs as (_ & Hs0 & Hs1). rewrite length_app in Hs1.
  destruct (Z.leb_spec (dst + 4) x); simpl; [destruct (Z.ltb_spec x (dst + 4 + k)); simpl|].
  - rewrite Hw by (unfold is_u32 in *; lia). replace (src + 4 + (x - (dst + 4))) with (src + (x - dst)) by lia. zcases.
  - rewrite Hw by done. zcases.
  - rewrite Hw by done. zcases.
Qed.

Lemma strncpy_spec fuel m dst src count l : string_in m src l -> clear_of dst count src l -> (length l < fuel)%nat ->
  exists m', strncpy fuel m dst src count = Some (m', dst) /\ padded m m' dst src l count.
Proof.
  intros Hs Hd Hf. unfold strncpy. pose proof Hd as (D1 & D2 & D3 & D4). destruct (_ && _).
  - destruct (strncpy_words_spec fuel m dst src count l Hs Hd Hf) as (m1 & k & -> & Hk & Hkl & Hc & Hsk). cbn [mbind option_bind].
    eexists. split; [done|]. eapply padded_app; [exact Hk|exact Hkl|exact Hs|exact Hd|exact Hc|].
    rewrite <- (Z2Nat.id (count - k)) at 2 by lia. apply strncpy_bytes_spec; [done|]. rewrite Z2Nat.id by lia. unfold clear_of. rewrite length_drop.
    split_and!; lia.
  - cbn [mbind option_bind]. eexists. split; [done|]. rewrite <- (Z2Nat.id count) at 2 by lia. apply strncpy_bytes_spec; [done|].
    by rewrite Z2Nat.id by lia.
Qed.

(** Strcpy and strncpy copy a word at a time what they copy byte by byte.  For a string and a
    target that do not meet, aligned or not, both versions of strcpy end and store
    exactly the string and its terminator; both versions of strncpy store exactly [count] bytes,
    the first of them the string's characters and the rest NULs; nothing else is written, and the
    target is returned. *)
Theorem string_copies (fuel : nat) (m : Mem) (dst src count : Z) (l : list Z) :
  string_in m src l -> (length l < fuel)%nat ->
  (separate dst src (Z.of_nat (length l) + 1) ->
     exists m1 m2, strcpy fuel m dst src = Some (m1, dst) /\ strcpy_small fuel m dst src = Some (m2, dst) /\
       copied m m1 dst src (Z.of_nat (length l) + 1) /\ copied m m2 dst src (Z.of_nat (length l) + 1)) /\
  (clear_of dst count src l ->
     exists m1 m2, strncpy fuel m dst src count = Some (m1, dst) /\ strncpy_small m dst src count = (m2, dst) /\
       padded m m1 dst src l count /\ padded m m2 dst src l count).
Proof.
  intros Hs Hf. split; intros Hd.
  - destruct (strcpy_spec fuel m dst src l Hs Hd Hf) as (m1 & E1 & C1). destruct (strcpy_bytes_spec l fuel m dst src Hs Hd Hf) as (m2 & E2 & C2).
    exists m1, m2. split_and!; try done. unfold strcpy_small. by rewrite E2.
  - destruct (strncpy_spec fuel m dst src count l Hs Hd Hf) as (m1 & E1 & C1). exists m1, (strncpy_bytes (Z.to_nat count) m dst src).
    split_and!; try done. pose proof Hd as (_ & ? & _). rewrite <- (Z2Nat.id count) at 2 by lia. apply strncpy_bytes_spec; [done|]. by rewrite Z2Nat.id by lia.
Qed.

(** *** memccpy *)

Lemma testbit_byte b r i : is_u8 b -> 0 <= i -> Z.testbit (b + 256 * r) i = if i <? 8 then Z.testbit b i else Z.testbit r (i - 8).
Proof.
  unfold is_u8. intros Hb Hi. destruct (Z.ltb_spec i 8).
  - rewrite <- (Z.mod_pow2_bits_low (b + 256 * r) 8 i) by lia. f_equal. change (2 ^ 8) with 256. zlia.
  - rewrite <- (Z.sub_add 8 i) at 1. rewrite <- Z.div_pow2_bits by lia. f_equal. change (2 ^ 8) with 256. zlia.
Qed.
Lemma lxor_u8 b c : is_u8 b -> is_u8 c -> is_u8 (Z.lxor b c).
Proof.
  unfold is_u8. intros Hb Hc. split; [apply Z.lxor_nonneg; lia|]. apply Z.nle_gt. intros Hx.
  assert (Z.testbit (Z.lxor b c) (Z.log2 (Z.lxor b c)) = true) as Ht by (apply Z.bit_log2; lia).
  assert (8 <= Z.log2 (Z.lxor b c)) by (apply Z.log2_le_pow2; lia).
  rewrite Z.lxor_spec, !testbit_div in Ht by lia. assert (256 <= 2 ^ Z.log2 (Z.lxor b c)) by (change 256 with (2 ^ 8); apply Z.pow_le_mono_r; lia).
  rewrite !Z.div_small in Ht by lia. done.
Qed.
Lemma lxor_byte b c r s : is_u8 b -> is_u8 c -> Z.lxor (b + 256 * r) (c + 256 * s) = Z.lxor b c + 256 * Z.lxor r s.
Proof.
  intros Hb Hc. apply Z.bits_inj'. intros i Hi. rewrite Z.lxor_spec, !testbit_byte by (done || by apply lxor_u8). case_if; by rewrite Z.lxor_spec.
Qed.

(** The mask repeats the character, when that is below 128. *)
Lemma mask_repeats e : 0 <= e < 128 -> mask_loop 4 0 e = e + 256 * (e + 256 * (e + 256 * (e + 256 * 0))).
Proof.
  intros He. cbn [mask_loop]. rewrite !Z.shiftl_mul_pow2 by lia. change (2 ^ 8) with 256. zlia.
Qed.

(** A word compared with a mask of one character: some byte is zero when the word holds it. *)
Lemma word_misses_byte m p e mask : is_u8 e -> mask = e + 256 * (e + 256 * (e + 256 * (e + 256 * 0))) ->
  DETECTNULL (Z.lxor (load32 m p) mask) = 0 <-> forall k, 0 <= k < 4 -> loadb m (p + k) <> e.
Proof.
  intros He8 ->. unfold load32.
  pose proof (loadb_range m p) as R0. pose proof (loadb_range m (p + 1)) as R1. pose proof (loadb_range m (p + 2)) as R2. pose proof (loadb_range m (p + 3)) as R3.
  replace (loadb m p + _ + _ + _) with (loadb m p + 256 * (loadb m (p + 1) + 256 * (loadb m (p + 2) + 256 * (loadb m (p + 3) + 256 * 0)))) by lia.
  rewrite !lxor_byte, Z.lxor_0_l by done.
  replace (Z.lxor (loadb m p) e + _) with (Z.lxor (loadb m p) e + 256 * Z.lxor (loadb m (p + 1)) e + 65536 * Z.lxor (loadb m (p + 2)) e + 16777216 * Z.lxor (loadb m (p + 3)) e) by lia.
  rewrite DETECTNULL_zero by (by apply lxor_u8). rewrite !Z.lxor_eq_0_iff. split.
  - intros (H0 & H1' & H2' & H3') k Hk. assert (k = 0 \/ k = 1 \/ k = 2 \/ k = 3) as [->|[->|[->| ->]]] by lia; by rewrite ?Z.add_0_r.
  - intros Hk. rewrite <- (Z.add_0_r p) at 1. repeat split; apply Hk; lia.
Qed.
Lemma word_misses m p e : 0 <= e < 128 ->
  DETECTNULL (Z.lxor (load32 m p) (mask_loop 4 0 e)) = 0 <-> forall k, 0 <= k < 4 -> loadb m (p + k) <> e.
Proof. intros He. apply word_misses_byte; [unfold is_u8; lia|by apply mask_repeats]. Qed.

Lemma s8_endchar c e : is_u8 c -> s8 c = endchar_of e <-> c = u8 e.
Proof.
  intros Hc. unfold endchar_of, s8. change 0xff with (Z.ones 8). rewrite Z.land_ones by lia. change (2 ^ 8) with 256. unfold is_u8, u8 in *.
  pose proof (Z.mod_pos_bound e 256 ltac:(lia)). rewrite Z.mod_mod, (Z.mod_small c) by lia. zcases.
Qed.

(** What memccpy does with the character [e]: it copies up to the first place that holds it, and
    returns the address behind the copy, or everything and NULL. *)
Definition ccopied (m m' : Mem) (dst src e n r : Z) : Prop :=
  exists j, 0 <= j <= n /\ (forall i, 0 <= i < j -> loadb m (src + i) <> e) /\
  ((j = n /\ r = 0 /\ copied m m' dst src n) \/ (j < n /\ loadb m (src + j) = e /\ r = dst + j + 1 /\ copied m m' dst src (j + 1))).

Lemma ccopied_app m m1 m' dst src e k n r : 0 <= k <= n -> separate dst src n -> copied m m1 dst src k ->
  (forall i, 0 <= i < k -> loadb m (src + i) <> e) -> ccopied m1 m' (dst + k) (src + k) e (n - k) r -> ccopied m m' dst src e n r.
Proof.
  intros Hk Hd Hc Hno (j & Hj & Hnj & Hr). pose proof Hd as (D1 & D2 & D3 & D4 & D5).
  assert (forall i, 0 <= i < n -> loadb m1 (src + i) = loadb m (src + i)) as Hsame.
  { intros i Hi. rewrite Hc by (unfold is_u32; lia). zcases. }
  exists (k + j). split; [lia|]. split.
  - intros i Hi. destruct (Z.ltb_spec i k); [apply Hno; lia|]. rewrite <- Hsame by lia.
    replace (src + i) with (src + k + (i - k)) by lia. apply Hnj. lia.
  - destruct Hr as [(-> & -> & Hcc)|(Hlt & He & -> & Hcc)]; [left|right].
    + split; [lia|]. split; [done|]. by eapply copied_app.
    + split; [lia|]. split; [rewrite <- Hsame, Z.add_assoc by lia; done|]. split; [lia|].
      eapply (copied_app m m1 m' dst src k); [lia|split_and!; lia|done|]. by replace (k + j + 1 - k) with (j + 1) by lia.
Qed.

(** Copies that end below the top of the address space. *)
Definition below (dst src n : Z) : Prop := dst + n < 4294967296 /\ src + n < 4294967296.

Lemma memccpy_bytes_spec n e : forall m dst src, separate dst src (Z.of_nat n) -> below dst src (Z.of_nat n) ->
  ccopied m (memccpy_bytes n m dst src (endchar_of e)).1 dst src (u8 e) (Z.of_nat n) (memccpy_bytes n m dst src (endchar_of e)).2.
Proof.
  induction n as [|n IH]; intros m dst src Hd Hb; cbn [memccpy_bytes].
  { exists 0. split; [lia|]. split; [lia|]. left. split; [done|]. split; [done|apply copied_0]. }
  pose proof Hd as (D1 & D2 & D3 & D4 & D5). destruct Hb as [B1 B2]. pose proof (copied_byte m dst src ltac:(lia)) as Hc.
  rewrite (u32_small (dst + 1)), (u32_small (src + 1)) by (unfold is_u32; lia).
  destruct (Z.eqb_spec (s8 (loadb m src)) (endchar_of e)) as [E|E]; rewrite s8_endchar in E by apply loadb_range.
  - exists 0. split; [lia|]. split; [lia|]. right. simpl. rewrite !Z.add_0_r. split; [lia|]. split; [done|]. split; [lia|exact Hc].
  - eapply (ccopied_app m _ _ dst src _ 1 (Z.of_nat (S n))); [lia|done|exact Hc| |].
    + intros i Hi. by replace (src + i) with src by lia.
    + replace (Z.of_nat (S n) - 1) with (Z.of_nat n) by lia. apply IH; [split_and!; lia|split; lia].
Qed.

Lemma memccpy_words_spec fuel e : forall m dst src n, 0 <= e < 128 -> separate dst src n -> below dst src n -> 0 <= n < Z.of_nat fuel ->
  exists m' k, memccpy_words fuel m dst src (mask_loop 4 0 e) n = Some (m', dst + k, src + k, n - k) /\ 0 <= k <= n /\
    copied m m' dst src k /\ forall i, 0 <= i < k -> loadb m (src + i) <> e.
Proof.
  induction fuel as [|fuel IH]; intros m dst src n He Hd Hb Hf; [lia|]. cbn [memccpy_words]. pose proof Hd as (D1 & D2 & D3 & D4 & D5). destruct Hb as [B1 B2].
  destruct (Z.geb_spec n 4) as [Hn|]; [destruct (Z.eqb_spec (DETECTNULL (Z.lxor (load32 m src) (mask_loop 4 0 e))) 0) as [E|]|]; cbn [negb].
  2, 3: exists m, 0; rewrite !Z.add_0_r, Z.sub_0_r; split; [done|]; split; [lia|]; split; [apply copied_0|lia].
  rewrite word_misses in E by done. rewrite (u32_small (src + 4)), (u32_small (dst + 4)) by (unfold is_u32; lia).
  pose proof (copied_word m dst src ltac:(lia) ltac:(lia)) as Hw. set (m1 := store32 m dst (load32 m src)) in *.
  destruct (IH m1 (dst + 4) (src + 4) (n - 4) He) as (m' & k & -> & Hk & Hc & Hno); [split_and!; lia|split; lia|lia|].
  exists m', (4 + k). rewrite !Z.add_assoc. replace (n - 4 - k) with (n - (4 + k)) by lia. split; [done|]. split; [lia|]. split.
  - eapply (copied_app m m1 m' dst src 4); [lia|split_and!; lia|done|]. by replace (4 + k - 4) with k by lia.
  - intros i Hi. destruct (Z.ltb_spec i 4); [apply E; lia|]. specialize (Hno (i - 4) ltac:(lia)). rewrite Hw in Hno by (unfold is_u32; lia).
    replace (src + 4 + (i - 4)) with (src + i) in Hno by lia. revert Hno. zcases.
Qed.

Lemma ccopied_unique m m1 m2 dst src e n r1 r2 : ccopied m m1 dst src e n r1 -> ccopied m m2 dst src e n r2 -> r1 = r2.
Proof.
  intros (j1 & Hj1 & N1 & R1) (j2 & Hj2 & N2 & R2). destruct (Z.lt_trichotomy j1 j2) as [Hlt|[->|Hlt]].
  - destruct R1 as [(-> & _)|(_ & He & _)]; [lia|]. by destruct (N2 j1 ltac:(lia)).
  - destruct R1 as [(-> & -> & _)|(? & _ & -> & _)], R2 as [(? & -> & _)|(? & _ & -> & _)]; lia.
  - destruct R2 as [(-> & _)|(_ & He & _)]; [lia|]. by destruct (N1 j2 ltac:(lia)).
Qed.

(** Memccpy, for characters below 128, copies a word at a time what it copies byte by byte.  For
    ranges that do not meet, aligned or not, both versions end; both copy up to the first place
    that holds the character, that place included, and return the address behind the copy, or, if
    there is none, copy everything and return NULL. *)
Theorem memccpy_copies (fuel : nat) (m : Mem) (dst src endchar n : Z) :
  0 <= endchar < 128 -> separate dst src n -> below dst src n -> 0 <= n < Z.of_nat fuel ->
  exists m1 m2 r, memccpy fuel m dst src endchar n = Some (m1, r) /\ memccpy_small m dst src endchar n = (m2, r) /\
    ccopied m m1 dst src endchar n r /\ ccopied m m2 dst src endchar n r.
Proof.
  intros He Hd Hb Hn. assert (u8 endchar = endchar) as E8 by (apply u8_small; unfold is_u8; lia).
  assert (endchar_of endchar = endchar) as Ee.
  { unfold endchar_of. change 0xff with (Z.ones 8). rewrite Z.land_ones by lia. change (2 ^ 8) with 256. rewrite Z.mod_small by lia.
    unfold s8. rewrite E8. zcases. }
  assert (forall k m1, 0 <= k <= n -> copied m m1 dst src k -> (forall i, 0 <= i < k -> loadb m (src + i) <> endchar) ->
    let r := memccpy_bytes (Z.to_nat (n - k)) m1 (dst + k) (src + k) endchar in ccopied m r.1 dst src endchar n r.2) as Hrest.
  { intros k m1 Hk Hc Hno. eapply ccopied_app; [exact Hk|exact Hd|exact Hc|exact Hno|].
    pose proof (memccpy_bytes_spec (Z.to_nat (n - k)) endchar m1 (dst + k) (src + k)) as Hm. rewrite Z2Nat.id, E8, Ee in Hm by lia.
    apply Hm; destruct Hb, Hd as (? & ? & ? & ? & ?); [split_and!; lia|split; lia]. }
  pose proof (Hrest 0 m ltac:(lia) (copied_0 m dst src) ltac:(lia)) as H0. rewrite !Z.add_0_r, Z.sub_0_r in H0. cbv zeta in H0.
  assert (exists m1 r, memccpy fuel m dst src endchar n = Some (m1, r) /\ ccopied m m1 dst src endchar n r) as (m1 & r & -> & Hr).
  { unfold memccpy. rewrite Ee. destruct (_ && _); cbn [mbind option_bind].
    - destruct (memccpy_words_spec fuel endchar m dst src n He Hd Hb Hn) as (m1 & k & -> & Hk & Hc & Hno). cbn [mbind option_bind].
      specialize (Hrest k m1 Hk Hc Hno). destruct (memccpy_bytes _ _ _ _ _) as [m' r]. by exists m', r.
    - destruct (memccpy_bytes _ _ _ _ _) as [m' r]. by exists m', r. }
  unfold memccpy_small. rewrite Ee. destruct (memccpy_bytes (Z.to_nat n) m dst src endchar) as [m2 r2] eqn:E2.
  simpl in H0. assert (r2 = r) as -> by (by eapply ccopied_unique). by exists m1, m2, r.
Qed.

(** With a character from 128 on the mask is not its repetition, because [char] is signed: the word
    loop passes over the byte 0xFF in the second place of the first word and goes on copying. *)
Definition ex_text : Mem := storel (fun _ => 0) 4096 [65; 0xFF; 66; 67; 68; 69; 70; 71].
Example memccpy_misses_high_byte :
  option_map snd (memccpy 9 ex_text 8192 4096 0xFF 8) = Some 0 /\ (memccpy_small ex_text 8192 4096 0xFF 8).2 = 8194.
Proof. vm_compute. split; reflexivity. Qed.

(** ** Witnesses *)

Definition ex_strings : Mem := storel (fun _ => 0) 4096 [104; 101; 108; 108; 111; 33; 0; 0; 104; 101; 108; 108; 112; 0].

Lemma ex_string1 : string_in ex_strings 4096 [104; 101; 108; 108; 111; 33].
Proof. split; [vm_compute; repeat split; discriminate|simpl; lia]. Qed.
Lemma ex_string2 : string_in ex_strings 4104 [104; 101; 108; 108; 112].
Proof. split; [vm_compute; repeat split; discriminate|simpl; lia]. Qed.

Lemma strcmp_versions_witness : exists r rn, strcmp 10 ex_strings 4096 4104 = Some r /\ r < 0 /\ strncmp 10 ex_strings 4096 4104 4 = Some rn /\ rn = 0.
Proof.
  destruct (strcmp_versions 10 ex_strings 4096 4104 4 _ _ ex_string1 ex_string2) as (r & rn & E1 & _ & S1 & E2 & _ & S2); [simpl; lia|lia|].
  exists r, rn. change (Libk.lex _ _) with (-1) in S1. change (Libk.lex _ _) with 0 in S2. split; [exact E1|]. split; [lia|]. split; [exact E2|]. lia.
Defined.

Lemma string_copies_witness :
  (exists m1, strcpy 10 ex_strings 8192 4096 = Some (m1, 8192) /\ copied ex_strings m1 8192 4096 7) /\
  exists m2, strncpy 10 ex_strings 8192 4096 10 = Some (m2, 8192) /\ padded ex_strings m2 8192 4096 [104; 101; 108; 108; 111; 33] 10.
Proof.
  destruct (string_copies 10 ex_strings 8192 4096 10 _ ex_string1) as [H1 H2]; [simpl; lia|]. split.
  - destruct H1 as (m1 & _ & E & _ & C & _); [split_and!; simpl; lia|]. exists m1. split; [exact E|exact C].
  - destruct H2 as (m2 & _ & E & _ & C & _); [split_and!; simpl; lia|]. exists m2. split; [exact E|exact C].
Defined.

Lemma memccpy_copies_witness : exists m1 r, memccpy 9 ex_text 8192 4096 67 8 = Some (m1, r) /\ ccopied ex_text m1 8192 4096 67 8 r.
Proof.
  destruct (memccpy_copies 9 ex_text 8192 4096 67 8) as (m1 & _ & r & E & _ & C & _); [lia|split_and!; lia|split; lia|lia|].
  exists m1, r. split; [exact E|exact C].
Defined.

End NewlibString.
