(* ===== verification/NewlibCtype.v ===== *)
(** newlib/newlib/libc/ctype: the character classes of the C library, by table lookup.

    The table is that of the C locale; a character is an [int] from -1 (EOF) to 255. *)

From S2P Require Import Prelude.

Module NewlibCtype.

Definition _U : Z := 0x01.
Definition _L : Z := 0x02.
Definition _N : Z := 0x04.
Definition _S : Z := 0x08.
Definition _P : Z := 0x10.
Definition _C : Z := 0x20.
Definition _X : Z := 0x40.
Definition _B : Z := 0x80.

Definition _CTYPE_DATA_0_127 : list Z :=
  [_C; _C; _C; _C; _C; _C; _C; _C;
   _C; Z.lor _C _S; Z.lor _C _S; Z.lor _C _S; Z.lor _C _S; Z.lor _C _S; _C; _C;
   _C; _C; _C; _C; _C; _C; _C; _C;
   _C; _C; _C; _C; _C; _C; _C; _C;
   Z.lor _S _B; _P; _P; _P; _P; _P; _P; _P;
   _P; _P; _P; _P; _P; _P; _P; _P;
   _N; _N; _N; _N; _N; _N; _N; _N;
   _N; _N; _P; _P; _P; _P; _P; _P;
   _P; Z.lor _U _X; Z.lor _U _X; Z.lor _U _X; Z.lor _U _X; Z.lor _U _X; Z.lor _U _X; _U;
   _U; _U; _U; _U; _U; _U; _U; _U;
   _U; _U; _U; _U; _U; _U; _U; _U;
   _U; _U; _U; _P; _P; _P; _P; _P;
   _P; Z.lor _L _X; Z.lor _L _X; Z.lor _L _X; Z.lor _L _X; Z.lor _L _X; Z.lor _L _X; _L;
   _L; _L; _L; _L; _L; _L; _L; _L;
   _L; _L; _L; _L; _L; _L; _L; _L;
   _L; _L; _L; _P; _P; _P; _P; _C].
Definition _CTYPE_DATA_128_255 : list Z := replicate 128 0.
Definition _ctype_ : list Z := 0 :: _CTYPE_DATA_0_127 ++ _CTYPE_DATA_128_255.

(** [__CTYPE_PTR[c+1]] *)
Definition ctype_lookup (c : Z) : Z := nth (Z.to_nat (c + 1)) _ctype_ 0.
Definition has_class (c mask : Z) : bool := negb (Z.land (ctype_lookup c) mask =? 0).

Definition isalnum (c : Z) : bool := has_class c (Z.lor (Z.lor _U _L) _N).
Definition isalpha (c : Z) : bool := has_class c (Z.lor _U _L).
Definition isblank (c : Z) : bool := has_class c _B || (c =? 9).
Definition iscntrl (c : Z) : bool := has_class c _C.
Definition isdigit (c : Z) : bool := has_class c _N.
Definition isgraph (c : Z) : bool := has_class c (Z.lor (Z.lor (Z.lor _P _U) _L) _N).
Definition isprint (c : Z) : bool := has_class c (Z.lor (Z.lor (Z.lor (Z.lor _P _U) _L) _N) _B).
Definition islower (c : Z) : bool := Z.land (ctype_lookup c) (Z.lor _U _L) =? _L.
Definition isupper (c : Z) : bool := Z.land (ctype_lookup c) (Z.lor _U _L) =? _U.
Definition ispunct (c : Z) : bool := has_class c _P.
Definition isspace (c : Z) : bool := has_class c _S.
Definition isxdigit (c : Z) : bool := has_class c (Z.lor _X _N).
Definition isascii (c : Z) : bool := (0 <=? c) && (c <? 128).
Definition toascii (c : Z) : Z := Z.land c 0x7F.
Definition tolower (c : Z) : Z := if isupper c then c - chr "A" + chr "a" else c.
Definition toupper (c : Z) : Z := if islower c then c - chr "a" + chr "A" else c.

Definition between (a c b : Z) : bool := (a <=? c) && (c <=? b).

(** A statement about every argument the functions are defined for, by evaluation. *)
Lemma every_char (P : Z -> bool) : forallb P (seqZ (-1) 257) = true -> forall c, -1 <= c <= 255 -> P c = true.
Proof.
  rewrite forallb_forall. intros H c Hc. apply H, list_elem_of_In, elem_of_seqZ. lia.
Qed.

Lemma isspace_range c : -1 <= c <= 255 -> isspace c = between 9 c 13 || (c =? 32).
Proof.
  intros Hc. apply eqb_prop. revert c Hc. apply (every_char (fun c => Bool.eqb (isspace c) (between 9 c 13 || (c =? 32)))). vm_compute. reflexivity.
Qed.

(** The character classes are the ASCII ones.  For every argument from EOF to 255 the table
    puts letters, digits, spaces, control characters and punctuation where ASCII has them, and
    nothing above 127 or at EOF in any class; and on them tolower and toupper change exactly the
    letters of the other case, and undo each other there. *)
Theorem ctype_classes (c : Z) : -1 <= c <= 255 ->
  isupper c = between 65 c 90 /\ islower c = between 97 c 122 /\ isalpha c = isupper c || islower c /\
  isdigit c = between 48 c 57 /\ isalnum c = isalpha c || isdigit c /\
  isxdigit c = isdigit c || between 65 c 70 || between 97 c 102 /\
  isspace c = between 9 c 13 || (c =? 32) /\ isblank c = (c =? 9) || (c =? 32) /\
  iscntrl c = between 0 c 31 || (c =? 127) /\ isprint c = between 32 c 126 /\ isgraph c = between 33 c 126 /\
  ispunct c = isgraph c && negb (isalnum c) /\
  tolower c = (if isupper c then c + 32 else c) /\ toupper c = (if islower c then c - 32 else c) /\
  (isalpha c = true -> toupper (tolower c) = toupper c /\ tolower (toupper c) = tolower c).
Proof.
  intros Hc.
  pose (checks := fun c => [Bool.eqb (isupper c) (between 65 c 90); Bool.eqb (islower c) (between 97 c 122); Bool.eqb (isalpha c) (isupper c || islower c);
    Bool.eqb (isdigit c) (between 48 c 57); Bool.eqb (isalnum c) (isalpha c || isdigit c);
    Bool.eqb (isxdigit c) (isdigit c || between 65 c 70 || between 97 c 102); Bool.eqb (isspace c) (between 9 c 13 || (c =? 32));
    Bool.eqb (isblank c) ((c =? 9) || (c =? 32)); Bool.eqb (iscntrl c) (between 0 c 31 || (c =? 127));
    Bool.eqb (isprint c) (between 32 c 126); Bool.eqb (isgraph c) (between 33 c 126); Bool.eqb (ispunct c) (isgraph c && negb (isalnum c));
    tolower c =? (if isupper c then c + 32 else c); toupper c =? (if islower c then c - 32 else c);
    negb (isalpha c) || (toupper (tolower c) =? toupper c) && (tolower (toupper c) =? tolower c)]).
  assert (forallb id (checks c) = true) as H by (apply (every_char (fun c => forallb id (checks c))); [vm_compute; reflexivity|done]).
  unfold checks in H. cbn [forallb] in H. unfold id in H. rewrite !andb_true_iff in H.
  repeat setoid_rewrite eqb_true_iff in H. repeat setoid_rewrite Z.eqb_eq in H.
  destruct H as (?&?&?&?&?&?&?&?&?&?&?&?&?&?& Ha &_). repeat (split; [assumption|]).
  intros Hal. rewrite Hal in Ha. simpl in Ha. by rewrite andb_true_iff, !Z.eqb_eq in Ha.
Qed.

Lemma ctype_classes_witness : isupper 65 = true /\ tolower 65 = 97.
Proof. destruct (ctype_classes 65 ltac:(lia)) as (E1 & _ & _ & _ & _ & _ & _ & _ & _ & _ & _ & _ & E2 & _). rewrite E2, E1. split; reflexivity. Defined.

End NewlibCtype.
