(* ===== verification/NewlibStrtol.v ===== *)
(** newlib/newlib/libc/stdlib/strtol.c and strtoul.c: reading integers, in the C locale.

    [long] is 32 bits.  A result is the value, what errno was set to (if it was), and what was
    stored through a non-null [endptr] (if anything was). *)

From S2P Require Import Prelude NewlibCtype.

Module NewlibStrtol.

Definition EINVAL : Z := 22.
Definition ERANGE : Z := 34.
Definition LONG_MIN : Z := -2147483648.
Definition LONG_MAX : Z := 2147483647.
Definition ULONG_MAX : Z := 4294967295.

Record Result := MkResult { value : Z; errno : option Z; endptr : option Z }.

(** [do { c = *s++; } while (isspace_l(c, loc));] *)
Fixpoint skip_space (fuel : nat) (m : Mem) (s : Z) : option (Z * Z) :=
  match fuel with
  | O => None
  | S fuel =>
      let c := loadb m s in
      let s := u32 (s + 1) in
      if NewlibCtype.isspace c then skip_space fuel m s else Some (c, s)
  end.

(** The sign: [neg], and the next character and the pointer behind it. *)
Definition read_sign (m : Mem) (c s : Z) : bool * Z * Z :=
  if c =? chr "-" then (true, loadb m s, u32 (s + 1))
  else if c =? chr "+" then (false, loadb m s, u32 (s + 1))
  else (false, c, s).

(** The prefix and the base. *)
Definition read_base (m : Mem) (base c s : Z) : Z * Z * Z :=
  let '(base, c, s) :=
    (if ((base =? 0) || (base =? 16)) && ((c =? chr "0") && ((loadb m s =? chr "x") || (loadb m s =? chr "X")))
     then (16, loadb m (u32 (s + 1)), u32 (s + 2)) else (base, c, s)) in
  (if base =? 0 then (if c =? chr "0" then 8 else 10) else base, c, s).

(** The value of a digit or letter. *)
Definition digit (c : Z) : option Z :=
  if (chr "0" <=? c) && (c <=? chr "9") then Some (c - chr "0")
  else if (chr "A" <=? c) && (c <=? chr "Z") then Some (c - (chr "A" - 10))
  else if (chr "a" <=? c) && (c <=? chr "z") then Some (c - (chr "a" - 10))
  else None.

(** The digits: the accumulated value, [any], and the pointer behind the character that ended them. *)
Fixpoint digits (fuel : nat) (m : Mem) (base cutoff cutlim c s acc any : Z) : option (Z * Z * Z) :=
  match fuel with
  | O => None
  | S fuel =>
      match digit c with
      | None => Some (acc, any, s)
      | Some d =>
          if d >=? base then Some (acc, any, s)
          else
            let '(acc, any) :=
              (if (any <? 0) || (acc >? cutoff) || ((acc =? cutoff) && (d >? cutlim)) then (acc, -1)
               else (u32 (u32 (acc * base) + d), 1)) in
            digits fuel m base cutoff cutlim (loadb m s) (u32 (s + 1)) acc any
      end
  end.

Definition end_of (any s nptr endp : Z) : option Z :=
  if negb (endp =? 0) then Some (if negb (any =? 0) then u32 (s - 1) else nptr) else None.

(** [endp] is the [endptr] argument. *)
Definition _strtol_l (fuel : nat) (m : Mem) (nptr endp base : Z) : option Result :=
  if (base <? 0) || (base =? 1) || (base >? 36) then Some (MkResult 0 (Some EINVAL) None)
  else
    '(c, s) ← skip_space fuel m nptr;
    let '(neg, c, s) := read_sign m c s in
    let '(base, c, s) := read_base m base c s in
    let cutoff := if neg then u32 (- LONG_MIN) else LONG_MAX in
    let cutlim := cutoff mod base in
    let cutoff := cutoff / base in
    '(acc, any, s) ← digits fuel m base cutoff cutlim c s 0 0;
    let '(acc, err) := (if any <? 0 then (if neg then LONG_MIN else LONG_MAX, Some ERANGE)
                        else (s32 (if neg then u32 (- acc) else acc), None)) in
    Some (MkResult acc err (end_of any s nptr endp)).

Definition _strtoul_l (fuel : nat) (m : Mem) (nptr endp base : Z) : option Result :=
  '(c, s) ← skip_space fuel m nptr;
  let '(neg, c, s) := read_sign m c s in
  let '(base, c, s) := read_base m base c s in
  let cutoff := ULONG_MAX / u32 base in
  let cutlim := ULONG_MAX mod u32 base in
  '(acc, any, s) ← digits fuel m base cutoff cutlim c s 0 0;
  let '(acc, err) := (if any <? 0 then (ULONG_MAX, Some ERANGE)
                      else ((if neg then u32 (- acc) else acc), None)) in
  Some (MkResult acc err (end_of any s nptr endp)).

Definition strtol (fuel : nat) (m : Mem) (s ptr base : Z) : option Result := _strtol_l fuel m s ptr base.
Definition strtoul (fuel : nat) (m : Mem) (s ptr base : Z) : option Result := _strtoul_l fuel m s ptr base.
Definition atol (fuel : nat) (m : Mem) (s : Z) : option Z := r ← strtol fuel m s 0 10; Some (value r).
Definition atoi (fuel : nat) (m : Mem) (s : Z) : option Z := r ← strtol fuel m s 0 10; Some (value r).

(** ** Text in memory *)

(** The characters [l] stand at [p], inside the address space. *)
Definition reads (m : Mem) (p : Z) (l : list Z) : Prop :=
  bytes m p (length l) = l /\ 0 <= p /\ p + Z.of_nat (length l) < 4294967296.

Lemma reads_cons m p c l : reads m p (c :: l) -> loadb m p = c /\ reads m (u32 (p + 1)) l.
Proof.
  intros (Hb & Hp & Hl). cbn [length] in *. cbn [bytes] in Hb. injection Hb as -> Hb. rewrite u32_small by (unfold is_u32; lia).
  split; [done|]. split; [done|lia].
Qed.
Lemma reads_upto_app m p l l' : reads m p (l ++ l') -> reads m (p + Z.of_nat (length l)) l'.
Proof.
  revert p. induction l as [|c l IH]; intros p H; [by rewrite Z.add_0_r|]. pose proof H as (_ & Hp & Hl). rewrite length_app in Hl. simpl length in *.
  apply reads_cons in H as [_ H]. apply IH in H. rewrite u32_small in H by (unfold is_u32; lia). by replace (p + Z.of_nat (S (length l))) with (p + 1 + Z.of_nat (length l)) by lia.
Qed.

Lemma skip_space_spec m l : forall fuel p c rest, reads m p (l ++ c :: rest) -> Forall (fun c => NewlibCtype.isspace c = true) l ->
  NewlibCtype.isspace c = false -> (length l < fuel)%nat ->
  skip_space fuel m p = Some (c, p + Z.of_nat (length l) + 1).
Proof.
  induction l as [|d l IH]; intros [|fuel] p c rest Hr Hs Hc Hf; simpl in Hf; try lia; cbn [skip_space]; pose proof Hr as (_ & Hp & Hl);
    apply reads_cons in Hr as [-> Hr]; simpl app in *; simpl length in *.
  - rewrite Hc. rewrite u32_small by (unfold is_u32; lia). f_equal. f_equal. lia.
  - apply Forall_cons in Hs as [-> Hs]. erewrite IH; [|done|done|done|lia]. rewrite u32_small by (unfold is_u32; lia). do 2 f_equal. lia.
Qed.

(** ** Digits *)

Definition horner (base : Z) (ds : list Z) (acc : Z) : Z := fold_left (fun a d => a * base + d) ds acc.
(** The characters of a numeral and their values. *)
Definition numeral (base : Z) (cs ds : list Z) : Prop := Forall2 (fun c d => digit c = Some d /\ 0 <= d < base) cs ds.
Definition stops (base c : Z) : Prop := match digit c with Some d => base <= d | None => True end.

Lemma horner_mono base ds : forall acc, 1 <= base -> Forall (fun d => 0 <= d) ds -> 0 <= acc -> acc <= horner base ds acc.
Proof.
  induction ds as [|d ds IH]; intros acc Hb Hd Ha; simpl; [lia|]. apply Forall_cons in Hd as [Hd Hds]. etransitivity; [|apply IH; [done|done|]]; nia.
Qed.
Lemma numeral_nonneg base cs ds : numeral base cs ds -> Forall (fun d => 0 <= d) ds.
Proof. induction 1 as [|c d cs ds [_ ?] _ IH]; constructor; [lia|done]. Qed.

(** The cutoff test is the test for overflow of the limit. *)
Lemma cutoff_test limit base acc d : 0 < base -> 0 <= d < base -> 0 <= acc ->
  (acc >? limit / base) || ((acc =? limit / base) && (d >? limit mod base)) = (limit <? acc * base + d).
Proof.
  intros Hb Hd Ha. pose proof (Z.div_mod limit base ltac:(lia)) as E. pose proof (Z.mod_pos_bound limit base Hb) as Hm.
  set (q := limit / base) in *. set (r := limit mod base) in *. clearbody q r.
  destruct (Z.gtb_spec acc q); simpl; [symmetry; apply Z.ltb_lt; nia|].
  destruct (Z.eqb_spec acc q) as [->|]; simpl; [destruct (Z.gtb_spec d r), (Z.ltb_spec limit (q * base + d)); try done; nia|].
  symmetry. apply Z.ltb_ge. nia.
Qed.

(** The loop, once a digit was too much and before. *)
Lemma digits_over m base cut lim cs : forall ds fuel s c acc stop rest, numeral base cs ds -> stops base stop -> (length cs < fuel)%nat ->
  reads m s (tail (cs ++ stop :: rest)) -> c = hd 0 (cs ++ [stop]) ->
  digits fuel m base cut lim c s acc (-1) = Some (acc, -1, s + Z.of_nat (length cs)).
Proof.
  induction cs as [|c0 cs IH]; intros ds [|fuel] s c acc stop rest Hn Hs Hf Hr ->; simpl in Hf; try lia; cbn [digits hd app].
  - rewrite Z.add_0_r. unfold stops in Hs. destruct (digit stop) as [d|]; [|done]. by rewrite (proj2 (Z.geb_le d base)) by done.
  - inversion Hn as [|? d ? ds' [Ed Hd] Hn']; subst. rewrite Ed. destruct (Z.geb_spec d base); [lia|]. simpl orb. cbv iota.
    simpl in Hr. destruct cs as [|c1 cs]; (pose proof Hr as (_ & Hp & Hl); simpl in Hl; apply reads_cons in Hr as [E Hr]).
    + erewrite (IH ds'); [| done|done|lia|exact Hr|done]. rewrite u32_small by (unfold is_u32; lia). do 2 f_equal. simpl. lia.
    + erewrite (IH ds'); [|done|done|lia|exact Hr|done]. rewrite u32_small by (unfold is_u32; lia). do 2 f_equal. simpl length. lia.
Qed.

Lemma digits_spec m base limit cs : 2 <= base -> 0 <= limit < 4294967296 -> forall ds fuel s c acc any stop rest,
  numeral base cs ds -> stops base stop -> (length cs < fuel)%nat -> 0 <= acc <= limit -> 0 <= any ->
  reads m s (tail (cs ++ stop :: rest)) -> c = hd 0 (cs ++ [stop]) ->
  exists acc' any', digits fuel m base (limit / base) (limit mod base) c s acc any = Some (acc', any', s + Z.of_nat (length cs)) /\
    (if limit <? horner base ds acc then any' = -1 else acc' = horner base ds acc /\ any' = if decide (cs = []) then any else 1).
Proof.
  intros Hb Hlim. induction cs as [|c0 cs IH]; intros ds [|fuel] s c acc any stop rest Hn Hs Hf Hacc Hany Hr ->; simpl in Hf; try lia; cbn [digits hd app].
  - inversion Hn; subst. exists acc, any. simpl horner. rewrite (proj2 (Z.ltb_ge limit acc)) by lia. rewrite decide_True by done. rewrite Z.add_0_r.
    split; [|done]. unfold stops in Hs. destruct (digit stop) as [d|]; [|done]. by rewrite (proj2 (Z.geb_le d base)) by done.
  - inversion Hn as [|? d ? ds' [Ed Hd] Hn']; subst. rewrite Ed. destruct (Z.geb_spec d base); [lia|].
    rewrite (proj2 (Z.ltb_ge any 0)) by lia. cbn [orb]. rewrite cutoff_test by lia. simpl horner.
    assert (reads m s (hd 0 (cs ++ [stop]) :: tail (cs ++ stop :: rest))) as Hr' by (simpl in Hr; by destruct cs).
    pose proof Hr' as (_ & Hp & Hl). simpl in Hl. apply reads_cons in Hr' as [E Hr'].
    assert (u32 (s + 1) + Z.of_nat (length cs) = s + Z.of_nat (length (c0 :: cs))) as Es by (rewrite u32_small by (unfold is_u32; lia); simpl length; lia).
    pose proof (horner_mono base ds' (acc * base + d) ltac:(lia) (numeral_nonneg _ _ _ Hn') ltac:(nia)) as Hmono.
    destruct (Z.ltb_spec limit (acc * base + d)) as [Hov|Hok].
    + exists acc, (-1). unfold horner in *. rewrite (proj2 (Z.ltb_lt _ _)) by lia. split; [|done]. erewrite digits_over; [by rewrite Es|done|done|lia|exact Hr'|exact E].
    + assert (u32 (u32 (acc * base) + d) = acc * base + d) as -> by (rewrite (u32_small (acc * base)) by (unfold is_u32; nia); apply u32_small; unfold is_u32; nia).
      destruct (IH ds' fuel (u32 (s + 1)) (loadb m s) (acc * base + d) 1 stop rest Hn' Hs ltac:(lia) ltac:(nia) ltac:(lia) Hr' E) as (a' & y' & -> & Hres).
      exists a', y'. rewrite Es. split; [done|]. unfold horner in *. destruct (limit <? _); [done|]. rewrite decide_False by done. by destruct (decide (cs = [])).
Qed.

(** ** The text before the digits *)

Definition sign_text (neg : bool) (sg : list Z) : Prop :=
  if neg then sg = [chr "-"] else sg = [] \/ sg = [chr "+"].

Definition hex_mark (c : Z) : Prop := c = chr "x" \/ c = chr "X".
(** The prefix [pre] before the digits [cs] makes [radix] of the argument [base]. *)
Definition radix_text (base : Z) (pre cs : list Z) (stop radix : Z) : Prop :=
  ((base = 0 \/ base = 16) /\ radix = 16 /\ exists x, pre = [chr "0"; x] /\ hex_mark x) \/
  (pre = [] /\ ~ ((base = 0 \/ base = 16) /\ cs = [chr "0"] /\ hex_mark stop) /\
   ((2 <= base <= 36 /\ radix = base) \/ (base = 0 /\ radix = if hd 0 cs =? chr "0" then 8 else 10))).

Lemma digit_range c d : digit c = Some d -> 48 <= c <= 122 /\ 0 <= d <= 35.
Proof.
  unfold digit. change (chr "0") with 48. change (chr "9") with 57. change (chr "A") with 65. change (chr "Z") with 90.
  change (chr "a") with 97. change (chr "z") with 122. intros H. repeat case_if_in H; simplify_eq; rewrite ?andb_true_iff, ?Z.leb_le in *; lia.
Qed.
Lemma hex_mark_digit x : hex_mark x -> digit x = Some 33.
Proof. by intros [-> | ->]. Qed.
Lemma digit_not_space c : 48 <= c <= 122 -> NewlibCtype.isspace c = false.
Proof. intros Hc. rewrite NewlibCtype.isspace_range by lia. unfold NewlibCtype.between. zcases. Qed.

Lemma reads_next m s c l : reads m s (c :: l) -> loadb m s = c /\ u32 (s + 1) = s + 1 /\ reads m (s + 1) l.
Proof. intros H. pose proof H as (_ & ? & Hl). simpl in Hl. apply reads_cons in H as [? H]. rewrite u32_small in * by (unfold is_u32; lia). done. Qed.

Lemma read_sign_spec m neg sg c s l : sign_text neg sg -> sg ++ l = c :: tail (sg ++ l) -> reads m s (tail (sg ++ l)) ->
  l <> [] -> 48 <= hd 0 l <= 122 -> read_sign m c s = (neg, hd 0 l, s + Z.of_nat (length sg)) /\ reads m (s + Z.of_nat (length sg)) (tail l).
Proof.
  intros Hs E Hr Hl Hd. unfold read_sign. change (chr "-") with 45. change (chr "+") with 43. destruct l as [|c0 l]; [done|]. simpl in Hd.
  destruct neg; [simpl in Hs; subst sg|destruct Hs as [->| ->]]; simpl in E, Hr |- *; injection E as <-.
  - apply reads_next in Hr as (-> & -> & Hr). simpl. done.
  - rewrite !(proj2 (Z.eqb_neq _ _)) by lia. by rewrite Z.add_0_r.
  - apply reads_next in Hr as (-> & -> & Hr). simpl. done.
Qed.

Lemma read_base_spec m base pre cs ds stop rest radix s : radix_text base pre cs stop radix -> numeral radix cs ds -> cs <> [] ->
  reads m s (tail (pre ++ cs ++ stop :: rest)) ->
  read_base m base (hd 0 (pre ++ cs)) s = (radix, hd 0 cs, s + Z.of_nat (length pre)) /\ reads m (s + Z.of_nat (length pre)) (tail (cs ++ stop :: rest)).
Proof.
  intros Hx Hn Hne Hr. destruct cs as [|c0 cs]; [done|]. inversion Hn as [|? d ? ds' [Ed Hd] Hn']; subst. unfold read_base.
  destruct Hx as [(Hb & -> & x & -> & Hx)|(-> & Hno & Hb)]; simpl in Hr |- *.
  - apply reads_next in Hr as (-> & E1 & Hr). apply reads_next in Hr as (Ec & E2 & Hr).
    assert ((base =? 0) || (base =? 16) = true) as -> by (apply orb_true_iff; rewrite !Z.eqb_eq; tauto).
    assert ((x =? chr "x") || (x =? chr "X") = true) as -> by (apply orb_true_iff; rewrite !Z.eqb_eq; done).
    simpl. rewrite E1, Ec. change (Z.of_nat 2) with 2. replace (s + 2) with (s + 1 + 1) by lia. by rewrite E2.
  - rewrite Z.add_0_r. split; [|done].
    assert (((base =? 0) || (base =? 16)) && ((c0 =? chr "0") && ((loadb m s =? chr "x") || (loadb m s =? chr "X"))) = false) as ->.
    { apply not_true_iff_false. rewrite !andb_true_iff, !orb_true_iff, !Z.eqb_eq. intros (Hb' & -> & Hx).
      destruct cs as [|c1 cs]; simpl in Hr; apply reads_next in Hr as (E & _); [apply Hno; repeat split; [done|]; unfold hex_mark; congruence|].
      inversion Hn' as [|? d1 ? ? [Ed1 Hd1] _]; subst. rewrite (hex_mark_digit (loadb m s)) in Ed1 by done. simplify_eq.
      destruct Hb as [[Hb ->]|[-> ->]]; [lia|simpl in Hd1; lia]. }
    destruct Hb as [[Hb ->]|[-> ->]]; [by rewrite (proj2 (Z.eqb_neq base 0)) by lia|done].
Qed.

(** The value of the numeral, the place behind it, and what follows it, for both routines. *)
Lemma front_spec fuel m nptr base sp sg neg pre cs ds stop rest radix :
  reads m nptr (sp ++ sg ++ pre ++ cs ++ stop :: rest) -> Forall (fun c => NewlibCtype.isspace c = true) sp ->
  sign_text neg sg -> radix_text base pre cs stop radix -> numeral radix cs ds -> cs <> [] -> (length sp < fuel)%nat ->
  let n := Z.of_nat (length (sp ++ sg ++ pre)) in
  exists c0 s0 c1 s1 c2, skip_space fuel m nptr = Some (c0, s0) /\ read_sign m c0 s0 = (neg, c1, s1) /\
    read_base m base c1 s1 = (radix, c2, nptr + n + 1) /\ c2 = hd 0 (cs ++ [stop]) /\ reads m (nptr + n + 1) (tail (cs ++ stop :: rest)) /\ 2 <= radix <= 36.
Proof.
  intros Hr Hsp Hsg Hx Hn Hne Hf n.
  assert (2 <= radix <= 36) as Hrad by (destruct Hx as [(_ & -> & _)|(_ & _ & [[? ->]|[_ ->]])]; [lia|lia|case_if; lia]).
  set (l := pre ++ cs ++ stop :: rest) in *.
  assert (l <> [] /\ 48 <= hd 0 l <= 122 /\ hd 0 l = hd 0 (pre ++ cs)) as (Hl & Hd & Ehd).
  { unfold l. destruct cs as [|c0 cs]; [done|]. inversion Hn as [|? d ? ? [Ed _] _]; subst. apply digit_range in Ed as [Ed _].
    destruct Hx as [(_ & _ & x & -> & _)|(-> & _)]; simpl; [change (chr "0") with 48; split; [done|lia]|split; [done|lia]]. }
  destruct (sg ++ l) as [|c0 tl] eqn:E0; [by apply app_eq_nil in E0 as [_ ->]|].
  assert (NewlibCtype.isspace c0 = false) as Hc0.
  { destruct neg; [simpl in Hsg; subst sg; injection E0 as <- _; done|]. destruct Hsg as [->| ->]; [|injection E0 as <- _; done].
    simpl in E0. rewrite E0 in Hd. by apply digit_not_space. }
  pose proof (reads_upto_app m nptr sp _ Hr) as Hr0. pose proof (reads_next _ _ _ _ Hr0) as (_ & _ & Hr1).
  assert (sg ++ l = c0 :: tail (sg ++ l)) as E1 by (by rewrite E0).
  assert (tl = tail (sg ++ l)) as Etl by (by rewrite E0). rewrite Etl in Hr1.
  destruct (read_sign_spec m neg sg c0 _ l Hsg E1 Hr1 Hl Hd) as [Es Hr2]. rewrite Ehd in Es.
  destruct (read_base_spec m base pre cs ds stop rest radix _ Hx Hn Hne Hr2) as [Eb Hr3].
  assert (nptr + Z.of_nat (length sp) + 1 + Z.of_nat (length sg) + Z.of_nat (length pre) = nptr + n + 1) as En by (unfold n; rewrite !length_app; lia).
  rewrite En in Eb, Hr3. do 5 eexists. split; [by eapply skip_space_spec|]. split; [exact Es|]. split; [exact Eb|]. split; [by destruct cs|done].
Qed.

Lemma s32_neg v : 0 <= v <= 2147483648 -> s32 (u32 (- v)) = - v.
Proof. intros Hv. unfold s32. rewrite u32_u32. destruct (Z.eq_dec v 0) as [->|]; [done|]. replace (u32 (- v)) with (4294967296 - v) by zlia. zcases. Qed.

(** A text that holds a number: the routines' results on it. *)
Section Reading.
Context (fuel : nat) (m : Mem) (nptr endp base : Z) (sp sg : list Z) (neg : bool) (pre cs ds : list Z) (stop : Z) (rest : list Z) (radix : Z).
Context (Hr : reads m nptr (sp ++ sg ++ pre ++ cs ++ stop :: rest)) (Hsp : Forall (fun c => NewlibCtype.isspace c = true) sp).
Context (Hsg : sign_text neg sg) (Hx : radix_text base pre cs stop radix) (Hn : numeral radix cs ds) (Hne : cs <> []) (Hst : stops radix stop).
Context (Hf : (length sp + length cs < fuel)%nat).
Let v := horner radix ds 0.
Let signed := if neg then - v else v.
Let behind := if endp =? 0 then None else Some (nptr + Z.of_nat (length (sp ++ sg ++ pre ++ cs))).
Let s2 := nptr + Z.of_nat (length (sp ++ sg ++ pre)) + 1.

Lemma number_end any : any <> 0 -> end_of any (s2 + Z.of_nat (length cs)) nptr endp = behind.
Proof using Hr.
  clear signed v Hf. intros Ha. unfold end_of, behind. rewrite (proj2 (Z.eqb_neq any 0)) by done. destruct (endp =? 0); [done|]. cbn [negb]. f_equal.
  destruct Hr as (_ & Hp & Hl). rewrite !length_app in *. cbn [length] in Hl. unfold s2. rewrite !length_app. rewrite u32_small by (unfold is_u32; lia). lia.
Qed.

(** The front of the text, and the digits against any limit. *)
Lemma number_front : exists c0 s0 c1 s1 c2, skip_space fuel m nptr = Some (c0, s0) /\ read_sign m c0 s0 = (neg, c1, s1) /\
  read_base m base c1 s1 = (radix, c2, s2) /\ 2 <= radix <= 36 /\
  (forall limit, 0 <= limit < 4294967296 -> exists acc any, digits fuel m radix (limit / radix) (limit mod radix) c2 s2 0 0 = Some (acc, any, s2 + Z.of_nat (length cs)) /\
    if limit <? v then any = -1 else acc = v /\ any = 1).
Proof using All.
  destruct (front_spec fuel m nptr base sp sg neg pre cs ds stop rest radix Hr Hsp Hsg Hx Hn Hne ltac:(lia)) as (c0 & s0 & c1 & s1 & c2 & E0 & E1 & E2 & Ec & Hr2 & Hrad).
  fold s2 in E2, Hr2. exists c0, s0, c1, s1, c2. do 4 (split; [done|]). intros limit Hlim.
  destruct (digits_spec m radix limit cs ltac:(lia) Hlim ds fuel s2 c2 0 0 stop rest) as (acc & any & E & Hres); try done; try lia.
  exists acc, any. split; [done|]. by rewrite decide_False in Hres by done.
Qed.

Lemma number_positive : 0 <= v.
Proof using All. destruct number_front as (_ & _ & _ & _ & _ & _ & _ & _ & Hrad & _). apply horner_mono; [lia|by eapply numeral_nonneg|lia]. Qed.

Lemma strtol_number : strtol fuel m nptr endp base = Some (MkResult (Z.max LONG_MIN (Z.min signed LONG_MAX))
  (if (LONG_MIN <=? signed) && (signed <=? LONG_MAX) then None else Some ERANGE) behind).
Proof using All.
  pose proof number_positive as Hv. destruct number_front as (c0 & s0 & c1 & s1 & c2 & E0 & E1 & E2 & Hrad & Hdig).
  unfold strtol, _strtol_l. rewrite E0. cbn [mbind option_bind]. rewrite E1, E2.
  assert ((base <? 0) || (base =? 1) || (base >? 36) = false) as ->.
  { destruct Hx as [([->| ->] & _)|(_ & _ & [[? _]|[-> _]])]; [done..| |done]. rewrite Z.gtb_ltb, !orb_false_iff, !Z.ltb_ge, Z.eqb_neq. lia. }
  change (u32 (- LONG_MIN)) with 2147483648. unfold LONG_MAX, LONG_MIN, signed in *.
  destruct (Hdig (if neg then 2147483648 else 2147483647) ltac:(destruct neg; lia)) as (acc & any & -> & Hres). cbn [mbind option_bind].
  destruct neg.
  - destruct (Z.ltb_spec 2147483648 v); [subst any|destruct Hres as [-> ->]]; rewrite number_end by done; simpl.
    + rewrite (proj2 (Z.leb_gt _ _)) by lia. simpl. do 3 f_equal. lia.
    + rewrite (proj2 (Z.leb_le (-2147483648) _)), (proj2 (Z.leb_le (- v) _)) by lia. simpl. rewrite s32_neg by lia. do 2 f_equal. lia.
  - destruct (Z.ltb_spec 2147483647 v); [subst any|destruct Hres as [-> ->]]; rewrite number_end by done; simpl.
    + rewrite (proj2 (Z.leb_gt v _)), andb_false_r by lia. do 2 f_equal. lia.
    + rewrite (proj2 (Z.leb_le (-2147483648) _)), (proj2 (Z.leb_le v _)) by lia. simpl. rewrite s32_small by (unfold is_u32; lia). do 2 f_equal. lia.
Qed.

Lemma strtoul_number : strtoul fuel m nptr endp base = Some (MkResult (if v <=? ULONG_MAX then u32 signed else ULONG_MAX)
  (if v <=? ULONG_MAX then None else Some ERANGE) behind).
Proof using All.
  pose proof number_positive as Hv. destruct number_front as (c0 & s0 & c1 & s1 & c2 & E0 & E1 & E2 & Hrad & Hdig).
  unfold strtoul, _strtoul_l. rewrite E0. cbn [mbind option_bind]. rewrite E1, E2. rewrite (u32_small radix) by (unfold is_u32; lia).
  destruct (Hdig ULONG_MAX ltac:(unfold ULONG_MAX; lia)) as (acc & any & -> & Hres). cbn [mbind option_bind].
  rewrite Z.leb_antisym. unfold signed. destruct (Z.ltb_spec ULONG_MAX v); [subst any|destruct Hres as [-> ->]]; rewrite number_end by done; simpl; [done|].
  do 2 f_equal. destruct neg; [done|]. rewrite u32_small; [done|]. unfold is_u32, ULONG_MAX in *. lia.
Qed.
End Reading.

(** C40: strtol and strtoul read numerals and saturate.  On white space, an optional sign, the
    prefix for the base (0x or 0X for 16, a leading 0 for base 0 octal, else decimal) and at least
    one digit of the base, up to a character that is none, both end; strtol returns the number
    clamped to the range of long, strtoul the number, negated modulo 2^32 under a minus sign, or
    ULONG_MAX when its magnitude is too big; errno is set to ERANGE exactly when the number does
    not fit, and endptr points behind the last digit.  That strtoul reads a sign is what its code
    does (and the C standard asks for); the description of the function in strtoul.c excludes it:
    "no optional sign is permitted" for base 0, and only digits for any other base
    ([strtoul_reads_sign]). *)
Theorem strtol_reads (fuel : nat) (m : Mem) (nptr endp base : Z) (sp sg : list Z) (neg : bool) (pre cs ds : list Z) (stop : Z) (rest : list Z) (radix : Z) :
  reads m nptr (sp ++ sg ++ pre ++ cs ++ stop :: rest) -> Forall (fun c => NewlibCtype.isspace c = true) sp ->
  sign_text neg sg -> radix_text base pre cs stop radix -> numeral radix cs ds -> cs <> [] -> stops radix stop ->
  (length sp + length cs < fuel)%nat ->
  let v := horner radix ds 0 in
  let signed := if neg then - v else v in
  let behind := if endp =? 0 then None else Some (nptr + Z.of_nat (length (sp ++ sg ++ pre ++ cs))) in
  strtol fuel m nptr endp base = Some (MkResult (Z.max LONG_MIN (Z.min signed LONG_MAX))
    (if (LONG_MIN <=? signed) && (signed <=? LONG_MAX) then None else Some ERANGE) behind) /\
  strtoul fuel m nptr endp base = Some (MkResult (if v <=? ULONG_MAX then u32 signed else ULONG_MAX)
    (if v <=? ULONG_MAX then None else Some ERANGE) behind).
Proof. intros Hr Hsp Hsg Hx Hn Hne Hst Hf v signed behind. split; [by eapply strtol_number|by eapply strtoul_number]. Qed.

(** ** Witnesses *)

(** " -2147483649," *)
Definition ex_text : Mem := storel (fun _ => 0) 4096 [32; 45; 50; 49; 52; 55; 52; 56; 51; 54; 52; 57; 44].

Lemma strtol_reads_witness : strtol 20 ex_text 4096 8192 10 = Some (MkResult LONG_MIN (Some ERANGE) (Some 4108)) /\
  strtoul 20 ex_text 4096 8192 10 = Some (MkResult 2147483647 None (Some 4108)).
Proof.
  apply (strtol_reads 20 ex_text 4096 8192 10 [32] [45] true [] [50; 49; 52; 55; 52; 56; 51; 54; 52; 57] [2; 1; 4; 7; 4; 8; 3; 6; 4; 9] 44 [] 10).
  - split; [vm_compute; reflexivity|simpl; lia].
  - repeat constructor.
  - reflexivity.
  - right. split; [reflexivity|]. split; [intros (_ & H & _); discriminate H|]. left. lia.
  - repeat constructor; discriminate.
  - discriminate.
  - exact I.
  - simpl. lia.
Defined.

(** "0x" with no hexadecimal digit behind it is no number at all, not the number 0: endptr is the
    start of the text. *)
Example hex_prefix_without_digits :
  strtol 20 (storel (fun _ => 0) 4096 [48; 120; 103; 0]) 4096 8192 0 = Some (MkResult 0 None (Some 4096)).
Proof. vm_compute. reflexivity. Qed.
(** "-1" read with base 0, which the description of strtoul does not count as a number. *)
Example strtoul_reads_sign :
  strtoul 20 (storel (fun _ => 0) 4096 [45; 49; 0]) 4096 8192 0 = Some (MkResult ULONG_MAX None (Some 4098)).
Proof. vm_compute. reflexivity. Qed.
(** strtol rejects the base 1, strtoul computes with it. *)
Example base_one : strtol 20 ex_text 4096 8192 1 = Some (MkResult 0 (Some EINVAL) None) /\
  option_map errno (strtoul 20 ex_text 4096 8192 1) = Some None.
Proof. vm_compute. split; reflexivity. Qed.

End NewlibStrtol.
