(* ===== verification/NewlibItoa.v ===== *)
(** newlib/newlib/libc/stdlib: numbers as text in memory, utoa.c, itoa.c, l64a.c and a64l.c, and
    their reading back by the routines of NewlibStrtol. *)

From S2P Require Import Prelude Libk NewlibString NewlibCtype NewlibStrtol.

Module NewlibItoa.
Import NewlibStrtol.

(** ** utoa.c, itoa.c *)

Definition digits : list Z := str "0123456789abcdefghijklmnopqrstuvwxyz".

(** The digits from the lowest one on: [i] at the end of the loop, and the memory. *)
Fixpoint convert (fuel : nat) (m : Mem) (value str base i : Z) : option (Z * Mem) :=
  match fuel with
  | O => None
  | S fuel =>
      let remainder := value mod base in
      let m := storeb m (u32 (str + i)) (default 0 (digits !! Z.to_nat remainder)) in
      let value := value / base in
      if negb (value =? 0) then convert fuel m value str base (i + 1) else Some (i + 1, m)
  end.
Fixpoint reverse_loop (fuel : nat) (m : Mem) (str j i : Z) : option Mem :=
  match fuel with
  | O => None
  | S fuel =>
      if j <? i then
        let c := loadb m (u32 (str + j)) in
        let m := storeb m (u32 (str + j)) (loadb m (u32 (str + i))) in
        let m := storeb m (u32 (str + i)) c in
        reverse_loop fuel m str (j + 1) (i - 1)
      else Some m
  end.
(** Both loops end within 32 rounds, the digits of a number in base 2. *)
Definition __utoa (m : Mem) (value str base : Z) : option (Z * Mem) :=
  if (base <? 2) || (base >? 36) then Some (0, storeb m str 0)
  else
    '(i, m) ← convert 32 m value str base 0;
    let m := storeb m (u32 (str + i)) 0 in
    m ← reverse_loop 32 m str 0 (i - 1);
    Some (str, m).
Definition utoa (m : Mem) (value str base : Z) : option (Z * Mem) := __utoa m value str base.

(** [-value] is an [int]: it wraps for the smallest one, as the instruction does. *)
Definition __itoa (m : Mem) (value str base : Z) : option (Z * Mem) :=
  if (base <? 2) || (base >? 36) then Some (0, storeb m str 0)
  else
    let '(i, m, uvalue) :=
      (if (base =? 10) && (value <? 0) then (1, storeb m (u32 (str + 0)) (chr "-"), u32 (s32 (- value)))
       else (0, m, u32 value)) in
    '(_, m) ← __utoa m uvalue (u32 (str + i)) base;
    Some (str, m).
Definition itoa (m : Mem) (value str base : Z) : option (Z * Mem) := __itoa m value str base.

(** ** l64a.c, a64l.c *)

Definition R64_ARRAY : list Z := str "./0123456789ABCDEFGHIJKLMNOPQRSTUVWXYZabcdefghijklmnopqrstuvwxyz".

Fixpoint l64a_loop (n : nat) (m : Mem) (ptr tmp : Z) : Mem :=
  match n with
  | O => m
  | S n =>
      if tmp =? 0 then storeb m ptr 0
      else
        let index := Z.land tmp (64 - 1) in
        l64a_loop n (storeb m ptr (default 0 (R64_ARRAY !! Z.to_nat index))) (u32 (ptr + 1)) (Z.shiftr tmp 6)
  end.
(** [buf] is the reentrancy structure's buffer. *)
Definition _l64a_r (m : Mem) (buf value : Z) : Z * Mem := (buf, l64a_loop 6 m buf (Z.land (u32 value) 0xffffffff)).
Definition l64a (m : Mem) (buf value : Z) : Z * Mem := _l64a_r m buf value.

(** The digit of a character, a signed [char], in the version for small code and in the other one. *)
Definition digit64_small (ch : Z) : Z :=
  if ch >=? chr "a" then ch - chr "a" + 38
  else if ch >=? chr "A" then ch - chr "A" + 12
  else if ch >=? chr "0" then ch - chr "0" + 2
  else if ch =? chr "/" then 1 else 0.
Definition digit64 (ch : Z) : Z :=
  if ch =? chr "/" then 1
  else if (chr "0" <=? ch) && (ch <=? chr "9") then ch - chr "0" + 2
  else if (chr "A" <=? ch) && (ch <=? chr "Z") then ch - chr "A" + 12
  else if (chr "a" <=? ch) && (ch <=? chr "z") then ch - chr "a" + 38 else 0.

Fixpoint a64l_end (n : nat) (m : Mem) (ptr : Z) : Z :=
  match n with O => ptr | S n => a64l_end n m (if negb (loadb m ptr =? 0) then u32 (ptr + 1) else ptr) end.
Fixpoint a64l_back (digit : Z -> Z) (fuel : nat) (m : Mem) (input ptr result : Z) : option Z :=
  match fuel with
  | O => None
  | S fuel =>
      if ptr >? input then
        let ptr := u32 (ptr - 1) in
        let ch := s8 (loadb m ptr) in
        a64l_back digit fuel m input ptr (u32 (u32 (Z.shiftl result 6) + u32 (digit ch)))
      else Some result
  end.
Definition a64l_with (digit : Z -> Z) (fuel : nat) (m : Mem) (input : Z) : option Z :=
  if input =? 0 then Some 0
  else result ← a64l_back digit fuel m input (a64l_end 6 m input) 0; Some (s32 result).
Definition a64l := a64l_with digit64.
Definition a64l_small := a64l_with digit64_small.

(** ** Text that is written *)

(** [m'] is [m] with [l] at [p]. *)
Definition wrote (m m' : Mem) (p : Z) (l : list Z) : Prop :=
  forall x, is_u32 x -> loadb m' x = if (p <=? x) && (x <? p + Z.of_nat (length l)) then default 0 (l !! Z.to_nat (x - p)) else loadb m x.

Lemma wrote_nil m p : wrote m m p [].
Proof. intros x Hx. simpl. zcases. Qed.
Lemma wrote_app m m1 m2 p l1 l2 : wrote m m1 p l1 -> wrote m1 m2 (p + Z.of_nat (length l1)) l2 -> wrote m m2 p (l1 ++ l2).
Proof.
  intros H1 H2 x Hx. rewrite (H2 x Hx), (H1 x Hx), length_app. zcases; simpl.
  - rewrite lookup_app_r by lia. do 2 f_equal. lia.
  - by rewrite lookup_app_l by lia.
Qed.
Lemma wrote_byte m p c : is_u32 p -> is_u8 c -> wrote m (storeb m p c) p [c].
Proof.
  intros Hp Hc x Hx. rewrite Libk.loadb_storeb by done. rewrite u8_small by done. simpl. zcases; simpl; try lia. by replace (x - p) with 0 by lia.
Qed.
Lemma wrote_cons m m' p c l : is_u32 p -> is_u8 c -> wrote (storeb m p c) m' (p + 1) l -> wrote m m' p (c :: l).
Proof. intros Hp Hc Hw. by apply (wrote_app m (storeb m p c) m' p [c] l); [apply wrote_byte|]. Qed.
Lemma wrote_at m m' p l i c : wrote m m' p l -> 0 <= p -> p + Z.of_nat (length l) <= 4294967296 -> l !! i = Some c -> loadb m' (p + Z.of_nat i) = c.
Proof.
  intros Hw Hp Hl Hi. pose proof (lookup_lt_Some _ _ _ Hi). rewrite Hw by (unfold is_u32; lia). zcases. simpl. replace (Z.to_nat (p + Z.of_nat i - p)) with i by lia. by rewrite Hi.
Qed.
Lemma wrote_bytes m m' p l : wrote m m' p l -> 0 <= p -> p + Z.of_nat (length l) <= 4294967296 -> bytes m' p (length l) = l.
Proof.
  intros Hw Hp Hl. apply list_eq_same_length with (length l); rewrite ?bytes_length; [done..|]. intros i x y Hi Hx Hy.
  rewrite bytes_lookup in Hx by done. injection Hx as <-. by eapply wrote_at.
Qed.

(** ** Digits *)

(** The digits of [v] from the lowest one on, at least one, and none of 0. *)
Fixpoint low_digits (n : nat) (base v : Z) : list Z :=
  match n with O => [] | S n => v mod base :: (if v / base =? 0 then [] else low_digits n base (v / base)) end.
Fixpoint lower_digits (n : nat) (base v : Z) : list Z :=
  match n with O => [] | S n => if v =? 0 then [] else v mod base :: lower_digits n base (v / base) end.

Lemma horner_low_digit base ds d : horner base (rev (d :: ds)) 0 = horner base (rev ds) 0 * base + d.
Proof. unfold horner. simpl. by rewrite fold_left_app. Qed.

Lemma low_digits_spec n base : 2 <= base -> forall v, 0 <= v < 2 ^ Z.of_nat n -> (0 < n)%nat ->
  Forall (fun d => 0 <= d < base) (low_digits n base v) /\ horner base (rev (low_digits n base v)) 0 = v /\
  (0 < length (low_digits n base v) <= n)%nat.
Proof.
  intros Hb. induction n as [|n IH]; intros v Hv Hn; [lia|]. cbn [low_digits]. pose proof (Z.mod_pos_bound v base ltac:(lia)).
  pose proof (Z.div_mod v base ltac:(lia)). destruct (Z.eqb_spec (v / base) 0) as [E|E].
  - split; [constructor; [done|constructor]|]. split; [unfold horner; simpl; lia|simpl; lia].
  - rewrite Nat2Z.inj_succ, Z.pow_succ_r in Hv by lia. assert (0 <= v / base) by (apply Z.div_pos; lia).
    assert (v / base < 2 ^ Z.of_nat n) by (apply Z.div_lt_upper_bound; [lia|nia]).
    assert (0 < n)%nat by (destruct n; [simpl in *; lia|lia]). destruct (IH (v / base)) as (I1 & I2 & I3); [done..|].
    split; [by constructor|]. split; [rewrite horner_low_digit, I2; lia|simpl; lia].
Qed.
Lemma lower_digits_spec n base : 2 <= base -> forall v, 0 <= v < base ^ Z.of_nat n ->
  Forall (fun d => 0 <= d < base) (lower_digits n base v) /\ horner base (rev (lower_digits n base v)) 0 = v /\ (length (lower_digits n base v) <= n)%nat.
Proof.
  intros Hb. induction n as [|n IH]; intros v Hv; cbn [lower_digits]; [simpl in Hv; split; [constructor|split; [simpl; unfold horner; simpl; lia|simpl; lia]]|].
  destruct (Z.eqb_spec v 0) as [->|E]; [split; [constructor|split; [done|simpl; lia]]|].
  pose proof (Z.mod_pos_bound v base ltac:(lia)). pose proof (Z.div_mod v base ltac:(lia)). rewrite Nat2Z.inj_succ, Z.pow_succ_r in Hv by lia.
  destruct (IH (v / base)) as (I1 & I2 & I3); [split; [apply Z.div_pos; lia|apply Z.div_lt_upper_bound; lia]|].
  split; [by constructor|]. split; [rewrite horner_low_digit, I2; lia|simpl; lia].
Qed.

Definition digit_char (d : Z) : Z := default 0 (digits !! Z.to_nat d).
Lemma digit_char_digit d : 0 <= d < 36 -> digit (digit_char d) = Some d /\ is_u8 (digit_char d) /\ 48 <= digit_char d.
Proof.
  intros Hd. assert (forall n, (n < 36)%nat -> digit (digit_char (Z.of_nat n)) = Some (Z.of_nat n) /\ is_u8 (digit_char (Z.of_nat n)) /\ 48 <= digit_char (Z.of_nat n)) as H.
  { intros n Hn. do 36 (destruct n as [|n]; [vm_compute; repeat split; discriminate|]). lia. }
  specialize (H (Z.to_nat d) ltac:(lia)). by rewrite Z2Nat.id in H by lia.
Qed.

(** ** Writing *)

Lemma convert_spec n base str : 2 <= base <= 36 -> 0 <= str -> forall m i v, 0 <= v -> 0 <= i -> 0 <= v < 2 ^ Z.of_nat n -> (0 < n)%nat ->
  let ds := low_digits n base v in str + i + Z.of_nat (length ds) <= 4294967296 ->
  exists m', convert n m v str base i = Some (i + Z.of_nat (length ds), m') /\ wrote m m' (str + i) (digit_char <$> ds).
Proof.
  intros Hb Hstr. induction n as [|n IH]; intros m i v Hv0 Hi Hv Hn; [lia|]. cbn [low_digits convert]. cbv zeta. intros Hroom.
  pose proof (Z.mod_pos_bound v base ltac:(lia)). fold (digit_char (v mod base)). destruct (digit_char_digit (v mod base) ltac:(lia)) as (_ & Hc & _).
  pose proof (Z.div_mod v base ltac:(lia)). assert (0 <= v / base) by (apply Z.div_pos; lia). simpl length in Hroom.
  destruct (Z.eqb_spec (v / base) 0) as [E|E]; cbn [negb].
  - rewrite u32_small by (unfold is_u32; simpl in Hroom; lia). eexists. split; [done|]. apply wrote_byte; [unfold is_u32; simpl in Hroom; lia|done].
  - rewrite Nat2Z.inj_succ, Z.pow_succ_r in Hv by lia. assert (v / base < 2 ^ Z.of_nat n) by (apply Z.div_lt_upper_bound; [lia|nia]).
    rewrite u32_small by (unfold is_u32; lia).
    assert (0 < n)%nat by (destruct n; [simpl in *; lia|lia]). destruct (IH (storeb m (str + i) (digit_char (v mod base))) (i + 1) (v / base)) as (m' & -> & Hw); [lia..|].
    exists m'. split; [do 2 f_equal; simpl; lia|]. rewrite fmap_cons. apply wrote_cons; [unfold is_u32; lia|done|]. by rewrite Z.add_assoc in Hw.
Qed.

(** The loop exchanges the bytes from [j] to [i]. *)
Lemma reverse_spec fuel str : forall m j i, 0 <= str -> 0 <= j -> str + i < 4294967296 -> i - j < 2 * Z.of_nat fuel - 1 -> (0 < fuel)%nat ->
  exists m', reverse_loop fuel m str j i = Some m' /\
    forall x, is_u32 x -> loadb m' x = loadb m (if (str + j <=? x) && (x <=? str + i) then 2 * str + j + i - x else x).
Proof.
  induction fuel as [|fuel IH]; intros m j i Hs Hj Hi Hf Hf0; [lia|]; cbn [reverse_loop]. destruct (Z.ltb_spec j i).
  - rewrite !u32_small by (unfold is_u32; lia).
    destruct (IH (storeb (storeb m (str + j) (loadb m (str + i))) (str + i) (loadb m (str + j))) (j + 1) (i - 1)) as (m' & -> & Hm'); [lia..|].
    exists m'. split; [done|]. intros x Hx. rewrite Hm' by done.
    match goal with |- loadb _ ?y = _ => assert (is_u32 y) by (unfold is_u32 in *; zcases; simpl; lia); rewrite !Libk.loadb_storeb by (unfold is_u32 in *; lia) end.
    rewrite !u8_small by apply loadb_range. zcases; simpl in *; try lia; f_equal; lia.
  - exists m. split; [done|]. intros x Hx. f_equal. zcases; simpl; lia.
Qed.

Lemma rev_reverse {A} (l : list A) : rev l = reverse l.
Proof. apply List.rev_alt. Qed.
Lemma wrote_reverse m m1 m2 p l e : wrote m m1 p (l ++ e) -> 0 <= p -> p + Z.of_nat (length l) <= 4294967296 ->
  (forall x, is_u32 x -> loadb m2 x = loadb m1 (if (p + 0 <=? x) && (x <=? p + (Z.of_nat (length l) - 1)) then 2 * p + 0 + (Z.of_nat (length l) - 1) - x else x)) ->
  wrote m m2 p (rev l ++ e).
Proof.
  intros Hw Hp Hl Hrev x Hx. rewrite Hrev, !length_app, length_rev by done.
  match goal with |- loadb _ ?y = _ => assert (is_u32 y) as Hy by (unfold is_u32 in *; zcases; simpl; lia); rewrite (Hw y Hy) end. clear Hy. rewrite length_app.
  destruct (Z.leb_spec (p + 0) x), (Z.leb_spec x (p + (Z.of_nat (length l) - 1))); simpl.
  - zcases; simpl. rewrite !lookup_app_l by (rewrite ?length_rev; lia). rewrite rev_reverse, reverse_lookup by lia. do 2 f_equal. lia.
  - zcases; simpl. rewrite !lookup_app_r by (rewrite ?length_rev; lia). by rewrite length_rev.
  - zcases.
  - zcases.
Qed.

(** What is at [p] after a number has been written: a numeral of [v] with at most [n] digits and its NUL. *)
Definition numeral_at (m m' : Mem) (p base v : Z) (n : nat) : Prop :=
  exists cs ds, wrote m m' p (cs ++ [0]) /\ numeral base cs ds /\ horner base ds 0 = v /\ (0 < length cs <= n)%nat.

Lemma digits_written n m v p base : 2 <= base <= 36 -> 0 <= v < 2 ^ Z.of_nat n -> (0 < n)%nat -> 0 <= p -> p + Z.of_nat n + 1 <= 4294967296 ->
  exists m', ('(i, m) ← convert n m v p base 0; let m := storeb m (u32 (p + i)) 0 in m ← reverse_loop n m p 0 (i - 1); Some (p, m)) = Some (p, m') /\
    numeral_at m m' p base v n.
Proof.
  intros Hb Hv Hn Hp Hroom. destruct (low_digits_spec n base ltac:(lia) v Hv Hn) as (Hds & Hh & Hlen).
  destruct (convert_spec n base p Hb Hp m 0 v ltac:(lia) ltac:(lia) Hv Hn) as (m1 & -> & Hw); [lia|].
  cbn [mbind option_bind]. rewrite Z.add_0_l, Z.add_0_r in *. set (ds := low_digits n base v) in *. rewrite u32_small by (unfold is_u32; lia).
  destruct (reverse_spec n p (storeb m1 (p + Z.of_nat (length ds)) 0) 0 (Z.of_nat (length ds) - 1)) as (m2 & -> & Hrev); [lia..|].
  exists m2. split; [done|]. exists (rev (digit_char <$> ds)), (rev ds). split; [|split; [|split; [done|by rewrite length_rev, length_fmap]]].
  - apply (wrote_reverse m (storeb m1 (p + Z.of_nat (length ds)) 0)); rewrite ?length_fmap; [|lia|lia|done].
    apply (wrote_app _ m1); [done|]. rewrite length_fmap. apply wrote_byte; [unfold is_u32; lia|done].
  - unfold numeral. rewrite !rev_reverse. apply Forall2_reverse, Forall2_fmap_l, Forall_Forall2_diag. eapply Forall_impl; [exact Hds|]. intros d Hd. simpl in Hd.
    split; [apply digit_char_digit; lia|done].
Qed.

Lemma utoa_spec m v p base : 2 <= base <= 36 -> is_u32 v -> 0 <= p -> p + 33 <= 4294967296 ->
  exists m', __utoa m v p base = Some (p, m') /\ numeral_at m m' p base v 32.
Proof.
  intros Hb Hv Hp Hroom. unfold __utoa. rewrite Z.gtb_ltb, (proj2 (Z.ltb_ge _ _)), (proj2 (Z.ltb_ge _ _)) by lia. cbn [orb].
  apply digits_written; [done|exact Hv|lia|done|lia].
Qed.

(** ** Reading back *)

Lemma wrote_reads m m' p l : wrote m m' p l -> 0 <= p -> p + Z.of_nat (length l) < 4294967296 -> reads m' p l.
Proof. intros Hw Hp Hl. split; [|done]. eapply wrote_bytes; [done|done|lia]. Qed.

(** The text [sg ++ cs] of [v] in [base], which both reading routines take back. *)
Lemma numeral_read fuel m m' p base v endp neg sg cs ds : 2 <= base <= 36 -> is_u32 v -> 0 <= p -> p + Z.of_nat (length (sg ++ cs ++ [0])) < 4294967296 ->
  sign_text neg sg -> wrote m m' p (sg ++ cs ++ [0]) -> numeral base cs ds -> horner base ds 0 = v -> (0 < length cs < fuel)%nat ->
  let behind := if endp =? 0 then None else Some (p + Z.of_nat (length (sg ++ cs))) in
  let signed := if neg then - v else v in
  strtol fuel m' p endp base = Some (MkResult (Z.max LONG_MIN (Z.min signed LONG_MAX)) (if (LONG_MIN <=? signed) && (signed <=? LONG_MAX) then None else Some ERANGE) behind) /\
  strtoul fuel m' p endp base = Some (MkResult (u32 signed) None behind).
Proof.
  intros Hb Hv Hp Hroom Hsg Hw Hn Hh Hf behind signed. pose proof (wrote_reads _ _ _ _ Hw Hp Hroom) as Hr.
  assert (radix_text base [] cs 0 base) as Hx.
  { right. split; [done|]. split; [intros (_ & _ & [E|E]); discriminate E|]. by left. }
  assert (cs <> []) as Hne by (destruct cs; [simpl in Hf; lia|done]).
  pose proof (strtol_number fuel m' p endp base [] sg neg [] cs ds 0 [] base Hr (Forall_nil_2 _) Hsg Hx Hn Hne I ltac:(simpl; lia)) as H1.
  pose proof (strtoul_number fuel m' p endp base [] sg neg [] cs ds 0 [] base Hr (Forall_nil_2 _) Hsg Hx Hn Hne I ltac:(simpl; lia)) as H2.
  rewrite Hh in H1, H2. split; [exact H1|]. rewrite (proj2 (Z.leb_le v ULONG_MAX)) in H2 by (unfold is_u32, ULONG_MAX in *; lia). exact H2.
Qed.

Lemma itoa_spec m v p base : 2 <= base <= 36 -> -2147483648 <= v < 2147483648 -> 0 <= p -> p + 34 < 4294967296 ->
  exists m' neg sg cs ds, itoa m v p base = Some (p, m') /\ wrote m m' p (sg ++ cs ++ [0]) /\ sign_text neg sg /\ numeral base cs ds /\ (0 < length cs)%nat /\
    (length (sg ++ cs) <= 33)%nat /\ horner base ds 0 = (if neg then - v else u32 v) /\ neg = (base =? 10) && (v <? 0).
Proof.
  intros Hb Hv Hp Hroom. unfold itoa, __itoa. rewrite Z.gtb_ltb, (proj2 (Z.ltb_ge _ _)), (proj2 (Z.ltb_ge _ _)) by lia. cbn [orb].
  destruct ((base =? 10) && (v <? 0)) eqn:Eneg.
  - apply andb_true_iff in Eneg as [_ Ev%Z.ltb_lt]. rewrite Z.add_0_r, u32_s32, (u32_small p), (u32_small (p + 1)), (u32_small (- v)) by (unfold is_u32; lia).
    destruct (utoa_spec (storeb m p (chr "-")) (- v) (p + 1) base Hb ltac:(unfold is_u32; lia) ltac:(lia) ltac:(lia)) as (m' & -> & cs & ds & Hw & Hn & Hh & Hlen).
    exists m', true, [chr "-"], cs, ds. split; [done|]. split; [apply wrote_cons; [unfold is_u32; lia|done|done]|]. split; [done|]. split; [done|].
    split; [lia|]. split; [simpl; lia|]. by split.
  - rewrite Z.add_0_r, (u32_small p) by (unfold is_u32; lia).
    destruct (utoa_spec m (u32 v) p base Hb ltac:(unfold is_u32; apply Z.mod_pos_bound; lia) Hp ltac:(lia)) as (m' & -> & cs & ds & Hw & Hn & Hh & Hlen).
    exists m', false, [], cs, ds. split; [done|]. split; [done|]. split; [by left|]. split; [done|]. split; [lia|]. split; [simpl; lia|]. by split.
Qed.

(** A result of strtol or strtoul: the value, no error, and the pointer to the NUL behind the text. *)
Definition read_back (m : Mem) (p endp v : Z) (r : option Result) : Prop :=
  exists n, 0 < n <= 33 /\ loadb m (p + n) = 0 /\ r = Some (MkResult v None (if endp =? 0 then None else Some (p + n))).

(** C38: numbers survive as text.  In 34 bytes of room, utoa in any base from 2 to 36 writes a string from which strtoul in that base
    reads the number back, up to its end and without error; itoa in base 10 does so for strtol, the smallest int included, and in the
    other bases writes the number as an unsigned one.  Nothing outside the 34 bytes is written.  For a base outside that range both
    return NULL and leave the empty string. *)
Theorem numbers_read_back fuel m p base endp : 0 <= p -> p + 34 < 4294967296 -> (33 < fuel)%nat ->
  (2 <= base <= 36 ->
    (forall v, is_u32 v -> exists m', utoa m v p base = Some (p, m') /\ read_back m' p endp v (strtoul fuel m' p endp base) /\
      (forall x, is_u32 x -> x < p \/ p + 33 < x -> loadb m' x = loadb m x)) /\
    (forall v, -2147483648 <= v < 2147483648 -> exists m', itoa m v p base = Some (p, m') /\
      (if base =? 10 then read_back m' p endp v (strtol fuel m' p endp base) else read_back m' p endp (u32 v) (strtoul fuel m' p endp base)) /\
      (forall x, is_u32 x -> x < p \/ p + 33 < x -> loadb m' x = loadb m x))) /\
  (~ 2 <= base <= 36 -> forall v, utoa m v p base = Some (0, storeb m p 0) /\ itoa m v p base = Some (0, storeb m p 0)).
Proof.
  intros Hp Hroom Hf. split; [intros Hb|].
  - assert (forall m' l, wrote m m' p (l ++ [0]) -> (length l <= 33)%nat ->
      loadb m' (p + Z.of_nat (length l)) = 0 /\ (forall x, is_u32 x -> x < p \/ p + 33 < x -> loadb m' x = loadb m x)) as Hend.
    { intros m' l Hw Hl. split; [|intros x Hx Ho; rewrite Hw, length_app by done; simpl; zcases].
      eapply wrote_at; [done|done|rewrite length_app; simpl; lia|]. by rewrite lookup_app_r, Nat.sub_diag by lia. }
    split; intros v Hv.
    + destruct (utoa_spec m v p base Hb Hv Hp ltac:(lia)) as (m' & E & cs & ds & Hw & Hn & Hh & Hlen). destruct (Hend m' cs Hw ltac:(lia)) as [H0 Ho].
      exists m'. split; [done|]. split; [|done]. exists (Z.of_nat (length cs)). split; [lia|]. split; [done|].
      destruct (numeral_read fuel m m' p base v endp false [] cs ds Hb Hv Hp) as [_ ->]; [rewrite !length_app; simpl; lia|by left|done..|lia|by rewrite u32_small].
    + destruct (itoa_spec m v p base Hb Hv Hp Hroom) as (m' & neg & sg & cs & ds & E & Hw & Hsg & Hn & Hlen & Hl & Hh & Hneg).
      rewrite app_assoc in Hw. destruct (Hend m' _ Hw Hl) as [H0 Ho]. exists m'. split; [done|]. split; [|done].
      rewrite <- app_assoc in Hw. rewrite length_app in Hl.
      destruct (numeral_read fuel m m' p base (if neg then - v else u32 v) endp neg sg cs ds Hb) as [E1 E2];
        [destruct neg; [symmetry in Hneg; apply andb_true_iff in Hneg as [_ Hneg%Z.ltb_lt]; unfold is_u32; lia|apply Z.mod_pos_bound; lia]|
         done|rewrite !length_app; simpl; lia|done..|lia|].
      assert (forall r, r = Some (MkResult (if base =? 10 then v else u32 v) None (if endp =? 0 then None else Some (p + Z.of_nat (length (sg ++ cs))))) ->
        read_back m' p endp (if base =? 10 then v else u32 v) r) as Hok by (intros r ->; exists (Z.of_nat (length (sg ++ cs))); rewrite length_app in *; split; [lia|done]).
      destruct (base =? 10) eqn:Eb; apply Hok; [rewrite E1|rewrite E2].
      * f_equal. unfold LONG_MIN, LONG_MAX. destruct neg; symmetry in Hneg; simpl in Hneg; [apply Z.ltb_lt in Hneg|apply Z.ltb_ge in Hneg; rewrite u32_small by (unfold is_u32; lia)];
          rewrite ?Z.opp_involutive, (proj2 (Z.leb_le _ _)), (proj2 (Z.leb_le _ _)) by lia; simpl; f_equal; lia.
      * simpl in Hneg. subst neg. by rewrite u32_u32.
  - intros Hb v. unfold utoa, itoa, __utoa, __itoa. assert ((base <? 2) || (base >? 36) = true) as ->; [|done].
    rewrite Z.gtb_ltb, orb_true_iff, !Z.ltb_lt. lia.
Qed.

(** ** Radix 64 *)

Definition char64 (d : Z) : Z := default 0 (R64_ARRAY !! Z.to_nat d).
Lemma char64_digit d : 0 <= d < 64 -> is_u8 (char64 d) /\ char64 d <> 0 /\ digit64 (s8 (char64 d)) = d /\ digit64_small (s8 (char64 d)) = d.
Proof.
  intros Hd. assert (forall n, (n < 64)%nat -> is_u8 (char64 (Z.of_nat n)) /\ char64 (Z.of_nat n) <> 0 /\
    digit64 (s8 (char64 (Z.of_nat n))) = Z.of_nat n /\ digit64_small (s8 (char64 (Z.of_nat n))) = Z.of_nat n) as H.
  { intros n Hn. do 64 (destruct n as [|n]; [vm_compute; repeat split; discriminate|]). lia. }
  specialize (H (Z.to_nat d) ltac:(lia)). by rewrite Z2Nat.id in H by lia.
Qed.

(** The digits of [v], and the NUL behind them when they are fewer than [n]. *)
Lemma l64a_loop_spec n : forall m p v, 0 <= v < 64 ^ Z.of_nat n -> 0 <= p -> p + Z.of_nat n < 4294967296 ->
  let ds := lower_digits n 64 v in
  wrote m (l64a_loop n m p v) p ((char64 <$> ds) ++ (if (length ds <? n)%nat then [0] else [])).
Proof.
  induction n as [|n IH]; intros m p v Hv Hp Hroom; cbn [lower_digits l64a_loop]; [apply wrote_nil|].
  destruct (Z.eqb_spec v 0) as [->|E]; [apply wrote_byte; [unfold is_u32; lia|done]|]. rewrite Nat2Z.inj_succ, Z.pow_succ_r in * by lia.
  change (64 - 1) with (Z.ones 6). rewrite Z.land_ones, Z.shiftr_div_pow2 by lia. change (2 ^ 6) with 64. fold (char64 (v mod 64)).
  destruct (char64_digit (v mod 64) ltac:(apply Z.mod_pos_bound; lia)) as (Hc & _). rewrite u32_small by (unfold is_u32; lia). cbv zeta in IH |- *.
  apply (wrote_cons m _ p (char64 (v mod 64))); [unfold is_u32; lia|done|]. apply IH; [|lia|lia].
  split; [apply Z.div_pos; lia|apply Z.div_lt_upper_bound; lia].
Qed.

Lemma a64l_end_spec n : forall m p l, Forall (fun c => c <> 0) l -> 0 <= p -> p + Z.of_nat n < 4294967296 -> (length l <= n)%nat ->
  (forall i c, l !! i = Some c -> loadb m (p + Z.of_nat i) = c) -> ((length l < n)%nat -> loadb m (p + Z.of_nat (length l)) = 0) ->
  a64l_end n m p = p + Z.of_nat (length l).
Proof.
  induction n as [|n IH]; intros m p l Hl Hp Hroom Hlen Hat Hend; cbn [a64l_end]; [simpl in Hlen; lia|]. destruct l as [|c l].
  - rewrite Z.add_0_r in *. rewrite Hend by (simpl; lia). cbn [negb Z.eqb]. rewrite (IH m p []); [simpl; lia|constructor|lia..|simpl; lia|done|].
    intros _. rewrite Z.add_0_r. apply Hend. simpl. lia.
  - apply Forall_cons in Hl as [Hc Hl]. pose proof (Hat 0%nat c eq_refl) as E. rewrite Z.add_0_r in E. rewrite E, (proj2 (Z.eqb_neq c 0)) by done. cbn [negb].
    simpl in Hlen. rewrite u32_small by (unfold is_u32; lia). rewrite (IH m (p + 1) l); [simpl; lia|done|lia..| |].
    + intros i d Hi. rewrite <- (Hat (S i) d Hi). f_equal. lia.
    + intros Hlt. rewrite <- Hend by (simpl; lia). f_equal. simpl. lia.
Qed.

Lemma a64l_back_spec digit m p ds : forall fuel r, (length ds < fuel)%nat -> 0 <= p -> p + Z.of_nat (length ds) < 4294967296 ->
  (forall i d, ds !! i = Some d -> loadb m (p + Z.of_nat i) = char64 d) -> Forall (fun d => 0 <= d < 64 /\ digit (s8 (char64 d)) = d) ds ->
  a64l_back digit fuel m p (p + Z.of_nat (length ds)) (u32 r) = Some (u32 (horner 64 (rev ds) r)).
Proof.
  induction ds as [|d ds IH] using rev_ind; intros [|fuel] r Hf Hp Hroom Hat Hds; try (simpl in Hf; lia); cbn [a64l_back].
  - rewrite Z.add_0_r, Z.gtb_ltb, Z.ltb_irrefl. done.
  - rewrite length_app in *. simpl in Hf, Hroom |- *. rewrite Z.gtb_ltb, (proj2 (Z.ltb_lt _ _)) by lia.
    replace (p + Z.of_nat (length ds + 1) - 1) with (p + Z.of_nat (length ds)) by lia. rewrite u32_small by (unfold is_u32; lia).
    apply Forall_app in Hds as [Hds [[Hd Ed] _]%Forall_cons]. rewrite (Hat (length ds) d), Ed by (by rewrite lookup_app_r, Nat.sub_diag).
    rewrite rev_app_distr. cbn [rev app horner fold_left]. unfold horner. simpl fold_left. fold (horner 64 (rev ds) (r * 64 + d)).
    rewrite Z.shiftl_mul_pow2 by lia. change (2 ^ 6) with 64.
    replace (u32 (u32 (u32 r * 64) + u32 d)) with (u32 (r * 64 + d)) by (rewrite u32_add_l, u32_add_r; unfold u32; by rewrite (Zplus_mod (r mod 4294967296 * 64)), Zmult_mod_idemp_l, <- Zplus_mod).
    apply IH; [lia|done|lia| |done]. intros i e Hi. apply Hat. by apply lookup_app_l_Some.
Qed.

Lemma lower_digits_short n base : 2 <= base -> forall v, 0 <= v -> (length (lower_digits (S n) base v) <= n)%nat <-> v < base ^ Z.of_nat n.
Proof.
  intros Hb. induction n as [|n IH]; intros v Hv; cbn [lower_digits]; (destruct (Z.eqb_spec v 0) as [->|E]; [split; [intros _; apply Z.pow_pos_nonneg; lia|simpl; lia]|]).
  - simpl. lia.
  - change (if v / base =? 0 then [] else _) with (lower_digits (S n) base (v / base)). rewrite Nat2Z.inj_succ, Z.pow_succ_r by lia.
    assert (0 <= v / base) as H0 by (apply Z.div_pos; lia). specialize (IH (v / base) H0). pose proof (Z.div_mod v base ltac:(lia)).
    pose proof (Z.mod_pos_bound v base ltac:(lia)). cbn [length]. split; intros Hs.
    + assert (v / base < base ^ Z.of_nat n) by (apply IH; lia). nia.
    + assert (v / base < base ^ Z.of_nat n) as Hlt by (apply Z.div_lt_upper_bound; lia). apply IH in Hlt. lia.
Qed.

(** Radix-64 text.  For every value of long, a64l, in both versions, reads back what l64a has written into its buffer, of which
    the digits and at most one NUL behind them change; up to 2^30 the digits end in a NUL, and where all six are there the routine
    writes none. *)
Theorem radix64_read_back m buf value : -2147483648 <= value < 2147483648 -> 0 < buf -> buf + 7 < 4294967296 ->
  let m' := (l64a m buf value).2 in
  (l64a m buf value).1 = buf /\ a64l 7 m' buf = Some value /\ a64l_small 7 m' buf = Some value /\
  (exists l, (length l <= 6)%nat /\ Forall (fun c => c <> 0) l /\ bytes m' buf (length l) = l /\
    loadb m' (buf + Z.of_nat (length l)) = (if u32 value <? 2 ^ 30 then 0 else loadb m (buf + 6))) /\
  (forall x, is_u32 x -> x < buf \/ buf + 6 <= x -> loadb m' x = loadb m x).
Proof.
  intros Hv Hb Hroom. cbv zeta. unfold l64a, _l64a_r. cbn [fst snd]. split; [done|]. pose proof (u32_range value) as Hu.
  assert (Z.land (u32 value) 0xffffffff = u32 value) as ->.
  { change 0xffffffff with (Z.ones 32). rewrite Z.land_ones, Z.mod_small; [done|exact Hu|done]. }
  set (v := u32 value) in *. destruct (lower_digits_spec 6 64 ltac:(done) v ltac:(unfold is_u32 in Hu; lia)) as (Hds & Hh & Hlen).
  pose proof (l64a_loop_spec 6 m buf v ltac:(unfold is_u32 in Hu; lia) ltac:(lia) ltac:(lia)) as Hw. cbv zeta in Hw.
  assert ((length (lower_digits 6 64 v) <? 6)%nat = (v <? 2 ^ 30)) as Efull.
  { pose proof (lower_digits_short 5 64 ltac:(done) v ltac:(unfold is_u32 in Hu; lia)) as Hs. change (64 ^ Z.of_nat 5) with (2 ^ 30) in Hs.
    destruct (Nat.ltb_spec (length (lower_digits 6 64 v)) 6), (Z.ltb_spec v (2 ^ 30)); try done; [assert (v < 2 ^ 30) by (apply Hs; lia); lia|].
    assert (length (lower_digits 6 64 v) <= 5)%nat by by apply Hs. lia. }
  set (ds := lower_digits 6 64 v) in *. set (m' := l64a_loop 6 m buf v) in *. clearbody ds m'.
  assert (forall i d, ds !! i = Some d -> loadb m' (buf + Z.of_nat i) = char64 d) as Hat.
  { intros i d Hi. pose proof (lookup_lt_Some _ _ _ Hi). eapply wrote_at; [done|lia|rewrite length_app, length_fmap; case_match; simpl; lia|].
    rewrite lookup_app_l by (by rewrite length_fmap). by rewrite list_lookup_fmap, Hi. }
  assert (loadb m' (buf + Z.of_nat (length ds)) = if v <? 2 ^ 30 then 0 else loadb m (buf + 6)) as Hend.
  { rewrite <- Efull. destruct (Nat.ltb_spec (length ds) 6) as [Hs|Hs].
    - eapply wrote_at; [done|lia|rewrite length_app, length_fmap; simpl; lia|]. by rewrite lookup_app_r, length_fmap, Nat.sub_diag by (by rewrite length_fmap).
    - rewrite Hw by (unfold is_u32; lia). rewrite length_app, length_fmap. simpl. replace (length ds) with 6%nat by lia. zcases. }
  assert (Forall (fun c => c <> 0) (char64 <$> ds)) as Hnz.
  { apply Forall_fmap. eapply Forall_impl; [exact Hds|]. intros d Hd. by apply char64_digit. }
  assert (a64l_end 6 m' buf = buf + Z.of_nat (length ds)) as Eend.
  { rewrite (a64l_end_spec 6 m' buf (char64 <$> ds)); rewrite ?length_fmap; try done; try lia.
    - intros i c Hi. rewrite list_lookup_fmap in Hi. destruct (ds !! i) as [d|] eqn:Ed; [|done]. injection Hi as <-. by apply Hat.
    - intros Hlt. rewrite Hend, <- Efull. by rewrite (proj2 (Nat.ltb_lt _ _)). }
  assert (s32 v = value) as Ev by (unfold v, s32; rewrite u32_u32; fold (s32 value); by apply s32_small).
  assert (forall digit, Forall (fun d => 0 <= d < 64 /\ digit (s8 (char64 d)) = d) ds -> a64l_with digit 7 m' buf = Some value) as Hread.
  { intros digit Hdig. unfold a64l_with. rewrite (proj2 (Z.eqb_neq buf 0)), Eend by lia. change 0 with (u32 0) at 1.
    rewrite a64l_back_spec by (done || lia). cbn [mbind option_bind]. rewrite Hh, (u32_small v), Ev by done. done. }
  split; [|split; [|split]].
  - apply Hread. eapply Forall_impl; [exact Hds|]. intros d Hd. split; [done|]. by apply char64_digit.
  - apply Hread. eapply Forall_impl; [exact Hds|]. intros d Hd. split; [done|]. by apply char64_digit.
  - exists (char64 <$> ds). rewrite length_fmap. split; [done|]. split; [done|]. split; [|done].
    apply list_eq_same_length with (length ds); rewrite ?bytes_length, ?length_fmap; [done..|]. intros i x y Hi Hx Hy. rewrite bytes_lookup in Hx by done. injection Hx as <-.
    rewrite list_lookup_fmap in Hy. destruct (ds !! i) as [d|] eqn:Ed; [|done]. injection Hy as <-. by apply Hat.
  - intros x Hx Ho. rewrite Hw by done. rewrite Efull, length_app, length_fmap in *. destruct (v <? 2 ^ 30); [apply Nat.ltb_lt in Efull|]; simpl; zcases.
Qed.

(** ** Witnesses *)

Lemma numbers_read_back_witness : exists m1 m2, itoa (fun _ => 0) (-2147483648) 4096 10 = Some (4096, m1) /\
  read_back m1 4096 0 (-2147483648) (strtol 34 m1 4096 0 10) /\
  utoa (fun _ => 0) 4294967295 4096 2 = Some (4096, m2) /\ read_back m2 4096 0 4294967295 (strtoul 34 m2 4096 0 2).
Proof.
  destruct (numbers_read_back 34 (fun _ => 0) 4096 10 0) as [H10 _]; [lia|lia|lia|]. destruct (numbers_read_back 34 (fun _ => 0) 4096 2 0) as [H2 _]; [lia|lia|lia|].
  destruct (proj2 (H10 ltac:(lia)) (-2147483648) ltac:(lia)) as (m1 & E1 & R1 & _).
  destruct (proj1 (H2 ltac:(lia)) 4294967295 ltac:(unfold is_u32; lia)) as (m2 & E2 & R2 & _).
  exists m1, m2. split; [exact E1|]. split; [exact R1|]. split; [exact E2|exact R2].
Defined.
Example ex_itoa : (fun '(_, m) => bytes m 4096 5) <$> itoa (fun _ => 7) (-254) 4096 10 = Some (str "-254" ++ [0]).
Proof. vm_compute. reflexivity. Qed.
Example ex_utoa : (fun '(_, m) => bytes m 4096 8) <$> utoa (fun _ => 7) 3735928559 4096 36 = Some (str "1ps9wxb" ++ [0]).
Proof. vm_compute. reflexivity. Qed.
(** The negation in itoa leaves the range of [int]. *)
Example itoa_negation_overflows : - (-2147483648) > LONG_MAX.
Proof. unfold LONG_MAX. lia. Qed.

Lemma radix64_read_back_witness : a64l 7 (l64a (fun _ => 65) 4096 (-1)).2 4096 = Some (-1) /\ a64l 7 (l64a (fun _ => 65) 4096 4095).2 4096 = Some 4095.
Proof.
  destruct (radix64_read_back (fun _ => 65) 4096 (-1)) as (_ & H1 & _); [lia|lia|lia|].
  destruct (radix64_read_back (fun _ => 65) 4096 4095) as (_ & H2 & _); [lia|lia|lia|]. split; [exact H1|exact H2].
Defined.
(** Behind six digits the buffer keeps what was there. *)
Example l64a_unterminated : bytes (l64a (fun _ => 65) 4096 (-1)).2 4096 8 = str "zzzzz1AA".
Proof. vm_compute. reflexivity. Qed.
End NewlibItoa.
