(* ===== verification/NewlibRandom.v ===== *)
(** newlib/newlib/libc/stdlib: the pseudo-random generators of rand.c, random.c, rand_r.c and of the
    rand48 family (rand48.c, lrand48.c, mrand48.c, nrand48.c, jrand48.c, srand48.c, seed48.c,
    lcong48.c).

    [unsigned short], [unsigned long] and [unsigned long long] have 16, 32 and 64 bits.  An array of
    three [unsigned short] is a triple, the low part first.  The products of [unsigned short] in
    rand48.c and the shift in mrand48.c are of signed type and can overflow; they wrap here, as the
    processor's instructions do. *)

From Stdlib Require Import Znumtheory Zpow_facts.
From S2P Require Import Prelude.

Module NewlibRandom.

Definition Limbs : Type := Z * Z * Z.

(** The part of the reentrancy structure (include/sys/reent.h) that the generators use. *)
Record Reent := MkReent { rand48_seed : Limbs; rand48_mult : Limbs; rand48_add : Z; rand_next : Z }.

Definition _RAND48_SEED : Limbs := (0x330e, 0xabcd, 0x1234).
Definition _RAND48_MULT : Limbs := (0xe66d, 0xdeec, 0x0005).
Definition _RAND48_ADD : Z := 0x000b.
(** _REENT_INIT_RAND48 *)
Definition init_rand48 : Reent := MkReent _RAND48_SEED _RAND48_MULT _RAND48_ADD 1.

Definition RAND_MAX : Z := 0x7fffffff.

(** ** rand.c, random.c, rand_r.c *)

Definition srand (seed : Z) (r : Reent) : Reent := MkReent (rand48_seed r) (rand48_mult r) (rand48_add r) seed.
Definition rand (r : Reent) : Z * Reent :=
  let next := u64 (u64 (rand_next r * 6364136223846793005) + 1) in
  (s32 (Z.land (Z.shiftr next 32) RAND_MAX), MkReent (rand48_seed r) (rand48_mult r) (rand48_add r) next).
Definition srandom (seed : Z) (r : Reent) : Reent := MkReent (rand48_seed r) (rand48_mult r) (rand48_add r) seed.
Definition random (r : Reent) : Z * Reent :=
  let next := u64 (u64 (rand_next r * 6364136223846793005) + 1) in
  (s32 (Z.land (Z.shiftr next 32) RAND_MAX), MkReent (rand48_seed r) (rand48_mult r) (rand48_add r) next).

(** The result, and the new [*seed]. *)
Definition rand_r (seed : Z) : Z * Z :=
  let s := s32 seed in
  let s := if s =? 0 then 0x12345987 else s in
  let k := Z.quot s 127773 in
  let s := s32 (s32 (16807 * s32 (s - s32 (k * 127773))) - s32 (2836 * k)) in
  let s := if s <? 0 then s32 (s + 2147483647) else s in
  (s32 (Z.land s RAND_MAX), u32 s).

(** ** rand48.c and its clients *)

Definition __dorand48 (r : Reent) (xseed : Limbs) : Limbs :=
  let '(m0, m1, m2) := rand48_mult r in
  let '(x0, x1, x2) := xseed in
  let accu := u32 (u32 (m0 * x0) + rand48_add r) in
  let temp0 := u16 accu in
  let accu := Z.shiftr accu 16 in
  let accu := u32 (accu + u32 (u32 (m0 * x1) + u32 (m1 * x0))) in
  let temp1 := u16 accu in
  let accu := Z.shiftr accu 16 in
  let accu := u32 (accu + u32 (s32 (s32 (s32 (m0 * x2) + s32 (m1 * x1)) + s32 (m2 * x0)))) in
  (temp0, temp1, u16 accu).

Definition set_seed48 (x : Limbs) (r : Reent) : Reent := MkReent x (rand48_mult r) (rand48_add r) (rand_next r).

Definition jrand48 (r : Reent) (xseed : Limbs) : Z * Limbs :=
  let '(x0, x1, x2) := __dorand48 r xseed in
  (s32 (s32 (Z.shiftl x2 16) + x1), (x0, x1, x2)).
Definition nrand48 (r : Reent) (xseed : Limbs) : Z * Limbs :=
  let '(x0, x1, x2) := __dorand48 r xseed in
  (s32 (u32 (u32 (Z.shiftl x2 15) + Z.shiftr x1 1)), (x0, x1, x2)).
Definition mrand48 (r : Reent) : Z * Reent :=
  let '(x0, x1, x2) := __dorand48 r (rand48_seed r) in
  (s32 (s32 (Z.shiftl x2 16) + x1), set_seed48 (x0, x1, x2) r).
Definition lrand48 (r : Reent) : Z * Reent :=
  let '(x0, x1, x2) := __dorand48 r (rand48_seed r) in
  (s32 (u32 (u32 (Z.shiftl x2 15) + Z.shiftr x1 1)), set_seed48 (x0, x1, x2) r).

Definition srand48 (seed : Z) (r : Reent) : Reent :=
  MkReent (0x330e, u16 seed, u16 (Z.shiftr (u32 seed) 16)) _RAND48_MULT _RAND48_ADD (rand_next r).
(** The old seed, which the code leaves in the static array [sseed], and the new state. *)
Definition seed48 (xseed : Limbs) (r : Reent) : Limbs * Reent :=
  (rand48_seed r, MkReent xseed _RAND48_MULT _RAND48_ADD (rand_next r)).
Definition lcong48 (seed mult : Limbs) (add : Z) (r : Reent) : Reent := MkReent seed mult add (rand_next r).

(** ** 48-bit numbers in three parts *)

Definition limb (x : Z) : Prop := 0 <= x < 65536.
Definition limbs (x : Limbs) : Prop := let '(x0, x1, x2) := x in limb x0 /\ limb x1 /\ limb x2.
Definition value48 (x : Limbs) : Z := let '(x0, x1, x2) := x in x0 + 65536 * x1 + 4294967296 * x2.
Definition W48 : Z := 281474976710656.

(** The linear congruential step. *)
Definition lcg (m a c x : Z) : Z := (a * x + c) mod m.

Lemma s32_congruent x : exists k, s32 x = x + 4294967296 * k.
Proof.
  unfold s32, u32. cbv zeta. pose proof (Z.div_mod x 4294967296 ltac:(lia)). zcases; [exists (- (x / 4294967296))|exists (- (x / 4294967296) - 1)]; lia.
Qed.
Lemma s32_range x : -2147483648 <= s32 x < 2147483648.
Proof. unfold s32, u32. cbv zeta. pose proof (Z.mod_pos_bound x 4294967296 ltac:(lia)). zcases. Qed.
Lemma u32_congruent x : exists k, u32 x = x + 4294967296 * k.
Proof. unfold u32. pose proof (Z.div_mod x 4294967296 ltac:(lia)). exists (- (x / 4294967296)). lia. Qed.

Lemma value48_range x : limbs x -> 0 <= value48 x < W48.
Proof. destruct x as [[x0 x1] x2]. unfold limbs, limb, value48, W48. lia. Qed.
Lemma dorand48_limbs r x : limbs (__dorand48 r x).
Proof.
  unfold __dorand48. destruct (rand48_mult r) as [[m0 m1] m2], x as [[x0 x1] x2]. unfold limbs, limb. split_and!; apply Z.mod_pos_bound; lia.
Qed.

Lemma u16_congruent x : exists k, u16 x = x + 65536 * k.
Proof. unfold u16. pose proof (Z.div_mod x 65536 ltac:(lia)). exists (- (x / 65536)). lia. Qed.
Lemma mod_of m x y q : 0 <= y < m -> x = y + m * q -> y = x mod m.
Proof. intros Hy ->. by rewrite Z.mul_comm, Z_mod_plus_full, Z.mod_small. Qed.

Lemma u16_div x : u16 x = x - 65536 * (x / 65536).
Proof. unfold u16. by rewrite Z.mod_eq. Qed.

Lemma dorand48_step r x : limbs (rand48_mult r) -> limb (rand48_add r) -> limbs x ->
  value48 (__dorand48 r x) = lcg W48 (value48 (rand48_mult r)) (rand48_add r) (value48 x).
Proof.
  intros Hm Ha Hx. pose proof (value48_range _ (dorand48_limbs r x)) as Hr. unfold lcg. revert Hr. unfold __dorand48.
  destruct (rand48_mult r) as [[m0 m1] m2], x as [[x0 x1] x2]. unfold limbs, limb in *. destruct Hm as (Hm0 & Hm1 & Hm2), Hx as (Hx0 & Hx1 & Hx2).
  assert (0 <= m0 * x0 <= 65535 * 65535) by nia. rewrite (u32_small (m0 * x0)), (u32_small (m0 * x0 + rand48_add r)) by (unfold is_u32; lia).
  assert ((m0 + 65536 * m1 + 4294967296 * m2) * (x0 + 65536 * x1 + 4294967296 * x2) =
    m0 * x0 + 65536 * (m0 * x1 + m1 * x0) + 4294967296 * (m0 * x2 + m1 * x1 + m2 * x0) + W48 * (m1 * x2 + m2 * x1 + 65536 * (m2 * x2))) as E by (unfold W48; ring).
  rewrite !Z.shiftr_div_pow2 by lia. change (2 ^ 16) with 65536. unfold value48. rewrite E. clear E. set (hi := m1 * x2 + m2 * x1 + 65536 * (m2 * x2)). clearbody hi.
  set (accu0 := m0 * x0 + rand48_add r). set (accu1 := u32 (accu0 / 65536 + u32 (u32 (m0 * x1) + u32 (m1 * x0)))).
  match goal with |- context [u16 (u32 (_ + u32 ?S))] => set (top := S) end. intros Hr.
  assert (exists k, accu1 = accu0 / 65536 + (m0 * x1 + m1 * x0) + 4294967296 * k) as [k1 E1].
  { unfold accu1. destruct (u32_congruent (m0 * x1)) as [j1 ->], (u32_congruent (m1 * x0)) as [j2 ->].
    match goal with |- context [u32 (?x + u32 ?y)] => destruct (u32_congruent y) as [j3 ->], (u32_congruent (x + (y + 4294967296 * j3))) as [j4 ->] end.
    exists (j1 + j2 + j3 + j4). lia. }
  assert (exists k, top = m0 * x2 + m1 * x1 + m2 * x0 + 4294967296 * k) as [k2 E2].
  { unfold top. destruct (s32_congruent (m0 * x2)) as [j1 ->], (s32_congruent (m1 * x1)) as [j2 ->], (s32_congruent (m2 * x0)) as [j3 ->].
    match goal with |- context [s32 (s32 ?x + ?y)] => destruct (s32_congruent x) as [j4 ->] end.
    match goal with |- context [s32 ?x] => destruct (s32_congruent x) as [j5 ->] end. exists (j1 + j2 + j3 + j4 + j5). lia. }
  assert (exists k, u16 (u32 (accu1 / 65536 + u32 top)) = accu1 / 65536 + top + 65536 * k) as [k3 E3].
  { destruct (u32_congruent top) as [j1 ->]. match goal with |- context [u32 ?x] => destruct (u32_congruent x) as [j2 ->] end.
    match goal with |- context [u16 ?x] => destruct (u16_congruent x) as [j3 ->] end. exists (65536 * j1 + 65536 * j2 + j3). lia. }
  apply (mod_of _ _ _ (hi - k1 - 65536 * k2 - k3)); [done|]. rewrite E3, !u16_div, E2. unfold W48. clearbody accu1 top. lia.
Qed.

(** What the callers of __dorand48 cut out of the 48 bits. *)
Lemma high_31 x0 x1 x2 : limbs (x0, x1, x2) -> s32 (u32 (u32 (Z.shiftl x2 15) + Z.shiftr x1 1)) = value48 (x0, x1, x2) / 131072.
Proof.
  unfold limbs, limb, value48. intros (H0 & H1 & H2). rewrite Z.shiftl_mul_pow2, Z.shiftr_div_pow2 by lia. change (2 ^ 15) with 32768. change (2 ^ 1) with 2.
  rewrite (u32_small (x2 * 32768)) by (unfold is_u32; lia). assert (0 <= x2 * 32768 + x1 / 2 < 2147483648) by zlia.
  unfold s32. cbv zeta. rewrite !u32_small by (rewrite ?u32_small; unfold is_u32; lia). rewrite (proj2 (Z.ltb_lt _ _)) by lia. zlia.
Qed.
Lemma s32_mod x y k : x = y + 4294967296 * k -> s32 x = s32 y.
Proof. intros ->. unfold s32, u32. by rewrite (Z.mul_comm 4294967296 k), Z_mod_plus_full. Qed.
Lemma high_32 x0 x1 x2 : limbs (x0, x1, x2) -> s32 (s32 (Z.shiftl x2 16) + x1) = s32 (value48 (x0, x1, x2) / 65536).
Proof.
  unfold limbs, limb, value48. intros (H0 & H1 & H2). rewrite Z.shiftl_mul_pow2 by lia. change (2 ^ 16) with 65536.
  destruct (s32_congruent (x2 * 65536)) as [k ->]. apply (s32_mod _ _ k). zlia.
Qed.

(** ** Periods *)

(** [f] runs through all [N] numbers from [lo] on before it comes back. *)
Definition full_cycle (f : Z -> Z) (lo N : Z) : Prop :=
  forall x, lo <= x < lo + N ->
    (forall n, Nat.iter n f x = x <-> (N | Z.of_nat n)) /\
    (forall y, lo <= y < lo + N -> exists n, Z.of_nat n < N /\ Nat.iter n f x = y).

(** Once the returns are known, the numbers in between are all different, and so all there are. *)
Lemma full_cycle_of_returns f lo N : 0 < N -> (forall x, lo <= x < lo + N -> lo <= f x < lo + N) ->
  (forall x n, lo <= x < lo + N -> Nat.iter n f x = x <-> (N | Z.of_nat n)) -> full_cycle f lo N.
Proof.
  intros HN Hf Hret x Hx. split; [by intros n; apply Hret|]. intros y Hy.
  assert (forall n, lo <= Nat.iter n f x < lo + N) as Hit by (induction n as [|n IH]; simpl; auto).
  set (l := (fun n => Nat.iter n f x) <$> seq 0 (Z.to_nat N)). set (all := seqZ lo N).
  assert (List.NoDup l) as Hnd.
  { apply NoDup_ListNoDup. apply NoDup_fmap_2_strong; [|apply NoDup_seq]. intros i j Hi Hj He. apply elem_of_seq in Hi, Hj.
    assert (forall i j, (i <= j < Z.to_nat N)%nat -> Nat.iter i f x = Nat.iter j f x -> i = j) as Hinj.
    { clear i j Hi Hj He. intros i j Hij He. replace j with (j - i + i)%nat in He by lia. rewrite Nat.iter_add in He. symmetry in He.
      apply Hret in He as [k Hk]; [|apply Hit]. assert (k = 0 \/ k <> 0) as [->|Hk0] by lia; [lia|]. nia. }
    destruct (Nat.le_ge_cases i j); [|symmetry]; apply Hinj; (lia || done). }
  assert (incl all l) as Hincl.
  { apply List.NoDup_length_incl; [done|unfold all, l; by rewrite length_seqZ, length_fmap, length_seq|].
    intros z Hz. apply list_elem_of_In in Hz. unfold l in Hz. apply list_elem_of_fmap in Hz as (n & -> & _). apply list_elem_of_In, elem_of_seqZ. apply Hit. }
  assert (In y all) as Hyl by (by apply list_elem_of_In, elem_of_seqZ). apply Hincl, list_elem_of_In, list_elem_of_fmap in Hyl as (n & -> & Hn).
  apply elem_of_seq in Hn. exists n. split; [lia|done].
Qed.

(** *** Modulus a power of two *)

Section PowerOfTwo.
Context (a c : Z) (Ha : a mod 4 = 1) (Hc : Z.odd c = true).

(** 1 + a + ... + a^(n-1) *)
Fixpoint geometric (n : nat) : Z := match n with O => 0 | S n => a * geometric n + 1 end.

Lemma geometric_add n k : geometric (n + k) = a ^ Z.of_nat k * geometric n + geometric k.
Proof.
  induction k as [|k IH]; [rewrite Nat.add_0_r; simpl; lia|]. rewrite Nat.add_succ_r. cbn [geometric]. rewrite IH, Nat2Z.inj_succ, Z.pow_succ_r by lia. ring.
Qed.
Lemma geometric_double n : geometric (n + n) = (a ^ Z.of_nat n + 1) * geometric n.
Proof. rewrite geometric_add. ring. Qed.
Lemma power_1_mod_4 n : (a ^ Z.of_nat n) mod 4 = 1.
Proof using Ha. rewrite Zpower_mod, Ha, Z.pow_1_l by lia. done. Qed.
Lemma odd_double n : exists q, geometric (n + n) = 2 * (2 * q + 1) * geometric n.
Proof using Ha.
  exists ((a ^ Z.of_nat n) / 4). rewrite geometric_double. f_equal. pose proof (power_1_mod_4 n). pose proof (Z.div_mod (a ^ Z.of_nat n) 4 ltac:(lia)). lia.
Qed.

Lemma odd_gauss k q x : (2 ^ Z.of_nat k | (2 * q + 1) * x) <-> (2 ^ Z.of_nat k | x).
Proof.
  split; [|apply Z.divide_mul_r]. intros H. apply (Z.gauss _ (2 * q + 1)); [done|].
  rewrite Z.gcd_comm. apply Z.coprime_pow_r; [lia|]. apply Z.coprime_Bezout. exists 1, (- q). lia.
Qed.

Lemma geometric_divides k : forall n, (2 ^ Z.of_nat k | geometric n) <-> (2 ^ Z.of_nat k | Z.of_nat n).
Proof using Ha.
  induction k as [|k IH]; intros n; [split; intros; apply Z.divide_1_l|].
  rewrite Nat2Z.inj_succ, Z.pow_succ_r by lia. destruct (Nat.Even_or_Odd n) as [[j Hj]|[j Hj]].
  - replace n with (j + j)%nat by lia. destruct (odd_double j) as [q ->]. rewrite Nat2Z.inj_add, Z.add_diag, <- Z.mul_assoc.
    rewrite !Z.mul_divide_cancel_l by lia. by rewrite odd_gauss.
  - split; intros [z Hz]; exfalso; [|nia]. replace n with (S (j + j)) in Hz by lia. cbn [geometric] in Hz. destruct (odd_double j) as [q E]. rewrite E in Hz. nia.
Qed.

Lemma lcg_iter k n x : 0 <= x < 2 ^ Z.of_nat k ->
  exists q, Nat.iter n (lcg (2 ^ Z.of_nat k) a c) x = x + geometric n * ((a - 1) * x + c) + 2 ^ Z.of_nat k * q.
Proof.
  intros Hx. induction n as [|n [q IH]]; simpl; [exists 0; lia|]. rewrite IH. unfold lcg at 1.
  set (t := a * _ + c). exists (a * q - t / 2 ^ Z.of_nat k). rewrite Z.mod_eq by (apply Z.pow_nonzero; lia). unfold t at 1. ring.
Qed.

Lemma lcg_full_cycle k : full_cycle (lcg (2 ^ Z.of_nat k) a c) 0 (2 ^ Z.of_nat k).
Proof using All.
  assert (0 < 2 ^ Z.of_nat k) as Hp by (apply Z.pow_pos_nonneg; lia).
  assert (forall x, 0 <= lcg (2 ^ Z.of_nat k) a c x < 2 ^ Z.of_nat k) as Hr by (intros x; apply Z.mod_pos_bound; lia).
  apply full_cycle_of_returns; [done|intros x _; apply Hr|]. intros x n Hx. rewrite Z.add_0_l in Hx.
  assert (exists e, (a - 1) * x + c = 2 * e + 1) as [e He].
  { apply Z.odd_spec in Hc as [d Hd]. exists (2 * (a / 4) * x + d). rewrite Z.mod_eq in Ha by lia. nia. }
  rewrite <- geometric_divides, <- (odd_gauss k e). destruct (lcg_iter k n x Hx) as [q Hq]. rewrite He in Hq. split.
  - intros Hn. rewrite Hn in Hq. exists (- q). lia.
  - intros [z Hz]. assert (0 <= Nat.iter n (lcg (2 ^ Z.of_nat k) a c) x < 2 ^ Z.of_nat k) as Hi by (destruct n; [done|apply Hr]).
    rewrite Hq in *. assert (geometric n * (2 * e + 1) = z * 2 ^ Z.of_nat k) as E by lia. rewrite E in *. assert (z + q = 0) by nia. nia.
Qed.
End PowerOfTwo.

(** *** Multiplication modulo a prime *)

Fixpoint trial (fuel : nat) (n d : Z) : bool :=
  match fuel with O => false | S fuel => if n <? d * d then true else negb (n mod d =? 0) && trial fuel n (d + 1) end.

Lemma trial_sound fuel n : forall d, 1 < d -> trial fuel n d = true -> forall e, d <= e -> e * e <= n -> ~ (e | n).
Proof.
  induction fuel as [|fuel IH]; intros d Hd; cbn [trial]; [done|]. case_if; [intros _ e He Hee; bool_facts; nia|].
  intros [Hm Ht]%andb_true_iff e He Hee. apply negb_true_iff, Z.eqb_neq in Hm. destruct (Z.eq_dec e d) as [->|]; [|apply (IH (d + 1)); (done || lia)].
  by rewrite <- Z.mod_divide by lia.
Qed.
Lemma trial_prime fuel n : 1 < n -> trial fuel n 2 = true -> Z.prime n.
Proof.
  intros Hn Ht. split; [done|]. intros e He [k Hk]. assert (1 < k) by nia. destruct (Z.le_gt_cases e k).
  - apply (trial_sound fuel n 2 ltac:(lia) Ht e); [lia|nia|by exists k].
  - apply (trial_sound fuel n 2 ltac:(lia) Ht k); [lia|nia|exists e; lia].
Qed.

Lemma prime_divisor n : 1 < n -> exists q, Z.prime q /\ (q | n).
Proof.
  intros Hn. assert (0 <= n) as H0 by lia. revert Hn. apply (Z_lt_induction (fun n => 1 < n -> exists q, Z.prime q /\ (q | n))); [|done]. clear n H0. intros n IH Hn.
  destruct (prime_dec n) as [Hp|Hp]; [exists n; by rewrite prime_alt|]. apply not_prime_divide in Hp as (e & He & Hd); [|done].
  destruct (IH e) as (q & Hq & Hqe); [lia..|]. exists q. split; [done|]. by transitivity e.
Qed.
Lemma prime_among q fs : Z.prime q -> Forall Z.prime fs -> (q | foldr Z.mul 1 fs) -> q ∈ fs.
Proof.
  intros Hq. induction 1 as [|f fs Hf Hfs IH]; simpl; intros Hd.
  - apply Z.prime_ge_2 in Hq. apply Z.divide_pos_le in Hd; lia.
  - apply Z.divide_prime_mul in Hd as [Hd|Hd]; [apply Z.divide_prime_prime in Hd as ->; [set_solver|done..]|set_solver|done].
Qed.

Section Generator.
Context (p a : Z) (factors : list Z).
Context (Hprime : Z.prime p) (Ha : 0 < a < p) (Hfactors : Forall Z.prime factors) (Hproduct : foldr Z.mul 1 factors = p - 1).
Context (Hone : a ^ (p - 1) mod p = 1) (Hnone : Forall (fun q => a ^ ((p - 1) / q) mod p <> 1) factors).

Definition unit_power (n : Z) : Prop := a ^ n mod p = 1.

Lemma modulus_large : 1 < p.
Proof using All. apply Z.prime_ge_2 in Hprime. lia. Qed.
Lemma unit_power_mul n k : 0 <= n -> 0 <= k -> unit_power n -> unit_power (n * k).
Proof using All.
  unfold unit_power. intros Hn Hk H. pose proof modulus_large. rewrite Z.pow_mul_r, Zpower_mod, H, Z.pow_1_l by lia. by apply Z.mod_1_l.
Qed.
Lemma unit_power_gcd : forall x, 0 <= x -> forall y, 0 <= y -> unit_power x -> unit_power y -> unit_power (Z.gcd x y).
Proof using All.
  refine (Z_lt_induction (fun x => forall y, 0 <= y -> unit_power x -> unit_power y -> unit_power (Z.gcd x y)) _). intros x IH y Hy H1 H2.
  destruct (Z.eq_dec x 0) as [->|Hx]; [by rewrite Z.gcd_0_l, Z.abs_eq|]. destruct (Z.lt_ge_cases x 0) as [Hn|Hn].
  { unfold unit_power in H1. rewrite Z.pow_neg_r, Zmod_0_l in H1 by done. done. }
  rewrite <- Z.gcd_mod by done. pose proof (Z.mod_pos_bound y x ltac:(lia)). apply IH; [lia|lia| |done].
  pose proof modulus_large. assert (0 <= y / x) as Hq by (apply Z.div_pos; lia). assert (0 <= x * (y / x)) by nia.
  unfold unit_power in H2 |- *. rewrite (Z.div_mod y x Hx), Z.pow_add_r, <- Z.mul_mod_idemp_l in H2 by lia.
  pose proof (unit_power_mul x (y / x) Hn ltac:(apply Z.div_pos; lia) H1) as E. unfold unit_power in E. by rewrite E, Z.mul_1_l in H2.
Qed.

Lemma unit_power_iff n : 0 <= n -> unit_power n <-> (p - 1 | n).
Proof using All.
  intros Hn. pose proof modulus_large. split; [|intros [k ->]; rewrite Z.mul_comm; apply unit_power_mul; [lia|nia|done]].
  intros H1. pose proof (unit_power_gcd n Hn (p - 1) ltac:(lia) H1 Hone) as Hg. set (g := Z.gcd n (p - 1)) in *.
  destruct (Z.gcd_divide_r n (p - 1)) as [k Hk]. fold g in Hk. assert (0 <= g) by apply Z.gcd_nonneg.
  destruct (Z.eq_dec k 1) as [->|Hk1]; [rewrite Z.mul_1_l in Hk; rewrite Hk; apply Z.gcd_divide_l|]. exfalso.
  destruct (prime_divisor k) as (q & Hq & [j Hj]); [nia|]. pose proof (Z.prime_ge_2 q Hq).
  assert (q ∈ factors) as Hin by (apply prime_among; [done|done|rewrite Hproduct; exists (j * g); rewrite Hk, Hj; ring]).
  apply (proj1 (Forall_forall _ _) Hnone q Hin). replace ((p - 1) / q) with (g * j).
  - apply unit_power_mul; [lia|nia|done].
  - rewrite Hk, Hj. replace (j * q * g) with (g * j * q) by ring. by rewrite Z.div_mul by lia.
Qed.

Lemma generator_full_cycle : full_cycle (fun x => (a * x) mod p) 1 (p - 1).
Proof using All.
  pose proof modulus_large as Hp. assert (forall b x, Z.coprime b p -> 1 <= x < 1 + (p - 1) -> (p | b * x) -> False) as Hcop.
  { intros b x Hb Hx Hd. apply (Z.gauss p b x) in Hd; [|rewrite Z.gcd_comm; exact Hb]. apply Z.divide_pos_le in Hd; lia. }
  assert (Z.coprime a p) as Hap by (apply Z.Symmetric_coprime, Z.coprime_prime_small; [done|lia]).
  apply full_cycle_of_returns; [lia| |].
  - intros x Hx. pose proof (Z.mod_pos_bound (a * x) p ltac:(lia)). enough ((a * x) mod p <> 0) by lia. intros E. apply Z.mod_divide in E; [|lia]. by apply (Hcop a x).
  - intros x n Hx. assert (Nat.iter n (fun x => (a * x) mod p) x = (a ^ Z.of_nat n * x) mod p) as E.
    { induction n as [|n IH]; [simpl; rewrite Z.mul_1_l, Z.mod_small; lia|]. cbn [Nat.iter nat_rect]. change (nat_rect _ _ _ n) with (Nat.iter n (fun x => (a * x) mod p) x).
      rewrite IH, Z.mul_mod_idemp_r, Nat2Z.inj_succ, Z.pow_succ_r by lia. f_equal. ring. }
    rewrite E, <- unit_power_iff by lia. unfold unit_power. split; intros H.
    + assert (p | x * (a ^ Z.of_nat n - 1)) as Hd.
      { exists ((a ^ Z.of_nat n * x) / p). pose proof (Z.div_mod (a ^ Z.of_nat n * x) p ltac:(lia)). lia. }
      apply Z.gauss in Hd; [|apply Z.coprime_prime_small; [done|lia]]. destruct Hd as [k Hk]. symmetry. apply (mod_of _ _ _ k); lia.
    + rewrite <- Z.mul_mod_idemp_l, H, Z.mul_1_l, Z.mod_small by lia. done.
Qed.
End Generator.

(** ** The generators *)

(** rand_r: Schrage's two divisions neither overflow nor miss the remainder, for every seed. *)
Definition MINSTD : Z := 2147483647.
Lemma rand_r_spec seed : is_u32 seed ->
  let s := if s32 seed =? 0 then 0x12345987 else s32 seed in rand_r seed = ((16807 * s) mod MINSTD, (16807 * s) mod MINSTD).
Proof.
  intros Hu. unfold rand_r. cbv zeta. set (s := if s32 seed =? 0 then 0x12345987 else s32 seed).
  assert (-2147483648 <= s < 2147483648) as Hs by (unfold s; case_if; [lia|apply s32_range]). clearbody s.
  set (k := Z.quot s 127773). pose proof (Z.quot_rem' s 127773) as Hqr. fold k in Hqr. set (t := Z.rem s 127773) in *.
  assert (Z.abs t < 127773) as Ht by (apply (Z.rem_bound_abs s 127773); lia).
  assert (0 <= s /\ 0 <= t /\ 0 <= k \/ s <= 0 /\ t <= 0 /\ k <= 0) as Hsign.
  { destruct (Z.le_ge_cases 0 s); [left|right]; (split; [done|]).
    - split; [by apply Z.rem_nonneg|by apply Z.quot_pos].
    - split; [by apply Z.rem_nonpos|]. unfold k. replace s with (- (- s)) by lia. rewrite Z.quot_opp_l by lia. pose proof (Z.quot_pos (- s) 127773 ltac:(lia) ltac:(lia)). lia. }
  clearbody k t. rewrite (s32_small (k * 127773)), (s32_small (s - k * 127773)) by lia. replace (s - k * 127773) with t by lia.
  rewrite (s32_small (16807 * t)), (s32_small (2836 * k)), (s32_small (16807 * t - 2836 * k)) by lia.
  set (v := if 16807 * t - 2836 * k <? 0 then s32 (16807 * t - 2836 * k + 2147483647) else 16807 * t - 2836 * k).
  assert (0 <= v < 2147483647 /\ v = (16807 * s) mod MINSTD) as [Hv <-].
  { unfold v. case_if; bool_facts.
    - rewrite s32_small by lia. split; [lia|]. apply (mod_of _ _ _ (k - 1)); unfold MINSTD; lia.
    - split; [lia|]. apply (mod_of _ _ _ k); unfold MINSTD; lia. }
  clearbody v. assert (Z.land v RAND_MAX = v) as -> by (change RAND_MAX with (Z.ones 31); rewrite Z.land_ones, Z.mod_small; lia).
  by rewrite s32_small, u32_small by (unfold is_u32; lia).
Qed.

Lemma minstd_prime : Z.prime MINSTD.
Proof. apply (trial_prime (Z.to_nat 50000)); [done|]. vm_compute. reflexivity. Qed.
Lemma minstd_full_cycle : full_cycle (fun x => (16807 * x) mod MINSTD) 1 (MINSTD - 1).
Proof.
  apply (generator_full_cycle MINSTD 16807 [2; 3; 3; 7; 11; 31; 151; 331]); [apply minstd_prime|done| |done| |].
  - repeat (constructor; [apply (trial_prime 400); [done|vm_compute; reflexivity]|]). constructor.
  - rewrite <- Zpow_mod_correct by done. vm_compute. reflexivity.
  - repeat (constructor; [rewrite <- Zpow_mod_correct by done; vm_compute; discriminate|]). constructor.
Qed.

(** A state machine whose [state] runs through all [N] numbers from [lo] on: it is back after [n] steps just when
    [N] divides [n], and every number comes up. *)
Definition full_period {S : Type} (step : S -> S) (state : S -> Z) (lo N : Z) (s : S) : Prop :=
  (forall n, state (Nat.iter n step s) = state s <-> (N | Z.of_nat n)) /\
  (forall y, lo <= y < lo + N -> exists n, Z.of_nat n < N /\ state (Nat.iter n step s) = y).

Lemma period_of_cycle {S : Type} (step : S -> S) (state : S -> Z) (inv : S -> Prop) f lo N s :
  full_cycle f lo N -> (forall s, inv s -> state (step s) = f (state s) /\ inv (step s)) -> inv s -> lo <= state s < lo + N ->
  full_period step state lo N s.
Proof.
  intros Hf Hstep Hs Hr. assert (forall n, state (Nat.iter n step s) = Nat.iter n f (state s) /\ inv (Nat.iter n step s)) as E.
  { induction n as [|n [IH1 IH2]]; [done|]. simpl. destruct (Hstep _ IH2) as [-> ?]. by rewrite <- IH1. }
  destruct (Hf _ Hr) as [H1 H2]. split; [intros n; rewrite (proj1 (E n)); apply H1|]. intros y Hy. destruct (H2 y Hy) as (n & Hn & <-).
  exists n. split; [done|apply E].
Qed.

Lemma rand_spec r : (rand r).1 = (lcg (2 ^ 64) 6364136223846793005 1 (rand_next r) / 4294967296) mod 2147483648 /\
  rand_next (rand r).2 = lcg (2 ^ 64) 6364136223846793005 1 (rand_next r).
Proof.
  assert (u64 (u64 (rand_next r * 6364136223846793005) + 1) = lcg (2 ^ 64) 6364136223846793005 1 (rand_next r)) as E.
  { unfold u64, lcg. change (2 ^ 64) with 18446744073709551616. rewrite Z.add_mod_idemp_l by done. by rewrite Z.mul_comm. }
  unfold rand. rewrite E. split; [|done]. set (x := lcg _ _ _ _). clearbody x. cbn [fst]. rewrite Z.shiftr_div_pow2 by done. change (2 ^ 32) with 4294967296.
  change RAND_MAX with (Z.ones 31). rewrite Z.land_ones by done. change (2 ^ 31) with 2147483648. apply s32_small. pose proof (Z.mod_pos_bound (x / 4294967296) 2147483648 ltac:(lia)). lia.
Qed.

(** Parameters of the 48-bit generators for which the period is full; those of srand48 and seed48 are. *)
Definition good_parameters (r : Reent) : Prop :=
  limbs (rand48_mult r) /\ limb (rand48_add r) /\ value48 (rand48_mult r) mod 4 = 1 /\ Z.odd (rand48_add r) = true.

Lemma rand48_full_period (step : Reent -> Reent) r :
  (forall r, step r = set_seed48 (__dorand48 r (rand48_seed r)) r) -> good_parameters r -> limbs (rand48_seed r) ->
  full_period step (fun r => value48 (rand48_seed r)) 0 (2 ^ 48) r.
Proof.
  intros Hstep (Hm & Ha & Hm4 & Hodd) Hs.
  apply (period_of_cycle step _ (fun q => rand48_mult q = rand48_mult r /\ rand48_add q = rand48_add r /\ limbs (rand48_seed q)) _ 0 (2 ^ 48) r
    (lcg_full_cycle _ _ Hm4 Hodd 48)); [|done|by apply value48_range].
  intros q (E1 & E2 & Hq). rewrite Hstep. cbn [set_seed48 rand48_seed rand48_mult rand48_add]. split; [|split_and!; [done|done|apply dorand48_limbs]].
  rewrite dorand48_step by (rewrite ?E1, ?E2; done). by rewrite E1, E2.
Qed.

(** What the generators compute.  rand is the step of a 64-bit congruential generator and returns bits 32 to 62 of its state;
    rand_r is multiplication by 16807 modulo 2^31 - 1 for every seed, without overflow; __dorand48, from its 16-bit parts and with
    its carries, is the step modulo 2^48 for every multiplier and addend, of which lrand48 and nrand48 return the upper 31 bits, and
    mrand48 and jrand48 the upper 32 as a signed number. *)
Theorem generators_compute r x seed : limbs (rand48_mult r) -> limb (rand48_add r) -> limbs (rand48_seed r) -> limbs x -> is_u32 seed ->
  let next := (6364136223846793005 * rand_next r + 1) mod 2 ^ 64 in
  let step x := (value48 (rand48_mult r) * value48 x + rand48_add r) mod 2 ^ 48 in
  ((rand r).1 = next / 2 ^ 32 mod 2 ^ 31 /\ rand_next (rand r).2 = next) /\
  (let s := if s32 seed =? 0 then 0x12345987 else s32 seed in rand_r seed = ((16807 * s) mod 2147483647, (16807 * s) mod 2147483647)) /\
  ((lrand48 r).1 = step (rand48_seed r) / 2 ^ 17 /\ value48 (rand48_seed (lrand48 r).2) = step (rand48_seed r)) /\
  ((mrand48 r).1 = s32 (step (rand48_seed r) / 2 ^ 16) /\ value48 (rand48_seed (mrand48 r).2) = step (rand48_seed r)) /\
  ((nrand48 r x).1 = step x / 2 ^ 17 /\ value48 (nrand48 r x).2 = step x) /\
  ((jrand48 r x).1 = s32 (step x / 2 ^ 16) /\ value48 (jrand48 r x).2 = step x).
Proof.
  intros Hm Ha Hs Hx Hu next step. split; [apply rand_spec|]. split; [by apply rand_r_spec|].
  assert (forall x, limbs x -> exists x0 x1 x2, __dorand48 r x = (x0, x1, x2) /\ limbs (x0, x1, x2) /\ value48 (x0, x1, x2) = step x) as Hstep.
  { intros y Hy. destruct (__dorand48 r y) as [[x0 x1] x2] eqn:E. exists x0, x1, x2. split; [done|]. rewrite <- E. split; [apply dorand48_limbs|by apply dorand48_step]. }
  destruct (Hstep _ Hs) as (s0 & s1 & s2 & Es & Hl & <-), (Hstep _ Hx) as (x0 & x1 & x2 & Ex & Hlx & <-).
  unfold lrand48, mrand48, nrand48, jrand48. rewrite Es, Ex. cbn [fst snd set_seed48 rand48_seed]. by rewrite (high_31 s0), (high_31 x0), (high_32 s0), (high_32 x0) by done.
Qed.

Lemma generators_compute_witness : (lrand48 init_rand48).1 = 851401618 /\ (rand init_rand48).1 = 1481765933 /\ (rand_r 1).1 = 16807.
Proof.
  destruct (generators_compute init_rand48 (0, 0, 0) 1) as ([E1 _] & E2 & [E3 _] & _); [done|done|done|done|done|].
  split; [rewrite E3; vm_compute; reflexivity|]. split; [rewrite E1; vm_compute; reflexivity|]. cbv zeta in E2. rewrite E2. vm_compute. reflexivity.
Defined.

(** C39: the generators do not repeat early.  The state of rand and random runs through all 2^64 values before it comes back, that
    of lrand48 and mrand48 through all 2^48 for every multiplier that is 1 modulo 4 and every odd addend, among them the default
    ones, and the seed of rand_r, from any seed below 2^31 - 1 but 0, through all 2^31 - 2 of them. *)
Theorem full_periods :
  (forall r, 0 <= rand_next r < 2 ^ 64 ->
    full_period (fun r => (rand r).2) rand_next 0 (2 ^ 64) r /\ full_period (fun r => (random r).2) rand_next 0 (2 ^ 64) r) /\
  (forall r, good_parameters r -> limbs (rand48_seed r) ->
    full_period (fun r => (lrand48 r).2) (fun r => value48 (rand48_seed r)) 0 (2 ^ 48) r /\
    full_period (fun r => (mrand48 r).2) (fun r => value48 (rand48_seed r)) 0 (2 ^ 48) r) /\
  (forall seed x r, good_parameters (srand48 seed r) /\ limbs (rand48_seed (srand48 seed r)) /\ good_parameters (seed48 x r).2) /\
  (forall seed, 0 < seed < 2147483647 -> full_period (fun s => (rand_r s).2) (fun s => s) 1 2147483646 seed).
Proof.
  split; [|split; [|split]].
  - intros r Hr. assert (full_period (fun r => (rand r).2) rand_next 0 (2 ^ 64) r) as H; [|by split].
    apply (period_of_cycle _ _ (fun _ => True) (lcg (2 ^ 64) 6364136223846793005 1)); [by apply (lcg_full_cycle 6364136223846793005 1 eq_refl eq_refl 64)| |done|done].
    intros s _. split; [apply rand_spec|done].
  - intros r Hp Hs. split; apply rand48_full_period; try done; intros q; unfold lrand48, mrand48; by destruct (__dorand48 q (rand48_seed q)) as [[??]?].
  - intros seed x r. split; [|split]; [done| |done]. unfold srand48, limbs, limb, u16. cbn [rand48_seed]. split_and!; zlia.
  - intros seed Hs. apply (period_of_cycle _ _ (fun s => 1 <= s < 2147483647) (fun x => (16807 * x) mod MINSTD)); [apply minstd_full_cycle| |lia|lia].
    intros s Hr. pose proof (rand_r_spec s ltac:(unfold is_u32; lia)) as E. cbv zeta in E. rewrite s32_small, (proj2 (Z.eqb_neq _ _)) in E by lia. rewrite E. split; [done|].
    cbn [snd]. pose proof (Z.mod_pos_bound (16807 * s) MINSTD ltac:(done)). enough ((16807 * s) mod MINSTD <> 0) by (unfold MINSTD in *; lia).
    intros E0. apply Z.mod_divide in E0; [|done]. apply (Z.gauss _ 16807 s) in E0; [apply Z.divide_pos_le in E0; unfold MINSTD in *; lia|done].
Qed.

Lemma full_periods_witness :
  full_period (fun r => (rand r).2) rand_next 0 (2 ^ 64) init_rand48 /\
  full_period (fun r => (lrand48 r).2) (fun r => value48 (rand48_seed r)) 0 (2 ^ 48) init_rand48 /\
  full_period (fun s => (rand_r s).2) (fun s => s) 1 2147483646 1.
Proof.
  destruct full_periods as (H1 & H2 & _ & H4). split; [apply H1; split; [discriminate|reflexivity]|]. split; [|apply H4; split; reflexivity].
  apply H2; repeat split; try discriminate; reflexivity.
Defined.

(** The third line of __dorand48 multiplies [unsigned short] as [int]: with the default multiplier the product leaves the type. *)
Example rand48_product_overflows : limbs (0, 0, 65535) /\ 0xe66d * 65535 > 2147483647.
Proof. by split. Qed.
End NewlibRandom.
