(* ===== verification/NewlibScan.v ===== *)
(** newlib/newlib/libc/string: the routines that look for a character or compare memory: strlen,
    strnlen, strchr, strrchr, strchrnul, memchr, memrchr, rawmemchr, memcmp, strcasecmp and
    strncasecmp.

    As in NewlibString, the versions for PREFER_SIZE_OVER_SPEED have the suffix [_small]; the
    others align the pointer, search a word at a time and finish byte by byte.  Their loops are
    three shapes, over the test they stop at: [align], [words] and [bytes]. *)

From S2P Require Import Prelude NewlibString NewlibCtype.

Module NewlibScan.
Import NewlibString.

(** The macro of one argument. *)
Definition UNALIGNED (x : Z) : bool := negb (Z.land x 3 =? 0).
Definition DETECTCHAR (x mask : Z) : bool := negb (DETECTNULL (Z.lxor x mask) =? 0).
Definition HASNULL (x : Z) : bool := negb (DETECTNULL x =? 0).
(** The mask that repeats a character. *)
Definition make_mask (d : Z) : Z :=
  let mask := Z.lor (Z.shiftl d 8) d in Z.lor (Z.shiftl mask 16) mask.

(** ** Loops over a string *)

Section Loops.
Context (m : Mem) (stop : Z -> bool) (word_stop : Z -> bool).
(** [while (UNALIGNED (s)) { if (stop ( *s)) return s; s++; }]: whether it returned, and [s]. *)
Fixpoint align (fuel : nat) (s : Z) : option (bool * Z) :=
  match fuel with
  | O => None
  | S fuel =>
      if UNALIGNED s then if stop (loadb m s) then Some (true, s) else align fuel (u32 (s + 1))
      else Some (false, s)
  end.
(** [while (!word_stop ( *a)) a++;] *)
Fixpoint words (fuel : nat) (a : Z) : option Z :=
  match fuel with
  | O => None
  | S fuel => if word_stop (load32 m a) then Some a else words fuel (u32 (a + 4))
  end.
(** [while (!stop ( *s)) s++;] *)
Fixpoint bytes_until (fuel : nat) (s : Z) : option Z :=
  match fuel with
  | O => None
  | S fuel => if stop (loadb m s) then Some s else bytes_until fuel (u32 (s + 1))
  end.
(** The three in a row, with [early] for what the alignment loop returns. *)
Definition search (fuel : nat) (early : Z -> Z) (late : Z -> Z) (s : Z) : option Z :=
  '(stopped, s) ← align fuel s;
  if stopped : bool then Some (early s)
  else a ← words fuel s; s ← bytes_until fuel a; Some (late s).
End Loops.

Definition is_nul (c : Z) : bool := c =? 0.

Definition strlen_small (fuel : nat) (m : Mem) (str : Z) : option Z :=
  s ← bytes_until m is_nul fuel str; Some (u32 (s - str)).
Definition strlen (fuel : nat) (m : Mem) (str : Z) : option Z :=
  search m is_nul HASNULL fuel (fun s => u32 (s - str)) (fun s => u32 (s - str)) str.

(** [while (n-- > 0 && *str) str++;] *)
Fixpoint strnlen_loop (n : nat) (m : Mem) (str : Z) : Z :=
  match n with
  | O => str
  | S n => if loadb m str =? 0 then str else strnlen_loop n m (u32 (str + 1))
  end.
Definition strnlen (m : Mem) (str n : Z) : Z := u32 (strnlen_loop (Z.to_nat n) m str - str).

Definition strchr_small (fuel : nat) (m : Mem) (s1 i : Z) : option Z :=
  let c := u8 i in
  s ← bytes_until m (fun b => (b =? 0) || (b =? c)) fuel s1;
  Some (if loadb m s =? c then s else 0).
Definition strchr (fuel : nat) (m : Mem) (s1 i : Z) : option Z :=
  let c := u8 i in
  if c =? 0 then search m is_nul HASNULL fuel (fun s => s) (fun s => s) s1
  else
    let mask := make_mask c in
    search m (fun b => (b =? 0) || (b =? c)) (fun w => HASNULL w || DETECTCHAR w mask) fuel
      (fun s => if loadb m s =? 0 then 0 else s) (fun s => if loadb m s =? c then s else 0) s1.

(** [while ((s = strchr (s, i))) { last = s; s++; }] *)
Fixpoint strrchr_loop (fuel : nat) (m : Mem) (s i last : Z) : option Z :=
  match fuel with
  | O => None
  | S fuel' =>
      s ← strchr fuel m s i;
      if s =? 0 then Some last else strrchr_loop fuel' m (u32 (s + 1)) i s
  end.
Definition strrchr (fuel : nat) (m : Mem) (s i : Z) : option Z :=
  if negb (i =? 0) then strrchr_loop fuel m s i 0 else strchr fuel m s i.

Definition strchrnul (fuel : nat) (m : Mem) (s1 i : Z) : option Z :=
  s ← strchr fuel m s1 i;
  if negb (s =? 0) then Some s else n ← strlen fuel m s1; Some (u32 (s1 + n)).

(** The loops that search without looking for a terminator. *)
Definition rawmemchr_small (fuel : nat) (m : Mem) (src_void c : Z) : option Z :=
  bytes_until m (fun b => b =? u8 c) fuel src_void.
Definition rawmemchr (fuel : nat) (m : Mem) (src_void c : Z) : option Z :=
  let d := u8 c in
  search m (fun b => b =? d) (fun w => DETECTCHAR w (make_mask d)) fuel (fun s => s) (fun s => s) src_void.

(** ** Loops with a length, upwards ([dir] 1) or downwards ([dir] -1); the length is their fuel *)

(** [while (length--) { if ( *src == d) return src; src += dir; } return NULL;] *)
Fixpoint seek_bytes (length : nat) (m : Mem) (dir src d : Z) : Z :=
  match length with
  | O => 0
  | S length => if loadb m src =? d then src else seek_bytes length m dir (u32 (src + dir)) d
  end.
(** The alignment loop: what it returns, or [src] and [length] behind it. *)
Fixpoint seek_align (fuel : nat) (m : Mem) (unaligned : Z -> bool) (dir src d length : Z) : option (Z + Z * Z) :=
  match fuel with
  | O => None
  | S fuel =>
      if unaligned src then
        if length =? 0 then Some (inl 0)
        else if loadb m src =? d then Some (inl src) else seek_align fuel m unaligned dir (u32 (src + dir)) d (length - 1)
      else Some (inr (src, length))
  end.
Fixpoint seek_words (fuel : nat) (m : Mem) (dir asrc mask length : Z) : option (Z * Z) :=
  match fuel with
  | O => None
  | S fuel =>
      if length >=? 4 then
        if DETECTCHAR (load32 m asrc) mask then Some (asrc, length)
        else seek_words fuel m dir (u32 (asrc + 4 * dir)) mask (length - 4)
      else Some (asrc, length)
  end.

Definition memchr_small (m : Mem) (src_void c length : Z) : Z := seek_bytes (Z.to_nat length) m 1 src_void (u8 c).
Definition memchr (m : Mem) (src_void c length : Z) : option Z :=
  let fuel := S (Z.to_nat length) in
  let d := u8 c in
  r ← seek_align fuel m UNALIGNED 1 src_void d length;
  match r with
  | inl r => Some r
  | inr (src, length) =>
      '(src, length) ← (if negb (TOO_SMALL length) then seek_words fuel m 1 src (make_mask d) length else Some (src, length));
      Some (seek_bytes (Z.to_nat length) m 1 src d)
  end.

Definition memrchr_small (m : Mem) (src_void c length : Z) : Z :=
  seek_bytes (Z.to_nat length) m (-1) (u32 (src_void + length - 1)) (u8 c).
Definition memrchr (m : Mem) (src_void c length : Z) : option Z :=
  let fuel := S (Z.to_nat length) in
  let d := u8 c in
  r ← seek_align fuel m (fun x => UNALIGNED (u32 (x + 1))) (-1) (u32 (src_void + length - 1)) d length;
  match r with
  | inl r => Some r
  | inr (src, length) =>
      '(src, length) ← (if negb (TOO_SMALL length) then
                          '(asrc, length) ← seek_words fuel m (-1) (u32 (src - 4 + 1)) (make_mask d) length;
                          Some (u32 (asrc + 4 - 1), length)
                        else Some (src, length));
      Some (seek_bytes (Z.to_nat length) m (-1) src d)
  end.

(** ** memcmp *)

Fixpoint memcmp_bytes (n : nat) (m : Mem) (s1 s2 : Z) : Z :=
  match n with
  | O => 0
  | S n => if negb (loadb m s1 =? loadb m s2) then loadb m s1 - loadb m s2 else memcmp_bytes n m (u32 (s1 + 1)) (u32 (s2 + 1))
  end.
Definition memcmp_small (m : Mem) (m1 m2 n : Z) : Z := memcmp_bytes (Z.to_nat n) m m1 m2.
Fixpoint memcmp_words (fuel : nat) (m : Mem) (a1 a2 n : Z) : option (Z * Z * Z) :=
  match fuel with
  | O => None
  | S fuel =>
      if n >=? 4 then
        if negb (load32 m a1 =? load32 m a2) then Some (a1, a2, n)
        else memcmp_words fuel m (u32 (a1 + 4)) (u32 (a2 + 4)) (n - 4)
      else Some (a1, a2, n)
  end.
Definition memcmp (m : Mem) (m1 m2 n : Z) : option Z :=
  '(s1, s2, n) ← (if negb (TOO_SMALL n) && (NewlibString.UNALIGNED m1 m2 =? 0) then memcmp_words (S (Z.to_nat n)) m m1 m2 n else Some (m1, m2, n));
  Some (memcmp_bytes (Z.to_nat n) m s1 s2).

(** ** strcasecmp, strncasecmp *)

(** The characters are compared as [int]s; those above 127 are negative, where the table is zero. *)
Definition case_diff (m : Mem) (s1 s2 : Z) : Z := NewlibCtype.tolower (s8 (loadb m s1)) - NewlibCtype.tolower (s8 (loadb m s2)).
Definition case_end (m : Mem) (s2 : Z) : bool := NewlibCtype.tolower (s8 (loadb m s2)) =? 0.

Fixpoint strcasecmp (fuel : nat) (m : Mem) (s1 s2 : Z) : option Z :=
  match fuel with
  | O => None
  | S fuel =>
      let d := case_diff m s1 s2 in
      if negb (d =? 0) || case_end m s2 then Some d else strcasecmp fuel m (u32 (s1 + 1)) (u32 (s2 + 1))
  end.
Fixpoint strncasecmp_loop (n : nat) (m : Mem) (s1 s2 : Z) : Z :=
  match n with
  | O => 0
  | S n =>
      let d := case_diff m s1 s2 in
      if negb (d =? 0) || case_end m s2 then d else strncasecmp_loop n m (u32 (s1 + 1)) (u32 (s2 + 1))
  end.
Definition strncasecmp (m : Mem) (s1 s2 n : Z) : Z := strncasecmp_loop (Z.to_nat n) m s1 s2.

(** ** The loops over a string *)

(** The first byte from [s] on that passes the test is [k] further. *)
Definition first_stop (m : Mem) (stop : Z -> bool) (s k : Z) : Prop :=
  0 <= k /\ stop (loadb m (s + k)) = true /\ forall t, 0 <= t < k -> stop (loadb m (s + t)) = false.

Lemma first_stop_next m stop s k j : first_stop m stop s k -> 0 <= j <= k -> first_stop m stop (u32 (s + j)) (k - j).
Proof.
  intros (Hk & Hs & Hno) Hj. split; [lia|]. rewrite <- loadb_u32, u32_add_l, loadb_u32. replace (s + j + (k - j)) with (s + k) by lia.
  split; [done|]. intros t Ht. rewrite <- loadb_u32, u32_add_l, loadb_u32. rewrite <- Z.add_assoc. apply Hno. lia.
Qed.
Lemma first_stop_zero m stop s k : first_stop m stop s k -> stop (loadb m s) = (k =? 0).
Proof.
  intros (Hk & Hs & Hno). destruct (Z.eqb_spec k 0) as [->|]; [by rewrite Z.add_0_r in Hs|]. rewrite <- (Z.add_0_r s). apply Hno. lia.
Qed.
Lemma step_u32 s j k : u32 (u32 (s + j) + (k - j)) = u32 (s + k).
Proof. rewrite u32_add_l. f_equal. lia. Qed.

Section LoopSpecs.
Context (m : Mem) (stop : Z -> bool) (word_stop : Z -> bool).
Context (Hword : forall a, word_stop (load32 m a) = false -> forall t, 0 <= t < 4 -> stop (loadb m (a + t)) = false).

Lemma bytes_until_spec fuel : forall s k, is_u32 s -> first_stop m stop s k -> k < Z.of_nat fuel -> bytes_until m stop fuel s = Some (u32 (s + k)).
Proof using.
  induction fuel as [|fuel IH]; intros s k Hs Hf Hk; [destruct Hf; lia|]. cbn [bytes_until].
  rewrite (first_stop_zero _ _ _ _ Hf). destruct (Z.eqb_spec k 0) as [->|]; [by rewrite Z.add_0_r, u32_small|].
  pose proof (proj1 Hf). rewrite <- (step_u32 s 1 k). apply IH; [apply u32_range|apply first_stop_next; [done|lia]|lia].
Qed.
Lemma words_spec fuel : forall s k, is_u32 s -> first_stop m stop s k -> k < Z.of_nat fuel ->
  exists j, 0 <= j <= k /\ words m word_stop fuel s = Some (u32 (s + j)).
Proof using Hword.
  induction fuel as [|fuel IH]; intros s k Hs Hf Hk; [destruct Hf; lia|]. cbn [words]. pose proof (proj1 Hf) as Hk0.
  destruct (word_stop (load32 m s)) eqn:E; [exists 0; by rewrite Z.add_0_r, u32_small|].
  assert (4 <= k) as Hk4.
  { destruct (Z.leb_spec 4 k) as [|Hlt]; [done|]. pose proof (Hword s E k ltac:(lia)) as Hno. destruct Hf as (_ & Hst & _). congruence. }
  destruct (IH (u32 (s + 4)) (k - 4)) as (j & Hj & ->); [apply u32_range|apply first_stop_next; [done|lia]|lia|].
  exists (4 + j). split; [lia|]. by rewrite u32_add_l, Z.add_assoc.
Qed.
Lemma align_spec fuel : forall s k, is_u32 s -> first_stop m stop s k -> k < Z.of_nat fuel ->
  align m stop fuel s = Some (true, u32 (s + k)) \/ exists j, 0 <= j <= k /\ align m stop fuel s = Some (false, u32 (s + j)).
Proof using.
  induction fuel as [|fuel IH]; intros s k Hs Hf Hk; [destruct Hf; lia|]. cbn [align]. pose proof (proj1 Hf) as Hk0.
  destruct (UNALIGNED s); [|right; exists 0; by rewrite Z.add_0_r, u32_small].
  rewrite (first_stop_zero _ _ _ _ Hf). destruct (Z.eqb_spec k 0) as [->|]; [left; by rewrite Z.add_0_r, u32_small|].
  destruct (IH (u32 (s + 1)) (k - 1)) as [->|(j & Hj & ->)]; [apply u32_range|apply first_stop_next; [done|lia]|lia| |].
  - left. by rewrite step_u32.
  - right. exists (1 + j). split; [lia|]. by rewrite u32_add_l, Z.add_assoc.
Qed.
Lemma search_spec fuel early late s k r : is_u32 s -> first_stop m stop s k -> k < Z.of_nat fuel ->
  early (u32 (s + k)) = r -> late (u32 (s + k)) = r -> search m stop word_stop fuel early late s = Some r.
Proof using Hword.
  intros Hs Hf Hk <- Hl. unfold search. pose proof (proj1 Hf). destruct (align_spec fuel s k Hs Hf Hk) as [->|(j & Hj & ->)]; cbn [mbind option_bind]; [done|].
  destruct (words_spec fuel (u32 (s + j)) (k - j)) as (i & Hi & ->); [apply u32_range|by apply first_stop_next|lia|]. cbn [mbind option_bind].
  rewrite u32_add_l, <- Z.add_assoc. rewrite (bytes_until_spec fuel _ (k - (j + i))); [|apply u32_range|apply first_stop_next; [done|lia]|lia].
  cbn [mbind option_bind]. by rewrite step_u32, Hl.
Qed.
End LoopSpecs.

(** The word tests find what they look for. *)
Lemma HASNULL_word m a : HASNULL (load32 m a) = false -> forall t, 0 <= t < 4 -> is_nul (loadb m (a + t)) = false.
Proof.
  unfold HASNULL, is_nul. intros E t Ht. apply negb_false_iff, Z.eqb_eq in E. apply Z.eqb_neq. revert t Ht. by apply load32_nonzero.
Qed.
Lemma make_mask_repeats d : is_u8 d -> make_mask d = d + 256 * (d + 256 * (d + 256 * (d + 256 * 0))).
Proof.
  intros Hd. assert (forallb (fun d => make_mask d =? d + 256 * (d + 256 * (d + 256 * (d + 256 * 0)))) (seqZ 0 256) = true) as H by (vm_compute; reflexivity).
  rewrite forallb_forall in H. apply Z.eqb_eq, H, list_elem_of_In, elem_of_seqZ. unfold is_u8 in Hd. lia.
Qed.
Lemma DETECTCHAR_word m a d : is_u8 d -> DETECTCHAR (load32 m a) (make_mask d) = false -> forall t, 0 <= t < 4 -> (loadb m (a + t) =? d) = false.
Proof.
  unfold DETECTCHAR. intros Hd E t Ht. apply negb_false_iff, Z.eqb_eq in E. apply Z.eqb_neq. revert t Ht.
  eapply word_misses_byte; [exact Hd|by apply make_mask_repeats|done].
Qed.
Lemma either_word m a d : is_u8 d -> HASNULL (load32 m a) || DETECTCHAR (load32 m a) (make_mask d) = false ->
  forall t, 0 <= t < 4 -> (loadb m (a + t) =? 0) || (loadb m (a + t) =? d) = false.
Proof.
  intros Hd [H1 H2]%orb_false_iff t Ht. pose proof (HASNULL_word m a H1 t Ht) as E. unfold is_nul in E. rewrite E. by apply DETECTCHAR_word.
Qed.

(** ** Strings *)

(** What a search for [d] among [n] bytes from [s] on, in direction [dir], returns. *)
Definition found_first (m : Mem) (s dir n d r : Z) : Prop :=
  (exists k, 0 <= k < n /\ loadb m (s + dir * k) = d /\ (forall t, 0 <= t < k -> loadb m (s + dir * t) <> d) /\ r = u32 (s + dir * k)) \/
  ((forall k, 0 <= k < n -> loadb m (s + dir * k) <> d) /\ r = 0).

Lemma string_char m s l k : string_in m s l -> 0 <= k < Z.of_nat (length l) -> loadb m (s + k) <> 0.
Proof.
  intros (Hs & _) Hk. destruct (lookup_lt_is_Some_2 l (Z.to_nat k) ltac:(lia)) as [c Hc].
  destruct (cstring_lookup m s l (Z.to_nat k) c Hs Hc) as [E Hn]. rewrite Z2Nat.id in E by lia. congruence.
Qed.
Lemma string_stop m s l : string_in m s l -> first_stop m is_nul s (Z.of_nat (length l)).
Proof.
  intros Hs. pose proof (cstring_end m s l (proj1 Hs)) as He. split; [lia|]. unfold is_nul. rewrite He. split; [done|].
  intros t Ht. apply Z.eqb_neq. by apply (string_char m s l).
Qed.

Lemma strlen_measures fuel m s l : string_in m s l -> Z.of_nat (length l) < Z.of_nat fuel ->
  strlen fuel m s = Some (Z.of_nat (length l)) /\ strlen_small fuel m s = Some (Z.of_nat (length l)).
Proof.
  intros Hs Hf. pose proof (string_stop m s l Hs) as Hst. destruct Hs as (_ & Hs & Hl).
  assert (u32 (u32 (s + Z.of_nat (length l)) - s) = Z.of_nat (length l)) as E
    by (rewrite u32_sub_l; replace (s + Z.of_nat (length l) - s) with (Z.of_nat (length l)) by lia; apply u32_small; unfold is_u32; lia).
  split.
  - eapply search_spec; [apply HASNULL_word|unfold is_u32; lia|exact Hst|done|exact E|exact E].
  - unfold strlen_small. erewrite bytes_until_spec; [|unfold is_u32; lia|exact Hst|done]. cbn [mbind option_bind]. by rewrite E.
Qed.

Lemma string_drop m p l n : string_in m p l -> 0 <= n <= Z.of_nat (length l) -> string_in m (p + n) (drop (Z.to_nat n) l).
Proof.
  intros Hs Hn. rewrite <- (Z2Nat.id n) at 1 by lia. assert (Z.to_nat n <= length l)%nat as Hle by lia. clear Hn. revert p Hs Hle.
  generalize (Z.to_nat n) as k. clear n. intros k. revert l. induction k as [|k IH]; intros [|c l] p Hs Hle; simpl in Hle; rewrite ?Z.add_0_r; try done; [lia|].
  pose proof (string_next m p [c] l Hs) as Hp. simpl in Hp. apply string_cons in Hs as (_ & _ & Hs). rewrite u32_small in Hs by (unfold is_u32; lia).
  replace (p + Z.of_nat (S k)) with (p + 1 + Z.of_nat k) by lia. apply IH; [done|lia].
Qed.

Lemma string_size m s l k : string_in m s l -> 0 <= k <= Z.of_nat (length l) -> is_u32 (s + k).
Proof. intros (_ & Hp & Hl) Hk. unfold is_u32. lia. Qed.

(** Where a character other than NUL first stands in a string, or that it does not. *)
Lemma string_seek m s l c : string_in m s l -> is_u8 c -> c <> 0 ->
  exists k, 0 <= k <= Z.of_nat (length l) /\ first_stop m (fun b => (b =? 0) || (b =? c)) s k /\
    (forall t, 0 <= t < k -> loadb m (s + t) <> c) /\ (loadb m (s + k) = c <-> k <> Z.of_nat (length l)).
Proof.
  intros Hs Hc Hn. pose proof (cstring_end m s l (proj1 Hs)) as He.
  destruct (search_below (fun k => loadb m (s + k) =? c) (Z.of_nat (length l))) as [Hno|(k & Hk & Hkc & Hno)].
  - exists (Z.of_nat (length l)). split; [lia|].
    assert (forall t, 0 <= t < Z.of_nat (length l) -> loadb m (s + t) <> c) as Hno' by (intros t Ht; by apply Z.eqb_neq, Hno).
    split; [split; [lia|]|split; [done|rewrite He; split; congruence]]. rewrite He. split; [done|]. intros t Ht.
    rewrite (proj2 (Z.eqb_neq _ _) (string_char m s l t Hs Ht)). by apply Z.eqb_neq, Hno'.
  - exists k. apply Z.eqb_eq in Hkc. split; [lia|].
    assert (forall t, 0 <= t < k -> loadb m (s + t) <> c) as Hno' by (intros t Ht; by apply Z.eqb_neq, Hno).
    split; [split; [lia|]|split; [done|split; [lia|done]]]. rewrite Hkc, Z.eqb_refl, orb_true_r. split; [done|]. intros t Ht.
    rewrite (proj2 (Z.eqb_neq _ _) (string_char m s l t Hs ltac:(lia))). by apply Z.eqb_neq, Hno'.
Qed.

Lemma strchr_zero fuel m s l i : string_in m s l -> Z.of_nat (length l) < Z.of_nat fuel -> u8 i = 0 ->
  strchr fuel m s i = Some (s + Z.of_nat (length l)) /\ strchr_small fuel m s i = Some (s + Z.of_nat (length l)).
Proof.
  intros Hs Hf Hc. pose proof (string_stop m s l Hs) as Hst. pose proof (string_size m s l (Z.of_nat (length l)) Hs ltac:(lia)) as E%u32_small.
  assert (is_u32 s) as Hs32 by (destruct Hs as (_ & ? & ?); unfold is_u32; lia). unfold strchr, strchr_small. rewrite Hc. split.
  - eapply search_spec; [apply HASNULL_word|done|exact Hst|done|done|done].
  - rewrite (bytes_until_spec m _ fuel s (Z.of_nat (length l))); [|done| |done].
    + cbn [mbind option_bind]. by rewrite E, (cstring_end m s l (proj1 Hs)).
    + destruct Hst as (H0 & H1 & H2). split; [done|]. unfold is_nul in *. rewrite H1. split; [done|]. intros t Ht. by rewrite H2.
Qed.
Lemma strchr_other fuel m s l i k : string_in m s l -> Z.of_nat (length l) < Z.of_nat fuel -> u8 i <> 0 -> 0 <= k <= Z.of_nat (length l) ->
  first_stop m (fun b => (b =? 0) || (b =? u8 i)) s k -> (loadb m (s + k) = u8 i <-> k <> Z.of_nat (length l)) ->
  let r := if k =? Z.of_nat (length l) then 0 else s + k in strchr fuel m s i = Some r /\ strchr_small fuel m s i = Some r.
Proof.
  intros Hs Hf Hn Hk Hst Hc r. pose proof (string_size m s l k Hs Hk) as E%u32_small.
  assert (is_u32 s) as Hs32 by (destruct Hs as (_ & ? & ?); unfold is_u32; lia).
  pose proof (cstring_end m s l (proj1 Hs)) as He. assert ((if loadb m (s + k) =? u8 i then s + k else 0) = r) as Er.
  { unfold r. destruct (Z.eqb_spec k (Z.of_nat (length l))) as [->|Hne]; [rewrite He; by rewrite (proj2 (Z.eqb_neq 0 (u8 i))) by done|].
    by rewrite (proj2 (Z.eqb_eq _ _)) by (by apply Hc). }
  unfold strchr, strchr_small. rewrite (proj2 (Z.eqb_neq (u8 i) 0)) by done. split.
  - eapply search_spec; [intros a Ha; apply either_word; [apply u8_range|exact Ha]|done|exact Hst|lia| |]; cbv beta; rewrite E; [|done].
    unfold r. destruct (Z.eqb_spec k (Z.of_nat (length l))) as [->|Hne]; [by rewrite He|].
    by rewrite (proj2 (Z.eqb_neq _ _) (string_char m s l k Hs ltac:(lia))).
  - rewrite (bytes_until_spec m _ fuel s k); [|done|done|lia]. cbn [mbind option_bind]. by rewrite E, Er.
Qed.

(** strchr returns the first place of the character, the terminator included. *)
Lemma strchr_spec fuel m s l i : string_in m s l -> Z.of_nat (length l) < Z.of_nat fuel ->
  exists r, strchr fuel m s i = Some r /\ strchr_small fuel m s i = Some r /\ found_first m s 1 (Z.of_nat (length l) + 1) (u8 i) r.
Proof.
  intros Hs Hf. pose proof (cstring_end m s l (proj1 Hs)) as He. destruct (Z.eq_dec (u8 i) 0) as [Hz|Hz].
  - destruct (strchr_zero fuel m s l i Hs Hf Hz) as [-> ->]. eexists. split; [done|]. split; [done|]. left. exists (Z.of_nat (length l)).
    rewrite Z.mul_1_l, Hz. split; [lia|]. split; [done|]. split; [|symmetry; apply u32_small; apply (string_size m s l _ Hs); lia].
    intros t Ht. rewrite Z.mul_1_l. by apply (string_char m s l).
  - destruct (string_seek m s l (u8 i) Hs (u8_range i) Hz) as (k & Hk & Hst & Hno & Hc).
    destruct (strchr_other fuel m s l i k Hs Hf Hz Hk Hst Hc) as [-> ->]. eexists. split; [done|]. split; [done|].
    destruct (Z.eqb_spec k (Z.of_nat (length l))) as [Ek|Hne].
    + right. split; [|done]. intros t Ht. rewrite Z.mul_1_l. destruct (Z.eq_dec t (Z.of_nat (length l))) as [->|]; [congruence|]. apply Hno. lia.
    + left. exists k. rewrite Z.mul_1_l. split; [lia|]. split; [by apply Hc|]. split; [|symmetry; apply u32_small, (string_size m s l k Hs); lia].
      intros t Ht. rewrite Z.mul_1_l. by apply Hno.
Qed.

(** The loop of strrchr keeps the last place found so far. *)
Lemma strrchr_loop_spec i fuel : u8 i <> 0 -> forall m s l last, string_in m s l -> 0 < s -> Z.of_nat (length l) < Z.of_nat fuel ->
  exists r, strrchr_loop fuel m s i last = Some r /\
    ((exists k, 0 <= k < Z.of_nat (length l) /\ loadb m (s + k) = u8 i /\ (forall t, k < t < Z.of_nat (length l) -> loadb m (s + t) <> u8 i) /\ r = s + k) \/
     ((forall k, 0 <= k < Z.of_nat (length l) -> loadb m (s + k) <> u8 i) /\ r = last)).
Proof.
  intros Hi. induction fuel as [|fuel IH]; intros m s l last Hs Hpos Hf; [lia|]. cbn [strrchr_loop].
  destruct (string_seek m s l (u8 i) Hs (u8_range i) Hi) as (k & Hk & Hst & Hno & Hc).
  destruct (strchr_other (S fuel) m s l i k Hs Hf Hi Hk Hst Hc) as [-> _]. cbn [mbind option_bind].
  destruct (Z.eqb_spec k (Z.of_nat (length l))) as [->|Hne]; [exists last; split; [done|]; by right|].
  rewrite (proj2 (Z.eqb_neq (s + k) 0)) by lia. pose proof (string_drop m s l (k + 1) Hs ltac:(lia)) as Hd.
  assert (Z.of_nat (length (drop (Z.to_nat (k + 1)) l)) = Z.of_nat (length l) - (k + 1)) as El by (rewrite length_drop; lia).
  rewrite u32_small by (replace (s + k + 1) with (s + (k + 1)) by lia; apply (string_size m s l (k + 1) Hs); lia).
  replace (s + k + 1) with (s + (k + 1)) by lia.
  destruct (IH m (s + (k + 1)) (drop (Z.to_nat (k + 1)) l) (s + k) Hd ltac:(lia) ltac:(lia)) as (r & -> & Hr). exists r. split; [done|]. left.
  assert (forall t, loadb m (s + (k + 1) + t) = loadb m (s + (k + 1 + t))) as Ea by (intros t; f_equal; lia).
  rewrite El in Hr. destruct Hr as [(k' & Hk' & Hc' & Hno' & ->)|(Hno' & ->)].
  - exists (k + 1 + k'). rewrite <- Ea. split; [lia|]. split; [done|]. split; [|lia]. intros t Ht.
    replace t with (k + 1 + (t - (k + 1))) by lia. rewrite <- Ea. apply Hno'. lia.
  - exists k. split; [lia|]. split; [by apply Hc|]. split; [|done]. intros t Ht.
    replace t with (k + 1 + (t - (k + 1))) by lia. rewrite <- Ea. apply Hno'. lia.
Qed.

(** strrchr returns the last place of the character, when the [int] given is NUL or its low byte is not. *)
Lemma strrchr_spec fuel m s l i : string_in m s l -> 0 < s -> Z.of_nat (length l) < Z.of_nat fuel -> i = 0 \/ u8 i <> 0 ->
  exists r, strrchr fuel m s i = Some r /\ found_first m (s + Z.of_nat (length l)) (-1) (Z.of_nat (length l) + 1) (u8 i) r.
Proof.
  intros Hs Hpos Hf Hi. unfold strrchr. pose proof (cstring_end m s l (proj1 Hs)) as He. destruct (Z.eqb_spec i 0) as [->|Hne]; cbn [negb].
  - destruct (strchr_zero fuel m s l 0 Hs Hf eq_refl) as [-> _]. eexists. split; [done|]. left. exists 0. rewrite Z.mul_0_r, Z.add_0_r.
    split; [lia|]. split; [done|]. split; [intros; lia|]. symmetry. apply u32_small, (string_size m s l _ Hs). lia.
  - destruct Hi as [|Hi]; [done|]. destruct (strrchr_loop_spec i fuel Hi m s l 0 Hs Hpos Hf) as (r & -> & Hr). exists r. split; [done|].
    destruct Hr as [(k & Hk & Hc & Hno & ->)|(Hno & ->)]; [left; exists (Z.of_nat (length l) - k)|right; split; [|done]].
    + replace (s + Z.of_nat (length l) + -1 * (Z.of_nat (length l) - k)) with (s + k) by lia. split; [lia|]. split; [done|].
      split; [|symmetry; apply u32_small, (string_size m s l k Hs); lia]. intros t Ht.
      destruct (Z.eq_dec t 0) as [->|]; [rewrite Z.mul_0_r, Z.add_0_r; congruence|].
      replace (s + Z.of_nat (length l) + -1 * t) with (s + (Z.of_nat (length l) - t)) by lia. apply Hno. lia.
    + intros t Ht. destruct (Z.eq_dec t 0) as [->|]; [rewrite Z.mul_0_r, Z.add_0_r; congruence|].
      replace (s + Z.of_nat (length l) + -1 * t) with (s + (Z.of_nat (length l) - t)) by lia. apply Hno. lia.
Qed.

(** When the [int] is not NUL but its low byte is, the loop goes on behind the terminator. *)
Example strrchr_runs_on : strrchr 5 (fun _ => 0) 4096 256 = None /\ strrchr 5 (fun _ => 0) 4096 0 = Some 4096.
Proof. split; reflexivity. Qed.

(** strchrnul returns the terminator's place when the character is missing. *)
Lemma strchrnul_spec fuel m s l i r : string_in m s l -> 0 < s -> Z.of_nat (length l) < Z.of_nat fuel -> strchr fuel m s i = Some r ->
  strchrnul fuel m s i = Some (if r =? 0 then s + Z.of_nat (length l) else r).
Proof.
  intros Hs Hpos Hf E. unfold strchrnul. rewrite E. cbn [mbind option_bind]. destruct (Z.eqb_spec r 0); cbn [negb]; [|done].
  destruct (strlen_measures fuel m s l Hs Hf) as [-> _]. cbn [mbind option_bind]. f_equal. apply u32_small, (string_size m s l _ Hs). lia.
Qed.

(** strnlen returns the length or the bound. *)
Lemma strnlen_loop_spec n : forall m s, (forall k, 0 <= k < Z.of_nat n -> loadb m (s + k) <> 0) /\ u32 (strnlen_loop n m s) = u32 (s + Z.of_nat n) \/
  exists k, 0 <= k < Z.of_nat n /\ loadb m (s + k) = 0 /\ (forall t, 0 <= t < k -> loadb m (s + t) <> 0) /\ u32 (strnlen_loop n m s) = u32 (s + k).
Proof.
  induction n as [|n IH]; intros m s; cbn [strnlen_loop]; [left; split; [lia|by rewrite Z.add_0_r]|].
  assert (forall t, loadb m (u32 (s + 1) + t) = loadb m (s + (1 + t))) as Ea by (intros t; rewrite <- loadb_u32, u32_add_l, loadb_u32; f_equal; lia).
  destruct (Z.eqb_spec (loadb m s) 0) as [E|E].
  - right. exists 0. rewrite Z.add_0_r. split; [lia|]. split; [done|]. split; [lia|done].
  - assert (forall j, (forall t, 0 <= t < j -> loadb m (u32 (s + 1) + t) <> 0) -> forall t, 0 <= t < j + 1 -> loadb m (s + t) <> 0) as Hall.
    { intros j Hj t Ht. destruct (Z.eq_dec t 0) as [->|]; [by rewrite Z.add_0_r|]. replace t with (1 + (t - 1)) by lia. rewrite <- Ea. apply Hj. lia. }
    destruct (IH m (u32 (s + 1))) as [[Hno ->]|(k & Hk & Hz & Hno & ->)]; rewrite u32_add_l.
    + left. split; [|f_equal; lia]. intros t Ht. eapply Hall; [exact Hno|lia].
    + right. exists (1 + k). rewrite <- Ea, Z.add_assoc. split; [lia|]. split; [done|]. split; [|done]. intros t Ht. eapply Hall; [exact Hno|lia].
Qed.
Lemma strnlen_spec m s l n : string_in m s l -> 0 <= n < 4294967296 -> strnlen m s n = Z.min n (Z.of_nat (length l)).
Proof.
  intros Hs Hn. unfold strnlen. pose proof (cstring_end m s l (proj1 Hs)) as He. pose proof Hs as (_ & Hp & Hl).
  assert (forall k, 0 <= k < 4294967296 -> u32 (u32 (s + k) - s) = k) as Hk
    by (intros k Hk; rewrite u32_sub_l; replace (s + k - s) with k by lia; by apply u32_small).
  rewrite <- u32_sub_l. destruct (strnlen_loop_spec (Z.to_nat n) m s) as [[Hno ->]|(k & Hk' & Hz & Hno & ->)]; rewrite ?Z2Nat.id in * by lia; rewrite Hk by lia.
  - destruct (Z.leb_spec n (Z.of_nat (length l))); [lia|]. exfalso. by apply (Hno (Z.of_nat (length l)) ltac:(lia)).
  - destruct (Z.lt_trichotomy k (Z.of_nat (length l))) as [Hlt|[->|Hlt]]; [exfalso; by apply (string_char m s l k Hs ltac:(lia))|lia|].
    exfalso. by apply (Hno (Z.of_nat (length l)) ltac:(lia)).
Qed.

(** ** Memory *)

Definition misses (m : Mem) (s dir j d : Z) : Prop := forall t, 0 <= t < j -> loadb m (s + dir * t) <> d.

Lemma loadb_step m s dir j t : loadb m (u32 (s + dir * j) + dir * t) = loadb m (s + dir * (j + t)).
Proof. rewrite <- loadb_u32, u32_add_l, loadb_u32. f_equal. lia. Qed.
Lemma misses_app m s dir j k d : 0 <= j -> misses m s dir j d -> misses m (u32 (s + dir * j)) dir k d -> misses m s dir (j + k) d.
Proof.
  intros Hj H1 H2 t Ht. destruct (Z.ltb_spec t j); [apply H1; lia|]. replace t with (j + (t - j)) by lia. rewrite <- loadb_step. apply H2. lia.
Qed.
Lemma found_first_skip m s dir n d j r : 0 <= j <= n -> misses m s dir j d -> found_first m (u32 (s + dir * j)) dir (n - j) d r -> found_first m s dir n d r.
Proof.
  intros Hj Hm [(k & Hk & Hc & Hno & ->)|(Hno & ->)]; [left; exists (j + k)|right; split; [|done]].
  - rewrite loadb_step in Hc. split; [lia|]. split; [done|]. split; [by apply misses_app; [lia| |]|]. rewrite u32_add_l. f_equal. lia.
  - replace n with (j + (n - j)) by lia. by apply misses_app; [lia| |].
Qed.

Lemma seek_bytes_spec n : forall m dir s d, is_u32 s -> found_first m s dir (Z.of_nat n) d (seek_bytes n m dir s d).
Proof.
  induction n as [|n IH]; intros m dir s d Hs; cbn [seek_bytes]; [right; split; [lia|done]|].
  destruct (Z.eqb_spec (loadb m s) d) as [E|E].
  - left. exists 0. rewrite Z.mul_0_r, Z.add_0_r. split; [lia|]. split; [done|]. split; [lia|]. by rewrite u32_small.
  - apply (found_first_skip _ _ _ _ _ 1); [lia| |].
    + intros t Ht. replace t with 0 by lia. by rewrite Z.mul_0_r, Z.add_0_r.
    + rewrite Z.mul_1_r. replace (Z.of_nat (S n) - 1) with (Z.of_nat n) by lia. apply IH, u32_range.
Qed.

Lemma seek_align_spec fuel : forall m unaligned dir s d n, is_u32 s -> 0 <= n < Z.of_nat fuel ->
  (exists r, seek_align fuel m unaligned dir s d n = Some (inl r) /\ found_first m s dir n d r) \/
  (exists j, 0 <= j <= n /\ seek_align fuel m unaligned dir s d n = Some (inr (u32 (s + dir * j), n - j)) /\ misses m s dir j d).
Proof.
  induction fuel as [|fuel IH]; intros m unaligned dir s d n Hs Hn; [lia|]. cbn [seek_align].
  destruct (unaligned s); [|right; exists 0; rewrite Z.mul_0_r, Z.add_0_r, Z.sub_0_r, u32_small by done; split; [lia|]; split; [done|intros t Ht; lia]].
  destruct (Z.eqb_spec n 0) as [->|Hn0]; [left; exists 0; split; [done|]; right; split; [lia|done]|].
  destruct (Z.eqb_spec (loadb m s) d) as [E|E].
  - left. exists s. split; [done|]. left. exists 0. rewrite Z.mul_0_r, Z.add_0_r. split; [lia|]. split; [done|]. split; [lia|]. by rewrite u32_small.
  - assert (misses m s dir 1 d) as H1 by (intros t Ht; replace t with 0 by lia; by rewrite Z.mul_0_r, Z.add_0_r).
    destruct (IH m unaligned dir (u32 (s + dir)) d (n - 1) (u32_range _) ltac:(lia)) as [(r & -> & Hr)|(j & Hj & -> & Hno)].
    + left. exists r. split; [done|]. apply (found_first_skip _ _ _ _ _ 1); [lia|done|by rewrite Z.mul_1_r].
    + right. exists (1 + j). split; [lia|]. split; [by rewrite u32_add_l, Z.sub_add_distr, Z.mul_add_distr_l, Z.mul_1_r, Z.add_assoc|]. apply misses_app; [lia|done|by rewrite Z.mul_1_r].
Qed.

(** The word that stands [off] from the pointer holds the next four bytes in the direction of the search. *)
Lemma seek_words_spec dir off fuel : dir = 1 /\ off = 0 \/ dir = -1 /\ off = -3 -> forall m s d n, is_u8 d -> 0 <= n < Z.of_nat fuel ->
  exists j, 0 <= j <= n /\ seek_words fuel m dir (u32 (s + off)) (make_mask d) n = Some (u32 (s + dir * j + off), n - j) /\ misses m s dir j d.
Proof.
  intros Hdir. induction fuel as [|fuel IH]; intros m s d n Hd Hn; [lia|]. cbn [seek_words].
  assert (exists j, 0 <= j <= n /\ Some (u32 (s + off), n) = Some (u32 (s + dir * j + off), n - j) /\ misses m s dir j d) as Hstop
    by (exists 0; rewrite Z.mul_0_r, Z.add_0_r, Z.sub_0_r; split; [lia|]; split; [done|intros t Ht; lia]).
  destruct (Z.geb_spec n 4) as [Hn4|]; [|done]. destruct (DETECTCHAR _ _) eqn:E; [done|].
  assert (misses m s dir 4 d) as H4.
  { intros t Ht. pose proof (DETECTCHAR_word m _ d Hd E) as Hno.
    assert (forall t, 0 <= t < 4 -> loadb m (s + off + t) <> d) as Hno' by (intros t' Ht'; rewrite <- loadb_u32, <- u32_add_l, loadb_u32; by apply Z.eqb_neq, Hno).
    destruct Hdir as [[-> ->]|[-> ->]]; [|replace (s + -1 * t) with (s + -3 + (3 - t)) by lia; apply Hno'; lia].
    rewrite Z.mul_1_l, <- (Z.add_0_r s). by apply Hno'. }
  destruct (IH m (u32 (s + dir * 4)) d (n - 4) Hd ltac:(lia)) as (j & Hj & E2 & Hno). exists (4 + j). split; [lia|]. split; [|apply misses_app; [lia|done|done]].
  rewrite u32_add_l in E2 |- *. replace (s + off + 4 * dir) with (s + dir * 4 + off) by lia. rewrite E2, <- Z.add_assoc, u32_add_l.
  replace (s + dir * (4 + j) + off) with (s + dir * 4 + (dir * j + off)) by lia. by replace (n - (4 + j)) with (n - 4 - j) by lia.
Qed.

Lemma memchr_spec m s c n : is_u32 s -> 0 <= n -> exists r, memchr m s c n = Some r /\ found_first m s 1 n (u8 c) r.
Proof.
  intros Hs Hn. unfold memchr. cbv zeta. set (fuel := S (Z.to_nat n)). assert (0 <= n < Z.of_nat fuel) as Hf by lia.
  destruct (seek_align_spec fuel m UNALIGNED 1 s (u8 c) n Hs Hf) as [(r & -> & Hr)|(j & Hj & -> & Hno)]; cbn [mbind option_bind]; [by exists r|].
  assert (forall k, 0 <= k -> j + k <= n -> misses m (u32 (s + 1 * j)) 1 k (u8 c) ->
    found_first m s 1 n (u8 c) (seek_bytes (Z.to_nat (n - j - k)) m 1 (u32 (s + 1 * j + 1 * k)) (u8 c))) as Hrest.
  { intros k Hk Hjk Hmk. apply (found_first_skip _ _ _ _ _ (j + k)); [lia|by apply misses_app; [lia| |]|].
    replace (n - (j + k)) with (Z.of_nat (Z.to_nat (n - j - k))) by lia. replace (s + 1 * j + 1 * k) with (s + 1 * (j + k)) by lia. apply seek_bytes_spec, u32_range. }
  destruct (negb (TOO_SMALL (n - j))); cbn [mbind option_bind].
  - destruct (seek_words_spec 1 0 fuel ltac:(by left) m (u32 (s + 1 * j)) (u8 c) (n - j) (u8_range c) ltac:(lia)) as (k & Hk & E & Hmk).
    rewrite Z.add_0_r, u32_u32 in E. rewrite E. cbn [mbind option_bind]. eexists. split; [done|]. rewrite Z.add_0_r, u32_add_l. apply Hrest; [lia|lia|done].
  - eexists. split; [done|]. specialize (Hrest 0 ltac:(lia) ltac:(lia) ltac:(intros t Ht; lia)).
    by rewrite Z.sub_0_r, Z.mul_0_r, Z.add_0_r in Hrest.
Qed.
Lemma memchr_small_spec m s c n : is_u32 s -> 0 <= n -> found_first m s 1 n (u8 c) (memchr_small m s c n).
Proof. intros Hs Hn. unfold memchr_small. rewrite <- (Z2Nat.id n) at 1 by lia. by apply seek_bytes_spec. Qed.

Lemma memrchr_spec m s c n : 0 <= n ->
  exists r, memrchr m s c n = Some r /\ found_first m (u32 (s + n - 1)) (-1) n (u8 c) r.
Proof.
  intros Hn. unfold memrchr. cbv zeta. set (fuel := S (Z.to_nat n)). assert (0 <= n < Z.of_nat fuel) as Hf by lia. set (e := u32 (s + n - 1)). pose proof (u32_range (s + n - 1) : is_u32 e) as He.
  destruct (seek_align_spec fuel m (fun x => UNALIGNED (u32 (x + 1))) (-1) e (u8 c) n He Hf) as [(r & -> & Hr)|(j & Hj & -> & Hno)]; cbn [mbind option_bind]; [by exists r|].
  assert (forall k, 0 <= k -> j + k <= n -> misses m (u32 (e + -1 * j)) (-1) k (u8 c) ->
    found_first m e (-1) n (u8 c) (seek_bytes (Z.to_nat (n - j - k)) m (-1) (u32 (e + -1 * j + -1 * k)) (u8 c))) as Hrest.
  { intros k Hk Hjk Hmk. apply (found_first_skip _ _ _ _ _ (j + k)); [lia|by apply misses_app; [lia| |]|].
    replace (n - (j + k)) with (Z.of_nat (Z.to_nat (n - j - k))) by lia. replace (e + -1 * j + -1 * k) with (e + -1 * (j + k)) by lia. apply seek_bytes_spec, u32_range. }
  destruct (negb (TOO_SMALL (n - j))); cbn [mbind option_bind].
  - destruct (seek_words_spec (-1) (-3) fuel ltac:(by right) m (u32 (e + -1 * j)) (u8 c) (n - j) (u8_range c) ltac:(lia)) as (k & Hk & E & Hmk).
    replace (u32 (e + -1 * j) - 4 + 1) with (u32 (e + -1 * j) + -3) by lia. rewrite E. cbn [mbind option_bind]. eexists. split; [done|].
    replace (u32 (u32 (u32 (e + -1 * j) + -1 * k + -3) + 4 - 1)) with (u32 (e + -1 * j + -1 * k)); [apply Hrest; [lia|lia|done]|].
    rewrite <- Z.add_sub_assoc, u32_add_l, <- !Z.add_assoc, u32_add_l. f_equal. lia.
  - eexists. split; [done|]. specialize (Hrest 0 ltac:(lia) ltac:(lia) ltac:(intros t Ht; lia)).
    by rewrite Z.sub_0_r, Z.mul_0_r, Z.add_0_r in Hrest.
Qed.
Lemma memrchr_small_spec m s c n : 0 <= n -> found_first m (u32 (s + n - 1)) (-1) n (u8 c) (memrchr_small m s c n).
Proof. intros Hn. unfold memrchr_small. rewrite <- (Z2Nat.id n) at 2 by lia. apply seek_bytes_spec, u32_range. Qed.

(** rawmemchr relies on the character being there. *)
Lemma rawmemchr_spec fuel m s c k : is_u32 s -> 0 <= k < Z.of_nat fuel -> loadb m (s + k) = u8 c -> misses m s 1 k (u8 c) ->
  rawmemchr fuel m s c = Some (u32 (s + k)) /\ rawmemchr_small fuel m s c = Some (u32 (s + k)).
Proof.
  intros Hs Hk Hc Hno. assert (first_stop m (fun b => b =? u8 c) s k) as Hst.
  { split; [lia|]. split; [by apply Z.eqb_eq|]. intros t Ht. apply Z.eqb_neq. rewrite <- (Z.mul_1_l t). by apply Hno. }
  split; [|by apply bytes_until_spec; [done|done|lia]].
  eapply search_spec; [intros a; apply DETECTCHAR_word, u8_range|done|exact Hst|lia|done|done].
Qed.

(** memcmp subtracts the first two bytes that differ. *)
Lemma bytes_u32 m n : forall p, bytes m (u32 p) n = bytes m p n.
Proof.
  intros p. apply bytes_ext. intros k Hk. by rewrite <- loadb_u32, u32_add_l, loadb_u32.
Qed.
Lemma bytes_add m a b : forall p, bytes m p (a + b) = bytes m p a ++ bytes m (p + Z.of_nat a) b.
Proof.
  induction a as [|a IH]; intros p; [by rewrite Z.add_0_r|]. cbn [Nat.add bytes app]. rewrite IH. do 3 f_equal. lia.
Qed.
Lemma memcmp_bytes_spec n : forall m s1 s2, memcmp_bytes n m s1 s2 = diff (bytes m s1 n) (bytes m s2 n).
Proof.
  induction n as [|n IH]; intros m s1 s2; [done|]. cbn [memcmp_bytes bytes diff]. destruct (loadb m s1 =? loadb m s2); [|done].
  cbn [negb]. by rewrite IH, !bytes_u32.
Qed.
Lemma memcmp_words_spec fuel : forall m s1 s2 n, 0 <= n < Z.of_nat fuel -> exists j a1 a2, 0 <= j <= n /\
  memcmp_words fuel m s1 s2 n = Some (a1, a2, n - j) /\ u32 a1 = u32 (s1 + j) /\ u32 a2 = u32 (s2 + j) /\ bytes m s1 (Z.to_nat j) = bytes m s2 (Z.to_nat j).
Proof.
  induction fuel as [|fuel IH]; intros m s1 s2 n Hn; [lia|]. cbn [memcmp_words].
  assert (exists j a1 a2, 0 <= j <= n /\ Some (s1, s2, n) = Some (a1, a2, n - j) /\ u32 a1 = u32 (s1 + j) /\ u32 a2 = u32 (s2 + j) /\
    bytes m s1 (Z.to_nat j) = bytes m s2 (Z.to_nat j)) as Hstop by (exists 0, s1, s2; rewrite Z.sub_0_r, !Z.add_0_r; split; [lia|done]).
  destruct (Z.geb_spec n 4); [|done]. destruct (Z.eqb_spec (load32 m s1) (load32 m s2)) as [E|]; [|done]. cbn [negb].
  destruct (IH m (u32 (s1 + 4)) (u32 (s2 + 4)) (n - 4) ltac:(lia)) as (j & a1 & a2 & Hj & -> & H1 & H2 & Hb). exists (4 + j), a1, a2.
  rewrite u32_add_l in H1, H2. rewrite !bytes_u32 in Hb. replace (Z.to_nat (4 + j)) with (4 + Z.to_nat j)%nat by lia. rewrite !bytes_add. change (Z.of_nat 4) with 4. rewrite Hb, H1, H2, Z.sub_add_distr, !Z.add_assoc.
  split; [lia|]. split_and!; try done. f_equal. apply bytes_ext. intros k Hk. by apply load32_equal.
Qed.
Lemma memcmp_spec m s1 s2 n : 0 <= n ->
  memcmp m s1 s2 n = Some (diff (bytes m s1 (Z.to_nat n)) (bytes m s2 (Z.to_nat n))) /\
  memcmp_small m s1 s2 n = diff (bytes m s1 (Z.to_nat n)) (bytes m s2 (Z.to_nat n)).
Proof.
  intros Hn. split; [|apply memcmp_bytes_spec]. unfold memcmp. destruct (_ && _); cbn [mbind option_bind]; [|by rewrite memcmp_bytes_spec].
  destruct (memcmp_words_spec (S (Z.to_nat n)) m s1 s2 n ltac:(lia)) as (j & a1 & a2 & Hj & -> & H1 & H2 & Hb). cbn [mbind option_bind].
  rewrite memcmp_bytes_spec, <- (bytes_u32 m _ a1), <- (bytes_u32 m _ a2), H1, H2, !bytes_u32. f_equal.
  replace (Z.to_nat n) with (Z.to_nat j + Z.to_nat (n - j))%nat by lia. rewrite !bytes_add, Hb, diff_app. by rewrite Z2Nat.id by lia.
Qed.

(** ** Comparing without case *)

(** The comparison of signed characters tells apart what tolower of the bytes tells apart. *)
Abbreviation lower := NewlibCtype.tolower.
Lemma lower_signed c : is_u8 c -> NewlibCtype.tolower (s8 c) = s8 (lower c) /\ is_u8 (lower c).
Proof.
  intros Hc. assert (forallb (fun c => (NewlibCtype.tolower (s8 c) =? s8 (lower c)) && (0 <=? lower c) && (lower c <? 256)) (seqZ 0 256) = true) as H by (vm_compute; reflexivity).
  rewrite forallb_forall in H. specialize (H c). rewrite <- list_elem_of_In, elem_of_seqZ in H. unfold is_u8 in *. specialize (H ltac:(lia)).
  rewrite !andb_true_iff, Z.eqb_eq, Z.leb_le, Z.ltb_lt in H. tauto.
Qed.
Lemma s8_inj a b : is_u8 a -> is_u8 b -> s8 a = s8 b <-> a = b.
Proof. unfold is_u8, s8. cbv zeta. intros Ha Hb. rewrite !u8_small by done. zcases. Qed.
Lemma case_diff_zero m s1 s2 : case_diff m s1 s2 = 0 <-> lower (loadb m s1) = lower (loadb m s2).
Proof.
  unfold case_diff. destruct (lower_signed (loadb m s1) (loadb_range _ _)) as [-> H1]. destruct (lower_signed (loadb m s2) (loadb_range _ _)) as [-> H2].
  rewrite <- (s8_inj (lower (loadb m s1)) (lower (loadb m s2))) by done. lia.
Qed.
Lemma lower_zero c : is_u8 c -> (lower c =? 0) = (c =? 0).
Proof.
  intros Hc. assert (forallb (fun c => Bool.eqb (lower c =? 0) (c =? 0)) (seqZ 0 256) = true) as H by (vm_compute; reflexivity).
  rewrite forallb_forall in H. apply eqb_prop, H, list_elem_of_In, elem_of_seqZ. unfold is_u8 in Hc. lia.
Qed.
Lemma case_end_zero m s2 : case_end m s2 = (loadb m s2 =? 0).
Proof.
  unfold case_end. destruct (lower_signed (loadb m s2) (loadb_range _ _)) as [-> H2]. rewrite <- (lower_zero (loadb m s2)) by apply loadb_range.
  apply eq_true_iff_eq. rewrite !Z.eqb_eq. change 0 with (s8 0) at 1. rewrite s8_inj; [done|done|unfold is_u8; lia].
Qed.

(** strncasecmp is zero exactly when the first [n] characters agree without case, up to a NUL. *)
Lemma strncasecmp_zero n : forall m s1 s2, (forall t, 0 <= t < Z.of_nat n -> loadb m (s2 + t) <> 0) ->
  strncasecmp_loop n m s1 s2 = 0 <-> forall t, 0 <= t < Z.of_nat n -> lower (loadb m (s1 + t)) = lower (loadb m (s2 + t)).
Proof.
  induction n as [|n IH]; intros m s1 s2 Hn; cbn [strncasecmp_loop]; [split; [lia|done]|].
  assert (forall s t, loadb m (u32 (s + 1) + t) = loadb m (s + (1 + t))) as Ea by (intros s t; rewrite <- loadb_u32, u32_add_l, loadb_u32; f_equal; lia).
  rewrite case_end_zero. pose proof (Hn 0 ltac:(lia)) as H0. rewrite Z.add_0_r in H0. rewrite (proj2 (Z.eqb_neq (loadb m s2) 0)), orb_false_r by done.
  destruct (Z.eqb_spec (case_diff m s1 s2) 0) as [E|E]; cbn [negb].
  - apply case_diff_zero in E. rewrite IH by (intros t Ht; rewrite Ea; apply Hn; lia). split; intros H t Ht.
    + destruct (Z.eq_dec t 0) as [->|]; [by rewrite !Z.add_0_r|]. replace t with (1 + (t - 1)) by lia. rewrite <- !Ea. apply H. lia.
    + rewrite !Ea. apply H. lia.
  - split; [done|]. intros H. apply case_diff_zero. specialize (H 0 ltac:(lia)). by rewrite !Z.add_0_r in H.
Qed.

(** ** The theorems *)

Lemma found_first_unique m s dir n d r1 r2 : found_first m s dir n d r1 -> found_first m s dir n d r2 -> r1 = r2.
Proof.
  intros [(k1 & H1 & E1 & N1 & ->)|(N1 & ->)] [(k2 & H2 & E2 & N2 & ->)|(N2 & ->)]; [|by destruct (N2 k1 H1)|by destruct (N1 k2 H2)|done].
  destruct (Z.lt_trichotomy k1 k2) as [Hlt|[->|Hlt]]; [by destruct (N2 k1 ltac:(lia))|done|by destruct (N1 k2 ltac:(lia))].
Qed.

(** The searches of a string find what they look for, a word at a time or byte by byte.  On
    every string, aligned or not, both versions of strlen end and return its length, and strnlen
    the length or the bound; both versions of strchr return the first place of the character's low
    byte, the terminator's place included, or NULL, and strchrnul the terminator's place instead
    of NULL; strrchr returns the last place, unless the [int] given is not zero and its low byte is. *)
Theorem string_scans (fuel : nat) (m : Mem) (s n i : Z) (l : list Z) :
  string_in m s l -> 0 < s -> Z.of_nat (length l) < Z.of_nat fuel -> 0 <= n < 4294967296 ->
  let len := Z.of_nat (length l) in
  strlen fuel m s = Some len /\ strlen_small fuel m s = Some len /\ strnlen m s n = Z.min n len /\
  (exists r, strchr fuel m s i = Some r /\ strchr_small fuel m s i = Some r /\ found_first m s 1 (len + 1) (u8 i) r /\
     strchrnul fuel m s i = Some (if r =? 0 then s + len else r)) /\
  (i = 0 \/ u8 i <> 0 -> exists r, strrchr fuel m s i = Some r /\ found_first m (s + len) (-1) (len + 1) (u8 i) r).
Proof.
  intros Hs Hpos Hf Hn len. destruct (strlen_measures fuel m s l Hs Hf) as [E1 E2]. split; [done|]. split; [done|]. split; [by apply strnlen_spec|]. split.
  - destruct (strchr_spec fuel m s l i Hs Hf) as (r & Er & Er2 & Hr). exists r. split; [done|]. split; [done|]. split; [done|]. by apply strchrnul_spec.
  - intros Hi. by apply strrchr_spec.
Qed.

(** The searches and the comparison of memory agree with the byte-by-byte versions.  memchr and
    memrchr end and return the first and the last of [n] bytes that equals the character's low
    byte, or NULL, in both versions; rawmemchr returns the first place of a character that is
    there; memcmp returns the difference of the first two bytes that differ, or 0. *)
Theorem memory_scans (fuel : nat) (m : Mem) (s s2 c n : Z) :
  is_u32 s -> 0 <= n ->
  (exists r, memchr m s c n = Some r /\ memchr_small m s c n = r /\ found_first m s 1 n (u8 c) r) /\
  (exists r, memrchr m s c n = Some r /\ memrchr_small m s c n = r /\ found_first m (u32 (s + n - 1)) (-1) n (u8 c) r) /\
  (forall k, 0 <= k < Z.of_nat fuel -> loadb m (s + k) = u8 c -> misses m s 1 k (u8 c) ->
     rawmemchr fuel m s c = Some (u32 (s + k)) /\ rawmemchr_small fuel m s c = Some (u32 (s + k))) /\
  (let d := diff (bytes m s (Z.to_nat n)) (bytes m s2 (Z.to_nat n)) in memcmp m s s2 n = Some d /\ memcmp_small m s s2 n = d).
Proof.
  intros Hs Hn. split; [|split; [|split]].
  - destruct (memchr_spec m s c n Hs Hn) as (r & E & Hr). exists r. split; [done|]. split; [|done]. eapply found_first_unique; [by apply memchr_small_spec|done].
  - destruct (memrchr_spec m s c n Hn) as (r & E & Hr). exists r. split; [done|]. split; [|done]. eapply found_first_unique; [by apply memrchr_small_spec|done].
  - intros k Hk Hc Hno. by apply rawmemchr_spec.
  - by apply memcmp_spec.
Qed.

(** ** Concrete strings *)

(** "a,b,c" at 4097, which is not aligned, and "a,b;c" at 4112. *)
Definition ex_scan : Mem := storel (storel (fun _ => 0) 4097 (str "a,b,c")) 4112 (str "a,b;c").
Lemma ex_scan_string : string_in ex_scan 4097 (str "a,b,c").
Proof. split; [vm_compute; repeat split; discriminate|split; vm_compute; congruence]. Defined.
Lemma string_scans_witness : strlen 9 ex_scan 4097 = Some 5 /\ strnlen ex_scan 4097 3 = 3 /\ exists r, strchr 9 ex_scan 4097 44 = Some r /\ r = 4098.
Proof.
  destruct (string_scans 9 ex_scan 4097 3 44 _ ex_scan_string ltac:(lia) ltac:(vm_compute; reflexivity) ltac:(lia)) as (E1 & _ & E2 & (r & E3 & _) & _).
  split; [exact E1|]. split; [exact E2|]. exists r. split; [exact E3|]. vm_compute in E3. by injection E3 as <-.
Defined.
Lemma memory_scans_witness : (exists r, memrchr ex_scan 4097 44 5 = Some r /\ r = 4100) /\ memcmp ex_scan 4097 4112 5 = Some (chr "," - chr ";").
Proof.
  destruct (memory_scans 9 ex_scan 4097 4112 44 5 ltac:(unfold is_u32; lia) ltac:(lia)) as (_ & (r & E & _) & _ & E2 & _). split.
  - exists r. split; [exact E|]. vm_compute in E. by injection E as <-.
  - rewrite E2. vm_compute. reflexivity.
Defined.
End NewlibScan.
