(* ===== verification/NewlibCopy.v ===== *)
(** newlib/newlib/libc/string: the routines that write memory: memcpy, mempcpy, memmove, memset,
    stpcpy, stpncpy, strcat, strncat, strlcpy and strlcat.

    As in NewlibString, [_small] names the versions for PREFER_SIZE_OVER_SPEED.  memcpy and mempcpy
    are called for ranges that do not overlap; memmove for any. *)

From S2P Require Import Prelude Libk NewlibString NewlibScan.

Module NewlibCopy.
Import NewlibString.
Import NewlibScan(bytes_until, words, HASNULL, is_nul).

(** ** Copying *)

(** [while (len0--) *dst++ = *src++;] *)
Fixpoint copy_bytes (len0 : nat) (m : Mem) (dst src : Z) : Mem :=
  match len0 with
  | O => m
  | S len0 => copy_bytes len0 (storeb m dst (loadb m src)) (u32 (dst + 1)) (u32 (src + 1))
  end.
(** [while (length--) *--dst = *--src;] *)
Fixpoint copy_back (length : nat) (m : Mem) (dst src : Z) : Mem :=
  match length with
  | O => m
  | S length => let dst := u32 (dst - 1) in let src := u32 (src - 1) in copy_back length (storeb m dst (loadb m src)) dst src
  end.
(** [*aligned_dst++ = *aligned_src++;] *)
Definition copy_word '((m, dst, src) : Mem * Z * Z) : Mem * Z * Z :=
  (store32 m dst (load32 m src), u32 (dst + 4), u32 (src + 4)).
(** [while (len0 >= BIGBLOCKSIZE)], four words a round. *)
Fixpoint copy_big (fuel : nat) (s : Mem * Z * Z) (len0 : Z) : option (Mem * Z * Z * Z) :=
  match fuel with
  | O => None
  | S fuel =>
      if len0 >=? 16 then copy_big fuel (copy_word (copy_word (copy_word (copy_word s)))) (len0 - 16)
      else Some (s, len0)
  end.
(** [while (len0 >= LITTLEBLOCKSIZE)] *)
Fixpoint copy_little (fuel : nat) (s : Mem * Z * Z) (len0 : Z) : option (Mem * Z * Z * Z) :=
  match fuel with
  | O => None
  | S fuel => if len0 >=? 4 then copy_little fuel (copy_word s) (len0 - 4) else Some (s, len0)
  end.
(** The body that memcpy, mempcpy and the last branch of memmove share. *)
Definition copy_forward (fuel : nat) (m : Mem) (dst src len0 : Z) : option (Mem * Z) :=
  '(m, dst, src, len0) ← (if negb (len0 <? 16) && (UNALIGNED src dst =? 0) then
                            '(s, len0) ← copy_big fuel (m, dst, src) len0; copy_little fuel s len0
                          else Some (m, dst, src, len0));
  Some (copy_bytes (Z.to_nat len0) m dst src, u32 (dst + len0)).

Definition memcpy_small (m : Mem) (dst0 src0 len0 : Z) : Mem * Z := (copy_bytes (Z.to_nat len0) m dst0 src0, dst0).
Definition memcpy (fuel : nat) (m : Mem) (dst0 src0 len0 : Z) : option (Mem * Z) :=
  '(m, _) ← copy_forward fuel m dst0 src0 len0; Some (m, dst0).
Definition mempcpy_small (m : Mem) (dst0 src0 len0 : Z) : Mem * Z := (copy_bytes (Z.to_nat len0) m dst0 src0, u32 (dst0 + len0)).
Definition mempcpy (fuel : nat) (m : Mem) (dst0 src0 len0 : Z) : option (Mem * Z) := copy_forward fuel m dst0 src0 len0.

Definition overlaps_up (dst src length : Z) : bool := (src <? dst) && (dst <? u32 (src + length)).
Definition memmove_small (m : Mem) (dst_void src_void length : Z) : Mem * Z :=
  (if overlaps_up dst_void src_void length then copy_back (Z.to_nat length) m (u32 (dst_void + length)) (u32 (src_void + length))
   else copy_bytes (Z.to_nat length) m dst_void src_void, dst_void).
Definition memmove (fuel : nat) (m : Mem) (dst_void src_void length : Z) : option (Mem * Z) :=
  if overlaps_up dst_void src_void length
  then Some (copy_back (Z.to_nat length) m (u32 (dst_void + length)) (u32 (src_void + length)), dst_void)
  else '(m, _) ← copy_forward fuel m dst_void src_void length; Some (m, dst_void).

(** ** Filling *)

(** [while (n--) *s++ = (char) c;] *)
Fixpoint fill_bytes (n : nat) (m : Mem) (s c : Z) : Mem :=
  match n with O => m | S n => fill_bytes n (storeb m s c) (u32 (s + 1)) c end.
(** The alignment loop: the memory, and where it stands unless everything is filled. *)
Fixpoint fill_align (fuel : nat) (m : Mem) (s c n : Z) : option (Mem * option (Z * Z)) :=
  match fuel with
  | O => None
  | S fuel =>
      if NewlibScan.UNALIGNED s then
        if negb (n =? 0) then fill_align fuel (storeb m s c) (u32 (s + 1)) c (n - 1) else Some (m, None)
      else Some (m, Some (s, n))
  end.
Definition fill_word (buffer : Z) '((m, a) : Mem * Z) : Mem * Z := (store32 m a buffer, u32 (a + 4)).
Fixpoint fill_big (fuel : nat) (buffer : Z) (s : Mem * Z) (n : Z) : option (Mem * Z * Z) :=
  match fuel with
  | O => None
  | S fuel =>
      if n >=? 16 then fill_big fuel buffer (fill_word buffer (fill_word buffer (fill_word buffer (fill_word buffer s)))) (n - 16)
      else Some (s, n)
  end.
Fixpoint fill_little (fuel : nat) (buffer : Z) (s : Mem * Z) (n : Z) : option (Mem * Z * Z) :=
  match fuel with
  | O => None
  | S fuel => if n >=? 4 then fill_little fuel buffer (fill_word buffer s) (n - 4) else Some (s, n)
  end.
Definition memset_small (mem : Mem) (m c n : Z) : Mem * Z := (fill_bytes (Z.to_nat n) mem m c, m).
Definition memset (fuel : nat) (mem : Mem) (m c n : Z) : option (Mem * Z) :=
  let d := Z.land c 0xff in
  '(mem, rest) ← fill_align fuel mem m c n;
  match rest with
  | None => Some (mem, m)
  | Some (s, n) =>
      '(mem, s, n) ← (if negb (TOO_SMALL n) then
                        let buffer := Z.lor (Z.shiftl d 8) d in
                        let buffer := Z.lor buffer (Z.shiftl buffer 16) in
                        '(t, n) ← fill_big fuel buffer (mem, s) n; fill_little fuel buffer t n
                      else Some (mem, s, n));
      Some (fill_bytes (Z.to_nat n) mem s c, m)
  end.

(** ** Strings *)

(** [while (( *dst++ = *src++)) ; return --dst;] *)
Fixpoint stpcpy_bytes (fuel : nat) (m : Mem) (dst src : Z) : option (Mem * Z) :=
  match fuel with
  | O => None
  | S fuel =>
      let c := loadb m src in
      let m := storeb m dst c in
      if c =? 0 then Some (m, u32 (u32 (dst + 1) - 1)) else stpcpy_bytes fuel m (u32 (dst + 1)) (u32 (src + 1))
  end.
Definition stpcpy_small := stpcpy_bytes.
Definition stpcpy (fuel : nat) (m : Mem) (dst src : Z) : option (Mem * Z) :=
  '(m, dst, src) ← (if UNALIGNED src dst =? 0 then strcpy_words fuel m dst src else Some (m, dst, src));
  stpcpy_bytes fuel m dst src.

(** The byte loop with [count] rounds left; the fill behind it; and what is returned. *)
Fixpoint stpncpy_bytes (count : nat) (m : Mem) (dst src : Z) : Mem * Z :=
  match count with
  | O => (m, dst)
  | S count =>
      let c := loadb m src in
      let m := storeb m dst c in
      if c =? 0 then
        let ret := u32 (u32 (dst + 1) - 1) in
        (zero_fill count m (u32 (dst + 1)), if ret =? 0 then u32 (dst + 1 + Z.of_nat count) else ret)
      else stpncpy_bytes count m (u32 (dst + 1)) (u32 (src + 1))
  end.
Definition stpncpy_small (m : Mem) (dst src count : Z) : Mem * Z := stpncpy_bytes (Z.to_nat count) m dst src.
Definition stpncpy (fuel : nat) (m : Mem) (dst src count : Z) : option (Mem * Z) :=
  '(m, dst, src, count) ← (if (UNALIGNED src dst =? 0) && negb (TOO_SMALL count)
                           then strncpy_words fuel m dst src count else Some (m, dst, src, count));
  Some (stpncpy_bytes (Z.to_nat count) m dst src).

(** The place behind a string, a word at a time while the pointer is aligned. *)
Definition skip_string (fuel : nat) (m : Mem) (s1 : Z) : option Z :=
  s1 ← (if NewlibScan.UNALIGNED s1 then Some s1 else words m HASNULL fuel s1);
  bytes_until m is_nul fuel s1.
Definition strcat_small (fuel : nat) (m : Mem) (s1 s2 : Z) : option (Mem * Z) :=
  s ← bytes_until m is_nul fuel s1;
  m ← strcpy_bytes fuel m s s2;
  Some (m, s1).
Definition strcat (fuel : nat) (m : Mem) (s1 s2 : Z) : option (Mem * Z) :=
  s ← skip_string fuel m s1;
  '(m, _) ← strcpy fuel m s s2;
  Some (m, s1).

(** [while (n-- != 0 && ( *s1++ = *s2++)) if (n == 0) *s1 = 0;] *)
Fixpoint strncat_loop (n : nat) (m : Mem) (s1 s2 : Z) : Mem :=
  match n with
  | O => m
  | S n =>
      let c := loadb m s2 in
      let m := storeb m s1 c in
      if c =? 0 then m
      else
        let s1 := u32 (s1 + 1) in
        strncat_loop n (if (n =? 0)%nat then storeb m s1 0 else m) s1 (u32 (s2 + 1))
  end.
Definition strncat_small (fuel : nat) (m : Mem) (s1 s2 n : Z) : option (Mem * Z) :=
  s ← bytes_until m is_nul fuel s1; Some (strncat_loop (Z.to_nat n) m s s2, s1).
Definition strncat (fuel : nat) (m : Mem) (s1 s2 n : Z) : option (Mem * Z) :=
  s ← skip_string fuel m s1; Some (strncat_loop (Z.to_nat n) m s s2, s1).

(** [do { if (( *d++ = *s++) == 0) break; } while (--n != 0);]: the memory, [d], [s] and [n]. *)
Fixpoint strlcpy_loop (n : nat) (m : Mem) (d s : Z) : Mem * Z * Z * Z :=
  match n with
  | O => (m, d, s, 0)
  | S n' =>
      let c := loadb m s in
      let m := storeb m d c in
      if c =? 0 then (m, u32 (d + 1), u32 (s + 1), Z.of_nat n) else strlcpy_loop n' m (u32 (d + 1)) (u32 (s + 1))
  end.
Definition strlcpy (fuel : nat) (m : Mem) (dst src siz : Z) : option (Mem * Z) :=
  let '(m, d, s, n) :=
    if negb (siz =? 0) then if negb (siz - 1 =? 0) then strlcpy_loop (Z.to_nat (siz - 1)) m dst src else (m, dst, src, 0)
    else (m, dst, src, 0) in
  if n =? 0 then
    let m := if negb (siz =? 0) then storeb m d 0 else m in
    s ← bytes_until m is_nul fuel s;
    Some (m, u32 (u32 (s + 1) - src - 1))
  else Some (m, u32 (s - src - 1)).

(** [while ( *s != 0) { if (n != 1) { *d++ = *s; n--; } s++; }]: the memory, [d] and [s]. *)
Fixpoint strlcat_loop (fuel : nat) (m : Mem) (d s n : Z) : option (Mem * Z * Z) :=
  match fuel with
  | O => None
  | S fuel =>
      if loadb m s =? 0 then Some (m, d, s)
      else if negb (n =? 1) then strlcat_loop fuel (storeb m d (loadb m s)) (u32 (d + 1)) (u32 (s + 1)) (n - 1)
      else strlcat_loop fuel m d (u32 (s + 1)) n
  end.
Definition strlcat (fuel : nat) (m : Mem) (dst src siz : Z) : option (Mem * Z) :=
  let d := NewlibScan.strnlen_loop (Z.to_nat siz) m dst in
  let dlen := u32 (d - dst) in
  let n := siz - dlen in
  if n =? 0 then l ← NewlibScan.strlen fuel m src; Some (m, u32 (dlen + l))
  else
    '(m, d, s) ← strlcat_loop fuel m d src n;
    Some (storeb m d 0, u32 (dlen + (s - src))).

(** ** Copying memory *)

(** Ranges below the top of the address space. *)
Definition in_space (dst src n : Z) : Prop := 0 <= n /\ 0 <= dst /\ 0 <= src /\ dst + n < 4294967296 /\ src + n < 4294967296.
(** ... that may be copied upwards. *)
Definition upwards (dst src n : Z) : Prop := in_space dst src n /\ (dst <= src \/ src + n <= dst).

Lemma copied_more m m1 m2 dst src k n : upwards dst src n -> 0 <= k <= n -> copied m m1 dst src k -> copied m1 m2 (dst + k) (src + k) (n - k) ->
  copied m m2 dst src n.
Proof. intros ((? & ? & ? & ? & ?) & ?) Hk. apply copied_app_below; lia. Qed.

Lemma copy_bytes_spec n : forall m dst src, upwards dst src (Z.of_nat n) -> copied m (copy_bytes n m dst src) dst src (Z.of_nat n).
Proof.
  induction n as [|n IH]; intros m dst src Hu; [apply copied_0|]. cbn [copy_bytes]. pose proof Hu as ((? & ? & ? & ? & ?) & ?).
  rewrite !u32_small by (unfold is_u32; lia). apply (copied_more m (storeb m dst (loadb m src)) _ dst src 1); [done|lia|apply copied_byte; lia|].
  replace (Z.of_nat (S n) - 1) with (Z.of_nat n) by lia. apply IH. split; [split_and!; lia|lia].
Qed.

(** The state of a word loop that has copied [k] bytes. *)
Definition copied_to (m : Mem) (dst src k : Z) (s : Mem * Z * Z) : Prop := exists mk, s = (mk, dst + k, src + k) /\ copied m mk dst src k.

Lemma copy_word_spec m dst src n k s : upwards dst src n -> 0 <= k -> k + 4 <= n -> copied_to m dst src k s -> copied_to m dst src (k + 4) (copy_word s).
Proof.
  intros ((? & ? & ? & ? & ?) & Hud) Hk Hn (mk & -> & Hc). eexists. split.
  - unfold copy_word. rewrite !u32_small by (unfold is_u32; lia). by rewrite !Z.add_assoc.
  - apply (copied_more m mk _ dst src k); [split; [split_and!; lia|lia]|lia|done|]. replace (k + 4 - k) with 4 by lia. apply copied_word; lia.
Qed.
Lemma copy_big_spec m dst src n fuel : upwards dst src n -> forall k s, 0 <= k <= n -> n - k < Z.of_nat fuel -> copied_to m dst src k s ->
  exists k' s', copy_big fuel s (n - k) = Some (s', n - k') /\ 0 <= k' <= n /\ copied_to m dst src k' s'.
Proof.
  intros Hu. induction fuel as [|fuel IH]; intros k s Hk Hf Hs; [lia|]. cbn [copy_big]. destruct (Z.geb_spec (n - k) 16); [|by exists k, s].
  replace (n - k - 16) with (n - (k + 4 + 4 + 4 + 4)) by lia. apply IH; [lia|lia|].
  repeat (apply (copy_word_spec m dst src n); [done|lia|lia|]). done.
Qed.
Lemma copy_little_spec m dst src n fuel : upwards dst src n -> forall k s, 0 <= k <= n -> n - k < Z.of_nat fuel -> copied_to m dst src k s ->
  exists k' s', copy_little fuel s (n - k) = Some (s', n - k') /\ 0 <= k' <= n /\ copied_to m dst src k' s'.
Proof.
  intros Hu. induction fuel as [|fuel IH]; intros k s Hk Hf Hs; [lia|]. cbn [copy_little]. destruct (Z.geb_spec (n - k) 4); [|by exists k, s].
  replace (n - k - 4) with (n - (k + 4)) by lia. apply IH; [lia|lia|]. apply (copy_word_spec m dst src n); [done|lia|lia|done].
Qed.
Lemma copy_forward_spec fuel m dst src n : upwards dst src n -> n < Z.of_nat fuel ->
  exists m', copy_forward fuel m dst src n = Some (m', dst + n) /\ copied m m' dst src n.
Proof.
  intros Hu Hf. pose proof Hu as ((? & ? & ? & ? & ?) & Hud). unfold copy_forward.
  assert (forall k mk, 0 <= k <= n -> copied m mk dst src k -> copied m (copy_bytes (Z.to_nat (n - k)) mk (dst + k) (src + k)) dst src n) as Hrest.
  { intros k mk Hk Hc. apply (copied_more m mk _ dst src k); [done|done|done|]. rewrite <- (Z2Nat.id (n - k)) at 2 by lia.
    apply copy_bytes_spec. rewrite Z2Nat.id by lia. split; [split_and!; lia|lia]. }
  destruct (_ && _); cbn [mbind option_bind].
  - destruct (copy_big_spec m dst src n fuel Hu 0 (m, dst, src)) as (k & s & E & Hk & Hs);
      [lia|lia|exists m; rewrite !Z.add_0_r; split; [done|apply copied_0]|]. rewrite Z.sub_0_r in E. rewrite E. cbn [mbind option_bind].
    destruct (copy_little_spec m dst src n fuel Hu k s) as (k' & s' & -> & Hk' & (mk & -> & Hc)); [lia|lia|done|]. cbn [mbind option_bind].
    eexists. split; [|by apply Hrest]. replace (dst + k' + (n - k')) with (dst + n) by lia. by rewrite u32_small by (unfold is_u32; lia).
  - eexists. split; [rewrite u32_small by (unfold is_u32; lia); done|]. specialize (Hrest 0 m ltac:(lia) (copied_0 _ _ _)).
    by rewrite Z.sub_0_r, !Z.add_0_r in Hrest.
Qed.

(** Downwards, for targets that overlap the source from above. *)
Lemma copy_back_spec n : forall m dst src, in_space dst src (Z.of_nat n) -> src <= dst -> copied m (copy_back n m (dst + Z.of_nat n) (src + Z.of_nat n)) dst src (Z.of_nat n).
Proof.
  induction n as [|n IH]; intros m dst src (? & ? & ? & ? & ?) Hle; [apply copied_0|]. cbn [copy_back].
  replace (dst + Z.of_nat (S n) - 1) with (dst + Z.of_nat n) by lia. replace (src + Z.of_nat (S n) - 1) with (src + Z.of_nat n) by lia.
  rewrite !u32_small by (unfold is_u32; lia). set (m1 := storeb m (dst + Z.of_nat n) (loadb m (src + Z.of_nat n))).
  assert (forall x, is_u32 x -> loadb m1 x = if x =? dst + Z.of_nat n then loadb m (src + Z.of_nat n) else loadb m x) as E1.
  { intros x Hx. unfold m1. rewrite Libk.loadb_storeb by (unfold is_u32 in *; lia). by rewrite (u8_small (loadb _ _)) by apply loadb_range. }
  intros x Hx. rewrite (IH m1 dst src) by (done || split_and!; lia).
  destruct (Z.leb_spec dst x); simpl; [destruct (Z.ltb_spec x (dst + Z.of_nat n)); simpl|].
  - rewrite E1 by (unfold is_u32 in *; lia). zcases.
  - rewrite E1 by done. destruct (Z.eqb_spec x (dst + Z.of_nat n)) as [->|]; [|zcases]. rewrite (proj2 (Z.ltb_lt _ _)) by lia. f_equal. lia.
  - rewrite E1 by done. zcases.
Qed.

Lemma memmove_spec fuel m dst src n : in_space dst src n -> n < Z.of_nat fuel -> exists m1 m2,
  memmove fuel m dst src n = Some (m1, dst) /\ memmove_small m dst src n = (m2, dst) /\ copied m m1 dst src n /\ copied m m2 dst src n.
Proof.
  intros Hn Hf. pose proof Hn as (? & ? & ? & ? & ?). unfold memmove, memmove_small, overlaps_up. rewrite !u32_small by (unfold is_u32; lia).
  destruct (Z.ltb_spec src dst) as [Hlt|]; cbn [andb]; [destruct (Z.ltb_spec dst (src + n))|].
  - assert (copied m (copy_back (Z.to_nat n) m (dst + n) (src + n)) dst src n) as Hc.
    { rewrite <- (Z2Nat.id n) at 2 3 4 by lia. apply copy_back_spec; [by rewrite Z2Nat.id by lia|lia]. }
    do 2 eexists. done.
  - assert (upwards dst src n) as Hu by (split; [done|lia]). destruct (copy_forward_spec fuel m dst src n Hu Hf) as (m' & -> & Hc).
    cbn [mbind option_bind]. do 2 eexists. split; [done|]. split; [done|]. split; [done|]. rewrite <- (Z2Nat.id n) at 2 by lia.
    apply copy_bytes_spec. by rewrite Z2Nat.id by lia.
  - assert (upwards dst src n) as Hu by (split; [done|lia]). destruct (copy_forward_spec fuel m dst src n Hu Hf) as (m' & -> & Hc).
    cbn [mbind option_bind]. do 2 eexists. split; [done|]. split; [done|]. split; [done|]. rewrite <- (Z2Nat.id n) at 2 by lia.
    apply copy_bytes_spec. by rewrite Z2Nat.id by lia.
Qed.

Lemma memcpy_copied fuel m dst src n : upwards dst src n -> n < Z.of_nat fuel -> exists m1 m2,
  memcpy fuel m dst src n = Some (m1, dst) /\ mempcpy fuel m dst src n = Some (m1, dst + n) /\ copied m m1 dst src n /\
  memcpy_small m dst src n = (m2, dst) /\ mempcpy_small m dst src n = (m2, dst + n) /\ copied m m2 dst src n.
Proof.
  intros Hu Hf. pose proof Hu as ((? & ? & ? & ? & ?) & ?). unfold memcpy, mempcpy, memcpy_small, mempcpy_small.
  destruct (copy_forward_spec fuel m dst src n Hu Hf) as (m' & -> & Hc). cbn [mbind option_bind]. rewrite u32_small by (unfold is_u32; lia).
  do 2 eexists. do 5 (split; [done|]). rewrite <- (Z2Nat.id n) at 2 by lia. apply copy_bytes_spec. by rewrite Z2Nat.id by lia.
Qed.

(** ** Filling memory *)

Definition filled (m m' : Mem) (s n c : Z) : Prop :=
  forall x, is_u32 x -> loadb m' x = if (s <=? x) && (x <? s + n) then u8 c else loadb m x.

Lemma filled_0 m s c : filled m m s 0 c.
Proof. intros x Hx. zcases. Qed.
Lemma filled_app m m1 m2 s k n c : 0 <= k <= n -> filled m m1 s k c -> filled m1 m2 (s + k) (n - k) c -> filled m m2 s n c.
Proof. intros Hk F1 F2 x Hx. rewrite F2, F1 by done. zcases. Qed.
Lemma filled_byte m s c : 0 <= s < 4294967296 -> filled m (storeb m s c) s 1 c.
Proof. intros Hs x Hx. rewrite Libk.loadb_storeb by done. zcases. Qed.

Lemma fill_bytes_spec n : forall m s c, 0 <= s -> s + Z.of_nat n < 4294967296 -> filled m (fill_bytes n m s c) s (Z.of_nat n) c.
Proof.
  induction n as [|n IH]; intros m s c Hs Hn; [apply filled_0|]. cbn [fill_bytes]. rewrite u32_small by (unfold is_u32; lia).
  apply (filled_app m (storeb m s c) _ s 1); [lia|apply filled_byte; lia|]. replace (Z.of_nat (S n) - 1) with (Z.of_nat n) by lia. apply IH; lia.
Qed.

(** The buffer holds the character four times. *)
Definition repeats (buffer c : Z) : Prop := forall k, 0 <= k < 4 -> u8 (buffer / 256 ^ k) = u8 c.
Lemma buffer_repeats c : let d := Z.land c 0xff in let buffer := Z.lor (Z.shiftl d 8) d in repeats (Z.lor buffer (Z.shiftl buffer 16)) c.
Proof.
  cbv zeta. change 0xff with (Z.ones 8). rewrite Z.land_ones by lia. change (2 ^ 8) with 256. fold (u8 c). intros k Hk.
  assert (forallb (fun d => forallb (fun k => u8 (Z.lor (Z.lor (Z.shiftl d 8) d) (Z.shiftl (Z.lor (Z.shiftl d 8) d) 16) / 256 ^ k) =? d) (seqZ 0 4)) (seqZ 0 256) = true) as H
    by (vm_compute; reflexivity).
  rewrite forallb_forall in H. specialize (H (u8 c)). rewrite <- list_elem_of_In, elem_of_seqZ in H. pose proof (u8_range c) as Hc. unfold is_u8 in Hc.
  specialize (H ltac:(lia)). rewrite forallb_forall in H. apply Z.eqb_eq, H, list_elem_of_In, elem_of_seqZ. lia.
Qed.

Definition filled_to (m : Mem) (s c k : Z) (t : Mem * Z) : Prop := exists mk, t = (mk, s + k) /\ filled m mk s k c.

Lemma fill_word_spec m s n c buffer k t : repeats buffer c -> 0 <= s -> s + n < 4294967296 -> 0 <= k -> k + 4 <= n -> filled_to m s c k t ->
  filled_to m s c (k + 4) (fill_word buffer t).
Proof.
  intros Hb Hs Hn Hk Hkn (mk & -> & Hf). eexists. split.
  - unfold fill_word. rewrite u32_small by (unfold is_u32; lia). by rewrite Z.add_assoc.
  - apply (filled_app m mk _ s k); [lia|done|]. intros x Hx. rewrite store32_spec by (done || lia).
    replace (k + 4 - k) with 4 by lia. destruct (_ && _) eqn:E; [|done]. apply Hb. revert E. zcases.
Qed.
Lemma fill_big_spec m s n c buffer fuel : repeats buffer c -> 0 <= s -> s + n < 4294967296 -> forall k t, 0 <= k <= n -> n - k < Z.of_nat fuel ->
  filled_to m s c k t -> exists k' t', fill_big fuel buffer t (n - k) = Some (t', n - k') /\ 0 <= k' <= n /\ filled_to m s c k' t'.
Proof.
  intros Hb Hs Hn. induction fuel as [|fuel IH]; intros k t Hk Hf Ht; [lia|]. cbn [fill_big]. destruct (Z.geb_spec (n - k) 16); [|by exists k, t].
  replace (n - k - 16) with (n - (k + 4 + 4 + 4 + 4)) by lia. apply IH; [lia|lia|].
  repeat (apply (fill_word_spec m s n); [done|done|done|lia|lia|]). done.
Qed.
Lemma fill_little_spec m s n c buffer fuel : repeats buffer c -> 0 <= s -> s + n < 4294967296 -> forall k t, 0 <= k <= n -> n - k < Z.of_nat fuel ->
  filled_to m s c k t -> exists k' t', fill_little fuel buffer t (n - k) = Some (t', n - k') /\ 0 <= k' <= n /\ filled_to m s c k' t'.
Proof.
  intros Hb Hs Hn. induction fuel as [|fuel IH]; intros k t Hk Hf Ht; [lia|]. cbn [fill_little]. destruct (Z.geb_spec (n - k) 4); [|by exists k, t].
  replace (n - k - 4) with (n - (k + 4)) by lia. apply IH; [lia|lia|]. apply (fill_word_spec m s n); [done|done|done|lia|lia|done].
Qed.
Lemma fill_align_spec fuel : forall m s c n, 0 <= s -> 0 <= n < Z.of_nat fuel -> s + n < 4294967296 ->
  (exists m', fill_align fuel m s c n = Some (m', None) /\ filled m m' s n c) \/
  (exists m' k, fill_align fuel m s c n = Some (m', Some (s + k, n - k)) /\ 0 <= k <= n /\ filled m m' s k c).
Proof.
  induction fuel as [|fuel IH]; intros m s c n Hs Hn Hsn; [lia|]. cbn [fill_align].
  destruct (NewlibScan.UNALIGNED s); [|right; exists m, 0; rewrite Z.add_0_r, Z.sub_0_r; split; [done|]; split; [lia|apply filled_0]].
  destruct (Z.eqb_spec n 0) as [->|]; cbn [negb]; [left; exists m; split; [done|apply filled_0]|]. rewrite u32_small by (unfold is_u32; lia).
  pose proof (filled_byte m s c ltac:(lia)) as F1.
  destruct (IH (storeb m s c) (s + 1) c (n - 1)) as [(m' & -> & F)|(m' & k & -> & Hk & F)]; [lia..|left|right].
  - exists m'. split; [done|]. apply (filled_app m (storeb m s c) m' s 1); [lia|done|done].
  - exists m', (1 + k). rewrite Z.add_assoc, Z.sub_add_distr. split; [done|]. split; [lia|]. apply (filled_app m (storeb m s c) m' s 1); [lia|done|].
    by replace (1 + k - 1) with k by lia.
Qed.
Lemma memset_filled fuel m s c n : 0 <= s -> 0 <= n < Z.of_nat fuel -> s + n < 4294967296 -> exists m1 m2,
  memset fuel m s c n = Some (m1, s) /\ memset_small m s c n = (m2, s) /\ filled m m1 s n c /\ filled m m2 s n c.
Proof.
  intros Hs Hn Hsn. unfold memset, memset_small.
  assert (filled m (fill_bytes (Z.to_nat n) m s c) s n c) as Hsmall by (rewrite <- (Z2Nat.id n) at 2 by lia; apply fill_bytes_spec; lia).
  destruct (fill_align_spec fuel m s c n Hs Hn Hsn) as [(m' & -> & F)|(m0 & k & -> & Hk & F)]; cbn [mbind option_bind]; [by do 2 eexists|].
  assert (forall j mj, 0 <= j -> k + j <= n -> filled m0 mj (s + k) j c -> filled m (fill_bytes (Z.to_nat (n - k - j)) mj (s + k + j) c) s n c) as Hrest.
  { intros j mj Hj Hkj Fj. apply (filled_app m m0 _ s k); [lia|done|]. apply (filled_app m0 mj _ (s + k) j); [lia|done|].
    rewrite <- (Z2Nat.id (n - k - j)) at 2 by lia. apply fill_bytes_spec; lia. }
  destruct (negb _); cbn [mbind option_bind].
  - destruct (fill_big_spec m0 (s + k) (n - k) c _ fuel (buffer_repeats c) ltac:(lia) ltac:(lia) 0 (m0, s + k)) as (j & t & E & Hj & Ht);
      [lia|lia|exists m0; rewrite Z.add_0_r; split; [done|apply filled_0]|]. cbv zeta in E. rewrite Z.sub_0_r in E. rewrite E. cbn [mbind option_bind].
    destruct (fill_little_spec m0 (s + k) (n - k) c _ fuel (buffer_repeats c) ltac:(lia) ltac:(lia) j t ltac:(lia) ltac:(lia) Ht) as (j' & t' & E' & Hj' & (mj & -> & Fj)).
    cbv zeta in E'. rewrite E'. cbn [mbind option_bind]. do 2 eexists. split; [done|]. split; [done|]. split; [|done]. apply Hrest; [lia|lia|done].
  - do 2 eexists. split; [done|]. split; [done|]. split; [|done]. specialize (Hrest 0 m0 ltac:(lia) ltac:(lia) (filled_0 _ _ _)).
    by rewrite Z.sub_0_r, Z.add_0_r in Hrest.
Qed.

(** ** Strings *)

(** [k] characters of the string at [src], and a NUL behind them, stand at [dst]; nothing else is written. *)
Definition terminated (m m' : Mem) (dst src k : Z) : Prop :=
  forall x, is_u32 x -> loadb m' x = if (dst <=? x) && (x <? dst + k) then loadb m (src + (x - dst)) else if x =? dst + k then 0 else loadb m x.

Lemma string_moved m m' l : forall p q k, string_in m p l -> 0 <= k <= Z.of_nat (length l) -> 0 <= q -> q + k < 4294967296 ->
  (forall j, 0 <= j < k -> loadb m' (q + j) = loadb m (p + j)) -> loadb m' (q + k) = 0 -> string_in m' q (take (Z.to_nat k) l).
Proof.
  induction l as [|c l IH]; intros p q k Hs Hk Hq Hqk He Hz.
  - simpl in Hk. replace k with 0 in * by lia. rewrite Z.add_0_r in *. by split; [|simpl; lia].
  - destruct (Z.eq_dec k 0) as [->|]; [rewrite Z.add_0_r in Hz; by split; [|simpl; lia]|].
    replace (Z.to_nat k) with (S (Z.to_nat (k - 1))) by lia. cbn [take]. pose proof (string_next m p [c] l Hs) as Hp. simpl in Hp, Hk.
    apply string_cons in Hs as (Hc & Hn & Hs). rewrite u32_small in Hs by (unfold is_u32; lia).
    destruct (IH (p + 1) (q + 1) (k - 1) Hs) as (H1 & _ & H3); [lia..| | |].
    + intros j Hj. rewrite <- !Z.add_assoc. apply He. lia.
    + by replace (q + 1 + (k - 1)) with (q + k) by lia.
    + split; [|cbn [length]; lia]. split; [|by split].
      pose proof (He 0 ltac:(lia)) as E0. rewrite !Z.add_0_r in E0. congruence.
Qed.
Lemma terminated_string m m' dst src k l : string_in m src l -> 0 <= k <= Z.of_nat (length l) -> 0 <= dst -> dst + k < 4294967296 ->
  terminated m m' dst src k -> string_in m' dst (take (Z.to_nat k) l).
Proof.
  intros Hs Hk Hd Hdk T. eapply string_moved; [exact Hs|done|done|done| |].
  - intros j Hj. rewrite T by (unfold is_u32; lia). replace (src + (dst + j - dst)) with (src + j) by lia. zcases.
  - rewrite T by (unfold is_u32; lia). zcases.
Qed.
Lemma string_append m m' p l1 l2 : string_in m p l1 -> (forall j, 0 <= j < Z.of_nat (length l1) -> loadb m' (p + j) = loadb m (p + j)) ->
  string_in m' (p + Z.of_nat (length l1)) l2 -> string_in m' p (l1 ++ l2).
Proof.
  revert p. induction l1 as [|c l1 IH]; intros p H1 He H2; [by rewrite Z.add_0_r in H2|].
  pose proof H1 as (_ & Hp & Hl). cbn [length] in *. apply string_cons in H1 as (Hc & Hn & H1). rewrite u32_small in H1 by (unfold is_u32; lia).
  destruct (IH (p + 1)) as (H3 & _ & H5); [done| |by replace (p + 1 + Z.of_nat (length l1)) with (p + Z.of_nat (S (length l1))) by lia|].
  - intros j Hj. rewrite <- !Z.add_assoc. apply He. lia.
  - split; [|split; [lia|]; cbn [app length]; lia]. split; [|by split]. pose proof (He 0 ltac:(lia)) as E0. rewrite !Z.add_0_r in E0. congruence.
Qed.

Lemma terminated_app m m1 m2 dst src k n : 0 <= k <= n -> separate dst src (n + 1) -> copied m m1 dst src k -> terminated m1 m2 (dst + k) (src + k) (n - k) ->
  terminated m m2 dst src n.
Proof.
  intros Hk (? & ? & ? & ? & Hs) C T x Hx. rewrite T by done.
  destruct (Z.leb_spec (dst + k) x); simpl; [destruct (Z.ltb_spec x (dst + k + (n - k))); simpl|].
  - rewrite C by (unfold is_u32 in *; lia). replace (src + k + (x - (dst + k))) with (src + (x - dst)) by lia. zcases.
  - rewrite C by done. zcases.
  - rewrite C by done. zcases.
Qed.
Lemma terminated_end m p src : 0 <= p < 4294967296 -> terminated m (storeb m p 0) p src 0.
Proof. intros Hp x Hx. rewrite Libk.loadb_storeb by done. zcases. Qed.
Lemma copied_terminated m m' dst src l : string_in m src l -> copied m m' dst src (Z.of_nat (length l) + 1) -> terminated m m' dst src (Z.of_nat (length l)).
Proof.
  intros Hs C x Hx. rewrite C by done. destruct (Z.eqb_spec x (dst + Z.of_nat (length l))) as [->|]; [|zcases].
  replace (src + (dst + Z.of_nat (length l) - dst)) with (src + Z.of_nat (length l)) by lia. rewrite (cstring_end m src l (proj1 Hs)). zcases.
Qed.

(** stpcpy stores what strcpy stores, and returns the place of the terminator. *)
Lemma stpcpy_bytes_spec l : forall fuel m dst src, string_in m src l -> separate dst src (Z.of_nat (length l) + 1) -> (length l < fuel)%nat ->
  exists m', stpcpy_bytes fuel m dst src = Some (m', dst + Z.of_nat (length l)) /\ terminated m m' dst src (Z.of_nat (length l)).
Proof.
  induction l as [|c l IH]; intros [|fuel] m dst src Hs Hd Hf; simpl in Hf; try lia; cbn [stpcpy_bytes];
    pose proof Hd as (? & ? & ? & ? & Hov); cbn [length] in *.
  - rewrite (string_nil _ _ Hs). cbn [Z.eqb]. eexists. split; [|apply terminated_end; lia].
    rewrite u32_sub_l. replace (dst + 1 - 1) with (dst + Z.of_nat 0) by lia. by rewrite u32_small by (unfold is_u32; lia).
  - pose proof (copied_byte m dst src ltac:(lia)) as Hb. pose proof (string_cons _ _ _ _ Hs) as (E & Hn & Hs'). rewrite E in *.
    rewrite (proj2 (Z.eqb_neq c 0)) by done. rewrite (u32_small (src + 1)), (u32_small (dst + 1)) in * by (unfold is_u32; lia).
    destruct (IH fuel (storeb m dst c) (dst + 1) (src + 1)) as (m' & -> & Hm').
    { eapply (string_copied _ _ dst src 1); [exact Hb| |done|lia|done]. split_and!; lia. }
    { split_and!; lia. }
    { lia. }
    exists m'. split; [do 2 f_equal; lia|]. eapply (terminated_app m (storeb m dst c) m' dst src 1); [lia|split_and!; lia|done|].
    by replace (Z.of_nat (S (length l)) - 1) with (Z.of_nat (length l)) by lia.
Qed.
Lemma stpcpy_spec fuel m dst src l : string_in m src l -> separate dst src (Z.of_nat (length l) + 1) -> (length l < fuel)%nat ->
  exists m', stpcpy fuel m dst src = Some (m', dst + Z.of_nat (length l)) /\ terminated m m' dst src (Z.of_nat (length l)).
Proof.
  intros Hs Hd Hf. unfold stpcpy. destruct (_ =? 0); cbn [mbind option_bind]; [|by apply stpcpy_bytes_spec].
  destruct (strcpy_words_spec fuel m dst src l Hs Hd Hf) as (m1 & k & -> & Hk & Hc & Hs1). cbn [mbind option_bind].
  pose proof Hd as (? & ? & ? & ? & Hov). pose proof (length_drop l (Z.to_nat k)) as El.
  destruct (stpcpy_bytes_spec (drop (Z.to_nat k) l) fuel m1 (dst + k) (src + k) Hs1) as (m' & -> & Ht); [rewrite El; split_and!; lia|lia|].
  exists m'. rewrite El in *. split; [do 2 f_equal; lia|]. eapply (terminated_app m m1 m' dst src k); [lia|split_and!; lia|done|].
  by replace (Z.of_nat (length l) - k) with (Z.of_nat (length l - Z.to_nat k)) by lia.
Qed.

(** Where a string ends. *)
Lemma skip_string_spec fuel m s l : string_in m s l -> (length l < fuel)%nat ->
  skip_string fuel m s = Some (s + Z.of_nat (length l)) /\ bytes_until m is_nul fuel s = Some (s + Z.of_nat (length l)).
Proof.
  intros Hs Hf. pose proof (NewlibScan.string_stop m s l Hs) as Hst. pose proof Hs as (_ & Hp & Hl).
  assert (u32 (s + Z.of_nat (length l)) = s + Z.of_nat (length l)) as E by (apply u32_small; unfold is_u32; lia).
  assert (bytes_until m is_nul fuel s = Some (s + Z.of_nat (length l))) as Hb.
  { rewrite <- E. apply NewlibScan.bytes_until_spec; [unfold is_u32; lia|done|lia]. }
  split; [|done]. unfold skip_string. destruct (NewlibScan.UNALIGNED s); cbn [mbind option_bind]; [done|].
  destruct (NewlibScan.words_spec m is_nul HASNULL (NewlibScan.HASNULL_word m) fuel s (Z.of_nat (length l))) as (j & Hj & ->); [unfold is_u32; lia|done|lia|].
  cbn [mbind option_bind]. rewrite (NewlibScan.bytes_until_spec m is_nul fuel _ (Z.of_nat (length l) - j)); [by rewrite NewlibScan.step_u32, E|apply u32_range| |lia].
  apply NewlibScan.first_stop_next; [done|lia].
Qed.

(** [m'] is [m] with the string at [p] grown by [k] characters of the one at [src]. *)
Definition grown (m m' : Mem) (p : Z) (l1 : list Z) (src : Z) (l2 : list Z) (k : Z) : Prop :=
  terminated m m' (p + Z.of_nat (length l1)) src k /\ string_in m' p (l1 ++ take (Z.to_nat k) l2).

Lemma terminated_grown m m' p l1 src l2 k : string_in m p l1 -> string_in m src l2 -> 0 <= k <= Z.of_nat (length l2) ->
  p + Z.of_nat (length l1) + k < 4294967296 -> terminated m m' (p + Z.of_nat (length l1)) src k -> grown m m' p l1 src l2 k.
Proof.
  intros H1 H2 Hk Hlt T. pose proof H1 as (_ & Hp & Hl). split; [done|].
  eapply string_append; [exact H1| |eapply terminated_string; [exact H2|done|lia|done|exact T]].
  intros j Hj. rewrite T by (unfold is_u32; lia). zcases.
Qed.

Lemma strcat_spec fuel m s1 s2 l1 l2 : string_in m s1 l1 -> string_in m s2 l2 -> (length l1 < fuel)%nat -> (length l2 < fuel)%nat ->
  separate (s1 + Z.of_nat (length l1)) s2 (Z.of_nat (length l2) + 1) -> exists m1 m2,
  strcat fuel m s1 s2 = Some (m1, s1) /\ strcat_small fuel m s1 s2 = Some (m2, s1) /\
  grown m m1 s1 l1 s2 l2 (Z.of_nat (length l2)) /\ grown m m2 s1 l1 s2 l2 (Z.of_nat (length l2)).
Proof.
  intros H1 H2 F1 F2 Hd. unfold strcat, strcat_small. destruct (skip_string_spec fuel m s1 l1 H1 F1) as [-> ->]. cbn [mbind option_bind].
  destruct (strcpy_spec fuel m _ s2 l2 H2 Hd F2) as (m1 & -> & C1). destruct (strcpy_bytes_spec l2 fuel m _ s2 H2 Hd F2) as (m2 & -> & C2).
  cbn [mbind option_bind]. exists m1, m2. pose proof Hd as (? & ? & ? & ? & _).
  split_and!; try done; (apply terminated_grown; [done|done|lia|lia|by apply copied_terminated]).
Qed.

(** The byte loop of strncat: at most [n] characters and a NUL. *)
Lemma strncat_loop_spec n : forall m dst src l, string_in m src l -> loadb m dst = 0 \/ n <> 0%nat ->
  let k := Z.min (Z.of_nat n) (Z.of_nat (length l)) in clear_of dst (k + 1) src l -> terminated m (strncat_loop n m dst src) dst src k.
Proof.
  induction n as [|n IH]; intros m dst src l Hs Hz k (D1 & D2 & D3 & D4); cbn [strncat_loop].
  - destruct Hz as [Hz|]; [|done]. replace k with 0 by lia. intros x Hx. destruct (Z.eqb_spec x (dst + 0)) as [->|]; [rewrite Z.add_0_r; zcases|zcases].
  - pose proof (copied_byte m dst src ltac:(lia)) as Hb. destruct l as [|c l].
    { replace k with 0 by (unfold k; simpl; lia). rewrite (string_nil _ _ Hs) in *. cbn [Z.eqb]. apply terminated_end. lia. }
    cbn [length] in *. pose proof (string_cons _ _ _ _ Hs) as (E & Hn & Hs'). pose proof Hs as (_ & ? & ?). cbn [length] in *. rewrite E in *.
    rewrite (proj2 (Z.eqb_neq c 0)) by done. rewrite (u32_small (src + 1)), (u32_small (dst + 1)) in * by (unfold is_u32; lia).
    assert (string_in (storeb m dst c) (src + 1) l) as Hs1.
    { eapply string_frame; [|exact Hs']. intros j Hj. rewrite Hb by (unfold is_u32; lia). zcases. }
    assert (copied m (storeb m dst c) dst src 1) as C1 by done. clear Hb.
    assert (forall m' k', k = 1 + k' -> 0 <= k' -> terminated (storeb m dst c) m' (dst + 1) (src + 1) k' -> terminated m m' dst src k) as Hrest.
    { intros m' k' Ek Hk' T. intros x Hx. rewrite T by done.
      destruct (Z.leb_spec (dst + 1) x); simpl; [destruct (Z.ltb_spec x (dst + 1 + k')); simpl|].
      - rewrite C1 by (unfold is_u32 in *; lia). replace (src + 1 + (x - (dst + 1))) with (src + (x - dst)) by lia. zcases.
      - rewrite C1 by done. zcases.
      - rewrite C1 by done. zcases. }
    destruct (Nat.eqb_spec n 0) as [->|Hn0].
    + cbn [strncat_loop]. apply (Hrest _ 0); [lia|lia|]. apply terminated_end. lia.
    + apply (Hrest _ (Z.min (Z.of_nat n) (Z.of_nat (length l)))); [lia|lia|]. apply IH; [done|by right|]. split_and!; lia.
Qed.
Lemma strncat_spec fuel m s1 s2 n l1 l2 : string_in m s1 l1 -> string_in m s2 l2 -> (length l1 < fuel)%nat -> 0 <= n ->
  let k := Z.min n (Z.of_nat (length l2)) in clear_of (s1 + Z.of_nat (length l1)) (k + 1) s2 l2 ->
  exists m', strncat fuel m s1 s2 n = Some (m', s1) /\ strncat_small fuel m s1 s2 n = Some (m', s1) /\ grown m m' s1 l1 s2 l2 k.
Proof.
  intros H1 H2 F1 Hn k Hd. unfold strncat, strncat_small. destruct (skip_string_spec fuel m s1 l1 H1 F1) as [-> ->]. cbn [mbind option_bind].
  eexists. split; [done|]. split; [done|]. pose proof Hd as (? & ? & ? & _). apply terminated_grown; [done|done|lia|lia|].
  pose proof (strncat_loop_spec (Z.to_nat n) m (s1 + Z.of_nat (length l1)) s2 l2 H2) as T. cbv zeta in T. rewrite Z2Nat.id in T by lia. apply T; [|done].
  left. apply (cstring_end m s1 l1), H1.
Qed.

(** ** strlcpy, strlcat and stpncpy *)

Lemma copied_string_stays m m' dst src k l n : copied m m' dst src k -> clear_of dst n src l -> 0 <= k <= n -> string_in m src l -> string_in m' src l.
Proof.
  intros C (D1 & D2 & D3 & D4) Hk Hs. pose proof Hs as (_ & ? & ?). eapply string_frame; [|exact Hs]. intros j Hj. rewrite C by (unfold is_u32; lia). zcases.
Qed.

(** The loop of strlcpy: it ends behind the terminator, or when [n] characters are copied. *)
Lemma strlcpy_loop_spec n : forall m d s l, string_in m s l ->
  let k := Z.min (Z.of_nat n) (Z.of_nat (length l)) in clear_of d (k + 1) s l ->
  if (length l <? n)%nat then exists m', strlcpy_loop n m d s = (m', d + k + 1, u32 (s + k + 1), Z.of_nat n - k) /\ terminated m m' d s k
  else exists m', strlcpy_loop n m d s = (m', d + k, s + k, 0) /\ copied m m' d s k.
Proof.
  induction n as [|n IH]; intros m d s l Hs k Hd; cbn [strlcpy_loop].
  - exists m. replace k with 0 by lia. rewrite !Z.add_0_r. split; [done|apply copied_0].
  - pose proof Hd as (D1 & D2 & D3 & D4). pose proof (copied_byte m d s ltac:(lia)) as Hb. destruct l as [|c l].
    { simpl. replace k with 0 by (unfold k; simpl; lia). rewrite !Z.add_0_r. pose proof Hs as (_ & ? & ?). simpl in *. rewrite (string_nil _ _ Hs) in *. cbn [Z.eqb].
      rewrite (u32_small (d + 1)) by (unfold is_u32; lia). rewrite Z.sub_0_r. eexists. split; [done|apply terminated_end; lia]. }
    cbn [length] in *. pose proof (string_cons _ _ _ _ Hs) as (E & Hn & Hs'). pose proof Hs as (_ & ? & ?). cbn [length] in *.
    rewrite E in *. rewrite (proj2 (Z.eqb_neq c 0)) by done. rewrite (u32_small (s + 1)), (u32_small (d + 1)) in * by (unfold is_u32; lia).
    assert (string_in (storeb m d c) (s + 1) l) as Hs1.
    { eapply string_frame; [|exact Hs']. intros j Hj. rewrite Hb by (unfold is_u32; lia). zcases. }
    specialize (IH (storeb m d c) (d + 1) (s + 1) l Hs1). cbv zeta in IH.
    set (k' := Z.min (Z.of_nat n) (Z.of_nat (length l))) in *. assert (k = 1 + k') as Ek by lia. specialize (IH ltac:(split_and!; lia)).
    change (S (length l) <? S n)%nat with (length l <? n)%nat. destruct (length l <? n)%nat; destruct IH as (m' & -> & Hm'); exists m'; rewrite Ek, !Z.add_assoc.
    + split; [f_equal; lia|]. apply (terminated_app m (storeb m d c) m' d s 1); [lia|split_and!; lia|done|]. by replace (1 + k' - 1) with k' by lia.
    + split; [done|]. apply (copied_app m (storeb m d c) m' d s 1); [lia|split_and!; lia|done|]. by replace (1 + k' - 1) with k' by lia.
Qed.

Lemma store_end m m1 dst src k : 0 <= dst -> 0 <= k -> dst + k < 4294967296 -> copied m m1 dst src k -> terminated m (storeb m1 (dst + k) 0) dst src k.
Proof.
  intros Hd Hk Hdk C x Hx. rewrite Libk.loadb_storeb by (done || unfold is_u32; lia). destruct (Z.eqb_spec x (dst + k)) as [->|]; [zcases|]. by rewrite C.
Qed.

Lemma strlcpy_spec fuel m dst src siz l : string_in m src l -> (length l < fuel)%nat -> 0 < siz ->
  let k := Z.min (siz - 1) (Z.of_nat (length l)) in clear_of dst (k + 1) src l ->
  exists m', strlcpy fuel m dst src siz = Some (m', Z.of_nat (length l)) /\ terminated m m' dst src k.
Proof.
  intros Hs Hf Hsiz k Hd. pose proof Hd as (D1 & D2 & D3 & D4). pose proof Hs as (_ & Hp & Hl). unfold strlcpy.
  rewrite (proj2 (Z.eqb_neq siz 0)) by lia. cbn [negb].
  assert (forall m1 j, copied m m1 dst src j -> 0 <= j -> j = siz - 1 -> j = k -> exists m', (s ← bytes_until (storeb m1 (dst + j) 0) is_nul fuel (src + j);
    Some (storeb m1 (dst + j) 0, u32 (u32 (s + 1) - src - 1))) = Some (m', Z.of_nat (length l)) /\ terminated m m' dst src k) as Hcut.
  { intros m1 j C Hj Ej Ek. rewrite Ek in C |- *. assert (string_in (storeb m1 (dst + k) 0) (src + k) (drop (Z.to_nat k) l)) as Hs2.
    { eapply string_frame; [|apply (NewlibScan.string_drop m1 src l k); [apply (copied_string_stays m m1 dst src k l (k + 1)); [done|done|lia|done]|lia]].
      intros i Hi. rewrite length_drop in Hi. rewrite Libk.loadb_storeb by (unfold is_u32; lia). zcases. }
    destruct (skip_string_spec fuel _ _ _ Hs2) as [_ ->]; [rewrite length_drop; lia|]. cbn [mbind option_bind]. eexists. split; [|apply store_end; [lia|lia|lia|done]].
    rewrite length_drop. do 2 f_equal. rewrite <- Z.sub_add_distr, u32_sub_l. replace (_ - (src + 1)) with (Z.of_nat (length l)) by lia.
    apply u32_small. unfold is_u32. lia. }
  destruct (Z.eqb_spec (siz - 1) 0) as [E1|Hn1]; cbn [negb].
  - cbn [Z.eqb]. specialize (Hcut m 0 (copied_0 _ _ _)). rewrite !Z.add_0_r in Hcut. apply Hcut; lia.
  - pose proof (strlcpy_loop_spec (Z.to_nat (siz - 1)) m dst src l Hs) as Hloop. cbv zeta in Hloop. rewrite Z2Nat.id in Hloop by lia. fold k in Hloop. specialize (Hloop Hd).
    destruct (Nat.ltb_spec (length l) (Z.to_nat (siz - 1))) as [Hlt|Hge]; destruct Hloop as (m1 & -> & Hm1).
    + rewrite (proj2 (Z.eqb_neq (siz - 1 - k) 0)) by lia. exists m1. split; [|done]. do 2 f_equal. rewrite <- Z.sub_add_distr, u32_sub_l.
      replace (src + k + 1 - (src + 1)) with (Z.of_nat (length l)) by lia. apply u32_small. unfold is_u32. lia.
    + cbn [Z.eqb]. apply Hcut; [done|lia|lia|done].
Qed.

(** The loop of strlcat: it copies while more than one place is left, and reads to the end. *)
Lemma strlcat_loop_spec l : forall fuel m d s n, string_in m s l -> (length l < fuel)%nat -> 1 <= n ->
  let k := Z.min (n - 1) (Z.of_nat (length l)) in clear_of d (k + 1) s l ->
  exists m', strlcat_loop fuel m d s n = Some (m', d + k, s + Z.of_nat (length l)) /\ copied m m' d s k.
Proof.
  induction l as [|c l IH]; intros [|fuel] m d s n Hs Hf Hn k Hd; cbn [length] in *; try lia; cbn [strlcat_loop].
  - rewrite (string_nil _ _ Hs). cbn [Z.eqb]. exists m. replace k with 0 by lia. rewrite !Z.add_0_r. split; [done|apply copied_0].
  - pose proof Hd as (D1 & D2 & D3 & D4). pose proof (string_cons _ _ _ _ Hs) as (E & Hc & Hs'). pose proof Hs as (_ & ? & ?). cbn [length] in *.
    rewrite E. rewrite (proj2 (Z.eqb_neq c 0)) by done. rewrite (u32_small (s + 1)) in * by (unfold is_u32; lia).
    destruct (Z.eqb_spec n 1) as [->|Hn1]; cbn [negb].
    + destruct (IH fuel m d (s + 1) 1 Hs') as (m' & -> & C); [lia|lia|split_and!; lia|]. exists m'. replace k with 0 by lia.
      replace (Z.min (1 - 1) (Z.of_nat (length l))) with 0 in * by lia. split; [do 2 f_equal; lia|].
      intros x Hx. rewrite C by done. zcases.
    + pose proof (copied_byte m d s ltac:(lia)) as Hb. rewrite E in Hb. rewrite (u32_small (d + 1)) by (unfold is_u32; lia).
      assert (string_in (storeb m d c) (s + 1) l) as Hs1.
      { eapply string_frame; [|exact Hs']. intros j Hj. rewrite Hb by (unfold is_u32; lia). zcases. }
      specialize (IH fuel (storeb m d c) (d + 1) (s + 1) (n - 1) Hs1 ltac:(lia) ltac:(lia)). cbv zeta in IH.
      set (k' := Z.min (n - 1 - 1) (Z.of_nat (length l))) in *. assert (k = 1 + k') as Ek by lia.
      destruct IH as (m' & -> & C); [split_and!; lia|]. exists m'. rewrite Ek. split; [do 2 f_equal; [f_equal|]; lia|].
      apply (copied_app m (storeb m d c) m' d s 1); [lia|split_and!; lia|done|]. by replace (1 + k' - 1) with k' by lia.
Qed.

Lemma strnlen_loop_range n : forall m s, is_u32 s -> is_u32 (NewlibScan.strnlen_loop n m s).
Proof. induction n as [|n IH]; intros m s Hs; cbn [NewlibScan.strnlen_loop]; [done|]. case_if; [done|apply IH, u32_range]. Qed.

Lemma strlcat_spec fuel m dst src siz l1 l2 : string_in m dst l1 -> string_in m src l2 -> (length l2 < fuel)%nat -> 0 <= siz < 4294967296 ->
  Z.of_nat (length l1) + Z.of_nat (length l2) < 4294967296 -> siz + Z.of_nat (length l2) < 4294967296 ->
  let k := Z.min (siz - Z.of_nat (length l1) - 1) (Z.of_nat (length l2)) in (Z.of_nat (length l1) < siz -> clear_of (dst + Z.of_nat (length l1)) (k + 1) src l2) ->
  exists m', strlcat fuel m dst src siz = Some (m', Z.min siz (Z.of_nat (length l1)) + Z.of_nat (length l2)) /\
    if siz <=? Z.of_nat (length l1) then m' = m else grown m m' dst l1 src l2 k.
Proof.
  intros H1 H2 Hf Hsiz Hsum Hsum' k Hd. unfold strlcat. pose proof H1 as (_ & Hp & Hl).
  pose proof (NewlibScan.strnlen_spec m dst l1 siz H1 Hsiz) as Edlen. unfold NewlibScan.strnlen in Edlen.
  set (d := NewlibScan.strnlen_loop (Z.to_nat siz) m dst) in *. assert (is_u32 d) as Hdr by (apply strnlen_loop_range; unfold is_u32; lia).
  rewrite Edlen. destruct (Z.leb_spec siz (Z.of_nat (length l1))) as [Hle|Hgt].
  - replace (siz - Z.min siz (Z.of_nat (length l1))) with 0 by lia. cbn [Z.eqb]. destruct (NewlibScan.strlen_measures fuel m src l2 H2 ltac:(lia)) as [-> _].
    cbn [mbind option_bind]. rewrite u32_small by (unfold is_u32; lia). by exists m.
  - rewrite (proj2 (Z.eqb_neq (siz - _) 0)) by lia. specialize (Hd Hgt). pose proof Hd as (? & ? & ? & ?).
    assert (d = dst + Z.of_nat (length l1)) as Ed by (rewrite Z.min_r in Edlen by lia; clear -Edlen Hdr Hp Hl; unfold is_u32 in *; zlia).
    rewrite Ed. rewrite Z.min_r by lia.
    destruct (strlcat_loop_spec l2 fuel m (dst + Z.of_nat (length l1)) src (siz - Z.of_nat (length l1)) H2 Hf ltac:(lia) Hd) as (m1 & E1 & C).
    rewrite E1. cbn [mbind option_bind]. fold k in C |- *. eexists. split; [do 2 f_equal; rewrite u32_small by (unfold is_u32; lia); lia|].
    apply terminated_grown; [done|done|lia|lia|]. apply store_end; [lia|lia|lia|done].
Qed.

(** stpncpy stores what strncpy stores, and returns where the string ends. *)
Lemma stpncpy_bytes_eq n : forall m dst src l, string_in m src l -> clear_of dst (Z.of_nat n) src l -> 0 < dst ->
  stpncpy_bytes n m dst src = (strncpy_bytes n m dst src, dst + Z.min (Z.of_nat n) (Z.of_nat (length l))).
Proof.
  induction n as [|n IH]; intros m dst src l Hs (D1 & D2 & D3 & D4) Hpos; cbn [stpncpy_bytes strncpy_bytes]; [f_equal; lia|].
  pose proof (copied_byte m dst src ltac:(lia)) as Hb. rewrite !(u32_small (dst + 1)) by (unfold is_u32; lia). destruct l as [|c l].
  - rewrite (string_nil _ _ Hs). cbn [Z.eqb]. replace (dst + 1 - 1) with dst by lia. rewrite (u32_small dst) by (unfold is_u32; lia).
    rewrite (proj2 (Z.eqb_neq dst 0)) by lia. f_equal. simpl. lia.
  - pose proof (string_cons _ _ _ _ Hs) as (E & Hc & Hs'). pose proof Hs as (_ & ? & ?). cbn [length] in *. rewrite E in *.
    rewrite (proj2 (Z.eqb_neq c 0)) by done. rewrite !(u32_small (src + 1)) in * by (unfold is_u32; lia). rewrite (IH _ (dst + 1) (src + 1) l).
    + f_equal. lia.
    + eapply string_frame; [|exact Hs']. intros j Hj. rewrite Hb by (unfold is_u32; lia). zcases.
    + split_and!; lia.
    + lia.
Qed.
Lemma stpncpy_spec fuel m dst src count l : string_in m src l -> clear_of dst count src l -> (length l < fuel)%nat -> 0 < dst -> exists m1 m2,
  let r := dst + Z.min count (Z.of_nat (length l)) in
  stpncpy fuel m dst src count = Some (m1, r) /\ stpncpy_small m dst src count = (m2, r) /\ padded m m1 dst src l count /\ padded m m2 dst src l count.
Proof.
  intros Hs Hd Hf Hpos. pose proof Hd as (D1 & D2 & D3 & D4). unfold stpncpy, stpncpy_small.
  assert (forall m k, 0 <= k <= count -> string_in m (src + k) (drop (Z.to_nat k) l) -> k <= Z.of_nat (length l) ->
    stpncpy_bytes (Z.to_nat (count - k)) m (dst + k) (src + k) = (strncpy_bytes (Z.to_nat (count - k)) m (dst + k) (src + k), dst + Z.min count (Z.of_nat (length l))) /\
    padded m (strncpy_bytes (Z.to_nat (count - k)) m (dst + k) (src + k)) (dst + k) (src + k) (drop (Z.to_nat k) l) (count - k)) as Hrest.
  { intros m0 k Hk Hs0 Hkl. assert (clear_of (dst + k) (Z.of_nat (Z.to_nat (count - k))) (src + k) (drop (Z.to_nat k) l)) as Hd0
      by (unfold clear_of; rewrite length_drop, Z2Nat.id by lia; split_and!; lia).
    split; [rewrite (stpncpy_bytes_eq _ m0 _ _ _ Hs0 Hd0) by lia; rewrite length_drop, Z2Nat.id by lia; f_equal; lia|].
    rewrite <- (Z2Nat.id (count - k)) at 2 by lia. by apply strncpy_bytes_spec. }
  pose proof (Hrest m 0 ltac:(lia)) as H0. rewrite !Z.add_0_r, Z.sub_0_r in H0. destruct (H0 Hs ltac:(lia)) as [E0 P0]. rewrite E0.
  destruct (_ && _); cbn [mbind option_bind]; [|rewrite E0; by do 2 eexists].
  destruct (strncpy_words_spec fuel m dst src count l Hs Hd Hf) as (m1 & k & -> & Hk & Hkl & Hc & Hsk). cbn [mbind option_bind].
  destruct (Hrest m1 k Hk Hsk Hkl) as [-> P1]. do 2 eexists. split; [done|]. split; [done|]. split; [|done].
  by eapply padded_app; [exact Hk|exact Hkl|exact Hs|exact Hd|exact Hc|].
Qed.

(** ** The theorems *)

(** C35: memcpy, mempcpy, memmove and memset write a word at a time what they write byte by byte.
    For ranges below the top of memory, aligned or not, each ends in both versions; memmove stores
    at [dst] what stood at [src], whether the ranges overlap from above, from below or not at all;
    memcpy and mempcpy do for ranges that may be copied upwards, and return the target and the
    place behind it; memset stores the character's low byte; nothing else is written. *)
Theorem memory_writes (fuel : nat) (m : Mem) (dst src c n : Z) : in_space dst src n -> n < Z.of_nat fuel ->
  (exists m1 m2, memmove fuel m dst src n = Some (m1, dst) /\ memmove_small m dst src n = (m2, dst) /\ copied m m1 dst src n /\ copied m m2 dst src n) /\
  (upwards dst src n -> exists m1 m2, memcpy fuel m dst src n = Some (m1, dst) /\ mempcpy fuel m dst src n = Some (m1, dst + n) /\ copied m m1 dst src n /\
     memcpy_small m dst src n = (m2, dst) /\ mempcpy_small m dst src n = (m2, dst + n) /\ copied m m2 dst src n) /\
  (exists m1 m2, memset fuel m dst c n = Some (m1, dst) /\ memset_small m dst c n = (m2, dst) /\ filled m m1 dst n c /\ filled m m2 dst n c).
Proof.
  intros Hn Hf. pose proof Hn as (? & ? & ? & ? & ?). split; [by apply memmove_spec|]. split; [intros Hu; by apply memcpy_copied|]. apply memset_filled; lia.
Qed.

(** With size 0 strlcpy writes nothing and still measures the source. *)
Lemma strlcpy_zero fuel m dst src l : string_in m src l -> (length l < fuel)%nat ->
  strlcpy fuel m dst src 0 = Some (m, Z.of_nat (length l)).
Proof.
  intros Hs Hf. pose proof Hs as (_ & Hp & Hl). unfold strlcpy. cbn [Z.eqb negb].
  destruct (skip_string_spec fuel _ _ _ Hs Hf) as [_ ->]. cbn [mbind option_bind]. do 2 f_equal.
  rewrite <- Z.sub_add_distr, u32_sub_l. replace (_ - (src + 1)) with (Z.of_nat (length l)) by lia.
  apply u32_small. unfold is_u32. lia.
Qed.

(** C36: the functions that build strings leave a string and nothing else, for every size, 0
    included.  strcat and strncat leave at [s1] its string followed by all, or by at most [n]
    characters, of [s2]'s (none for 0, when nothing changes); stpcpy and strlcpy store [s2]'s
    string, the latter cut off to [n] bytes, terminator included, and return the end of the copy
    and the length of the source; strlcpy with size 0 writes nothing; strlcat appends as many
    characters as a buffer of [n] bytes has room for and returns the length it tried to make,
    and writes nothing when the buffer is full or [n] is 0.  Every one ends, in both versions of
    strcat, strncat and stpcpy (strlcpy and strlcat have one). *)
Theorem strings_grow (fuel : nat) (m : Mem) (s1 s2 n : Z) (l1 l2 : list Z) :
  string_in m s1 l1 -> string_in m s2 l2 -> (length l1 < fuel)%nat -> (length l2 < fuel)%nat -> 0 <= n ->
  let n1 := Z.of_nat (length l1) in let n2 := Z.of_nat (length l2) in n + n2 < 4294967296 -> n1 + n2 < 4294967296 ->
  (separate (s1 + n1) s2 (n2 + 1) -> exists m1 m2, strcat fuel m s1 s2 = Some (m1, s1) /\ strcat_small fuel m s1 s2 = Some (m2, s1) /\
     grown m m1 s1 l1 s2 l2 n2 /\ grown m m2 s1 l1 s2 l2 n2) /\
  (let k := Z.min n n2 in clear_of (s1 + n1) (k + 1) s2 l2 ->
     exists m', strncat fuel m s1 s2 n = Some (m', s1) /\ strncat_small fuel m s1 s2 n = Some (m', s1) /\ grown m m' s1 l1 s2 l2 k) /\
  (separate s1 s2 (n2 + 1) -> exists m1 m2, stpcpy fuel m s1 s2 = Some (m1, s1 + n2) /\ stpcpy_small fuel m s1 s2 = Some (m2, s1 + n2) /\
     terminated m m1 s1 s2 n2 /\ terminated m m2 s1 s2 n2 /\ string_in m1 s1 l2 /\ string_in m2 s1 l2) /\
  (let k := Z.min (n - 1) n2 in (0 < n -> clear_of s1 (k + 1) s2 l2) ->
     exists m', strlcpy fuel m s1 s2 n = Some (m', n2) /\
       if n =? 0 then m' = m else terminated m m' s1 s2 k /\ string_in m' s1 (take (Z.to_nat k) l2)) /\
  (let k := Z.min (n - n1 - 1) n2 in (n1 < n -> clear_of (s1 + n1) (k + 1) s2 l2) ->
     exists m', strlcat fuel m s1 s2 n = Some (m', Z.min n n1 + n2) /\ if n <=? n1 then m' = m else grown m m' s1 l1 s2 l2 k).
Proof.
  intros H1 H2 F1 F2 Hn n1 n2 Hs Hs'. pose proof H1 as (_ & P1 & Q1). pose proof H2 as (_ & P2 & Q2). split_and!.
  - by apply strcat_spec.
  - intros k Hc. apply strncat_spec; [done|done|done|lia|done].
  - intros Hd. pose proof Hd as (? & ? & ? & ? & _).
    destruct (stpcpy_spec fuel m s1 s2 l2 H2 Hd F2) as (m1 & E1 & T1). destruct (stpcpy_bytes_spec l2 fuel m s1 s2 H2 Hd F2) as (m2 & E2 & T2).
    assert (forall m', terminated m m' s1 s2 n2 -> string_in m' s1 l2) as Hstr.
    { intros m' T. pose proof (terminated_string m m' s1 s2 n2 l2 H2 ltac:(lia) ltac:(lia) ltac:(lia) T) as Hr. unfold n2 in Hr.
      by rewrite Nat2Z.id, take_ge in Hr by lia. }
    exists m1, m2. split_and!; auto.
  - intros k Hc. destruct (Z.eqb_spec n 0) as [->|Hn0]; [exists m; split; [by apply strlcpy_zero|done]|].
    specialize (Hc ltac:(lia)). destruct (strlcpy_spec fuel m s1 s2 n l2 H2 F2 ltac:(lia) Hc) as (m' & E & T).
    exists m'. split; [done|]. split; [done|]. pose proof Hc as (? & ? & ? & _).
    eapply terminated_string; [done|lia|lia|lia|exact T].
  - intros k Hc. apply strlcat_spec; [done|done|done|lia|done|done|done].
Qed.

(** "ab" at 4098, "cde" at 8192. *)
Definition ex_copy : Mem := storel (storel (fun _ => 0) 4098 (str "ab")) 8192 (str "cde").
Lemma memory_writes_witness : exists m1 m2, memmove 20 ex_copy 8194 8192 3 = Some (m1, 8194) /\ copied ex_copy m1 8194 8192 3 /\
  memset 20 ex_copy 8194 7 3 = Some (m2, 8194) /\ filled ex_copy m2 8194 3 7.
Proof.
  destruct (memory_writes 20 ex_copy 8194 8192 7 3 ltac:(unfold in_space; lia) ltac:(lia)) as ((m1 & _ & E1 & _ & C1 & _) & _ & (m2 & _ & E2 & _ & F2 & _)).
  exists m1, m2. split; [exact E1|]. split; [exact C1|]. split; [exact E2|exact F2].
Defined.
Lemma strings_grow_witness : (exists m', strcat 9 ex_copy 4098 8192 = Some (m', 4098) /\ string_in m' 4098 (str "abcde")) /\
  exists m', strlcat 9 ex_copy 4098 8192 5 = Some (m', 5) /\ string_in m' 4098 (str "abcd").
Proof.
  assert (string_in ex_copy 4098 (str "ab")) as H1 by (split; [vm_compute; repeat split; discriminate|split; vm_compute; congruence]).
  assert (string_in ex_copy 8192 (str "cde")) as H2 by (split; [vm_compute; repeat split; discriminate|split; vm_compute; congruence]).
  destruct (strings_grow 9 ex_copy 4098 8192 5 _ _ H1 H2 ltac:(apply Nat.ltb_lt; vm_compute; reflexivity) ltac:(apply Nat.ltb_lt; vm_compute; reflexivity) ltac:(lia)
    ltac:(vm_compute; reflexivity) ltac:(vm_compute; reflexivity)) as (Hc & _ & _ & _ & Hl). split.
  - destruct Hc as (m1 & _ & E & _ & (_ & G) & _); [unfold separate; vm_compute; intuition congruence|]. exists m1. split; [exact E|exact G].
  - destruct Hl as (m' & E & G); [intros _; unfold clear_of; vm_compute; intuition congruence|]. exists m'. split; [exact E|exact (proj2 G)].
Defined.
End NewlibCopy.
