(* ===== verification/NewlibTokens.v ===== *)
(** newlib/newlib/libc/string: the routines that take a string apart at characters of a set:
    strspn, strcspn, strpbrk, strtok_r, strtok and strsep.

    All of them walk the set for each character of the string; [in_set] is that walk, the [for] loop
    over [c] or [spanp].  The pointer that strtok_r keeps between two calls, [*lasts], is the
    argument and result [lasts]; for strtok it stands in the reentrancy structure, for strsep it
    is the caller's string pointer. *)

From S2P Require Import Prelude Libk NewlibString NewlibScan.

Module NewlibTokens.
Import NewlibString NewlibScan.

Section Walks.
Context (fuel : nat) (m : Mem).

(** [for (c = s2; *c; c++) if (ch == *c) break;]: what [*c] is at the end. *)
Definition in_set (s2 ch : Z) : option Z :=
  c ← bytes_until m (fun b => (b =? 0) || (b =? ch)) fuel s2; Some (loadb m c).

Fixpoint strspn_loop (n : nat) (s1 s2 : Z) : option Z :=
  match n with
  | O => None
  | S n =>
      if loadb m s1 =? 0 then Some s1
      else c ← in_set s2 (loadb m s1); if c =? 0 then Some s1 else strspn_loop n (u32 (s1 + 1)) s2
  end.
Definition strspn (s1 s2 : Z) : option Z := s ← strspn_loop fuel s1 s2; Some (u32 (s - s1)).

(** The loop of strcspn and strpbrk: [s1] and [*c] at its end, [*c] from the round before when the
    string ends. *)
Fixpoint strcspn_loop (n : nat) (s1 s2 c : Z) : option (Z * Z) :=
  match n with
  | O => None
  | S n =>
      if loadb m s1 =? 0 then Some (s1, c)
      else c ← in_set s2 (loadb m s1); if negb (c =? 0) then Some (s1, c) else strcspn_loop n (u32 (s1 + 1)) s2 c
  end.
Definition strcspn (s1 s2 : Z) : option Z := '(s, _) ← strcspn_loop fuel s1 s2 0; Some (u32 (s - s1)).
Definition strpbrk (s1 s2 : Z) : option Z :=
  if loadb m s1 =? 0 then Some 0
  else '(s, c) ← strcspn_loop fuel s1 s2 (loadb m s2); Some (if c =? 0 then 0 else s).

(** The part of __strtok_r before [tok]: [inl s] is a delimiter read when none is to be skipped,
    [inr (c, s)] the first other character; [s] is one behind it. *)
Fixpoint strtok_skip (n : nat) (s delim : Z) (skip_leading_delim : bool) : option (Z + Z * Z) :=
  match n with
  | O => None
  | S n =>
      let c := loadb m s in
      let s := u32 (s + 1) in
      sc ← in_set delim c;
      if negb (sc =? 0) then if skip_leading_delim then strtok_skip n s delim skip_leading_delim else Some (inl s)
      else Some (inr (c, s))
  end.
(** The loop over the token: the character it ends at, which the walk of the set also finds when
    it is NUL, and the pointer behind it. *)
Fixpoint strtok_scan (n : nat) (s delim : Z) : option (Z * Z) :=
  match n with
  | O => None
  | S n =>
      let c := loadb m s in
      let s := u32 (s + 1) in
      sc ← in_set delim c;
      if sc =? c then Some (c, s) else strtok_scan n s delim
  end.

(** What it returns, the memory, and [*lasts]. *)
Definition __strtok_r (s delim lasts : Z) (skip_leading_delim : bool) : option (Z * Mem * Z) :=
  let s := if s =? 0 then lasts else s in
  if s =? 0 then Some (0, m, lasts)
  else
    r ← strtok_skip fuel s delim skip_leading_delim;
    match r with
    | inl s => Some (u32 (s - 1), storeb m (u32 (s - 1)) 0, s)
    | inr (c, s) =>
        if c =? 0 then Some (0, m, 0)
        else
          let tok := u32 (s - 1) in
          '(c, s) ← strtok_scan fuel s delim;
          Some (if c =? 0 then (tok, m, 0) else (tok, storeb m (u32 (s - 1)) 0, s))
    end.
Definition strtok_r (s delim lasts : Z) : option (Z * Mem * Z) := __strtok_r s delim lasts true.
(** The state of strtok: the last pointer of the thread's reentrancy structure. *)
Definition strtok (s delim strtok_last : Z) : option (Z * Mem * Z) := __strtok_r s delim strtok_last true.
Definition strsep (source_ptr delim : Z) : option (Z * Mem * Z) := __strtok_r source_ptr delim source_ptr false.
End Walks.

(** ** The set *)

Section Set_.
Context (fuel : nat) (m : Mem) (delim : Z) (ds : list Z).
Context (Hds : string_in m delim ds) (Hfuel : (length ds < fuel)%nat).

Lemma in_set_spec c : is_u8 c -> in_set fuel m delim c = Some (if bool_decide (c ∈ ds) then c else 0).
Proof using All.
  intros Hc. pose proof Hds as (Hcs & _). pose proof (cstring_end m delim ds Hcs) as He.
  assert (forall k, 0 <= k <= Z.of_nat (length ds) -> first_stop m (fun b => (b =? 0) || (b =? c)) delim k ->
    in_set fuel m delim c = Some (loadb m (delim + k))) as Hstop.
  { intros k Hk Hf. unfold in_set. pose proof (string_size m delim ds 0 Hds ltac:(lia)) as Hu. rewrite Z.add_0_r in Hu.
    rewrite (bytes_until_spec m (fun b => (b =? 0) || (b =? c)) fuel delim k Hu Hf) by lia. cbn [mbind option_bind].
    by rewrite u32_small by (by eapply string_size). }
  destruct (Z.eq_dec c 0) as [->|Hn].
  - rewrite (Hstop (Z.of_nat (length ds))), He by (lia || (split; [lia|]; rewrite He; split; [done|]; intros t Ht;
      by rewrite (proj2 (Z.eqb_neq _ _) (string_char m delim ds t Hds Ht)))). by case_bool_decide.
  - destruct (string_seek m delim ds c Hds Hc Hn) as (k & Hk & Hf & Hno & Hiff). rewrite (Hstop k Hk Hf).
    case_bool_decide as Hin.
    + f_equal. apply Hiff. intros ->. apply list_elem_of_lookup in Hin as [i Hi]. pose proof (lookup_lt_Some _ _ _ Hi).
      destruct (cstring_lookup m delim ds i c Hcs Hi) as [E _]. by apply (Hno (Z.of_nat i)); [lia|].
    + destruct (Z.eq_dec k (Z.of_nat (length ds))) as [->|Hne]; [by rewrite He|]. exfalso. apply Hin.
      apply Hiff in Hne as E. assert (k < Z.of_nat (length ds)) as Hlt by lia.
      destruct (lookup_lt_is_Some_2 ds (Z.to_nat k) ltac:(lia)) as [c' Hc']. destruct (cstring_lookup m delim ds _ c' Hcs Hc') as [E' _].
      rewrite Z2Nat.id in E' by lia. rewrite E in E'. subst c'. by eapply list_elem_of_lookup_2.
Qed.

Definition is_delim (c : Z) : bool := bool_decide (c ∈ ds).
Definition plain (w : list Z) : Prop := Forall (fun c => is_delim c = false) w.

Lemma not_delim_0 : is_delim 0 = false.
Proof using Hds.
  clear Hfuel. apply bool_decide_eq_false_2. intros Hin. pose proof (string_positive m delim ds Hds) as H. rewrite Forall_forall in H. specialize (H 0 Hin). lia.
Qed.

(** Walks over the characters of a string that are in the set, and over those that are not. *)
Lemma strspn_loop_spec l0 : forall n s l, string_in m s (l0 ++ l) -> Forall (fun c => is_delim c = true) l0 ->
  match l with [] => True | c :: _ => is_delim c = false end -> (length l0 < n)%nat ->
  strspn_loop fuel m n s delim = Some (s + Z.of_nat (length l0)).
Proof using All.
  induction l0 as [|c l0 IH]; intros [|n] s l Hs Hin Hl Hn; simpl in Hn; try lia; cbn [strspn_loop length].
  - rewrite Z.add_0_r. destruct l as [|c l]; [by rewrite (string_nil m s Hs)|]. destruct (string_cons _ _ _ _ Hs) as (E & Hc & _). rewrite E.
    rewrite (proj2 (Z.eqb_neq _ _)) by done. rewrite in_set_spec by (rewrite <- E; apply loadb_range). unfold is_delim in Hl. by rewrite Hl.
  - apply Forall_cons in Hin as [Hc0 Hin]. pose proof (string_next m s [c] _ Hs) as Hnx. simpl in Hnx. destruct (string_cons _ _ _ _ Hs) as (E & Hc & Hs'). rewrite E.
    rewrite (proj2 (Z.eqb_neq _ _)) by done. rewrite in_set_spec by (rewrite <- E; apply loadb_range). unfold is_delim in Hc0. rewrite Hc0. cbn [mbind option_bind].
    rewrite (proj2 (Z.eqb_neq _ _)) by done. rewrite u32_small in Hs' |- * by (unfold is_u32; lia). rewrite (IH n (s + 1) l) by (done || lia). f_equal. lia.
Qed.

(** A string of characters outside the set, and what comes behind: its end or one of the set. *)
Definition at_delim (l : list Z) : Prop := match l with [] => True | c :: _ => is_delim c = true end.

Lemma plain_step c w s l n : string_in m s ((c :: w) ++ l) -> plain (c :: w) -> is_u32 (s + 1) /\
  loadb m s = c /\ c <> 0 /\ in_set fuel m delim c = Some 0 /\ string_in m (s + 1) (w ++ l) /\ plain w /\ s + 1 + n = s + (1 + n).
Proof using All.
  intros Hs [Hc Hw]%Forall_cons. pose proof (string_next m s [c] _ Hs) as Hnx. simpl in Hnx. destruct (string_cons _ _ _ _ Hs) as (E & Hn & Hs').
  rewrite u32_small in Hs' by (unfold is_u32; lia). rewrite in_set_spec by (rewrite <- E; apply loadb_range). unfold is_delim in Hc. rewrite Hc.
  split; [unfold is_u32; lia|]. repeat (split; [done|]). lia.
Qed.

Lemma in_set_head s l : string_in m s l -> at_delim l ->
  loadb m s = hd 0 l /\ in_set fuel m delim (hd 0 l) = Some (hd 0 l).
Proof using All.
  intros Hs Hl. destruct l as [|c l]; simpl.
  - rewrite (string_nil m s Hs). split; [done|]. rewrite in_set_spec by done. by case_bool_decide.
  - destruct (string_cons _ _ _ _ Hs) as (E & _ & _). split; [done|]. rewrite in_set_spec by (rewrite <- E; apply loadb_range).
    unfold at_delim, is_delim in Hl. by rewrite Hl.
Qed.

Lemma strcspn_loop_spec w : forall n s l c0, string_in m s (w ++ l) -> plain w -> at_delim l -> (length w < n)%nat ->
  strcspn_loop fuel m n s delim c0 = Some (s + Z.of_nat (length w), match l with [] => match w with [] => c0 | _ => 0 end | c :: _ => c end).
Proof using All.
  induction w as [|c w IH]; intros [|n] s l c0 Hs Hw Hl Hn; simpl in Hn; try lia; cbn [strcspn_loop length].
  - rewrite Z.add_0_r. destruct (in_set_head s l Hs Hl) as [E1 E2]. destruct l as [|c l]; [by rewrite E1|]. destruct (string_cons _ _ _ _ Hs) as (_ & Hc & _).
    simpl in E1, E2. rewrite E1, E2. cbn [mbind option_bind]. by rewrite (proj2 (Z.eqb_neq _ _)).
  - destruct (plain_step c w s l (Z.of_nat (length w)) Hs Hw) as (Hu & E1 & Hc & E2 & Hs' & Hw' & Ea). rewrite E1, E2. cbn [mbind option_bind].
    rewrite (proj2 (Z.eqb_neq _ _)), Z.eqb_refl, u32_small by done. cbn [negb]. rewrite (IH n (s + 1) l 0) by (done || lia). rewrite Ea, Nat2Z.inj_succ.
    f_equal. f_equal; [lia|]. by destruct l, w.
Qed.

Lemma strtok_scan_spec w : forall n s l, string_in m s (w ++ l) -> plain w -> at_delim l -> (length w < n)%nat ->
  strtok_scan fuel m n s delim = Some (hd 0 l, u32 (s + Z.of_nat (length w) + 1)).
Proof using All.
  induction w as [|c w IH]; intros [|n] s l Hs Hw Hl Hn; simpl in Hn; try lia; cbn [strtok_scan length].
  - destruct (in_set_head s l Hs Hl) as [-> ->]. cbn [mbind option_bind]. by rewrite Z.eqb_refl, Z.add_0_r.
  - destruct (plain_step c w s l (Z.of_nat (length w)) Hs Hw) as (Hu & -> & Hc & -> & Hs' & Hw' & Ea). cbn [mbind option_bind].
    rewrite (proj2 (Z.eqb_neq _ _)), u32_small by done. rewrite (IH n (s + 1) l) by (done || lia). do 3 f_equal. lia.
Qed.

Lemma strtok_skip_spec l0 : forall n s l, string_in m s (l0 ++ l) -> Forall (fun c => is_delim c = true) l0 ->
  match l with [] => True | c :: _ => is_delim c = false end -> (length l0 < n)%nat ->
  strtok_skip fuel m n s delim true = Some (inr (hd 0 l, u32 (s + Z.of_nat (length l0) + 1))).
Proof using All.
  induction l0 as [|c l0 IH]; intros [|n] s l Hs Hin Hl Hn; simpl in Hn; try lia; cbn [strtok_skip length].
  - rewrite Z.add_0_r. assert (loadb m s = hd 0 l) as E by (destruct l; [by rewrite (string_nil m s Hs)|apply (string_cons _ _ _ _ Hs)]).
    rewrite E, in_set_spec by (rewrite <- E; apply loadb_range). cbn [mbind option_bind].
    assert (is_delim (hd 0 l) = false) as El by (destruct l; [apply not_delim_0|done]). unfold is_delim in El. by rewrite El.
  - apply Forall_cons in Hin as [Hc0 Hin]. pose proof (string_next m s [c] _ Hs) as Hnx. simpl in Hnx. destruct (string_cons _ _ _ _ Hs) as (E & Hc & Hs'). rewrite E.
    rewrite in_set_spec by (rewrite <- E; apply loadb_range). unfold is_delim in Hc0. rewrite Hc0. cbn [mbind option_bind].
    rewrite (proj2 (Z.eqb_neq _ _)) by done. cbn [negb]. rewrite u32_small in Hs' |- * by (unfold is_u32; lia). rewrite (IH n (s + 1) l) by (done || lia).
    do 4 f_equal. lia.
Qed.

(** The first character outside the set is not skipped in either mode. *)
Lemma strtok_skip_plain n s c l skip : (0 < n)%nat -> string_in m s (c :: l) -> is_delim c = false ->
  strtok_skip fuel m n s delim skip = Some (inr (c, u32 (s + 1))).
Proof using All.
  intros Hn Hs Hc. destruct n as [|n]; [lia|]. cbn [strtok_skip]. destruct (string_cons _ _ _ _ Hs) as (E & _ & _). rewrite E, in_set_spec by (rewrite <- E; apply loadb_range).
  unfold is_delim in Hc. by rewrite Hc.
Qed.

(** ** One call *)

(** A call that finds a token of one or more characters, behind [l0] that it skips. *)
Lemma token_call s lasts skip l0 w r : 0 < s -> string_in m s (l0 ++ w ++ r) -> Forall (fun c => is_delim c = true) l0 -> (skip = true \/ l0 = []) ->
  plain w -> w <> [] -> at_delim r -> (length (l0 ++ w) < fuel)%nat ->
  let q := s + Z.of_nat (length l0) in
  __strtok_r fuel m s delim lasts skip =
    Some (q, match r with [] => m | _ => storeb m (q + Z.of_nat (length w)) 0 end, match r with [] => 0 | _ => q + Z.of_nat (length w) + 1 end) /\
  string_in m q (w ++ r).
Proof using All.
  intros Hs0 Hs Hl0 Hskip Hw Hwn Hr Hf q. rewrite length_app in Hf. unfold __strtok_r. rewrite (proj2 (Z.eqb_neq s 0)), (proj2 (Z.eqb_neq s 0)) by lia.
  destruct w as [|c w]; [done|]. simpl in Hf. pose proof (string_drop m s _ (Z.of_nat (length l0)) Hs ltac:(rewrite length_app; lia)) as Hq.
  rewrite Nat2Z.id, drop_app_length in Hq. fold q in Hq.
  assert (strtok_skip fuel m fuel s delim skip = Some (inr (c, u32 (q + 1)))) as ->.
  { destruct Hskip as [-> | ->].
    - rewrite (strtok_skip_spec l0 fuel s ((c :: w) ++ r) Hs Hl0) by (lia || by apply Forall_cons in Hw as [? _]). done.
    - unfold q. cbn [length]. rewrite Z.add_0_r. apply (strtok_skip_plain fuel s c (w ++ r)); [lia|done|]. by apply Forall_cons in Hw as [? _]. }
  cbn [mbind option_bind]. destruct (plain_step c w q r 0 Hq Hw) as (Hu & _ & Hc & _ & Hs' & Hw' & _).
  rewrite (proj2 (Z.eqb_neq c 0)) by done. rewrite (u32_small (q + 1)) by done. replace (q + 1 - 1) with q by lia.
  pose proof (string_size m q _ 0 Hq ltac:(lia)) as Huq. rewrite Z.add_0_r in Huq. rewrite (u32_small q) by done.
  rewrite (strtok_scan_spec w fuel (q + 1) r Hs' Hw' Hr) by lia. cbn [mbind option_bind]. split; [|done].
  destruct r as [|d r]; simpl; [done|]. pose proof (string_next m (q + 1) w _ Hs') as Hn1. pose proof (string_next m (q + 1) (w ++ [d]) r) as Hn2.
  rewrite <- app_assoc in Hn2. specialize (Hn2 Hs'). rewrite length_app in Hn2. simpl in Hn2.
  assert (d <> 0) as Hd by (intros ->; unfold at_delim in Hr; by rewrite not_delim_0 in Hr). rewrite (proj2 (Z.eqb_neq d 0)) by done.
  rewrite !u32_small by (unfold is_u32; rewrite ?u32_small by (unfold is_u32; lia); lia). do 3 f_equal; [f_equal|]; lia.
Qed.

(** No token is left. *)
Lemma end_call s lasts skip l : 0 < s -> string_in m s l -> Forall (fun c => is_delim c = true) l -> (skip = true \/ l = []) ->
  (length l < fuel)%nat -> __strtok_r fuel m s delim lasts skip = Some (0, m, 0).
Proof using All.
  intros Hs0 Hs Hl Hskip Hf. unfold __strtok_r. rewrite (proj2 (Z.eqb_neq s 0)), (proj2 (Z.eqb_neq s 0)) by lia.
  assert (exists p, strtok_skip fuel m fuel s delim skip = Some (inr (0, p))) as [p ->]; [|done]. destruct Hskip as [-> | ->].
  - rewrite <- (app_nil_r l) in Hs. rewrite (strtok_skip_spec l fuel s [] Hs Hl) by done. by eexists.
  - exists (u32 (s + 1)). assert (forall n, (0 < n)%nat -> strtok_skip fuel m n s delim skip = Some (inr (0, u32 (s + 1)))) as H; [|apply H; simpl in Hf; lia].
    intros [|n] Hn; [lia|]. cbn [strtok_skip]. rewrite (string_nil m s Hs), in_set_spec by done. by case_bool_decide.
Qed.

(** An empty field. *)
Lemma empty_call s lasts d l : 0 < s -> string_in m s (d :: l) -> is_delim d = true ->
  __strtok_r fuel m s delim lasts false = Some (s, storeb m s 0, s + 1).
Proof using All.
  intros Hs0 Hs Hd. unfold __strtok_r. rewrite (proj2 (Z.eqb_neq s 0)), (proj2 (Z.eqb_neq s 0)) by lia.
  pose proof (string_size m s _ 0 Hs ltac:(lia)) as Hu. rewrite Z.add_0_r in Hu. pose proof (string_size m s _ 1 Hs ltac:(simpl; lia)) as Hu1.
  destruct (string_cons _ _ _ _ Hs) as (E & Hn & _).
  assert (strtok_skip fuel m fuel s delim false = Some (inl (s + 1))) as ->.
  { assert (forall n, (0 < n)%nat -> strtok_skip fuel m n s delim false = Some (inl (s + 1))) as H; [|apply H; lia].
    intros [|n] Hn0; [lia|]. cbn [strtok_skip]. rewrite E, in_set_spec by (rewrite <- E; apply loadb_range). unfold is_delim in Hd. rewrite Hd. cbn [mbind option_bind].
    rewrite (proj2 (Z.eqb_neq d 0)), u32_small by done. done. }
  cbn [mbind option_bind]. replace (s + 1 - 1) with s by lia. by rewrite u32_small.
Qed.

(** ** Counting *)

Lemma strspn_counts s l0 l : string_in m s (l0 ++ l) -> Forall (fun c => is_delim c = true) l0 ->
  match l with [] => True | c :: _ => is_delim c = false end -> (length l0 < fuel)%nat -> strspn fuel m s delim = Some (Z.of_nat (length l0)).
Proof using All.
  intros Hs Hl0 Hl Hf. unfold strspn. rewrite (strspn_loop_spec l0 fuel s l) by done. pose proof (string_next m s l0 l Hs). destruct Hs as (_ & ? & _).
  cbn [mbind option_bind]. f_equal. rewrite u32_small; unfold is_u32; lia.
Qed.
Lemma strcspn_counts s w l : string_in m s (w ++ l) -> plain w -> at_delim l -> (length w < fuel)%nat -> strcspn fuel m s delim = Some (Z.of_nat (length w)).
Proof using All.
  intros Hs Hw Hl Hf. unfold strcspn. rewrite (strcspn_loop_spec w fuel s l 0) by done. pose proof (string_next m s w l Hs). destruct Hs as (_ & ? & _).
  cbn [mbind option_bind]. f_equal. rewrite u32_small; unfold is_u32; lia.
Qed.
Lemma strpbrk_first s w l : string_in m s (w ++ l) -> plain w -> at_delim l -> (length w < fuel)%nat ->
  strpbrk fuel m s delim = Some (match l with [] => 0 | _ => s + Z.of_nat (length w) end).
Proof using All.
  intros Hs Hw Hl Hf. unfold strpbrk. pose proof (string_head m s _ Hs) as E. destruct (loadb m s =? 0) eqn:E0.
  - apply Z.eqb_eq in E0. assert (w ++ l = []) as [-> ->]%app_nil; [|done]. destruct (w ++ l) as [|c l'] eqn:Ec; [done|].
    destruct (string_cons _ _ _ _ Hs) as (? & ? & _). congruence.
  - apply Z.eqb_neq in E0. rewrite (strcspn_loop_spec w fuel s l) by done. cbn [mbind option_bind]. destruct l as [|d l].
    + destruct w; [by rewrite (string_nil m s Hs) in E0|done].
    + pose proof (string_drop m s _ (Z.of_nat (length w)) Hs ltac:(rewrite length_app; lia)) as Hd. rewrite Nat2Z.id, drop_app_length in Hd.
      destruct (string_cons _ _ _ _ Hd) as (_ & Hn & _). by rewrite (proj2 (Z.eqb_neq d 0)).
Qed.
End Set_.

(** ** All calls *)

(** The fields of a text between the characters of [ds], empty ones included. *)
Fixpoint split (ds l : list Z) : list (list Z) :=
  match l with
  | [] => [[]]
  | c :: l =>
      if is_delim ds c then [] :: split ds l
      else match split ds l with w :: ws => (c :: w) :: ws | [] => [[c]] end
  end.
(** Its tokens are the fields that hold something. *)
Definition tokens (ds l : list Z) : list (list Z) := filter (fun w => w <> []) (split ds l).
(** The fields without an empty one at the end. *)
Fixpoint drop_empty_end (ws : list (list Z)) : list (list Z) :=
  match ws with
  | [] => []
  | [w] => match w with [] => [] | _ => [w] end
  | w :: ws => w :: drop_empty_end ws
  end.
Definition pieces (skip : bool) (ds l : list Z) : list (list Z) := if skip then tokens ds l else drop_empty_end (split ds l).

(** A call with NULL goes on from [*lasts]; one with a text forgets it. *)
Lemma call_again fuel m delim p skip : __strtok_r fuel m 0 delim p skip = __strtok_r fuel m p delim p skip.
Proof. unfold __strtok_r. by destruct (p =? 0). Qed.
Lemma first_call fuel m s delim lasts skip : 0 < s -> __strtok_r fuel m s delim lasts skip = __strtok_r fuel m 0 delim s skip.
Proof. intros Hs. rewrite call_again. unfold __strtok_r. by rewrite (proj2 (Z.eqb_neq s 0)), (proj2 (Z.eqb_neq s 0)) by lia. Qed.

Section Pieces.
Context (ds : list Z).
Local Abbreviation is_delim := (is_delim ds).
Local Abbreviation plain := (plain ds).

Lemma split_cons l : exists w ws, split ds l = w :: ws.
Proof. induction l as [|c l (w & ws & E)]; simpl; [by eexists _, _|]. rewrite E. destruct (is_delim c); by eexists _, _. Qed.
Lemma split_plain w : plain w -> split ds w = [w].
Proof. induction w as [|c w IH]; [done|]. intros [Hc Hw]%Forall_cons. simpl. by rewrite Hc, IH. Qed.
Lemma split_app w d r : plain w -> is_delim d = true -> split ds (w ++ d :: r) = w :: split ds r.
Proof. induction w as [|c w IH]; intros Hw Hd; simpl; [by rewrite Hd|]. apply Forall_cons in Hw as [Hc Hw]. by rewrite Hc, IH. Qed.

Lemma pieces_skip l0 l : Forall (fun c => is_delim c = true) l0 -> pieces true ds (l0 ++ l) = pieces true ds l.
Proof.
  induction l0 as [|d l0 IH]; [done|]. intros [Hd Hl]%Forall_cons. rewrite <- IH by done. unfold pieces, tokens. simpl. rewrite Hd.
  by rewrite filter_cons_False by auto.
Qed.
Lemma pieces_empty d l : is_delim d = true -> pieces false ds (d :: l) = [] :: pieces false ds l.
Proof. intros Hd. unfold pieces. simpl. rewrite Hd. destruct (split_cons l) as (w & ws & ->). done. Qed.
Lemma pieces_token skip w r : plain w -> w <> [] -> at_delim ds r ->
  pieces skip ds (w ++ r) = w :: match r with [] => [] | _ :: r => pieces skip ds r end.
Proof.
  intros Hw Hn Hr. destruct r as [|d r]; simpl in *; unfold pieces, tokens.
  - rewrite app_nil_r, split_plain by done. destruct skip; [by rewrite filter_cons_True|]. by destruct w.
  - rewrite split_app by done. destruct skip; [by rewrite filter_cons_True|]. by destruct (split_cons r) as (? & ? & ->).
Qed.

(** Where a text starts: with characters of one sort, and then one of the other. *)
Lemma cut_plain l : exists w r, l = w ++ r /\ plain w /\ at_delim ds r.
Proof.
  induction l as [|c l (w & r & -> & Hw & Hr)]; [exists [], []; split_and!; by try constructor|]. destruct (is_delim c) eqn:Hc.
  - exists [], (c :: w ++ r). split_and!; by try constructor.
  - exists (c :: w), r. split; [done|]. split; [by constructor|done].
Qed.
Lemma cut_delims l : exists l0 r, l = l0 ++ r /\ Forall (fun c => is_delim c = true) l0 /\ match r with [] => True | c :: _ => is_delim c = false end.
Proof.
  induction l as [|c l (w & r & -> & Hw & Hr)]; [exists [], []; split_and!; by try constructor|]. destruct (is_delim c) eqn:Hc.
  - exists (c :: w), r. split; [done|]. split; [by constructor|done].
  - exists [], (c :: w ++ r). split_and!; by try constructor.
Qed.

(** What a call meets: no more piece, an empty field, or a piece behind what it skips. *)
Lemma pieces_cases skip l :
  (Forall (fun c => is_delim c = true) l /\ (skip = true \/ l = []) /\ pieces skip ds l = []) \/
  (exists d r, skip = false /\ l = d :: r /\ is_delim d = true) \/
  (exists l0 w r, l = l0 ++ w ++ r /\ Forall (fun c => is_delim c = true) l0 /\ (skip = true \/ l0 = []) /\ plain w /\ w <> [] /\ at_delim ds r /\
    pieces skip ds l = w :: match r with [] => [] | _ :: r => pieces skip ds r end).
Proof.
  destruct skip.
  - destruct (cut_delims l) as (l0 & l' & -> & Hl0 & Hl'). destruct l' as [|c l'].
    + left. rewrite app_nil_r. split; [done|]. split; [by left|]. rewrite <- (app_nil_r l0), pieces_skip by done. done.
    + right. right. destruct (cut_plain l') as (w & r & -> & Hw & Hr). exists l0, (c :: w), r. split; [done|]. split; [done|]. split; [by left|].
      assert (plain (c :: w)) by by constructor. split; [done|]. split; [done|]. split; [done|]. rewrite pieces_skip by done. by apply (pieces_token true (c :: w)).
  - destruct (cut_plain l) as (w & r & -> & Hw & Hr). destruct w as [|c w].
    + destruct r as [|d r]; [left|right; left; by exists d, r]. split; [constructor|]. split; [by right|done].
    + right. right. exists [], (c :: w), r. split; [done|]. split; [constructor|]. split; [by right|]. split; [done|]. split; [done|]. split; [done|]. by apply pieces_token.
Qed.
End Pieces.

Lemma string_cut m w : forall q d r, string_in m q (w ++ d :: r) -> string_in (storeb m (q + Z.of_nat (length w)) 0) q w.
Proof.
  induction w as [|c w IH]; intros q d r Hs; pose proof (string_size m q _ 0 Hs ltac:(lia)) as Hu; rewrite Z.add_0_r in Hu.
  - split; [|unfold is_u32 in Hu; simpl; lia]. simpl. rewrite Z.add_0_r, Libk.loadb_storeb by done. by rewrite Z.eqb_refl.
  - pose proof (string_next m q [c] _ Hs) as Hq. simpl in Hq. pose proof (string_next m q (c :: w) _ Hs) as Hx. destruct (string_cons _ _ _ _ Hs) as (E & Hn & Hs').
    rewrite u32_small in Hs' by (unfold is_u32; lia). specialize (IH (q + 1) d r Hs') as (Hc & _ & Hl). simpl length in *. rewrite Nat2Z.inj_succ in *.
    replace (q + 1 + Z.of_nat (length w)) with (q + Z.succ (Z.of_nat (length w))) in * by lia. split; [|simpl; unfold is_u32 in Hu; lia]. split; [|done].
    rewrite Libk.loadb_storeb by (unfold is_u32 in *; lia). zcases.
Qed.

(** The caller: it takes pieces, each call from the pointer the last one left, until it gets NULL. *)
Fixpoint rounds (call : Mem -> Z -> option (Z * Mem * Z)) (n : nat) (m : Mem) (p : Z) : option (list Z * Mem) :=
  match n with
  | O => None
  | S n =>
      '(t, m, p) ← call m p;
      if t =? 0 then Some ([], m) else '(ts, m) ← rounds call n m p; Some (t :: ts, m)
  end.

Lemma rounds_ext f g n : (forall m p, f m p = g m p) -> forall m p, rounds f n m p = rounds g n m p.
Proof.
  intros Hfg. induction n as [|n IH]; intros m p; [done|]. cbn [rounds]. rewrite Hfg. destruct (g m p) as [[[t m'] p']|]; [|done]. cbn [mbind option_bind].
  destruct (t =? 0); [done|]. by rewrite IH.
Qed.

(** [call] takes the text [l] at [p] apart into [ps]: the pointers it hands out are those of the pieces, each a string of its own
    when the last call is made, and nothing outside the text is written. *)
Definition takes_apart (call : Mem -> Z -> option (Z * Mem * Z)) (n : nat) (m : Mem) (p : Z) (l : list Z) (ps : list (list Z)) : Prop :=
  exists ts m', rounds call n m p = Some (ts, m') /\ Forall2 (string_in m') ts ps /\
    (forall x, is_u32 x -> x < p \/ p + Z.of_nat (length l) <= x -> loadb m' x = loadb m x).

Section Rounds.
Context (fuel : nat) (delim : Z) (ds : list Z) (skip : bool).
Context (Hfuel : (length ds < fuel)%nat).

(** The set stands aside of the text. *)
Definition aside (p n : Z) : Prop := delim + Z.of_nat (length ds) < p \/ p + n < delim.

Definition pieces_taken (n : nat) (m : Mem) (p : Z) (l : list Z) : Prop :=
  takes_apart (fun m p => __strtok_r fuel m p delim p skip) n m p l (pieces skip ds l).

Lemma pieces_taken_null n m : (0 < n)%nat -> pieces_taken n m 0 [].
Proof. destruct n as [|n]; [lia|]. intros _. exists [], m. by destruct skip. Qed.

(** A call that takes the field [w] at [q] and ends it at its delimiter [d], before [r]. *)
Lemma pieces_taken_field n m p q l w d r : (forall x, x = q + Z.of_nat (length w) -> __strtok_r fuel m p delim p skip = Some (q, storeb m x 0, x + 1)) ->
  string_in m q (w ++ d :: r) -> p <= q -> q <> 0 -> p + Z.of_nat (length l) = q + Z.of_nat (length w) + 1 + Z.of_nat (length r) ->
  pieces skip ds l = w :: pieces skip ds r -> pieces_taken n (storeb m (q + Z.of_nat (length w)) 0) (q + Z.of_nat (length w) + 1) r ->
  pieces_taken (S n) m p l.
Proof.
  intros Hcall Hq Hpq Hq0 Hl Hps (ts & m' & Hr & Hts & Hm'). pose proof (string_next m q w _ Hq) as Hx. destruct (string_cut m w q d r Hq) as [Hc Hb].
  exists (q :: ts), m'. rewrite Hps. cbn [rounds]. rewrite (Hcall _ eq_refl). cbn [mbind option_bind]. rewrite (proj2 (Z.eqb_neq q 0)), Hr by done.
  split; [done|]. split; [constructor; [|done]|].
  - apply (string_frame (storeb m (q + Z.of_nat (length w)) 0)); [|done]. intros k Hk. apply Hm'; [unfold is_u32|]; lia.
  - intros x Hux Ho. rewrite Hm' by (done || lia). rewrite Libk.loadb_storeb by (unfold is_u32 in *; lia). zcases.
Qed.

Lemma rounds_pieces n : forall m p l, 0 < p -> string_in m p l -> string_in m delim ds -> aside p (Z.of_nat (length l)) ->
  (length l < fuel)%nat -> (length l < n)%nat -> pieces_taken n m p l.
Proof using Hfuel.
  induction n as [|n IH]; intros m p l Hp Hs Hds Ha Hf Hn; [lia|]. unfold aside in Ha.
  assert (forall q w d r, string_in m q (w ++ d :: r) -> p <= q -> p + Z.of_nat (length l) = q + Z.of_nat (length w) + 1 + Z.of_nat (length r) ->
    (length r < length l)%nat -> pieces_taken n (storeb m (q + Z.of_nat (length w)) 0) (q + Z.of_nat (length w) + 1) r) as Hrest.
  { intros q w d r Hq Hpq Hl Hlt. pose proof (string_next m q w _ Hq) as Hx. apply IH; try lia; [| |unfold aside; lia].
    - pose proof (string_drop m q _ (Z.of_nat (length w) + 1) Hq ltac:(rewrite length_app; simpl; lia)) as Hr.
      replace (Z.to_nat (Z.of_nat (length w) + 1)) with (length (w ++ [d])) in Hr by (rewrite length_app; simpl; lia).
      replace (w ++ d :: r) with ((w ++ [d]) ++ r) in Hr by (by rewrite <- app_assoc). rewrite drop_app_length, Z.add_assoc in Hr.
      refine (string_frame m _ _ r _ Hr). intros k Hk. pose proof (string_size m _ r k Hr Hk). rewrite Libk.loadb_storeb by (unfold is_u32 in *; lia). zcases.
    - refine (string_frame m _ _ ds _ Hds). intros k Hk. pose proof (string_size m _ ds k Hds Hk). rewrite Libk.loadb_storeb by (unfold is_u32 in *; lia). zcases. }
  destruct (pieces_cases ds skip l) as [(Hl & Hsk & Hps)|[(d & r & Hsk & -> & Hd)|(l0 & w & r & -> & Hl0 & Hsk & Hw & Hwn & Hr & Hps)]].
  - exists [], m. cbn [rounds]. rewrite (end_call fuel m delim ds Hds Hfuel p p skip l) by done. rewrite Hps. done.
  - eapply (pieces_taken_field n m p p (d :: r) [] d r); [|done|lia|lia|simpl; lia|rewrite Hsk; by apply pieces_empty|apply (Hrest p [] d r); simpl; lia || done].
    intros x ->. simpl. rewrite Z.add_0_r, Hsk. by eapply empty_call.
  - rewrite !length_app in *. destruct (token_call fuel m delim ds Hds Hfuel p p skip l0 w r) as [Hcall Hq]; [done..|rewrite length_app; lia|].
    remember (p + Z.of_nat (length l0)) as q eqn:Eq. destruct r as [|d r].
    + exists [q], m. cbn [rounds]. rewrite Hcall. cbn [mbind option_bind]. rewrite (proj2 (Z.eqb_neq q 0)) by lia.
      assert (0 < length w)%nat by (destruct w; [done|simpl; lia]). rewrite app_nil_r in Hq.
      destruct n as [|n']; [lia|]. cbn [rounds]. rewrite Hps. split; [by destruct skip|]. split; [constructor; [done|constructor]|done].
    + simpl in Hn, Hf. eapply (pieces_taken_field n m p q _ w d r); [by intros x ->|done|lia|lia|rewrite !length_app; simpl; clear Hrest IH; lia|done|].
      apply (Hrest q w d r); [done|lia|simpl; lia|simpl; lia].
Qed.
End Rounds.

(** C37: strtok_r, strtok and strsep take a string apart: called again and again, each from the pointer the last call left, until it
    returns NULL, strtok_r and strtok hand out the string's nonempty runs of characters outside the set, in order, and strsep all its
    fields, empty ones included except one at the end.  Every piece is a NUL-terminated string of its own in the final memory, and
    no byte outside the text changes.  A first call with the text is a later one that finds the text in [*lasts]. *)
Theorem strings_split fuel m s delim ds l lasts : 0 < s -> string_in m s l -> string_in m delim ds -> aside delim ds s (Z.of_nat (length l)) ->
  (length ds < fuel)%nat -> (length l < fuel)%nat ->
  strtok_r fuel m s delim lasts = strtok_r fuel m 0 delim s /\ strtok fuel m s delim lasts = strtok fuel m 0 delim s /\
  takes_apart (fun m p => strtok_r fuel m 0 delim p) fuel m s l (filter (fun w => w <> []) (split ds l)) /\
  takes_apart (fun m p => strtok fuel m 0 delim p) fuel m s l (filter (fun w => w <> []) (split ds l)) /\
  takes_apart (fun m p => strsep fuel m p delim) fuel m s l (drop_empty_end (split ds l)).
Proof.
  intros Hs0 Hs Hds Ha Hf Hl.
  pose proof (fun skip => rounds_pieces fuel delim ds skip Hf fuel m s l Hs0 Hs Hds Ha Hl Hl) as H.
  assert (takes_apart (fun m p => strtok_r fuel m 0 delim p) fuel m s l (filter (fun w => w <> []) (split ds l))) as Hr.
  { destruct (H true) as (ts & m' & Hr & Ht). exists ts, m'. split; [|done]. rewrite <- Hr. apply rounds_ext. intros m1 p. apply call_again. }
  split; [by apply first_call|]. split; [by apply first_call|]. split; [exact Hr|]. split; [exact Hr|exact (H false)].
Qed.

(** ** Witnesses *)

(** "a,,b;" and the set ",;". *)
Definition ex_fields : Mem := storel (storel (fun _ => 0) 4096 [97; 44; 44; 98; 59; 0]) 4112 [44; 59; 0].
Example ex_split : split [44; 59] [97; 44; 44; 98; 59] = [[97]; []; [98]; []].
Proof. reflexivity. Qed.

Lemma strings_split_witness :
  takes_apart (fun m p => strtok_r 9 m 0 4112 p) 9 ex_fields 4096 [97; 44; 44; 98; 59] [[97]; [98]] /\
  takes_apart (fun m p => strsep 9 m p 4112) 9 ex_fields 4096 [97; 44; 44; 98; 59] [[97]; []; [98]].
Proof.
  assert (string_in ex_fields 4096 [97; 44; 44; 98; 59]) as Hs by (split; [vm_compute; repeat split; discriminate|simpl; lia]).
  assert (string_in ex_fields 4112 [44; 59]) as Hd by (split; [vm_compute; repeat split; discriminate|simpl; lia]).
  destruct (strings_split 9 ex_fields 4096 4112 [44; 59] [97; 44; 44; 98; 59] 0) as (_ & _ & Hr & _ & Hp);
    [lia|exact Hs|exact Hd|unfold aside; simpl; lia|simpl; lia|simpl; lia|].
  split; [exact Hr|exact Hp].
Defined.

(** The pointers handed out. *)
Example ex_tokens : option_map fst (rounds (fun m p => strtok_r 9 m 0 4112 p) 9 ex_fields 4096) = Some [4096; 4099].
Proof. vm_compute. reflexivity. Qed.
(** strsep does not hand out the empty field behind the last delimiter. *)
Example ex_separated : option_map fst (rounds (fun m p => strsep 9 m p 4112) 9 ex_fields 4096) = Some [4096; 4098; 4099].
Proof. vm_compute. reflexivity. Qed.
Example ex_spans : strspn 9 ex_fields 4097 4112 = Some 2 /\ strcspn 9 ex_fields 4096 4112 = Some 1 /\ strpbrk 9 ex_fields 4098 4112 = Some 4098.
Proof. vm_compute. split_and!; reflexivity. Qed.
End NewlibTokens.
