(* ===== verification/Factorization.v ===== *)
(** Periods and critical factorizations of words: what newlib/newlib/libc/string/str-two-way.h
    relies on, apart from the code.

    A word is a function [x] of the index with a length [n].  A position is critical when every
    local repetition there is a period of the whole word ([critical]); the later of the two
    suffixes that are largest for an order and for its inverse starts at one ([critical_later]).
    [scan] is the invariant of the loop that looks for such a suffix, and the lemmas behind it are
    the steps of that loop. *)

From S2P Require Import Prelude.

(** An order of the characters, as a test. *)
Class Order (less : Z -> Z -> bool) : Prop := {
  less_irrefl a : less a a = false;
  less_trans a b c : less a b = true -> less b c = true -> less a c = true;
  less_total a b : a <> b -> less a b = false -> less b a = true
}.
#[export] Instance ltb_order : Order Z.ltb.
Proof. split; intros *; rewrite ?Z.ltb_lt, ?Z.ltb_ge; lia. Qed.
#[export] Instance flip_order less : Order less -> Order (flip less).
Proof.
  intros H. split; unfold flip; intros.
  - apply less_irrefl.
  - eapply less_trans; eassumption.
  - apply less_total; [done|assumption].
Qed.

Module Factorization.

Section Word.
Context (x : Z -> Z) (n : Z).

(** [s] is a period of the word from position [l] on. *)
Definition period_from (l s : Z) : Prop := forall t, l <= t -> t + s < n -> x t = x (t + s).
(** The word repeats itself at distance [s] across position [l], as far as it reaches. *)
Definition local_rep (l s : Z) : Prop := forall t, 0 <= t < l -> l <= t + s -> t + s < n -> x t = x (t + s).
Definition critical (l : Z) : Prop := forall s, 1 <= s -> local_rep l s -> l < s /\ period_from 0 s.

(** The suffix at [a] is smaller than that at [b] because of a character. *)
Definition differs (less : Z -> Z -> bool) (a b : Z) : Prop :=
  exists d, 0 <= d /\ a + d < n /\ b + d < n /\ (forall e, 0 <= e < d -> x (a + e) = x (b + e)) /\ less (x (a + d)) (x (b + d)) = true.
(** ... or because it ends earlier. *)
Definition suffix_lt (less : Z -> Z -> bool) (a b : Z) : Prop :=
  differs less a b \/ (b < a /\ forall e, 0 <= e -> a + e < n -> x (a + e) = x (b + e)).
Definition largest (less : Z -> Z -> bool) (l : Z) : Prop :=
  0 <= l < n /\ forall k, 0 <= k < n -> k <> l -> suffix_lt less k l.

Lemma period_mult l s M q t : (forall t, l <= t -> t + s < M -> x t = x (t + s)) -> 1 <= s -> 0 <= q -> l <= t -> t + q * s < M ->
  x t = x (t + q * s).
Proof.
  intros Hp Hs Hq. revert t. pattern q. apply natlike_ind; [|intros k Hk IH t Ht Hm|done].
  - intros t Ht Hm. f_equal. lia.
  - rewrite (IH t) by nia. rewrite (Hp (t + k * s)) by nia. f_equal. lia.
Qed.

Lemma period_local s l : 0 <= l -> period_from 0 s -> local_rep l s.
Proof. intros Hl H t Ht _ Hn. apply H; lia. Qed.

Section Ordered.
Context (less : Z -> Z -> bool) {O : Order less}.

Lemma less_neq a b : less a b = true -> a <> b.
Proof. intros H ->. by rewrite less_irrefl in H. Qed.
Lemma less_asym a b : less a b = true -> less b a = true -> False.
Proof. intros H1 H2. pose proof (less_trans _ _ _ H1 H2) as H. by rewrite less_irrefl in H. Qed.

Lemma differs_trans a b c : differs less a b -> differs less b c -> differs less a c.
Proof.
  intros (d1 & ? & ? & ? & E1 & L1) (d2 & ? & ? & ? & E2 & L2).
  destruct (Z.lt_trichotomy d1 d2) as [Hlt|[->|Hlt]].
  - exists d1. split_and!; try lia; [intros e He; rewrite E1 by lia; apply E2; lia|]. by rewrite <- E2 by lia.
  - exists d2. split_and!; try lia; [intros e He; rewrite E1 by lia; apply E2; lia|]. by eapply less_trans.
  - exists d2. split_and!; try lia; [intros e He; rewrite E1 by lia; apply E2; lia|]. by rewrite E1 by lia.
Qed.

(** Smaller suffixes really are. *)
Lemma suffix_asym a b : suffix_lt less a b -> differs less b a -> False.
Proof.
  intros [(d1 & ? & ? & ? & E1 & L1)|[? E1]] (d2 & ? & ? & ? & E2 & L2).
  - destruct (Z.lt_trichotomy d1 d2) as [Hlt|[->|Hlt]].
    + rewrite E2 in L1 by lia. by rewrite less_irrefl in L1.
    + by eapply less_asym.
    + rewrite E1 in L2 by lia. by rewrite less_irrefl in L2.
  - rewrite E1 in L2 by lia. by rewrite less_irrefl in L2.
Qed.

(** The first difference of a smaller suffix decides. *)
Lemma suffix_first a b d : suffix_lt less a b -> 0 <= d -> a + d < n -> (forall e, 0 <= e < d -> x (a + e) = x (b + e)) ->
  x (a + d) <> x (b + d) -> less (x (a + d)) (x (b + d)) = true.
Proof.
  intros [(d1 & ? & ? & ? & E1 & L1)|[? E1]] Hd Hn E Hne; [|by rewrite E1 in Hne by lia].
  destruct (Z.lt_trichotomy d1 d) as [Hlt|[->|Hlt]]; [|done|].
  - rewrite E in L1 by lia. by rewrite less_irrefl in L1.
  - by rewrite E1 in Hne by lia.
Qed.
End Ordered.

(** A word that has not the period [s] shows it somewhere first. *)
Lemma first_break s : period_from 0 s \/ exists t, 0 <= t /\ t + s < n /\ x t <> x (t + s) /\ forall t', 0 <= t' < t -> x t' = x (t' + s).
Proof.
  destruct (search_below (fun t => negb (x t =? x (t + s))) (n - s)) as [H|(t & Ht & Hx & H)].
  - left. intros t Ht Hn. by apply Z.eqb_eq, negb_false_iff, H; lia.
  - right. exists t. apply negb_true_iff, Z.eqb_neq in Hx. split_and!; [lia..|done|]. intros t' Ht'. by apply Z.eqb_eq, negb_false_iff, H.
Qed.

Lemma largest_no_short (less : Z -> Z -> bool) {O : Order less} l s : largest less l -> 1 <= s <= l -> local_rep l s -> False.
Proof.
  intros [Hl Hmax] Hs Hrep.
  destruct (Hmax (l - s) ltac:(lia) ltac:(lia)) as [(d & Hd & Ha & Hb & E & L)|[? _]]; [|lia].
  destruct (Z.ltb_spec d s).
  - replace (l + d) with (l - s + d + s) in L, Hb by lia. rewrite <- Hrep in L by lia. by rewrite less_irrefl in L.
  - apply (suffix_asym less (l + s) l); [apply Hmax; lia|].
    exists (d - s). split_and!; try lia.
    + intros e He. specialize (E (e + s) ltac:(lia)). replace (l + e) with (l - s + (e + s)) by lia. rewrite E. f_equal. lia.
    + replace (l + (d - s)) with (l - s + d) by lia. by replace (l + s + (d - s)) with (l + d) by lia.
Qed.

(** The critical factorization theorem, in the form the algorithm uses: of the largest suffixes of
    an order and its inverse, the one that starts later starts at a critical position. *)
Lemma critical_later (less : Z -> Z -> bool) {O : Order less} l l' : largest less l -> largest (flip less) l' -> l' <= l -> critical l.
Proof.
  intros Hl Hl' Hle s Hs Hrep. destruct (Z.leb_spec s l) as [Hsl|Hsl]; [exfalso; by eapply largest_no_short|]. split; [done|].
  destruct (first_break s) as [Hp|(t & Ht & Hn & Hne & Hmin)]; [done|exfalso].
  destruct Hl as [Hl Hmax]. destruct Hl' as [Hl' Hmax'].
  assert (l <= t) as Hlt by (destruct (Z.leb_spec l t); [done|]; exfalso; apply Hne, Hrep; lia).
  assert (forall l0, 0 <= l0 <= t -> forall e, 0 <= e < t - l0 -> x (l0 + s + e) = x (l0 + e)) as Heq.
  { intros l0 Hl0 e He. rewrite (Hmin (l0 + e)) by lia. f_equal. lia. }
  assert (less (x (t + s)) (x t) = true) as L1.
  { pose proof (suffix_first less (l + s) l (t - l) (Hmax (l + s) ltac:(lia) ltac:(lia)) ltac:(lia) ltac:(lia) (Heq l ltac:(lia))) as L.
    replace (l + s + (t - l)) with (t + s) in L by lia. replace (l + (t - l)) with t in L by lia. apply L. congruence. }
  assert (flip less (x (t + s)) (x t) = true) as L2.
  { pose proof (suffix_first (flip less) (l' + s) l' (t - l') (Hmax' (l' + s) ltac:(lia) ltac:(lia)) ltac:(lia) ltac:(lia) (Heq l' ltac:(lia))) as L.
    replace (l' + s + (t - l')) with (t + s) in L by lia. replace (l' + (t - l')) with t in L by lia. apply L. congruence. }
  by apply (less_asym less _ _ L1 L2).
Qed.
(** ** The search for the largest suffix *)

(** What is known when the candidate [i], the position [j] before the one that would replace it, the
    offset [k] and the period [p] have been reached: [x] was read up to [j + k]. *)
Record scan (less : Z -> Z -> bool) (i j k p : Z) : Prop := {
  scan_range : 0 <= i <= j /\ 1 <= k <= p /\ j + k <= n;
  scan_whole : exists c, 1 <= c /\ j + 1 - i = c * p;
  scan_period : forall t, i <= t -> t + p < j + k -> x t = x (t + p);
  scan_inside : forall r, 0 < r < p -> exists d, 0 <= d < p - r /\ (forall e, 0 <= e < d -> x (i + r + e) = x (i + e)) /\
    less (x (i + r + d)) (x (i + d)) = true;
  scan_before : forall k', 0 <= k' < i -> differs less k' i
}.

Section Steps.
Context (less : Z -> Z -> bool) {O : Order less}.

Lemma scan_init : 1 <= n -> scan less 0 0 1 1.
Proof. intros Hn. split; [lia|exists 1; lia|intros; lia..]. Qed.

(** The character compared with is the one a period before. *)
Lemma scan_previous i j k p q : scan less i j k p -> 1 <= q -> i <= j + k - q * p -> x (i + k - 1) = x (j + k - q * p).
Proof.
  intros [(Hi & Hk & Hn) (c & Hc & Hw) Hp _ _] Hq Hle. assert (q <= c) by nia.
  replace (j + k - q * p) with (i + k - 1 + (c - q) * p) by nia. apply (period_mult i p (j + k)); [done|lia|lia|lia|nia].
Qed.

Lemma scan_extend i j k p : scan less i j k p -> j + k < n -> x (j + k) = x (i + k - 1) -> forall t, i <= t -> t + p < j + k + 1 -> x t = x (t + p).
Proof.
  intros H Hn He t Ht Hlt. destruct (Z.eq_dec (t + p) (j + k)) as [E|]; [|apply H; lia].
  rewrite E, He. rewrite (scan_previous i j k p 1 H) by lia. f_equal. lia.
Qed.

Lemma scan_next i j k p : scan less i j k p -> j + k < n -> x (j + k) = x (i + k - 1) -> k <> p -> scan less i j (k + 1) p.
Proof.
  intros H Hn He Hk. pose proof (scan_extend i j k p H Hn He) as Hx. destruct H as [Hr Hw Hp Hin Hb].
  split; [lia|done|intros t Ht Hlt; apply Hx; lia|done..].
Qed.
Lemma scan_turn i j p : scan less i j p p -> j + p < n -> x (j + p) = x (i + p - 1) -> scan less i (j + p) 1 p.
Proof.
  intros H Hn He. pose proof (scan_extend i j p p H Hn He) as Hx. destruct H as [Hr (c & Hc & Hw) Hp Hin Hb].
  split; [lia|exists (c + 1); lia|intros t Ht Hlt; apply Hx; lia|done..].
Qed.

(** Inside the part read, a suffix reads like the candidate from the rest of its offset by the period on. *)
Lemma scan_shift i j k p r e : scan less i j k p -> 0 <= r -> 0 <= e -> i + r + e < j + k -> x (i + r + e) = x (i + r mod p + e).
Proof.
  intros [(Hi & Hk & Hn) Hw Hp Hin Hb] Hr He Hlt. pose proof (Z.mod_pos_bound r p ltac:(lia)) as Hm.
  pose proof (Z.div_mod r p ltac:(lia)) as Ediv. symmetry. replace (i + r + e) with (i + r mod p + e + (r / p) * p) by lia.
  apply (period_mult i p (j + k)); [done|lia|apply Z.div_pos; lia|lia|lia].
Qed.

(** The character read is smaller: the candidate stays, and all that was read is its period. *)
Lemma scan_smaller_inside i j k p r : scan less i j k p -> j + k < n -> less (x (j + k)) (x (i + k - 1)) = true -> 0 < r < j + k + 1 - i ->
  exists d, 0 <= d < j + k + 1 - i - r /\ (forall e, 0 <= e < d -> x (i + r + e) = x (i + e)) /\ less (x (i + r + d)) (x (i + d)) = true.
Proof.
  intros H Hn Hl Hr. pose proof H as [(Hi & Hk & _) (c & Hc & Hw) Hp Hin Hb]. pose proof (Z.div_mod r p ltac:(lia)) as Ediv.
  destruct (Z.eq_dec (r mod p) 0) as [E|E].
  - exists (j + k - i - r). split; [lia|]. split.
    + intros e He. rewrite (scan_shift i j k p r e H) by lia. rewrite E. f_equal. lia.
    + replace (i + r + (j + k - i - r)) with (j + k) by lia. rewrite E in Ediv.
      rewrite (scan_previous i j k p (r / p) H) in Hl by nia. by replace (i + (j + k - i - r)) with (j + k - r / p * p) by lia.
  - pose proof (Z.mod_pos_bound r p ltac:(lia)) as Hm. destruct (Hin (r mod p) ltac:(lia)) as (d & Hd & He & Hd').
    destruct (Z.ltb_spec (i + r + d) (j + k)).
    + exists d. split; [lia|]. split; [intros e Hed; rewrite (scan_shift i j k p r e H) by lia; by apply He|].
      by rewrite (scan_shift i j k p r d H) by lia.
    + exists (j + k - i - r). split; [lia|]. split; [intros e Hed; rewrite (scan_shift i j k p r e H) by lia; apply He; lia|].
      replace (i + r + (j + k - i - r)) with (j + k) by lia. assert (c = r / p) as -> by nia.
      replace (i + k - 1) with (i + r mod p + (j + k - i - r)) in Hl by lia.
      destruct (Z.eq_dec d (j + k - i - r)) as [->|]; [by eapply less_trans|]. by rewrite He in Hl by lia.
Qed.
Lemma scan_smaller i j k p : scan less i j k p -> j + k < n -> less (x (j + k)) (x (i + k - 1)) = true ->
  scan less i (j + k) 1 (j + k + 1 - i).
Proof.
  intros H Hn Hl. pose proof (scan_smaller_inside i j k p) as Hin'. destruct H as [Hr Hw Hp Hin Hb] eqn:E.
  split; [lia|exists 1; lia|intros; lia| |done]. intros r Hr'. by apply Hin'.
Qed.

(** The character read is larger: every earlier suffix is smaller than the one behind [j]. *)
Lemma scan_larger_first i j k p : scan less i j k p -> j + k < n -> less (x (i + k - 1)) (x (j + k)) = true -> differs less i (j + 1).
Proof.
  intros H Hn Hl. pose proof H as [(Hi & Hk & _) (c & Hc & Hw) Hp Hin Hb]. exists (k - 1). split; [lia|]. split; [lia|]. split; [lia|]. split.
  - intros e He. replace (j + 1 + e) with (i + e + c * p) by lia. apply (period_mult i p (j + k)); [done|lia|lia|lia|lia].
  - by replace (j + 1 + (k - 1)) with (j + k) by lia; replace (i + (k - 1)) with (i + k - 1) by lia.
Qed.
Lemma scan_larger_between i j k p r : scan less i j k p -> j + k < n -> less (x (i + k - 1)) (x (j + k)) = true -> 0 < r < j + 1 - i ->
  differs less (i + r) (j + 1).
Proof.
  intros H Hn Hl Hr. pose proof (scan_larger_first i j k p H Hn Hl) as Hfirst.
  pose proof H as [(Hi & Hk & _) (c & Hc & Hw) Hp Hin Hb]. pose proof (Z.div_mod r p ltac:(lia)) as Ediv.
  pose proof (Z.mod_pos_bound r p ltac:(lia)) as Hm. destruct Hfirst as (d1 & Hd1 & Ha1 & Hb1 & He1 & Hl1).
  assert (0 <= r / p < c) as Hq by nia.
  assert (forall e, 0 <= e -> r mod p + e < p -> x (i + r + e) = x (i + r mod p + e)) as Hs
    by (intros e He Hlt; apply (scan_shift i j k p r e H); nia).
  destruct (Z.eq_dec (r mod p) 0) as [E|E].
  - exists (k - 1). split; [lia|]. split; [lia|]. split; [lia|].
    assert (forall e, 0 <= e < k -> x (i + r + e) = x (i + e)) as Hs' by (intros e He; rewrite Hs by lia; f_equal; lia).
    split; [|rewrite Hs' by lia; by replace (j + 1 + (k - 1)) with (j + k) by lia; replace (i + (k - 1)) with (i + k - 1) by lia].
    intros e He. rewrite Hs' by lia. replace (j + 1 + e) with (i + e + c * p) by lia. apply (period_mult i p (j + k)); [done|lia|lia|lia|lia].
  - destruct (Hin (r mod p) ltac:(lia)) as (d & Hd & He & Hd').
    apply (differs_trans less _ i); [|by apply (scan_larger_first i j k p)].
    exists d. split_and!; [lia|nia|nia| |]; [intros e Hed; rewrite Hs by lia; apply He; lia|]. by rewrite Hs by lia.
Qed.
Lemma scan_larger i j k p : scan less i j k p -> j + k < n -> less (x (i + k - 1)) (x (j + k)) = true -> scan less (j + 1) (j + 1) 1 1.
Proof.
  intros H Hn Hl. pose proof (scan_range _ _ _ _ _ H) as Hr. split; [lia|exists 1; lia|intros; lia|intros; lia|]. intros k' Hk'.
  destruct (Z.lt_trichotomy k' i) as [Hlt|[->|Hlt]].
  - apply (differs_trans less _ i); [apply (scan_before less i j k p H); lia|by eapply scan_larger_first].
  - by eapply scan_larger_first.
  - replace k' with (i + (k' - i)) by lia. eapply scan_larger_between; [done|done|done|lia].
Qed.

(** The end: the candidate is the largest suffix, and [p] the least period it has. *)
Lemma scan_end i j k p : scan less i j k p -> j + k = n ->
  largest less i /\ 1 <= p /\ i + p <= n /\ period_from i p /\ forall s, 0 < s < p -> ~ period_from i s.
Proof.
  intros H Hn. pose proof H as [(Hi & Hk & _) (c & Hc & Hw) Hp Hin Hb]. split_and!; [split; [lia|]|lia|nia|intros t Ht Hlt; apply Hp; lia|].
  - intros k' Hk' Hne. destruct (Z.lt_trichotomy k' i) as [Hlt|[?|Hlt]]; [left; apply Hb; lia|done|].
    pose proof (Z.div_mod (k' - i) p ltac:(lia)) as Ediv. pose proof (Z.mod_pos_bound (k' - i) p ltac:(lia)) as Hm.
    assert (forall e, 0 <= e -> k' + e < n -> x (k' + e) = x (i + (k' - i) mod p + e)) as Hs.
    { intros e He Hlt'. rewrite <- (scan_shift i j k p (k' - i) e H) by lia. f_equal. lia. }
    destruct (Z.eq_dec ((k' - i) mod p) 0) as [E|E]; [right; split; [lia|]; intros e He Hlt'; rewrite Hs by lia; f_equal; lia|].
    destruct (Hin ((k' - i) mod p) ltac:(lia)) as (d & Hd & He & Hd'). destruct (Z.ltb_spec (k' + d) n).
    + left. exists d. split; [lia|]. split; [lia|]. split; [nia|]. split; [|by rewrite Hs by lia]. intros e Hed. rewrite Hs by lia. by apply He.
    + right. split; [lia|]. intros e Hed Hlt'. rewrite Hs by lia. apply He. lia.
  - intros s Hs Hper. destruct (Hin s Hs) as (d & Hd & _ & Hl). specialize (Hper (i + d)). rewrite Hper in Hl by nia.
    replace (i + d + s) with (i + s + d) in Hl by lia. by rewrite less_irrefl in Hl.
Qed.
End Steps.

(** ** The search *)

(** A factorization at a critical position [l], with the least period [p] of the right half. *)
Record factored (l p : Z) : Prop := {
  factored_range : 0 <= l < n /\ 1 <= p /\ l + p <= n;
  factored_period : period_from l p;
  factored_least : forall s, 0 < s < p -> ~ period_from l s;
  factored_critical : critical l
}.

(** The word stands at [j] in the text. *)
Definition occurs (y : Z -> Z) (j : Z) : Prop := forall t, 0 <= t < n -> x t = y (j + t).

Section Text.
Context (l p : Z) (F : factored l p) (y : Z -> Z) (j : Z).

(** A difference in the right half rules out every shift up to it. *)
Lemma right_differs i s : l <= i < n -> (forall t, l <= t < i -> x t = y (j + t)) -> x i <> y (j + i) -> 0 <= s <= i - l -> ~ occurs y (j + s).
Proof.
  intros Hi Hm Hne Hs Ho. destruct (Z.eq_dec s 0) as [->|Hs0]; [rewrite Z.add_0_r in Ho; apply Hne, Ho; destruct F; lia|].
  destruct F as [Hr _ _ Hc]. destruct (Hc s ltac:(lia)) as [Hls Hper].
  - intros t Ht Hl Hn. rewrite Ho, (Hm (t + s)) by lia. f_equal. lia.
  - apply Hne. replace i with (i - s + s) at 1 by lia. rewrite <- Hper by lia. rewrite Ho by lia. f_equal. lia.
Qed.

(** Where the right half stands, a later occurrence is a period away. *)
Lemma right_stands s : (forall t, l <= t < n -> x t = y (j + t)) -> 1 <= s -> occurs y (j + s) -> l < s /\ period_from 0 s.
Proof.
  intros Hm Hs Ho. apply F; [done|]. intros t Ht Hl Hn. rewrite Ho, (Hm (t + s)) by lia. f_equal. lia.
Qed.

(** When the left half repeats the right one, [p] is the least period of the word. *)
Lemma whole_period : (forall t, 0 <= t < l -> x t = x (t + p)) -> period_from 0 p.
Proof. intros H t Ht Hn. destruct (Z.ltb_spec t l); [apply H; lia|by apply F]. Qed.
Lemma least_whole s : period_from 0 s -> 1 <= s -> p <= s.
Proof.
  intros H Hs. destruct (Z.leb_spec p s); [done|]. exfalso. apply (factored_least _ _ F s ltac:(lia)). intros t Ht Hn. apply H; [destruct F; lia|done].
Qed.

(** When it does not, every period is longer than both halves. *)
Lemma long_periods s : ~ (forall t, 0 <= t < l -> x t = x (t + p)) -> period_from 0 s -> 1 <= s -> l < s /\ n - l < s.
Proof.
  intros Hno Hper Hs. destruct F as [Hr Hp Hmin Hc]. destruct (Hc s Hs (period_local s l ltac:(lia) Hper)) as [Hls _]. split; [done|].
  destruct (Z.ltb_spec (n - l) s); [done|exfalso]. pose proof (Z.mod_pos_bound s p ltac:(lia)) as Hm. pose proof (Z.div_mod s p ltac:(lia)) as Ed.
  assert (forall r, 0 <= r -> r mod p = s mod p -> r <= s -> forall t, 0 <= t < l -> l <= t + r -> x t = x (t + r)) as Hshift.
  { intros r Hr0 Er Hrs t Ht Hl. rewrite (Hper t) by lia. pose proof (Z.div_mod r p ltac:(lia)). symmetry.
    replace (t + s) with (t + r + (s / p - r / p) * p) by lia. apply (period_mult l p n); [done|lia|nia|lia|lia]. }
  destruct (Z.eq_dec (s mod p) 0) as [E|E].
  - apply Hno. intros t Ht. assert (p <= s) by (destruct (Z.leb_spec p s); [done|]; rewrite Z.mod_small in E by lia; lia). destruct (Hc p ltac:(lia)) as [Hlp Hwhole].
    + intros t' Ht' Hl' Hn'. apply Hshift; [lia|by rewrite E, Z.mod_same by lia|done|done|done].
    + apply Hwhole; lia.
  - destruct (Hc (s mod p) ltac:(lia)) as [_ Hwhole].
    + intros t Ht Hl Hn. apply Hshift; [lia|by rewrite Z.mod_mod by lia|apply Z.mod_le; lia|done|done].
    + apply (Hmin (s mod p) ltac:(lia)). intros t Ht Hn. apply Hwhole; lia.
Qed.

(** Where all but the last period of a periodic word stands and the last character is wrong, no
    occurrence starts in the part that stands. *)
Lemma last_differs s : period_from 0 p -> (forall t, 0 <= t < n - p -> x t = y (j + t)) -> x (n - 1) <> y (j + n - 1) ->
  0 <= s < n - p -> ~ occurs y (j + s).
Proof.
  intros Hper Hm Hne Hs Ho. pose proof (factored_range _ _ F) as Hr. apply Hne. replace (y (j + n - 1)) with (y (j + s + (n - 1 - s))) by (f_equal; lia).
  rewrite <- Ho by lia. replace (n - 1) with (n - 1 - p + p) at 1 by lia. rewrite <- Hper by lia. rewrite (Hm (n - 1 - p)) by lia.
  replace (y (j + (n - 1 - p))) with (y (j + s + (n - 1 - p - s))) by (f_equal; lia). rewrite <- Ho by lia. rewrite Hper by lia. f_equal. lia.
Qed.
End Text.

(** A bad last character: the word must move until the character's last place in it. *)
Lemma bad_character y j shift s : (forall t, n - shift <= t < n -> x t <> y (j + n - 1)) -> 0 <= s < shift -> s < n -> ~ occurs y (j + s).
Proof.
  intros Hno Hs Hn Ho. apply (Hno (n - 1 - s) ltac:(lia)). rewrite Ho by lia. f_equal. lia.
Qed.

Section Result.
Context (y : Z -> Z) (H base : Z).

Definition none_before (j : Z) : Prop := forall j', 0 <= j' < j -> ~ occurs y j'.
(** The first place in a text of [H] characters at [base] where the word stands, or NULL. *)
Definition found (r : Z) : Prop :=
  (exists j, 0 <= j /\ j + n <= H /\ occurs y j /\ none_before j /\ r = u32 (base + j)) \/
  ((forall j, 0 <= j -> j + n <= H -> ~ occurs y j) /\ r = 0).

Lemma none_before_0 : none_before 0.
Proof. intros j Hj. lia. Qed.
Lemma none_skip j d : none_before j -> (forall s, 0 <= s < d -> ~ occurs y (j + s)) -> none_before (j + d).
Proof.
  intros Hb Hs j' Hj. destruct (Z.ltb_spec j' j); [apply Hb; lia|]. replace j' with (j + (j' - j)) by lia. apply Hs. lia.
Qed.
Lemma none_found j : none_before j -> ~ j + n <= H -> found 0.
Proof. intros Hb Hj. right. split; [|done]. intros j' H1 H2. apply Hb. lia. Qed.
Lemma found_here j : 0 <= j <= H -> j + n <= H -> occurs y j -> none_before j -> found (u32 (base + j)).
Proof. intros [? _] **. left. by exists j. Qed.
End Result.
End Word.
End Factorization.
