(* ===== verification/TwoWay.v ===== *)
(** newlib/newlib/libc/string/str-two-way.h: the Two-Way substring search that strstr, strcasestr
    and memmem include.

    The header is a template over three macros, which are the class [Macros]; what it relies on
    when a file includes it is the class [MacroLaws], which the including file proves.  [size_t]
    has 32 bits and wraps, the indices -1 included.  The loops over the needle run on fuel computed
    from its length; the search loop is given fuel.  All of them are proved to end, and both
    functions to return the first occurrence ([two_way_short_spec], [two_way_long_spec]). *)

From S2P Require Import Prelude Factorization.

Class Macros := {
  CANON_ELEMENT : Z -> Z;
  CMP_FUNC : Mem -> Z -> Z -> Z -> option Z;
  (** Of [haystack], [haystack_len], [j] and [needle_len]: the test, and the new [haystack_len]. *)
  AVAILABLE : Mem -> Z -> Z -> Z -> Z -> option (bool * Z)
}.

Module TwoWay.
Import Factorization.

Definition SIZE_MAX : Z := 4294967295.
Definition MAX (a b : Z) : Z := if a <? b then b else a.
Definition LONG_NEEDLE_THRESHOLD : Z := 32.

Section Program.
Context {M : Macros} (m : Mem).

Definition element (s i : Z) : Z := CANON_ELEMENT (loadb m (s + i)).

(** One of the two searches for a maximal suffix, with [less a b] for "the suffix is smaller"; the
    suffix and the period it ends with. *)
Fixpoint suffix_loop (less : Z -> Z -> bool) (fuel : nat) (needle needle_len max_suffix j k p : Z) : option (Z * Z) :=
  match fuel with
  | O => None
  | S fuel =>
      if u32 (j + k) <? needle_len then
        let a := element needle (u32 (j + k)) in
        let b := element needle (u32 (max_suffix + k)) in
        if less a b then
          let j := u32 (j + k) in
          suffix_loop less fuel needle needle_len max_suffix j 1 (u32 (j - max_suffix))
        else if a =? b then
          if negb (k =? p) then suffix_loop less fuel needle needle_len max_suffix j (u32 (k + 1)) p
          else suffix_loop less fuel needle needle_len max_suffix (u32 (j + p)) 1 p
        else suffix_loop less fuel needle needle_len j (u32 (j + 1)) 1 1
      else Some (max_suffix, p)
  end.

(** The first index of the right half, and its period. *)
Definition critical_factorization (needle needle_len : Z) : option (Z * Z) :=
  let rounds := S (Z.to_nat (2 * needle_len)) in
  '(max_suffix, period) ← suffix_loop Z.ltb rounds needle needle_len SIZE_MAX 0 1 1;
  '(max_suffix_rev, p) ← suffix_loop (flip Z.ltb) rounds needle needle_len SIZE_MAX 0 1 1;
  if u32 (max_suffix_rev + 1) <? u32 (max_suffix + 1) then Some (u32 (max_suffix + 1), period)
  else Some (u32 (max_suffix_rev + 1), p).

(** [while (i < bound && needle[i] == haystack[i + j]) ++i] *)
Fixpoint scan_right (fuel : nat) (haystack needle bound i j : Z) : option Z :=
  match fuel with
  | O => None
  | S fuel =>
      if (i <? bound) && (element needle i =? element haystack (u32 (i + j)))
      then scan_right fuel haystack needle bound (u32 (i + 1)) j else Some i
  end.
(** [while (memory < i + 1 && needle[i] == haystack[i + j]) --i] *)
Fixpoint scan_left (fuel : nat) (haystack needle memory i j : Z) : option Z :=
  match fuel with
  | O => None
  | S fuel =>
      if (memory <? u32 (i + 1)) && (element needle i =? element haystack (u32 (i + j)))
      then scan_left fuel haystack needle memory (u32 (i - 1)) j else Some i
  end.
(** [while (i != SIZE_MAX && needle[i] == haystack[i + j]) --i] *)
Fixpoint scan_left_all (fuel : nat) (haystack needle i j : Z) : option Z :=
  match fuel with
  | O => None
  | S fuel =>
      if negb (i =? SIZE_MAX) && (element needle i =? element haystack (u32 (i + j)))
      then scan_left_all fuel haystack needle (u32 (i - 1)) j else Some i
  end.

Section Search.
Context (haystack needle needle_len suffix period : Z).
Let rounds := S (Z.to_nat needle_len).

(** The search when the entire needle is periodic. *)
Fixpoint short_periodic (fuel : nat) (haystack_len j memory : Z) : option Z :=
  match fuel with
  | O => None
  | S fuel =>
      '(available, haystack_len) ← AVAILABLE m haystack haystack_len j needle_len;
      if available : bool then
        i ← scan_right rounds haystack needle needle_len (MAX suffix memory) j;
        if needle_len <=? i then
          i ← scan_left rounds haystack needle memory (u32 (suffix - 1)) j;
          if u32 (i + 1) <? u32 (memory + 1) then Some (u32 (haystack + j))
          else short_periodic fuel haystack_len (u32 (j + period)) (u32 (needle_len - period))
        else short_periodic fuel haystack_len (u32 (j + (i - suffix + 1))) 0
      else Some 0
  end.

(** The search when its two halves are distinct. *)
Fixpoint short_distinct (fuel : nat) (haystack_len j : Z) : option Z :=
  match fuel with
  | O => None
  | S fuel =>
      '(available, haystack_len) ← AVAILABLE m haystack haystack_len j needle_len;
      if available : bool then
        i ← scan_right rounds haystack needle needle_len suffix j;
        if needle_len <=? i then
          i ← scan_left_all rounds haystack needle (u32 (suffix - 1)) j;
          if i =? SIZE_MAX then Some (u32 (haystack + j))
          else short_distinct fuel haystack_len (u32 (j + period))
        else short_distinct fuel haystack_len (u32 (j + (i - suffix + 1)))
      else Some 0
  end.

Context (shift_table : list Z).
Definition last_shift (j : Z) : Z := shift_table !!! Z.to_nat (element haystack (u32 (u32 (j + needle_len) - 1))).

Fixpoint long_periodic (fuel : nat) (haystack_len j memory : Z) : option Z :=
  match fuel with
  | O => None
  | S fuel =>
      '(available, haystack_len) ← AVAILABLE m haystack haystack_len j needle_len;
      if available : bool then
        let shift := last_shift j in
        if 0 <? shift then
          let shift := if negb (memory =? 0) && (shift <? period) then u32 (needle_len - period) else shift in
          long_periodic fuel haystack_len (u32 (j + shift)) 0
        else
          i ← scan_right rounds haystack needle (u32 (needle_len - 1)) (MAX suffix memory) j;
          if u32 (needle_len - 1) <=? i then
            i ← scan_left rounds haystack needle memory (u32 (suffix - 1)) j;
            if u32 (i + 1) <? u32 (memory + 1) then Some (u32 (haystack + j))
            else long_periodic fuel haystack_len (u32 (j + period)) (u32 (needle_len - period))
          else long_periodic fuel haystack_len (u32 (j + (i - suffix + 1))) 0
      else Some 0
  end.

Fixpoint long_distinct (fuel : nat) (haystack_len j : Z) : option Z :=
  match fuel with
  | O => None
  | S fuel =>
      '(available, haystack_len) ← AVAILABLE m haystack haystack_len j needle_len;
      if available : bool then
        let shift := last_shift j in
        if 0 <? shift then long_distinct fuel haystack_len (u32 (j + shift))
        else
          i ← scan_right rounds haystack needle (u32 (needle_len - 1)) suffix j;
          if u32 (needle_len - 1) <=? i then
            i ← scan_left_all rounds haystack needle (u32 (suffix - 1)) j;
            if i =? SIZE_MAX then Some (u32 (haystack + j))
            else long_distinct fuel haystack_len (u32 (j + period))
          else long_distinct fuel haystack_len (u32 (j + (i - suffix + 1)))
      else Some 0
  end.
End Search.

Definition two_way_short_needle (fuel : nat) (haystack haystack_len needle needle_len : Z) : option Z :=
  '(suffix, period) ← critical_factorization needle needle_len;
  same ← CMP_FUNC m needle (u32 (needle + period)) suffix;
  if same =? 0 then short_periodic haystack needle needle_len suffix period fuel haystack_len 0 0
  else short_distinct haystack needle needle_len suffix (u32 (MAX suffix (u32 (needle_len - suffix)) + 1)) fuel haystack_len 0.

(** The second loop over the shift table, from [i] on with [n] rounds left. *)
Fixpoint shift_loop (n : nat) (needle needle_len i : Z) (shift_table : list Z) : list Z :=
  match n with
  | O => shift_table
  | S n => shift_loop n needle needle_len (i + 1) (<[Z.to_nat (element needle i) := u32 (needle_len - i - 1)]> shift_table)
  end.
Definition make_shift_table (needle needle_len : Z) : list Z :=
  shift_loop (Z.to_nat needle_len) needle needle_len 0 (replicate 256 needle_len).

Definition two_way_long_needle (fuel : nat) (haystack haystack_len needle needle_len : Z) : option Z :=
  '(suffix, period) ← critical_factorization needle needle_len;
  let shift_table := make_shift_table needle needle_len in
  same ← CMP_FUNC m needle (u32 (needle + period)) suffix;
  if same =? 0 then long_periodic haystack needle needle_len suffix period shift_table fuel haystack_len 0 0
  else long_distinct haystack needle needle_len suffix (u32 (MAX suffix (u32 (needle_len - suffix)) + 1)) shift_table fuel haystack_len 0.
End Program.

(** ** The critical factorization *)

Section Factor.
Context {M : Macros} (m : Mem) (needle n : Z) (Hn : 1 <= n < 4294967296).
Let x := element m needle.

Lemma suffix_loop_spec (less : Z -> Z -> bool) {O : Order less} fuel : forall i j k p, scan x n less i j k p -> (Z.to_nat (2 * n - i - (j + k)) < fuel)%nat ->
  exists l q, suffix_loop m less fuel needle n (u32 (i - 1)) j k p = Some (u32 (l - 1), q) /\
    largest x n less l /\ 1 <= q /\ l + q <= n /\ period_from x n l q /\ forall s, 0 < s < q -> ~ period_from x n l s.
Proof.
  induction fuel as [|fuel IH]; intros i j k p Hs Hf; [lia|]. cbn [suffix_loop].
  pose proof (scan_range _ _ _ _ _ _ _ Hs) as (Hi & Hk & Hjk). rewrite (u32_small (j + k)) by (unfold is_u32; lia).
  destruct (Z.ltb_spec (j + k) n) as [Hlt|Hge]; [|exists i, p; split; [done|]; apply (scan_end x n less i j k p Hs); lia].
  rewrite u32_add_l. replace (i - 1 + k) with (i + k - 1) by lia. rewrite (u32_small (i + k - 1)) by (unfold is_u32; lia).
  change (element m needle (j + k)) with (x (j + k)). change (element m needle (i + k - 1)) with (x (i + k - 1)).
  destruct (less (x (j + k)) (x (i + k - 1))) eqn:El; [|destruct (Z.eqb_spec (x (j + k)) (x (i + k - 1))) as [E|E]; [destruct (Z.eqb_spec k p) as [->|Hkp]|]]; cbn [negb].
  - rewrite u32_sub_r, (u32_small (j + k - (i - 1))) by (unfold is_u32; lia). replace (j + k - (i - 1)) with (j + k + 1 - i) by lia.
    apply IH; [by eapply scan_smaller|lia].
  - rewrite (u32_small (j + p)) by (unfold is_u32; lia). apply IH; [by eapply scan_turn|lia].
  - rewrite (u32_small (k + 1)) by (unfold is_u32; lia). apply IH; [by eapply scan_next|lia].
  - rewrite (u32_small (j + 1)) by (unfold is_u32; lia). pose proof (IH (j + 1) (j + 1) 1 1) as IH'.
    replace (j + 1 - 1) with j in IH' by lia. rewrite (u32_small j) in IH' by (unfold is_u32; lia).
    destruct (scan_whole _ _ _ _ _ _ _ Hs) as (c & Hc & Hw). apply IH'; [|nia]. eapply scan_larger; [done..|]. by apply less_total.
Qed.

Lemma critical_factorization_spec : exists l p, critical_factorization m needle n = Some (l, p) /\ factored x n l p.
Proof.
  unfold critical_factorization. change SIZE_MAX with (u32 (0 - 1)).
  destruct (suffix_loop_spec Z.ltb (S (Z.to_nat (2 * n))) 0 0 1 1) as (l1 & p1 & -> & L1 & P1); [apply scan_init; lia|lia|].
  destruct (suffix_loop_spec (flip Z.ltb) (S (Z.to_nat (2 * n))) 0 0 1 1) as (l2 & p2 & -> & L2 & P2); [apply scan_init; lia|lia|].
  cbn [mbind option_bind]. rewrite !u32_add_l. replace (l1 - 1 + 1) with l1 by lia. replace (l2 - 1 + 1) with l2 by lia.
  pose proof (proj1 L1). pose proof (proj1 L2). rewrite !u32_small by (unfold is_u32; lia).
  destruct (Z.ltb_spec l2 l1) as [Hlt|Hge]; eexists _, _; (split; [reflexivity|]); split; try tauto.
  - apply (critical_later x n Z.ltb l1 l2); [done|done|lia].
  - apply (critical_later x n (flip Z.ltb) l2 l1); [done|done|lia].
Qed.
End Factor.

(** ** The search *)

(** What an including file promises, for a needle of [n] characters and a haystack of [H]: [known h j]
    says what [haystack_len] is worth when position [j] is asked for. *)
Class MacroLaws {M : Macros} (m : Mem) (haystack needle n H : Z) (known : Z -> Z -> Prop) : Prop := {
  canon_range c : is_u8 c -> is_u8 (CANON_ELEMENT c);
  cmp_law p s : 0 <= s -> 0 <= p -> s + p <= n -> exists r, CMP_FUNC m needle (u32 (needle + p)) s = Some r /\
    (r = 0 <-> forall t, 0 <= t < s -> element m needle t = element m needle (t + p));
  available_law h j : known h j -> 0 <= j <= H -> exists ok h', AVAILABLE m haystack h j n = Some (ok, h') /\
    (ok = true <-> j + n <= H) /\ (ok = true -> forall j', j < j' <= j + n -> known h' j')
}.

Section Scans.
Context {M : Macros} (m : Mem) (haystack needle : Z).
Let x := element m needle.
Let y := element m haystack.

Lemma scan_right_spec fuel : forall bound i j, (Z.to_nat (bound - i) < fuel)%nat -> 0 <= i -> 0 <= j -> bound + j < 4294967296 ->
  exists i', scan_right m fuel haystack needle bound i j = Some i' /\ i <= i' /\ (i < bound -> i' <= bound) /\ (bound <= i -> i' = i) /\
    (forall t, i <= t < i' -> x t = y (j + t)) /\ (i' < bound -> x i' <> y (j + i')).
Proof.
  induction fuel as [|fuel IH]; intros bound i j Hf Hi Hj Hb; [lia|]. cbn [scan_right].
  destruct (Z.ltb_spec i bound) as [Hlt|]; cbn [andb]; [|exists i; split_and!; try done; lia].
  rewrite !u32_small by (unfold is_u32; lia). replace (i + j) with (j + i) by lia.
  change (element m needle i) with (x i). change (element m haystack (j + i)) with (y (j + i)).
  destruct (Z.eqb_spec (x i) (y (j + i))) as [E|]; [|exists i; split_and!; try done; try lia; intros; lia].
  destruct (IH bound (i + 1) j) as (i' & -> & H1 & H2 & H3 & H4 & H5); [lia..|]. exists i'. split_and!; try done; try lia.
  intros t Ht. destruct (Z.eq_dec t i) as [->|]; [done|]. apply H4. lia.
Qed.

Lemma scan_left_spec fuel : forall memory c j, (Z.to_nat c < fuel)%nat -> 0 <= memory -> 0 <= c -> 0 <= j -> c + j < 4294967296 ->
  exists c', scan_left m fuel haystack needle memory (u32 (c - 1)) j = Some (u32 (c' - 1)) /\ 0 <= c' <= c /\ (c <= memory -> c' = c) /\
    (memory <= c -> memory <= c') /\ (forall t, c' <= t < c -> x t = y (j + t)) /\ (memory < c' -> x (c' - 1) <> y (j + (c' - 1))).
Proof.
  induction fuel as [|fuel IH]; intros memory c j Hf Hm Hc Hj Hb; [lia|]. cbn [scan_left].
  rewrite !u32_add_l, u32_sub_l. replace (c - 1 + 1) with c by lia. rewrite (u32_small c) by (unfold is_u32; lia).
  destruct (Z.ltb_spec memory c) as [Hlt|]; cbn [andb]; [|exists c; split_and!; try done; lia].
  rewrite (u32_small (c - 1)), (u32_small (c - 1 + j)) by (unfold is_u32; lia). replace (c - 1 + j) with (j + (c - 1)) by lia.
  change (element m needle (c - 1)) with (x (c - 1)). change (element m haystack (j + (c - 1))) with (y (j + (c - 1))).
  destruct (Z.eqb_spec (x (c - 1)) (y (j + (c - 1)))) as [E|].
  - destruct (IH memory (c - 1) j) as (c' & -> & H1 & H2 & H3 & H4 & H5); [lia..|]. exists c'. split_and!; try done; try lia.
    intros t Ht. destruct (Z.eq_dec t (c - 1)) as [->|]; [done|]. apply H4. lia.
  - exists c. rewrite (u32_small (c - 1)) by (unfold is_u32; lia). split_and!; try done; lia.
Qed.

(** The loop of the other search is the same one without memory. *)
Lemma scan_left_all_eq fuel : forall c j, 0 <= c < 4294967296 ->
  scan_left_all m fuel haystack needle (u32 (c - 1)) j = scan_left m fuel haystack needle 0 (u32 (c - 1)) j.
Proof.
  induction fuel as [|fuel IH]; intros c j Hc; [done|]. cbn [scan_left_all scan_left].
  rewrite !u32_add_l, u32_sub_l. replace (c - 1 + 1) with c by lia. rewrite (u32_small c) by (unfold is_u32; lia).
  destruct (Z.eqb_spec (u32 (c - 1)) SIZE_MAX) as [E|E]; unfold SIZE_MAX in E.
  - destruct (Z.ltb_spec 0 c); [rewrite u32_small in E by (unfold is_u32; lia); lia|done].
  - destruct (Z.ltb_spec 0 c) as [Hlt|]; [|by replace c with 0 in E by lia]. cbn [negb andb].
    replace (c - 1 - 1) with ((c - 1) - 1) by lia. by rewrite IH by lia.
Qed.

(** [i] has reached -1. *)
Lemma end_of_left c : 0 <= c < 4294967296 -> (u32 (c - 1) =? SIZE_MAX) = (c <? 0 + 1).
Proof.
  intros Hc. apply eq_true_iff_eq. rewrite Z.ltb_lt, Z.eqb_eq. unfold SIZE_MAX. split; [|intros; by replace c with 0 by lia].
  intros E. destruct (Z.eq_dec c 0); [lia|]. rewrite u32_small in E by (unfold is_u32; lia). lia.
Qed.
End Scans.

Section Windows.
Context {M : Macros} (m : Mem) (haystack needle n H l p : Z) (Hn : 1 <= n < 4294967296) (HH : 0 <= H < 4294967296).
Let x := element m needle.
Let y := element m haystack.
Context (F : factored x n l p).
Let rounds := S (Z.to_nat n).

Definition stands_below (j memory : Z) : Prop := forall t, 0 <= t < memory -> x t = y (j + t).
Definition right_stands_at (j : Z) : Prop := forall t, l <= t < n -> x t = y (j + t).

Lemma right_half b memory j : 0 <= j -> j + n <= H -> 0 <= memory -> MAX l memory <= b <= n -> stands_below j memory ->
  (forall t, b <= t < n -> x t = y (j + t)) ->
  exists i, scan_right m rounds haystack needle b (MAX l memory) j = Some i /\
    if b <=? i then right_stands_at j else l <= i < n /\ forall s, 0 <= s < i - l + 1 -> ~ occurs x n y (j + s).
Proof.
  intros Hj Hw Hm Hb Hk Hlast. pose proof (factored_range _ _ _ _ F) as Hr.
  assert (l <= MAX l memory /\ memory <= MAX l memory /\ (MAX l memory = l \/ MAX l memory = memory)) as (H1 & H2 & H3)
    by (unfold MAX; destruct (Z.ltb_spec l memory); lia).
  destruct (scan_right_spec m haystack needle rounds b (MAX l memory) j) as (i & -> & Hi & Hib & Hbi & Heq & Hne); [unfold rounds; lia|lia..|].
  exists i. split; [done|].
  assert (forall t, l <= t < i -> x t = y (j + t)) as Hright.
  { intros t Ht. destruct (Z.ltb_spec t (MAX l memory)); [apply Hk; lia|apply Heq; lia]. }
  destruct (Z.leb_spec b i).
  - intros t Ht. destruct (Z.ltb_spec t i); [apply Hright; lia|apply Hlast; lia].
  - split; [lia|]. intros s Hs. apply (right_differs x n l p F y j i s); [lia|done|apply Hne; lia|lia].
Qed.

Lemma left_half memory j : 0 <= j -> j + n <= H -> 0 <= memory < n -> stands_below j memory -> right_stands_at j ->
  exists c, scan_left m rounds haystack needle memory (u32 (l - 1)) j = Some (u32 (c - 1)) /\ 0 <= c < n /\
    if c <? memory + 1 then occurs x n y j else ~ occurs x n y j.
Proof.
  intros Hj Hw Hm Hk Hright. pose proof (factored_range _ _ _ _ F) as Hr.
  destruct (scan_left_spec m haystack needle rounds memory l j) as (c & -> & Hc & _ & Hmc & Heq & Hne); [unfold rounds; lia|lia..|].
  exists c. split; [done|]. split; [lia|]. destruct (Z.ltb_spec c (memory + 1)).
  - intros t Ht. destruct (Z.ltb_spec t memory); [apply Hk; lia|]. destruct (Z.ltb_spec t l); [apply Heq; lia|apply Hright; lia].
  - intros Ho. apply Hne; [lia|]. apply Ho. lia.
Qed.

(** The periodic case: a whole period may be skipped, and what stood before stands again. *)
Lemma skip_period j : period_from x n 0 p -> ~ occurs x n y j -> right_stands_at j -> forall s, 0 <= s < p -> ~ occurs x n y (j + s).
Proof.
  intros Hper Hno Hright s Hs Ho. destruct (Z.eq_dec s 0) as [->|]; [by rewrite Z.add_0_r in Ho|].
  destruct (right_stands x n l p F y j s Hright ltac:(lia) Ho) as [_ Hs']. pose proof (least_whole x n l p F s Hs' ltac:(lia)). lia.
Qed.
Lemma remember_period j : period_from x n 0 p -> right_stands_at j -> stands_below (j + p) (n - p).
Proof.
  intros Hper Hright t Ht. pose proof (factored_range _ _ _ _ F) as Hr. destruct (factored_critical _ _ _ _ F p ltac:(lia)) as [Hl _].
  { apply period_local; [lia|done]. }
  rewrite Hper by lia. rewrite Hright by lia. f_equal. lia.
Qed.

(** The other case: no occurrence before both halves have been passed. *)
Lemma skip_halves j : ~ (forall t, 0 <= t < l -> x t = x (t + p)) -> ~ occurs x n y j -> right_stands_at j ->
  forall s, 0 <= s < MAX l (n - l) + 1 -> ~ occurs x n y (j + s).
Proof.
  intros Hd Hno Hright s Hs Ho. destruct (Z.eq_dec s 0) as [->|]; [by rewrite Z.add_0_r in Ho|].
  destruct (right_stands x n l p F y j s Hright ltac:(lia) Ho) as [_ Hs'].
  destruct (long_periods x n l p F s Hd Hs' ltac:(lia)) as [H1 H2]. unfold MAX in Hs. destruct (Z.ltb_spec l (n - l)); lia.
Qed.
End Windows.

Section Loops.
Context {M : Macros} (m : Mem) (haystack needle n H : Z) (known : Z -> Z -> Prop) {L : MacroLaws m haystack needle n H known}.
Context (Hn : 1 <= n < 4294967296) (HH : 0 <= H < 4294967296).
Let x := element m needle.
Let y := element m haystack.
#[local] Abbreviation found := (found x n y H haystack).
#[local] Abbreviation none_before := (none_before x n y).
#[local] Abbreviation stands_below := (stands_below m haystack needle).

(** The test in front of each round: the search is over, or the window is inside the haystack. *)
Lemma available_step h j : known h j -> 0 <= j <= H -> none_before j ->
  exists ok h', AVAILABLE m haystack h j n = Some (ok, h') /\
    if ok : bool then j + n <= H /\ forall j', j < j' <= j + n -> known h' j' else found 0.
Proof.
  intros Hk Hj Hb. destruct (available_law h j Hk Hj) as ([|] & h' & E & Hiff & Hnext); eexists _, _; (split; [exact E|]).
  - split; [by apply Hiff|by apply Hnext].
  - apply (none_found x n y H haystack j); [done|]. intros Hle. by apply Hiff in Hle.
Qed.

Section Factored.
Context (l p : Z) (F : factored x n l p).

Lemma short_periodic_spec fuel : period_from x n 0 p -> forall h j memory, (Z.to_nat (H - j) < fuel)%nat -> known h j -> 0 <= j <= H ->
  none_before j -> 0 <= memory < n -> stands_below j memory ->
  exists r, short_periodic m haystack needle n l p fuel h j memory = Some r /\ found r.
Proof.
  intros Hper. pose proof (factored_range _ _ _ _ F) as Hr. induction fuel as [|fuel IH]; intros h j memory Hf Hk Hj Hb Hm Hs; [lia|].
  cbn [short_periodic]. destruct (available_step h j Hk Hj Hb) as ([|] & h' & -> & Hok); cbn [mbind option_bind]; [|by exists 0].
  destruct Hok as [Hw Hnext].
  destruct (right_half m haystack needle n H l p Hn HH F n memory j) as (i & -> & Hi); [lia|lia|lia|unfold MAX; destruct (Z.ltb_spec l memory); lia|done|lia|].
  cbn [mbind option_bind]. destruct (n <=? i).
  - destruct (left_half m haystack needle n H l p Hn HH F memory j) as (c & -> & Hc & Ho); [lia|lia|lia|done|done|]. cbn [mbind option_bind].
    rewrite u32_add_l. replace (c - 1 + 1) with c by lia. rewrite (u32_small c), (u32_small (memory + 1)) by (unfold is_u32; lia).
    destruct (c <? memory + 1); [eexists; split; [done|]; by apply found_here|].
    rewrite (u32_small (j + p)), (u32_small (n - p)) by (unfold is_u32; lia).
    apply IH; [lia|apply Hnext; lia|lia| |lia|by eapply remember_period].
    apply none_skip; [done|]. by eapply skip_period.
  - destruct Hi as [Hi Hno]. rewrite u32_small by (unfold is_u32; lia).
    apply IH; [lia|apply Hnext; lia|lia|by apply none_skip|lia|intros t Ht; lia].
Qed.

Lemma short_distinct_spec fuel : ~ (forall t, 0 <= t < l -> x t = x (t + p)) -> 1 <= l -> forall h j, (Z.to_nat (H - j) < fuel)%nat -> known h j -> 0 <= j <= H ->
  none_before j -> exists r, short_distinct m haystack needle n l (MAX l (n - l) + 1) fuel h j = Some r /\ found r.
Proof.
  intros Hd Hl. pose proof (factored_range _ _ _ _ F) as Hr. induction fuel as [|fuel IH]; intros h j Hf Hk Hj Hb; [lia|].
  cbn [short_distinct]. destruct (available_step h j Hk Hj Hb) as ([|] & h' & -> & Hok); cbn [mbind option_bind]; [|by exists 0].
  destruct Hok as [Hw Hnext].
  destruct (right_half m haystack needle n H l p Hn HH F n 0 j) as (i & Ei & Hi); [lia|lia|lia|unfold MAX; destruct (Z.ltb_spec l 0); lia|intros t Ht; lia|lia|].
  replace (MAX l 0) with l in Ei by (unfold MAX; destruct (Z.ltb_spec l 0); lia). rewrite Ei.
  cbn [mbind option_bind]. destruct (n <=? i).
  - rewrite scan_left_all_eq by lia.
    destruct (left_half m haystack needle n H l p Hn HH F 0 j) as (c & -> & Hc & Ho); [lia|lia|lia|intros t Ht; lia|done|]. cbn [mbind option_bind].
    rewrite end_of_left by lia.
    destruct (c <? 0 + 1); [eexists; split; [done|]; by apply found_here|].
    assert (1 <= MAX l (n - l) + 1 <= n) as Hmax by (unfold MAX; destruct (Z.ltb_spec l (n - l)); lia).
    rewrite u32_small by (unfold is_u32; lia).
    apply IH; [lia|apply Hnext; lia|lia|]. apply none_skip; [done|]. by eapply skip_halves.
  - destruct Hi as [Hi Hno]. rewrite u32_small by (unfold is_u32; lia). apply IH; [lia|apply Hnext; lia|lia|by apply none_skip].
Qed.
End Factored.
End Loops.

(** ** The shift table *)

Section Table.
Context {M : Macros} (m : Mem) (haystack needle n H : Z) (known : Z -> Z -> Prop) {L : MacroLaws m haystack needle n H known}.
Context (Hn : 1 <= n < 4294967296) (HH : 0 <= H < 4294967296).
Let x := element m needle.
Let y := element m haystack.

Lemma element_range s i : is_u8 (element m s i).
Proof. apply canon_range, loadb_range. Qed.

(** The table after [i] characters: the distance of a character's last place from the end. *)
Definition table_upto (T : list Z) (i : Z) : Prop := length T = 256%nat /\ forall c, is_u8 c ->
  (T !!! Z.to_nat c = n /\ forall t, 0 <= t < i -> x t <> c) \/
  (exists t, 0 <= t < i /\ x t = c /\ T !!! Z.to_nat c = n - 1 - t /\ forall t', t < t' < i -> x t' <> c).

Lemma shift_loop_spec k : forall i T, 0 <= i -> i + Z.of_nat k = n -> table_upto T i -> table_upto (shift_loop m k needle n i T) n.
Proof.
  induction k as [|k IH]; intros i T Hi Hk [Hlen HT]; cbn [shift_loop]; [assert (i = n) as -> by lia; by split|].
  apply IH; [lia|lia|]. split; [by rewrite length_insert|]. intros c Hc. pose proof (element_range needle i) as Hx. unfold is_u8 in *.
  destruct (Z.eq_dec (x i) c) as [<-|Hne].
  - right. exists i. unfold x at 2. rewrite list_lookup_total_insert_eq by (rewrite Hlen; lia). rewrite u32_small by (unfold is_u32; lia).
    split; [lia|]. split; [done|]. split; [lia|]. intros; lia.
  - rewrite list_lookup_total_insert_ne by (intros E; apply Hne; unfold x; lia).
    destruct (HT c Hc) as [[E Hno]|(t & Ht & Hxt & E & Hno)]; [left; split; [done|]|right; exists t; split; [lia|]; split; [done|]; split; [done|]];
      intros t' Ht'; (destruct (Z.eq_dec t' i) as [->|]; [exact Hne|apply Hno; lia]).
Qed.
Lemma make_shift_table_spec : table_upto (make_shift_table m needle n) n.
Proof.
  apply shift_loop_spec; [lia|lia|]. split; [apply length_replicate|]. intros c Hc. left. split; [|intros; lia].
  apply list_lookup_total_correct, lookup_replicate. unfold is_u8 in Hc. split; [done|lia].
Qed.

Lemma last_shift_spec j : 0 <= j -> j + n <= H -> let shift := last_shift m haystack n (make_shift_table m needle n) j in
  0 <= shift <= n /\ (forall s, 0 <= s < shift -> ~ occurs x n y (j + s)) /\
  (0 < shift -> x (n - 1) <> y (j + n - 1)) /\ (shift = 0 -> forall t, n - 1 <= t < n -> x t = y (j + t)).
Proof.
  intros Hj Hw. cbv zeta. unfold last_shift. rewrite (u32_small (j + n)), u32_small by (rewrite ?u32_small; unfold is_u32; lia).
  set (c := element m haystack (j + n - 1)). change (y (j + n - 1)) with c.
  destruct (proj2 make_shift_table_spec c (element_range _ _)) as [[-> Hno]|(t & Ht & Hxt & -> & Hno)].
  - split; [lia|]. split; [|split; [intros _; apply Hno; lia|lia]]. intros s Hs. apply (bad_character x n y j n s); [|lia|lia].
    intros t Ht. apply Hno. lia.
  - split; [lia|]. split; [|split; [intros Hlt; apply Hno; lia|]].
    + intros s Hs. apply (bad_character x n y j (n - 1 - t) s); [|lia|lia]. intros t' Ht'. apply Hno. lia.
    + intros E t' Ht'. replace t' with t by lia. rewrite Hxt. unfold c. replace (j + n - 1) with (j + t) by lia. done.
Qed.
End Table.

Section LongLoops.
Context {M : Macros} (m : Mem) (haystack needle n H : Z) (known : Z -> Z -> Prop) {L : MacroLaws m haystack needle n H known}.
Context (Hn : 1 <= n < 4294967296) (HH : 0 <= H < 4294967296).
Let x := element m needle.
Let y := element m haystack.
#[local] Abbreviation found := (found x n y H haystack).
#[local] Abbreviation none_before := (none_before x n y).
#[local] Abbreviation stands_below := (stands_below m haystack needle).
#[local] Abbreviation table := (make_shift_table m needle n).
Context (l p : Z) (F : factored x n l p).

Lemma long_periodic_spec fuel : period_from x n 0 p -> forall h j memory, (Z.to_nat (H - j) < fuel)%nat -> known h j -> 0 <= j <= H ->
  none_before j -> memory = 0 \/ memory = n - p -> 0 <= memory < n -> stands_below j memory ->
  exists r, long_periodic m haystack needle n l p table fuel h j memory = Some r /\ found r.
Proof.
  intros Hper. pose proof (factored_range _ _ _ _ F) as Hr. induction fuel as [|fuel IH]; intros h j memory Hf Hk Hj Hb Hmem Hm Hs; [lia|].
  cbn [long_periodic]. destruct (available_step m haystack needle n H known h j Hk Hj Hb) as ([|] & h' & -> & Hok); cbn [mbind option_bind]; [|by exists 0].
  destruct Hok as [Hw Hnext]. cbv zeta.
  destruct (last_shift_spec m haystack needle n H known Hn HH j ltac:(lia) Hw) as (Hsr & Hsno & Hsne & Hs0).
  destruct (Z.ltb_spec 0 (last_shift m haystack n table j)) as [Hpos|Hz].
  - set (shift := last_shift m haystack n table j) in *.
    set (d := if negb (memory =? 0) && (shift <? p) then u32 (n - p) else shift).
    assert (1 <= d <= n /\ forall s, 0 <= s < d -> ~ occurs x n y (j + s)) as [Hd Hno].
    { unfold d. destruct (Z.eqb_spec memory 0) as [|Hm0]; cbn [negb andb]; [split; [lia|done]|]. destruct (shift <? p); [|split; [lia|done]].
      destruct Hmem as [|Hmem]; [done|]. rewrite u32_small by (unfold is_u32; lia). split; [lia|]. intros s Hsd.
      eapply (last_differs x n l p F y j s); [done| |by apply Hsne|lia]. by rewrite <- Hmem. }
    rewrite u32_small by (unfold is_u32; lia).
    apply IH; [lia|apply Hnext; lia|lia|by apply none_skip|by left|lia|intros t Ht; lia].
  - rewrite (u32_small (n - 1)) by (unfold is_u32; lia).
    destruct (right_half m haystack needle n H l p Hn HH F (n - 1) memory j) as (i & -> & Hi);
      [lia|lia|lia|unfold MAX; destruct (Z.ltb_spec l memory); lia|done|apply Hs0; lia|].
    cbn [mbind option_bind]. destruct (n - 1 <=? i).
    + destruct (left_half m haystack needle n H l p Hn HH F memory j) as (c & -> & Hc & Ho); [lia|lia|lia|done|done|]. cbn [mbind option_bind].
      rewrite u32_add_l. replace (c - 1 + 1) with c by lia. rewrite (u32_small c), (u32_small (memory + 1)) by (unfold is_u32; lia).
      destruct (c <? memory + 1); [eexists; split; [done|]; by apply found_here|].
      rewrite (u32_small (j + p)), (u32_small (n - p)) by (unfold is_u32; lia).
      apply IH; [lia|apply Hnext; lia|lia| |by right|lia|by eapply remember_period].
      apply none_skip; [done|]. by eapply skip_period.
    + destruct Hi as [Hi Hno]. rewrite u32_small by (unfold is_u32; lia).
      apply IH; [lia|apply Hnext; lia|lia|by apply none_skip|by left|lia|intros t Ht; lia].
Qed.

Lemma long_distinct_spec fuel : ~ (forall t, 0 <= t < l -> x t = x (t + p)) -> 1 <= l -> forall h j, (Z.to_nat (H - j) < fuel)%nat -> known h j -> 0 <= j <= H ->
  none_before j -> exists r, long_distinct m haystack needle n l (MAX l (n - l) + 1) table fuel h j = Some r /\ found r.
Proof.
  intros Hd Hl. pose proof (factored_range _ _ _ _ F) as Hr. induction fuel as [|fuel IH]; intros h j Hf Hk Hj Hb; [lia|].
  cbn [long_distinct]. destruct (available_step m haystack needle n H known h j Hk Hj Hb) as ([|] & h' & -> & Hok); cbn [mbind option_bind]; [|by exists 0].
  destruct Hok as [Hw Hnext]. cbv zeta.
  destruct (last_shift_spec m haystack needle n H known Hn HH j ltac:(lia) Hw) as (Hsr & Hsno & _ & Hs0).
  destruct (Z.ltb_spec 0 (last_shift m haystack n table j)) as [Hpos|Hz].
  - rewrite u32_small by (unfold is_u32; lia). apply IH; [lia|apply Hnext; lia|lia|by apply none_skip].
  - rewrite (u32_small (n - 1)) by (unfold is_u32; lia).
    destruct (right_half m haystack needle n H l p Hn HH F (n - 1) 0 j) as (i & Ei & Hi);
      [lia|lia|lia|unfold MAX; destruct (Z.ltb_spec l 0); lia|intros t Ht; lia|apply Hs0; lia|].
    replace (MAX l 0) with l in Ei by (unfold MAX; destruct (Z.ltb_spec l 0); lia). rewrite Ei.
    cbn [mbind option_bind]. destruct (n - 1 <=? i).
    + rewrite scan_left_all_eq by lia.
      destruct (left_half m haystack needle n H l p Hn HH F 0 j) as (c & -> & Hc & Ho); [lia|lia|lia|intros t Ht; lia|done|]. cbn [mbind option_bind].
      rewrite end_of_left by lia. destruct (c <? 0 + 1); [eexists; split; [done|]; by apply found_here|].
      assert (1 <= MAX l (n - l) + 1 <= n) as Hmax by (unfold MAX; destruct (Z.ltb_spec l (n - l)); lia).
      rewrite u32_small by (unfold is_u32; lia).
      apply IH; [lia|apply Hnext; lia|lia|]. apply none_skip; [done|]. by eapply skip_halves.
    + destruct Hi as [Hi Hno]. rewrite u32_small by (unfold is_u32; lia). apply IH; [lia|apply Hnext; lia|lia|by apply none_skip].
Qed.
End LongLoops.

(** ** The two functions *)

Section Needles.
Context {M : Macros} (m : Mem) (haystack needle n H : Z) (known : Z -> Z -> Prop) {L : MacroLaws m haystack needle n H known}.
Context (Hn : 1 <= n < 4294967296) (HH : 0 <= H < 4294967296).
Let x := element m needle.
Let y := element m haystack.

(** How both begin: the factorization, and the test that tells the two searches apart. *)
Lemma factor_and_compare : exists l p same, critical_factorization m needle n = Some (l, p) /\ factored x n l p /\
  CMP_FUNC m needle (u32 (needle + p)) l = Some same /\
  if same =? 0 then period_from x n 0 p
  else ~ (forall t, 0 <= t < l -> x t = x (t + p)) /\ 1 <= l /\ u32 (MAX l (u32 (n - l)) + 1) = MAX l (n - l) + 1.
Proof.
  destruct (critical_factorization_spec m needle n Hn) as (l & p & E & F). pose proof (factored_range _ _ _ _ F) as Hr.
  destruct (cmp_law p l) as (r & Er & Hiff); [lia..|]. exists l, p, r. split_and!; [done..|].
  destruct (Z.eqb_spec r 0) as [Ez|Hne].
  - apply (whole_period x n l p F). by apply Hiff.
  - assert (1 <= l) by (destruct (Z.leb_spec 1 l); [done|]; exfalso; apply Hne, Hiff; intros t Ht; lia).
    split; [intros Hall; by apply Hne, Hiff|]. split; [done|]. rewrite (u32_small (n - l)) by (unfold is_u32; lia).
    apply u32_small. unfold is_u32, MAX. destruct (Z.ltb_spec l (n - l)); lia.
Qed.

Lemma two_way_short_spec fuel h : (Z.to_nat H < fuel)%nat -> known h 0 ->
  exists r, two_way_short_needle m fuel haystack h needle n = Some r /\ found x n y H haystack r.
Proof.
  intros Hf Hk. destruct factor_and_compare as (l & p & same & E & F & Ec & Hc). unfold two_way_short_needle.
  rewrite E. cbn [mbind option_bind]. rewrite Ec. cbn [mbind option_bind]. destruct (same =? 0).
  - eapply short_periodic_spec; [eassumption|done|done|exact F|done|lia|done|lia|apply none_before_0|lia|intros t Ht; lia].
  - destruct Hc as (Hd & Hl & ->). eapply short_distinct_spec; [eassumption|done|done|exact F|done|done|lia|done|lia|apply none_before_0].
Qed.
Lemma two_way_long_spec fuel h : (Z.to_nat H < fuel)%nat -> known h 0 ->
  exists r, two_way_long_needle m fuel haystack h needle n = Some r /\ found x n y H haystack r.
Proof.
  intros Hf Hk. destruct factor_and_compare as (l & p & same & E & F & Ec & Hc). unfold two_way_long_needle.
  rewrite E. cbn [mbind option_bind]. cbv zeta. rewrite Ec. cbn [mbind option_bind]. destruct (same =? 0).
  - eapply long_periodic_spec; [eassumption|done|done|exact F|done|lia|done|lia|apply none_before_0|by left|lia|intros t Ht; lia].
  - destruct Hc as (Hd & Hl & ->). eapply long_distinct_spec; [eassumption|done|done|exact F|done|done|lia|done|lia|apply none_before_0].
Qed.
End Needles.

(** C33: the needle is factored at a critical position.  For every needle of up to 2^32-1 characters
    the two scans for a maximal suffix end within the rounds given, and critical_factorization
    returns a position [l] and a length [p] such that [p] is the least period of the right half,
    and every repetition of the needle across [l], at any distance, is longer than the left half
    and a period of the whole needle. *)
Theorem needle_factored {M : Macros} (m : Mem) (needle n : Z) : 1 <= n < 4294967296 ->
  exists l p, critical_factorization m needle n = Some (l, p) /\ 0 <= l < n /\ 1 <= p <= n - l /\
    (forall t, l <= t -> t + p < n -> element m needle t = element m needle (t + p)) /\
    (forall s, 0 < s < p -> exists t, l <= t /\ t + s < n /\ element m needle t <> element m needle (t + s)) /\
    (forall s, 1 <= s -> local_rep (element m needle) n l s -> l < s /\ period_from (element m needle) n 0 s).
Proof.
  intros Hn. destruct (critical_factorization_spec m needle n Hn) as (l & p & E & F). exists l, p.
  pose proof (factored_range _ _ _ _ F). split; [done|]. split; [lia|]. split; [lia|]. split; [apply F|]. split; [|apply F].
  intros s Hs. destruct (search_below (fun t => negb (element m needle (l + t) =? element m needle (l + t + s))) (n - s - l)) as [Hno|(t & Ht & Hne & _)].
  - destruct (factored_least _ _ _ _ F s Hs). intros t Ht Hlt. specialize (Hno (t - l) ltac:(lia)). apply negb_false_iff, Z.eqb_eq in Hno.
    by replace (l + (t - l)) with t in Hno by lia.
  - exists (l + t). apply negb_true_iff, Z.eqb_neq in Hne. split; [lia|]. split; [lia|done].
Qed.

(** Plain bytes, for an example: "abaabaa" is cut behind its second character. *)
Definition plain_macros : Macros := {|
  CANON_ELEMENT c := c;
  CMP_FUNC m a b n := Some (if bool_decide (bytes m a (Z.to_nat n) = bytes m b (Z.to_nat n)) then 0 else 1);
  AVAILABLE m h h_l j n_l := Some (j + n_l <=? h_l, h_l)
|}.
Lemma needle_factored_witness : exists l p, critical_factorization (M := plain_macros) (storel (fun _ => 0) 4096 (str "abaabaa")) 4096 7 = Some (l, p) /\ l = 2 /\ p = 3.
Proof.
  destruct (needle_factored (M := plain_macros) (storel (fun _ => 0) 4096 (str "abaabaa")) 4096 7 ltac:(lia)) as (l & p & E & _).
  exists l, p. split; [exact E|]. vm_compute in E. injection E as <- <-. split; reflexivity.
Defined.
End TwoWay.
