(* ===== verification/StrSearch.v ===== *)
(** newlib/newlib/libc/string: strstr, strcasestr, memmem and strnstr, the searches for a string.

    Each file holds a short version for PREFER_SIZE_OVER_SPEED (suffix [_small]) and a fast one,
    which picks an algorithm by the needle's length: a shift register for a few characters, a table
    of skips for a few hundred, and the Two-Way search of TwoWay beyond.  [first_at] is the
    reference they are all compared with. *)

From S2P Require Import Prelude NewlibString NewlibCtype NewlibScan Factorization TwoWay.

Module StrSearch.
Import NewlibScan Factorization TwoWay.

(** ** memmem *)

Module Memmem.
(** [for (i = ne_len - 1; i != 0; i--) if (hs[i] != ne[i]) break;] *)
Fixpoint backwards (fuel : nat) (m : Mem) (hs ne i : Z) : option Z :=
  match fuel with
  | O => None
  | S fuel => if i =? 0 then Some 0 else if negb (loadb m (hs + i) =? loadb m (ne + i)) then Some i else backwards fuel m hs ne (i - 1)
  end.
Fixpoint memmem_small_loop (fuel : nat) (m : Mem) (hs end' ne ne_len : Z) : option Z :=
  match fuel with
  | O => None
  | S fuel' =>
      if hs <=? end' then
        if negb (loadb m hs =? loadb m ne) then memmem_small_loop fuel' m (u32 (hs + 1)) end' ne ne_len
        else
          i ← backwards fuel m hs ne (s32 (ne_len - 1));
          if i =? 0 then Some hs else memmem_small_loop fuel' m (u32 (hs + 1)) end' ne ne_len
      else Some 0
  end.
Definition memmem_small (fuel : nat) (m : Mem) (haystack hs_len needle ne_len : Z) : option Z :=
  if ne_len =? 0 then Some haystack
  else memmem_small_loop fuel m haystack (u32 (haystack + hs_len - ne_len)) needle ne_len.

(** What memmem.c defines before it includes str-two-way.h. *)
#[local] Instance memmem_macros : Macros := {|
  CANON_ELEMENT c := c;
  CMP_FUNC m s1 s2 n := memcmp m s1 s2 n;
  AVAILABLE m h h_l j n_l := Some (j <=? u32 (h_l - n_l), h_l)
|}.

(** Needles of two characters: [for (hs++; hs <= end && hw != nw; ) hw = hw << 16 | *++hs;] *)
Fixpoint pair_loop (fuel : nat) (m : Mem) (hs end' hw nw : Z) : option (Z * Z) :=
  match fuel with
  | O => None
  | S fuel =>
      if (hs <=? end') && negb (hw =? nw) then
        let hs := u32 (hs + 1) in pair_loop fuel m hs end' (u32 (Z.lor (Z.shiftl hw 16) (loadb m hs))) nw
      else Some (hs, hw)
  end.

Definition hash2 (m : Mem) (p : Z) : Z := u32 (loadb m p - u32 (Z.shiftl (loadb m (p - 1)) 3)) mod 256.
(** [for (i = 1; i < m1; i++) shift[hash2 (ne + i)] = i;] with [n] rounds left *)
Fixpoint fill_pairs (n : nat) (m : Mem) (ne i : Z) (shift : list Z) : list Z :=
  match n with
  | O => shift
  | S n => fill_pairs n m ne (i + 1) (<[Z.to_nat (hash2 m (ne + i)) := u8 i]> shift)
  end.
(** [do { hs += m1; tmp = shift[hash2 (hs)]; } while (hs <= end && tmp == 0);] *)
Fixpoint skip_pairs (fuel : nat) (m : Mem) (shift : list Z) (m1 hs end' : Z) : option (Z * Z) :=
  match fuel with
  | O => None
  | S fuel =>
      let hs := u32 (hs + m1) in
      let tmp := shift !!! Z.to_nat (hash2 m hs) in
      if (hs <=? end') && (tmp =? 0) then skip_pairs fuel m shift m1 hs end' else Some (hs, tmp)
  end.
Fixpoint hash_loop (fuel : nat) (m : Mem) (shift : list Z) (m1 shift1 ne hs end' offset : Z) : option Z :=
  match fuel with
  | O => None
  | S fuel' =>
      if hs <=? end' then
        '(hs, tmp) ← skip_pairs fuel m shift m1 hs end';
        let hs := u32 (hs - tmp) in
        if tmp <? m1 then hash_loop fuel' m shift m1 shift1 ne hs end' offset
        else
          passes ← (if m1 <=? 15 then Some true
                    else r ← memcmp m (u32 (hs + offset)) (u32 (ne + offset)) 4; Some (r =? 0));
          if passes : bool then
            r ← memcmp m hs ne m1;
            if r =? 0 then Some hs
            else hash_loop fuel' m shift m1 shift1 ne (u32 (hs + shift1)) end' (u32 ((if offset >=? 4 then offset else m1) - 4))
          else hash_loop fuel' m shift m1 shift1 ne (u32 (hs + shift1)) end' offset
      else Some 0
  end.
(** Needles of 3 to 256 characters. *)
Definition memmem_hash (fuel : nat) (m : Mem) (hs end' ne ne_len : Z) : option Z :=
  let m1 := u32 (ne_len - 1) in
  let shift := fill_pairs (Z.to_nat (m1 - 1)) m ne 1 (replicate 256 0) in
  let h := Z.to_nat (hash2 m (ne + m1)) in
  let shift1 := u32 (m1 - shift !!! h) in
  let shift := <[h := u8 m1]> shift in
  hash_loop fuel m shift m1 shift1 ne hs end' 0.

Definition memmem (fuel : nat) (m : Mem) (haystack hs_len needle ne_len : Z) : option Z :=
  let hs := haystack in
  let ne := needle in
  if ne_len =? 0 then Some hs
  else if ne_len =? 1 then memchr m hs (loadb m ne) hs_len
  else if hs_len <? ne_len then Some 0
  else
    let end' := u32 (hs + hs_len - ne_len) in
    if ne_len =? 2 then
      let nw := Z.lor (Z.shiftl (loadb m ne) 16) (loadb m (ne + 1)) in
      let hw := Z.lor (Z.shiftl (loadb m hs) 16) (loadb m (hs + 1)) in
      '(hs, hw) ← pair_loop fuel m (u32 (hs + 1)) end' hw nw;
      Some (if hw =? nw then u32 (hs - 1) else 0)
    else if ne_len >? 256 then two_way_long_needle (M := memmem_macros) m fuel hs hs_len ne ne_len
    else memmem_hash fuel m hs end' ne ne_len.
End Memmem.

(** strnstr: memmem for a needle and a haystack that may end earlier. *)
Definition strnstr (fuel : nat) (m : Mem) (haystack needle haystack_len : Z) : option Z :=
  let needle_len := strnlen m needle haystack_len in
  if (needle_len <? haystack_len) || (loadb m (needle + needle_len) =? 0) then
    x ← Memmem.memmem fuel m haystack haystack_len needle needle_len;
    if x =? 0 then Some 0
    else z ← memchr m haystack 0 (u32 (x - haystack)); Some (if z =? 0 then x else 0)
  else Some 0.

(** ** strstr *)

Module Strstr.
(** [for (i = 1; ne[i] != 0; i++) if (hs[i] != ne[i]) break;] *)
Fixpoint forwards (fuel : nat) (m : Mem) (hs ne i : Z) : option Z :=
  match fuel with
  | O => None
  | S fuel =>
      if loadb m (ne + i) =? 0 then Some i
      else if negb (loadb m (hs + i) =? loadb m (ne + i)) then Some i else forwards fuel m hs ne (u32 (i + 1))
  end.
Fixpoint strstr_small_loop (fuel : nat) (m : Mem) (hs ne : Z) : option Z :=
  match fuel with
  | O => None
  | S fuel' =>
      if loadb m hs =? 0 then Some 0
      else if negb (loadb m hs =? loadb m ne) then strstr_small_loop fuel' m (u32 (hs + 1)) ne
      else
        i ← forwards fuel m hs ne 1;
        if loadb m (ne + i) =? 0 then Some hs else strstr_small_loop fuel' m (u32 (hs + 1)) ne
  end.
Definition strstr_small (fuel : nat) (m : Mem) (hs ne : Z) : option Z :=
  if loadb m ne =? 0 then Some hs else strstr_small_loop fuel m hs ne.

(** What strstr.c defines before it includes str-two-way.h. *)
#[local] Instance strstr_macros : Macros := {|
  CANON_ELEMENT c := c;
  CMP_FUNC m s1 s2 n := memcmp m s1 s2 n;
  AVAILABLE m h h_l j n_l :=
    if j <=? u32 (h_l - n_l) then Some (true, h_l)
    else
      let h_l := u32 (h_l + strnlen m (u32 (h + h_l)) (Z.lor n_l 2048)) in
      Some (j <=? u32 (h_l - n_l), h_l)
|}.

(** The loops of strstr2, strstr3 and strstr4 over the register [h2], which [next] shifts:
    [for (c = hs[0]; h1 != h2 && c != 0; c = *++hs) h2 = next (h2, c);] *)
Fixpoint register_loop (fuel : nat) (m : Mem) (next : Z -> Z -> Z) (hs h1 h2 : Z) : option (Z * Z) :=
  match fuel with
  | O => None
  | S fuel =>
      let c := loadb m hs in
      if negb (h1 =? h2) && negb (c =? 0) then register_loop fuel m next (u32 (hs + 1)) h1 (next h2 c)
      else Some (hs, h2)
  end.
Definition strstr2 (fuel : nat) (m : Mem) (hs ne : Z) : option Z :=
  let h1 := Z.lor (Z.shiftl (loadb m ne) 16) (loadb m (ne + 1)) in
  '(hs, h2) ← register_loop fuel m (fun h2 c => u32 (Z.lor (Z.shiftl h2 16) c)) hs h1 0;
  Some (if h1 =? h2 then u32 (hs - 2) else 0).
Definition strstr3 (fuel : nat) (m : Mem) (hs ne : Z) : option Z :=
  let h1 := Z.lor (Z.lor (Z.shiftl (loadb m ne) 24) (Z.shiftl (loadb m (ne + 1)) 16)) (Z.shiftl (loadb m (ne + 2)) 8) in
  '(hs, h2) ← register_loop fuel m (fun h2 c => u32 (Z.shiftl (Z.lor h2 c) 8)) hs h1 0;
  Some (if h1 =? h2 then u32 (hs - 3) else 0).
Definition strstr4 (fuel : nat) (m : Mem) (hs ne : Z) : option Z :=
  let h1 := Z.lor (Z.lor (Z.lor (Z.shiftl (loadb m ne) 24) (Z.shiftl (loadb m (ne + 1)) 16)) (Z.shiftl (loadb m (ne + 2)) 8)) (loadb m (ne + 3)) in
  '(hs, h2) ← register_loop fuel m (fun h2 c => u32 (Z.lor (Z.shiftl h2 8) c)) hs h1 0;
  Some (if h1 =? h2 then u32 (hs - 4) else 0).

(** [for (i = 0; i < ne_len; i++) shift[ne[i] % sizeof (shift)] = ne_len - i;] with [n] rounds left *)
Fixpoint fill_skips (n : nat) (m : Mem) (ne ne_len i : Z) (shift : list Z) : list Z :=
  match n with
  | O => shift
  | S n => fill_skips n m ne ne_len (i + 1) (<[Z.to_nat (loadb m (ne + i) mod 64) := u8 (ne_len - i)]> shift)
  end.
Definition skip_of (m : Mem) (shift : list Z) (p : Z) : Z := shift !!! Z.to_nat (loadb m p mod 64).

(** [for (hs += tmp; hs <= end; hs += tmp)], from [hs] on: the match, or the [hs] it ends with. *)
Fixpoint quick_inner (fuel : nat) (m : Mem) (shift : list Z) (hs end' ne ne_len : Z) : option (Z + Z) :=
  match fuel with
  | O => None
  | S fuel' =>
      if hs <=? end' then
        let tmp := skip_of m shift (hs + ne_len) in
        r ← memcmp m hs ne ne_len;
        if r =? 0 then Some (inl hs) else quick_inner fuel' m shift (u32 (hs + tmp)) end' ne ne_len
      else Some (inr hs)
  end.
Fixpoint quick_outer (fuel : nat) (m : Mem) (shift : list Z) (hs end' ne ne_len : Z) : option Z :=
  match fuel with
  | O => None
  | S fuel' =>
      let hs := u32 (hs - 1) in
      let tmp := skip_of m shift (hs + ne_len) in
      r ← quick_inner fuel m shift (u32 (hs + tmp)) end' ne ne_len;
      match r with
      | inl hs => Some hs
      | inr hs =>
          if loadb m (end' + ne_len) =? 0 then Some 0
          else
            let end' := u32 (end' + strnlen m (u32 (end' + ne_len)) 2048) in
            if hs <=? end' then quick_outer fuel' m shift hs end' ne ne_len else Some 0
      end
  end.

Definition strstr (fuel : nat) (m : Mem) (haystack needle : Z) : option Z :=
  let hs := haystack in
  let ne := needle in
  if loadb m ne =? 0 then Some hs
  else if loadb m (ne + 1) =? 0 then strchr fuel m hs (loadb m ne)
  else if loadb m (ne + 2) =? 0 then strstr2 fuel m hs ne
  else if loadb m (ne + 3) =? 0 then strstr3 fuel m hs ne
  else if loadb m (ne + 4) =? 0 then strstr4 fuel m hs ne
  else
    ne_len ← strlen fuel m ne;
    let hs_len := strnlen m hs (Z.lor ne_len 512) in
    if hs_len <? ne_len then Some 0
    else if ne_len <? 255 then
      let shift := fill_skips (Z.to_nat ne_len) m ne ne_len 0 (replicate 64 (u8 (ne_len + 1))) in
      quick_outer fuel m shift hs (u32 (hs + hs_len - ne_len)) ne ne_len
    else two_way_long_needle (M := strstr_macros) m fuel hs hs_len ne ne_len.
End Strstr.

(** ** strcasestr *)

Module Strcasestr.
Definition lower_at (m : Mem) (p : Z) : Z := NewlibCtype.tolower (loadb m p).

(** [do { if ((sc = *s++) == 0) return NULL; } while ((char) tolower (sc) != c);]: behind the
    character found, or [None] at the end. *)
Fixpoint find_first (fuel : nat) (m : Mem) (s c : Z) : option (option Z) :=
  match fuel with
  | O => None
  | S fuel =>
      if loadb m s =? 0 then Some None
      else if negb (lower_at m s =? c) then find_first fuel m (u32 (s + 1)) c else Some (Some (u32 (s + 1)))
  end.
Fixpoint strcasestr_small_loop (fuel : nat) (m : Mem) (s find c len : Z) : option Z :=
  match fuel with
  | O => None
  | S fuel' =>
      r ← find_first fuel m s c;
      match r with
      | None => Some 0
      | Some s => if negb (strncasecmp m s find len =? 0) then strcasestr_small_loop fuel' m s find c len else Some (u32 (s - 1))
      end
  end.
Definition strcasestr_small (fuel : nat) (m : Mem) (s find : Z) : option Z :=
  if negb (loadb m find =? 0) then
    let c := lower_at m find in
    let find := u32 (find + 1) in
    len ← strlen fuel m find;
    strcasestr_small_loop fuel m s find c len
  else Some s.

(** What strcasestr.c defines before it includes str-two-way.h. *)
#[local] Instance strcasestr_macros : Macros := {|
  CANON_ELEMENT c := NewlibCtype.tolower c;
  CMP_FUNC m s1 s2 n := Some (strncasecmp m s1 s2 n);
  AVAILABLE m h h_l j n_l :=
    r ← memchr m (u32 (h + h_l)) 0 (u32 (j + n_l - h_l));
    if r =? 0 then let h_l := u32 (j + n_l) in Some (negb (h_l =? 0), h_l) else Some (false, h_l)
|}.

(** [while ( *haystack && *needle) ok &= tolower ( *haystack++) == tolower ( *needle++);] *)
Fixpoint prefix_loop (fuel : nat) (m : Mem) (haystack needle : Z) (ok : bool) : option (Z * Z * bool) :=
  match fuel with
  | O => None
  | S fuel =>
      if negb (loadb m haystack =? 0) && negb (loadb m needle =? 0)
      then prefix_loop fuel m (u32 (haystack + 1)) (u32 (needle + 1)) (ok && (lower_at m haystack =? lower_at m needle))
      else Some (haystack, needle, ok)
  end.
Definition strcasestr (fuel : nat) (m : Mem) (s find : Z) : option Z :=
  '(haystack, needle, ok) ← prefix_loop fuel m s find true;
  if negb (loadb m needle =? 0) then Some 0
  else if ok : bool then Some s
  else
    let needle_len := u32 (needle - find) in
    let haystack := u32 (s + 1) in
    let haystack_len := u32 (needle_len - 1) in
    if needle_len <? LONG_NEEDLE_THRESHOLD
    then two_way_short_needle (M := strcasestr_macros) m fuel haystack haystack_len find needle_len
    else two_way_long_needle (M := strcasestr_macros) m fuel haystack haystack_len find needle_len.
End Strcasestr.
End StrSearch.
