(* ===== verification/StrSearchSpec.v ===== *)
(** The searches of StrSearch return the first occurrence.

    [first_at] looks for a list in a list in the plain way; memmem, strstr, strcasestr and strnstr,
    in both versions where there are two, are proved to end and to return the place it finds. *)

From S2P Require Import Prelude NewlibString NewlibCtype NewlibScan Factorization TwoWay StrSearch.

Module StrSearchSpec.
Import NewlibString(string_in, string_cons, string_nil, diff, diff_refl).
Import NewlibScan Factorization TwoWay StrSearch.

(** ** The reference *)

Fixpoint is_prefix (l1 l2 : list Z) : bool :=
  match l1, l2 with
  | [], _ => true
  | x :: l1, y :: l2 => (x =? y) && is_prefix l1 l2
  | _ :: _, [] => false
  end.
(** The first place of [ne] in [hs]. *)
Fixpoint first_at (ne hs : list Z) : option Z :=
  if is_prefix ne hs then Some 0
  else match hs with [] => None | _ :: hs => Z.succ <$> first_at ne hs end.
(** The pointer it stands for. *)
Definition pointer (base : Z) (o : option Z) : Z := match o with Some k => u32 (base + k) | None => 0 end.

Definition at_index (l : list Z) (t : Z) : Z := l !!! Z.to_nat t.

Lemma at_index_cons c l t : at_index (c :: l) t = if t <=? 0 then c else at_index l (t - 1).
Proof.
  unfold at_index. destruct (Z.leb_spec t 0); [by replace (Z.to_nat t) with O by lia|]. by replace (Z.to_nat t) with (S (Z.to_nat (t - 1))) by lia.
Qed.
Lemma is_prefix_spec l1 : forall l2, is_prefix l1 l2 = true <->
  Z.of_nat (length l1) <= Z.of_nat (length l2) /\ forall t, 0 <= t < Z.of_nat (length l1) -> at_index l1 t = at_index l2 t.
Proof.
  induction l1 as [|x l1 IH]; intros [|y l2]; cbn [is_prefix length]; [split; [split; [|intros]; lia|done]..|split; [done|lia]|].
  rewrite andb_true_iff, Z.eqb_eq, IH. split.
  - intros [-> [Hl He]]. split; [lia|]. intros t Ht. rewrite !at_index_cons. destruct (Z.leb_spec t 0); [done|]. apply He. lia.
  - intros [Hl He]. split; [by apply (He 0); lia|]. split; [lia|]. intros t Ht. specialize (He (t + 1) ltac:(lia)). rewrite !at_index_cons in He.
    rewrite (proj2 (Z.leb_gt (t + 1) 0)) in He by lia. by replace (t + 1 - 1) with t in He by lia.
Qed.
Lemma first_at_spec ne hs : let n := Z.of_nat (length ne) in let H := Z.of_nat (length hs) in
  match first_at ne hs with
  | Some k => 0 <= k /\ k + n <= H /\ occurs (at_index ne) n (at_index hs) k /\ none_before (at_index ne) n (at_index hs) k
  | None => forall k, 0 <= k -> k + n <= H -> ~ occurs (at_index ne) n (at_index hs) k
  end.
Proof.
  cbv zeta. induction hs as [|c hs IH]; cbn [first_at].
  - destruct (is_prefix ne []) eqn:E.
    + apply is_prefix_spec in E as [Hl He]. split; [lia|]. split; [simpl in *; lia|]. split; [by intros t Ht; rewrite Z.add_0_l; apply He|intros j Hj; lia].
    + intros k Hk Hle Ho. assert (is_prefix ne [] = true) as E'; [|congruence]. apply is_prefix_spec. split; [lia|]. intros t Ht. simpl in Hle. lia.
  - destruct (is_prefix ne (c :: hs)) eqn:E.
    + apply is_prefix_spec in E as [Hl He]. split; [lia|]. split; [lia|]. split; [by intros t Ht; rewrite Z.add_0_l; apply He|intros j Hj; lia].
    + assert (Z.of_nat (length ne) <= Z.of_nat (length (c :: hs)) -> ~ occurs (at_index ne) (Z.of_nat (length ne)) (at_index (c :: hs)) 0) as H0.
      { intros Hl Ho. assert (is_prefix ne (c :: hs) = true) as E'; [|congruence]. apply is_prefix_spec. split; [done|]. intros t Ht. rewrite (Ho t Ht). done. }
      assert (forall k, 0 < k -> occurs (at_index ne) (Z.of_nat (length ne)) (at_index (c :: hs)) k <-> occurs (at_index ne) (Z.of_nat (length ne)) (at_index hs) (k - 1)) as Hshift.
      { intros k Hk. split; intros Ho t Ht; specialize (Ho t Ht); rewrite Ho, ?at_index_cons, ?(proj2 (Z.leb_gt (k + t) 0)) by lia; f_equal; lia. }
      cbn [length] in *. destruct (first_at ne hs) as [k|]; cbn [fmap option_fmap option_map].
      * destruct IH as (Hk & Hle & Ho & Hb). split; [lia|]. split; [lia|]. split; [apply Hshift; [lia|]; by replace (Z.succ k - 1) with k by lia|].
        intros j Hj. destruct (Z.eq_dec j 0) as [->|]; [apply H0; lia|]. rewrite Hshift by lia. apply Hb. lia.
      * intros k Hk Hle. destruct (Z.eq_dec k 0) as [->|]; [apply H0; lia|]. rewrite Hshift by lia. apply IH; lia.
Qed.

Section Answer.
Context (x y : Z -> Z) (ne hs : list Z) (base : Z).
Context (Hx : forall t, 0 <= t < Z.of_nat (length ne) -> x t = at_index ne t) (Hy : forall t, 0 <= t < Z.of_nat (length hs) -> y t = at_index hs t).

Lemma occurs_lists k : 0 <= k -> k + Z.of_nat (length ne) <= Z.of_nat (length hs) ->
  occurs x (Z.of_nat (length ne)) y k <-> occurs (at_index ne) (Z.of_nat (length ne)) (at_index hs) k.
Proof using Hx Hy.
  intros Hk Hle. split; intros Ho t Ht; specialize (Ho t Ht); [rewrite <- Hx, <- Hy by lia|rewrite Hx, Hy by lia]; done.
Qed.
Lemma found_answer r : found x (Z.of_nat (length ne)) y (Z.of_nat (length hs)) base r -> r = pointer base (first_at ne hs).
Proof using Hx Hy.
  pose proof (first_at_spec ne hs) as Hf. cbv zeta in Hf. intros [(j & Hj & Hle & Ho & Hb & ->)|(Hno & ->)]; destruct (first_at ne hs) as [k|].
  - destruct Hf as (Hk & Hkl & Hok & Hbk). cbn [pointer]. apply occurs_lists in Ho; [|done|done].
    destruct (Z.lt_trichotomy j k) as [Hlt|[->|Hlt]]; [by destruct (Hbk j ltac:(lia))|done|].
    destruct (Hb k ltac:(lia)). by apply occurs_lists; [| |].
  - destruct (Hf j Hj Hle). by apply occurs_lists.
  - destruct Hf as (Hk & Hkl & Hok & _). destruct (Hno k Hk Hkl). by apply occurs_lists.
  - done.
Qed.
End Answer.

(** ** Comparing memory *)

Lemma diff_zero l1 : forall l2, length l1 = length l2 -> diff l1 l2 = 0 <-> l1 = l2.
Proof.
  induction l1 as [|a l1 IH]; intros [|b l2] Hl; cbn [diff length] in *; try done.
  destruct (Z.eqb_spec a b) as [->|Hne].
  - rewrite IH by congruence. split; congruence.
  - split; [lia|congruence].
Qed.
Lemma memcmp_equal m s1 s2 n : 0 <= n ->
  exists r, memcmp m s1 s2 n = Some r /\ (r = 0 <-> forall t, 0 <= t < n -> loadb m (s1 + t) = loadb m (s2 + t)).
Proof.
  intros Hn. destruct (memcmp_spec m s1 s2 n Hn) as [-> _]. eexists. split; [done|]. rewrite diff_zero by (by rewrite !bytes_length). split.
  - intros E t Ht. assert (bytes m s1 (Z.to_nat n) !! Z.to_nat t = bytes m s2 (Z.to_nat n) !! Z.to_nat t) as E' by (by rewrite E).
    rewrite !bytes_lookup in E' by lia. rewrite Z2Nat.id in E' by lia. congruence.
  - intros H. apply bytes_ext. intros k Hk. apply H. lia.
Qed.
Lemma lor_low a b k : 0 <= k -> 0 <= b < 2 ^ k -> Z.lor (Z.shiftl a k) b = a * 2 ^ k + b.
Proof.
  intros Hk Hb. rewrite <- Z.shiftl_mul_pow2 by lia. symmetry. rewrite <- Z.lxor_lor; [apply Z.add_nocarry_lxor|]; apply Z.bits_inj'; intros i Hi;
    rewrite Z.land_spec, Z.bits_0; (destruct (Z.ltb_spec i k); [by rewrite Z.shiftl_spec_low by lia|]);
    rewrite (testbit_high b k i) by lia; by rewrite andb_false_r.
Qed.

(** ** memmem *)

Lemma hash2_eq m p : Memmem.hash2 m p = (loadb m p - 8 * loadb m (p - 1)) mod 256.
Proof.
  unfold Memmem.hash2. rewrite Z.shiftl_mul_pow2 by lia. change (2 ^ 3) with 8.
  pose proof (loadb_range m p). pose proof (loadb_range m (p - 1)). unfold is_u8 in *. zlia.
Qed.
Lemma hash2_range m p : 0 <= Memmem.hash2 m p < 256.
Proof. unfold Memmem.hash2. apply Z.mod_pos_bound. lia. Qed.

Section MemmemProofs.
Context (m : Mem) (hs H ne n : Z) (fuel : nat).
Context (Hhs : 0 <= hs /\ 0 <= H /\ hs + H < 4294967296) (Hne : 0 <= ne /\ 0 <= n /\ ne + n < 4294967296).
Context (HfH : H < Z.of_nat fuel).
Let x (t : Z) := loadb m (ne + t).
Let y (t : Z) := loadb m (hs + t).
#[local] Abbreviation none_before := (none_before x n y).
#[local] Abbreviation found := (found x n y H hs).

Lemma memmem_laws : n <= H -> @MacroLaws Memmem.memmem_macros m hs ne n H (fun h _ => h = H).
Proof using All.
  intros Hle. split.
  - done.
  - intros p s Hs Hp Hsp. destruct (memcmp_equal m ne (u32 (ne + p)) s ltac:(lia)) as (r & E & Hr). exists r. split; [exact E|].
    rewrite Hr. unfold element. cbn. split; intros Ht t Hlt; specialize (Ht t Hlt); rewrite Ht;
      rewrite <- (loadb_u32 m (u32 (ne + p) + t)), u32_add_l, loadb_u32; f_equal; lia.
  - intros h j -> Hj. exists (j <=? u32 (H - n)), H. split; [done|]. rewrite u32_small by (unfold is_u32; lia). rewrite Z.leb_le. split; [lia|done].
Qed.

Lemma found_at j : 0 <= j -> j + n <= H -> occurs x n y j -> none_before j -> found (hs + j).
Proof using All.
  intros Hj Hle Ho Hb. rewrite <- (u32_small (hs + j)) by (unfold is_u32; lia). apply found_here; [lia|done|done|done].
Qed.

(** Two characters: the register holds the last two read. *)
Lemma pair_word a b : is_u8 a -> is_u8 b -> Z.lor (Z.shiftl a 16) b = a * 65536 + b.
Proof. intros Ha Hb. apply (lor_low a b 16); [lia|unfold is_u8 in *; lia]. Qed.
Lemma pair_loop_spec nw k : n = 2 -> 2 <= H -> nw = x 0 * 65536 + x 1 -> forall j, 1 <= j <= H - 1 -> H - j < Z.of_nat k -> none_before (j - 1) ->
  exists j', Memmem.pair_loop k m (hs + j) (hs + H - n) (y (j - 1) * 65536 + y j) nw = Some (hs + j', y (j' - 1) * 65536 + y j') /\
    1 <= j' <= H - 1 /\ none_before (j' - 1) /\ (y (j' - 1) * 65536 + y j' = nw \/ j' = H - 1).
Proof using All.
  intros En HH Enw. induction k as [|k IH]; intros j Hj Hk Hb; [lia|]. cbn [Memmem.pair_loop].
  destruct (Z.leb_spec (hs + j) (hs + H - n)) as [Hlt|]; cbn [andb]; [|exists j; split; [done|]; split; [lia|]; split; [done|right; lia]].
  destruct (Z.eqb_spec (y (j - 1) * 65536 + y j) nw) as [E|E]; cbn [negb]; [exists j; split; [done|]; split; [lia|]; split; [done|by left]|].
  rewrite (u32_small (hs + j + 1)) by (unfold is_u32; lia). replace (hs + j + 1) with (hs + (j + 1)) by lia. change (loadb m (hs + (j + 1))) with (y (j + 1)).
  pose proof (loadb_range m (hs + j) : is_u8 (y j)). pose proof (loadb_range m (hs + (j + 1)) : is_u8 (y (j + 1))).
  rewrite (lor_low _ _ 16) by (unfold is_u8 in *; lia). change (2 ^ 16) with 65536.
  replace (u32 ((y (j - 1) * 65536 + y j) * 65536 + y (j + 1))) with (y (j + 1 - 1) * 65536 + y (j + 1))
    by (replace (j + 1 - 1) with j by lia; unfold is_u8 in *; zlia).
  apply IH; [lia|lia|]. replace (j + 1 - 1) with (j - 1 + 1) by lia. apply none_skip; [done|]. intros s Hs Ho. apply E. rewrite Enw.
  replace s with 0 in Ho by lia. rewrite (Ho 0), (Ho 1) by lia. f_equal; [f_equal|]; f_equal; lia.
Qed.

Lemma memmem_two : n = 2 -> n <= H -> exists r, Memmem.memmem fuel m hs H ne n = Some r /\ found r.
Proof using All.
  intros En Hle. unfold Memmem.memmem. rewrite (proj2 (Z.eqb_neq n 0)), (proj2 (Z.eqb_neq n 1)), (proj2 (Z.ltb_ge H n)), (proj2 (Z.eqb_eq n 2)) by lia.
  rewrite !pair_word by apply loadb_range. rewrite (u32_small (hs + H - n)), (u32_small (hs + 1)) by (unfold is_u32; lia).
  destruct (pair_loop_spec (x 0 * 65536 + x 1) fuel En ltac:(lia) eq_refl 1) as (j & E & Hj & Hb & Hend); [lia|lia|intros j Hj; lia|].
  unfold x, y in E. rewrite Z.sub_diag, !Z.add_0_r in E. rewrite E. cbn [mbind option_bind]. eexists. split; [done|].
  pose proof (loadb_range m ne : is_u8 (loadb m ne)). pose proof (loadb_range m (ne + 1)). pose proof (loadb_range m (hs + (j - 1))). pose proof (loadb_range m (hs + j)).
  destruct (Z.eqb_spec (loadb m (hs + (j - 1)) * 65536 + loadb m (hs + j)) (loadb m ne * 65536 + loadb m (ne + 1))) as [Eq|Eq].
  - rewrite u32_small by (unfold is_u32; lia). replace (hs + j - 1) with (hs + (j - 1)) by lia. apply found_at; [lia|lia| |done].
    intros t Ht. unfold x, y, is_u8 in *. assert (t = 0 \/ t = 1) as [->| ->] by lia; [rewrite !Z.add_0_r; lia|]. replace (hs + (j - 1 + 1)) with (hs + j) by lia. lia.
  - apply (none_found x n y H hs (j - 1 + 1)); [|destruct Hend as [Hend|]; [unfold x, y in Hend; rewrite Z.add_0_r in Hend; congruence|lia]].
    apply none_skip; [done|]. intros s Hs Ho. replace s with 0 in Ho by lia. apply Eq.
    pose proof (Ho 0 ltac:(lia)) as O0. pose proof (Ho 1 ltac:(lia)) as O1. unfold x, y in O0, O1. rewrite Z.add_0_r in O0.
    replace (hs + (j - 1 + 0 + 1)) with (hs + j) in O1 by lia. replace (hs + (j - 1 + 0 + 0)) with (hs + (j - 1)) in O0 by lia. congruence.
Qed.

(** *** The table of hashed pairs *)

Let hx (i : Z) := Memmem.hash2 m (ne + i).
Let hy (q : Z) := Memmem.hash2 m (hs + q).

(** An occurrence shows in the hashes. *)
Lemma occurs_hash j i : 0 <= j -> occurs x n y j -> 1 <= i < n -> hx i = hy (j + i).
Proof using All.
  intros Hj Ho Hi. unfold hx, hy. rewrite !hash2_eq. pose proof (Ho i ltac:(lia)) as E1. pose proof (Ho (i - 1) ltac:(lia)) as E2. unfold x, y in E1, E2.
  rewrite E1. replace (ne + i - 1) with (ne + (i - 1)) by lia. rewrite E2. do 4 f_equal. lia.
Qed.
(** The hash of the last pair tells its second character, given the first. *)
Lemma hash_last j : 0 <= j -> 2 <= n -> (forall t, 0 <= t < n - 1 -> x t = y (j + t)) -> hx (n - 1) = hy (j + (n - 1)) -> occurs x n y j.
Proof using All.
  intros Hj Hn He Hh t Ht. destruct (Z.ltb_spec t (n - 1)); [apply He; lia|]. replace t with (n - 1) by lia.
  unfold hx, hy in Hh. rewrite !hash2_eq in Hh. pose proof (He (n - 2) ltac:(lia)) as E. unfold x, y in *.
  replace (ne + (n - 1) - 1) with (ne + (n - 2)) in Hh by lia. replace (hs + (j + (n - 1)) - 1) with (hs + (j + (n - 2))) in Hh by lia. rewrite E in Hh.
  pose proof (loadb_range m (ne + (n - 1))). pose proof (loadb_range m (hs + (j + (n - 1)))). unfold is_u8 in *. zlia.
Qed.

(** The entry of a hash: the last of the pairs below [i] that has it, or 0. *)
Definition pairs_upto (T : list Z) (i : Z) : Prop := length T = 256%nat /\ forall h, 0 <= h < 256 ->
  0 <= T !!! Z.to_nat h /\ (T !!! Z.to_nat h < i \/ T !!! Z.to_nat h = 0) /\ (0 < T !!! Z.to_nat h -> hx (T !!! Z.to_nat h) = h) /\
  forall i', 1 <= i' < i -> T !!! Z.to_nat h < i' -> hx i' <> h.

Lemma pairs_insert T i : 1 <= i < 256 -> pairs_upto T i -> pairs_upto (<[Z.to_nat (hx i) := u8 i]> T) (i + 1).
Proof using All.
  intros Hi [Hlen HT]. split; [by rewrite length_insert|]. intros h Hh. pose proof (hash2_range m (ne + i) : 0 <= hx i < 256) as Hr.
  destruct (Z.eq_dec (hx i) h) as [<-|Hne'].
  - rewrite list_lookup_total_insert_eq by (rewrite Hlen; lia). rewrite u8_small by (unfold is_u8; lia). split; [lia|]. split; [lia|]. split; [done|lia].
  - rewrite list_lookup_total_insert_ne by lia. destruct (HT h Hh) as (H1 & H2 & H3 & H4). split; [done|]. split; [lia|]. split; [done|].
    intros i' Hi' Hlt. destruct (Z.eq_dec i' i) as [->|]; [done|]. apply H4; lia.
Qed.
Lemma fill_pairs_spec k : forall i T, 1 <= i -> i + Z.of_nat k <= 256 -> pairs_upto T i -> pairs_upto (Memmem.fill_pairs k m ne i T) (i + Z.of_nat k).
Proof using All.
  induction k as [|k IH]; intros i T Hi Hk HT; cbn [Memmem.fill_pairs]; [by rewrite Z.add_0_r|].
  replace (i + Z.of_nat (S k)) with (i + 1 + Z.of_nat k) by lia. apply IH; [lia|lia|]. apply pairs_insert; [lia|done].
Qed.
Lemma pairs_empty : pairs_upto (replicate 256 0) 1.
Proof using All.
  split; [apply length_replicate|]. intros h Hh. assert (replicate 256 0 !!! Z.to_nat h = 0) as -> by (apply list_lookup_total_correct, lookup_replicate; split; [done|lia]).
  split; [done|]. split; [by right|]. split; [lia|lia].
Qed.

(** Moving the window by the entry of the pair at its end skips no occurrence. *)
Lemma skip_pair T s : 2 <= n -> pairs_upto T n -> 0 <= s -> none_before s -> let tmp := T !!! Z.to_nat (hy (s + (n - 1))) in 0 <= tmp <= n - 1 /\ none_before (s + (n - 1 - tmp)).
Proof using All.
  intros Hn2 [Hlen HT] Hs Hb. cbv zeta. destruct (HT (hy (s + (n - 1))) (hash2_range _ _)) as (H1 & H2 & H3 & H4).
  split; [lia|]. apply none_skip; [done|]. intros d Hd Ho. apply (H4 (n - 1 - d)); [lia|lia|].
  rewrite (occurs_hash (s + d) (n - 1 - d)) by (done || lia). f_equal. lia.
Qed.

Lemma skip_pairs_spec T k : 2 <= n -> pairs_upto T n -> forall s, 0 <= s <= H - n -> H - s < Z.of_nat k -> none_before s ->
  exists q tmp, Memmem.skip_pairs k m T (n - 1) (hs + s) (hs + (H - n)) = Some (hs + q, tmp) /\ tmp = T !!! Z.to_nat (hy q) /\
    s + (n - 1) <= q <= H - 1 /\ 0 <= tmp <= n - 1 /\ none_before (q - tmp) /\ (0 < tmp \/ H - n < q).
Proof using All.
  intros Hn2 HT. induction k as [|k IH]; intros s Hs Hk Hb; [lia|]. cbn [Memmem.skip_pairs]. rewrite u32_small by (unfold is_u32; lia).
  replace (hs + s + (n - 1)) with (hs + (s + (n - 1))) by lia. change (Memmem.hash2 m (hs + (s + (n - 1)))) with (hy (s + (n - 1))).
  destruct (skip_pair T s Hn2 HT ltac:(lia) Hb) as [Ht Hb']. set (tmp := T !!! Z.to_nat (hy (s + (n - 1)))) in *.
  destruct (Z.leb_spec (hs + (s + (n - 1))) (hs + (H - n))) as [Hle|]; cbn [andb]; [destruct (Z.eqb_spec tmp 0) as [E0|]|].
  - rewrite E0, Z.sub_0_r in Hb'. destruct (IH (s + (n - 1)) ltac:(lia) ltac:(lia) Hb') as (q & tmp' & E & Htmp & Hq & Hr). exists q, tmp'.
    split; [exact E|]. split; [done|]. split; [lia|done].
  - exists (s + (n - 1)), tmp. split; [done|]. split; [done|]. split; [lia|]. split; [done|]. split; [|left; lia]. by replace (s + (n - 1) - tmp) with (s + (n - 1 - tmp)) by lia.
  - exists (s + (n - 1)), tmp. split; [done|]. split; [done|]. split; [lia|]. split; [done|]. split; [|right; lia]. by replace (s + (n - 1) - tmp) with (s + (n - 1 - tmp)) by lia.
Qed.

(** The filter of four bytes lets every occurrence pass. *)
Lemma filter_passes s off : 0 <= off -> off + 4 <= n -> 0 <= s -> s + n <= H -> exists r, memcmp m (u32 (hs + s + off)) (u32 (ne + off)) 4 = Some r /\ (r <> 0 -> ~ occurs x n y s).
Proof using All.
  intros Ho Hon Hs Hsn. destruct (memcmp_equal m (u32 (hs + s + off)) (u32 (ne + off)) 4 ltac:(lia)) as (r & E & Hr). exists r. split; [exact E|].
  intros Hne' Hocc. apply Hne', Hr. intros t Ht. rewrite !u32_small by (unfold is_u32; lia). pose proof (Hocc (off + t) ltac:(lia)) as Ex. unfold x, y in Ex.
  rewrite <- !Z.add_assoc. congruence.
Qed.

Lemma hash_loop_spec T shift1 k : 3 <= n -> pairs_upto T n -> T !!! Z.to_nat (hx (n - 1)) = n - 1 ->
  1 <= shift1 <= n - 1 -> (forall i, n - 1 - shift1 < i < n - 1 -> 1 <= i -> hx i <> hx (n - 1)) ->
  forall s off, 0 <= s -> s <= H -> H - s < Z.of_nat k -> none_before s -> (15 < n - 1 -> 0 <= off <= n - 1 - 4) ->
  exists r, Memmem.hash_loop k m T (n - 1) shift1 ne (hs + s) (hs + (H - n)) off = Some r /\ found r.
Proof using All.
  intros Hn3 HT Hlast Hsh Hnone. induction k as [|k IH]; intros s off Hs HsH Hk Hb Hoff; [lia|]. cbn [Memmem.hash_loop].
  destruct (Z.leb_spec (hs + s) (hs + (H - n))) as [Hle|Hgt]; [|exists 0; split; [done|]; apply (none_found x n y H hs s); [done|lia]].
  destruct (skip_pairs_spec T (S k) ltac:(lia) HT s ltac:(lia) ltac:(lia) Hb) as (q & tmp & -> & Htmp & Hq & Ht & Hb' & Hend). cbn [mbind option_bind].
  rewrite u32_small by (unfold is_u32; lia). replace (hs + q - tmp) with (hs + (q - tmp)) by lia.
  destruct (Z.ltb_spec tmp (n - 1)) as [Hlt|Hge]; [apply IH; [lia|lia|lia|done|done]|].
  assert (tmp = n - 1) as Et by lia. set (w := q - tmp) in *. assert (w + n <= H) as Hw by lia. assert (s <= w) as Hsw by lia.
  assert (hy (w + (n - 1)) = hx (n - 1)) as Eh.
  { destruct HT as [_ HT]. destruct (HT (hy q) (hash2_range _ _)) as (_ & _ & Hv & _). rewrite <- Htmp, Et in Hv. replace (w + (n - 1)) with q by lia. symmetry. apply Hv. lia. }
  assert (forall d, 1 <= d < shift1 -> ~ occurs x n y (w + d)) as Hskip.
  { intros d Hd Ho. apply (Hnone (n - 1 - d)); [lia|lia|]. rewrite (occurs_hash (w + d) (n - 1 - d)) by (done || lia).
    replace (w + d + (n - 1 - d)) with (w + (n - 1)) by lia. done. }
  assert (forall off', ~ occurs x n y w -> (15 < n - 1 -> 0 <= off' <= n - 1 - 4) ->
    exists r, Memmem.hash_loop k m T (n - 1) shift1 ne (u32 (hs + w + shift1)) (hs + (H - n)) off' = Some r /\ found r) as Hnext.
  { intros off' Hno Hoff'. rewrite u32_small by (unfold is_u32; lia). rewrite <- Z.add_assoc. apply IH; [lia|lia|lia| |done].
    apply none_skip; [done|]. intros d Hd. destruct (Z.eq_dec d 0) as [->|]; [by rewrite Z.add_0_r|apply Hskip; lia]. }
  assert (exists passes, (if n - 1 <=? 15 then Some true else r ← memcmp m (u32 (hs + w + off)) (u32 (ne + off)) 4; Some (r =? 0)) = Some passes /\
    (passes = false -> ~ occurs x n y w)) as (passes & Ep & Hp).
  { destruct (Z.leb_spec (n - 1) 15); [by exists true|]. destruct (filter_passes w off) as (r & -> & Hr); [lia..|]. cbn [mbind option_bind].
    exists (r =? 0). split; [done|]. intros E%Z.eqb_neq. by apply Hr. }
  assert (15 < n - 1 -> 0 <= (if off >=? 4 then off else n - 1) - 4 <= n - 1 - 4) as Hoff' by (intros ?; destruct (Z.geb_spec off 4); lia).
  assert (15 < n - 1 -> 0 <= u32 ((if off >=? 4 then off else n - 1) - 4) <= n - 1 - 4) as Hoff''
    by (intros Hlong; specialize (Hoff' Hlong); rewrite u32_small by (unfold is_u32; lia); done).
  rewrite Ep. cbn [mbind option_bind]. destruct passes; [|apply Hnext; [by apply Hp|done]].
  destruct (memcmp_equal m (hs + w) ne (n - 1) ltac:(lia)) as (r & Er & Hr). rewrite Er. cbn [mbind option_bind].
  destruct (Z.eqb_spec r 0) as [Ez|Hnz].
  - exists (hs + w). split; [done|]. apply found_at; [lia|lia| |done]. apply hash_last; [lia|lia| |congruence]. intros t Hti. unfold x, y. rewrite Z.add_assoc. symmetry. apply Hr; [done|lia].
  - apply Hnext; [|done]. intros Ho. apply Hnz, Hr. intros t Hti. pose proof (Ho t ltac:(lia)) as E. unfold x, y in E. rewrite <- Z.add_assoc. congruence.
Qed.

Lemma memmem_hash_spec : 3 <= n <= 256 -> n <= H -> exists r, Memmem.memmem_hash fuel m hs (u32 (hs + H - n)) ne n = Some r /\ found r.
Proof using All.
  intros Hn Hle. unfold Memmem.memmem_hash. rewrite (u32_small (n - 1)), (u32_small (hs + H - n)) by (unfold is_u32; lia).
  set (T := Memmem.fill_pairs (Z.to_nat (n - 1 - 1)) m ne 1 (replicate 256 0)).
  assert (pairs_upto T (n - 1)) as HT.
  { pose proof (fill_pairs_spec (Z.to_nat (n - 1 - 1)) 1 (replicate 256 0) ltac:(lia) ltac:(lia) pairs_empty) as E. by replace (1 + Z.of_nat (Z.to_nat (n - 1 - 1))) with (n - 1) in E by lia. }
  change (Memmem.hash2 m (ne + (n - 1))) with (hx (n - 1)). cbv zeta.
  pose proof (proj2 HT (hx (n - 1)) (hash2_range _ _)) as (H1 & H2 & H3 & H4). pose proof (hash2_range m (ne + (n - 1)) : 0 <= hx (n - 1) < 256) as Hr.
  set (v := T !!! Z.to_nat (hx (n - 1))) in *. rewrite (u32_small (n - 1 - v)) by (unfold is_u32; lia).
  replace (hs + H - n) with (hs + (H - n)) by lia.
  pose proof (fun T shift1 H1 H2 H3 H4 H5 => hash_loop_spec T shift1 fuel H1 H2 H3 H4 H5 0 0) as Hloop. rewrite Z.add_0_r in Hloop.
  apply Hloop; [lia| | |lia| |lia|lia|lia|apply none_before_0|lia].
  - pose proof (pairs_insert T (n - 1) ltac:(lia) HT) as HT'. by rewrite Z.sub_add in HT'.
  - rewrite list_lookup_total_insert_eq by (rewrite (proj1 HT); lia). apply u8_small. unfold is_u8. lia.
  - intros i Hi Hi1. apply H4; lia.
Qed.

Lemma memmem_spec : exists r, Memmem.memmem fuel m hs H ne n = Some r /\ found r.
Proof using All.
  destruct (Z.eq_dec n 2) as [E2|N2]; [destruct (Z.leb_spec n H); [by apply memmem_two|]|]; unfold Memmem.memmem; cbv zeta.
  { rewrite E2. cbn [Z.eqb Pos.eqb]. rewrite (proj2 (Z.ltb_lt H 2)) by lia. exists 0. split; [done|]. right. split; [lia|done]. }
  destruct (Z.eqb_spec n 0) as [E0|N0].
  { exists hs. split; [done|]. pose proof (found_at 0) as Hf. rewrite Z.add_0_r in Hf. apply Hf; [lia|lia|intros t Ht; lia|intros j Hj; lia]. }
  destruct (Z.eqb_spec n 1) as [E1|N1].
  { destruct (memchr_spec m hs (loadb m ne) H) as (r & -> & Hr); [unfold is_u32; lia|lia|]. exists r. split; [done|].
    rewrite u8_small in Hr by apply loadb_range. assert (forall k, occurs x n y k <-> loadb m (hs + 1 * k) = loadb m ne) as Ho.
    { intros k. unfold occurs, x, y. rewrite E1. split; [intros Ho; specialize (Ho 0 ltac:(lia)); rewrite !Z.add_0_r in Ho; rewrite Z.mul_1_l; congruence|].
      intros E t Ht. replace t with 0 by lia. rewrite !Z.add_0_r, <- E. by rewrite Z.mul_1_l. }
    destruct Hr as [(k & Hk & Hc & Hno & ->)|(Hno & ->)].
    - rewrite Z.mul_1_l. left. exists k. split; [lia|]. split; [lia|]. split; [by apply Ho|]. split; [|done]. intros j Hj Hoj. apply Ho in Hoj. by apply (Hno j Hj).
    - right. split; [|done]. intros j Hj Hjl Hoj. apply Ho in Hoj. apply (Hno j ltac:(lia) Hoj). }
  destruct (Z.ltb_spec H n); [exists 0; split; [done|]; right; split; [lia|done]|].
  rewrite (proj2 (Z.eqb_neq n 2)) by done. destruct (Z.gtb_spec n 256).
  - by apply (two_way_long_spec (M := Memmem.memmem_macros) m hs ne n H (fun h _ => h = H) (L := memmem_laws ltac:(lia))); [lia|lia|lia|].
  - apply memmem_hash_spec; lia.
Qed.

(** The short version. *)
Lemma backwards_spec s k : forall i, 0 <= i < n -> i < Z.of_nat k -> exists i', Memmem.backwards k m (hs + s) ne i = Some i' /\
  (i' = 0 <-> forall t, 0 < t <= i -> x t = y (s + t)).
Proof using All.
  induction k as [|k IH]; intros i Hi Hk; [lia|]. cbn [Memmem.backwards]. destruct (Z.eqb_spec i 0) as [->|Hi0]; [exists 0; split; [done|]; split; [lia|done]|].
  rewrite <- Z.add_assoc. change (loadb m (hs + (s + i))) with (y (s + i)). change (loadb m (ne + i)) with (x i).
  destruct (Z.eqb_spec (y (s + i)) (x i)) as [E|E]; cbn [negb].
  - destruct (IH (i - 1) ltac:(lia) ltac:(lia)) as (i' & -> & Hi'). exists i'. split; [done|]. rewrite Hi'. split; intros Ht t Htt; [|apply Ht; lia].
    destruct (Z.eq_dec t i) as [->|]; [done|apply Ht; lia].
  - exists i. split; [done|]. split; [done|]. intros Ht. exfalso. apply E. rewrite Ht by lia. done.
Qed.
Lemma memmem_small_loop_spec k : 1 <= n <= 2147483648 -> n < Z.of_nat fuel -> n <= hs + H -> forall s, 0 <= s <= H -> H - s + n < Z.of_nat k -> none_before s ->
  exists r, Memmem.memmem_small_loop k m (hs + s) (hs + (H - n)) ne n = Some r /\ found r.
Proof using All.
  intros Hn Hfn Hnh. induction k as [|k IH]; intros s Hs Hk Hb; [lia|]. cbn [Memmem.memmem_small_loop].
  destruct (Z.leb_spec (hs + s) (hs + (H - n))) as [Hle|]; [|exists 0; split; [done|]; apply (none_found x n y H hs s); [done|lia]].
  assert (~ occurs x n y s -> exists r, Memmem.memmem_small_loop k m (u32 (hs + s + 1)) (hs + (H - n)) ne n = Some r /\ found r) as Hnext.
  { intros Hno. rewrite u32_small by (unfold is_u32; lia). rewrite <- Z.add_assoc. apply IH; [lia|lia|]. apply none_skip; [done|].
    intros d Hd. by replace (s + d) with s by lia. }
  destruct (Z.eqb_spec (loadb m (hs + s)) (loadb m ne)) as [E|E]; cbn [negb].
  - rewrite s32_small by lia. destruct (backwards_spec s (S k) (n - 1) ltac:(lia) ltac:(lia)) as (i & -> & Hi). cbn [mbind option_bind].
    destruct (Z.eqb_spec i 0) as [->|Hi0].
    + exists (hs + s). split; [done|]. apply found_at; [lia|lia| |done]. intros t Ht.
      destruct (Z.eq_dec t 0) as [->|]; [unfold x, y; by rewrite !Z.add_0_r|]. apply Hi; [done|lia].
    + apply Hnext. intros Ho. apply Hi0, Hi. intros t Ht. apply Ho. lia.
  - apply Hnext. intros Ho. specialize (Ho 0 ltac:(lia)). unfold x, y in Ho. rewrite !Z.add_0_r in Ho. congruence.
Qed.
End MemmemProofs.

(** ** strstr *)

Lemma lor_above a b : 0 <= a -> 0 <= b -> a <= Z.lor a b.
Proof.
  intros Ha Hb. pose proof (Z.add_lor_land a b) as E. pose proof (N.land_le_r (Z.to_N a) (Z.to_N b)) as Hle.
  assert (Z.land a b = Z.of_N (N.land (Z.to_N a) (Z.to_N b))) as El by (rewrite N2Z.inj_land, !Z2N.id by lia; done). lia.
Qed.
Lemma lor_below a b k : 0 <= k -> 0 <= a < 2 ^ k -> 0 <= b < 2 ^ k -> 0 <= Z.lor a b < 2 ^ k.
Proof.
  intros Hk Ha Hb. split; [apply Z.lor_nonneg; lia|]. apply Z.nle_gt. intros Hle.
  assert (0 < 2 ^ k) by (by apply Z.pow_pos_nonneg; lia). assert (k <= Z.log2 (Z.lor a b)) as Hlog by (apply Z.log2_le_pow2; lia).
  pose proof (Z.bit_log2 (Z.lor a b) ltac:(lia)) as Hbit. by rewrite Z.lor_spec, !(testbit_high _ k) in Hbit by lia.
Qed.

(** The differences of numerals, for the places in a register. *)
Ltac eval_offsets :=
  repeat match goal with
  | |- context [Zpos ?a - ?b] => let v := eval vm_compute in (Zpos a - b) in change (Zpos a - b) with v
  | E : context [Zpos ?a - ?b] |- _ => let v := eval vm_compute in (Zpos a - b) in change (Zpos a - b) with v in E
  end.

Section StrstrProofs.
Context (m : Mem) (hs ne : Z) (lh ln : list Z) (fuel : nat).
Context (Sh : string_in m hs lh) (Sn : string_in m ne ln).
Let H := Z.of_nat (length lh).
Let n := Z.of_nat (length ln).
(** The string does not end at the top of the address space. *)
Context (Htop : hs + H + 1 < 4294967296) (HfH : H + 1 < Z.of_nat fuel) (Hfn : n < Z.of_nat fuel).
Let x (t : Z) := loadb m (ne + t).
Let y (t : Z) := loadb m (hs + t).
#[local] Abbreviation none_before := (none_before x n y).
#[local] Abbreviation found := (found x n y H hs).

Lemma hs_range : 0 <= hs /\ 0 <= H /\ hs + H < 4294967296 /\ 0 <= ne /\ 0 <= n /\ ne + n < 4294967296.
Proof using All. destruct Sh as (_ & ? & ?), Sn as (_ & ? & ?). unfold H, n. lia. Qed.
Lemma x_char t : 0 <= t < n -> x t <> 0.
Proof using All. intros Ht. by apply (string_char m ne ln). Qed.
Lemma x_end : x n = 0.
Proof using All. apply (cstring_end m ne ln), Sn. Qed.
Lemma y_char t : 0 <= t < H -> y t <> 0.
Proof using All. intros Ht. by apply (string_char m hs lh). Qed.
Lemma y_end : y H = 0.
Proof using All. apply (cstring_end m hs lh), Sh. Qed.
Lemma y_rest h : 0 <= h <= H -> forall k, 0 <= k < 4294967296 -> strnlen m (hs + h) k = Z.min k (H - h).
Proof using All.
  intros Hh k Hk. rewrite (strnlen_spec m (hs + h) (drop (Z.to_nat h) lh) k (string_drop m hs lh h Sh Hh) Hk). rewrite length_drop. unfold H. lia.
Qed.

Lemma strstr_laws : 1 <= n -> @MacroLaws Strstr.strstr_macros m hs ne n H (fun h j => n <= h <= H /\ j <= h).
Proof using All.
  intros Hn1. pose proof hs_range as (R1 & R2 & R3 & R4 & R5 & R6). split.
  - done.
  - intros p s Hs Hp Hsp. destruct (memcmp_equal m ne (u32 (ne + p)) s Hs) as (r & E & Hr). exists r. split; [exact E|].
    rewrite Hr. unfold element. cbn. split; intros Ht t Hlt; specialize (Ht t Hlt); rewrite Ht;
      rewrite <- (loadb_u32 m (u32 (ne + p) + t)), u32_add_l, loadb_u32; f_equal; lia.
  - intros h j (Hh & Hjh) Hj. cbn [AVAILABLE Strstr.strstr_macros]. rewrite (u32_small (h - n)) by (unfold is_u32; lia).
    destruct (Z.leb_spec j (h - n)) as [Hle|Hgt].
    + exists true, h. split; [done|]. split; [split; [lia|done]|]. intros _ j' Hj'. lia.
    + rewrite (u32_small (hs + h)) by (unfold is_u32; lia). pose proof (lor_above n 2048 ltac:(lia) ltac:(lia)).
      pose proof (lor_below n 2048 32 ltac:(lia) ltac:(lia) ltac:(lia)). rewrite y_rest by lia.
      set (h' := h + Z.min (Z.lor n 2048) (H - h)). rewrite (u32_small h') by (unfold h', is_u32; lia). rewrite (u32_small (h' - n)) by (unfold h', is_u32; lia).
      exists (j <=? h' - n), h'. split; [done|]. rewrite Z.leb_le. split; [unfold h'; lia|]. intros Hle j' Hj'. unfold h' in *. lia.
Qed.

(** *** Needles of one to four characters *)

Lemma strstr_one : n = 1 -> exists r, strchr fuel m hs (loadb m ne) = Some r /\ found r.
Proof using All.
  intros En. destruct (strchr_spec fuel m hs lh (loadb m ne) Sh ltac:(lia)) as (r & E & _ & Hr). exists r. split; [exact E|].
  rewrite u8_small in Hr by apply loadb_range. fold H in Hr. pose proof (x_char 0 ltac:(lia)) as Hx0. unfold x in Hx0. rewrite Z.add_0_r in Hx0.
  assert (forall k, occurs x n y k <-> loadb m (hs + 1 * k) = loadb m ne) as Ho.
  { intros k. unfold occurs, x, y. rewrite En. split; [intros Ho; specialize (Ho 0 ltac:(lia)); rewrite !Z.add_0_r in Ho; rewrite Z.mul_1_l; congruence|].
    intros Ek t Ht. replace t with 0 by lia. rewrite !Z.add_0_r, <- Ek. by rewrite Z.mul_1_l. }
  destruct Hr as [(k & Hk & Hc & Hno & ->)|(Hno & ->)].
  - assert (k <> H) by (intros ->; rewrite Z.mul_1_l in Hc; pose proof y_end as He; unfold y in He; congruence).
    rewrite Z.mul_1_l. left. exists k. split; [lia|]. split; [lia|]. split; [by apply Ho|]. split; [|done]. intros j Hj Hoj. apply Ho in Hoj. by apply (Hno j Hj).
  - right. split; [|done]. intros j Hj Hjl Hoj. apply Ho in Hoj. apply (Hno j ltac:(lia) Hoj).
Qed.

(** The register after [q] characters. *)
Lemma register_spec (next : Z -> Z -> Z) (reg : Z -> Z) h1 w : n = w -> reg 0 = 0 -> (forall q, 0 <= q < H -> next (reg q) (y q) = reg (q + 1)) ->
  (forall q, 0 <= q <= H -> reg q = h1 <-> n <= q /\ occurs x n y (q - n)) ->
  exists r, ('(hs', h2) ← Strstr.register_loop fuel m next hs h1 0; Some (if h1 =? h2 then u32 (hs' - w) else 0)) = Some r /\ found r.
Proof using All.
  intros <- H0 Hnext Hreg. pose proof hs_range as (R1 & R2 & R3 & R4 & R5 & R6).
  assert (forall k q, 0 <= q <= H -> H - q < Z.of_nat k -> none_before (q - n) -> exists r,
    ('(hs', h2) ← Strstr.register_loop k m next (hs + q) h1 (reg q); Some (if h1 =? h2 then u32 (hs' - n) else 0)) = Some r /\ found r) as Hloop.
  { induction k as [|k IH]; intros q Hq Hk Hb; [lia|]. cbn [Strstr.register_loop].
    destruct (Z.eqb_spec h1 (reg q)) as [E|E]; cbn [negb andb mbind option_bind].
    - rewrite (proj2 (Z.eqb_eq h1 (reg q))) by done. symmetry in E. apply Hreg in E as [Hnq Ho]; [|done]. eexists. split; [done|]. left. exists (q - n).
      split; [lia|]. split; [lia|]. split; [done|]. split; [done|]. f_equal. lia.
    - change (loadb m (hs + q)) with (y q). assert (none_before (q - n + 1)) as Hb'.
      { destruct (Z.leb_spec n q); [|intros j Hj; lia]. apply none_skip; [done|]. intros d Hd Ho. apply E. symmetry. apply Hreg; [done|]. split; [done|].
        by replace (q - n + d) with (q - n) in Ho by lia. }
      destruct (Z.eqb_spec (y q) 0) as [Ey|Ey]; cbn [negb mbind option_bind].
      + rewrite (proj2 (Z.eqb_neq h1 (reg q))) by done. exists 0. split; [done|]. apply (none_found x n y H hs (q - n + 1)); [done|].
        assert (q = H); [|lia]. destruct (Z.eq_dec q H); [done|]. by destruct (y_char q ltac:(lia)).
      + assert (q <> H) by (intros ->; by destruct (Ey y_end)). rewrite u32_small by (unfold is_u32; lia). rewrite Hnext by lia. rewrite <- Z.add_assoc.
        apply IH; [lia|lia|]. by replace (q + 1 - n) with (q - n + 1) by lia. }
  pose proof (Hloop fuel 0) as Hl. rewrite Z.add_0_r, H0 in Hl. apply Hl; [lia|lia|intros j Hj; lia].
Qed.

(** The characters before position [q], none before the string's start. *)
Definition before (q k : Z) : Z := if q - k <? 0 then 0 else y (q - k).
Lemma before_range q k : is_u8 (before q k).
Proof using All. unfold before. destruct (_ <? 0); [unfold is_u8; lia|apply loadb_range]. Qed.
Lemma before_occurs q : 0 <= q <= H -> 1 <= n -> (forall t, 0 <= t < n -> before q (n - t) = x t) <-> n <= q /\ occurs x n y (q - n).
Proof using All.
  intros Hq Hn. split.
  - intros Ht. assert (n <= q) as Hnq.
    { destruct (Z.leb_spec n q); [done|]. pose proof (Ht 0 ltac:(lia)) as E. unfold before in E. rewrite (proj2 (Z.ltb_lt _ 0)) in E by lia.
      by destruct (x_char 0 ltac:(lia)). }
    split; [done|]. intros t Htt. rewrite <- (Ht t Htt). unfold before. rewrite (proj2 (Z.ltb_ge _ 0)) by lia. f_equal. lia.
  - intros [Hnq Ho] t Ht. rewrite (Ho t Ht). unfold before. rewrite (proj2 (Z.ltb_ge _ 0)) by lia. f_equal. lia.
Qed.
Lemma before_next q k k' : k = k' + 1 -> before (q + 1) k = before q k'.
Proof using All. intros ->. unfold before. by replace (q + 1 - (k' + 1)) with (q - k') by lia. Qed.
Lemma before_last q : 0 <= q -> before (q + 1) 1 = y q.
Proof using All. intros. unfold before. replace (q + 1 - 1) with q by lia. by rewrite (proj2 (Z.ltb_ge q 0)) by lia. Qed.

Lemma strstr2_spec : n = 2 -> exists r, Strstr.strstr2 fuel m hs ne = Some r /\ found r.
Proof using All.
  intros En. unfold Strstr.strstr2. set (reg := fun q => before q 2 * 65536 + before q 1).
  pose proof (loadb_range m ne) as B0. pose proof (loadb_range m (ne + 1)) as B1. unfold is_u8 in *.
  rewrite (lor_low (loadb m ne) _ 16) by lia. change (2 ^ 16) with 65536.
  apply (register_spec _ reg _ 2 En); [done| |].
  - intros q Hq. unfold reg. pose proof (before_range q 1). pose proof (before_range q 2). pose proof (loadb_range m (hs + q) : is_u8 (y q)). unfold is_u8 in *.
    rewrite (lor_low _ _ 16) by lia. change (2 ^ 16) with 65536. rewrite (before_next q 2 1), before_last by lia. zlia.
  - intros q Hq. rewrite <- before_occurs by lia. unfold reg. pose proof (before_range q 1). pose proof (before_range q 2). unfold is_u8 in *. rewrite En. split.
    + intros E t Ht. unfold x. assert (t = 0 \/ t = 1) as [->| ->] by lia; rewrite ?Z.add_0_r; eval_offsets; lia.
    + intros Ht. pose proof (Ht 0 ltac:(lia)) as E0. pose proof (Ht 1 ltac:(lia)) as E1. unfold x in E0, E1. rewrite Z.add_0_r in E0. eval_offsets. lia.
Qed.
Lemma strstr3_spec : n = 3 -> exists r, Strstr.strstr3 fuel m hs ne = Some r /\ found r.
Proof using All.
  intros En. unfold Strstr.strstr3. set (reg := fun q => before q 3 * 16777216 + before q 2 * 65536 + before q 1 * 256).
  pose proof (loadb_range m ne) as B0. pose proof (loadb_range m (ne + 1)) as B1. pose proof (loadb_range m (ne + 2)) as B2. unfold is_u8 in *.
  rewrite (lor_low (loadb m ne) _ 24) by (rewrite ?Z.shiftl_mul_pow2 by lia; change (2 ^ 24) with 16777216; change (2 ^ 16) with 65536; lia).
  rewrite (Z.shiftl_mul_pow2 (loadb m (ne + 1))) by lia. change (2 ^ 24) with 16777216. change (2 ^ 16) with 65536.
  replace (loadb m ne * 16777216 + loadb m (ne + 1) * 65536) with (Z.shiftl (loadb m ne * 256 + loadb m (ne + 1)) 16) by (rewrite Z.shiftl_mul_pow2 by lia; change (2 ^ 16) with 65536; lia).
  rewrite (lor_low _ _ 16) by (rewrite ?Z.shiftl_mul_pow2 by lia; change (2 ^ 8) with 256; change (2 ^ 16) with 65536; lia).
  rewrite (Z.shiftl_mul_pow2 (loadb m (ne + 2))) by lia. change (2 ^ 8) with 256. change (2 ^ 16) with 65536.
  apply (register_spec _ reg _ 3 En); [done| |].
  - intros q Hq. unfold reg. pose proof (before_range q 1). pose proof (before_range q 2). pose proof (before_range q 3). pose proof (loadb_range m (hs + q) : is_u8 (y q)). unfold is_u8 in *.
    replace (before q 3 * 16777216 + before q 2 * 65536 + before q 1 * 256) with (Z.shiftl (before q 3 * 65536 + before q 2 * 256 + before q 1) 8)
      by (rewrite Z.shiftl_mul_pow2 by lia; change (2 ^ 8) with 256; lia).
    rewrite (lor_low _ _ 8) by lia. rewrite Z.shiftl_mul_pow2 by lia. change (2 ^ 8) with 256. rewrite (before_next q 3 2), (before_next q 2 1), before_last by lia. zlia.
  - intros q Hq. rewrite <- before_occurs by lia. unfold reg. pose proof (before_range q 1). pose proof (before_range q 2). pose proof (before_range q 3). unfold is_u8 in *. rewrite En. split.
    + intros E t Ht. unfold x. assert (t = 0 \/ t = 1 \/ t = 2) as [->|[->| ->]] by lia; rewrite ?Z.add_0_r; eval_offsets; lia.
    + intros Ht. pose proof (Ht 0 ltac:(lia)) as E0. pose proof (Ht 1 ltac:(lia)) as E1. pose proof (Ht 2 ltac:(lia)) as E2.
      unfold x in E0, E1, E2. rewrite Z.add_0_r in E0. eval_offsets. lia.
Qed.
Lemma strstr4_spec : n = 4 -> exists r, Strstr.strstr4 fuel m hs ne = Some r /\ found r.
Proof using All.
  intros En. unfold Strstr.strstr4. set (reg := fun q => before q 4 * 16777216 + before q 3 * 65536 + before q 2 * 256 + before q 1).
  pose proof (loadb_range m ne) as B0. pose proof (loadb_range m (ne + 1)) as B1. pose proof (loadb_range m (ne + 2)) as B2. pose proof (loadb_range m (ne + 3)) as B3. unfold is_u8 in *.
  rewrite (lor_low (loadb m ne) _ 24) by (rewrite ?Z.shiftl_mul_pow2 by lia; change (2 ^ 24) with 16777216; change (2 ^ 16) with 65536; lia).
  rewrite (Z.shiftl_mul_pow2 (loadb m (ne + 1))) by lia. change (2 ^ 24) with 16777216. change (2 ^ 16) with 65536.
  replace (loadb m ne * 16777216 + loadb m (ne + 1) * 65536) with (Z.shiftl (loadb m ne * 256 + loadb m (ne + 1)) 16) by (rewrite Z.shiftl_mul_pow2 by lia; change (2 ^ 16) with 65536; lia).
  rewrite (lor_low _ _ 16) by (rewrite ?Z.shiftl_mul_pow2 by lia; change (2 ^ 8) with 256; change (2 ^ 16) with 65536; lia).
  rewrite (Z.shiftl_mul_pow2 (loadb m (ne + 2))) by lia. change (2 ^ 8) with 256. change (2 ^ 16) with 65536.
  replace ((loadb m ne * 256 + loadb m (ne + 1)) * 65536 + loadb m (ne + 2) * 256) with (Z.shiftl (loadb m ne * 65536 + loadb m (ne + 1) * 256 + loadb m (ne + 2)) 8)
    by (rewrite Z.shiftl_mul_pow2 by lia; change (2 ^ 8) with 256; lia).
  rewrite (lor_low _ _ 8) by lia. change (2 ^ 8) with 256.
  apply (register_spec _ reg _ 4 En); [done| |].
  - intros q Hq. unfold reg. pose proof (before_range q 1). pose proof (before_range q 2). pose proof (before_range q 3). pose proof (before_range q 4). pose proof (loadb_range m (hs + q) : is_u8 (y q)). unfold is_u8 in *.
    rewrite (lor_low _ _ 8) by lia. change (2 ^ 8) with 256. rewrite (before_next q 4 3), (before_next q 3 2), (before_next q 2 1), before_last by lia. zlia.
  - intros q Hq. rewrite <- before_occurs by lia. unfold reg. pose proof (before_range q 1). pose proof (before_range q 2). pose proof (before_range q 3). pose proof (before_range q 4). unfold is_u8 in *. rewrite En. split.
    + intros E t Ht. unfold x. assert (t = 0 \/ t = 1 \/ t = 2 \/ t = 3) as [->|[->|[->| ->]]] by lia; rewrite ?Z.add_0_r; eval_offsets; lia.
    + intros Ht. pose proof (Ht 0 ltac:(lia)) as E0. pose proof (Ht 1 ltac:(lia)) as E1. pose proof (Ht 2 ltac:(lia)) as E2. pose proof (Ht 3 ltac:(lia)) as E3.
      unfold x in E0, E1, E2, E3. rewrite Z.add_0_r in E0. eval_offsets. lia.
Qed.

(** *** The table of skips *)

(** The skip of a character leads past no place of it in the needle. *)
Definition skips_upto (T : list Z) (i : Z) : Prop := length T = 64%nat /\ forall h, 0 <= h < 64 ->
  1 <= T !!! Z.to_nat h <= n + 1 /\ forall i', 0 <= i' < i -> n - T !!! Z.to_nat h < i' -> x i' mod 64 <> h.

Lemma quick_fill_spec k : forall i T, n < 255 -> 0 <= i -> i + Z.of_nat k = n -> skips_upto T i -> skips_upto (Strstr.fill_skips k m ne n i T) n.
Proof using All.
  induction k as [|k IH]; intros i T Hn Hi Hk [Hlen HT]; cbn [Strstr.fill_skips]; [assert (i = n) as -> by lia; by split|].
  apply IH; [done|lia|lia|]. split; [by rewrite length_insert|]. intros h Hh. change (loadb m (ne + i)) with (x i).
  pose proof (Z.mod_pos_bound (x i) 64 ltac:(lia)) as Hx. destruct (Z.eq_dec (x i mod 64) h) as [<-|Hne].
  - rewrite list_lookup_total_insert_eq by (rewrite Hlen; lia). rewrite u8_small by (unfold is_u8; lia). split; lia.
  - rewrite list_lookup_total_insert_ne by lia. destruct (HT h Hh) as [H1 H2]. split; [done|]. intros i' Hi' Hlt.
    destruct (Z.eq_dec i' i) as [->|]; [done|]. apply H2; lia.
Qed.
Lemma skips_start : n < 255 -> skips_upto (replicate 64 (u8 (n + 1))) 0.
Proof using All.
  intros Hn. pose proof hs_range. split; [apply length_replicate|]. intros h Hh.
  assert (replicate 64 (u8 (n + 1)) !!! Z.to_nat h = n + 1) as ->.
  { rewrite u8_small by (unfold is_u8; lia). apply list_lookup_total_correct, lookup_replicate. split; [done|lia]. }
  split; [lia|intros i Hi; lia].
Qed.

(** Moving the window at [s] by the skip of the character behind it. *)
Lemma quick_skip T s : skips_upto T n -> let tmp := Strstr.skip_of m T (hs + s + n) in
  1 <= tmp <= n + 1 /\ forall d, 1 <= d < tmp -> ~ occurs x n y (s + d).
Proof using All.
  intros [Hlen HT]. cbv zeta. unfold Strstr.skip_of. replace (hs + s + n) with (hs + (s + n)) by lia. change (loadb m (hs + (s + n))) with (y (s + n)).
  destruct (HT (y (s + n) mod 64) (Z.mod_pos_bound _ 64 ltac:(lia))) as [H1 H2]. split; [done|]. intros d Hd Ho.
  apply (H2 (n - d)); [lia|lia|]. rewrite Ho by lia. do 2 f_equal. lia.
Qed.

Lemma quick_inner_spec T k : skips_upto T n -> 1 <= n -> forall L s, n <= L <= H -> 0 <= s <= L + 1 -> H + 1 - s < Z.of_nat k -> none_before s ->
  exists r, Strstr.quick_inner k m T (hs + s) (hs + (L - n)) ne n = Some r /\
    match r with inl r => found r | inr p => exists s', p = hs + s' /\ L - n < s' <= L + 1 /\ none_before s' end.
Proof using All.
  intros HT Hn1. pose proof hs_range as (R1 & R2 & R3 & R4 & R5 & R6). induction k as [|k IH]; intros L s HL Hs Hk Hb; [lia|]. cbn [Strstr.quick_inner].
  destruct (Z.leb_spec (hs + s) (hs + (L - n))); [|exists (inr (hs + s)); split; [done|]; exists s; split; [done|]; split; [lia|done]].
  destruct (quick_skip T s HT) as [Ht Hskip]. set (tmp := Strstr.skip_of m T (hs + s + n)) in *. cbv zeta.
  destruct (memcmp_equal m (hs + s) ne n ltac:(lia)) as (r & -> & Hr). cbn [mbind option_bind].
  assert (r = 0 <-> occurs x n y s) as Hocc.
  { rewrite Hr. unfold occurs, x, y. split; intros Ho t Hti; [rewrite Z.add_assoc|rewrite <- Z.add_assoc]; symmetry; by apply Ho. }
  destruct (Z.eqb_spec r 0) as [Ez|Hnz].
  - exists (inl (hs + s)). split; [done|]. left. exists s. split; [lia|]. split; [lia|]. split; [by apply Hocc|]. split; [done|]. rewrite u32_small by (unfold is_u32; lia). done.
  - rewrite u32_small by (unfold is_u32; lia). rewrite <- Z.add_assoc. apply IH; [done|lia|lia|]. apply none_skip; [done|]. intros d Hd.
    destruct (Z.eq_dec d 0) as [->|]; [rewrite Z.add_0_r; intros Ho; by apply Hnz, Hocc|apply Hskip; lia].
Qed.

Lemma quick_outer_spec T k : skips_upto T n -> 1 <= n < 255 -> forall L s, n <= L <= H -> 0 <= s <= L - n -> H + 1 - s < Z.of_nat k -> none_before s ->
  exists r, Strstr.quick_outer k m T (hs + s) (hs + (L - n)) ne n = Some r /\ found r.
Proof using All.
  intros HT Hn. pose proof hs_range as (R1 & R2 & R3 & R4 & R5 & R6). induction k as [|k IH]; intros L s HL Hs Hk Hb; [lia|]. cbn [Strstr.quick_outer].
  assert (Strstr.skip_of m T (u32 (hs + s - 1) + n) = Strstr.skip_of m T (hs + (s - 1) + n)) as ->
    by (unfold Strstr.skip_of; rewrite <- (loadb_u32 m (u32 _ + n)), u32_add_l, loadb_u32; by replace (hs + s - 1 + n) with (hs + (s - 1) + n) by lia).
  destruct (quick_skip T (s - 1) HT) as [Ht Hskip]. set (tmp := Strstr.skip_of m T (hs + (s - 1) + n)) in *. cbv zeta.
  rewrite u32_add_l, (u32_small (hs + s - 1 + tmp)) by (unfold is_u32; lia). replace (hs + s - 1 + tmp) with (hs + (s + (tmp - 1))) by lia.
  destruct (quick_inner_spec T (S k) HT ltac:(lia) L (s + (tmp - 1))) as (r & -> & Hr); [lia|lia|lia| |].
  { apply none_skip; [done|]. intros d Hd. replace (s + d) with (s - 1 + (d + 1)) by lia. apply Hskip. lia. }
  cbn [mbind option_bind]. destruct r as [r|p]; [by exists r|]. destruct Hr as (s' & -> & Hs' & Hb').
  replace (hs + (L - n) + n) with (hs + L) by lia. change (loadb m (hs + L)) with (y L). destruct (Z.eqb_spec (y L) 0) as [Ey|Ey].
  - exists 0. split; [done|]. apply (none_found x n y H hs s'); [done|]. assert (L = H); [|lia]. destruct (Z.eq_dec L H); [done|]. by destruct (y_char L ltac:(lia)).
  - rewrite (u32_small (hs + L)), y_rest by (unfold is_u32; lia). assert (L <> H) by (intros ->; by destruct (Ey y_end)).
    set (L' := L + Z.min 2048 (H - L)). rewrite u32_small by (unfold L', is_u32; lia). replace (hs + (L - n) + Z.min 2048 (H - L)) with (hs + (L' - n)) by (unfold L'; lia).
    destruct (Z.leb_spec (hs + s') (hs + (L' - n))); [apply IH; [unfold L'; lia|lia|lia|done]|].
    exists 0. split; [done|]. apply (none_found x n y H hs s'); [done|]. unfold L' in *. lia.
Qed.

Lemma strstr_spec : exists r, Strstr.strstr fuel m hs ne = Some r /\ found r.
Proof using All.
  pose proof hs_range as (R1 & R2 & R3 & R4 & R5 & R6).
  assert (forall k, 0 <= k <= n -> (loadb m (ne + k) =? 0) = (k =? n)) as Hz.
  { intros k Hk. change (loadb m (ne + k)) with (x k). destruct (Z.eqb_spec k n) as [->|]; [by rewrite x_end|]. apply Z.eqb_neq, x_char. lia. }
  pose proof (Hz 0 ltac:(lia)) as Hz0. rewrite Z.add_0_r in Hz0. unfold Strstr.strstr. rewrite Hz0.
  destruct (Z.eqb_spec 0 n) as [E0|N0].
  { exists hs. split; [done|]. left. exists 0. rewrite Z.add_0_r, u32_small by (unfold is_u32; lia). split; [lia|]. split; [lia|]. split; [intros t Ht; lia|]. split; [apply none_before_0|done]. }
  rewrite (Hz 1) by lia. destruct (Z.eqb_spec 1 n); [by apply strstr_one|]. rewrite (Hz 2) by lia. destruct (Z.eqb_spec 2 n); [by apply strstr2_spec|].
  rewrite (Hz 3) by lia. destruct (Z.eqb_spec 3 n); [by apply strstr3_spec|]. rewrite (Hz 4) by lia. destruct (Z.eqb_spec 4 n); [by apply strstr4_spec|].
  destruct (strlen_measures fuel m ne ln Sn Hfn) as [-> _]. cbn [mbind option_bind]. fold n.
  pose proof (lor_above n 512 ltac:(lia) ltac:(lia)). pose proof (lor_below n 512 32 ltac:(lia) ltac:(lia) ltac:(lia)).
  rewrite (strnlen_spec m hs lh _ Sh) by lia. fold H. set (L := Z.min (Z.lor n 512) H).
  destruct (Z.ltb_spec L n) as [Hlt|Hge]; [exists 0; split; [done|]; right; split; [unfold L in *; lia|done]|].
  destruct (Z.ltb_spec n 255).
  - rewrite u32_small by (unfold L, is_u32 in *; lia). replace (hs + L - n) with (hs + (L - n)) by lia. cbv zeta.
    pose proof (fun T Ht => quick_outer_spec T fuel Ht ltac:(lia) L 0) as Hq. rewrite Z.add_0_r in Hq.
    apply Hq; [|unfold L; lia|lia|lia|apply none_before_0]. apply quick_fill_spec; [lia|lia|unfold n; lia|by apply skips_start].
  - apply (two_way_long_spec (M := Strstr.strstr_macros) m hs ne n H (fun h j => n <= h <= H /\ j <= h) (L := strstr_laws ltac:(lia))); [lia|lia|lia|unfold L; lia].
Qed.

(** *** The short version *)

Lemma forwards_spec s k : forall i, 1 <= i <= n -> n - i < Z.of_nat k -> exists i', Strstr.forwards k m (hs + s) ne i = Some i' /\ i <= i' <= n /\
  (i' = n <-> forall t, i <= t < n -> x t = y (s + t)).
Proof using All.
  pose proof hs_range as (R1 & R2 & R3 & R4 & R5 & R6). induction k as [|k IH]; intros i Hi Hk; [lia|]. cbn [Strstr.forwards].
  change (loadb m (ne + i)) with (x i). destruct (Z.eqb_spec (x i) 0) as [E|E].
  - assert (i = n) as -> by (destruct (Z.eq_dec i n); [done|]; by destruct (x_char i ltac:(lia))). exists n. split; [done|]. split; [lia|]. split; [lia|done].
  - assert (i <> n) by (intros ->; by destruct (E x_end)). rewrite <- Z.add_assoc. change (loadb m (hs + (s + i))) with (y (s + i)).
    destruct (Z.eqb_spec (y (s + i)) (x i)) as [Ei|Ei]; cbn [negb].
    + rewrite u32_small by (unfold is_u32; lia). destruct (IH (i + 1) ltac:(lia) ltac:(lia)) as (i' & -> & Hi' & Hiff). exists i'. split; [done|]. split; [lia|].
      rewrite Hiff. split; intros Ht t Hti; [|apply Ht; lia]. destruct (Z.eq_dec t i) as [->|]; [done|apply Ht; lia].
    + exists i. split; [done|]. split; [lia|]. split; [lia|]. intros Ht. exfalso. apply Ei. symmetry. apply Ht. lia.
Qed.
Lemma strstr_small_loop_spec k : 1 <= n -> forall s, 0 <= s <= H -> H - s + n < Z.of_nat k -> none_before s ->
  exists r, Strstr.strstr_small_loop k m (hs + s) ne = Some r /\ found r.
Proof using All.
  pose proof hs_range as (R1 & R2 & R3 & R4 & R5 & R6). intros Hn1. induction k as [|k IH]; intros s Hs Hk Hb; [lia|]. cbn [Strstr.strstr_small_loop].
  change (loadb m (hs + s)) with (y s). destruct (Z.eqb_spec (y s) 0) as [Ey|Ey].
  { exists 0. split; [done|]. apply (none_found x n y H hs s); [done|]. assert (s = H); [|lia]. destruct (Z.eq_dec s H); [done|]. by destruct (y_char s ltac:(lia)). }
  assert (s <> H) by (intros ->; by destruct (Ey y_end)).
  assert (~ occurs x n y s -> exists r, Strstr.strstr_small_loop k m (u32 (hs + s + 1)) ne = Some r /\ found r) as Hnext.
  { intros Hno. rewrite u32_small by (unfold is_u32; lia). rewrite <- Z.add_assoc. apply IH; [lia|lia|]. apply none_skip; [done|].
    intros d Hd. by replace (s + d) with s by lia. }
  destruct (Z.eqb_spec (y s) (loadb m ne)) as [E|E]; cbn [negb].
  - destruct (forwards_spec s (S k) 1 ltac:(lia) ltac:(lia)) as (i & -> & Hi & Hiff). cbn [mbind option_bind]. change (loadb m (ne + i)) with (x i).
    destruct (Z.eqb_spec (x i) 0) as [Ex|Ex].
    + assert (i = n) as -> by (destruct (Z.eq_dec i n); [done|]; by destruct (x_char i ltac:(lia))).
      assert (occurs x n y s) as Ho.
      { intros t Ht. destruct (Z.eq_dec t 0) as [->|]; [unfold x; by rewrite !Z.add_0_r|]. apply Hiff; [done|lia]. }
      exists (hs + s). split; [done|]. left. exists s. split; [lia|]. split; [|split; [done|split; [done|symmetry; apply u32_small; unfold is_u32; lia]]].
      destruct (Z.leb_spec (s + n) H); [done|]. exfalso. specialize (Ho (H - s) ltac:(lia)). replace (s + (H - s)) with H in Ho by lia.
      rewrite y_end in Ho. by apply (x_char (H - s)); [lia|].
    + apply Hnext. intros Ho. apply Ex. replace i with n; [apply x_end|]. symmetry. apply Hiff. intros t Ht. apply Ho. lia.
  - apply Hnext. intros Ho. specialize (Ho 0 ltac:(lia)). unfold x in Ho. rewrite !Z.add_0_r in Ho. congruence.
Qed.
Lemma strstr_small_spec : H + n < Z.of_nat fuel -> exists r, Strstr.strstr_small fuel m hs ne = Some r /\ found r.
Proof using All.
  pose proof hs_range as (R1 & R2 & R3 & R4 & R5 & R6). intros Hf. unfold Strstr.strstr_small. replace (loadb m ne) with (x 0) by (unfold x; by rewrite Z.add_0_r).
  destruct (Z.eqb_spec (x 0) 0) as [E|E].
  - assert (n = 0) as E0 by (destruct (Z.eq_dec n 0); [done|]; by destruct (x_char 0 ltac:(lia))). exists hs. split; [done|]. left. exists 0.
    rewrite Z.add_0_r, u32_small by (unfold is_u32; lia). split; [lia|]. split; [lia|]. split; [intros t Ht; lia|]. split; [apply none_before_0|done].
  - assert (n <> 0) by (intros E0; apply E; pose proof x_end as Ez; by rewrite E0 in Ez). pose proof (strstr_small_loop_spec fuel ltac:(lia) 0) as Hl. rewrite Z.add_0_r in Hl.
    apply Hl; [lia|lia|apply none_before_0].
Qed.
End StrstrProofs.

(** ** strcasestr *)

Section StrcasestrProofs.
Context (m : Mem) (hs ne : Z) (lh ln : list Z) (fuel : nat).
Context (Sh : string_in m hs lh) (Sn : string_in m ne ln).
Let H := Z.of_nat (length lh).
Let n := Z.of_nat (length ln).
Context (Htop : hs + H + 1 < 4294967296) (HfH : H + 1 < Z.of_nat fuel) (Hfn : n + 1 < Z.of_nat fuel).
Let x (t : Z) := lower (loadb m (ne + t)).
Let y (t : Z) := lower (loadb m (hs + t)).
#[local] Abbreviation none_before := (none_before x n y).
#[local] Abbreviation found := (found x n y H hs).

Lemma case_range : 0 <= hs /\ 0 <= H /\ hs + H < 4294967296 /\ 0 <= ne /\ 0 <= n /\ ne + n < 4294967296.
Proof using All. destruct Sh as (_ & ? & ?), Sn as (_ & ? & ?). unfold H, n. lia. Qed.
Lemma case_nul p : lower (loadb m p) = 0 <-> loadb m p = 0.
Proof using All. pose proof (lower_zero (loadb m p) (loadb_range m p)) as E. rewrite <- !Z.eqb_eq, E. done. Qed.
Lemma case_zero t : 0 <= t <= n -> (loadb m (ne + t) =? 0) = (t =? n).
Proof using All.
  intros Ht. destruct (Z.eqb_spec t n) as [->|]; [apply Z.eqb_eq, (cstring_end m ne ln), Sn|]. apply Z.eqb_neq, (string_char m ne ln); [done|unfold n in *; lia].
Qed.
Lemma case_zero_hs t : 0 <= t <= H -> (loadb m (hs + t) =? 0) = (t =? H).
Proof using All.
  intros Ht. destruct (Z.eqb_spec t H) as [->|]; [apply Z.eqb_eq, (cstring_end m hs lh), Sh|]. apply Z.eqb_neq, (string_char m hs lh); [done|unfold H in *; lia].
Qed.
(** An occurrence lies inside the haystack. *)
Lemma case_inside p : 0 <= p <= H -> occurs x n y p -> p + n <= H.
Proof using All.
  intros Hp Ho. destruct (Z.leb_spec (p + n) H); [done|]. exfalso. specialize (Ho (H - p) ltac:(lia)). replace (p + (H - p)) with H in Ho by lia.
  assert (y H = 0) as Ey by (apply case_nul, (cstring_end m hs lh), Sh). rewrite Ey in Ho. unfold x in Ho. apply case_nul in Ho. pose proof (case_zero (H - p) ltac:(lia)) as E.
  rewrite (proj2 (Z.eqb_eq _ 0)) in E by done. symmetry in E. apply Z.eqb_eq in E. lia.
Qed.
(** The comparison of strncasecmp with a part of the needle. *)
Lemma case_compare s k c : 0 <= k -> 0 <= c -> k + c <= n -> strncasecmp m s (u32 (ne + k)) c = 0 <-> forall t, 0 <= t < c -> lower (loadb m (s + t)) = x (k + t).
Proof using All.
  intros Hk Hc Hkc. pose proof case_range as (R1 & R2 & R3 & R4 & R5 & R6). rewrite u32_small by (unfold is_u32; lia). unfold strncasecmp.
  rewrite strncasecmp_zero; rewrite Z2Nat.id by lia; [split; intros E t Ht; specialize (E t Ht); unfold x in *; rewrite Z.add_assoc in *; done|].
  intros t Ht. rewrite <- Z.add_assoc. apply (string_char m ne ln); [done|unfold n in *; lia].
Qed.

Lemma strcasestr_laws : 1 <= n -> 1 <= H -> @MacroLaws Strcasestr.strcasestr_macros m (u32 (hs + 1)) ne n (H - 1) (fun h j => j <= h <= j + n /\ h <= H - 1).
Proof using All.
  intros Hn1 HH1. pose proof case_range as (R1 & R2 & R3 & R4 & R5 & R6). split.
  - intros c Hc. apply lower_signed in Hc as [_ Hc]. exact Hc.
  - intros p s Hs Hp Hsp. exists (strncasecmp m ne (u32 (ne + p)) s). split; [done|]. rewrite case_compare by lia.
    unfold element, x. cbn. split; intros E t Ht; specialize (E t Ht); rewrite E; do 2 f_equal; lia.
  - intros h j (Hh & HhH) Hj. cbn [AVAILABLE Strcasestr.strcasestr_macros]. rewrite (u32_small (hs + 1)) by (unfold is_u32; lia).
    rewrite (u32_small (hs + 1 + h)), (u32_small (j + n - h)) by (unfold is_u32; lia).
    destruct (memchr_spec m (hs + 1 + h) 0 (j + n - h)) as (r & -> & Hr); [unfold is_u32; lia|lia|]. cbn [mbind option_bind]. change (u8 0) with 0 in Hr.
    assert (forall k, 0 <= k <= H - 1 - h -> loadb m (hs + 1 + h + 1 * k) = 0 <-> h + 1 + k = H) as Hnul.
    { intros k Hk. replace (hs + 1 + h + 1 * k) with (hs + (h + 1 + k)) by lia. rewrite <- !Z.eqb_eq, case_zero_hs by lia. done. }
    destruct (Z.leb_spec (j + n) (H - 1)) as [Hle|Hgt].
    + destruct Hr as [(k & Hk & Ek & _)|(_ & ->)]; [apply Hnul in Ek; lia|]. cbn [Z.eqb]. rewrite (u32_small (j + n)) by (unfold is_u32; lia).
      rewrite (proj2 (Z.eqb_neq (j + n) 0)) by lia. exists true, (j + n). split; [done|]. split; [lia|]. intros _ j' Hj'. lia.
    + destruct Hr as [(k & Hk & Ek & Hno & ->)|(Hno & ->)]; [|exfalso; apply (Hno (H - 1 - h)); [lia|apply Hnul; lia]].
      assert (k <= H - 1 - h) as Hkle by (destruct (Z.leb_spec k (H - 1 - h)); [done|]; exfalso; apply (Hno (H - 1 - h)); [lia|apply Hnul; lia]).
      rewrite u32_small by (unfold is_u32; lia). rewrite (proj2 (Z.eqb_neq _ 0)) by lia. exists false, h. split; [done|]. split; [|done]. split; [done|lia].
Qed.

(** The loop that compares the beginning: how far it reads, and whether all was equal. *)
Lemma prefix_loop_spec k : forall q ok, 0 <= q <= Z.min H n -> n - q < Z.of_nat k -> (ok = true <-> forall t, 0 <= t < q -> x t = y t) ->
  exists ok', Strcasestr.prefix_loop k m (hs + q) (ne + q) ok = Some (hs + Z.min H n, ne + Z.min H n, ok') /\
    (ok' = true <-> forall t, 0 <= t < Z.min H n -> x t = y t).
Proof using All.
  pose proof case_range as (R1 & R2 & R3 & R4 & R5 & R6). induction k as [|k IH]; intros q ok Hq Hk Hok; [lia|]. cbn [Strcasestr.prefix_loop].
  rewrite case_zero, case_zero_hs by lia. destruct (Z.eqb_spec q H) as [->|]; cbn [negb andb]; [exists ok; by rewrite Z.min_l in * by lia|].
  destruct (Z.eqb_spec q n) as [Eq|]; cbn [negb]; [exists ok; replace (Z.min H n) with q by lia; done|].
  rewrite !u32_small, <- !Z.add_assoc by (unfold is_u32; lia). apply IH; [lia|lia|]. rewrite andb_true_iff, Hok.
  change (Strcasestr.lower_at m (hs + q)) with (y q). change (Strcasestr.lower_at m (ne + q)) with (x q). rewrite Z.eqb_eq. split.
  - intros [Hall Ey] t Ht. destruct (Z.eq_dec t q) as [->|]; [done|apply Hall; lia].
  - intros Hall. split; [intros t Ht; apply Hall; lia|symmetry; apply Hall; lia].
Qed.

Lemma strcasestr_spec : exists r, Strcasestr.strcasestr fuel m hs ne = Some r /\ found r.
Proof using All.
  pose proof case_range as (R1 & R2 & R3 & R4 & R5 & R6). unfold Strcasestr.strcasestr.
  destruct (prefix_loop_spec fuel 0 true ltac:(lia) ltac:(lia)) as (ok & E & Hok); [split; [intros _ t Ht; lia|done]|].
  rewrite !Z.add_0_r in E. rewrite E. cbn [mbind option_bind]. rewrite case_zero by lia.
  destruct (Z.eqb_spec (Z.min H n) n) as [Em|Em]; cbn [negb]; [|exists 0; split; [done|]; right; split; [lia|done]].
  rewrite Em in *. destruct ok.
  - exists hs. split; [done|]. left. exists 0. rewrite Z.add_0_r, u32_small by (unfold is_u32; lia). split; [lia|]. split; [lia|].
    split; [intros t Ht; rewrite Z.add_0_l; by apply Hok|]. split; [apply none_before_0|done].
  - assert (~ occurs x n y 0) as Hno by (intros Ho; assert (false = true); [apply Hok; intros t Ht; rewrite (Ho t Ht); done|done]).
    assert (1 <= n) as Hn1 by (destruct (Z.leb_spec 1 n); [done|]; exfalso; apply Hno; intros t Ht; lia).
    replace (ne + n - ne) with n by lia. rewrite (u32_small n), (u32_small (n - 1)) by (unfold is_u32; lia).
    assert (exists r, (if n <? LONG_NEEDLE_THRESHOLD then two_way_short_needle (M := Strcasestr.strcasestr_macros) m fuel (u32 (hs + 1)) (n - 1) ne n
      else two_way_long_needle (M := Strcasestr.strcasestr_macros) m fuel (u32 (hs + 1)) (n - 1) ne n) = Some r /\
      Factorization.found (element (M := Strcasestr.strcasestr_macros) m ne) n (element (M := Strcasestr.strcasestr_macros) m (u32 (hs + 1))) (H - 1) (u32 (hs + 1)) r) as (r & -> & Hr).
    { pose proof (strcasestr_laws Hn1 ltac:(lia)) as L. destruct (n <? LONG_NEEDLE_THRESHOLD);
        [apply (two_way_short_spec (M := Strcasestr.strcasestr_macros) m (u32 (hs + 1)) ne n (H - 1) _ (L := L))|
         apply (two_way_long_spec (M := Strcasestr.strcasestr_macros) m (u32 (hs + 1)) ne n (H - 1) _ (L := L))]; lia. }
    exists r. split; [done|]. rewrite (u32_small (hs + 1)) in Hr by (unfold is_u32; lia).
    assert (forall j, occurs (element (M := Strcasestr.strcasestr_macros) m ne) n (element (M := Strcasestr.strcasestr_macros) m (hs + 1)) j <-> occurs x n y (1 + j)) as Hocc.
    { intros j. unfold occurs, element, x, y. cbn. split; intros Ho t Ht; specialize (Ho t Ht); rewrite Ho; do 2 f_equal; lia. }
    destruct Hr as [(j & Hj & Hle & Ho & Hb & ->)|(Hnone & ->)].
    + left. exists (1 + j). split; [lia|]. split; [lia|]. split; [by apply Hocc|]. split; [|f_equal; lia]. intros j' Hj' Ho'.
      destruct (Z.eq_dec j' 0) as [->|]; [done|]. apply (Hb (j' - 1)); [lia|]. apply Hocc. by replace (1 + (j' - 1)) with j' by lia.
    + right. split; [|done]. intros j' Hj' Hle' Ho'. destruct (Z.eq_dec j' 0) as [->|]; [done|].
      apply (Hnone (j' - 1)); [lia|lia|]. apply Hocc. by replace (1 + (j' - 1)) with j' by lia.
Qed.

(** *** The short version *)

Lemma find_first_spec k : forall q, 0 <= q <= H -> H - q < Z.of_nat k ->
  (Strcasestr.find_first k m (hs + q) (x 0) = Some None /\ forall t, q <= t < H -> y t <> x 0) \/
  exists p, q <= p < H /\ Strcasestr.find_first k m (hs + q) (x 0) = Some (Some (hs + p + 1)) /\ y p = x 0 /\ forall t, q <= t < p -> y t <> x 0.
Proof using All.
  pose proof case_range as (R1 & R2 & R3 & R4 & R5 & R6). induction k as [|k IH]; intros q Hq Hk; [lia|]. cbn [Strcasestr.find_first].
  rewrite case_zero_hs by lia. destruct (Z.eqb_spec q H) as [->|]; [left; split; [done|lia]|]. change (Strcasestr.lower_at m (hs + q)) with (y q).
  rewrite u32_small by (unfold is_u32; lia). destruct (Z.eqb_spec (y q) (x 0)) as [E|E]; cbn [negb].
  - right. exists q. split; [lia|]. split; [done|]. split; [done|lia].
  - rewrite <- Z.add_assoc. destruct (IH (q + 1) ltac:(lia) ltac:(lia)) as [[-> Hno]|(p & Hp & -> & Ep & Hno)]; [left|right].
    + split; [done|]. intros t Ht. destruct (Z.eq_dec t q) as [->|]; [done|apply Hno; lia].
    + exists p. split; [lia|]. split; [done|]. split; [done|]. intros t Ht. destruct (Z.eq_dec t q) as [->|]; [done|apply Hno; lia].
Qed.
Lemma case_small_loop_spec k : 1 <= n -> forall q, 0 <= q <= H -> H - q < Z.of_nat k -> none_before q ->
  exists r, Strcasestr.strcasestr_small_loop k m (hs + q) (u32 (ne + 1)) (x 0) (n - 1) = Some r /\ found r.
Proof using All.
  pose proof case_range as (R1 & R2 & R3 & R4 & R5 & R6). intros Hn1. induction k as [|k IH]; intros q Hq Hk Hb; [lia|]. cbn [Strcasestr.strcasestr_small_loop].
  destruct (find_first_spec (S k) q Hq Hk) as [[-> Hno]|(p & Hp & -> & Ep & Hno)]; cbn [mbind option_bind].
  - exists 0. split; [done|]. right. split; [|done]. intros j Hj Hle Ho. destruct (Z.ltb_spec j q); [by apply (Hb j)|].
    apply (Hno j ltac:(lia)). rewrite (Ho 0) by lia. f_equal. lia.
  - assert (none_before p) as Hbp.
    { replace p with (q + (p - q)) by lia. apply none_skip; [done|]. intros d Hd Ho. apply (Hno (q + d) ltac:(lia)). rewrite (Ho 0) by lia. f_equal. lia. }
    assert (strncasecmp m (hs + p + 1) (u32 (ne + 1)) (n - 1) = 0 <-> occurs x n y p) as Hocc.
    { rewrite case_compare by lia. split.
      - intros Ht t Hti. destruct (Z.eq_dec t 0) as [->|]; [by rewrite Z.add_0_r|]. specialize (Ht (t - 1) ltac:(lia)). replace (1 + (t - 1)) with t in Ht by lia.
        rewrite <- Ht. unfold y. do 2 f_equal. lia.
      - intros Ho t Hti. rewrite Ho by lia. unfold y. do 2 f_equal. lia. }
    destruct (Z.eqb_spec (strncasecmp m (hs + p + 1) (u32 (ne + 1)) (n - 1)) 0) as [E|E]; cbn [negb].
    + apply Hocc in E. rewrite u32_small by (unfold is_u32; lia). exists (hs + p + 1 - 1). split; [done|]. left. exists p. split; [lia|]. split; [apply case_inside; [lia|done]|].
      split; [done|]. split; [done|]. rewrite u32_small by (unfold is_u32; lia). lia.
    + rewrite <- Z.add_assoc. apply IH; [lia|lia|]. apply none_skip; [done|]. intros d Hd Ho. replace d with 0 in Ho by lia. rewrite Z.add_0_r in Ho. by apply E, Hocc.
Qed.
Lemma strcasestr_small_spec : exists r, Strcasestr.strcasestr_small fuel m hs ne = Some r /\ found r.
Proof using All.
  pose proof case_range as (R1 & R2 & R3 & R4 & R5 & R6). unfold Strcasestr.strcasestr_small. pose proof (case_zero 0 ltac:(lia)) as Ez. rewrite Z.add_0_r in Ez. rewrite Ez.
  destruct (Z.eqb_spec 0 n) as [E0|N0]; cbn [negb].
  - exists hs. split; [done|]. left. exists 0. rewrite Z.add_0_r, u32_small by (unfold is_u32; lia). split; [lia|]. split; [lia|]. split; [intros t Ht; lia|]. split; [apply none_before_0|done].
  - cbv zeta. rewrite (u32_small (ne + 1)) by (unfold is_u32; lia).
    destruct (strlen_measures fuel m (ne + 1) (drop (Z.to_nat 1) ln) (string_drop m ne ln 1 Sn ltac:(unfold n in *; lia))) as [-> _]; [rewrite length_drop; unfold n in *; lia|].
    cbn [mbind option_bind]. rewrite length_drop. replace (Z.of_nat (length ln - Z.to_nat 1)) with (n - 1) by (unfold n; lia).
    replace (Strcasestr.lower_at m ne) with (x 0) by (unfold x, Strcasestr.lower_at; by rewrite Z.add_0_r).
    pose proof (case_small_loop_spec fuel ltac:(lia) 0) as Hl. rewrite Z.add_0_r, (u32_small (ne + 1)) in Hl by (unfold is_u32; lia). apply Hl; [lia|lia|apply none_before_0].
Qed.
End StrcasestrProofs.

(** ** strnstr *)

Section StrnstrProofs.
Context (m : Mem) (hs L ne Hz : Z) (ln : list Z) (fuel : nat).
Context (Sn : string_in m ne ln).
Let n := Z.of_nat (length ln).
Context (Hhs : 0 < hs /\ 0 <= L /\ hs + L < 4294967296) (HfL : L < Z.of_nat fuel).
(** The haystack ends at its first NUL, or after [L] characters. *)
Context (Hlen : 0 <= Hz <= L) (Hchar : forall t, 0 <= t < Hz -> loadb m (hs + t) <> 0) (Hend : Hz = L \/ loadb m (hs + Hz) = 0).
Let x (t : Z) := loadb m (ne + t).
Let y (t : Z) := loadb m (hs + t).

Lemma strnstr_occurs j : 0 <= j -> occurs x n y j -> j + n <= Hz \/ Hz < j \/ n = 0 \/ L < j + n.
Proof using All.
  intros Hj Ho. destruct (Z.leb_spec (j + n) Hz); [by left|]. destruct (Z.ltb_spec Hz j); [by right; left|]. destruct (Z.leb_spec (j + n) L); [|lia].
  right; right; left. destruct Hend as [|Hnul]; [lia|]. destruct (Z.eq_dec n 0); [done|]. exfalso.
  apply (string_char m ne ln (Hz - j) Sn); [fold n; lia|]. change (loadb m (ne + (Hz - j))) with (x (Hz - j)).
  rewrite Ho by lia. unfold y. by replace (j + (Hz - j)) with Hz by lia.
Qed.

Lemma strnstr_spec : exists r, strnstr fuel m hs ne L = Some r /\ Factorization.found x n y Hz hs r.
Proof using All.
  pose proof Sn as (_ & Hn0 & Hn1). fold n in Hn1. unfold strnstr. rewrite (strnlen_spec m ne ln L Sn) by lia. fold n.
  assert (loadb m (ne + Z.min L n) = 0 <-> n <= L) as Ez.
  { destruct (Z.leb_spec n L); [rewrite Z.min_r by lia; split; [done|intros _; apply (cstring_end m ne ln), Sn]|].
    rewrite Z.min_l by lia. split; [|lia]. intros E. by apply (string_char m ne ln L Sn) in E; [|fold n; lia]. }
  assert ((Z.min L n <? L) || (loadb m (ne + Z.min L n) =? 0) = (n <=? L)) as ->.
  { apply eq_true_iff_eq. rewrite orb_true_iff, Z.ltb_lt, Z.eqb_eq, Z.leb_le, Ez. lia. }
  destruct (Z.leb_spec n L) as [Hle|]; [|exists 0; split; [done|]; right; split; [lia|done]]. rewrite Z.min_r by lia.
  destruct (memmem_spec m hs L ne n fuel ltac:(lia) ltac:(unfold n in *; lia) HfL) as (r & -> & Hr). cbn [mbind option_bind].
  destruct Hr as [(k & Hk & Hkl & Ho & Hb & ->)|(Hno & ->)].
  - rewrite u32_small by (unfold is_u32, n in *; lia). rewrite (proj2 (Z.eqb_neq _ 0)) by lia. replace (hs + k - hs) with k by lia. rewrite u32_small by (unfold is_u32, n in *; lia).
    destruct (memchr_spec m hs 0 k) as (z & -> & Hzr); [unfold is_u32; lia|lia|]. cbn [mbind option_bind]. change (u8 0) with 0 in Hzr. eexists. split; [done|].
    destruct Hzr as [(q & Hq & Eq & Hnq & ->)|(Hnq & ->)].
    + rewrite Z.mul_1_l in *. assert (Hz <= q) by (destruct (Z.leb_spec Hz q); [done|]; by destruct (Hchar q ltac:(lia))).
      rewrite (u32_small (hs + q)) by (unfold is_u32, n in *; lia). rewrite (proj2 (Z.eqb_neq _ 0)) by lia. right. split; [|done]. intros j Hj Hjl Hoj. apply (Hb j); [unfold n in *; lia|done].
    + cbn [Z.eqb]. assert (k <= Hz) as HkHz.
      { destruct (Z.leb_spec k Hz); [done|]. destruct Hend as [|Hnul]; [unfold n in *; lia|]. exfalso. apply (Hnq Hz ltac:(lia)). by rewrite Z.mul_1_l. }
      left. exists k. split; [done|]. split; [destruct (strnstr_occurs k Hk Ho); unfold n in *; lia|]. split; [done|]. split; [done|]. symmetry. apply u32_small. unfold is_u32, n in *. lia.
  - cbn [Z.eqb]. exists 0. split; [done|]. right. split; [|done]. intros j Hj Hjl. apply Hno; [done|lia].
Qed.
End StrnstrProofs.

(** ** The theorems *)

Lemma string_at m p l t : string_in m p l -> 0 <= t < Z.of_nat (length l) -> loadb m (p + t) = at_index l t.
Proof.
  intros (Hs & _) Ht. destruct (lookup_lt_is_Some_2 l (Z.to_nat t) ltac:(lia)) as [c Hc].
  destruct (cstring_lookup m p l (Z.to_nat t) c Hs Hc) as [E _]. rewrite Z2Nat.id in E by lia. unfold at_index. by rewrite (list_lookup_total_correct _ _ _ Hc).
Qed.
Lemma bytes_at m p n t : 0 <= t < Z.of_nat n -> loadb m (p + t) = at_index (bytes m p n) t.
Proof.
  intros Ht. unfold at_index. symmetry. apply list_lookup_total_correct. rewrite bytes_lookup by lia. by rewrite Z2Nat.id by lia.
Qed.
Lemma at_index_map (f : Z -> Z) l t : 0 <= t < Z.of_nat (length l) -> at_index (f <$> l) t = f (at_index l t).
Proof.
  intros Ht. destruct (lookup_lt_is_Some_2 l (Z.to_nat t) ltac:(lia)) as [c Hc]. unfold at_index. rewrite (list_lookup_total_correct l _ _ Hc).
  apply list_lookup_total_correct. by rewrite list_lookup_fmap, Hc.
Qed.

(** C32: memmem finds the first occurrence.  For every haystack and needle in memory and whatever the
    needle's length, memmem ends and returns the address of the first place in the haystack where
    the needle's bytes stand, or NULL; the search by hashed pairs and the Two-Way search agree on it,
    and so does the short version for needles of at most 2^31 bytes that are no longer than the
    address behind the haystack (for longer ones its last place is no place of the haystack). *)
Theorem memmem_first (fuel : nat) (m : Mem) (hs H ne n : Z) :
  0 <= hs -> 0 <= H -> hs + H < 4294967296 -> 0 <= ne -> 0 <= n -> ne + n < 4294967296 -> H + n < Z.of_nat fuel ->
  let r := pointer hs (first_at (bytes m ne (Z.to_nat n)) (bytes m hs (Z.to_nat H))) in
  Memmem.memmem fuel m hs H ne n = Some r /\ (n <= 2147483648 -> n <= hs + H -> Memmem.memmem_small fuel m hs H ne n = Some r).
Proof.
  intros Hhs HH Ht Hne Hn Hnt Hf r.
  assert (forall r', Factorization.found (fun t => loadb m (ne + t)) n (fun t => loadb m (hs + t)) H hs r' -> r' = r) as Hr.
  { intros r' Hr'. pose proof (found_answer (fun t => loadb m (ne + t)) (fun t => loadb m (hs + t)) (bytes m ne (Z.to_nat n)) (bytes m hs (Z.to_nat H)) hs) as Ha.
    rewrite !bytes_length, !Z2Nat.id in Ha by lia. apply Ha; [| |done]; intros t Hti; apply bytes_at; lia. }
  split.
  - destruct (memmem_spec m hs H ne n fuel ltac:(lia) ltac:(lia) ltac:(lia)) as (r' & -> & Hr'). f_equal. by apply Hr.
  - intros Hn31 Hnh. unfold Memmem.memmem_small. destruct (Z.eqb_spec n 0) as [E0|N0].
    + f_equal. apply Hr. left. exists 0. rewrite Z.add_0_r, u32_small by (unfold is_u32; lia). split; [lia|]. split; [lia|]. split; [intros t Hti; lia|]. split; [apply none_before_0|done].
    + destruct (memmem_small_loop_spec m hs H ne n fuel ltac:(lia) ltac:(lia) ltac:(lia) fuel ltac:(lia) ltac:(lia) Hnh 0) as (r' & E & Hr'); [lia|lia|apply none_before_0|].
      rewrite Z.add_0_r in E. rewrite u32_small by (unfold is_u32; lia). replace (hs + H - n) with (hs + (H - n)) by lia. rewrite E. f_equal. by apply Hr.
Qed.

(** C31: strstr finds the first occurrence.  For every pair of strings, strstr ends and returns the
    address of the first place in the first where the second stands, or NULL: the registers for
    one to four characters, the table of skips with its growing bound, the Two-Way search for needles
    from 255 characters on, and the short version agree on it. *)
Theorem strstr_first (fuel : nat) (m : Mem) (hs ne : Z) (lh ln : list Z) :
  string_in m hs lh -> string_in m ne ln -> hs + Z.of_nat (length lh) + 1 < 4294967296 -> (length lh + length ln + 1 < fuel)%nat ->
  let r := pointer hs (first_at ln lh) in Strstr.strstr fuel m hs ne = Some r /\ Strstr.strstr_small fuel m hs ne = Some r.
Proof.
  intros Sh Sn Ht Hf r.
  assert (forall r', Factorization.found (fun t => loadb m (ne + t)) (Z.of_nat (length ln)) (fun t => loadb m (hs + t)) (Z.of_nat (length lh)) hs r' -> r' = r) as Hr.
  { intros r' Hr'. apply (found_answer (fun t => loadb m (ne + t)) (fun t => loadb m (hs + t))); [| |done]; intros t Hti; by apply string_at. }
  destruct (strstr_spec m hs ne lh ln fuel Sh Sn Ht ltac:(lia) ltac:(lia)) as (r1 & -> & H1).
  destruct (strstr_small_spec m hs ne lh ln fuel Sh Sn Ht ltac:(lia) ltac:(lia) ltac:(lia)) as (r2 & -> & H2). split; f_equal; by apply Hr.
Qed.

(** Strcasestr finds the first occurrence without regard to case.  For every pair of strings, both
    versions of strcasestr end and return the first place where the needle stands when both are
    written in lower case, or NULL, for short needles and for long ones. *)
Theorem strcasestr_first (fuel : nat) (m : Mem) (hs ne : Z) (lh ln : list Z) :
  string_in m hs lh -> string_in m ne ln -> hs + Z.of_nat (length lh) + 1 < 4294967296 -> (length lh + length ln + 1 < fuel)%nat ->
  let r := pointer hs (first_at (NewlibCtype.tolower <$> ln) (NewlibCtype.tolower <$> lh)) in
  Strcasestr.strcasestr fuel m hs ne = Some r /\ Strcasestr.strcasestr_small fuel m hs ne = Some r.
Proof.
  intros Sh Sn Ht Hf r.
  assert (forall r', Factorization.found (fun t => lower (loadb m (ne + t))) (Z.of_nat (length ln)) (fun t => lower (loadb m (hs + t))) (Z.of_nat (length lh)) hs r' -> r' = r) as Hr.
  { intros r' Hr'. apply (found_answer (fun t => lower (loadb m (ne + t))) (fun t => lower (loadb m (hs + t)))); rewrite ?length_fmap; [| |done]; intros t Hti;
      rewrite at_index_map by done; f_equal; by apply string_at. }
  destruct (strcasestr_spec m hs ne lh ln fuel Sh Sn Ht ltac:(lia) ltac:(lia)) as (r1 & -> & H1).
  destruct (strcasestr_small_spec m hs ne lh ln fuel Sh Sn Ht ltac:(lia) ltac:(lia)) as (r2 & -> & H2). split; f_equal; by apply Hr.
Qed.

(** Strnstr finds the first occurrence in a bounded haystack.  For a haystack whose text [lh] ends at
    its first NUL or after [L] characters, strnstr ends and returns the first place in the text where
    the needle stands, or NULL, also when memory behind the text holds the needle. *)
Theorem strnstr_first (fuel : nat) (m : Mem) (hs ne L : Z) (lh ln : list Z) :
  string_in m ne ln -> 0 < hs -> hs + L < 4294967296 -> L < Z.of_nat fuel ->
  bytes m hs (length lh) = lh -> Forall (fun c => c <> 0) lh -> Z.of_nat (length lh) <= L ->
  Z.of_nat (length lh) = L \/ loadb m (hs + Z.of_nat (length lh)) = 0 ->
  strnstr fuel m hs ne L = Some (pointer hs (first_at ln lh)).
Proof.
  intros Sn Hhs Ht Hf Hb Hc Hl Hend.
  assert (forall t, 0 <= t < Z.of_nat (length lh) -> loadb m (hs + t) = at_index lh t) as Hat by (intros t Hti; rewrite <- Hb at 1; by apply bytes_at).
  destruct (strnstr_spec m hs L ne (Z.of_nat (length lh)) ln fuel Sn ltac:(lia) Hf ltac:(lia)) as (r & -> & Hr).
  - intros t Hti. rewrite Hat by done. rewrite Forall_lookup in Hc. destruct (lookup_lt_is_Some_2 lh (Z.to_nat t) ltac:(lia)) as [c Ec].
    unfold at_index. rewrite (list_lookup_total_correct _ _ _ Ec). by apply (Hc _ _ Ec).
  - done.
  - f_equal. apply (found_answer (fun t => loadb m (ne + t)) (fun t => loadb m (hs + t))); [|done|done]. intros t Hti. by apply string_at.
Qed.

(** ** Concrete searches *)

(** "abcabcabdabcabcabe" and, at 8192, "abcabcabe"; at 12288, "BCABD". *)
Definition ex_search : Mem :=
  storel (storel (storel (fun _ => 0) 4096 (str "abcabcabdabcabcabe")) 8192 (str "abcabcabe")) 12288 (str "BCABD").

Lemma ex_haystack : string_in ex_search 4096 (str "abcabcabdabcabcabe").
Proof. split; [vm_compute; repeat split; discriminate|split; vm_compute; congruence]. Defined.
Lemma ex_needle : string_in ex_search 8192 (str "abcabcabe").
Proof. split; [vm_compute; repeat split; discriminate|split; vm_compute; congruence]. Defined.
Lemma ex_upper : string_in ex_search 12288 (str "BCABD").
Proof. split; [vm_compute; repeat split; discriminate|split; vm_compute; congruence]. Defined.

Lemma memmem_first_witness : Memmem.memmem 40 ex_search 4096 18 8192 9 = Some 4105.
Proof. destruct (memmem_first 40 ex_search 4096 18 8192 9) as [E _]; [lia..|]. rewrite E. vm_compute. reflexivity. Defined.
Lemma strstr_first_witness : Strstr.strstr 40 ex_search 4096 8192 = Some 4105.
Proof.
  destruct (strstr_first 40 ex_search 4096 8192 _ _ ex_haystack ex_needle) as [E _]; [vm_compute; reflexivity|apply Nat.ltb_lt; vm_compute; reflexivity|].
  rewrite E. vm_compute. reflexivity.
Defined.
Lemma strcasestr_first_witness : Strcasestr.strcasestr 40 ex_search 4096 12288 = Some 4100.
Proof.
  destruct (strcasestr_first 40 ex_search 4096 12288 _ _ ex_haystack ex_upper) as [E _]; [vm_compute; reflexivity|apply Nat.ltb_lt; vm_compute; reflexivity|].
  rewrite E. vm_compute. reflexivity.
Defined.
Lemma strnstr_first_witness : strnstr 40 ex_search 4096 8192 17 = Some 0.
Proof.
  rewrite (strnstr_first 40 ex_search 4096 8192 17 (str "abcabcabdabcabcab") _ ex_needle); try (vm_compute; reflexivity).
  - vm_compute. repeat constructor; discriminate.
  - vm_compute. discriminate.
  - left. vm_compute. reflexivity.
Defined.

(** The Two-Way search itself runs: a periodic needle of 300 characters behind a near miss. *)
Definition ex_long_needle : list Z := concat (replicate 100 (str "aab")).
Definition ex_long : Mem := storel (storel (fun _ => 0) 4096 (str "aabaab" ++ str "c" ++ ex_long_needle)) 8192 ex_long_needle.
Example long_needle_runs : Memmem.memmem 400 ex_long 4096 307 8192 300 = Some 4103.
Proof. vm_compute. reflexivity. Qed.
End StrSearchSpec.
